(* ===== verification/_CoqProject ===== *)
-Q . S2P
Prelude.v
Ring.v
Packet.v
SeqNo.v
Slots.v
SndLossList.v
RcvLossList.v
FreshLoss.v
LossReport.v
TsbPd.v
AckWindow.v
UnitQueue.v
RcvBuffer.v
RcvBufferInv.v
RcvBufferRead.v
SndBuffer.v
SndRexmit.v
SndPack.v
Transfer.v
SndUList.v
FecGroup.v
FecSend.v
FecRecv.v
FecRows.v
FecLoss.v
RateWindow.v
Reception.v
ReceptionInv.v
ReceptionDrop.v
AckSend.v
AckSendInv.v
ReceiverRun.v
AckRecv.v
RcvQueue.v
RcvQueueInv.v
RcvQueueRun.v
Epoll.v
EpollInv.v
EpollRun.v
Handshake.v
FilterConfig.v
HsExt.v
HsExtInv.v
HsExtRun.v
HsExtTyped.v
Rendezvous.v
RdvNet.v
RdvParty.v
RdvStep.v
RdvRun.v
RdvFault.v
