(* ===== verification/Prelude.v ===== *)
(** * The SRT transport library of srt-vpn

    The repository is a VPN around the SRT library (src/srt-1.5.6).  The
    program modelled here is the core of that library, srtcore: a connection
    takes messages from an application, cuts them into packets, sends and
    retransmits them over UDP, and gives the messages to the application on
    the other side, each at the time at which it was sent plus a fixed latency.
    All paths below are relative to src/srt-1.5.6/srtcore/.

    ** How the parts interact

    On the sending side [CUDT::sendmsg2] puts a message into [CSndBuffer]
    (buffer_snd.cpp) as numbered packets.  The sender's worker takes from
    [CSndUList] (queue.cpp) the connection whose turn it is and calls
    [CUDT::packData] (core.cpp), which sends either the lowest loss of
    [CSndLossList] (list.cpp) again or the next new packet, and says when the
    connection's next turn is.  An ACK moves both the buffer and the loss list
    on; a loss report adds to the loss list; packets that are too late are
    dropped from both.

    On the receiving side a packet arrives in a unit of [CUnitQueue]
    (queue.cpp), [CUDT::processData] puts it into [CRcvBuffer]
    (buffer_rcv.cpp) and notes the gaps in [CRcvLossList] and, while reordering
    may still fill them, in the queue of [CRcvFreshLoss] records (list.cpp).
    Losses are reported to the sender.  The application reads messages, or a
    stream of bytes, from the buffer; [CTsbpdTime] (tsbpd_time.cpp) says when
    each is due.  [CACKWindow] (window.cpp) remembers the ACKs sent, to
    recognise their ACKACKs.

    With the packet filter on, [PacketFilter] (packetfilter.cpp) and its built-in
    [FECFilterBuiltin] (fec.cpp) stand between: the sender feeds each new packet
    to it and sends the control packets it makes of rows and columns of packets;
    the receiver passes each packet through it and gets back also the packets
    that could be rebuilt, and the losses to report.

    Before all this, [CUDT::startConnect] (core.cpp) exchanges handshakes
    ([CHandShake], handshake.h) with a listener, or with another connecting
    party in a rendezvous; their extension blocks carry the versions, flags and
    latencies of the two sides, the stream ID, the packet filter and the keys.

    Everything is indexed by 31-bit circular sequence numbers (common.h) and
    carried in the header fields of packet.h.

    ** The files

    - Prelude.v (this file): 32-bit integers, arrays indexed by [int]
      ([a.[i]], [a.[i <- x]]), loops with fuel, automation.  Ring.v: arrays
      used as ring buffers.  Slots.v: interval lists kept in a ring of slots,
      the data structure of both loss lists.  These two model no code.
    - SeqNo.v: [CSeqNo], [CAckNo], [RollNumber] of common.h, as integers and
      in [int] arithmetic where an overflow is [None].  Packet.v: [Bits] of
      utilities.h, [CPacket] of packet.h and packet.cpp.
    - SndLossList.v, RcvLossList.v, FreshLoss.v: the classes of list.cpp.
      LossReport.v: the functions of core.cpp that build and process loss
      reports and handle belated packets ([processCtrlLossReport], [unlose],
      [dropFromLossLists], parts of [processData]).
    - TsbPd.v: [CTsbpdTime] and [DriftTracer].  AckWindow.v: [CACKWindow].
      UnitQueue.v: [CUnitQueue], and the interface [UnitPool] through which the
      receiver buffer uses it.
    - RcvBuffer.v: [CRcvBuffer]; RcvBufferInv.v: its invariant, insertion and
      dropping; RcvBufferRead.v: reading.
    - SndBuffer.v: [CSndBuffer]; SndRexmit.v: retransmission, acknowledgement
      and too-late drop in core.cpp; SndPack.v: [packData],
      [packUniqueData], [packLostData] and the pace of sending.
    - Transfer.v: sender and receiver buffer composed.
    - SndUList.v: [CSndUList].
    - FecGroup.v: the groups of fec.cpp, the control packet made of one and the
      packet rebuilt from one.  FecSend.v: the sender's side of the packet
      filter ([FECFilterBuiltin], [PacketFilter]).  FecRecv.v: the receiver's
      side, rows and columns.  FecRows.v: what it does with rows only.
      FecLoss.v: the losses it reports.
    - RateWindow.v: [CPktTimeWindow], the intervals between arrivals and
      between packet pairs, and the rates estimated from them.
    - Reception.v: arrival of data packets in core.cpp ([CUDT::processData]),
      with the drops; ReceptionInv.v: the receiver's invariant, buffer and loss
      list in step; ReceptionDrop.v: the drops, and what cannot be decrypted.
    - AckSend.v, AckSendInv.v: ACKs and the round-trip time at the receiver;
      ReceiverRun.v: runs of a receiver; AckRecv.v: ACKs at the sender.
    - RcvQueue.v: [CRcvUList], [CHash], [CRendezvousQueue] and the worker of
      [CRcvQueue] (queue.cpp); RcvQueueInv.v: list and table; RcvQueueRun.v: the
      queue against its specification.
    - Epoll.v: [CEPollDesc] and [CEPoll] (epoll.h, epoll.cpp); EpollInv.v: a poll
      against two plain tables; EpollRun.v: runs of operations on a poll.
    - Handshake.v: [CHandShake] and [SrtHSRequest] (handshake.h, handshake.cpp),
      request types, reject reasons, the cookie contest of core.cpp.
      FilterConfig.v: the configuration string of the packet filter and its
      negotiation.  HsExt.v: the extension blocks of the handshake,
      [createSrtHandshake] and [interpretSrtHandshake] of core.cpp;
      HsExtInv.v: what a request and a response do; HsExtRun.v: the exchange;
      HsExtTyped.v: the interpretation keeps the state well typed.
    - Rendezvous.v: connecting ([startConnect], [processConnectResponse],
      [processRendezvous], [rendezvousSwitchState], [postConnect], the
      asynchronous functions, [processCtrlHS]).  RdvNet.v: two parties and the
      network between them; RdvParty.v: a party and each message that can come;
      RdvStep.v: one step of a party; RdvRun.v: runs; RdvFault.v: where the
      rendezvous breaks.

    A component is a Module with the name of the class; its Record [t] has the
    members of the class, its functions have the names of the methods and the
    branches of their bodies.  A method that changes the object returns the new
    object; an output parameter is a component of the result.  The clock, the
    success of an allocation, and files are arguments.  The locks are left
    out, since each of the methods runs under the lock of its object.  Log
    messages, statistics and debug traces are left out.

    ** What the theorems show

    - Numbers and headers: the circular operations agree with integer
      arithmetic within half a cycle ([seqno_window_arith]) and where they
      overflow [int] ([seqno_int_safe]); what is written into a bit field is
      read back ([bits_roundtrip]); byte order round trip
      ([byte_order_roundtrip]).
    - Loss lists: every operation of both lists does to a set of positions what
      it should, for any sequence of operations ([snd_refines_set],
      [snd_insert], [rcv_insert], [rcv_remove], [rcv_remove_ranges], ...); a loss report arrives as the set that
      was sent ([loss_report_delivered]), a wrong one breaks the connection
      ([loss_report_rejected]).
    - Receiver buffer: the meaning of [insert], [dropUpTo], [readMessage] and
      [readBuffer] in terms of the packets held ([rcvbuf_insert], ...), under an
      invariant that all of them keep; its units come from the pool and go back
      to it ([next_avail_unit]).
    - Sender buffer and sending: what is stored, read, retransmitted, dropped
      and acknowledged ([sndbuf_addBuffer], [sndbuf_readData], [snd_packUnique],
      [snd_packLost], [rexmit_choice], [snd_ack_and_drop]), the pace
      ([snd_pacing]), and the loop that never ends on an expired packet
      ([rexmit_never_ends]).
    - Delivery: 32-bit timestamps behave like a clock that never wraps
      ([tsbpd_refines_clock]); a message that was added to the sender's buffer
      is read from the receiver's, whatever the order and the number of
      arrivals of its packets ([message_transfer]).
    - Schedule: the heap refines a map from sockets to times
      ([ulist_refines_schedule]) and gives the earliest one while it is ordered
      ([ulist_earliest]); removal, and an update to an earlier time, may break
      the order ([ulist_remove_misplaces], [ulist_update_misplaces]).
    - Packet filter: the sender makes exactly the control packets of a grid of
      rows and columns ([fec_controls]); a group that lacks one packet gives
      it ([fec_group_recovers]); with rows only the receiver completes every row
      that lacks one packet, whatever the order of arrival
      ([fec_rows_recover]), reports more than the missing packets
      ([fec_row_losses]) and loses its way after a large gap ([fec_large_gap]).
      With columns the receiver is modelled, but no theorem speaks of it.
    - Reception: the loss list and the buffer of the receiver agree
      ([rcv_arrival], [rcv_drop_too_late]), but not after a packet that cannot
      be decrypted ([rcv_undecrypted_gap]).
    - Acknowledgement: an ACK never promises more than what has arrived or was
      given up ([acks_are_true]); what the sender does with one
      ([snd_full_ack], [snd_lite_ack], [snd_ack_unchecked]); the bounds of the
      round-trip time ([ackack_rtt]).
    - Rates: the meaning of the estimates ([rate_bandwidth], [rate_pairs]).
    - Receiver queue: the worker serves the sockets as a plain list would
      ([rcvq_refines]) and gives a packet only to the connected socket it is
      for ([rcvq_delivers]).
    - Event polling: subscriptions and notices stay fitted together
      ([epoll_refines]), no level-triggered readiness is lost
      ([epoll_level_ready]), but events that are not subscribed are reported
      ([epoll_unsubscribed_events]) and a later
      subscription replaces an earlier one ([epoll_last_subscription]).
    - Handshake: structures and blocks are read as they were written
      ([hs_roundtrip], [hs_blocks_roundtrip], [sid_roundtrip],
      [filter_config_roundtrip]); the cookies give the two sides opposite roles
      ([cookie_contest_roles]); whatever arrives, the interpretation returns and
      keeps the state well typed ([interpret_typed]); both sides agree about
      the latencies, unless one needs more than 16 bits
      ([hs_latency_negotiated]), and about the packet filter
      ([filter_agreed]).
    - Rendezvous: two parties over a network that loses and repeats packets
      never give up and agree about the latencies ([rdv_safe]), and can
      always still be connected ([rdv_live]).  They give up when the network
      overtakes packets ([rdv_out_of_order], [ctrl_hs_late]), and in the
      asynchronous mode when the responder has to repeat its answer
      ([rdv_async_resend]).

    ** Loops and fuel

    A [while] loop is [loop fuel step state]; the result [None] means that the
    fuel was too little.  Each component's [fuel] is one more than the number
    of slots, cells, blocks or heap entries, which the loop visits at most once
    each; the theorems state that the result is not [None] in every state in
    which the invariant holds.  The one loop without such a bound is that of
    [extractCleanRexmitPacket], whose fuel is an argument: for it the theorems
    show when it ends and that it does not in the other case.
    The recursion of [RcvRebuild] between rows and columns has its fuel as an
    argument; with rows only one call is enough, as [fec_rows_recover] shows.
    The searches through the blocks of a handshake have one more than the words
    of the packet, of which each step takes at least one.

    ** What is not modelled

    The listener's side of connecting, socket and group management (bonding is
    off), encryption and the congestion control are not modelled: they are bound to
    operating-system sockets, threads, floating-point rates or the OpenSSL and
    haicrypt libraries.  The threads and the UDP channel are input and output; of
    the receiver's worker thread one turn is modelled, its packet and its
    clock being arguments.  The branch of the receiver queue that connects in the
    background is left out: [updateConnStatus], the packet that is kept when
    the peer already sends data ([CONN_CONFUSED], queue.cpp:1597) and the data
    packet that completes a connection (queue.cpp:1612).  In the handshake
    [CCryptoControl] is an interface and the table of packet filters a
    parameter; the theorems on runs of the rendezvous are about parties without
    encryption and packet filter, whose packets keep their order in each
    direction, that are neither closed nor out of time.  Moving averages of buffer sizes and
    rates are floating point.  The tunnel in src/src/ is Rust code around the
    library, which exchanges datagrams with the system.  PROJECT.json lists
    every part with its reason. *)
From Stdlib Require Export ZArith Lia Bool.
From stdpp Require Export base list gmap numbers.

#[global] Open Scope Z_scope.
Declare Scope srt_scope.
Delimit Scope srt_scope with srt.
#[global] Open Scope srt_scope.

(** ** Machine integers *)

(** Conversions of an arbitrary integer to [uint32_t] and [int32_t]. *)
Definition u32 (z : Z) : Z := z mod 2 ^ 32.
Definition i32 (z : Z) : Z := (z + 2 ^ 31) mod 2 ^ 32 - 2 ^ 31.

Definition in_i32 (z : Z) : Prop := - 2 ^ 31 <= z < 2 ^ 31.
Definition in_u32 (z : Z) : Prop := 0 <= z < 2 ^ 32.

#[export] Instance in_i32_dec z : Decision (in_i32 z).
Proof. unfold in_i32. apply _. Defined.
#[export] Instance in_u32_dec z : Decision (in_u32 z).
Proof. unfold in_u32. apply _. Defined.

(** The result of a signed [int] operation; [None] when it leaves the
    32-bit range, where C++ gives the program no meaning. *)
Definition int_op (z : Z) : option Z := if decide (in_i32 z) then Some z else None.

Lemma int_op_Some z : in_i32 z -> int_op z = Some z.
Proof. intros H. unfold int_op. by rewrite decide_True. Qed.

Lemma int_op_None z : ~ in_i32 z -> int_op z = None.
Proof. intros H. unfold int_op. by rewrite decide_False. Qed.

Lemma i32_range z : in_i32 (i32 z).
Proof. unfold in_i32, i32. pose proof (Z.mod_pos_bound (z + 2 ^ 31) (2 ^ 32)). lia. Qed.

Lemma i32_id z : in_i32 z -> i32 z = z.
Proof. unfold in_i32, i32. intros ?. rewrite Z.mod_small; lia. Qed.

Lemma u32_range z : in_u32 (u32 z).
Proof. unfold in_u32, u32. apply Z.mod_pos_bound. lia. Qed.

Lemma u32_id z : in_u32 z -> u32 z = z.
Proof. unfold in_u32, u32. intros ?. rewrite Z.mod_small; lia. Qed.

(** [int] division of nonnegative operands, as C++ writes [%]. *)
Lemma rem_nonneg a b : 0 <= a -> 0 < b -> Z.rem a b = a mod b.
Proof. intros. apply Z.rem_mod_nonneg; lia. Qed.

(** ** Arrays indexed by [int] *)

(** Reading or writing outside of the array has no meaning in the source;
    the read then gives the default element and the write does nothing, and
    the invariants of the components show that it does not happen. *)
Definition aget {A} `{Inhabited A} (l : list A) (i : Z) : A :=
  if i <? 0 then inhabitant else l !!! Z.to_nat i.

Definition aset {A} (l : list A) (i : Z) (x : A) : list A :=
  if i <? 0 then l else <[Z.to_nat i := x]> l.

(** [a[i].field = v], as [f] writes the field. *)
Definition aupd {A} `{Inhabited A} (l : list A) (i : Z) (f : A -> A) : list A :=
  aset l i (f (aget l i)).

#[global] Arguments aget : simpl never.
#[global] Arguments aset : simpl never.
#[global] Arguments aupd : simpl never.

Notation "a .[ i ]" := (aget a i) (at level 1, left associativity, format "a .[ i ]") : srt_scope.
Notation "a .[ i <- x ]" := (aset a i x) (at level 1, left associativity, format "a .[ i  <-  x ]") : srt_scope.

Notation zlen l := (Z.of_nat (length l)) (only parsing).

Section Arrays.
Context {A : Type} `{Inhabited A}.
Implicit Types (l : list A) (i j : Z) (x : A).

Lemma aget_lookup l i x : 0 <= i -> l !! Z.to_nat i = Some x -> l.[i] = x.
Proof. intros Hi Hl. unfold aget. case_match; [lia|]. by apply list_lookup_total_correct. Qed.

Lemma aget_app_l l k i : i < zlen l -> (l ++ k).[i] = l.[i].
Proof. intros Hi. unfold aget. case_match; [done|]. apply lookup_total_app_l. lia. Qed.

Lemma aget_drop l n i : 0 <= i -> (drop n l).[i] = l.[Z.of_nat n + i].
Proof.
  intros Hi. unfold aget. rewrite !(proj2 (Z.ltb_ge _ 0)) by lia. rewrite !list_lookup_total_alt, lookup_drop. do 2 f_equal. lia.
Qed.

Lemma length_aset l i x : length (aset l i x) = length l.
Proof. unfold aset. destruct (i <? 0); [done|]. apply length_insert. Qed.

Lemma aget_aset_eq l i x : 0 <= i < zlen l -> (l.[i <- x]).[i] = x.
Proof.
  intros Hi. unfold aget, aset. destruct (Z.ltb_spec i 0); [lia|].
  apply list_lookup_total_insert_eq. lia.
Qed.

Lemma aget_aset_ne l i j x : i <> j -> (l.[i <- x]).[j] = l.[j].
Proof.
  intros Hij. unfold aget, aset.
  destruct (Z.ltb_spec i 0), (Z.ltb_spec j 0); try done.
  apply list_lookup_total_insert_ne. lia.
Qed.

Lemma aget_aset l i j x : 0 <= i < zlen l ->
  (l.[i <- x]).[j] = if decide (i = j) then x else l.[j].
Proof.
  intros Hi. case_decide as Hd; [subst; by apply aget_aset_eq | by apply aget_aset_ne].
Qed.

Lemma aset_aset_eq l i x y : (l.[i <- x]).[i <- y] = l.[i <- y].
Proof. unfold aset. destruct (i <? 0); [done|]. apply list_insert_insert_eq. Qed.

Lemma length_aupd l i f : length (aupd l i f) = length l.
Proof. apply length_aset. Qed.

Lemma aget_aupd_eq l i f : 0 <= i < zlen l -> (aupd l i f).[i] = f (l.[i]).
Proof. apply aget_aset_eq. Qed.

Lemma aget_aupd_ne l i j f : i <> j -> (aupd l i f).[j] = l.[j].
Proof. apply aget_aset_ne. Qed.

(** Writing a value that is already there changes nothing. *)
Lemma aupd_same l i f : 0 <= i < zlen l -> f (l.[i]) = l.[i] -> aupd l i f = l.
Proof.
  intros Hi Hf. unfold aupd. rewrite Hf. unfold aset, aget.
  destruct (Z.ltb_spec i 0); [done|]. apply list_insert_id.
  apply list_lookup_lookup_total_lt. lia.
Qed.

Lemma aget_replicate n i x : 0 <= i < Z.of_nat n -> (replicate n x).[i] = x.
Proof.
  intros Hi. unfold aget. destruct (Z.ltb_spec i 0); [lia|].
  apply lookup_total_replicate_2. lia.
Qed.
End Arrays.

Lemma bind_Some {A B} (x : A) (f : A -> option B) : (Some x ≫= f) = f x.
Proof. done. Qed.

(** ** Loops *)

(** A loop of the source with at most [fuel] iterations: [step] is one
    iteration, which continues with [inl] or leaves the loop with [inr]. *)
Fixpoint loop {S R : Type} (fuel : nat) (step : S -> S + R) (s : S) : option R :=
  match fuel with
  | O => None
  | Datatypes.S n =>
      match step s with
      | inl s' => loop n step s'
      | inr r => Some r
      end
  end.

(** Total correctness: a measure that each iteration decreases bounds the
    number of iterations, and an invariant gives the result's property. *)
Lemma loop_total {S R} (step : S -> S + R) (I : S -> Prop) (Q : R -> Prop) (m : S -> nat) :
  (forall s, I s -> match step s with inl s' => I s' /\ (m s' < m s)%nat | inr r => Q r end) ->
  forall fuel s, I s -> (m s < fuel)%nat -> exists r, loop fuel step s = Some r /\ Q r.
Proof.
  intros Hstep fuel. induction fuel as [|n IH]; intros s HI Hm; [lia|].
  simpl. specialize (Hstep s HI). destruct (step s) as [s'|r].
  - destruct Hstep as [HI' Hlt]. apply IH; [done|lia].
  - eauto.
Qed.

(** What every step keeps holds at the end. *)
Lemma loop_inv {S R} (step : S -> S + R) (I : S -> Prop) (Q : R -> Prop) :
  (forall s, I s -> match step s with inl s' => I s' | inr r => Q r end) ->
  forall fuel s r, I s -> loop fuel step s = Some r -> Q r.
Proof.
  intros Hstep fuel. induction fuel as [|n IH]; intros s r HI Hl; [done|].
  simpl in Hl. specialize (Hstep s HI). destruct (step s) as [s'|r']; [exact (IH _ _ Hstep Hl)|by injection Hl as <-].
Qed.

(** The state after [n] iterations, when the loop has not ended by then. *)
Fixpoint iterations {S R} (step : S -> S + R) (n : nat) (s : S) : option S :=
  match n with
  | O => Some s
  | S n => match step s with inl s' => iterations step n s' | inr _ => None end
  end.

Lemma loop_running {S R} (step : S -> S + R) n s s' : iterations step n s = Some s' -> loop n step s = None.
Proof. revert s. induction n as [|n IH]; intros s H; [done|]. simpl in *. destruct (step s); [by apply IH|done]. Qed.

(** A loop that has finished does not depend on the fuel left. *)
Lemma loop_mono {S R} (step : S -> S + R) n m s r :
  (n <= m)%nat -> loop n step s = Some r -> loop m step s = Some r.
Proof.
  revert m s. induction n as [|n IH]; intros m s Hle Hl; [done|].
  destruct m as [|m]; [lia|]. simpl in *. destruct (step s) as [s'|r']; [|done].
  apply IH; [lia|done].
Qed.

(** ** Tactics *)

(** Case analysis on the boolean comparisons of a goal, innermost first. *)
Ltac no_if t := lazymatch t with context [if _ then _ else _] => fail | _ => idtac end.
Ltac bdestr_step :=
  match goal with
  | |- context [Z.gtb ?a ?b] => rewrite (Z.gtb_ltb a b)
  | |- context [Z.geb ?a ?b] => rewrite (Z.geb_leb a b)
  | |- context [Z.ltb ?a ?b] => no_if a; no_if b; destruct (Z.ltb_spec a b)
  | |- context [Z.leb ?a ?b] => no_if a; no_if b; destruct (Z.leb_spec a b)
  | |- context [Z.eqb ?a ?b] => no_if a; no_if b; destruct (Z.eqb_spec a b)
  end.
Ltac bdestr := repeat (bdestr_step; simpl negb; simpl andb; simpl orb; cbv iota; try lia).

(** Rewriting with the array lemmas, the index side conditions by [lia]. *)
Ltac arr := repeat first
  [ rewrite aget_aset_eq by (rewrite ?length_aset; lia)
  | rewrite aget_aset_ne by lia
  | rewrite aget_aupd_eq by (rewrite ?length_aset, ?length_aupd; lia)
  | rewrite aget_aupd_ne by lia
  | rewrite length_aset
  | rewrite length_aupd ].
