(* ===== verification/Ring.v ===== *)
(** Arrays used as ring buffers: the cells in use as a list, and how writes
    and moves of the two ends change it.  The file models no code; the ACK
    window and the receiver buffer are laid out this way. *)
From S2P Require Import Prelude.

Section Ring.
Context {A : Type} `{Inhabited A}.
Implicit Types (a : list A) (s n i k : Z).

(** The [n] cells from index [s] on, around the end of the array. *)
Definition ring (a : list A) (s n : Z) : list A :=
  map (fun i => a.[(s + i) mod zlen a]) (seqZ 0 n).

Lemma length_ring a s n : length (ring a s n) = Z.to_nat n.
Proof. unfold ring. by rewrite length_map, length_seqZ. Qed.

Lemma ring_lookup a s n (k : nat) : ring a s n !! k =
  if decide (Z.of_nat k < n) then Some (a.[(s + Z.of_nat k) mod zlen a]) else None.
Proof.
  unfold ring. rewrite list_lookup_fmap. case_decide as Hk.
  - rewrite (lookup_seqZ_lt 0 n k) by lia. cbn. by rewrite Z.add_0_l.
  - by rewrite lookup_seqZ_ge by lia.
Qed.

Lemma ring_nil a s n : n <= 0 -> ring a s n = [].
Proof. intros Hn. unfold ring. by rewrite seqZ_nil. Qed.

Lemma ring_ext a s n b t : (forall k, 0 <= k < n -> a.[(s + k) mod zlen a] = b.[(t + k) mod zlen b]) ->
  ring a s n = ring b t n.
Proof.
  intros Hab. apply list_eq. intros k. rewrite !ring_lookup. case_decide; [|done].
  f_equal. apply Hab. lia.
Qed.

Lemma ring_mod a s n : ring a (s mod zlen a) n = ring a s n.
Proof. apply ring_ext. intros k Hk. by rewrite Zplus_mod_idemp_l. Qed.

Lemma ring_drop a s n k : 0 <= k -> drop (Z.to_nat k) (ring a s n) = ring a (s + k) (n - k).
Proof.
  intros Hk. apply list_eq. intros j. rewrite lookup_drop, !ring_lookup.
  repeat case_decide; try lia; [|done]. do 3 f_equal. lia.
Qed.

Lemma ring_snoc a s n : 0 <= n -> ring a s (n + 1) = ring a s n ++ [a.[(s + n) mod zlen a]].
Proof.
  intros Hn. unfold ring. rewrite seqZ_app by lia. rewrite map_app. cbn. f_equal.
Qed.

Lemma ring_cons a s n : 0 < n -> ring a s n = a.[s mod zlen a] :: ring a (s + 1) (n - 1).
Proof.
  intros Hn. apply list_eq. intros [|k]; rewrite !ring_lookup; cbn [lookup list_lookup].
  - rewrite decide_True by lia. by rewrite Z.add_0_r.
  - fold (ring a (s + 1) (n - 1) !! k). rewrite ring_lookup.
    repeat case_decide; try lia; [|done]. do 3 f_equal. lia.
Qed.

(** Two offsets of the ring name the same cell only when they are equal. *)
Lemma ring_index_inj a s i k : 0 <= i < zlen a -> 0 <= k < zlen a ->
  (s + i) mod zlen a = (s + k) mod zlen a -> i = k.
Proof.
  intros Hi Hk E. pose proof (Z.div_mod (s + i) (zlen a) ltac:(lia)). pose proof (Z.div_mod (s + k) (zlen a) ltac:(lia)).
  rewrite E in *. set (p := (s + i) / zlen a) in *. set (q := (s + k) / zlen a) in *.
  assert (i - k = zlen a * (p - q)) by lia. assert (p = q) by nia. lia.
Qed.

Lemma ring_set_out a s n i x : n <= i < zlen a -> ring (a.[(s + i) mod zlen a <- x]) s n = ring a s n.
Proof.
  intros Hi. apply ring_ext. intros k Hk. rewrite length_aset. apply aget_aset_ne.
  intros E%ring_index_inj; lia.
Qed.

Lemma ring_set_in a s n i x : 0 <= i < n -> n <= zlen a ->
  ring (a.[(s + i) mod zlen a <- x]) s n = <[Z.to_nat i := x]> (ring a s n).
Proof.
  intros Hi Hn. apply list_eq. intros k.
  pose proof (Z.mod_pos_bound (s + i) (zlen a) ltac:(lia)).
  destruct (decide (k = Z.to_nat i)) as [->|Hk].
  - rewrite list_lookup_insert_eq by (rewrite length_ring; lia).
    rewrite ring_lookup, decide_True by lia. rewrite length_aset, Z2Nat.id, aget_aset_eq by lia. done.
  - rewrite list_lookup_insert_ne by done. rewrite !ring_lookup. case_decide; [|done].
    rewrite length_aset, aget_aset_ne; [done|]. intros E%ring_index_inj; lia.
Qed.
End Ring.

#[global] Arguments ring : simpl never.

(** The number of cells from index [t] to index [h], as the source computes it. *)
Lemma ring_dist (t h size : Z) : 0 <= t < size -> 0 <= h < size ->
  (h - t) mod size = if t <=? h then h - t else h + size - t.
Proof.
  intros Ht Hh. destruct (Z.leb_spec t h).
  - apply Z.mod_small. lia.
  - symmetry. apply (Z.mod_unique _ _ (-1)); lia.
Qed.

Lemma ring_next (i size : Z) : 0 <= i < size -> (i + 1) mod size = if i + 1 =? size then 0 else i + 1.
Proof.
  intros Hi. destruct (Z.eqb_spec (i + 1) size) as [->|]; [apply Z.mod_same; lia|apply Z.mod_small; lia].
Qed.
