(* ===== verification/Packet.v ===== *)
(** Packet headers: the bit ranges of utilities.h ([BitsetMask], [Bits]), the
    fields of packet.h and the operations of [CPacket] in packet.cpp.  Header
    words are 32-bit integers, the payload is a list of bytes; the buffers'
    ownership ([allocate], [release]) is left out. *)
From S2P Require Import Prelude.

Module Bits.
(** [BitsetMask<L, R>::value], by the recursion of the template. *)
Fixpoint BitsetMask (L R : nat) : Z :=
  if (L =? R)%nat then Z.shiftl 1 (Z.of_nat R) else
  match L with
  | O => 0
  | Datatypes.S L' => Z.lor (Z.shiftl 1 (Z.of_nat L)) (BitsetMask L' R)
  end.

Definition mask (L R : nat) : Z := BitsetMask L R.
Definition fit (L R : nat) (value : Z) : bool := Z.land (BitsetMask (L - R) 0) value =? value.
Definition wrap (L R : nat) (baseval : Z) : Z := Z.land (u32 (Z.shiftl baseval (Z.of_nat R))) (mask L R).
Definition unwrap (L R : nat) (bitset : Z) : Z := Z.shiftr (Z.land bitset (mask L R)) (Z.of_nat R).
End Bits.

Module CPacket.
Inductive UDTMessageType :=
  | UMSG_HANDSHAKE | UMSG_KEEPALIVE | UMSG_ACK | UMSG_LOSSREPORT | UMSG_CGWARNING | UMSG_SHUTDOWN
  | UMSG_ACKACK | UMSG_DROPREQ | UMSG_PEERERROR | UMSG_END_OF_TYPES | UMSG_EXT.

Definition type_value (type : UDTMessageType) : Z :=
  match type with
  | UMSG_HANDSHAKE => 0 | UMSG_KEEPALIVE => 1 | UMSG_ACK => 2 | UMSG_LOSSREPORT => 3 | UMSG_CGWARNING => 4
  | UMSG_SHUTDOWN => 5 | UMSG_ACKACK => 6 | UMSG_DROPREQ => 7 | UMSG_PEERERROR => 8
  | UMSG_END_OF_TYPES => 9 | UMSG_EXT => 0x7FFF
  end.

Definition PB_LAST : Z := 1.
Definition PB_FIRST : Z := 2.
Definition PB_SOLO : Z := 3.

Definition SEQNO_CONTROL_mask : Z := Bits.mask 31 31.
Definition MSGNO_PACKET_INORDER_mask : Z := Bits.mask 29 29.
Definition MSGNO_ENCKEYSPEC_mask : Z := Bits.mask 28 27.
Definition MSGNO_REXMIT_mask : Z := Bits.mask 26 26.
Definition MSGNO_SEQ_mask : Z := Bits.mask 25 0.

Definition PacketBoundaryBits (o : Z) : Z := Bits.wrap 31 30 o.
Definition EncryptionKeyBits (f : Z) : Z := Bits.wrap 28 27 f.
Definition GetEncryptionKeySpec (msgno : Z) : Z := Bits.unwrap 28 27 msgno.

Record t := mk {
  SRT_PH_SEQNO : Z;
  SRT_PH_MSGNO : Z;
  SRT_PH_TIMESTAMP : Z;
  SRT_PH_ID : Z;
  m_pcData : list Z;   (** the payload bytes, [getLength] of them *)
}.

Definition set_seqno (v : Z) (p : t) : t := mk v (SRT_PH_MSGNO p) (SRT_PH_TIMESTAMP p) (SRT_PH_ID p) (m_pcData p).
Definition set_msgflags (v : Z) (p : t) : t := mk (SRT_PH_SEQNO p) v (SRT_PH_TIMESTAMP p) (SRT_PH_ID p) (m_pcData p).
Definition set_timestamp (v : Z) (p : t) : t := mk (SRT_PH_SEQNO p) (SRT_PH_MSGNO p) v (SRT_PH_ID p) (m_pcData p).
Definition set_id (v : Z) (p : t) : t := mk (SRT_PH_SEQNO p) (SRT_PH_MSGNO p) (SRT_PH_TIMESTAMP p) v (m_pcData p).
Definition set_data (d : list Z) (p : t) : t := mk (SRT_PH_SEQNO p) (SRT_PH_MSGNO p) (SRT_PH_TIMESTAMP p) (SRT_PH_ID p) d.

Definition getLength (p : t) : Z := zlen (m_pcData p).
Definition getSeqNo (p : t) : Z := i32 (SRT_PH_SEQNO p).
Definition isControl (p : t) : bool := negb (Bits.unwrap 31 31 (SRT_PH_SEQNO p) =? 0).
(** The value of the type field. *)
Definition getType (p : t) : Z := Bits.unwrap 30 16 (SRT_PH_SEQNO p).
Definition getExtendedType (p : t) : Z := Bits.unwrap 15 0 (SRT_PH_SEQNO p).
Definition getControlFlags (p : t) : Z := Bits.unwrap 15 0 (SRT_PH_SEQNO p).
Definition getAckSeqNo (p : t) : Z := i32 (SRT_PH_MSGNO p).
Definition getMsgBoundary (p : t) : Z := Bits.unwrap 31 30 (SRT_PH_MSGNO p).
Definition getMsgOrderFlag (p : t) : bool := negb (Bits.unwrap 29 29 (SRT_PH_MSGNO p) =? 0).
Definition getMsgSeq (has_rexmit : bool) (p : t) : Z :=
  if has_rexmit then Bits.unwrap 25 0 (SRT_PH_MSGNO p) else Bits.unwrap 26 0 (SRT_PH_MSGNO p).
Definition getRexmitFlag (p : t) : bool := negb (Bits.unwrap 26 26 (SRT_PH_MSGNO p) =? 0).
Definition getMsgCryptoFlags (p : t) : Z := Bits.unwrap 28 27 (SRT_PH_MSGNO p).
Definition getMsgTimeStamp (p : t) : Z := Z.land (SRT_PH_TIMESTAMP p) 0xFFFFFFFF.

Definition setRexmitFlag (bRexmit : bool) (p : t) : t :=
  let clr_msgno := Z.ldiff (SRT_PH_MSGNO p) (Bits.mask 26 26) in
  set_msgflags (Z.lor clr_msgno (Bits.wrap 26 26 (if bRexmit then 1 else 0))) p.

Definition setMsgCryptoFlags (spec : Z) (p : t) : t :=
  let clr_msgno := Z.ldiff (SRT_PH_MSGNO p) (Bits.mask 28 27) in
  set_msgflags (Z.lor clr_msgno (EncryptionKeyBits spec)) p.

Definition setControl (type : UDTMessageType) (p : t) : t :=
  set_seqno (Z.lor (Bits.mask 31 31) (Bits.wrap 30 16 (type_value type))) p.

Definition CreateControlSeqNo (type : UDTMessageType) : Z :=
  i32 (Z.lor (Bits.mask 31 31) (Bits.wrap 30 16 (type_value type))).
Definition CreateControlExtSeqNo (exttype : Z) : Z :=
  i32 (Z.lor (Z.lor (Bits.mask 31 31) (Bits.wrap 30 16 (type_value UMSG_EXT))) (Bits.wrap 15 0 (u32 exttype))).

(** [pack]; [lparam] and [rparam] are [NULL] or point to the value and to the
    bytes, [extra_pad] are the four bytes of [m_extra_pad].  [None] where the
    code reads through a null [lparam]. *)
Definition pack (pkttype : UDTMessageType) (lparam : option Z) (rparam : option (list Z)) (extra_pad : list Z)
    (p : t) : option t :=
  let p := setControl pkttype p in
  let rdata := default [] rparam in
  match pkttype with
  | UMSG_ACK => Some (set_data rdata (match lparam with Some l => set_msgflags (u32 l) p | None => p end))
  | UMSG_LOSSREPORT | UMSG_HANDSHAKE => Some (set_data rdata p)
  | UMSG_CGWARNING | UMSG_SHUTDOWN => Some (set_data extra_pad p)
  | UMSG_KEEPALIVE => Some (set_data extra_pad (match lparam with Some l => set_msgflags (u32 l) p | None => p end))
  | UMSG_ACKACK | UMSG_PEERERROR => l ← lparam; Some (set_data extra_pad (set_msgflags (u32 l) p))
  | UMSG_DROPREQ => l ← lparam; Some (set_data rdata (set_msgflags (u32 l) p))
  | UMSG_EXT => l ← lparam;
      Some (set_data (match rparam with Some d => d | None => extra_pad end) (set_seqno (Z.lor (SRT_PH_SEQNO p) (u32 l)) p))
  | UMSG_END_OF_TYPES => Some p
  end.

(** [htobe32] on a little-endian host, which is its own inverse. *)
Definition bswap32 (w : Z) : Z :=
  Z.lor (Z.lor (Z.shiftl (Z.land w 0xFF) 24) (Z.shiftl (Z.land w 0xFF00) 8))
        (Z.lor (Z.land (Z.shiftr w 8) 0xFF00) (Z.land (Z.shiftr w 24) 0xFF)).

(** [HtoNLA] on the first [n] words of a byte buffer: each word is
    written back with its four bytes in the opposite order. *)
Fixpoint swap_words (n : nat) (d : list Z) : list Z :=
  match n, d with
  | Datatypes.S n, b0 :: b1 :: b2 :: b3 :: d => b3 :: b2 :: b1 :: b0 :: swap_words n d
  | _, _ => d
  end.

Definition swap_header (p : t) : t :=
  mk (bswap32 (SRT_PH_SEQNO p)) (bswap32 (SRT_PH_MSGNO p)) (bswap32 (SRT_PH_TIMESTAMP p)) (bswap32 (SRT_PH_ID p))
    (m_pcData p).
Definition swap_payload (p : t) : t := set_data (swap_words (Z.to_nat (getLength p / 4)) (m_pcData p)) p.

Definition toNetworkByteOrder (p : t) : t := swap_header (if isControl p then swap_payload p else p).
Definition toHostByteOrder (p : t) : t :=
  let p := swap_header p in if isControl p then swap_payload p else p.
End CPacket.
Import CPacket.

(** ** Bit ranges *)
Lemma mask_testbit L R i : (R <= L)%nat -> 0 <= i ->
  Z.testbit (Bits.BitsetMask L R) i = (Z.of_nat R <=? i) && (i <=? Z.of_nat L).
Proof.
  intros HRL Hi. induction L as [|L IH].
  - replace R with O by lia. cbn. destruct i as [|p|p]; [done|by destruct p|lia].
  - cbn [Bits.BitsetMask]. destruct (Nat.eqb_spec (S L) R) as [<-|Hne].
    + rewrite Z.shiftl_1_l, Z.pow2_bits_eqb by lia.
      destruct (Z.eqb_spec (Z.of_nat (S L)) i); bdestr.
    + rewrite Z.lor_spec, IH, Z.shiftl_1_l, Z.pow2_bits_eqb by lia.
      destruct (Z.eqb_spec (Z.of_nat (S L)) i); bdestr.
Qed.

Lemma in_u32_testbit w i : in_u32 w -> 32 <= i -> Z.testbit w i = false.
Proof.
  unfold in_u32. intros Hw Hi. destruct (Z.eq_dec w 0) as [->|]; [apply Z.bits_0|].
  apply Z.bits_above_log2; [lia|]. apply Z.log2_lt_pow2; [lia|].
  apply Z.lt_le_trans with (2 ^ 32); [lia|]. apply Z.pow_le_mono_r; lia.
Qed.

Lemma unwrap_testbit L R w i : (R <= L)%nat -> 0 <= i ->
  Z.testbit (Bits.unwrap L R w) i = Z.testbit w (i + Z.of_nat R) && (i <=? Z.of_nat L - Z.of_nat R).
Proof.
  intros HRL Hi. unfold Bits.unwrap, Bits.mask. rewrite Z.shiftr_spec, Z.land_spec, mask_testbit by lia.
  f_equal. bdestr.
Qed.

Lemma wrap_testbit L R v i : (R <= L < 32)%nat -> 0 <= i ->
  Z.testbit (Bits.wrap L R v) i = Z.testbit v (i - Z.of_nat R) && ((Z.of_nat R <=? i) && (i <=? Z.of_nat L)).
Proof.
  intros HRL Hi. unfold Bits.wrap, Bits.mask, u32. rewrite Z.land_spec, mask_testbit by lia.
  destruct (Z.leb_spec (Z.of_nat R) i); cbn [andb]; [|by rewrite !andb_false_r].
  destruct (Z.leb_spec i (Z.of_nat L)); [|by rewrite !andb_false_r].
  by rewrite Z.mod_pow2_bits_low, Z.shiftl_spec by lia.
Qed.

(** Writing the range [L..R] of a word: the other bits are cleared there first. *)
Definition replace_bits (L R : nat) (v w : Z) : Z := Z.lor (Z.ldiff w (Bits.mask L R)) (Bits.wrap L R v).

Lemma replace_bits_other L R L' R' v w : (R <= L < 32)%nat -> (R' <= L')%nat -> (L < R' \/ L' < R)%nat ->
  Bits.unwrap L' R' (replace_bits L R v w) = Bits.unwrap L' R' w.
Proof.
  intros HL HL' Hd. apply Z.bits_inj'. intros i Hi. rewrite !unwrap_testbit by lia.
  unfold replace_bits. rewrite Z.lor_spec, Z.ldiff_spec, wrap_testbit by lia. unfold Bits.mask.
  rewrite mask_testbit by lia.
  destruct (Z.leb_spec i (Z.of_nat L' - Z.of_nat R')); [|by rewrite !andb_false_r].
  assert ((Z.of_nat R <=? i + Z.of_nat R') && (i + Z.of_nat R' <=? Z.of_nat L) = false) as -> by bdestr.
  by rewrite andb_false_r, orb_false_r, !andb_true_r.
Qed.

Lemma unwrap_wrap L R v w : (R <= L < 32)%nat ->
  Bits.unwrap L R (Z.lor (Z.ldiff w (Bits.mask L R)) (Bits.wrap L R v)) = v mod 2 ^ (Z.of_nat L - Z.of_nat R + 1).
Proof.
  intros HL. apply Z.bits_inj'. intros i Hi. rewrite unwrap_testbit by lia.
  rewrite Z.lor_spec, Z.ldiff_spec, wrap_testbit by lia. unfold Bits.mask. rewrite mask_testbit by lia.
  destruct (Z.leb_spec i (Z.of_nat L - Z.of_nat R)).
  - rewrite Z.mod_pow2_bits_low by lia.
    assert ((Z.of_nat R <=? i + Z.of_nat R) && (i + Z.of_nat R <=? Z.of_nat L) = true) as -> by bdestr.
    rewrite andb_false_r, !andb_true_r. cbn. f_equal. lia.
  - by rewrite Z.mod_pow2_bits_high, andb_false_r by lia.
Qed.

Lemma unwrap_bit (k : nat) w : Bits.unwrap k k w = Z.b2z (Z.testbit w (Z.of_nat k)).
Proof.
  apply Z.bits_inj'. intros i Hi. rewrite unwrap_testbit by lia.
  destruct (Z.eq_dec i 0) as [->|].
  - rewrite Z.b2z_bit0, Z.add_0_l, (proj2 (Z.leb_le 0 _)) by lia. apply andb_true_r.
  - rewrite (proj2 (Z.leb_gt i _)), andb_false_r by lia.
    destruct (Z.testbit w (Z.of_nat k)); cbn; [by rewrite Z.bits_above_log2 by (cbn; lia)|by rewrite Z.bits_0].
Qed.

Lemma flag_bit (k : nat) w : negb (Bits.unwrap k k w =? 0) = Z.testbit w (Z.of_nat k).
Proof. rewrite unwrap_bit. by destruct (Z.testbit w (Z.of_nat k)). Qed.

(** ** Byte order *)

(** Case analysis on the bit index [i] from [k] to 31. *)
Ltac bits_upto i k :=
  destruct (Z.eq_dec i k) as [->|];
  [ repeat match goal with
    | |- context [Z.testbit ?c ?n] =>
        lazymatch c with Zpos _ => let b := eval vm_compute in (Z.testbit c n) in change (Z.testbit c n) with b end
    end;
    rewrite ?andb_false_r, ?andb_true_r, ?orb_false_r; cbn [orb]; f_equal; reflexivity
  | let k' := eval vm_compute in (k + 1) in
    tryif (let b := eval vm_compute in (k' =? 32) in constr_eq b true) then lia else bits_upto i k' ].

Lemma bswap_testbit w i : 0 <= i < 32 -> Z.testbit (bswap32 w) i = Z.testbit w (8 * (3 - i / 8) + i mod 8).
Proof.
  intros Hi. unfold bswap32.
  rewrite !Z.lor_spec, !Z.shiftl_spec, !Z.land_spec, !Z.shiftr_spec by lia. bits_upto i 0.
Qed.

Lemma bswap_testbit_high w i : 32 <= i -> Z.testbit (bswap32 w) i = false.
Proof.
  intros Hi. unfold bswap32.
  rewrite !Z.lor_spec, !Z.shiftl_spec, !Z.land_spec, !Z.shiftr_spec by lia.
  assert (Hc : forall k, 8 <= k -> Z.testbit 255 k = false) by (intros; apply Z.bits_above_log2; cbn; lia).
  assert (Hd : forall k, 16 <= k -> Z.testbit 65280 k = false) by (intros; apply Z.bits_above_log2; cbn; lia).
  rewrite !Hc, !Hd by lia. by rewrite !andb_false_r.
Qed.

Lemma bswap_involutive w : in_u32 w -> bswap32 (bswap32 w) = w.
Proof.
  intros Hw. apply Z.bits_inj'. intros i Hi. destruct (Z.lt_ge_cases i 32).
  - pose proof (Z.div_mod i 8 ltac:(lia)). pose proof (Z.mod_pos_bound i 8 ltac:(lia)).
    assert (0 <= i / 8 < 4) by lia.
    rewrite !bswap_testbit by lia. f_equal.
    set (j := 8 * (3 - i / 8) + i mod 8).
    assert (j / 8 = 3 - i / 8) by (symmetry; apply (Z.div_unique j 8 _ (i mod 8)); lia).
    assert (j mod 8 = i mod 8) by (symmetry; apply (Z.mod_unique j 8 (3 - i / 8)); lia). lia.
  - by rewrite bswap_testbit_high, in_u32_testbit by done.
Qed.

Lemma swap_words_involutive n d : swap_words n (swap_words n d) = d.
Proof.
  revert d. induction n as [|n IH]; [done|]. intros d.
  do 4 (destruct d as [|? d]; [done|]). cbn. by rewrite IH.
Qed.

Lemma length_swap_words n d : length (swap_words n d) = length d.
Proof.
  revert d. induction n as [|n IH]; [done|]. intros d.
  do 4 (destruct d as [|? d]; [done|]). cbn. by rewrite IH.
Qed.

(** ** Properties *)

(** Writing a bit range of a 32-bit word and reading it back gives the
    value cut to the width of the range, the whole value when it fits; [unwrap]
    never exceeds the range, and every other range keeps its bits. *)
Theorem bits_roundtrip (L R : nat) (v w : Z) (HL : (R <= L < 32)%nat) (Hv : in_u32 v) :
  let width := Z.of_nat L - Z.of_nat R + 1 in
  Bits.unwrap L R (Z.lor (Z.ldiff w (Bits.mask L R)) (Bits.wrap L R v)) = v mod 2 ^ width /\
  Bits.unwrap L R (Bits.wrap L R v) = v mod 2 ^ width /\
  Bits.fit L R v = (v <? 2 ^ width) /\
  0 <= Bits.unwrap L R w < 2 ^ width /\
  (forall L' R', (R' <= L')%nat -> (L < R' \/ L' < R)%nat ->
    Bits.unwrap L' R' (Z.lor (Z.ldiff w (Bits.mask L R)) (Bits.wrap L R v)) = Bits.unwrap L' R' w).
Proof.
  intros width. split; [by apply unwrap_wrap|]. split.
  - rewrite <- (Z.lor_0_l (Bits.wrap L R v)), <- (Z.ldiff_0_l (Bits.mask L R)). by apply unwrap_wrap.
  - split; [|split].
    + unfold Bits.fit. assert (E : Z.land (Bits.BitsetMask (L - R) 0) v = v mod 2 ^ width).
      { apply Z.bits_inj'. intros i Hi. rewrite Z.land_spec, mask_testbit by lia.
        rewrite (proj2 (Z.leb_le (Z.of_nat 0) i)) by lia. destruct (Z.leb_spec i (Z.of_nat (L - R))).
        - by rewrite Z.mod_pow2_bits_low by lia.
        - by rewrite Z.mod_pow2_bits_high by lia. }
      rewrite E. unfold in_u32 in Hv. destruct (Z.ltb_spec v (2 ^ width)).
      * apply Z.eqb_eq, Z.mod_small. lia.
      * apply Z.eqb_neq. pose proof (Z.mod_pos_bound v (2 ^ width) ltac:(apply Z.pow_pos_nonneg; lia)). lia.
    + assert (E : Bits.unwrap L R w = Bits.unwrap L R w mod 2 ^ width); [|rewrite E; apply Z.mod_pos_bound, Z.pow_pos_nonneg; lia].
      apply Z.bits_inj'. intros i Hi. destruct (Z.lt_ge_cases i width).
      * by rewrite Z.mod_pow2_bits_low by lia.
      * rewrite Z.mod_pow2_bits_high, unwrap_testbit by lia. apply andb_false_iff. right. apply Z.leb_gt. lia.
    + intros L' R' HL' Hd. by apply replace_bits_other.
Qed.

Lemma bits_roundtrip_witness : Bits.unwrap 28 27 (Bits.wrap 28 27 2) = 2 mod 2 ^ (28 - 27 + 1).
Proof. apply (bits_roundtrip 28 27 2 0); [lia|]. unfold in_u32. lia. Defined.

(** The message word as the sender's buffer composes it. *)
Definition message_word (msgno : Z) (inorder : bool) (bnd : Z) : Z :=
  Z.lor (Z.lor msgno (if inorder then MSGNO_PACKET_INORDER_mask else 0)) (PacketBoundaryBits bnd).

Lemma msgno_high msgno i : 0 <= msgno <= MSGNO_SEQ_mask -> 26 <= i -> Z.testbit msgno i = false.
Proof.
  intros Hm Hi. destruct (Z.eq_dec msgno 0) as [->|]; [apply Z.bits_0|]. apply Z.bits_above_log2; [lia|].
  apply Z.lt_le_trans with 26; [|done]. apply Z.log2_lt_pow2; [lia|]. change (2 ^ 26) with (MSGNO_SEQ_mask + 1). lia.
Qed.

Lemma message_word_testbit msgno inorder bnd i : 0 <= msgno <= MSGNO_SEQ_mask -> 0 <= bnd < 4 -> 0 <= i ->
  Z.testbit (message_word msgno inorder bnd) i =
    if i <? 26 then Z.testbit msgno i else (i =? 29) && inorder || (30 <=? i) && (i <? 32) && Z.testbit bnd (i - 30).
Proof.
  intros Hm Hb Hi. assert (Hin : in_u32 bnd) by (unfold in_u32; lia). unfold message_word, PacketBoundaryBits.
  rewrite !Z.lor_spec, wrap_testbit by lia.
  assert (Z.testbit (if inorder then MSGNO_PACKET_INORDER_mask else 0) i = (i =? 29) && inorder) as ->.
  { destruct inorder; [|by rewrite Z.bits_0, andb_false_r]. change MSGNO_PACKET_INORDER_mask with (2 ^ 29).
    rewrite Z.pow2_bits_eqb by lia. rewrite andb_true_r. apply Z.eqb_sym. }
  destruct (Z.ltb_spec i 26); [bdestr; by rewrite ?andb_false_r, ?orb_false_r|].
  rewrite msgno_high by lia. cbn [orb]. f_equal. rewrite andb_comm. f_equal. bdestr.
Qed.

(** The getters take a composed message word apart. *)
Lemma message_word_fields (p : t) msgno inorder bnd : 0 <= msgno <= MSGNO_SEQ_mask -> 0 <= bnd < 4 ->
  SRT_PH_MSGNO p = message_word msgno inorder bnd ->
  getMsgSeq true p = msgno /\ getMsgOrderFlag p = inorder /\ getMsgBoundary p = bnd /\
  getRexmitFlag p = false /\ getMsgCryptoFlags p = 0.
Proof.
  intros Hm Hb Hp. pose proof (fun i => message_word_testbit msgno inorder bnd i Hm Hb) as Hbits.
  unfold getMsgSeq, getMsgOrderFlag, getMsgBoundary, getRexmitFlag, getMsgCryptoFlags. rewrite Hp. split_and!.
  - apply Z.bits_inj'. intros i Hi. rewrite unwrap_testbit, Hbits by lia.
    destruct (Z.leb_spec i (Z.of_nat 25 - Z.of_nat 0)).
    + rewrite (proj2 (Z.ltb_lt _ _)) by lia. rewrite andb_true_r. f_equal. lia.
    + by rewrite andb_false_r, msgno_high by lia.
  - rewrite flag_bit, Hbits by lia. by destruct inorder.
  - apply Z.bits_inj'. intros i Hi. rewrite unwrap_testbit, Hbits by lia.
    rewrite (proj2 (Z.ltb_ge _ _)), (proj2 (Z.eqb_neq _ _)), (proj2 (Z.leb_le 30 _)) by lia. cbn [orb andb].
    rewrite Z.add_simpl_r. destruct (Z.leb_spec i (Z.of_nat 31 - Z.of_nat 30)).
    + rewrite (proj2 (Z.ltb_lt _ _)), andb_true_r by lia. done.
    + rewrite andb_false_r. symmetry. rewrite <- (Z.mod_small bnd (2 ^ 2)) by lia. apply Z.mod_pow2_bits_high. lia.
  - by rewrite flag_bit, Hbits by lia.
  - apply Z.bits_inj'. intros i Hi. rewrite unwrap_testbit, Hbits, Z.bits_0 by lia.
    rewrite (proj2 (Z.ltb_ge _ _)) by lia. destruct (Z.leb_spec i (Z.of_nat 28 - Z.of_nat 27)); [|by rewrite andb_false_r].
    rewrite (proj2 (Z.eqb_neq _ _)), (proj2 (Z.leb_gt 30 _)) by lia. done.
Qed.

(** The flags of a data packet are independent: setting the
    retransmission flag or the key flag of a packet is read back by its getter
    and leaves the boundary, the order flag, the message number and the other
    flag alone; a message word composed like the sender's buffer composes it
    (message number, order flag, boundary) is taken apart again by the
    getters. *)
Theorem packet_fields (p : t) (b inorder : bool) (spec msgno bnd : Z) (Hs : 0 <= spec < 4)
  (Hm : 0 <= msgno <= MSGNO_SEQ_mask) (Hb : 0 <= bnd < 4) :
  let p1 := setRexmitFlag b p in
  let p2 := setMsgCryptoFlags spec p in
  let p3 := set_msgflags (Z.lor (Z.lor msgno (if inorder then MSGNO_PACKET_INORDER_mask else 0)) (PacketBoundaryBits bnd)) p in
  (getRexmitFlag p1 = b /\ getMsgCryptoFlags p1 = getMsgCryptoFlags p /\ getMsgBoundary p1 = getMsgBoundary p /\
    getMsgOrderFlag p1 = getMsgOrderFlag p /\ getMsgSeq true p1 = getMsgSeq true p) /\
  (getMsgCryptoFlags p2 = spec /\ getRexmitFlag p2 = getRexmitFlag p /\ getMsgBoundary p2 = getMsgBoundary p /\
    getMsgOrderFlag p2 = getMsgOrderFlag p /\ getMsgSeq true p2 = getMsgSeq true p) /\
  (getMsgSeq true p3 = msgno /\ getMsgOrderFlag p3 = inorder /\ getMsgBoundary p3 = bnd /\
    getRexmitFlag p3 = false /\ getMsgCryptoFlags p3 = 0).
Proof.
  intros p1 p2 p3. split; [|split; [|by apply message_word_fields]].
  - unfold getRexmitFlag, getMsgCryptoFlags, getMsgBoundary, getMsgOrderFlag, getMsgSeq.
    change (SRT_PH_MSGNO p1) with (replace_bits 26 26 (if b then 1 else 0) (SRT_PH_MSGNO p)).
    rewrite (replace_bits_other 26 26 28 27), (replace_bits_other 26 26 31 30), (replace_bits_other 26 26 29 29),
      (replace_bits_other 26 26 25 0) by lia. split; [|done].
    unfold replace_bits. rewrite unwrap_wrap by lia. by destruct b.
  - unfold getRexmitFlag, getMsgCryptoFlags, getMsgBoundary, getMsgOrderFlag, getMsgSeq.
    change (SRT_PH_MSGNO p2) with (replace_bits 28 27 spec (SRT_PH_MSGNO p)).
    rewrite (replace_bits_other 28 27 26 26), (replace_bits_other 28 27 31 30), (replace_bits_other 28 27 29 29),
      (replace_bits_other 28 27 25 0) by lia. split; [|done].
    unfold replace_bits. rewrite unwrap_wrap by lia. apply Z.mod_small. cbn. lia.
Qed.

Lemma packet_fields_witness :
  getMsgBoundary (set_msgflags (Z.lor (Z.lor 77 MSGNO_PACKET_INORDER_mask) (PacketBoundaryBits PB_FIRST)) (mk 5 0 0 0 [])) = PB_FIRST.
Proof.
  apply (packet_fields (mk 5 0 0 0 []) false true 0 77 PB_FIRST); vm_compute; split; first [reflexivity|discriminate].
Defined.

(** The conversion to network byte order and back restores a packet
    whose header words are 32-bit values, control packet or data packet, with
    a payload of any length; the length never changes, and the payload of a
    data packet is not touched. *)
Theorem byte_order_roundtrip (p : t) (H0 : in_u32 (SRT_PH_SEQNO p)) (H1 : in_u32 (SRT_PH_MSGNO p))
  (H2 : in_u32 (SRT_PH_TIMESTAMP p)) (H3 : in_u32 (SRT_PH_ID p)) :
  toHostByteOrder (toNetworkByteOrder p) = p /\ getLength (toNetworkByteOrder p) = getLength p /\
  (isControl p = false -> m_pcData (toNetworkByteOrder p) = m_pcData p).
Proof.
  destruct p as [w0 w1 w2 w3 d]. cbn in H0, H1, H2, H3.
  unfold toHostByteOrder, toNetworkByteOrder, swap_payload, getLength, isControl, set_data, swap_header.
  cbn [SRT_PH_SEQNO]. destruct (negb (Bits.unwrap 31 31 w0 =? 0)) eqn:Ec; cbn;
    rewrite !bswap_involutive, Ec by done; cbn; rewrite ?length_swap_words, ?swap_words_involutive; done.
Qed.

Lemma byte_order_roundtrip_witness :
  toHostByteOrder (toNetworkByteOrder (mk (2 ^ 31 + 5) 1 2 3 [1; 2; 3; 4; 5])) = mk (2 ^ 31 + 5) 1 2 3 [1; 2; 3; 4; 5].
Proof. apply byte_order_roundtrip; vm_compute; split; first [reflexivity|discriminate]. Defined.

(** A packed control packet is recognised: it is a control packet of the
    type it was packed with, it carries its additional word, and its payload
    is the data given, or the four bytes of padding where the type has none;
    an extended packet carries the extended type in the low half of the first
    word. *)
Theorem pack_control (pkttype : UDTMessageType) (l : Z) (rdata pad : list Z) (p : t)
  (Hl : in_u32 l) (Hext : pkttype = UMSG_EXT -> 0 <= l < 2 ^ 16) :
  exists p', pack pkttype (Some l) (Some rdata) pad p = Some p' /\
    isControl p' = true /\ getType p' = type_value pkttype /\
    match pkttype with
    | UMSG_ACK | UMSG_DROPREQ => SRT_PH_MSGNO p' = l /\ m_pcData p' = rdata
    | UMSG_ACKACK | UMSG_KEEPALIVE | UMSG_PEERERROR => SRT_PH_MSGNO p' = l /\ m_pcData p' = pad
    | UMSG_LOSSREPORT | UMSG_HANDSHAKE => SRT_PH_MSGNO p' = SRT_PH_MSGNO p /\ m_pcData p' = rdata
    | UMSG_CGWARNING | UMSG_SHUTDOWN => SRT_PH_MSGNO p' = SRT_PH_MSGNO p /\ m_pcData p' = pad
    | UMSG_EXT => getExtendedType p' = l /\ m_pcData p' = rdata
    | UMSG_END_OF_TYPES => m_pcData p' = m_pcData p
    end.
Proof.
  assert (El : u32 l = l) by (unfold u32, in_u32 in *; rewrite Z.mod_small; lia).
  destruct pkttype; eexists; (split; [reflexivity|]); cbn [isControl getType SRT_PH_SEQNO SRT_PH_MSGNO m_pcData set_data set_msgflags setControl set_seqno];
    try (split; [reflexivity|]; split; [reflexivity|]; cbn; rewrite ?El; done).
  specialize (Hext eq_refl). rewrite El. set (w := Z.lor (Bits.mask 31 31) (Bits.wrap 30 16 (type_value UMSG_EXT))).
  assert (Hlow : forall i, 16 <= i -> Z.testbit l i = false).
  { intros i Hi. rewrite <- (Z.mod_small l (2 ^ 16)) by lia. apply Z.mod_pow2_bits_high. lia. }
  assert (Hhigh : forall L R, (16 <= R <= L)%nat -> Bits.unwrap L R (Z.lor w l) = Bits.unwrap L R w).
  { intros L R HR. apply Z.bits_inj'. intros i Hi. rewrite !unwrap_testbit, Z.lor_spec, Hlow, orb_false_r by lia. done. }
  split; [unfold isControl; cbn [SRT_PH_SEQNO set_data set_seqno]; rewrite Hhigh by lia; reflexivity|].
  split; [unfold getType; cbn [SRT_PH_SEQNO set_data set_seqno]; rewrite Hhigh by lia; reflexivity|]. split; [|done].
  apply Z.bits_inj'. intros i Hi. unfold getExtendedType.
  cbn [SRT_PH_SEQNO set_data set_seqno]. rewrite unwrap_testbit, Z.lor_spec by lia.
  destruct (Z.leb_spec i (Z.of_nat 15 - Z.of_nat 0)).
  - rewrite andb_true_r. change w with (Z.shiftl 0xFFFF 16). rewrite Z.shiftl_spec, Z.testbit_neg_r by lia. cbn. f_equal. lia.
  - rewrite andb_false_r, Hlow by lia. done.
Qed.

Lemma pack_control_witness :
  exists p', pack UMSG_ACKACK (Some 9) (Some []) [0; 0; 0; 0] (mk 0 0 0 0 []) = Some p' /\ getType p' = 6.
Proof.
  destruct (pack_control UMSG_ACKACK 9 [] [0; 0; 0; 0] (mk 0 0 0 0 [])) as (p' & E & _ & Et & _).
  - vm_compute. split; [discriminate|reflexivity].
  - discriminate.
  - exists p'. split; [exact E|exact Et].
Defined.
