(* ===== verification/SeqNo.v ===== *)
(** Sequence numbers: [CSeqNo], [CAckNo] and [RollNumber] of
    srtcore/common.h, the circular arithmetic every buffer and list is
    built on, with the wrap-around written out. *)
From S2P Require Import Prelude.

Module CSeqNo.
Definition m_iSeqNoTH : Z := 0x3FFFFFFF.
Definition m_iMaxSeqNo : Z := 0x7FFFFFFF.
(** [SRT_SEQNO_NONE] of srt.h. *)
Definition SRT_SEQNO_NONE : Z := -1.

Definition seqcmp (seq1 seq2 : Z) : Z :=
  if Z.abs (seq1 - seq2) <? m_iSeqNoTH then seq1 - seq2 else seq2 - seq1.

Definition seqlen (seq1 seq2 : Z) : Z :=
  if seq1 <=? seq2 then seq2 - seq1 + 1 else seq2 - seq1 + m_iMaxSeqNo + 2.

Definition seqoff (seq1 seq2 : Z) : Z :=
  if Z.abs (seq1 - seq2) <? m_iSeqNoTH then seq2 - seq1
  else if seq1 <? seq2 then seq2 - seq1 - m_iMaxSeqNo - 1
  else seq2 - seq1 + m_iMaxSeqNo + 1.

Definition incseq (seq : Z) : Z := if seq =? m_iMaxSeqNo then 0 else seq + 1.

Definition decseq (seq : Z) : Z := if seq =? 0 then m_iMaxSeqNo else seq - 1.

(** The overloads with an increment. *)
Definition incseq_by (seq inc : Z) : Z :=
  if m_iMaxSeqNo - seq >=? inc then seq + inc else seq - m_iMaxSeqNo + inc - 1.

Definition decseq_by (seq dec : Z) : Z :=
  if seq <? dec
  then let left := dec - seq in m_iMaxSeqNo - left + 1
  else seq - dec.

Definition maxseq (seq1 seq2 : Z) : Z := if seqcmp seq1 seq2 <? 0 then seq2 else seq1.

(** The operators of the class, on the wrapped [value]. *)
Definition op_lt (v other : Z) : bool := seqcmp v other <? 0.
Definition op_gt (v other : Z) : bool := op_lt other v.
Definition op_ge (v other : Z) : bool := seqcmp v other >=? 0.
Definition op_le (v other : Z) : bool := seqcmp v other <=? 0.
Definition op_minus (c1 c2 : Z) : Z := seqoff c2 c1.

(** [int] evaluations: the same expressions with every intermediate result
    held to the 32-bit range ([None] is a signed overflow). *)
Definition seqcmp_int (seq1 seq2 : Z) : option Z :=
  d ← int_op (seq1 - seq2); a ← int_op (Z.abs d);
  if a <? m_iSeqNoTH then int_op (seq1 - seq2) else int_op (seq2 - seq1).

Definition seqlen_int (seq1 seq2 : Z) : option Z :=
  if seq1 <=? seq2 then d ← int_op (seq2 - seq1); int_op (d + 1)
  else d ← int_op (seq2 - seq1); e ← int_op (d + m_iMaxSeqNo); int_op (e + 2).

Definition seqoff_int (seq1 seq2 : Z) : option Z :=
  d ← int_op (seq1 - seq2); a ← int_op (Z.abs d);
  if a <? m_iSeqNoTH then int_op (seq2 - seq1)
  else if seq1 <? seq2
  then d ← int_op (seq2 - seq1); e ← int_op (d - m_iMaxSeqNo); int_op (e - 1)
  else d ← int_op (seq2 - seq1); e ← int_op (d + m_iMaxSeqNo); int_op (e + 1).

Definition incseq_by_int (seq inc : Z) : option Z :=
  r ← int_op (m_iMaxSeqNo - seq);
  if r >=? inc then int_op (seq + inc)
  else d ← int_op (seq - m_iMaxSeqNo); e ← int_op (d + inc); int_op (e - 1).

Definition decseq_by_int (seq dec : Z) : option Z :=
  if seq <? dec
  then left ← int_op (dec - seq); d ← int_op (m_iMaxSeqNo - left); int_op (d + 1)
  else int_op (seq - dec).

(** A sequence number that a packet can carry. *)
Definition valid (s : Z) : Prop := 0 <= s <= m_iMaxSeqNo.

#[export] Instance valid_dec s : Decision (valid s).
Proof. unfold valid. apply _. Defined.

(** The 31-bit number that stands for an unbounded stream position. *)
Definition seq_of (z : Z) : Z := z mod 2 ^ 31.
End CSeqNo.
Import CSeqNo.

Module CAckNo.
Definition m_iMaxAckSeqNo : Z := 0x7FFFFFFF.
Definition incack (ackno : Z) : Z := if ackno =? m_iMaxAckSeqNo then 0 else ackno + 1.
End CAckNo.

(** [RollNumber<BITS, MIN>]; the number is a [uint32_t]. *)
Module RollNumber.
Section Roll.
Variables (BITS MIN : Z).
Definition mask : Z := 2 ^ (BITS + 1) - 1.
Definition OVER : Z := mask + 1.
Definition HALF : Z := (OVER - MIN) / 2.

Definition Diff (left right : Z) : Z :=
  if left <? right then
    let diff := i32 (right - left) in
    let left := if diff >=? i32 HALF then u32 (left + (OVER - MIN)) else left in
    i32 (left - right)
  else
    let diff := i32 (left - right) in
    let right := if diff >=? i32 HALF then u32 (right + (OVER - MIN)) else right in
    i32 (left - right).

Definition op_lt (number right : Z) : bool :=
  let ndiff := i32 (number - right) in
  if ndiff <? - i32 HALF then false
  else if ndiff >? i32 HALF then true
  else ndiff <? 0.
Definition op_gt (number right : Z) : bool := op_lt right number.
Definition op_le (number right : Z) : bool := negb (op_gt number right).
Definition op_ge (number right : Z) : bool := negb (op_lt number right).

Definition incr (number : Z) : Z :=
  let number := u32 (number + 1) in
  if number >? mask then MIN else number.
Definition decr (number : Z) : Z :=
  if number =? MIN then mask else u32 (number - 1).
Definition op_minus (number right : Z) : Z := Diff number right.
Definition add (number delta : Z) : Z :=
  if - delta >? number then u32 (OVER - MIN + number + delta)
  else
    let number := u32 (number + delta) in
    if number >=? OVER then u32 (number - (OVER - MIN)) else number.

Definition roll_valid (n : Z) : Prop := MIN <= n <= mask.
End Roll.
End RollNumber.

(** ** Stream positions and their sequence numbers *)

Section SeqOf.
Implicit Types a b n : Z.

Lemma seq_of_valid a : valid (seq_of a).
Proof. unfold valid, seq_of, m_iMaxSeqNo. pose proof (Z.mod_pos_bound a (2 ^ 31)). lia. Qed.

Lemma seq_of_id a : valid a -> seq_of a = a.
Proof. unfold valid, seq_of, m_iMaxSeqNo. intros. apply Z.mod_small. lia. Qed.

Lemma seq_of_nonneg a : 0 <= seq_of a.
Proof. apply (seq_of_valid a). Qed.

Lemma seq_of_not_none a : seq_of a <> SRT_SEQNO_NONE.
Proof. pose proof (seq_of_nonneg a). unfold SRT_SEQNO_NONE. lia. Qed.

(** Any two positions less than half a cycle apart are told apart, and the
    difference of their numbers is the true one up to one cycle. *)
Lemma seq_of_diff a b : exists k, seq_of a - seq_of b = a - b + k * 2 ^ 31 /\ 
  - 2 ^ 31 < seq_of a - seq_of b < 2 ^ 31.
Proof.
  pose proof (seq_of_valid a) as Ha. pose proof (seq_of_valid b) as Hb.
  unfold valid, m_iMaxSeqNo in *.
  exists (b / 2 ^ 31 - a / 2 ^ 31). split; [|lia].
  unfold seq_of. rewrite !Z.mod_eq by lia. lia.
Qed.

Lemma seq_of_inj a b : - 2 ^ 31 < a - b < 2 ^ 31 -> seq_of a = seq_of b -> a = b.
Proof. intros H E. destruct (seq_of_diff a b) as (k & Hk & _). rewrite E in Hk. lia. Qed.

Lemma seqoff_seq_of a b : - m_iSeqNoTH < b - a < m_iSeqNoTH ->
  seqoff (seq_of a) (seq_of b) = b - a.
Proof.
  intros H. destruct (seq_of_diff a b) as (k & Hk & Hr).
  unfold seqoff, m_iSeqNoTH, m_iMaxSeqNo in *. bdestr.
Qed.

Lemma seqcmp_seq_of a b : - m_iSeqNoTH < b - a < m_iSeqNoTH ->
  Z.sgn (seqcmp (seq_of a) (seq_of b)) = Z.sgn (a - b).
Proof.
  intros H. destruct (seq_of_diff a b) as (k & Hk & Hr).
  unfold seqcmp, m_iSeqNoTH in *. bdestr.
Qed.

Lemma seqlen_seq_of a b : 0 <= b - a < 2 ^ 31 ->
  seqlen (seq_of a) (seq_of b) = b - a + 1.
Proof.
  intros H. destruct (seq_of_diff a b) as (k & Hk & Hr).
  unfold seqlen, m_iMaxSeqNo in *. bdestr.
Qed.

Lemma seq_of_step a d k : 0 <= seq_of a + d + k * 2 ^ 31 < 2 ^ 31 ->
  seq_of (a + d) = seq_of a + d + k * 2 ^ 31.
Proof.
  intros H. unfold seq_of in *. rewrite (Z.mod_eq a) in * by lia.
  symmetry. apply Z.mod_unique_pos with (a / 2 ^ 31 - k); lia.
Qed.

Lemma incseq_seq_of a : incseq (seq_of a) = seq_of (a + 1).
Proof.
  pose proof (seq_of_valid a). unfold incseq, valid, m_iMaxSeqNo in *.
  bdestr; [rewrite (seq_of_step a 1 (-1)) | rewrite (seq_of_step a 1 0)]; lia.
Qed.

Lemma decseq_seq_of a : decseq (seq_of a) = seq_of (a - 1).
Proof.
  pose proof (seq_of_valid a). unfold decseq, valid, m_iMaxSeqNo in *.
  change (a - 1) with (a + (-1)). bdestr; [rewrite (seq_of_step a (-1) 1) | rewrite (seq_of_step a (-1) 0)]; lia.
Qed.

Lemma incseq_by_seq_of a n : 0 <= n < 2 ^ 31 -> incseq_by (seq_of a) n = seq_of (a + n).
Proof.
  intros. pose proof (seq_of_valid a). unfold incseq_by, valid, m_iMaxSeqNo in *.
  bdestr; [rewrite (seq_of_step a n 0) | rewrite (seq_of_step a n (-1))]; lia.
Qed.

Lemma decseq_by_seq_of a n : 0 <= n < 2 ^ 31 -> decseq_by (seq_of a) n = seq_of (a - n).
Proof.
  intros. pose proof (seq_of_valid a). unfold decseq_by, valid, m_iMaxSeqNo in *.
  cbv zeta. rewrite <- (Z.add_opp_r a n). bdestr; [rewrite (seq_of_step a (-n) 1) | rewrite (seq_of_step a (-n) 0)]; lia.
Qed.
End SeqOf.

(** Linear arithmetic with the constants of the class unfolded. *)
Ltac seqlia := unfold valid, m_iSeqNoTH, m_iMaxSeqNo, SRT_SEQNO_NONE in *; lia.

Create Rewrite HintDb seqno.
Create HintDb seqno.
#[export] Hint Rewrite incseq_seq_of decseq_seq_of : seqno.
#[export] Hint Rewrite seqoff_seq_of seqlen_seq_of incseq_by_seq_of decseq_by_seq_of
  using seqlia : seqno.
#[export] Hint Resolve seq_of_valid seq_of_nonneg seq_of_not_none : seqno.

(** A comparison with [seqcmp] is the comparison of the positions. *)
Section SeqCmp.
Context (a b : Z) (Hwin : - m_iSeqNoTH < b - a < m_iSeqNoTH).

Lemma seqcmp_ltb : (seqcmp (seq_of a) (seq_of b) <? 0) = (a <? b).
Proof. pose proof (seqcmp_seq_of a b Hwin). bdestr. Qed.
Lemma seqcmp_leb : (seqcmp (seq_of a) (seq_of b) <=? 0) = (a <=? b).
Proof. pose proof (seqcmp_seq_of a b Hwin). bdestr. Qed.
Lemma seqcmp_gtb : (seqcmp (seq_of a) (seq_of b) >? 0) = (a >? b).
Proof. pose proof (seqcmp_seq_of a b Hwin). bdestr. Qed.
Lemma seqcmp_geb : (seqcmp (seq_of a) (seq_of b) >=? 0) = (a >=? b).
Proof. pose proof (seqcmp_seq_of a b Hwin). bdestr. Qed.
Lemma seqcmp_eqb : (seqcmp (seq_of a) (seq_of b) =? 0) = (a =? b).
Proof. pose proof (seqcmp_seq_of a b Hwin). bdestr. Qed.
Lemma seq_of_eqb : (seq_of a =? seq_of b) = (a =? b).
Proof.
  unfold m_iSeqNoTH in Hwin.
  destruct (Z.eqb_spec a b) as [->|Hn]; [apply Z.eqb_refl|].
  apply Z.eqb_neq. intros E. apply Hn, seq_of_inj; [lia|done].
Qed.
End SeqCmp.
#[export] Hint Rewrite seqcmp_ltb seqcmp_leb seqcmp_gtb seqcmp_geb seqcmp_eqb seq_of_eqb
  using seqlia : seqno.

(** Rewriting sequence arithmetic on [seq_of] numbers to plain integers. *)
Ltac seqsimp := autorewrite with seqno in *.

(** ** Properties *)

(** C39. Within a window narrower than [m_iSeqNoTH] the circular operations
    compute on the 31-bit numbers exactly what integer arithmetic computes on
    the stream positions they stand for: the comparison operators order them,
    [seqoff] and [seqlen] give their distance, [maxseq] the later one. *)
Theorem seqno_window_arith (a b : Z) (H : - m_iSeqNoTH < b - a < m_iSeqNoTH) :
  seqoff (seq_of a) (seq_of b) = b - a /\
  op_lt (seq_of a) (seq_of b) = (a <? b) /\
  op_le (seq_of a) (seq_of b) = (a <=? b) /\
  op_ge (seq_of a) (seq_of b) = (a >=? b) /\
  maxseq (seq_of a) (seq_of b) = seq_of (Z.max a b) /\
  (a <= b -> seqlen (seq_of a) (seq_of b) = b - a + 1 /\
             incseq_by (seq_of a) (seqoff (seq_of a) (seq_of b)) = seq_of b).
Proof.
  unfold op_lt, op_le, op_ge, maxseq. seqsimp.
  repeat split; intros; seqsimp; try done.
  - bdestr; f_equal; lia.
  - f_equal. lia.
Qed.

Lemma seqno_window_arith_witness :
  - m_iSeqNoTH < 2 ^ 31 + 5 - (2 ^ 31 - 3) < m_iSeqNoTH /\
  seqoff 0x7FFFFFFD 5 = 8 /\ op_lt 0x7FFFFFFD 5 = true.
Proof.
  split; [vm_compute; split; reflexivity|].
  pose proof (seqno_window_arith (2 ^ 31 - 3) (2 ^ 31 + 5)) as H.
  destruct H as (H1 & H2 & _); [vm_compute; split; reflexivity|].
  split; [exact H1|exact H2].
Defined.

Lemma int_op_bind {B} z (f : Z -> option B) : in_i32 z -> (int_op z ≫= f) = f z.
Proof. intros H. by rewrite int_op_Some. Qed.

Ltac int_safe := repeat first
  [ rewrite int_op_bind by (unfold in_i32; lia)
  | rewrite int_op_Some by (unfold in_i32; lia) ].

(** Evaluated in 32-bit [int] arithmetic on numbers a packet can carry,
    none of the circular operations overflows, in any intermediate result,
    with one exception: [seqlen] of a range that covers all 2^31 numbers. *)
Theorem seqno_int_safe (s1 s2 n : Z) (H1 : valid s1) (H2 : valid s2) (Hn : valid n) :
  seqcmp_int s1 s2 = Some (seqcmp s1 s2) /\
  seqoff_int s1 s2 = Some (seqoff s1 s2) /\
  incseq_by_int s1 n = Some (incseq_by s1 n) /\
  decseq_by_int s1 n = Some (decseq_by s1 n) /\
  (seqlen_int s1 s2 = if decide (s1 = incseq s2) then None else Some (seqlen s1 s2)).
Proof.
  unfold valid, m_iMaxSeqNo in *.
  unfold seqcmp_int, seqcmp, seqoff_int, seqoff, incseq_by_int, incseq_by, decseq_by_int,
    decseq_by, seqlen_int, seqlen, incseq, m_iMaxSeqNo, m_iSeqNoTH.
  cbv zeta. repeat apply conj; bdestr; int_safe; bdestr; int_safe; try (f_equal; lia).
  all: case_decide; int_safe; try (f_equal; lia); try lia.
  all: apply int_op_None; unfold in_i32; lia.
Qed.

Lemma seqno_int_safe_witness : seqlen_int 6 5 = None /\ seqlen_int 0x7FFFFFFF 5 = Some 7.
Proof.
  split.
  - pose proof (seqno_int_safe 6 5 0) as H.
    destruct H as (_ & _ & _ & _ & H); [vm_compute; split; discriminate..|]. exact H.
  - reflexivity.
Defined.

(** Stepping forward and back by the same amount is the identity and stays
    among the valid numbers, also across the wrap from 2^31 - 1 to 0. *)
Theorem seqno_inc_dec (s n : Z) (Hs : valid s) (Hn : valid n) :
  decseq_by (incseq_by s n) n = s /\ incseq_by (decseq_by s n) n = s /\
  decseq (incseq s) = s /\ incseq (decseq s) = s /\
  valid (incseq_by s n) /\ valid (decseq_by s n) /\ valid (incseq s) /\ valid (decseq s).
Proof.
  unfold valid, m_iMaxSeqNo in *. rewrite <- (seq_of_id s) by done.
  autorewrite with seqno.
  rewrite Z.add_simpl_r, Z.sub_simpl_r, Z.add_simpl_r, Z.sub_simpl_r.
  repeat split; apply seq_of_valid.
Qed.

Lemma seqno_inc_dec_witness : incseq_by (decseq_by 3 7) 7 = 3 /\ decseq_by 3 7 = 0x7FFFFFFC.
Proof.
  split; [|reflexivity].
  apply (seqno_inc_dec 3 7); vm_compute; split; discriminate.
Defined.

(** At a distance of exactly [m_iSeqNoTH], which the documented
    precondition still admits, the answer depends on where the numbers lie:
    across the wrap the offset is right, elsewhere the pair is taken for a
    wrapped one and a later number comes out as an earlier one. *)
Theorem seqoff_at_threshold (s : Z) (H : valid s) :
  if s <=? m_iMaxSeqNo - m_iSeqNoTH
  then seqoff s (incseq_by s m_iSeqNoTH) = m_iSeqNoTH - 2 ^ 31 /\
       seqcmp s (incseq_by s m_iSeqNoTH) > 0
  else seqoff s (incseq_by s m_iSeqNoTH) = m_iSeqNoTH /\
       seqcmp s (incseq_by s m_iSeqNoTH) < 0.
Proof.
  unfold valid, seqoff, seqcmp, incseq_by, m_iSeqNoTH, m_iMaxSeqNo in *. bdestr.
  all: split; bdestr.
Qed.

Lemma seqoff_at_threshold_witness :
  valid 10 /\ seqoff 10 (incseq_by 10 m_iSeqNoTH) = m_iSeqNoTH - 2 ^ 31.
Proof.
  split; [vm_compute; split; discriminate|].
  apply (seqoff_at_threshold 10). vm_compute. split; discriminate.
Defined.

(** Removing the width conversions that a range shows to be the identity. *)
Ltac roll_step Hi Hu :=
  match goal with
  | |- context [i32 ?z] => no_if z; rewrite (Hi z) by lia
  | |- context [u32 ?z] => no_if z; rewrite (Hu z) by lia
  | _ => bdestr_step
  end; cbv iota.

Section RollFacts.
Variables (BITS MIN : Z).
Hypothesis HBITS : 1 <= BITS <= 29.
Hypothesis HMIN : 0 <= MIN < 2 ^ BITS.
Local Notation OVER := (RollNumber.OVER BITS).
Local Notation HALF := (RollNumber.HALF BITS MIN).
Local Notation mask := (RollNumber.mask BITS).
Local Notation rvalid := (RollNumber.roll_valid BITS MIN).

Lemma roll_consts : OVER = 2 ^ (BITS + 1) /\ mask = 2 ^ (BITS + 1) - 1 /\
  2 * HALF <= 2 ^ (BITS + 1) - MIN < 2 * HALF + 2 /\
  4 <= 2 ^ (BITS + 1) <= 2 ^ 30 /\ 2 * 2 ^ BITS = 2 ^ (BITS + 1).
Proof.
  unfold RollNumber.OVER, RollNumber.HALF, RollNumber.OVER, RollNumber.mask.
  assert (2 ^ 2 <= 2 ^ (BITS + 1)) by (apply Z.pow_le_mono_r; lia).
  assert (2 ^ (BITS + 1) <= 2 ^ 30) by (apply Z.pow_le_mono_r; lia).
  rewrite Z.sub_simpl_r.
  pose proof (Z.div_mod (2 ^ (BITS + 1) - MIN) 2). 
  pose proof (Z.mod_pos_bound (2 ^ (BITS + 1) - MIN) 2).
  repeat split; try lia. rewrite Z.pow_add_r by lia. lia.
Qed.

(** The rolling message numbers: for every valid number and every step
    shorter than half the cycle that does not land just below [MIN], adding
    the step keeps the number valid, subtracting the two numbers gives back
    the step, the comparison agrees with its sign, and [++] and [--] are
    inverse and stay valid. *)
Theorem roll_add_diff (r d : Z) (Hr : rvalid r) (Hd : - HALF < d < HALF)
  (Hgap : ~ 0 <= r + d < MIN) :
  rvalid (RollNumber.add BITS MIN r d) /\
  RollNumber.op_minus BITS MIN (RollNumber.add BITS MIN r d) r = d /\
  RollNumber.op_lt BITS MIN r (RollNumber.add BITS MIN r d) = (0 <? d) /\
  RollNumber.incr BITS MIN (RollNumber.decr BITS MIN r) = r /\
  RollNumber.decr BITS MIN (RollNumber.incr BITS MIN r) = r /\
  rvalid (RollNumber.incr BITS MIN r) /\ rvalid (RollNumber.decr BITS MIN r).
Proof.
  destruct roll_consts as (HO & HM & HH & HP & HP2).
  unfold RollNumber.roll_valid, RollNumber.op_minus, RollNumber.Diff, RollNumber.add,
    RollNumber.op_lt, RollNumber.incr, RollNumber.decr in *.
  cbv zeta. rewrite HO, HM in *. set (P := 2 ^ (BITS + 1)) in *. clearbody P.
  set (Hf := HALF) in *. clearbody Hf.
  assert (Hi : forall z, - 2 ^ 31 <= z < 2 ^ 31 -> i32 z = z) by (intros; by apply i32_id).
  assert (Hu : forall z, 0 <= z < 2 ^ 32 -> u32 z = z) by (intros; by apply u32_id).
  repeat apply conj; repeat (roll_step Hi Hu; try lia).
Qed.

(** A step back that lands in the gap below [MIN] is not wrapped: [+=]
    stores a number that is not valid. *)
Theorem roll_add_gap (r d : Z) (Hr : rvalid r) (Hd : 0 <= r + d < MIN) :
  RollNumber.add BITS MIN r d = r + d /\ ~ rvalid (RollNumber.add BITS MIN r d).
Proof.
  destruct roll_consts as (HO & HM & HH & HP & HP2).
  unfold RollNumber.roll_valid, RollNumber.add in *.
  rewrite HO, HM in *. rewrite (u32_id (r + d)) by (unfold in_u32; lia). bdestr.
Qed.
End RollFacts.

Lemma roll_add_diff_witness :
  RollNumber.add 25 1 5 (-9) = 0x3FFFFFB /\
  RollNumber.op_minus 25 1 (RollNumber.add 25 1 5 (-9)) 5 = -9.
Proof.
  split; [reflexivity|].
  apply (roll_add_diff 25 1); vm_compute; intuition discriminate.
Defined.

Lemma roll_add_gap_witness :
  RollNumber.roll_valid 25 1 5 /\ RollNumber.add 25 1 5 (-5) = 0.
Proof.
  split; [vm_compute; intuition discriminate|].
  apply (roll_add_gap 25 1 ltac:(lia) ltac:(vm_compute; intuition discriminate) 5 (-5));
    vm_compute; intuition discriminate.
Defined.
