(* ===== verification/Slots.v ===== *)
(** Interval lists stored in a ring of slots, the data structure both loss
    lists of srtcore/list.cpp use: an interval that starts at stream position
    [a] lives in the slot [(c + a) mod size] and points to the slot of the next
    one.  This file relates such a ring to the set of positions it holds; it
    models no code of its own. *)
From S2P Require Import Prelude SeqNo.
Import CSeqNo.

(** What a slot of either list offers. *)
Class SlotNode (A : Type) := {
  nstart : A -> Z;
  nend : A -> Z;
  nnext : A -> Z;
  (** the link back, where the list has one *)
  nprior : A -> Z -> Prop;
}.

(** ** Interval lists *)

(** Increasing disjoint intervals (adjacent ones may stay separate), all in
    the window from [lo] to [hi - 1]. *)
Fixpoint ivs_ok (lo hi : Z) (l : list (Z * Z)) : Prop :=
  match l with
  | [] => True
  | (a, b) :: r => lo <= a /\ a <= b /\ b < hi /\ ivs_ok (b + 1) hi r
  end.

Definition range (a b : Z) : gset Z := list_to_set (seqZ a (b - a + 1)).

Fixpoint ivs_set (l : list (Z * Z)) : gset Z :=
  match l with
  | [] => ∅
  | (a, b) :: r => range a b ∪ ivs_set r
  end.

Fixpoint ivs_len (l : list (Z * Z)) : Z :=
  match l with
  | [] => 0
  | (a, b) :: r => (b - a + 1) + ivs_len r
  end.

Lemma elem_of_range x a b : x ∈ range a b <-> a <= x <= b.
Proof. unfold range. rewrite elem_of_list_to_set, elem_of_seqZ. lia. Qed.

Lemma size_range a b : a <= b + 1 -> Z.of_nat (size (range a b)) = b - a + 1.
Proof.
  intros H. unfold range. rewrite size_list_to_set by apply NoDup_seqZ.
  rewrite length_seqZ. lia.
Qed.

Lemma ivs_set_nil_inv l lo hi : ivs_ok lo hi l -> ivs_set l = ∅ -> l = [].
Proof.
  destruct l as [|[a b] r]; [done|]. simpl. intros (? & ? & ? & _) E.
  assert (a ∈ range a b ∪ ivs_set r) as Ha by (apply elem_of_union_l, elem_of_range; lia).
  rewrite E in Ha. set_solver.
Qed.

Lemma ivs_ok_weaken lo lo' hi hi' l : lo' <= lo -> hi <= hi' -> ivs_ok lo hi l -> ivs_ok lo' hi' l.
Proof.
  revert lo lo'. induction l as [|[a b] r IH]; simpl; [done|].
  intros lo lo' H1 H2 (? & ? & ? & ?). repeat split; try lia. by apply (IH (b + 1)); [lia..|].
Qed.

Lemma ivs_set_bounds lo hi l x : ivs_ok lo hi l -> x ∈ ivs_set l -> lo <= x < hi.
Proof.
  revert lo. induction l as [|[a b] r IH]; simpl; [set_solver|].
  intros lo (? & ? & ? & Hr) [Hx|Hx]%elem_of_union.
  - apply elem_of_range in Hx. lia.
  - specialize (IH _ Hr Hx). lia.
Qed.

Lemma ivs_len_nonneg lo hi l : ivs_ok lo hi l -> 0 <= ivs_len l.
Proof.
  revert lo. induction l as [|[a b] r IH]; simpl; [lia|].
  intros lo (? & ? & ? & Hr). specialize (IH _ Hr). lia.
Qed.

Lemma ivs_len_size lo hi l : ivs_ok lo hi l -> ivs_len l = Z.of_nat (size (ivs_set l)).
Proof.
  revert lo. induction l as [|[a b] r IH]; simpl; [done|].
  intros lo (? & ? & ? & Hr). rewrite size_union.
  - rewrite Nat2Z.inj_add, size_range by lia. rewrite (IH _ Hr). lia.
  - intros x Hx%elem_of_range Hy. pose proof (ivs_set_bounds _ _ _ _ Hr Hy). lia.
Qed.

(** Intervals with increasing starts that may still overlap, as they do
    between the update of a node and the merge with the nodes after it. *)
Fixpoint starts_ok (lo hi : Z) (l : list (Z * Z)) : Prop :=
  match l with
  | [] => True
  | (a, b) :: r => lo <= a < hi /\ a <= b < hi /\ starts_ok (a + 1) hi r
  end.

Lemma starts_ok_weaken lo lo' hi l : lo' <= lo -> starts_ok lo hi l -> starts_ok lo' hi l.
Proof. destruct l as [|[a b] r]; simpl; [done|]. intros ? (? & ? & ?). repeat split; try lia; done. Qed.

Lemma ivs_ok_starts lo hi l : ivs_ok lo hi l -> starts_ok lo hi l.
Proof.
  revert lo. induction l as [|[a b] r IH]; simpl; [done|].
  intros lo (? & ? & ? & Hr). repeat split; try lia.
  apply (starts_ok_weaken (b + 1)); [lia|]. by apply IH.
Qed.

(** Lists in two parts. *)
Fixpoint last_end (lo : Z) (l : list (Z * Z)) : Z :=
  match l with [] => lo | (a, b) :: r => last_end (b + 1) r end.
Fixpoint last_start (lo : Z) (l : list (Z * Z)) : Z :=
  match l with [] => lo | (a, b) :: r => last_start (a + 1) r end.

Lemma ivs_ok_app lo hi l1 l2 :
  ivs_ok lo hi (l1 ++ l2) <-> ivs_ok lo hi l1 /\ ivs_ok (last_end lo l1) hi l2.
Proof.
  revert lo. induction l1 as [|[a b] r IH]; intros lo; simpl; [tauto|].
  rewrite IH. tauto.
Qed.

Lemma starts_ok_app lo hi l1 l2 :
  starts_ok lo hi (l1 ++ l2) <-> starts_ok lo hi l1 /\ starts_ok (last_start lo l1) hi l2.
Proof.
  revert lo. induction l1 as [|[a b] r IH]; intros lo; simpl; [tauto|].
  rewrite IH. tauto.
Qed.

Lemma last_end_bound lo hi l : lo <= hi -> ivs_ok lo hi l -> lo <= last_end lo l <= hi.
Proof.
  revert lo. induction l as [|[a b] r IH]; simpl; [lia|].
  intros lo ? (? & ? & ? & Hr). specialize (IH (b + 1) ltac:(lia) Hr). lia.
Qed.

Lemma last_start_le lo hi l : starts_ok lo hi l -> lo <= last_start lo l.
Proof.
  revert lo. induction l as [|[a b] r IH]; simpl; [lia|].
  intros lo (? & ? & Hr). specialize (IH _ Hr). lia.
Qed.

Lemma last_start_le_end lo hi l : lo <= hi -> ivs_ok lo hi l -> last_start lo l <= last_end lo l.
Proof.
  intros _. assert (H : forall lo', lo' <= lo -> ivs_ok lo hi l -> last_start lo' l <= last_end lo l).
  { revert lo. induction l as [|[a b] r IH]; simpl; intros lo lo' ? Hok; [lia|].
    destruct Hok as (? & ? & ? & Hr). apply (IH (b + 1)); [lia|done]. }
  apply H. lia.
Qed.

Lemma last_end_app lo l1 l2 : last_end lo (l1 ++ l2) = last_end (last_end lo l1) l2.
Proof. revert lo. by induction l1 as [|[a b] r IH]; simpl. Qed.

Lemma ivs_set_app l1 l2 : ivs_set (l1 ++ l2) = ivs_set l1 ∪ ivs_set l2.
Proof. induction l1 as [|[a b] r IH]; simpl; [set_solver|]. rewrite IH. set_solver. Qed.

Lemma ivs_len_app l1 l2 : ivs_len (l1 ++ l2) = ivs_len l1 + ivs_len l2.
Proof. induction l1 as [|[a b] r IH]; simpl; [done|]. lia. Qed.

Lemma starts_ok_elem lo hi l a b : starts_ok lo hi l -> (a, b) ∈ l -> lo <= a < hi /\ a <= b < hi.
Proof.
  revert lo. induction l as [|[a' b'] r IH]; simpl; intros lo Hok Hin; [by apply elem_of_nil in Hin|].
  destruct Hok as (? & ? & Hr). apply elem_of_cons in Hin as [[= -> ->]|Hin]; [lia|].
  specialize (IH _ Hr Hin). lia.
Qed.

Lemma starts_ok_last lo hi l a b : starts_ok lo hi l -> (a, b) ∈ l -> a < last_start lo l.
Proof.
  revert lo. induction l as [|[a' b'] r IH]; simpl; intros lo Hok Hin; [by apply elem_of_nil in Hin|].
  destruct Hok as (? & ? & Hr). apply elem_of_cons in Hin as [[= -> ->]|Hin]; [|by apply IH].
  pose proof (last_start_le _ _ _ Hr). lia.
Qed.

Lemma mem_code (x : Z) (S : gset Z) : exists k : Z, x ∈ S <-> k = 0.
Proof. destruct (decide (x ∈ S)); [exists 0|exists 1]; (split; [lia || done|done]). Qed.

(** Extensional equality of position sets, by linear arithmetic on a member. *)
Ltac mem_codes :=
  repeat match goal with
  | |- context [?x ∈ ?S] =>
      let k := fresh "k" in let Hk := fresh "Hk" in
      destruct (mem_code x S) as [k Hk]; rewrite !Hk; clear Hk
  end.
Ltac ivs_ext :=
  apply set_eq; intros ?;
  repeat (rewrite ?ivs_set_app, ?elem_of_union, ?elem_of_range, ?elem_of_empty,
    ?elem_of_difference, ?elem_of_singleton; simpl ivs_set);
  mem_codes; try lia.

(** Position sets in a window, and their first element. *)
Definition fits (lo size : Z) (S : gset Z) : Prop := set_Forall (fun x => lo <= x < lo + size) S.

#[export] Instance fits_dec lo size S : Decision (fits lo size S).
Proof. unfold fits. apply _. Defined.

Definition first_of (S : gset Z) : option Z :=
  match elements S with [] => None | x :: l => Some (foldr Z.min x l) end.

Lemma foldr_min_spec x l : foldr Z.min x l ∈ x :: l /\ forall y, y ∈ x :: l -> foldr Z.min x l <= y.
Proof.
  induction l as [|z l [IH1 IH2]]; simpl.
  { split; [left|]. intros y [->|Hy]%elem_of_cons; [lia|by apply elem_of_nil in Hy]. }
  split.
  - destruct (Z.min_spec z (foldr Z.min x l)) as [[_ ->]|[_ ->]]; [right; left|].
    apply elem_of_cons in IH1 as [->|IH1]; [left|right; by right].
  - intros y [->|[->|Hy]%elem_of_cons]%elem_of_cons; [|lia|].
    + specialize (IH2 x ltac:(left)). lia.
    + specialize (IH2 y ltac:(by right)). lia.
Qed.

Lemma first_of_Some S m : first_of S = Some m <-> m ∈ S /\ forall x, x ∈ S -> m <= x.
Proof.
  unfold first_of. destruct (elements S) as [|x l] eqn:E.
  { apply elements_empty_inv in E. split; [done|]. set_solver. }
  destruct (foldr_min_spec x l) as [H1 H2]. rewrite <- E in H1, H2. split.
  - intros [= <-]. split; [by apply elem_of_elements|]. intros y Hy. apply H2. by apply elem_of_elements.
  - intros [Hm Hmin]. f_equal. apply elem_of_elements in H1, Hm.
    specialize (Hmin _ H1). specialize (H2 m). rewrite elem_of_elements in H2. specialize (H2 ltac:(set_solver)). lia.
Qed.

Lemma first_of_None S : first_of S = None <-> S = ∅.
Proof.
  unfold first_of. destruct (elements S) as [|x l] eqn:E.
  - apply elements_empty_inv in E. split; [|done]. intros _. by apply leibniz_equiv.
  - split; [done|]. intros ->. by rewrite elements_empty in E.
Qed.

Lemma ivs_first lo hi a b l : ivs_ok lo hi ((a, b) :: l) -> first_of (ivs_set ((a, b) :: l)) = Some a.
Proof.
  intros Hok. simpl in Hok. apply first_of_Some. split.
  - simpl. apply elem_of_union_l, elem_of_range. lia.
  - intros x Hx. apply (ivs_set_bounds a hi) in Hx; [lia|]. simpl. intuition lia.
Qed.

Lemma ivs_tail lo hi a b l : ivs_ok lo hi ((a, b) :: l) ->
  ivs_set (if a =? b then l else (a + 1, b) :: l) = ivs_set ((a, b) :: l) ∖ {[a]}.
Proof.
  simpl. intros (? & ? & ? & Hok). assert (Hl : a ∉ ivs_set l).
  { intros Ha. apply (ivs_set_bounds _ _ _ _ Hok) in Ha. lia. }
  apply set_eq. intros x. destruct (decide (x = a)) as [->|Hx].
  - destruct (Z.eqb_spec a b); simpl ivs_set; rewrite ?elem_of_difference, ?elem_of_union, ?elem_of_range; set_solver by lia.
  - destruct (Z.eqb_spec a b); simpl ivs_set;
      rewrite ?elem_of_difference, ?elem_of_union, ?elem_of_range, ?elem_of_singleton; mem_codes; lia.
Qed.

(** The window of an interval list is given by its elements. *)
Lemma ivs_rewindow lo hi lo' size l : ivs_ok lo hi l -> fits lo' size (ivs_set l) -> ivs_ok lo' (lo' + size) l.
Proof.
  unfold fits. remember (lo' + size) as hi' eqn:E. clear E. revert lo lo'.
  induction l as [|[a b] r IH]; simpl; intros lo lo' Hok Hf; [done|]. destruct Hok as (? & ? & ? & Hr).
  assert (Ha : a ∈ range a b ∪ ivs_set r) by (apply elem_of_union_l, elem_of_range; lia).
  assert (Hb : b ∈ range a b ∪ ivs_set r) by (apply elem_of_union_l, elem_of_range; lia).
  pose proof (Hf a Ha). pose proof (Hf b Hb). simpl in *. repeat split; try lia.
  apply (IH (b + 1)); [done|]. intros x Hx. pose proof (ivs_set_bounds _ _ _ _ Hr Hx).
  specialize (Hf x ltac:(set_solver)). simpl in Hf. lia.
Qed.

Lemma ivs_set_below lo hi l x : ivs_ok lo hi l -> x ∈ ivs_set l -> x < last_end lo l.
Proof.
  revert lo. induction l as [|[a b] r IH]; simpl; [set_solver|].
  intros lo (? & ? & ? & Hr) [Hx%elem_of_range|Hx]%elem_of_union; [|by apply IH].
  enough (b + 1 <= last_end (b + 1) r) by lia. clear - Hr. revert Hr. generalize (b + 1). clear b.
  induction r as [|[x y] r IH]; simpl; [lia|]. intros z (? & ? & ? & Hr). specialize (IH _ Hr). lia.
Qed.

(** Cutting an interval list at [u]. *)
Lemma ivs_filter lo hi l1 l2 u : lo <= hi -> ivs_ok lo hi (l1 ++ l2) -> last_end lo l1 <= u + 1 ->
  ivs_ok (u + 1) hi l2 -> ivs_set l2 = filter (fun x => u < x) (ivs_set (l1 ++ l2)).
Proof.
  intros Hle [H1 H2]%ivs_ok_app Hu Hok. apply set_eq. intros x.
  rewrite elem_of_filter, ivs_set_app, elem_of_union. split.
  - intros Hx. pose proof (ivs_set_bounds _ _ _ _ Hok Hx). split; [lia|auto].
  - intros [Hux [Hx|Hx]]; [|done].
    assert (x < last_end lo l1); [|lia].
    clear - Hle H1 Hx. revert lo Hle H1 Hx. induction l1 as [|[a b] r IH]; simpl; [set_solver|].
    intros lo Hle (? & ? & ? & Hr) [Hx%elem_of_range|Hx]%elem_of_union; [|by apply IH; [lia|..]].
    pose proof (last_end_bound (b + 1) hi r ltac:(lia) Hr). lia.
Qed.

Lemma ivs_length lo hi l : lo <= hi -> ivs_ok lo hi l -> zlen l <= hi - lo.
Proof.
  revert lo. induction l as [|[a b] r IH]; simpl; intros lo Hle Hok; [lia|].
  destruct Hok as (? & ? & ? & Hr). specialize (IH (b + 1) ltac:(lia) Hr). lia.
Qed.

(** ** The ring *)

Section Ring.
Context {A : Type} `{Inhabited A} `{SlotNode A}.
(** [size] slots; the stream position [0] belongs to slot [c mod size]. *)
Variables (size c : Z).

Definition pos (a : Z) : Z := (c + a) mod size.

Definition hd_pos (l : list (Z * Z)) (t : Z) : Z :=
  match l with [] => t | (a, _) :: _ => pos a end.

Fixpoint last_pos (pr : Z) (l : list (Z * Z)) : Z :=
  match l with [] => pr | (a, _) :: r => last_pos (pos a) r end.

(** The node that belongs into slot [p], with its links. *)
Fixpoint slot (pr : Z) (l : list (Z * Z)) (t p : Z) : option (Z * Z * Z * Z) :=
  match l with
  | [] => None
  | (a, b) :: r => if pos a =? p then Some (a, b, hd_pos r t, pr) else slot (pos a) r t p
  end.

Definition end_code (a b : Z) : Z := if a =? b then SRT_SEQNO_NONE else seq_of b.

Definition slot_is (o : option (Z * Z * Z * Z)) (n : A) : Prop :=
  match o with
  | Some (a, b, nx, pr) =>
      nstart n = seq_of a /\ nend n = end_code a b /\ nnext n = nx /\ nprior n pr
  | None => nstart n = SRT_SEQNO_NONE /\ nend n = SRT_SEQNO_NONE
  end.

(** The array holds exactly the nodes of [l]. *)
Definition layout (arr : list A) (l : list (Z * Z)) : Prop :=
  zlen arr = size /\ forall p, 0 <= p < size -> slot_is (slot (-1) l (-1) p) (arr.[p]).

Definition at_pos (l : list (Z * Z)) (p : Z) : Prop := exists a b, (a, b) ∈ l /\ pos a = p.

Lemma at_pos_app l1 l2 p : at_pos (l1 ++ l2) p <-> at_pos l1 p \/ at_pos l2 p.
Proof. unfold at_pos. set_solver. Qed.

Lemma at_pos_cons a b l p : at_pos ((a, b) :: l) p <-> pos a = p \/ at_pos l p.
Proof.
  unfold at_pos. split.
  - intros (a' & b' & [[= -> ->]|Hin]%elem_of_cons & E); eauto 6.
  - intros [E|(a' & b' & Hin & E)]; [exists a, b|exists a', b']; set_solver.
Qed.

Lemma at_pos_nil p : ~ at_pos [] p.
Proof. unfold at_pos. set_solver. Qed.

Lemma slot_none pr l t p : ~ at_pos l p -> slot pr l t p = None.
Proof.
  revert pr. induction l as [|[a b] r IH]; intros pr Hn; simpl; [done|].
  rewrite at_pos_cons in Hn. destruct (Z.eqb_spec (pos a) p); [tauto|]. apply IH. tauto.
Qed.

Lemma hd_pos_app l1 l2 t : hd_pos (l1 ++ l2) t = hd_pos l1 (hd_pos l2 t).
Proof. by destruct l1 as [|[]]. Qed.

Lemma slot_app pr l1 l2 t p :
  slot pr (l1 ++ l2) t p =
    match slot pr l1 (hd_pos l2 t) p with Some x => Some x | None => slot (last_pos pr l1) l2 t p end.
Proof.
  revert pr. induction l1 as [|[a b] r IH]; intros pr; simpl; [done|].
  rewrite hd_pos_app. destruct (pos a =? p); [done|]. apply IH.
Qed.

Lemma slot_at pr l t p : at_pos l p -> slot pr l t p <> None.
Proof.
  revert pr. induction l as [|[a b] r IH]; intros pr; simpl; [by intros ?%at_pos_nil|].
  rewrite at_pos_cons. destruct (Z.eqb_spec (pos a) p); [done|]. intros [?|?]; [done|]. by apply IH.
Qed.

Lemma at_pos_dec l p : at_pos l p \/ ~ at_pos l p.
Proof.
  induction l as [|[a b] r IH]; [right; apply at_pos_nil|].
  rewrite at_pos_cons. destruct (decide (pos a = p)); tauto.
Qed.

Lemma slot_prior pr pr' l t p n :
  (forall n z, nprior n z) -> slot_is (slot pr l t p) n -> slot_is (slot pr' l t p) n.
Proof.
  intros Hp. destruct l as [|[a b] r]; simpl; [done|]. destruct (pos a =? p); [|done].
  intros (? & ? & ? & _). repeat split; auto.
Qed.

Hypothesis Hsize : 0 < size.

Lemma pos_bound a : 0 <= pos a < size.
Proof. apply Z.mod_pos_bound. done. Qed.

Lemma pos_inj a b : - size < a - b < size -> pos a = pos b -> a = b.
Proof.
  intros Hd E. unfold pos in E.
  pose proof (Z.div_mod (c + a) size ltac:(lia)). pose proof (Z.div_mod (c + b) size ltac:(lia)).
  rewrite E in H1. generalize dependent ((c + a) / size). generalize dependent ((c + b) / size).
  intros k Hk k' Hk'. assert (a - b = size * (k' - k)) by lia.
  destruct (Z.lt_trichotomy k k') as [?|[?|?]]; nia.
Qed.

Lemma pos_shift a d : (pos a + d) mod size = pos (a + d).
Proof. unfold pos. rewrite Zplus_mod_idemp_l. f_equal. lia. Qed.

Lemma pos_succ a : Z.rem (pos a + 1) size = pos (a + 1).
Proof. pose proof (pos_bound a). rewrite rem_nonneg by lia. apply pos_shift. Qed.

Lemma pos_off a d : - size < d -> Z.rem (pos a + d + size) size = pos (a + d).
Proof.
  intros. pose proof (pos_bound a). rewrite rem_nonneg by lia.
  rewrite <- pos_shift. replace (pos a + d + size) with (pos a + d + 1 * size) by lia.
  apply Z.mod_add. lia.
Qed.

(** The two parts of a list in the window use different slots. *)
Lemma at_pos_disjoint lo hi l1 l2 p : hi <= lo + size ->
  starts_ok lo hi (l1 ++ l2) -> at_pos l1 p -> at_pos l2 p -> False.
Proof.
  intros Hw Hok (a & b & Hin & Ha) (a' & b' & Hin' & Ha').
  assert (H1 : (a, b) ∈ l1 ++ l2) by (apply elem_of_app; auto).
  assert (H2 : (a', b') ∈ l1 ++ l2) by (apply elem_of_app; auto).
  pose proof (starts_ok_elem _ _ _ _ _ Hok H1) as Ba.
  pose proof (starts_ok_elem _ _ _ _ _ Hok H2) as Ba'.
  assert (E : a = a') by (apply pos_inj; [lia|congruence]). subst a'.
  apply starts_ok_app in Hok as [Hok1 Hok2].
  pose proof (starts_ok_elem _ _ _ _ _ Hok2 Hin').
  pose proof (starts_ok_last _ _ _ _ _ Hok1 Hin). lia.
Qed.

(** Replacing the nodes [m] in the middle by [m']: the slots of neither part
    keep their contents, the slots of both hold what [m'] asks for. *)
Lemma layout_replace lo hi arr arr' l1 m m' l2 : hi <= lo + size ->
  starts_ok lo hi (l1 ++ m ++ l2) -> starts_ok lo hi (l1 ++ m' ++ l2) ->
  layout arr (l1 ++ m ++ l2) ->
  (l1 = [] \/ hd_pos (m' ++ l2) (-1) = hd_pos (m ++ l2) (-1)) ->
  (l2 = [] \/ last_pos (last_pos (-1) l1) m' = last_pos (last_pos (-1) l1) m \/
     forall n z, nprior n z) ->
  zlen arr' = size ->
  (forall p, ~ at_pos m p -> ~ at_pos m' p -> arr'.[p] = arr.[p]) ->
  (forall p, at_pos m p \/ at_pos m' p ->
     slot_is (slot (last_pos (-1) l1) m' (hd_pos l2 (-1)) p) (arr'.[p])) ->
  layout arr' (l1 ++ m' ++ l2).
Proof.
  intros Hw Hok Hok' [Hlen Hl] Hhd Hlast Hlen' Hframe Hm. split; [done|].
  intros p Hp. specialize (Hl p Hp). rewrite slot_app in Hl |- *.
  destruct (at_pos_dec l1 p) as [H1|H1].
  - assert (~ at_pos m p) by (intros ?; eapply (at_pos_disjoint lo hi l1 (m ++ l2)); eauto; rewrite at_pos_app; auto).
    assert (~ at_pos m' p) by (intros ?; eapply (at_pos_disjoint lo hi l1 (m' ++ l2)); eauto; rewrite at_pos_app; auto).
    rewrite Hframe by done. destruct Hhd as [->|Hhd]; [by apply at_pos_nil in H1|].
    rewrite Hhd. destruct (slot _ l1 _ p) eqn:E; [done|]. by apply slot_at in E.
  - rewrite (slot_none _ l1) in Hl |- * by done. rewrite slot_app in Hl |- *.
    destruct (at_pos_dec m' p) as [Hm'|Hm'].
    { specialize (Hm p ltac:(auto)). destruct (slot _ m' _ p) eqn:E; [done|]. by apply slot_at in E. }
    rewrite (slot_none _ m') by done. destruct (at_pos_dec m p) as [Hmm|Hmm].
    + specialize (Hm p ltac:(auto)). rewrite slot_none in Hm by done.
      rewrite slot_none; [done|]. intros Hl2. apply starts_ok_app in Hok as [Hok1 Hok2].
      pose proof (last_start_le _ _ _ Hok1).
      apply (at_pos_disjoint (last_start lo l1) hi m l2 p); auto; lia.
    + rewrite (slot_none _ m) in Hl by done. rewrite Hframe by done.
      destruct Hlast as [->|[Hlast|Hlast]]; [done|by rewrite Hlast|].
      by eapply slot_prior.
Qed.

Lemma last_pos_at l pr : l <> [] -> at_pos l (last_pos pr l).
Proof.
  revert pr. induction l as [|[a b] r IH]; intros pr Hne; [done|]. rewrite at_pos_cons. simpl.
  destruct r as [|iv r]; [by left|right; by apply IH].
Qed.

Lemma hd_pos_at l t : l <> [] -> at_pos l (hd_pos l t).
Proof. destruct l as [|[a b] r]; [done|]. intros _. rewrite at_pos_cons. by left. Qed.

Lemma last_pos_app pr l1 l2 : last_pos pr (l1 ++ l2) = last_pos (last_pos pr l1) l2.
Proof. revert pr. by induction l1 as [|[a b] r IH]; simpl. Qed.

(** The links at both ends of a part of the list. *)
Lemma slot_retarget lo hi pr l t t' p : hi <= lo + size -> starts_ok lo hi l -> 0 <= p ->
  slot pr l t' p =
    match slot pr l t p with
    | Some (a, b, nx, q) => Some (a, b, if p =? last_pos (-1) l then t' else nx, q)
    | None => None
    end.
Proof.
  intros Hw. revert lo pr Hw. induction l as [|[a b] r IH]; intros lo pr Hw Hok Hp; simpl; [done|].
  destruct (Z.eqb_spec (pos a) p) as [<-|Hne].
  - destruct r as [|[x y] r]; simpl; [by rewrite Z.eqb_refl|].
    destruct (Z.eqb_spec (pos a) (last_pos (pos x) r)) as [E|]; [|done]. exfalso.
    apply (at_pos_disjoint lo hi [(a, b)] ((x, y) :: r) (pos a) Hw Hok); [rewrite at_pos_cons; by left|].
    rewrite E. change (last_pos (pos x) r) with (last_pos 0 ((x, y) :: r)). by apply last_pos_at.
  - simpl in Hok. rewrite (IH (a + 1)) by (lia || tauto).
    destruct (slot (pos a) r t p) as [[[[a' b'] nx] q]|] eqn:E; [|done].
    destruct r as [|[x y] r]; [done|]. done.
Qed.

Lemma slot_reprior lo hi pr pr' l t p : hi <= lo + size -> starts_ok lo hi l -> 0 <= p ->
  slot pr' l t p =
    match slot pr l t p with
    | Some (a, b, nx, q) => Some (a, b, nx, if p =? hd_pos l (-1) then pr' else q)
    | None => None
    end.
Proof.
  intros Hw Hok Hp. destruct l as [|[a b] r]; simpl; [done|].
  destruct (Z.eqb_spec (pos a) p) as [<-|Hne]; [by rewrite Z.eqb_refl|].
  destruct (slot (pos a) r t p) as [[[[a' b'] nx] q]|]; [|done].
  by rewrite (proj2 (Z.eqb_neq p (pos a))) by congruence.
Qed.

(** Replacing [m] by [m'] together with the links of the nodes around it. *)
Lemma layout_relink lo hi arr arr' l1 m m' l2 : hi <= lo + size ->
  starts_ok lo hi (l1 ++ m ++ l2) -> starts_ok lo hi (l1 ++ m' ++ l2) ->
  layout arr (l1 ++ m ++ l2) -> zlen arr' = size ->
  (forall p, 0 <= p < size -> ~ at_pos m p -> ~ at_pos m' p ->
     nstart (arr'.[p]) = nstart (arr.[p]) /\ nend (arr'.[p]) = nend (arr.[p]) /\
     nnext (arr'.[p]) = (if p =? last_pos (-1) l1 then hd_pos (m' ++ l2) (-1) else nnext (arr.[p])) /\
     forall z, nprior (arr.[p]) z ->
       nprior (arr'.[p]) (if p =? hd_pos l2 (-1) then last_pos (last_pos (-1) l1) m' else z)) ->
  (forall p, at_pos m p \/ at_pos m' p ->
     slot_is (slot (last_pos (-1) l1) m' (hd_pos l2 (-1)) p) (arr'.[p])) ->
  layout arr' (l1 ++ m' ++ l2).
Proof.
  intros Hw Hok Hok' [Hlen Hl] Hlen' Hframe Hm. split; [done|].
  pose proof Hok as Hoks. apply starts_ok_app in Hoks as [Hok1 Hok2].
  apply starts_ok_app in Hok2 as [Hokm Hok2]. pose proof (last_start_le _ _ _ Hok1).
  pose proof (last_start_le _ _ _ Hokm).
  intros p Hp. specialize (Hl p Hp). rewrite !slot_app in Hl |- *.
  destruct (at_pos_dec (m ++ m') p) as [Hmm|Hmm]; rewrite at_pos_app in Hmm.
  - rewrite slot_none; [specialize (Hm p Hmm)|].
    + destruct (at_pos_dec m' p) as [H'|H'].
      { destruct (slot _ m' _ p) eqn:E; [done|]. by apply slot_at in E. }
      rewrite (slot_none _ m') in Hm |- * by done. rewrite slot_none; [done|].
      destruct Hmm as [Hmm|?]; [|done]. intros Hl2.
      apply (at_pos_disjoint (last_start lo l1) hi m l2 p); auto; [lia|].
      apply starts_ok_app. auto.
    + intros Hl1. destruct Hmm as [Hmm|Hmm].
      * apply (at_pos_disjoint lo hi l1 (m ++ l2) p); auto. rewrite at_pos_app; auto.
      * apply (at_pos_disjoint lo hi l1 (m' ++ l2) p); auto. rewrite at_pos_app; auto.
  - destruct (Hframe p Hp ltac:(tauto) ltac:(tauto)) as (F1 & F2 & F3 & F4). clear Hframe Hm.
    rewrite (slot_none _ m), (slot_none _ m') in * by tauto.
    rewrite (slot_retarget lo hi _ l1 (hd_pos (m ++ l2) (-1))) by (lia || done).
    destruct (slot (-1) l1 _ p) as [[[[a b] nx] q]|] eqn:E1.
    + simpl in Hl |- *. destruct Hl as (L1 & L2 & L3 & L4). rewrite F1, F2, F3. split_and!; auto.
      * by destruct (p =? last_pos (-1) l1).
      * specialize (F4 _ L4). destruct (Z.eqb_spec p (hd_pos l2 (-1))) as [E|]; [|done].
        exfalso. destruct l2 as [|iv l2]; [simpl in E; lia|].
        assert (at_pos l1 p) by (destruct (at_pos_dec l1 p); [done|by rewrite slot_none in E1]).
        apply (at_pos_disjoint lo hi l1 (m ++ iv :: l2) p); auto.
        rewrite at_pos_app. right. rewrite E. by apply hd_pos_at.
    + rewrite (slot_reprior (last_start (last_start lo l1) m) hi (last_pos (last_pos (-1) l1) m)) by (lia || done).
      destruct (slot _ l2 _ p) as [[[[a b] nx] q]|] eqn:E2; simpl in Hl |- *; [|by rewrite F1, F2].
      destruct Hl as (L1 & L2 & L3 & L4). rewrite F1, F2, F3. split_and!; auto.
      destruct (Z.eqb_spec p (last_pos (-1) l1)) as [E|]; [|done].
      exfalso. destruct l1 as [|iv l1]; [simpl in E; lia|].
      pose proof (last_pos_at (iv :: l1) (-1) ltac:(done)) as Hp1. rewrite <- E in Hp1.
      by apply (slot_at (-1) _ (hd_pos (m ++ l2) (-1))) in Hp1.
Qed.

(** What the array holds at the nodes of the list. *)
Lemma layout_slot lo hi arr l1 a b l2 : hi <= lo + size ->
  starts_ok lo hi (l1 ++ (a, b) :: l2) -> layout arr (l1 ++ (a, b) :: l2) ->
  let n := arr.[pos a] in
  nstart n = seq_of a /\ nend n = end_code a b /\ nnext n = hd_pos l2 (-1) /\
  nprior n (last_pos (-1) l1).
Proof.
  intros Hw Hok [Hlen Hl]. specialize (Hl (pos a) (pos_bound a)). rewrite slot_app in Hl.
  rewrite slot_none in Hl.
  - simpl in Hl. by rewrite Z.eqb_refl in Hl.
  - intros Hp. apply (at_pos_disjoint lo hi l1 ((a, b) :: l2) (pos a)); auto.
    apply at_pos_cons. auto.
Qed.

(** A slot of the window that no interval starts at is empty. *)
Lemma layout_free lo hi arr l a : hi <= lo + size -> lo <= a < hi ->
  starts_ok lo hi l -> (forall b, (a, b) ∉ l) -> layout arr l ->
  nstart (arr.[pos a]) = SRT_SEQNO_NONE /\ nend (arr.[pos a]) = SRT_SEQNO_NONE.
Proof.
  intros Hw Ha Hok Hn [Hlen Hl]. specialize (Hl (pos a) (pos_bound a)).
  rewrite slot_none in Hl; [done|]. intros (a' & b' & Hin & E).
  pose proof (starts_ok_elem _ _ _ _ _ Hok Hin). apply pos_inj in E; [subst|lia].
  by apply (Hn b').
Qed.

(** The slot of a window position: an interval starts there or it is free. *)
Lemma start_dec (l : list (Z * Z)) a : (exists b l1 l2, l = l1 ++ (a, b) :: l2) \/ forall b, (a, b) ∉ l.
Proof.
  induction l as [|[x y] r IH]; [right; intros b Hb; by apply elem_of_nil in Hb|].
  destruct (decide (x = a)) as [->|Hx]; [left; by exists y, [], r|].
  destruct IH as [(b & l1 & l2 & ->)|Hn]; [left; by exists b, ((x, y) :: l1), l2|].
  right. intros b [[= ? ?]|Hin]%elem_of_cons; [done|by apply (Hn b)].
Qed.

Lemma layout_nil arr : zlen arr = size ->
  (forall p, 0 <= p < size -> nstart (arr.[p]) = SRT_SEQNO_NONE /\ nend (arr.[p]) = SRT_SEQNO_NONE) ->
  layout arr [].
Proof. intros Hl Hp. split; [done|]. intros p ?. by apply Hp. Qed.
End Ring.

Lemma end_code_none a b : (end_code a b =? SRT_SEQNO_NONE) = (a =? b).
Proof.
  unfold end_code. destruct (Z.eqb_spec a b); [done|].
  apply Z.eqb_neq, seq_of_not_none.
Qed.

Lemma end_code_ne a b : a <> b -> end_code a b = seq_of b.
Proof. intros ?. unfold end_code. by destruct (Z.eqb_spec a b). Qed.

Lemma end_code_eq a : end_code a a = SRT_SEQNO_NONE.
Proof. unfold end_code. by rewrite Z.eqb_refl. Qed.

Lemma end_code_last a b : a <= b ->
  (if end_code a b =? SRT_SEQNO_NONE then seq_of a else end_code a b) = seq_of b.
Proof.
  intros. rewrite end_code_none. destruct (Z.eqb_spec a b); [by subst|by apply end_code_ne].
Qed.

Lemma hd_pos_none size c l : 0 < size ->
  (hd_pos size c l (-1) =? -1) = match l with [] => true | _ => false end.
Proof.
  intros. destruct l as [|[a b] r]; [done|]. simpl.
  pose proof (pos_bound size c ltac:(done) a). bdestr.
Qed.

(** Goals about the array after a replacement: the slot under consideration
    is one of the listed nodes' or none of them. *)
Ltac at_pos_cases :=
  repeat match goal with
  | H : at_pos _ _ [] _ |- _ => exfalso; revert H; apply at_pos_nil
  | H : at_pos _ _ ((_, _) :: _) _ |- _ => rewrite at_pos_cons in H
  | H : _ \/ _ |- _ => destruct H
  end.
Ltac not_at_pos :=
  repeat match goal with
  | H : ~ at_pos ?s ?c ((?a, ?b) :: ?r) ?p |- _ =>
      assert (pos s c a <> p) by (intros ?; apply H; rewrite at_pos_cons; tauto);
      assert (~ at_pos s c r p) by (intros ?; apply H; rewrite at_pos_cons; tauto);
      clear H
  end.
