(* ===== verification/SndLossList.v ===== *)
(** [CSndLossList] of srtcore/list.cpp: the sender's loss list, a linked list
    of intervals of sequence numbers kept in a ring of [m_iSize] slots. *)
From S2P Require Import Prelude SeqNo Slots.
Import CSeqNo.

Module CSndLossList.
Record Seq := mkSeq { seqstart : Z; seqend : Z; inext : Z }.

Record t := mk {
  m_caSeq : list Seq;
  m_iHead : Z;
  m_iLength : Z;
  m_iSize : Z;
  m_iLastInsertPos : Z;
}.

#[export] Instance Seq_inhabited : Inhabited Seq := populate (mkSeq 0 0 0).
#[export] Instance Seq_node : SlotNode Seq :=
  {| nstart := seqstart; nend := seqend; nnext := inext; nprior := fun _ _ => True |}.

(** Assignments to one field of one slot, and to the members. *)
Definition put_start (i v : Z) (l : list Seq) : list Seq :=
  aupd l i (fun n => mkSeq v (seqend n) (inext n)).
Definition put_end (i v : Z) (l : list Seq) : list Seq :=
  aupd l i (fun n => mkSeq (seqstart n) v (inext n)).
Definition put_next (i v : Z) (l : list Seq) : list Seq :=
  aupd l i (fun n => mkSeq (seqstart n) (seqend n) v).

Definition set_caSeq (f : list Seq -> list Seq) (st : t) : t :=
  mk (f (m_caSeq st)) (m_iHead st) (m_iLength st) (m_iSize st) (m_iLastInsertPos st).
Definition set_iHead (v : Z) (st : t) : t :=
  mk (m_caSeq st) v (m_iLength st) (m_iSize st) (m_iLastInsertPos st).
Definition add_iLength (d : Z) (st : t) : t :=
  mk (m_caSeq st) (m_iHead st) (m_iLength st + d) (m_iSize st) (m_iLastInsertPos st).
Definition set_iLastInsertPos (v : Z) (st : t) : t :=
  mk (m_caSeq st) (m_iHead st) (m_iLength st) (m_iSize st) v.

(** The constructor leaves [inext] of the slots unset. *)
Definition init (size : Z) (inext0 : Z -> Z) : t :=
  mk (map (fun i => mkSeq SRT_SEQNO_NONE SRT_SEQNO_NONE (inext0 (Z.of_nat i))) (seq 0 (Z.to_nat size)))
     (-1) 0 size (-1).

Definition getLossLength (st : t) : Z := m_iLength st.

Definition insertHead (pos seqno1 seqno2 : Z) (st : t) : t :=
  let st := set_caSeq (put_start pos seqno1) st in
  let st := if negb (seqno2 =? seqno1) then set_caSeq (put_end pos seqno2) st else st in
  let st := set_caSeq (put_next pos (m_iHead st)) st in
  let st := set_iHead pos st in
  let st := set_iLastInsertPos pos st in
  add_iLength (seqlen seqno1 seqno2) st.

Definition insertAfter (pos pos_after seqno1 seqno2 : Z) (st : t) : t :=
  let st := set_caSeq (put_start pos seqno1) st in
  let st := if negb (seqno2 =? seqno1) then set_caSeq (put_end pos seqno2) st else st in
  let st := set_caSeq (put_next pos (inext ((m_caSeq st).[pos_after]))) st in
  let st := set_caSeq (put_next pos_after pos) st in
  let st := set_iLastInsertPos pos st in
  add_iLength (seqlen seqno1 seqno2) st.

(** One iteration of the loop of [coalesce]. *)
Definition coalesce_step (loc : Z) (st : t) : t + t :=
  let a := m_caSeq st in
  let loc_end := seqend (a.[loc]) in
  if negb (inext (a.[loc]) =? -1) && negb (loc_end =? SRT_SEQNO_NONE) then
    let i := inext (a.[loc]) in
    let i_start := seqstart (a.[i]) in
    let i_end := seqend (a.[i]) in
    if seqcmp i_start (incseq loc_end) >? 0 then inr st
    else
      let st :=
        if negb (i_end =? SRT_SEQNO_NONE) then
          if seqcmp i_end loc_end >? 0 then
            let st := if seqcmp loc_end i_start >=? 0
                      then add_iLength (- seqlen i_start loc_end) st else st in
            set_caSeq (put_end loc i_end) st
          else add_iLength (- seqlen i_start i_end) st
        else
          if i_start =? incseq loc_end then set_caSeq (put_end loc i_start) st
          else add_iLength (-1) st in
      let st := set_caSeq (put_start i SRT_SEQNO_NONE) st in
      let st := set_caSeq (put_end i SRT_SEQNO_NONE) st in
      inl (set_caSeq (put_next loc (inext ((m_caSeq st).[i]))) st)
  else inr st.

(** No loop passes more nodes than there are slots. *)
Definition fuel (st : t) : nat := S (length (m_caSeq st)).

Definition coalesce (loc : Z) (st : t) : option t := loop (fuel st) (coalesce_step loc) st.

Definition updateElement (pos seqno1 seqno2 : Z) (st : t) : t * bool :=
  let st := set_iLastInsertPos pos st in
  let pos_end := seqend ((m_caSeq st).[pos]) in
  if (seqno2 =? SRT_SEQNO_NONE) || (seqno2 =? seqno1) then (st, false)
  else if pos_end =? SRT_SEQNO_NONE then
    (set_caSeq (put_end pos seqno2) (add_iLength (seqlen seqno1 seqno2 - 1) st), true)
  else if seqcmp seqno2 pos_end <=? 0 then (st, false)
  else (set_caSeq (put_end pos seqno2) (add_iLength (seqlen pos_end seqno2 - 1) st), true).

(** The search for the highest node before [seqno], from node [i]. *)
Definition prior_step (a : list Seq) (seqno i : Z) : Z + Z :=
  if negb (inext (a.[i]) =? -1) && (seqcmp (seqstart (a.[inext (a.[i])])) seqno <? 0)
  then inl (inext (a.[i])) else inr i.

Definition find_prior (seqno i : Z) (st : t) : option Z :=
  loop (fuel st) (prior_step (m_caSeq st) seqno) i.

Definition insert (seqno1 seqno2 : Z) (st : t) : option (t * Z) :=
  if (seqno1 <? 0) || (seqno2 <? 0) then Some (st, 0)
  else
  let inserted_range := seqlen seqno1 seqno2 in
  if (inserted_range <=? 0) || (inserted_range >=? m_iSize st) then Some (st, 0)
  else if m_iLength st =? 0 then
    let st := insertHead 0 seqno1 seqno2 st in Some (st, m_iLength st)
  else
  let origlen := m_iLength st in
  let finish (r : t * Z) :=
    st ← coalesce r.2 r.1; Some (st, m_iLength st - origlen) in
  let head_start := seqstart ((m_caSeq st).[m_iHead st]) in
  let offset := seqoff head_start seqno1 in
  if offset >=? m_iSize st then Some (st, 0)
  else
  let loc := Z.rem (m_iHead st + offset + m_iSize st) (m_iSize st) in
  let loc_seqno2 := Z.rem (m_iHead st + seqoff head_start seqno2 + m_iSize st) (m_iSize st) in
  if (loc <? 0) && (loc_seqno2 <? 0) then Some (st, 0)
  else
  let loc := if loc <? 0 then loc_seqno2 else loc in
  if offset <? 0 then finish (insertHead loc seqno1 seqno2 st, loc)
  else if offset >? 0 then
    if seqno1 =? seqstart ((m_caSeq st).[loc]) then
      let (st, updated) := updateElement loc seqno1 seqno2 st in
      if updated then finish (st, loc) else Some (st, 0)
    else
      let i := if negb (m_iLastInsertPos st =? -1)
                  && (seqcmp (seqstart ((m_caSeq st).[m_iLastInsertPos st])) seqno1 <? 0)
               then m_iLastInsertPos st else m_iHead st in
      i ← find_prior seqno1 i st;
      let n := (m_caSeq st).[i] in
      let seqend := if seqend n =? SRT_SEQNO_NONE then seqstart n else seqend n in
      if (seqcmp seqend seqno1 <? 0) && negb (incseq seqend =? seqno1)
      then finish (insertAfter loc i seqno1 seqno2 st, loc)
      else
        let st := set_iLastInsertPos i st in
        if seqcmp seqend seqno2 >=? 0 then Some (st, 0)
        else
          let st := add_iLength (seqlen seqend seqno2 - 1) st in
          finish (set_caSeq (put_end i seqno2) st, i)
  else
    let (st, updated) := updateElement (m_iHead st) seqno1 seqno2 st in
    if updated then finish (st, loc) else Some (st, 0).

(** One iteration of the loop that clears the nodes before the new head. *)
Definition clear_step (s : t * Z) : (t * Z) + t :=
  let (st, h) := s in
  if negb (h =? m_iHead st) then
    let n := (m_caSeq st).[h] in
    let st :=
      if negb (seqend n =? SRT_SEQNO_NONE)
      then set_caSeq (put_end h SRT_SEQNO_NONE) (add_iLength (- seqlen (seqstart n) (seqend n)) st)
      else add_iLength (-1) st in
    let st := set_caSeq (put_start h SRT_SEQNO_NONE) st in
    let st := if m_iLastInsertPos st =? h then set_iLastInsertPos (-1) st else st in
    inl (st, inext ((m_caSeq st).[h]))
  else inr st.

Definition removeUpTo (seqno : Z) (st : t) : option t :=
  if m_iLength st =? 0 then Some st
  else
  let head := m_iHead st in
  let offset := seqoff (seqstart ((m_caSeq st).[head])) seqno in
  let loc := Z.rem (head + offset + m_iSize st) (m_iSize st) in
  if offset =? 0 then
    let loc := Z.rem (loc + 1) (m_iSize st) in
    let head_end := seqend ((m_caSeq st).[head]) in
    let '(loc, st) :=
      if head_end =? SRT_SEQNO_NONE then (inext ((m_caSeq st).[head]), st)
      else
        let st := set_caSeq (put_start loc (incseq seqno)) st in
        let st := if seqcmp (seqend ((m_caSeq st).[head])) (incseq seqno) >? 0
                  then set_caSeq (put_end loc (seqend ((m_caSeq st).[head]))) st else st in
        let st := set_caSeq (put_end head SRT_SEQNO_NONE) st in
        (loc, set_caSeq (put_next loc (inext ((m_caSeq st).[head]))) st) in
    let st := set_caSeq (put_start head SRT_SEQNO_NONE) st in
    let st := if m_iLastInsertPos st =? head then set_iLastInsertPos (-1) st else st in
    Some (add_iLength (-1) (set_iHead loc st))
  else if offset >? 0 then
    let h := head in
    let st' :=
      if seqno =? seqstart ((m_caSeq st).[loc]) then
        let temp := loc in
        let loc := Z.rem (loc + 1) (m_iSize st) in
        if seqend ((m_caSeq st).[temp]) =? SRT_SEQNO_NONE
        then Some (set_iHead (inext ((m_caSeq st).[temp])) st)
        else
          let st := set_caSeq (put_start loc (incseq seqno)) st in
          let st := if seqcmp (seqend ((m_caSeq st).[temp])) (seqstart ((m_caSeq st).[loc])) >? 0
                    then set_caSeq (put_end loc (seqend ((m_caSeq st).[temp]))) st else st in
          let st := set_iHead loc st in
          let st := set_caSeq (put_next loc (inext ((m_caSeq st).[temp]))) st in
          let st := set_caSeq (put_next temp loc) st in
          Some (set_caSeq (put_end temp SRT_SEQNO_NONE) st)
      else
        i ← find_prior seqno head st;
        let loc := Z.rem (loc + 1) (m_iSize st) in
        let i_end := seqend ((m_caSeq st).[i]) in
        if i_end =? SRT_SEQNO_NONE then Some (set_iHead (inext ((m_caSeq st).[i])) st)
        else if seqcmp i_end seqno >? 0 then
          let st := set_caSeq (put_start loc (incseq seqno)) st in
          let st := if seqcmp (seqend ((m_caSeq st).[i])) (seqstart ((m_caSeq st).[loc])) >? 0
                    then set_caSeq (put_end loc (seqend ((m_caSeq st).[i]))) st else st in
          let st := set_caSeq (put_end i seqno) st in
          let st := set_caSeq (put_next loc (inext ((m_caSeq st).[i]))) st in
          let st := set_caSeq (put_next i loc) st in
          Some (set_iHead loc st)
        else Some (set_iHead (inext ((m_caSeq st).[i])) st) in
    st ← st'; loop (fuel st) clear_step (st, h)
  else Some st.

Definition popLostSeq (st : t) : t * Z :=
  if m_iLength st =? 0 then (st, SRT_SEQNO_NONE)
  else
  let head := m_iHead st in
  let st := if m_iLastInsertPos st =? head then set_iLastInsertPos (-1) st else st in
  let seqno := seqstart ((m_caSeq st).[head]) in
  let st :=
    if seqend ((m_caSeq st).[head]) =? SRT_SEQNO_NONE then
      let st := set_caSeq (put_start head SRT_SEQNO_NONE) st in
      set_iHead (inext ((m_caSeq st).[head])) st
    else
      let loc := Z.rem (head + 1) (m_iSize st) in
      let st := set_caSeq (put_start loc (incseq seqno)) st in
      let st := if seqcmp (seqend ((m_caSeq st).[head])) (seqstart ((m_caSeq st).[loc])) >? 0
                then set_caSeq (put_end loc (seqend ((m_caSeq st).[head]))) st else st in
      let st := set_caSeq (put_start head SRT_SEQNO_NONE) st in
      let st := set_caSeq (put_end head SRT_SEQNO_NONE) st in
      let st := set_caSeq (put_next loc (inext ((m_caSeq st).[head]))) st in
      set_iHead loc st in
  (add_iLength (-1) st, seqno).
End CSndLossList.
Import CSndLossList.

(** ** Representation *)

Ltac sst := unfold set_caSeq, set_iHead, add_iLength, set_iLastInsertPos in *;
  cbn [m_caSeq m_iHead m_iLength m_iSize m_iLastInsertPos] in *.
Ltac putarr := unfold put_start, put_end, put_next in *; arr; cbn [seqstart seqend inext].

Lemma last_norm st h :
  (if m_iLastInsertPos st =? h then set_iLastInsertPos (-1) st else st) =
  mk (m_caSeq st) (m_iHead st) (m_iLength st) (m_iSize st)
    (if m_iLastInsertPos st =? h then -1 else m_iLastInsertPos st).
Proof. by destruct (m_iLastInsertPos st =? h), st. Qed.

Section Rep.
Context (c lo : Z).
Local Notation pos st := (pos (m_iSize st) c).
Local Notation hd_pos st := (hd_pos (m_iSize st) c).
Local Notation at_pos st := (at_pos (m_iSize st) c).
Local Notation hi st := (lo + m_iSize st).

(** The list before [coalesce]: the node that starts at [a] may overlap the
    ones after it, and [m_iLength] counts the overlap twice. *)
Record pre_rep (st : t) (l1 : list (Z * Z)) (a b : Z) (l2 : list (Z * Z)) : Prop := {
  pr_size : 0 < m_iSize st <= m_iSeqNoTH;
  pr_l1 : ivs_ok lo (hi st) l1;
  pr_a : last_end lo l1 <= a <= b;
  pr_b : b < hi st;
  pr_l2 : ivs_ok (a + 1) (hi st) l2;
  pr_layout : layout (m_iSize st) c (m_caSeq st) (l1 ++ (a, b) :: l2);
  pr_head : m_iHead st = hd_pos st (l1 ++ (a, b) :: l2) (-1);
  pr_len : m_iLength st = ivs_len (l1 ++ (a, b) :: l2);
  pr_last : m_iLastInsertPos st = pos st a;
}.

Record rep (st : t) (l : list (Z * Z)) : Prop := {
  r_size : 0 < m_iSize st <= m_iSeqNoTH;
  r_ok : ivs_ok lo (hi st) l;
  r_layout : layout (m_iSize st) c (m_caSeq st) l;
  r_head : m_iHead st = hd_pos st l (-1);
  r_len : m_iLength st = ivs_len l;
  r_last : m_iLastInsertPos st = -1 \/ at_pos st l (m_iLastInsertPos st);
}.

Lemma pre_starts st l1 a b l2 : pre_rep st l1 a b l2 -> starts_ok lo (hi st) (l1 ++ (a, b) :: l2).
Proof.
  intros [Hs H1 Ha Hb H2 _ _ _ _]. apply starts_ok_app. split; [by apply ivs_ok_starts|].
  simpl. pose proof (last_start_le_end lo (hi st) l1 ltac:(lia) H1).
  pose proof (last_end_bound lo (hi st) l1 ltac:(lia) H1).
  repeat split; try lia. by apply ivs_ok_starts.
Qed.

Lemma snd_rep_starts st l : rep st l -> starts_ok lo (hi st) l.
Proof. intros []. by apply ivs_ok_starts. Qed.

(** A node absorbs the next one: the code's update of the array. *)
Lemma absorb_layout st l1 a b x y l2 b' arr' :
  pre_rep st l1 a b ((x, y) :: l2) -> b <= b' < hi st -> a < b' ->
  arr' = put_next (pos st a) (hd_pos st l2 (-1))
           (put_end (pos st x) SRT_SEQNO_NONE (put_start (pos st x) SRT_SEQNO_NONE
             (put_end (pos st a) (seq_of b') (m_caSeq st)))) ->
  layout (m_iSize st) c arr' (l1 ++ (a, b') :: l2).
Proof.
  intros Hpre Hb' Hab' ->. pose proof (pre_starts _ _ _ _ _ Hpre) as Hst.
  destruct Hpre as [Hs H1 Ha Hb H2 Hl Hh Hlen _]. simpl in H2.
  assert (Hsz : 0 < m_iSize st) by lia. pose proof (proj1 Hl) as Hzl.
  pose proof (last_end_bound lo (hi st) l1 ltac:(lia) H1).
  pose proof (pos_bound (m_iSize st) c Hsz a). pose proof (pos_bound (m_iSize st) c Hsz x).
  assert (pos st a <> pos st x) by (intros E; apply pos_inj in E; lia).
  destruct (layout_slot _ _ Hsz lo _ _ l1 a b ((x, y) :: l2) ltac:(reflexivity) Hst Hl) as (E1 & E2 & E3 & _).
  apply (layout_replace _ _ Hsz lo (hi st) (m_caSeq st) _ l1 [(a, b); (x, y)] [(a, b')] l2);
    simpl; try lia; try done; auto.
  - apply starts_ok_app in Hst as [? Hst]. apply starts_ok_app. split; [done|]. simpl in Hst |- *.
    repeat split; try lia. apply (starts_ok_weaken (x + 1)); [lia|tauto].
  - unfold put_next, put_end, put_start. by arr.
  - intros p Hn Hn'. not_at_pos. putarr. done.
  - intros p Hp. at_pos_cases; subst p; bdestr; putarr; simpl; rewrite ?end_code_ne by lia; done.
Qed.

Lemma coalesce_step_spec st l1 a b x y l2 :
  pre_rep st l1 a b ((x, y) :: l2) -> a < b -> x <= b + 1 ->
  exists st' b', coalesce_step (pos st a) st = inl st' /\ pre_rep st' l1 a b' l2 /\
    m_iSize st' = m_iSize st /\ a < b' /\
    ivs_set ((a, b') :: l2) = ivs_set ((a, b) :: (x, y) :: l2).
Proof.
  intros Hpre Hab Hx. pose proof (pre_starts _ _ _ _ _ Hpre) as Hst.
  assert (Habs := fun b' arr' => absorb_layout st l1 a b x y l2 b' arr' Hpre).
  destruct Hpre as [Hs H1 Ha Hb H2 Hl Hh Hlen Hla]. simpl in H2.
  assert (Hsz : 0 < m_iSize st) by lia. pose proof (proj1 Hl) as Hzl.
  pose proof (last_end_bound lo (hi st) l1 ltac:(lia) H1).
  pose proof (pos_bound (m_iSize st) c Hsz a). pose proof (pos_bound (m_iSize st) c Hsz x).
  assert (pos st a <> pos st x) by (intros E; apply pos_inj in E; lia).
  destruct (layout_slot _ _ Hsz lo _ _ l1 a b ((x, y) :: l2) ltac:(reflexivity) Hst Hl) as (E1 & E2 & E3 & _).
  rewrite (cons_middle (a, b)), app_assoc in Hl, Hst.
  destruct (layout_slot _ _ Hsz lo _ _ (l1 ++ [(a, b)]) x y l2 ltac:(reflexivity) Hst Hl) as (F1 & F2 & F3 & _).
  cbn [nstart nend nnext Seq_node hd_pos] in *.
  unfold coalesce_step. rewrite E2, E3, F1, F2, !end_code_none. rewrite (end_code_ne a b) by lia.
  rewrite (proj2 (Z.eqb_neq (pos st x) (-1))) by lia.
  rewrite (proj2 (Z.eqb_neq a b)) by lia. simpl negb. simpl andb. cbv iota zeta.
  autorewrite with seqno.
  destruct (Z.gtb_spec x (b + 1)) as [?|_]; [lia|].
  set (M := if negb (x =? y) then _ else _).
  assert (HM : M = mk (put_end (pos st a) (seq_of (Z.max b y)) (m_caSeq st)) (m_iHead st)
    (m_iLength st + (Z.max b y - b) - (y - x + 1)) (m_iSize st) (m_iLastInsertPos st)).
  { assert (Hid : put_end (pos st a) (seq_of b) (m_caSeq st) = m_caSeq st).
    { apply aupd_same; [lia|]. destruct ((m_caSeq st).[pos st a]) eqn:En. cbn in *.
      rewrite E2, end_code_ne by lia. done. }
    subst M. destruct st as [arr h len sz las]; sst.
    destruct (Z.eqb_spec x y) as [->|Hxy]; simpl negb; cbv iota.
    - destruct (Z.eqb_spec y (b + 1)); sst; [repeat (f_equal; try lia)|].
      rewrite (Z.max_l b y), Hid by lia. f_equal. lia.
    - rewrite !(end_code_ne x y) by lia. autorewrite with seqno.
      destruct (Z.gtb_spec y b).
      + rewrite Z.max_r by lia. destruct (Z.geb_spec b x); autorewrite with seqno; sst; f_equal; lia.
      + rewrite Z.max_l, Hid by lia. sst. 
autorewrite with seqno. f_equal. lia. }
  clearbody M. rewrite HM. sst. clear M HM.
  eexists _, (Z.max b y). split; [done|].
  assert (inext (put_end (pos st x) SRT_SEQNO_NONE (put_start (pos st x) SRT_SEQNO_NONE
    (put_end (pos st a) (seq_of (Z.max b y)) (m_caSeq st)))).[pos st x] = hd_pos st l2 (-1)) as ->
    by (putarr; done).
  split_and!; [|done|lia|].
  - constructor; sst; try done; try lia.
    + apply (ivs_ok_weaken (y + 1) _ (hi st)); [lia..|tauto].
    + by apply Habs; [lia..|].
    + by rewrite Hh, !hd_pos_app.
    + rewrite Hlen, !ivs_len_app. simpl. lia.
  - simpl. ivs_ext.
Qed.

Lemma pre_rep_done st l1 a b l2 :
  pre_rep st l1 a b l2 -> ivs_ok (b + 1) (hi st) l2 -> rep st (l1 ++ (a, b) :: l2).
Proof.
  intros [] Hok. constructor; auto.
  - apply ivs_ok_app. split; [done|]. simpl. repeat split; auto; lia.
  - right. rewrite pr_last0, at_pos_app, at_pos_cons. auto.
Qed.

Lemma coalesce_stop st l1 a b l2 :
  pre_rep st l1 a b l2 -> ivs_ok (b + 1) (hi st) l2 -> a = b \/ (forall x y r, l2 = (x, y) :: r -> b + 1 < x) ->
  coalesce_step (pos st a) st = inr st.
Proof.
  intros Hpre Hok Hstop. pose proof (pre_starts _ _ _ _ _ Hpre) as Hst.
  destruct Hpre as [Hs H1 Ha Hb H2 Hl _ _ _]. assert (Hsz : 0 < m_iSize st) by lia.
  pose proof (last_end_bound lo (hi st) l1 ltac:(lia) H1).
  destruct (layout_slot _ _ Hsz lo _ _ l1 a b l2 ltac:(reflexivity) Hst Hl) as (E1 & E2 & E3 & _).
  cbn [nstart nend nnext Seq_node] in *.
  unfold coalesce_step. rewrite E2, E3, end_code_none, hd_pos_none by done.
  destruct l2 as [|[x y] r]; [done|]. destruct (Z.eqb_spec a b); [done|]. simpl negb. simpl andb. cbv iota zeta.
  rewrite (cons_middle (a, b)), app_assoc in Hl, Hst.
  destruct (layout_slot _ _ Hsz lo _ _ (l1 ++ [(a, b)]) x y r ltac:(reflexivity) Hst Hl) as (F1 & F2 & F3 & _).
  cbn [nstart nend nnext Seq_node hd_pos] in *. rewrite F1, (end_code_ne a b) by lia. simpl in Hok.
  autorewrite with seqno. destruct (Z.gtb_spec x (b + 1)); [done|].
  destruct Hstop as [?|Hstop]; [done|]. specialize (Hstop x y r eq_refl). lia.
Qed.

Lemma coalesce_loop n st l1 a b l2 : (length l2 < n)%nat -> pre_rep st l1 a b l2 ->
  exists st' b' l2', loop n (coalesce_step (pos st a)) st = Some st' /\
    rep st' (l1 ++ (a, b') :: l2') /\ m_iSize st' = m_iSize st /\
    ivs_set ((a, b') :: l2') = ivs_set ((a, b) :: l2).
Proof.
  revert st b l2. induction n as [|n IH]; intros st b l2 Hn Hpre; [lia|]. simpl loop.
  pose proof (pr_a _ _ _ _ _ Hpre). pose proof (pr_l2 _ _ _ _ _ Hpre) as H2.
  destruct (decide (a = b)) as [->|Hab].
  { exists st, b, l2. rewrite (coalesce_stop _ _ _ _ _ Hpre) by auto.
    auto using pre_rep_done. }
  destruct l2 as [|[x y] r].
  { exists st, b, []. rewrite (coalesce_stop _ _ _ _ _ Hpre) by (simpl; auto; naive_solver).
    split_and!; auto. by apply pre_rep_done. }
  destruct (decide (x <= b + 1)) as [Hx|Hx].
  - destruct (coalesce_step_spec _ _ _ _ _ _ _ Hpre ltac:(lia) Hx) as (st1 & b1 & E & Hpre1 & Hs1 & _ & HS1).
    rewrite E. destruct (IH st1 b1 r) as (st2 & b2 & l3 & E2 & Hrep & Hs2 & HS2); [simpl in Hn; lia|done|].
    rewrite Hs1 in E2. exists st2, b2, l3. rewrite HS2, HS1. rewrite Hs2, Hs1. auto.
  - assert (Hok : ivs_ok (b + 1) (hi st) ((x, y) :: r)) by (simpl in *; intuition lia).
    exists st, b, ((x, y) :: r). rewrite (coalesce_stop _ _ _ _ _ Hpre Hok) by (right; naive_solver lia).
    auto using pre_rep_done.
Qed.

Lemma pre_length st l1 a b l2 : pre_rep st l1 a b l2 -> (length l2 < fuel st)%nat.
Proof.
  intros [Hs H1 Ha Hb H2 [Hl _] _ _ _]. unfold fuel.
  pose proof (last_end_bound lo (hi st) l1 ltac:(lia) H1).
  pose proof (ivs_length (a + 1) (hi st) l2 ltac:(lia) H2). lia.
Qed.

Lemma coalesce_spec st l1 a b l2 : pre_rep st l1 a b l2 ->
  exists st' l', coalesce (pos st a) st = Some st' /\ rep st' l' /\
    m_iSize st' = m_iSize st /\ ivs_set l' = ivs_set (l1 ++ (a, b) :: l2).
Proof.
  intros Hpre. destruct (coalesce_loop (fuel st) _ _ _ _ _ (pre_length _ _ _ _ _ Hpre) Hpre)
    as (st' & b' & l2' & E & Hrep & Hs & HS).
  exists st', (l1 ++ (a, b') :: l2'). split_and!; auto. by rewrite !ivs_set_app, HS.
Qed.

(** The node at [a] is extended to the position [e]. *)
Lemma extend_pre st l1 a b l2 e : rep st (l1 ++ (a, b) :: l2) -> b < e < hi st ->
  pre_rep (mk (put_end (pos st a) (seq_of e) (m_caSeq st)) (m_iHead st)
    (m_iLength st + (e - b)) (m_iSize st) (pos st a)) l1 a e l2.
Proof.
  intros Hrep He. pose proof (snd_rep_starts _ _ Hrep) as Hst.
  destruct Hrep as [Hs Hok Hl Hh Hlen _]. assert (Hsz : 0 < m_iSize st) by lia.
  apply ivs_ok_app in Hok as [H1 H2]. simpl in H2. destruct H2 as (? & ? & ? & H2).
  pose proof (proj1 Hl) as Hzl. pose proof (pos_bound (m_iSize st) c Hsz a).
  destruct (layout_slot _ _ Hsz lo _ _ l1 a b l2 ltac:(reflexivity) Hst Hl) as (E1 & E2 & E3 & _).
  constructor; sst; auto; try lia.
  - apply (ivs_ok_weaken (b + 1) _ (hi st)); [lia..|done].
  - apply (layout_replace _ _ Hsz lo (hi st) (m_caSeq st) _ l1 [(a, b)] [(a, e)] l2);
      simpl; try lia; try done; auto.
    + apply starts_ok_app in Hst as [? Hst]. apply starts_ok_app. simpl in Hst |- *.
      intuition lia.
    + unfold put_end. by arr.
    + intros p Hn Hn'. not_at_pos. putarr. done.
    + intros p Hp. at_pos_cases; subst p; bdestr; putarr; simpl; rewrite ?end_code_ne by lia; done.
  - by rewrite Hh, !hd_pos_app.
  - rewrite Hlen, !ivs_len_app. simpl. lia.
Qed.

(** A new node between [l1] and [l2], in front of the list or after a node. *)
Definition new_node (a e nx : Z) (size : Z) (arr : list Seq) : list Seq :=
  let arr := put_start (Slots.pos size c a) (seq_of a) arr in
  let arr := if negb (seq_of e =? seq_of a) then put_end (Slots.pos size c a) (seq_of e) arr else arr in
  put_next (Slots.pos size c a) nx arr.

Lemma new_node_spec st l a e nx : rep st l -> (forall b, (a, b) ∉ l) -> lo <= a <= e -> e < hi st ->
  let arr := new_node a e nx (m_iSize st) (m_caSeq st) in
  zlen arr = m_iSize st /\ arr.[pos st a] = mkSeq (seq_of a) (end_code a e) nx /\
  forall p, pos st a <> p -> arr.[p] = (m_caSeq st).[p].
Proof.
  intros Hrep Hn Ha He. pose proof (snd_rep_starts _ _ Hrep) as Hst.
  destruct Hrep as [Hs Hok Hl Hh Hlen _]. assert (Hsz : 0 < m_iSize st) by lia.
  pose proof (proj1 Hl) as Hzl. pose proof (pos_bound (m_iSize st) c Hsz a).
  destruct (layout_free _ c Hsz lo (hi st) (m_caSeq st) l a) as [_ F]; [lia..|done|done|done|].
  unfold new_node. rewrite seq_of_eqb, Z.eqb_sym by seqlia.
  destruct (Z.eqb_spec a e) as [->|?]; simpl negb; cbv iota zeta;
    (split_and!; [unfold put_start, put_end, put_next; by arr| |intros p Hp; by putarr]).
  - putarr. rewrite end_code_eq. cbn in F. by rewrite F.
  - putarr. by rewrite end_code_ne.
Qed.

Lemma insertHead_pre st l a e : rep st l -> lo <= a <= e -> e < hi st -> ivs_ok (a + 1) (hi st) l ->
  pre_rep (insertHead (pos st a) (seq_of a) (seq_of e) st) [] a e l.
Proof.
  intros Hrep Ha He Hok. assert (Hn : forall b, (a, b) ∉ l).
  { intros b Hin. pose proof (starts_ok_elem _ _ _ _ _ (ivs_ok_starts _ _ _ Hok) Hin). lia. }
  destruct (new_node_spec st l a e (m_iHead st) Hrep Hn Ha He) as (N1 & N2 & N3).
  pose proof (snd_rep_starts _ _ Hrep) as Hst.
  assert (insertHead (pos st a) (seq_of a) (seq_of e) st =
    mk (new_node a e (m_iHead st) (m_iSize st) (m_caSeq st)) (pos st a)
       (m_iLength st + (e - a + 1)) (m_iSize st) (pos st a)) as ->.
  { destruct Hrep as [Hs _ _ _ _ _]. unfold insertHead, new_node. 
    destruct (negb (seq_of e =? seq_of a)); sst; by autorewrite with seqno. }
  destruct Hrep as [Hs Hok0 Hl Hh Hlen _]. assert (Hsz : 0 < m_iSize st) by lia.
  set (arr := new_node _ _ _ _ _) in *. clearbody arr.
  constructor; sst; simpl; auto; try lia.
  apply (layout_replace _ c Hsz lo (hi st) (m_caSeq st) _ [] [] [(a, e)] l); simpl; auto; try lia.
  - repeat split; try lia. by apply ivs_ok_starts.
  - intros p _ Hn'. not_at_pos. by apply N3.
  - intros p Hp. at_pos_cases; subst p; bdestr. rewrite N2. simpl. by rewrite Hh.
Qed.

Lemma insertAfter_pre st l1 p q l2 a e :
  rep st (l1 ++ (p, q) :: l2) -> q < a <= e -> e < hi st -> ivs_ok (a + 1) (hi st) l2 ->
  pre_rep (insertAfter (pos st a) (pos st p) (seq_of a) (seq_of e) st) (l1 ++ [(p, q)]) a e l2.
Proof.
  intros Hrep Ha He Hok2. pose proof (snd_rep_starts _ _ Hrep) as Hst.
  pose proof (r_ok _ _ Hrep) as Hok. apply ivs_ok_app in Hok as [H1 H2]. simpl in H2.
  pose proof (r_size _ _ Hrep) as Hs. assert (Hsz : 0 < m_iSize st) by lia.
  pose proof (last_end_bound lo (hi st) l1 ltac:(lia) H1).
  assert (Hn : forall b, (a, b) ∉ l1 ++ (p, q) :: l2).
  { intros b [Hin|[[= -> ->]|Hin]%elem_of_cons]%elem_of_app; [|lia|].
    - pose proof (starts_ok_last _ _ _ _ _ (ivs_ok_starts _ _ _ H1) Hin).
      pose proof (last_start_le_end lo (hi st) l1 ltac:(lia) H1). lia.
    - pose proof (starts_ok_elem _ _ _ _ _ (ivs_ok_starts _ _ _ Hok2) Hin). lia. }
  destruct (new_node_spec st _ a e (hd_pos st l2 (-1)) Hrep Hn ltac:(lia) He) as (N1 & N2 & N3).
  assert (Hpa : pos st p <> pos st a) by (intros E; apply pos_inj in E; lia).
  pose proof (proj1 (r_layout _ _ Hrep)) as Hzl.
  pose proof (pos_bound (m_iSize st) c Hsz p). pose proof (pos_bound (m_iSize st) c Hsz a).
  destruct (layout_slot _ c Hsz lo _ _ l1 p q l2 ltac:(reflexivity) Hst (r_layout _ _ Hrep)) as (E1 & E2 & E3 & _).
  assert (insertAfter (pos st a) (pos st p) (seq_of a) (seq_of e) st =
    mk (put_next (pos st p) (pos st a) (new_node a e (hd_pos st l2 (-1)) (m_iSize st) (m_caSeq st))) (m_iHead st)
       (m_iLength st + (e - a + 1)) (m_iSize st) (pos st a)) as ->.
  { unfold insertAfter, new_node. cbn [nstart nend nnext Seq_node] in E3.
    destruct (negb (seq_of e =? seq_of a)); sst; autorewrite with seqno; do 2 f_equal;
      do 2 f_equal; by putarr. }
  destruct Hrep as [_ Hok Hl Hh Hlen _].
  set (arr := new_node _ _ _ _ _) in *. clearbody arr.
  constructor; sst; auto; try lia.
  - apply ivs_ok_app. simpl. intuition lia.
  - rewrite last_end_app. simpl. lia.
  - rewrite <- app_assoc.
    apply (layout_replace _ c Hsz lo (hi st) (m_caSeq st) _ l1 [(p, q)] [(p, q); (a, e)] l2); simpl; auto; try lia.
    + apply starts_ok_app in Hst as [? Hst]. apply starts_ok_app. simpl in Hst |- *.
      pose proof (ivs_ok_starts _ _ _ Hok2). intuition lia.
    + unfold put_next. by arr.
    + intros x Hx Hx'. not_at_pos. putarr. by apply N3.
    + intros x Hx. at_pos_cases; subst x; bdestr; putarr; rewrite ?N2; try done;
        rewrite N3 by done; done.
  - by rewrite Hh, <- app_assoc, !hd_pos_app.
  - rewrite Hlen, !ivs_len_app. simpl. lia.
Qed.

(** The search stops at the last node before [s]. *)
Lemma find_prior_loop n st l1 p q l2 s : (length l2 < n)%nat ->
  rep st (l1 ++ (p, q) :: l2) -> lo <= s < hi st -> p < s ->
  exists m a b r, (p, q) :: l2 = m ++ (a, b) :: r /\ a < s /\
    (forall x y r', r = (x, y) :: r' -> s <= x) /\
    loop n (prior_step (m_caSeq st) (seq_of s)) (pos st p) = Some (pos st a).
Proof.
  revert l1 p q l2. induction n as [|n IH]; intros l1 p q l2 Hn Hrep Hs Hp; [lia|]. simpl loop.
  pose proof (snd_rep_starts _ _ Hrep) as Hst. pose proof (r_layout _ _ Hrep) as Hl.
  pose proof (r_size _ _ Hrep). assert (Hsz : 0 < m_iSize st) by lia.
  destruct (layout_slot _ c Hsz lo _ _ l1 p q l2 ltac:(reflexivity) Hst Hl) as (E1 & E2 & E3 & _).
  cbn [nstart nend nnext Seq_node] in *. unfold prior_step. rewrite E3, hd_pos_none by done.
  destruct l2 as [|[x y] r]; simpl negb; simpl andb; cbv iota.
  { exists [], p, q, []. split_and!; auto. naive_solver. }
  rewrite (cons_middle (p, q)), app_assoc in Hl, Hst, Hrep.
  destruct (layout_slot _ c Hsz lo _ _ (l1 ++ [(p, q)]) x y r ltac:(reflexivity) Hst Hl) as (F1 & _).
  cbn [nstart nend nnext Seq_node Slots.hd_pos] in *. rewrite F1.
  assert (Hx : (x, y) ∈ (l1 ++ [(p, q)]) ++ (x, y) :: r) by (apply elem_of_app; right; left).
  pose proof (starts_ok_elem _ _ _ _ _ Hst Hx). autorewrite with seqno.
  destruct (Z.ltb_spec x s).
  - destruct (IH _ x y r ltac:(simpl in Hn; lia) Hrep Hs) as (m & a & b & r' & Em & ? & ? & El); [done|].
    exists ((p, q) :: m), a, b, r'. rewrite Em. auto.
  - exists [], p, q, ((x, y) :: r). split_and!; auto. naive_solver lia.
Qed.

Lemma rep_length st l : rep st l -> (length l < fuel st)%nat.
Proof.
  intros [Hs Hok [Hl _] _ _ _]. unfold fuel. pose proof (ivs_length lo (hi st) l ltac:(lia) Hok). lia.
Qed.

Lemma find_prior_spec st l1 p q l2 s :
  rep st (l1 ++ (p, q) :: l2) -> lo <= s < hi st -> p < s ->
  exists m a b r, l1 ++ (p, q) :: l2 = m ++ (a, b) :: r /\ a < s /\
    (forall x y r', r = (x, y) :: r' -> s <= x) /\
    find_prior (seq_of s) (pos st p) st = Some (pos st a).
Proof.
  intros Hrep Hs Hp. pose proof (rep_length _ _ Hrep) as Hn. rewrite length_app in Hn. simpl in Hn.
  destruct (find_prior_loop (fuel st) st l1 p q l2 s ltac:(lia) Hrep Hs Hp) as (m & a & b & r & E & ? & ? & ?).
  exists (l1 ++ m), a, b, r. rewrite E, app_assoc. auto.
Qed.

Lemma updateElement_spec st l1 a b l2 e : rep st (l1 ++ (a, b) :: l2) -> a <= e < hi st ->
  updateElement (pos st a) (seq_of a) (seq_of e) st =
    if e <=? b then (set_iLastInsertPos (pos st a) st, false)
    else (mk (put_end (pos st a) (seq_of e) (m_caSeq st)) (m_iHead st)
            (m_iLength st + (e - b)) (m_iSize st) (pos st a), true).
Proof.
  intros Hrep He. pose proof (snd_rep_starts _ _ Hrep) as Hst.
  pose proof (r_layout _ _ Hrep) as Hl. pose proof (r_size _ _ Hrep).
  assert (Hsz : 0 < m_iSize st) by lia.
  destruct (layout_slot _ c Hsz lo _ _ l1 a b l2 ltac:(reflexivity) Hst Hl) as (E1 & E2 & E3 & _).
  assert (Hin : (a, b) ∈ l1 ++ (a, b) :: l2) by (apply elem_of_app; right; left).
  pose proof (starts_ok_elem _ _ _ _ _ Hst Hin).
  cbn [nstart nend nnext Seq_node] in *. unfold updateElement. sst. rewrite E2, end_code_none.
  rewrite (proj2 (Z.eqb_neq (seq_of e) SRT_SEQNO_NONE)) by apply seq_of_not_none.
  autorewrite with seqno. rewrite orb_false_l.
  destruct (Z.eqb_spec e a) as [->|?]; [destruct (Z.leb_spec a b); [done|lia]|].
  destruct (Z.eqb_spec a b) as [->|?].
  - destruct (Z.leb_spec e b); [lia|]. do 2 f_equal. lia.
  - rewrite end_code_ne by done. autorewrite with seqno. destruct (Z.leb_spec e b); [done|].
    autorewrite with seqno. do 2 f_equal. lia.
Qed.

Lemma set_last_rep st l a : rep st l -> at_pos st l (pos st a) ->
  rep (set_iLastInsertPos (pos st a) st) l.
Proof. intros [] Ha. constructor; sst; auto. Qed.

Definition insert_result (st : t) (l : list (Z * Z)) (s1 s2 : Z) (r : option (t * Z)) : Prop :=
  exists st' l', r = Some (st', m_iLength st' - m_iLength st) /\ rep st' l' /\
    m_iSize st' = m_iSize st /\ ivs_set l' = ivs_set l ∪ range s1 s2.

Lemma insert_finish st l s1 s2 st1 l1 a b l2 : pre_rep st1 l1 a b l2 ->
  m_iSize st1 = m_iSize st -> ivs_set (l1 ++ (a, b) :: l2) = ivs_set l ∪ range s1 s2 ->
  insert_result st l s1 s2
    (st' ← coalesce (pos st a) st1; Some (st', m_iLength st' - m_iLength st)).
Proof.
  intros Hpre Hsz HS. destruct (coalesce_spec _ _ _ _ _ Hpre) as (st' & l' & E & Hrep & Hs & HS').
  rewrite <- Hsz, E. simpl. exists st', l'. split_and!; congruence.
Qed.

Lemma insert_known st l l1 a b l2 st' s1 s2 : rep st l -> l = l1 ++ (a, b) :: l2 ->
  a <= s1 -> s2 <= b -> st' = set_iLastInsertPos (pos st a) st ->
  insert_result st l s1 s2 (Some (st', 0)).
Proof.
  intros Hrep -> H1 H2 ->. exists (set_iLastInsertPos (pos st a) st), (l1 ++ (a, b) :: l2).
  split_and!; [sst; do 2 f_equal; lia| |done|].
  - apply set_last_rep; [done|]. rewrite at_pos_app, at_pos_cons. auto.
  - ivs_ext.
Qed.

Lemma insert_update st l l1 a b l2 e loc : rep st l -> l = l1 ++ (a, b) :: l2 -> a <= e < hi st ->
  loc = pos st a ->
  insert_result st l a e
    (let (st', updated) := updateElement (pos st a) (seq_of a) (seq_of e) st in
     if updated then (st1 ← coalesce loc st'; Some (st1, m_iLength st1 - m_iLength st))
     else Some (st', 0)).
Proof.
  intros Hrep -> He ->. rewrite (updateElement_spec _ _ _ _ _ _ Hrep He).
  destruct (Z.leb_spec e b).
  - by eapply insert_known.
  - apply (insert_finish _ _ _ _ _ l1 a e l2); sst; [apply extend_pre; [done|lia]|done|].
    pose proof (snd_rep_starts _ _ Hrep) as Hst.
    assert (Hin : (a, b) ∈ l1 ++ (a, b) :: l2) by (apply elem_of_app; right; left).
    pose proof (starts_ok_elem _ _ _ _ _ Hst Hin). ivs_ext.
Qed.

(** Where the search starts: the last insert position when it is before the
    new range, otherwise the head. *)
Lemma search_start st h k r s : rep st ((h, k) :: r) -> h < s < hi st ->
  exists m p q n, (h, k) :: r = m ++ (p, q) :: n /\ p < s /\
    (if negb (m_iLastInsertPos st =? -1)
        && (seqcmp (seqstart ((m_caSeq st).[m_iLastInsertPos st])) (seq_of s) <? 0)
     then m_iLastInsertPos st else m_iHead st) = pos st p.
Proof.
  intros Hrep Hs. pose proof (snd_rep_starts _ _ Hrep) as Hst.
  pose proof (r_layout _ _ Hrep) as Hl. pose proof (r_size _ _ Hrep).
  assert (Hsz : 0 < m_iSize st) by lia.
  assert (Hdef : m_iHead st = pos st h) by apply (r_head _ _ Hrep).
  destruct (r_last _ _ Hrep) as [->|(p & q & Hin & Hp)].
  { exists [], h, k, r. split_and!; auto. lia. }
  pose proof (starts_ok_elem _ _ _ _ _ Hst Hin).
  apply list_elem_of_split in Hin as (m & n & E).
  pose proof Hst as Hst'. rewrite E in Hst', Hl.
  destruct (layout_slot _ c Hsz lo _ _ m p q n ltac:(reflexivity) Hst' Hl) as (E1 & _).
  cbn [nstart Seq_node] in E1. rewrite <- Hp, E1.
  pose proof (pos_bound (m_iSize st) c Hsz p). simpl in Hst.
  destruct (Z.eqb_spec (pos st p) (-1)); [lia|]. simpl negb. rewrite andb_true_l.
  autorewrite with seqno. destruct (Z.ltb_spec p s).
  - exists m, p, q, n. auto.
  - exists [], h, k, r. split_and!; auto. lia.
Qed.

Lemma insert_prior st l l1 a b l2 s1 s2 : rep st l -> l = l1 ++ (a, b) :: l2 -> 
  a < s1 -> (forall x y r, l2 = (x, y) :: r -> s1 < x) -> s1 <= s2 < hi st ->
  let n := (m_caSeq st).[pos st a] in
  let send := if seqend n =? SRT_SEQNO_NONE then seqstart n else seqend n in
  insert_result st l s1 s2
    (if (seqcmp send (seq_of s1) <? 0) && negb (incseq send =? seq_of s1)
     then st' ← coalesce (pos st s1) (insertAfter (pos st s1) (pos st a) (seq_of s1) (seq_of s2) st);
          Some (st', m_iLength st' - m_iLength st)
     else
       let st1 := set_iLastInsertPos (pos st a) st in
       if seqcmp send (seq_of s2) >=? 0 then Some (st1, 0)
       else
         let st1 := add_iLength (seqlen send (seq_of s2) - 1) st1 in
         st' ← coalesce (pos st a) (set_caSeq (put_end (pos st a) (seq_of s2)) st1);
         Some (st', m_iLength st' - m_iLength st)).
Proof.
  intros Hrep -> Ha Hr He. pose proof (snd_rep_starts _ _ Hrep) as Hst.
  pose proof (r_layout _ _ Hrep) as Hl. pose proof (r_size _ _ Hrep).
  pose proof (r_ok _ _ Hrep) as Hok. apply ivs_ok_app in Hok as [H1 H2]. simpl in H2.
  assert (Hsz : 0 < m_iSize st) by lia.
  pose proof (last_end_bound lo (hi st) l1 ltac:(lia) H1).
  destruct (layout_slot _ c Hsz lo _ _ l1 a b l2 ltac:(reflexivity) Hst Hl) as (E1 & E2 & _).
  cbn [nstart nend Seq_node] in E1, E2. cbv zeta. rewrite E1, E2, end_code_last by lia.
  autorewrite with seqno.
  destruct (Z.ltb_spec b s1), (Z.eqb_spec (b + 1) s1); simpl negb; simpl andb; cbv iota; try lia.
  2: { apply (insert_finish _ _ _ _ _ (l1 ++ [(a, b)]) s1 s2 l2); [|by unfold insertAfter; bdestr|].
       - apply insertAfter_pre; [done|lia..|]. destruct l2 as [|[x y] r]; [done|].
         specialize (Hr x y r eq_refl). simpl in H2 |- *. intuition lia.
       - ivs_ext. }
  all: destruct (Z.geb_spec b s2); [by eapply insert_known; [done|done|lia..|]|].
  all: autorewrite with seqno; apply (insert_finish _ _ _ _ _ l1 a s2 l2);
    [|done|ivs_ext]; sst; replace (s2 - b + 1 - 1) with (s2 - b) by lia;
    apply extend_pre; [done|lia].
Qed.

Lemma insert_nonempty st l s1 s2 : rep st l -> l <> [] -> lo <= s1 <= s2 -> s2 < hi st ->
  s2 - s1 + 1 < m_iSize st ->
  insert_result st l s1 s2 (insert (seq_of s1) (seq_of s2) st).
Proof.
  intros Hrep Hne H1 H2 Hrange. pose proof (snd_rep_starts _ _ Hrep) as Hst.
  pose proof (r_layout _ _ Hrep) as Hl. pose proof (r_size _ _ Hrep).
  pose proof (r_ok _ _ Hrep) as Hok. assert (Hsz : 0 < m_iSize st) by lia.
  destruct l as [|[h k] r]; [done|]. simpl in Hok. destruct Hok as (? & ? & ? & Hok).
  assert (Hlen : m_iLength st <> 0).
  { rewrite (r_len _ _ Hrep). simpl. pose proof (ivs_len_nonneg _ _ _ Hok). lia. }
  assert (Hh : m_iHead st = pos st h) by apply (r_head _ _ Hrep).
  destruct (layout_slot _ c Hsz lo _ _ [] h k r ltac:(reflexivity) Hst Hl) as (E1 & _).
  cbn [nstart Seq_node] in E1. unfold insert.
  pose proof (seq_of_nonneg s1). pose proof (seq_of_nonneg s2).
  rewrite !(proj2 (Z.ltb_ge _ 0)) by done. simpl orb. cbv iota zeta. rewrite Hh, E1.
  autorewrite with seqno. cbn [fst snd].
  pose proof (pos_bound (m_iSize st) c Hsz s1). pose proof (pos_bound (m_iSize st) c Hsz s2).
  rewrite !pos_off by lia. replace (h + (s1 - h)) with s1 by lia. replace (h + (s2 - h)) with s2 by lia.
  rewrite !(proj2 (Z.ltb_ge (Slots.pos _ _ _) 0)) by lia. simpl andb. cbv iota.
  destruct (Z.leb_spec (s2 - s1 + 1) 0); [lia|]. destruct (Z.geb_spec (s2 - s1 + 1) (m_iSize st)); [lia|].
  simpl orb. cbv iota. destruct (Z.eqb_spec (m_iLength st) 0); [done|].
  destruct (Z.geb_spec (s1 - h) (m_iSize st)); [lia|].
  destruct (Z.ltb_spec (s1 - h) 0).
  { apply (insert_finish _ _ _ _ _ [] s1 s2 ((h, k) :: r)); [|by unfold insertHead; bdestr|ivs_ext].
    apply insertHead_pre; auto; try lia; simpl; intuition lia. }
  destruct (Z.gtb_spec (s1 - h) 0).
  - destruct (start_dec ((h, k) :: r) s1) as [(b & l1 & l2 & E)|Hn].
    + pose proof Hl as Hl'. rewrite E in Hl', Hst.
      destruct (layout_slot _ c Hsz lo _ _ l1 s1 b l2 ltac:(reflexivity) Hst Hl') as (F1 & _).
      cbn [nstart Seq_node] in F1. rewrite F1, Z.eqb_refl. eapply insert_update; eauto. lia.
    + destruct (layout_free _ c Hsz lo _ _ _ s1 ltac:(reflexivity) ltac:(lia) Hst Hn Hl) as [F1 _].
      cbn [nstart Seq_node] in F1. rewrite F1.
      rewrite (proj2 (Z.eqb_neq _ SRT_SEQNO_NONE)) by apply seq_of_not_none.
      destruct (search_start st h k r s1 Hrep ltac:(lia)) as (m & p & q & n' & E & Hp & Hi).
      rewrite <- Hh, Hi. rewrite E in Hrep.
      destruct (find_prior_spec _ _ _ _ _ s1 Hrep ltac:(lia) Hp) as (m' & a & b & r' & E' & Ha & Hr & Ef).
      rewrite Ef. simpl. rewrite E. eapply insert_prior; eauto; [|lia].
      intros x y r'' ->. specialize (Hr x y r'' eq_refl).
      assert (x <> s1); [|lia]. intros ->. apply (Hn y). rewrite E, E'. set_solver.
  - assert (s1 = h) as -> by lia. apply (insert_update st _ [] h k r s2); auto. lia.
Qed.

(** ** Removal *)

(** The representation without the head, which [removeUpTo] moves before it
    clears the nodes. *)
Record body (st : t) (l : list (Z * Z)) : Prop := {
  b_size : 0 < m_iSize st <= m_iSeqNoTH;
  b_ok : ivs_ok lo (hi st) l;
  b_layout : layout (m_iSize st) c (m_caSeq st) l;
  b_len : m_iLength st = ivs_len l;
  b_last : m_iLastInsertPos st = -1 \/ at_pos st l (m_iLastInsertPos st);
}.

Lemma rep_body st l : rep st l <-> body st l /\ m_iHead st = hd_pos st l (-1).
Proof. split; [intros []; split; [constructor|]; auto|intros [[] ?]; constructor; auto]. Qed.

Lemma last_dropped st a b r last :
  last = -1 \/ at_pos st ((a, b) :: r) last ->
  let last' := if last =? pos st a then -1 else last in last' = -1 \/ at_pos st r last'.
Proof.
  intros Hl. cbv zeta. destruct (Z.eqb_spec last (pos st a)) as [|Hne]; [auto|].
  rewrite at_pos_cons in Hl. destruct Hl as [?|[?|?]]; auto. by destruct Hne.
Qed.

(** The first node is cleared. *)
Lemma drop_head st a b r st' arr' : body st ((a, b) :: r) ->
  zlen arr' = m_iSize st ->
  seqstart (arr'.[pos st a]) = SRT_SEQNO_NONE -> seqend (arr'.[pos st a]) = SRT_SEQNO_NONE ->
  (forall p, pos st a <> p -> arr'.[p] = (m_caSeq st).[p]) ->
  st' = mk arr' (m_iHead st') (m_iLength st - (b - a + 1)) (m_iSize st)
    (if m_iLastInsertPos st =? pos st a then -1 else m_iLastInsertPos st) ->
  body st' r.
Proof.
  intros [Hs Hok Hl Hlen Hlast] H1 H2 H3 H4 ->. assert (Hsz : 0 < m_iSize st) by lia.
  pose proof (ivs_ok_starts _ _ _ Hok) as Hst.
  constructor; sst; auto.
  - apply (ivs_ok_weaken (b + 1) _ (hi st)); simpl in Hok; [lia..|tauto].
  - apply (layout_replace _ c Hsz lo (hi st) (m_caSeq st) _ [] [(a, b)] [] r); simpl; auto; try lia.
    + apply (starts_ok_weaken (a + 1)); [simpl in Hst; lia|simpl in Hst; tauto].
    + intros p Hp _. not_at_pos. by apply H4.
    + intros p Hp. at_pos_cases; subst p; done.
  - rewrite Hlen. simpl. lia.
  - by eapply last_dropped.
Qed.

(** The first node gives up its first number and moves one slot on. *)
Lemma shift_head st a b r st' arr' : body st ((a, b) :: r) -> a < b ->
  zlen arr' = m_iSize st ->
  seqstart (arr'.[pos st a]) = SRT_SEQNO_NONE -> seqend (arr'.[pos st a]) = SRT_SEQNO_NONE ->
  arr'.[pos st (a + 1)] = mkSeq (seq_of (a + 1)) (end_code (a + 1) b) (hd_pos st r (-1)) ->
  (forall p, pos st a <> p -> pos st (a + 1) <> p -> arr'.[p] = (m_caSeq st).[p]) ->
  st' = mk arr' (m_iHead st') (m_iLength st - 1) (m_iSize st)
    (if m_iLastInsertPos st =? pos st a then -1 else m_iLastInsertPos st) ->
  body st' ((a + 1, b) :: r).
Proof.
  intros [Hs Hok Hl Hlen Hlast] Hab H1 H2 H3 H4 H5 ->. assert (Hsz : 0 < m_iSize st) by lia.
  pose proof (ivs_ok_starts _ _ _ Hok) as Hst. simpl in Hok, Hst.
  assert (pos st a <> pos st (a + 1)) by (intros E; apply pos_inj in E; lia).
  constructor; sst; auto.
  - simpl. intuition lia.
  - apply (layout_replace _ c Hsz lo (hi st) (m_caSeq st) _ [] [(a, b)] [(a + 1, b)] r); simpl; auto; try lia.
    + repeat split; try lia. apply (ivs_ok_starts), (ivs_ok_weaken (b + 1) _ (hi st)); [lia..|tauto].
    + intros p Hp Hp'. not_at_pos. by apply H5.
    + intros p Hp. at_pos_cases; subst p; bdestr. all: rewrite ?H4; done.
  - rewrite Hlen. simpl. lia.
  - destruct (last_dropped st a b r (m_iLastInsertPos st) Hlast) as [?|?]; [by left|].
    right. apply at_pos_cons. auto.
Qed.

(** The code that makes the slot of [x] the start of the rest of a node. *)
Lemma tail_node st l1 a b l2 x : body st (l1 ++ (a, b) :: l2) -> a < x <= b ->
  let arr1 := put_start (pos st x) (seq_of x) (m_caSeq st) in
  let arr2 := put_end (pos st x) (end_code x b) arr1 in
  (forall h n las,
    (if seqcmp (seqend (arr1.[pos st a])) (seq_of x) >? 0
     then mk (put_end (pos st x) (seqend (arr1.[pos st a])) arr1) h n (m_iSize st) las
     else mk arr1 h n (m_iSize st) las) = mk arr2 h n (m_iSize st) las) /\
  seqstart (arr1.[pos st x]) = seq_of x /\ zlen arr2 = m_iSize st /\ pos st a <> pos st x /\
  seqstart (arr2.[pos st x]) = seq_of x /\ seqend (arr2.[pos st x]) = end_code x b /\
  forall p, pos st x <> p -> arr2.[p] = (m_caSeq st).[p].
Proof.
  intros [Hs Hok Hl Hlen Hlast] Hx. assert (Hsz : 0 < m_iSize st) by lia.
  pose proof (ivs_ok_starts _ _ _ Hok) as Hst. apply ivs_ok_app in Hok as [H1 H2]. simpl in H2.
  pose proof (last_end_bound lo (hi st) l1 ltac:(lia) H1). pose proof (proj1 Hl) as Hzl.
  assert (pos st a <> pos st x) by (intros E; apply pos_inj in E; lia).
  pose proof (pos_bound (m_iSize st) c Hsz a). pose proof (pos_bound (m_iSize st) c Hsz x).
  destruct (layout_slot _ c Hsz lo _ _ l1 a b l2 ltac:(reflexivity) Hst Hl) as (E1 & E2 & E3 & _).
  assert (Hn : forall b', (x, b') ∉ l1 ++ (a, b) :: l2).
  { intros b' [Hin|[[= -> ->]|Hin]%elem_of_cons]%elem_of_app; [|lia|].
    - pose proof (starts_ok_last _ _ _ _ _ (ivs_ok_starts _ _ _ H1) Hin).
      pose proof (last_start_le_end lo (hi st) l1 ltac:(lia) H1). lia.
    - pose proof (starts_ok_elem _ _ _ _ _ (ivs_ok_starts _ _ _ (proj2 (proj2 (proj2 H2)))) Hin). lia. }
  destruct (layout_free _ c Hsz lo (hi st) (m_caSeq st) _ x ltac:(lia) ltac:(lia) Hst Hn Hl) as [_ F].
  cbn [nstart nend nnext Seq_node] in *. cbv zeta.
  split; [|split_and!; [by putarr|unfold put_end, put_start; by arr|done|by putarr..|intros; by putarr]].
  intros h n las. putarr. rewrite E2, end_code_ne by lia. autorewrite with seqno.
  destruct (Z.gtb_spec b x); [by rewrite end_code_ne by lia|].
  assert (b = x) as -> by lia. rewrite end_code_eq. f_equal. symmetry. apply aupd_same; [arr; lia|].
  arr. cbn. by rewrite F.
Qed.

Lemma popLostSeq_spec st a b r : rep st ((a, b) :: r) ->
  exists st', popLostSeq st = (st', seq_of a) /\
    rep st' (if a =? b then r else (a + 1, b) :: r) /\ m_iSize st' = m_iSize st.
Proof.
  intros Hrep. pose proof (snd_rep_starts _ _ Hrep) as Hst. pose proof (r_layout _ _ Hrep) as Hl.
  pose proof (r_size _ _ Hrep). pose proof (r_ok _ _ Hrep) as Hok. simpl in Hok.
  assert (Hsz : 0 < m_iSize st) by lia. pose proof (proj1 Hl) as Hzl.
  destruct (layout_slot _ c Hsz lo _ _ [] a b r ltac:(reflexivity) Hst Hl) as (E1 & E2 & E3 & _).
  cbn [nstart nend nnext Seq_node] in E1, E2, E3.
  assert (Hh : m_iHead st = pos st a) by apply (r_head _ _ Hrep).
  assert (Hlen : m_iLength st <> 0).
  { rewrite (r_len _ _ Hrep). simpl. pose proof (ivs_len_nonneg _ _ _ (proj2 (proj2 (proj2 Hok)))). lia. }
  pose proof (pos_bound (m_iSize st) c Hsz a). pose proof (pos_bound (m_iSize st) c Hsz (a + 1)).
  apply rep_body in Hrep as [Hb _].
  unfold popLostSeq. rewrite Hh. rewrite (proj2 (Z.eqb_neq _ _) Hlen).
  rewrite last_norm.
  sst. rewrite E1, E2, end_code_none. destruct (Z.eqb_spec a b) as [->|Hab].
  - eexists. split; [reflexivity|]. split; [|done]. apply rep_body. sst. split.
    + eapply drop_head; sst; [exact Hb|..].
      5: { cbn. f_equal. lia. }
      all: intros; putarr; rewrite ?E2, ?end_code_eq; done.
    + putarr. by rewrite E3.
  - assert (pos st a <> pos st (a + 1)) by (intros E; apply pos_inj in E; lia).
    rewrite pos_succ by done.
    destruct (tail_node _ [] a b r (a + 1) Hb ltac:(lia)) as (T1 & T2 & _).
    rewrite incseq_seq_of, T2, T1. clear T1 T2.
    sst. eexists. split; [reflexivity|]. split; [|done]. apply rep_body. split; [|done].
    eapply shift_head; sst; [exact Hb|lia|..].
    6: { cbn. f_equal; lia. }
    all: intros; putarr; rewrite ?E3; done.
Qed.

(** A node is cut in two after [u]. *)
Lemma split_body st l1 a u b l2 st' arr' : body st (l1 ++ (a, b) :: l2) -> a <= u < b ->
  zlen arr' = m_iSize st ->
  arr'.[pos st a] = mkSeq (seq_of a) (end_code a u) (pos st (u + 1)) ->
  arr'.[pos st (u + 1)] = mkSeq (seq_of (u + 1)) (end_code (u + 1) b) (hd_pos st l2 (-1)) ->
  (forall p, pos st a <> p -> pos st (u + 1) <> p -> arr'.[p] = (m_caSeq st).[p]) ->
  st' = mk arr' (m_iHead st') (m_iLength st) (m_iSize st) (m_iLastInsertPos st) ->
  body st' (l1 ++ (a, u) :: (u + 1, b) :: l2).
Proof.
  intros [Hs Hok Hl Hlen Hlast] Hab H1 H2 H3 H4 ->. assert (Hsz : 0 < m_iSize st) by lia.
  assert (Hok' : ivs_ok lo (hi st) (l1 ++ (a, u) :: (u + 1, b) :: l2)).
  { apply ivs_ok_app in Hok as [? Hok]. apply ivs_ok_app. simpl in Hok |- *. intuition lia. }
  pose proof (ivs_ok_starts _ _ _ Hok) as Hst. pose proof (ivs_ok_starts _ _ _ Hok') as Hst'.
  assert (Hin : (a, b) ∈ l1 ++ (a, b) :: l2) by (apply elem_of_app; right; left).
  pose proof (starts_ok_elem _ _ _ _ _ Hst Hin).
  assert (pos st a <> pos st (u + 1)) by (intros E; apply pos_inj in E; lia).
  constructor; sst; auto.
  - apply (layout_replace _ c Hsz lo (hi st) (m_caSeq st) _ l1 [(a, b)] [(a, u); (u + 1, b)] l2);
      simpl; auto; try lia.
    + intros p Hp Hp'. not_at_pos. by apply H4.
    + intros p Hp. at_pos_cases; subst p; bdestr; rewrite ?H2, ?H3; done.
  - rewrite Hlen, !ivs_len_app. simpl. lia.
  - rewrite at_pos_app, !at_pos_cons in *. tauto.
Qed.

Lemma clear_spec n st l1 l2 : (length l1 < n)%nat -> body st (l1 ++ l2) ->
  m_iHead st = hd_pos st l2 (-1) ->
  exists st', loop n clear_step (st, hd_pos st (l1 ++ l2) (-1)) = Some st' /\ rep st' l2 /\
    m_iSize st' = m_iSize st.
Proof.
  revert st l1. induction n as [|n IH]; intros st l1 Hn Hb Hh; [lia|]. simpl loop.
  destruct l1 as [|[a b] r]; simpl in *.
  { exists st. rewrite Hh, Z.eqb_refl. split_and!; auto. by apply rep_body. }
  pose proof (b_size _ _ Hb). assert (Hsz : 0 < m_iSize st) by lia.
  pose proof (b_ok _ _ Hb) as Hok. simpl in Hok. pose proof (ivs_ok_starts _ _ _ (b_ok _ _ Hb)) as Hst.
  pose proof (b_layout _ _ Hb) as Hl. pose proof (proj1 Hl) as Hzl.
  pose proof (pos_bound (m_iSize st) c Hsz a).
  destruct (layout_slot _ c Hsz lo _ _ [] a b (r ++ l2) ltac:(reflexivity) Hst Hl) as (E1 & E2 & E3 & _).
  cbn [nstart nend nnext Seq_node] in *.
  assert (Hne : pos st a <> m_iHead st).
  { rewrite Hh. destruct l2 as [|[x y] l2]; simpl; [lia|]. intros E.
    assert (Hx : (x, y) ∈ r ++ (x, y) :: l2) by (apply elem_of_app; right; left).
    pose proof (starts_ok_elem _ _ _ _ _ (ivs_ok_starts _ _ _ (proj2 (proj2 (proj2 Hok)))) Hx).
    apply pos_inj in E; lia. }
  rewrite (proj2 (Z.eqb_neq _ _) Hne). simpl negb. cbv iota.
  rewrite E1, E2, end_code_none.
  match goal with |- context [loop n clear_step ?s] => set (s1 := s) end.
  assert (Hs1 : exists arr', s1 = (mk arr' (m_iHead st) (m_iLength st - (b - a + 1)) (m_iSize st)
       (if m_iLastInsertPos st =? pos st a then -1 else m_iLastInsertPos st), hd_pos st (r ++ l2) (-1)) /\
     zlen arr' = m_iSize st /\ seqstart (arr'.[pos st a]) = SRT_SEQNO_NONE /\
     seqend (arr'.[pos st a]) = SRT_SEQNO_NONE /\
     forall p, pos st a <> p -> arr'.[p] = (m_caSeq st).[p]).
  { subst s1. destruct (Z.eqb_spec a b) as [->|Hab]; simpl negb; cbv iota.
    - exists (put_start (pos st b) SRT_SEQNO_NONE (m_caSeq st)).
      split_and!; [|unfold put_start; by arr|by putarr|putarr; by rewrite E2, end_code_eq|intros; by putarr].
      sst. destruct (Z.eqb_spec (m_iLastInsertPos st) (pos st b)); sst; putarr; rewrite E3; f_equal; f_equal; lia.
    - exists (put_start (pos st a) SRT_SEQNO_NONE (put_end (pos st a) SRT_SEQNO_NONE (m_caSeq st))).
      split_and!; [|unfold put_start, put_end; by arr|by putarr..|intros; by putarr].
      rewrite end_code_ne by done. autorewrite with seqno.
      sst. destruct (Z.eqb_spec (m_iLastInsertPos st) (pos st a)); sst; putarr; rewrite E3; f_equal; f_equal; lia. }
  clearbody s1. destruct Hs1 as (arr' & -> & A1 & A2 & A3 & A4).
  match goal with |- context [loop n clear_step (?s, _)] => set (st1 := s) end.
  assert (Hb1 : body st1 (r ++ l2)) by (eapply drop_head; eauto; reflexivity).
  destruct (IH st1 r ltac:(lia) Hb1) as (st' & E & Hrep & Hsz'); [exact Hh|].
  exists st'. auto.
Qed.

Definition removed_up_to (st : t) (l : list (Z * Z)) (u : Z) (r : option t) : Prop :=
  exists st' l', r = Some st' /\ rep st' l' /\ m_iSize st' = m_iSize st /\
    ivs_set l' = filter (fun x => u < x) (ivs_set l).

Lemma clear_prefix st0 st l0 l1 l2 h u : body st (l1 ++ l2) -> (length l1 < fuel st)%nat ->
  m_iHead st = hd_pos st l2 (-1) -> h = hd_pos st (l1 ++ l2) (-1) -> m_iSize st = m_iSize st0 ->
  last_end lo l1 <= u + 1 -> ivs_ok (u + 1) (hi st) l2 -> ivs_set (l1 ++ l2) = ivs_set l0 ->
  removed_up_to st0 l0 u (loop (fuel st) clear_step (st, h)).
Proof.
  intros Hb Hn Hh -> Hs Hu Hok HS. destruct (clear_spec (fuel st) st l1 l2 Hn Hb Hh) as (st' & E & Hrep & Hs').
  rewrite E. exists st', l2. split_and!; [done|done|congruence|].
  rewrite <- HS. pose proof (b_size _ _ Hb). apply (ivs_filter lo (hi st)); auto; [lia|apply Hb].
Qed.

Lemma body_length st l1 l2 : body st (l1 ++ l2) -> (length l1 < fuel st)%nat.
Proof.
  intros [Hs Hok [Hl _] _ _]. apply ivs_ok_app in Hok as [Hok _]. unfold fuel.
  pose proof (ivs_length lo (hi st) l1 ltac:(lia) Hok). lia.
Qed.

(** The nodes before the new head are cleared, the new head being the next
    node or the rest of the one that is cut. *)
Lemma remove_whole st l1 a b l2 u : rep st (l1 ++ (a, b) :: l2) -> b <= u ->
  (forall x y r, l2 = (x, y) :: r -> u < x) ->
  let st1 := set_iHead (hd_pos st l2 (-1)) st in
  removed_up_to st (l1 ++ (a, b) :: l2) u (loop (fuel st1) clear_step (st1, m_iHead st)).
Proof.
  intros Hrep Hb Hn. pose proof (r_head _ _ Hrep) as Hh. apply rep_body in Hrep as [Hbody _].
  pose proof (b_ok _ _ Hbody) as Hok. apply ivs_ok_app in Hok as [H1 H2]. simpl in H2.
  rewrite (cons_middle (a, b)), app_assoc in Hbody, Hh |- *. cbv zeta.
  apply (clear_prefix _ _ _ (l1 ++ [(a, b)]) l2); sst; auto.
  - destruct Hbody. by constructor.
  - apply body_length with l2. destruct Hbody. by constructor.
  - rewrite last_end_app. simpl. lia.
  - destruct l2 as [|[x y] r]; [done|]. specialize (Hn x y r eq_refl). simpl in H2 |- *. intuition lia.
Qed.

Lemma remove_part st l1 a b l2 u st1 arr' : rep st (l1 ++ (a, b) :: l2) -> a <= u < b ->
  zlen arr' = m_iSize st ->
  arr'.[pos st a] = mkSeq (seq_of a) (end_code a u) (pos st (u + 1)) ->
  arr'.[pos st (u + 1)] = mkSeq (seq_of (u + 1)) (end_code (u + 1) b) (hd_pos st l2 (-1)) ->
  (forall p, pos st a <> p -> pos st (u + 1) <> p -> arr'.[p] = (m_caSeq st).[p]) ->
  st1 = mk arr' (pos st (u + 1)) (m_iLength st) (m_iSize st) (m_iLastInsertPos st) ->
  removed_up_to st (l1 ++ (a, b) :: l2) u (loop (fuel st1) clear_step (st1, m_iHead st)).
Proof.
  intros Hrep Hu A1 A2 A3 A4 ->. pose proof (r_head _ _ Hrep) as Hh. apply rep_body in Hrep as [Hbody _].
  set (st1 := mk _ _ _ _ _).
  assert (Hb1 : body st1 (l1 ++ (a, u) :: (u + 1, b) :: l2)) by (eapply split_body; eauto; reflexivity).
  pose proof (b_ok _ _ Hbody) as Hok. apply ivs_ok_app in Hok as [H1 H2]. simpl in H2.
  rewrite (cons_middle (a, u)), app_assoc in Hb1.
  apply (clear_prefix _ _ _ (l1 ++ [(a, u)]) ((u + 1, b) :: l2)); auto.
  - by apply (body_length _ _ _ Hb1).
  - by rewrite Hh, <- app_assoc, !hd_pos_app.
  - rewrite last_end_app. simpl. lia.
  - simpl. subst st1. sst. intuition lia.
  - ivs_ext.
Qed.

Lemma removeUpTo_head st a b r : rep st ((a, b) :: r) ->
  removed_up_to st ((a, b) :: r) a (removeUpTo (seq_of a) st).
Proof.
  intros Hrep. pose proof (snd_rep_starts _ _ Hrep) as Hst. pose proof (r_layout _ _ Hrep) as Hl.
  pose proof (r_size _ _ Hrep). pose proof (r_ok _ _ Hrep) as Hok. simpl in Hok.
  assert (Hsz : 0 < m_iSize st) by lia. pose proof (proj1 Hl) as Hzl.
  destruct (layout_slot _ c Hsz lo _ _ [] a b r ltac:(reflexivity) Hst Hl) as (E1 & E2 & E3 & _).
  cbn [nstart nend nnext Seq_node] in E1, E2, E3.
  assert (Hh : m_iHead st = pos st a) by apply (r_head _ _ Hrep).
  assert (Hlen : m_iLength st <> 0).
  { rewrite (r_len _ _ Hrep). simpl. pose proof (ivs_len_nonneg _ _ _ (proj2 (proj2 (proj2 Hok)))). lia. }
  pose proof (pos_bound (m_iSize st) c Hsz a). pose proof (pos_bound (m_iSize st) c Hsz (a + 1)).
  apply rep_body in Hrep as [Hb _].
  unfold removeUpTo. rewrite (proj2 (Z.eqb_neq _ _) Hlen), Hh, E1, E2, E3, end_code_none.
  autorewrite with seqno. rewrite Z.sub_diag, pos_off, Z.add_0_r by lia. cbv iota zeta. simpl (0 =? 0). cbv iota.
  destruct (Z.eqb_spec a b) as [->|Hab].
  - rewrite last_norm. sst.
    match goal with |- context [Some ?s] => set (st1 := s) end.
    assert (Hb1 : body st1 r).
    { eapply drop_head; [exact Hb|..|subst st1; f_equal; lia].
      all: intros; putarr; rewrite ?E2, ?end_code_eq; done. }
    exists st1, r. split_and!; [done|by apply rep_body|done|].
    apply (ivs_filter lo (hi st) [(b, b)]); [lia|apply Hb|simpl; lia|]. simpl. apply Hok.
  - rewrite pos_succ by done.
    destruct (tail_node _ [] a b r (a + 1) Hb ltac:(lia)) as (T1 & T2 & T3 & T4 & T5 & T6 & T7).
    rewrite last_norm. sst. rewrite T1. clear T1 T2. sst.
    set (arr2 := put_end _ (end_code _ _) _) in *. clearbody arr2. sst.
    match goal with |- context [Some ?s] => set (st1 := s) end.
    assert (Hb1 : body st1 ((a + 1, b) :: r)).
    { eapply shift_head; [exact Hb|lia|..|subst st1; f_equal; lia].
      all: intros; putarr; rewrite ?T5, ?T6, ?T7, ?E3 by done; done. }
    exists st1, ((a + 1, b) :: r). split_and!; [done|by apply rep_body|done|].
    assert (ivs_set ((a, b) :: r) = ivs_set ([(a, a)] ++ (a + 1, b) :: r)) as -> by (simpl; ivs_ext).
    apply (ivs_filter lo (hi st)); simpl; intuition lia.
Qed.

(** The three ways to find the new head when [u] is past the head. *)
Lemma removeUpTo_later st h k r u : rep st ((h, k) :: r) -> h < u < hi st ->
  removed_up_to st ((h, k) :: r) u (removeUpTo (seq_of u) st).
Proof.
  intros Hrep Hu. pose proof (snd_rep_starts _ _ Hrep) as Hst. pose proof (r_layout _ _ Hrep) as Hl.
  pose proof (r_size _ _ Hrep). pose proof (r_ok _ _ Hrep) as Hok. simpl in Hok.
  assert (Hsz : 0 < m_iSize st) by lia. pose proof (proj1 Hl) as Hzl.
  destruct (layout_slot _ c Hsz lo _ _ [] h k r ltac:(reflexivity) Hst Hl) as (E1 & _).
  cbn [nstart nend nnext Seq_node] in E1.
  assert (Hh : m_iHead st = pos st h) by apply (r_head _ _ Hrep).
  assert (Hlen : m_iLength st <> 0).
  { rewrite (r_len _ _ Hrep). simpl. pose proof (ivs_len_nonneg _ _ _ (proj2 (proj2 (proj2 Hok)))). lia. }
  pose proof (pos_bound (m_iSize st) c Hsz u). pose proof (pos_bound (m_iSize st) c Hsz (u + 1)).
  unfold removeUpTo. rewrite (proj2 (Z.eqb_neq _ _) Hlen), Hh, E1. autorewrite with seqno.
  destruct (Z.eqb_spec (u - h) 0); [lia|]. destruct (Z.gtb_spec (u - h) 0); [|lia].
  rewrite pos_off by lia. replace (h + (u - h)) with u by lia. rewrite pos_succ by done.
  destruct (start_dec ((h, k) :: r) u) as [(b & l1 & l2 & E)|Hn].
  - rewrite E in *. destruct (layout_slot _ c Hsz lo _ _ l1 u b l2 ltac:(reflexivity) Hst Hl) as (F1 & F2 & F3 & _).
    cbn [nstart nend nnext Seq_node] in F1, F2, F3. rewrite F1, F2, F3, Z.eqb_refl, end_code_none.
    assert (Hin : (u, b) ∈ l1 ++ (u, b) :: l2) by (apply elem_of_app; right; left).
    pose proof (starts_ok_elem _ _ _ _ _ Hst Hin).
    destruct (Z.eqb_spec u b) as [->|Hub].
    + rewrite bind_Some, <- Hh. apply remove_whole; [done|lia|]. intros x y r' ->.
      pose proof (r_ok _ _ Hrep) as Hok'. apply ivs_ok_app in Hok' as [_ Hok']. simpl in Hok'. lia.
    + destruct (tail_node _ l1 u b l2 (u + 1) (proj1 (proj1 (rep_body _ _) Hrep)) ltac:(lia))
        as (T1 & T2 & T3 & T4 & T5 & T6 & T7).
      sst. rewrite T2, T1. clear T1 T2. sst. rewrite bind_Some, <- Hh.
      set (arr2 := put_end _ (end_code _ _) _) in *. clearbody arr2.
      eapply remove_part; [exact Hrep|lia|..|reflexivity]; intros; putarr; rewrite ?T5, ?T6, ?T7 by done;
        try done; rewrite ?F1, ?F2, ?F3, ?end_code_eq; done.
  - destruct (layout_free _ c Hsz lo _ _ _ u ltac:(reflexivity) ltac:(lia) Hst Hn Hl) as [F _].
    cbn [nstart Seq_node] in F. rewrite F.
    rewrite (proj2 (Z.eqb_neq _ SRT_SEQNO_NONE)) by apply seq_of_not_none.
    destruct (find_prior_spec st [] h k r u Hrep ltac:(lia) ltac:(lia)) as (m & a & b & r' & E & Ha & Hr & Ef).
    rewrite Ef, bind_Some. simpl app in E. rewrite E in *.
    assert (Hr' : forall x y n', r' = (x, y) :: n' -> u < x).
    { intros x y n' ->. specialize (Hr x y n' eq_refl).
      assert (x <> u); [|lia]. intros ->. apply (Hn y). set_solver. }
    destruct (layout_slot _ c Hsz lo _ _ m a b r' ltac:(reflexivity) Hst Hl) as (F1 & F2 & F3 & _).
    cbn [nstart nend nnext Seq_node] in F1, F2, F3. rewrite F2, F3, end_code_none.
    assert (Hin : (a, b) ∈ m ++ (a, b) :: r') by (apply elem_of_app; right; left).
    pose proof (starts_ok_elem _ _ _ _ _ Hst Hin).
    destruct (Z.eqb_spec a b) as [->|Hab].
    + rewrite bind_Some, <- Hh. apply remove_whole; [done|lia|done].
    + rewrite end_code_ne by done. autorewrite with seqno. destruct (Z.gtb_spec b u).
      2: { rewrite bind_Some, <- Hh. apply remove_whole; [done|lia|done]. }
      destruct (tail_node _ m a b r' (u + 1) (proj1 (proj1 (rep_body _ _) Hrep)) ltac:(lia))
        as (T1 & T2 & T3 & T4 & T5 & T6 & T7).
      sst. rewrite T2, T1. clear T1 T2. sst. rewrite bind_Some, <- Hh.
      set (arr2 := put_end _ (end_code _ _) _) in *. clearbody arr2.
      pose proof (pos_bound (m_iSize st) c Hsz a).
      eapply remove_part; [exact Hrep|lia|..|reflexivity]; intros; putarr; rewrite ?T5, ?T6, ?T7 by done;
        try done; rewrite ?F1, ?F2, ?F3, ?end_code_ne by lia; done.
Qed.
End Rep.

(** ** The list as a set of lost positions *)

(** The list holds the positions [S]: the slots carry their numbers, and
    [m_iLength] and the positions kept in the members agree with them. *)
Definition holds (st : t) (S : gset Z) : Prop :=
  exists c lo l, rep c lo st l /\ ivs_set l = S.

Lemma snd_rep_rewindow c lo lo' st l : rep c lo st l -> fits lo' (m_iSize st) (ivs_set l) -> rep c lo' st l.
Proof. intros [] Hf. constructor; auto. by apply (ivs_rewindow lo (lo + m_iSize st)). Qed.

Lemma fits_union lo n (S S' : gset Z) : fits lo n (S ∪ S') -> fits lo n S /\ fits lo n S'.
Proof. unfold fits, set_Forall. set_solver. Qed.

Lemma fits_range lo n a b : a <= b -> fits lo n (range a b) -> lo <= a /\ b < lo + n.
Proof.
  intros Hab Hf. pose proof (Hf a ltac:(apply elem_of_range; lia)).
  pose proof (Hf b ltac:(apply elem_of_range; lia)). simpl in *. lia.
Qed.

Lemma snd_holds_length st S : holds st S -> getLossLength st = Z.of_nat (size S).
Proof.
  intros (c & lo & l & Hrep & <-). unfold getLossLength. rewrite (r_len _ _ _ _ Hrep).
  by apply (ivs_len_size lo (lo + m_iSize st)), (r_ok _ _ _ _ Hrep).
Qed.

Lemma snd_rep_empty_phase c c' lo lo' st : rep c lo st [] -> rep c' lo' st [].
Proof. intros [? ? [Hl Hp] ? ? [?|[]%at_pos_nil]]. constructor; simpl; auto. by split. Qed.

Lemma snd_init_holds n f : 0 < n <= m_iSeqNoTH -> holds (init n f) ∅.
Proof.
  intros Hn. exists 0, 0, []. split; [|done]. constructor; simpl; auto.
  apply layout_nil.
  - rewrite length_map, length_seq. lia.
  - intros p Hp. unfold aget. destruct (Z.ltb_spec p 0); [lia|]. rewrite list_lookup_total_alt.
    unfold init. simpl. rewrite list_lookup_fmap, lookup_seq_lt by lia. done.
Qed.

Lemma snd_insert_holds st S s1 s2 lo : holds st S -> s1 <= s2 -> s2 - s1 + 1 < m_iSize st ->
  fits lo (m_iSize st) (S ∪ range s1 s2) ->
  exists st', insert (seq_of s1) (seq_of s2) st =
      Some (st', Z.of_nat (size (S ∪ range s1 s2)) - Z.of_nat (size S)) /\
    holds st' (S ∪ range s1 s2) /\ m_iSize st' = m_iSize st.
Proof.
  intros Hh H12 Hr Hf. pose proof (snd_holds_length _ _ Hh) as HlenS. pose proof Hh as (c & lo0 & l & Hrep & <-).
  apply fits_union in Hf as Hf'. destruct Hf' as [HfS HfR]. apply fits_range in HfR; [|done].
  pose proof (snd_rep_rewindow _ _ _ _ _ Hrep HfS) as Hrep'. pose proof (r_size _ _ _ _ Hrep).
  assert (exists st' l', insert (seq_of s1) (seq_of s2) st = Some (st', m_iLength st' - m_iLength st) /\
    (exists c', rep c' lo st' l') /\ m_iSize st' = m_iSize st /\ ivs_set l' = ivs_set l ∪ range s1 s2)
    as (st' & l' & E & (c' & Hrep1) & Hs & HS).
  { destruct (decide (l = [])) as [->|Hne].
    - set (c' := - s1). apply (snd_rep_empty_phase _ c' _ lo) in Hrep'.
      assert (Hp : pos (m_iSize st) c' s1 = 0) by (unfold pos, c'; rewrite Z.add_opp_diag_l; by apply Z.mod_0_l; lia).
      pose proof (insertHead_pre c' lo st [] s1 s2 Hrep' ltac:(lia) ltac:(lia) I) as Hpre.
      apply pre_rep_done in Hpre; [|done]. rewrite Hp in Hpre. simpl app in Hpre.
      assert (Hl0 : m_iLength st = 0) by apply (r_len _ _ _ _ Hrep).
      exists (insertHead 0 (seq_of s1) (seq_of s2) st), [(s1, s2)].
      assert (Hsz : m_iSize (insertHead 0 (seq_of s1) (seq_of s2) st) = m_iSize st) by (unfold insertHead; by bdestr).
      split_and!; [|eauto|done|simpl; ivs_ext].
      unfold insert. pose proof (seq_of_nonneg s1). pose proof (seq_of_nonneg s2).
      autorewrite with seqno. rewrite Hl0, Z.sub_0_r. by bdestr.
    - destruct (insert_nonempty c lo st l s1 s2 Hrep' Hne) as (st' & l' & ?); [lia..|].
      exists st', l'. naive_solver. }
  exists st'. rewrite E. assert (Hh' : holds st' (ivs_set l ∪ range s1 s2)) by (exists c', lo, l'; auto).
  split_and!; [|done|done]. do 2 f_equal.
  pose proof (snd_holds_length _ _ Hh'). unfold getLossLength in *. lia.
Qed.

Lemma holds_empty st S : holds st S -> S = ∅ <-> m_iLength st = 0.
Proof.
  intros Hh. pose proof (snd_holds_length _ _ Hh) as E. unfold getLossLength in E. rewrite E. split.
  - by intros ->.
  - intros H. apply leibniz_equiv, size_empty_inv. lia.
Qed.

Lemma pop_holds st S : holds st S ->
  exists st', popLostSeq st = (st', match first_of S with Some m => seq_of m | None => SRT_SEQNO_NONE end) /\
    holds st' (match first_of S with Some m => S ∖ {[m]} | None => S end) /\ m_iSize st' = m_iSize st.
Proof.
  intros Hh. pose proof Hh as (c & lo & l & Hrep & HS). destruct l as [|[a b] r].
  - subst S. simpl. exists st. split_and!; [|done|done]. unfold popLostSeq.
    rewrite (proj1 (holds_empty _ _ Hh)) by done. done.
  - pose proof (r_ok _ _ _ _ Hrep) as Hok. subst S. rewrite (ivs_first _ _ _ _ _ Hok).
    destruct (popLostSeq_spec _ _ _ _ _ _ Hrep) as (st' & E & Hrep' & Hs).
    exists st'. split_and!; [done| |done]. eexists c, lo, _. split; [exact Hrep'|].
    by apply (ivs_tail lo (lo + m_iSize st)).
Qed.

Lemma removeUpTo_holds st S u lo : holds st S -> lo <= u < lo + m_iSize st -> fits lo (m_iSize st) S ->
  exists st', removeUpTo (seq_of u) st = Some st' /\ holds st' (filter (fun x => u < x) S) /\
    m_iSize st' = m_iSize st.
Proof.
  intros Hh Hu Hf. pose proof Hh as (c & lo0 & l & Hrep & HS).
  rewrite <- HS in Hf. pose proof (snd_rep_rewindow _ _ _ _ _ Hrep Hf) as Hrep'.
  destruct l as [|[a b] r].
  { subst S. exists st. split_and!; [|simpl ivs_set; rewrite filter_empty_L by apply _; exact Hh|done].
    unfold removeUpTo. by rewrite (proj1 (holds_empty _ _ Hh)). }
  assert (H : a <= u -> removed_up_to c lo st ((a, b) :: r) u (removeUpTo (seq_of u) st)).
  { intros ?. destruct (decide (u = a)) as [->|?]; [by apply removeUpTo_head|].
    apply removeUpTo_later; [done|lia]. }
  destruct (decide (a <= u)) as [Ha|Ha].
  - destruct (H Ha) as (st' & l' & E & Hrep1 & Hs & HS').
    exists st'. split_and!; [done| |done]. exists c, lo, l'. rewrite HS', HS. auto.
  - clear H. exists st. split_and!; [| |done].
    + pose proof (r_size _ _ _ _ Hrep). pose proof (snd_rep_starts _ _ _ _ Hrep') as Hst. simpl in Hst.
      unfold removeUpTo. rewrite (r_head _ _ _ _ Hrep). simpl hd_pos.
      destruct (layout_slot (m_iSize st) c ltac:(lia) lo _ _ [] a b r ltac:(reflexivity) Hst (r_layout _ _ _ _ Hrep))
        as (E1 & _).
      cbn [nstart Seq_node] in E1. rewrite E1. autorewrite with seqno. bdestr; done.
    + rewrite <- HS. exists c, lo, ((a, b) :: r). split; [done|].
      rewrite <- (ivs_filter lo (lo + m_iSize st) [] ((a, b) :: r)); simpl; auto; try lia.
      * apply (r_ok _ _ _ _ Hrep').
      * pose proof (r_ok _ _ _ _ Hrep') as Hok. simpl in Hok. intuition lia.
Qed.

(** ** The sequence of operations on the list, and on the set it stands for *)

Inductive op := Insert (s1 s2 : Z) | RemoveUpTo (u : Z) | Pop.

Definition step (st : t) (o : op) : option (t * Z) :=
  match o with
  | Insert s1 s2 => insert (seq_of s1) (seq_of s2) st
  | RemoveUpTo u => st' ← removeUpTo (seq_of u) st; Some (st', 0)
  | Pop => Some (popLostSeq st)
  end.

Definition spec_step (S : gset Z) (o : op) : gset Z * Z :=
  match o with
  | Insert s1 s2 => (S ∪ range s1 s2, Z.of_nat (size (S ∪ range s1 s2)) - Z.of_nat (size S))
  | RemoveUpTo u => (filter (fun x => u < x) S, 0)
  | Pop => match first_of S with
           | Some m => (S ∖ {[m]}, seq_of m)
           | None => (S, SRT_SEQNO_NONE)
           end
  end.

(** What the caller guarantees: the numbers in flight fit into the list. *)
Definition allowed_in (lo n : Z) (S : gset Z) (o : op) : Prop :=
  match o with
  | Insert s1 s2 => s1 <= s2 /\ s2 - s1 + 1 < n /\ fits lo n (S ∪ range s1 s2)
  | RemoveUpTo u => lo <= u < lo + n /\ fits lo n S
  | Pop => True
  end.

#[export] Instance allowed_in_dec lo n S o : Decision (allowed_in lo n S o).
Proof. destruct o; simpl; apply _. Defined.

Definition allowed (n : Z) (S : gset Z) (o : op) : Prop := exists lo, allowed_in lo n S o.

Fixpoint run (st : t) (ops : list op) : option (t * list Z) :=
  match ops with
  | [] => Some (st, [])
  | o :: ops => r ← step st o; q ← run r.1 ops; Some (q.1, r.2 :: q.2)
  end.

Fixpoint spec_run (S : gset Z) (ops : list op) : gset Z * list Z :=
  match ops with
  | [] => (S, [])
  | o :: ops => let (S1, r) := spec_step S o in let (S2, rs) := spec_run S1 ops in (S2, r :: rs)
  end.

Fixpoint all_allowed (n : Z) (S : gset Z) (ops : list op) : Prop :=
  match ops with
  | [] => True
  | o :: ops => allowed n S o /\ all_allowed n (spec_step S o).1 ops
  end.

Lemma step_refines st S o : holds st S -> allowed (m_iSize st) S o ->
  exists st', step st o = Some (st', (spec_step S o).2) /\ holds st' (spec_step S o).1 /\
    m_iSize st' = m_iSize st.
Proof.
  intros Hh. destruct o as [s1 s2|u|]; simpl.
  - intros (lo & H1 & H2 & Hf). by apply (snd_insert_holds st S s1 s2 lo).
  - intros (lo & Hu & Hf). destruct (removeUpTo_holds st S u lo) as (st' & E & ? & ?); auto.
    exists st'. by rewrite E.
  - intros _. destruct (pop_holds st S Hh) as (st' & E & ? & ?). exists st'. rewrite E.
    by destruct (first_of S).
Qed.

(** ** Properties *)

(** [insert] of a range that fits into the window of the list adds exactly
    its positions, whatever the list held and wherever the range lies relative
    to it, across the wrap of the sequence numbers as well; it returns the
    number of positions that were new, and [m_iLength] is their count. *)
Theorem snd_insert (st : t) (S : gset Z) (s1 s2 lo : Z) (Hh : holds st S) (H12 : s1 <= s2)
  (Hr : s2 - s1 + 1 < m_iSize st) (Hf : fits lo (m_iSize st) (S ∪ range s1 s2)) :
  exists st', insert (seq_of s1) (seq_of s2) st =
      Some (st', Z.of_nat (size (range s1 s2 ∖ S))) /\
    holds st' (S ∪ range s1 s2) /\
    getLossLength st' = Z.of_nat (size (S ∪ range s1 s2)).
Proof.
  destruct (snd_insert_holds st S s1 s2 lo) as (st' & E & Hh' & _); auto.
  exists st'. rewrite E. split_and!; [|done|by apply snd_holds_length].
  do 2 f_equal. rewrite size_union_alt. lia.
Qed.

Lemma snd_insert_witness :
  fits 0x7FFFFFFA 10 (∅ ∪ range 0x7FFFFFFE 0x80000001) /\
  option_map snd (insert 0x7FFFFFFE 1 (init 10 (fun _ => 0))) = Some 4.
Proof.
  assert (Hf : fits 0x7FFFFFFA 10 (∅ ∪ range 0x7FFFFFFE 0x80000001))
    by (apply (bool_decide_unpack _); vm_compute; exact I).
  split; [exact Hf|].
  destruct (snd_insert (init 10 (fun _ => 0)) ∅ 0x7FFFFFFE 0x80000001 0x7FFFFFFA) as (st' & E & _).
  - apply snd_init_holds. vm_compute. split; [reflexivity|discriminate].
  - lia.
  - reflexivity.
  - exact Hf.
  - change (seq_of 0x7FFFFFFE) with 0x7FFFFFFE in E. change (seq_of 0x80000001) with 1 in E.
    rewrite E. vm_compute. reflexivity.
Defined.

(** [popLostSeq] returns and removes the lowest position that the list
    holds; on an empty list it returns [SRT_SEQNO_NONE] and changes nothing. *)
Theorem snd_pop (st : t) (S : gset Z) (Hh : holds st S) :
  (S = ∅ /\ popLostSeq st = (st, SRT_SEQNO_NONE)) \/
  exists st' m, m ∈ S /\ (forall x, x ∈ S -> m <= x) /\ popLostSeq st = (st', seq_of m) /\
    holds st' (S ∖ {[m]}) /\ getLossLength st' = getLossLength st - 1.
Proof.
  destruct (pop_holds st S Hh) as (st' & E & Hh' & _). destruct (first_of S) as [m|] eqn:Hm.
  - right. apply first_of_Some in Hm as [Hm Hmin]. exists st', m. split_and!; auto.
    rewrite (snd_holds_length _ _ Hh), (snd_holds_length _ _ Hh'), size_difference by set_solver.
    rewrite size_singleton. pose proof (subseteq_size {[m]} S ltac:(set_solver)) as Hle.
    rewrite size_singleton in Hle. lia.
  - left. apply first_of_None in Hm. split; [done|].
    pose proof (proj1 (holds_empty _ _ Hh) Hm) as H0. unfold popLostSeq. by rewrite H0.
Qed.

Lemma snd_pop_witness : popLostSeq (init 10 (fun _ => 0)) = (init 10 (fun _ => 0), -1).
Proof.
  destruct (snd_pop (init 10 (fun _ => 0)) ∅) as [[_ H]|(st' & m & Hm & _)].
  - apply snd_init_holds. vm_compute. split; [reflexivity|discriminate].
  - exact H.
  - exfalso. apply (not_elem_of_empty (C := gset Z) m Hm).
Defined.

(** [removeUpTo] removes the given position and all earlier ones, cutting
    an interval it falls into, and keeps the others. *)
Theorem snd_removeUpTo (st : t) (S : gset Z) (u lo : Z) (Hh : holds st S)
  (Hu : lo <= u < lo + m_iSize st) (Hf : fits lo (m_iSize st) S) :
  exists st', removeUpTo (seq_of u) st = Some st' /\ holds st' (filter (fun x => u < x) S) /\
    getLossLength st' = Z.of_nat (size (filter (fun x => u < x) S)).
Proof.
  destruct (removeUpTo_holds st S u lo) as (st' & E & Hh' & _); auto.
  exists st'. split_and!; auto. by apply snd_holds_length.
Qed.

Lemma snd_removeUpTo_witness :
  exists st, insert 0x7FFFFFFE 1 (init 10 (fun _ => 0)) = Some (st, 4) /\
    exists st', removeUpTo 0x7FFFFFFF st = Some st' /\ getLossLength st' = 2.
Proof.
  assert (Hf : fits 0x7FFFFFFA 10 (∅ ∪ range 0x7FFFFFFE 0x80000001))
    by (apply (bool_decide_unpack _); vm_compute; exact I).
  destruct (snd_insert_holds (init 10 (fun _ => 0)) ∅ 0x7FFFFFFE 0x80000001 0x7FFFFFFA) as (st & E & Hh & Hs).
  - apply snd_init_holds. vm_compute. split; [reflexivity|discriminate].
  - lia.
  - reflexivity.
  - exact Hf.
  - exists st. change (seq_of 0x7FFFFFFE) with 0x7FFFFFFE in E. change (seq_of 0x80000001) with 1 in E.
    rewrite E. split; [vm_compute; reflexivity|].
    destruct (snd_removeUpTo st _ 0x7FFFFFFF 0x7FFFFFFA Hh) as (st' & E' & _ & Hl).
    + rewrite Hs. simpl. lia.
    + rewrite Hs. exact Hf.
    + exists st'. split; [exact E'|]. rewrite Hl. vm_compute. reflexivity.
Defined.

(** The ranges [insert] rejects, leaving the list as it is and returning
    0: a negative number, a range as long as the list or longer, and a range
    that starts a full list size or more after the first lost number. *)
Theorem snd_insert_rejects (st : t) (s1 s2 : Z)
  (H : s1 < 0 \/ s2 < 0 \/ seqlen s1 s2 <= 0 \/ seqlen s1 s2 >= m_iSize st \/
       m_iLength st <> 0 /\ seqoff (seqstart ((m_caSeq st).[m_iHead st])) s1 >= m_iSize st) :
  insert s1 s2 st = Some (st, 0).
Proof.
  unfold insert. destruct (Z.ltb_spec s1 0); [done|]. destruct (Z.ltb_spec s2 0); [done|].
  destruct (Z.leb_spec (seqlen s1 s2) 0); [done|]. destruct (Z.geb_spec (seqlen s1 s2) (m_iSize st)); [done|].
  destruct H as [?|[?|[?|[?|[G1 G2]]]]]; try lia.
  simpl orb. cbv iota. rewrite (proj2 (Z.eqb_neq _ _) G1).
  destruct (Z.geb_spec (seqoff (seqstart ((m_caSeq st).[m_iHead st])) s1) (m_iSize st)); [done|lia].
Qed.

Lemma snd_insert_rejects_witness : insert 5 20 (init 10 (fun _ => 0)) = Some (init 10 (fun _ => 0), 0).
Proof. apply (snd_insert_rejects (init 10 (fun _ => 0)) 5 20). vm_compute. intuition discriminate. Defined.

(** C12. Refinement: for every sequence of operations whose numbers fit into
    the list at each step, the linked ring computes what the same operations
    compute on the plain set of positions, each returned value included, and
    no operation fails to return. *)
Theorem snd_refines_set (st : t) (S : gset Z) (ops : list op) (Hh : holds st S)
  (Ha : all_allowed (m_iSize st) S ops) :
  exists st', run st ops = Some (st', (spec_run S ops).2) /\ holds st' (spec_run S ops).1.
Proof.
  revert st S Hh Ha. induction ops as [|o ops IH]; intros st S Hh Ha; simpl.
  - exists st. auto.
  - destruct Ha as [Ho Ha]. destruct (step_refines st S o Hh Ho) as (st1 & E & Hh1 & Hs).
    rewrite <- Hs in Ha. destruct (IH st1 _ Hh1 Ha) as (st2 & E2 & Hh2).
    rewrite E. simpl. rewrite E2. exists st2. simpl.
    destruct (spec_step S o) as [S1 r]. simpl in *. by destruct (spec_run S1 ops).
Qed.

Lemma snd_refines_set_witness :
  exists st', run (init 10 (fun _ => 0))
    [Insert 0x80000001 0x80000003; Insert 0x7FFFFFFE 0x7FFFFFFF; Insert 0x7FFFFFFF 0x80000001; Pop;
     RemoveUpTo 0x80000001; Pop] = Some (st', [3; 2; 1; 0x7FFFFFFE; 0; 2]).
Proof.
  destruct (snd_refines_set (init 10 (fun _ => 0)) ∅
    [Insert 0x80000001 0x80000003; Insert 0x7FFFFFFE 0x7FFFFFFF; Insert 0x7FFFFFFF 0x80000001; Pop;
     RemoveUpTo 0x80000001; Pop]) as (st' & E & _).
  - apply snd_init_holds. vm_compute. split; [reflexivity|discriminate].
  - repeat first [exact I | split; [exists 0x7FFFFFFC; apply (bool_decide_unpack _); vm_compute; exact I|]].
  - exists st'. rewrite E. vm_compute. reflexivity.
Defined.
