(* ===== verification/RcvLossList.v ===== *)
(** [CRcvLossList] of srtcore/list.cpp: the receiver's loss list, a doubly
    linked list of intervals in a ring of [m_iSize] slots, filled in ascending
    order and emptied at any place. *)
From S2P Require Import Prelude SeqNo Slots.
Import CSeqNo.

Module CRcvLossList.
Record Seq := mkSeq { seqstart : Z; seqend : Z; inext : Z; iprior : Z }.

Record t := mk {
  m_caSeq : list Seq;
  m_iHead : Z;
  m_iTail : Z;
  m_iLength : Z;
  m_iSize : Z;
  m_iLargestSeq : Z;
}.

#[export] Instance Seq_inhabited : Inhabited Seq := populate (mkSeq 0 0 0 0).
#[export] Instance Seq_node : SlotNode Seq :=
  {| nstart := seqstart; nend := seqend; nnext := inext; nprior := fun n z => iprior n = z |}.

(** Assignments to one field of one slot, and to the members. *)
Definition put_start (i v : Z) (l : list Seq) : list Seq :=
  aupd l i (fun n => mkSeq v (seqend n) (inext n) (iprior n)).
Definition put_end (i v : Z) (l : list Seq) : list Seq :=
  aupd l i (fun n => mkSeq (seqstart n) v (inext n) (iprior n)).
Definition put_next (i v : Z) (l : list Seq) : list Seq :=
  aupd l i (fun n => mkSeq (seqstart n) (seqend n) v (iprior n)).
Definition put_prior (i v : Z) (l : list Seq) : list Seq :=
  aupd l i (fun n => mkSeq (seqstart n) (seqend n) (inext n) v).

Definition set_caSeq (f : list Seq -> list Seq) (st : t) : t :=
  mk (f (m_caSeq st)) (m_iHead st) (m_iTail st) (m_iLength st) (m_iSize st) (m_iLargestSeq st).
Definition set_iHead (v : Z) (st : t) : t :=
  mk (m_caSeq st) v (m_iTail st) (m_iLength st) (m_iSize st) (m_iLargestSeq st).
Definition set_iTail (v : Z) (st : t) : t :=
  mk (m_caSeq st) (m_iHead st) v (m_iLength st) (m_iSize st) (m_iLargestSeq st).
Definition add_iLength (d : Z) (st : t) : t :=
  mk (m_caSeq st) (m_iHead st) (m_iTail st) (m_iLength st + d) (m_iSize st) (m_iLargestSeq st).
Definition set_iLargestSeq (v : Z) (st : t) : t :=
  mk (m_caSeq st) (m_iHead st) (m_iTail st) (m_iLength st) (m_iSize st) v.

(** The constructor leaves the links of the slots unset. *)
Definition init (size : Z) (links : Z -> Z * Z) : t :=
  mk (map (fun i => let l := links (Z.of_nat i) in mkSeq SRT_SEQNO_NONE SRT_SEQNO_NONE l.1 l.2)
       (seq 0 (Z.to_nat size)))
     (-1) (-1) 0 size SRT_SEQNO_NONE.

Definition getLossLength (st : t) : Z := m_iLength st.

Definition getFirstLostSeq (st : t) : Z :=
  if m_iLength st =? 0 then SRT_SEQNO_NONE else seqstart ((m_caSeq st).[m_iHead st]).

(** [insert] after the adjustment of [seqno1]. *)
Definition insert_new (seqno1 seqno2 : Z) (st : t) : t * Z :=
  let st := set_iLargestSeq seqno2 st in
  if m_iLength st =? 0 then
    let st := set_iTail 0 (set_iHead 0 st) in
    let head := m_iHead st in
    let st := set_caSeq (put_start head seqno1) st in
    let st := if negb (seqno2 =? seqno1) then set_caSeq (put_end head seqno2) st else st in
    let st := set_caSeq (put_next head (-1)) st in
    let st := set_caSeq (put_prior head (-1)) st in
    let n := seqlen seqno1 seqno2 in
    (add_iLength n st, n)
  else
  let offset := seqoff (seqstart ((m_caSeq st).[m_iHead st])) seqno1 in
  if offset <? 0 then (st, -1)
  else
  let loc := Z.rem (m_iHead st + offset) (m_iSize st) in
  let tail := m_iTail st in
  let tail_end := seqend ((m_caSeq st).[tail]) in
  let st :=
    if negb (tail_end =? SRT_SEQNO_NONE) && (incseq tail_end =? seqno1)
    then set_caSeq (put_end tail seqno2) st
    else
      let st := set_caSeq (put_start loc seqno1) st in
      let st := if negb (seqno2 =? seqno1) then set_caSeq (put_end loc seqno2) st else st in
      let st := set_caSeq (put_next tail loc) st in
      let st := set_caSeq (put_prior loc tail) st in
      let st := set_caSeq (put_next loc (-1)) st in
      set_iTail loc st in
  let n := seqlen seqno1 seqno2 in
  (add_iLength n st, n).

Definition insert (seqno1 seqno2 : Z) (st : t) : t * Z :=
  let largest := m_iLargestSeq st in
  if negb (largest =? SRT_SEQNO_NONE) && (seqcmp seqno1 largest <=? 0) then
    if seqcmp seqno2 largest >? 0 then insert_new (incseq largest) seqno2 st
    else (st, 0)
  else insert_new seqno1 seqno2 st.

(** The backward search for the node that starts before [loc]. *)
Definition back_step (st : t) (i : Z) : Z + Z :=
  if seqstart ((m_caSeq st).[i]) =? SRT_SEQNO_NONE
  then inl (Z.rem (i - 1 + m_iSize st) (m_iSize st)) else inr i.

Definition fuel (st : t) : nat := S (length (m_caSeq st)).

(** The end of every successful removal. *)
Definition removed (st : t) : option (t * bool) :=
  let st := add_iLength (-1) st in
  Some (if m_iLength st =? 0 then set_iLargestSeq SRT_SEQNO_NONE st else st, true).

(** [remove] after the update of [m_iLargestSeq]. *)
Definition remove_found (seqno : Z) (st : t) : option (t * bool) :=
  if m_iLength st =? 0 then Some (st, false)
  else
  let head := m_iHead st in
  let offset := seqoff (seqstart ((m_caSeq st).[head])) seqno in
  if offset <? 0 then Some (st, false)
  else
  let loc := Z.rem (head + offset) (m_iSize st) in
  let n := (m_caSeq st).[loc] in
  if seqno =? seqstart n then
    if seqend n =? SRT_SEQNO_NONE then
      let st :=
        if head =? loc then
          let st := set_iHead (inext n) st in
          if negb (m_iHead st =? -1) then set_caSeq (put_prior (m_iHead st) (-1)) st
          else set_iTail (-1) st
        else
          let st := set_caSeq (put_next (iprior n) (inext n)) st in
          let n := (m_caSeq st).[loc] in
          if negb (inext n =? -1) then set_caSeq (put_prior (inext n) (iprior n)) st
          else set_iTail (iprior n) st in
      removed (set_caSeq (put_start loc SRT_SEQNO_NONE) st)
    else
      let i := Z.rem (loc + 1) (m_iSize st) in
      let st := set_caSeq (put_start i (incseq (seqstart n))) st in
      let st := if seqcmp (seqend ((m_caSeq st).[loc])) (incseq (seqstart ((m_caSeq st).[loc]))) >? 0
                then set_caSeq (put_end i (seqend ((m_caSeq st).[loc]))) st else st in
      let st := set_caSeq (put_start loc SRT_SEQNO_NONE) st in
      let st := set_caSeq (put_end loc SRT_SEQNO_NONE) st in
      let st := set_caSeq (put_next i (inext ((m_caSeq st).[loc]))) st in
      let st := set_caSeq (put_prior i (iprior ((m_caSeq st).[loc]))) st in
      let st := if m_iHead st =? loc then set_iHead i st
                else set_caSeq (put_next (iprior ((m_caSeq st).[i])) i) st in
      let st := if m_iTail st =? loc then set_iTail i st
                else set_caSeq (put_prior (inext ((m_caSeq st).[i])) i) st in
      removed st
  else
  i ← loop (fuel st) (back_step st) (Z.rem (loc - 1 + m_iSize st) (m_iSize st));
  let n := (m_caSeq st).[i] in
  if (seqend n =? SRT_SEQNO_NONE) || (seqcmp seqno (seqend n) >? 0) then Some (st, false)
  else if seqno =? seqend n then
    removed (if seqno =? incseq (seqstart n)
             then set_caSeq (put_end i SRT_SEQNO_NONE) st
             else set_caSeq (put_end i (decseq seqno)) st)
  else
    let loc := Z.rem (loc + 1) (m_iSize st) in
    let st := set_caSeq (put_start loc (incseq seqno)) st in
    let st := if seqcmp (seqend ((m_caSeq st).[i])) (seqstart ((m_caSeq st).[loc])) >? 0
              then set_caSeq (put_end loc (seqend ((m_caSeq st).[i]))) st else st in
    let st := if seqno =? incseq (seqstart ((m_caSeq st).[i]))
              then set_caSeq (put_end i SRT_SEQNO_NONE) st
              else set_caSeq (put_end i (decseq seqno)) st in
    let st := set_caSeq (put_next loc (inext ((m_caSeq st).[i]))) st in
    let st := set_caSeq (put_next i loc) st in
    let st := set_caSeq (put_prior loc i) st in
    let st := if m_iTail st =? i then set_iTail loc st
              else set_caSeq (put_prior (inext ((m_caSeq st).[loc])) loc) st in
    removed st.

Definition remove (seqno : Z) (st : t) : option (t * bool) :=
  let largest := m_iLargestSeq st in
  let st := if (largest =? SRT_SEQNO_NONE) || (seqcmp seqno largest >? 0)
            then set_iLargestSeq seqno st else st in
  remove_found seqno st.

(** The loop [for (i = first; i <=% last; ++i) remove(i)]; it makes one
    iteration for each number from [first] to [last]. *)
Definition remove_step (last : Z) (s : option t * Z) : (option t * Z) + option t :=
  let (st, i) := s in
  if seqcmp i last <=? 0
  then inl (st' ← st; r ← remove i st'; Some r.1, incseq i) else inr st.

Definition remove_all (first last : Z) (st : t) : option t :=
  mjoin (loop (S (Z.to_nat (seqlen first last))) (remove_step last) (Some st, first)).

Definition remove_range (seqno1 seqno2 : Z) (st : t) : option (t * bool) :=
  if seqcmp seqno1 seqno2 >? 0 then Some (st, false)
  else st' ← remove_all seqno1 seqno2 st; Some (st', true).

Definition removeUpTo (seqno_last : Z) (st : t) : option (t * Z) :=
  let first := getFirstLostSeq st in
  if first =? SRT_SEQNO_NONE then Some (st, first)
  else if seqcmp seqno_last first <? 0 then Some (st, first)
  else st' ← remove_all first seqno_last st; Some (st', first).

Definition find_step (st : t) (seqno1 seqno2 p : Z) : Z + bool :=
  if negb (p =? -1) then
    let n := (m_caSeq st).[p] in
    if (seqcmp (seqstart n) seqno1 =? 0)
       || ((seqcmp (seqstart n) seqno1 >? 0) && (seqcmp (seqstart n) seqno2 <=? 0))
       || ((seqcmp (seqstart n) seqno1 <? 0) && negb (seqend n =? SRT_SEQNO_NONE)
           && (seqcmp (seqend n) seqno1 >=? 0))
    then inr true else inl (inext n)
  else inr false.

Definition find (seqno1 seqno2 : Z) (st : t) : option bool :=
  if m_iLength st =? 0 then Some false
  else loop (fuel st) (find_step st seqno1 seqno2) (m_iHead st).

(** [LOSSDATA_SEQNO_RANGE_FIRST], the top bit of an [int32_t] word. *)
Definition LOSSDATA_SEQNO_RANGE_FIRST : Z := 2 ^ 31.

(** [array] is the part of the buffer written so far, [array[0 .. len-1]]. *)
Definition loss_step (st : t) (limit : Z) (s : list Z * Z) : (list Z * Z) + list Z :=
  let (array, i) := s in
  if (zlen array <? limit - 1) && negb (i =? -1) then
    let n := (m_caSeq st).[i] in
    if negb (seqend n =? SRT_SEQNO_NONE)
    then inl (array ++ [Z.lor (seqstart n) LOSSDATA_SEQNO_RANGE_FIRST; seqend n], inext n)
    else inl (array ++ [seqstart n], inext n)
  else inr array.

Definition getLossArray (limit : Z) (st : t) : option (list Z) :=
  loop (fuel st) (loss_step st limit) ([], m_iHead st).
End CRcvLossList.
Import CRcvLossList.

(** ** Representation *)

Ltac sst := unfold set_caSeq, set_iHead, set_iTail, add_iLength, set_iLargestSeq in *;
  cbn [m_caSeq m_iHead m_iTail m_iLength m_iSize m_iLargestSeq] in *.

(** Reading an array after one assignment, at any slot. *)
Section Get.
Context (arr : list Seq) (i v p : Z) (Hp : 0 <= p < zlen arr).

Lemma get_aupd (f : Seq -> Seq) : (aupd arr i f).[p] = if p =? i then f (arr.[p]) else arr.[p].
Proof. destruct (Z.eqb_spec p i) as [->|]; by arr. Qed.

Lemma get_put_start : (put_start i v arr).[p] =
  let n := arr.[p] in mkSeq (if p =? i then v else seqstart n) (seqend n) (inext n) (iprior n).
Proof. unfold put_start. rewrite get_aupd. cbv zeta. by destruct (p =? i), (arr.[p]). Qed.
Lemma get_put_end : (put_end i v arr).[p] =
  let n := arr.[p] in mkSeq (seqstart n) (if p =? i then v else seqend n) (inext n) (iprior n).
Proof. unfold put_end. rewrite get_aupd. cbv zeta. by destruct (p =? i), (arr.[p]). Qed.
Lemma get_put_next : (put_next i v arr).[p] =
  let n := arr.[p] in mkSeq (seqstart n) (seqend n) (if p =? i then v else inext n) (iprior n).
Proof. unfold put_next. rewrite get_aupd. cbv zeta. by destruct (p =? i), (arr.[p]). Qed.
Lemma get_put_prior : (put_prior i v arr).[p] =
  let n := arr.[p] in mkSeq (seqstart n) (seqend n) (inext n) (if p =? i then v else iprior n).
Proof. unfold put_prior. rewrite get_aupd. cbv zeta. by destruct (p =? i), (arr.[p]). Qed.
End Get.

Lemma length_put_start i v arr : length (put_start i v arr) = length arr.
Proof. apply length_aupd. Qed.
Lemma length_put_end i v arr : length (put_end i v arr) = length arr.
Proof. apply length_aupd. Qed.
Lemma length_put_next i v arr : length (put_next i v arr) = length arr.
Proof. apply length_aupd. Qed.
Lemma length_put_prior i v arr : length (put_prior i v arr) = length arr.
Proof. apply length_aupd. Qed.

Lemma put_prior_none v arr : put_prior (-1) v arr = arr.
Proof. done. Qed.
Lemma put_next_none v arr : put_next (-1) v arr = arr.
Proof. done. Qed.

Ltac len := repeat first
  [ rewrite length_put_start | rewrite length_put_end | rewrite length_put_next | rewrite length_put_prior ].
Ltac getput := repeat first
  [ rewrite get_put_start by (len; lia) | rewrite get_put_end by (len; lia)
  | rewrite get_put_next by (len; lia) | rewrite get_put_prior by (len; lia) ];
  cbv zeta; cbn [seqstart seqend inext iprior].

(** Deciding the slot comparisons from the inequalities in the context. *)
Ltac slot_eqb := repeat match goal with
  | |- context [?x =? ?x] => rewrite (Z.eqb_refl x)
  | |- context [?x =? ?y] => rewrite (proj2 (Z.eqb_neq x y)) by lia
  end; cbv iota.

Section Rep.
Context (c lo : Z).
Local Notation pos st := (pos (m_iSize st) c).
Local Notation hd_pos st := (hd_pos (m_iSize st) c).
Local Notation last_pos st := (last_pos (m_iSize st) c).
Local Notation at_pos st := (at_pos (m_iSize st) c).
Local Notation hi st := (lo + m_iSize st).

Record rep (st : t) (l : list (Z * Z)) : Prop := {
  r_size : 0 < m_iSize st <= m_iSeqNoTH;
  r_ok : ivs_ok lo (hi st) l;
  r_layout : layout (m_iSize st) c (m_caSeq st) l;
  r_head : m_iHead st = hd_pos st l (-1);
  r_tail : m_iTail st = last_pos st (-1) l;
  r_len : m_iLength st = ivs_len l;
}.

Lemma rcv_rep_starts st l : rep st l -> starts_ok lo (hi st) l.
Proof. intros []. by apply ivs_ok_starts. Qed.

(** Replacing part of the list, with its links. *)
Lemma relink_rep st l1 m m' l2 st' : rep st (l1 ++ m ++ l2) -> ivs_ok lo (hi st) (l1 ++ m' ++ l2) ->
  let pr := last_pos st (-1) l1 in let nx := hd_pos st l2 (-1) in
  zlen (m_caSeq st') = m_iSize st ->
  (forall p, 0 <= p < m_iSize st -> ~ at_pos st m p -> ~ at_pos st m' p ->
     let n := (m_caSeq st).[p] in
     (m_caSeq st').[p] = mkSeq (seqstart n) (seqend n)
       (if p =? pr then hd_pos st (m' ++ l2) (-1) else inext n)
       (if p =? nx then last_pos st pr m' else iprior n)) ->
  (forall p, 0 <= p < m_iSize st -> at_pos st m p \/ at_pos st m' p ->
     slot_is (slot (m_iSize st) c pr m' nx p) ((m_caSeq st').[p])) ->
  st' = mk (m_caSeq st') (hd_pos st (l1 ++ m' ++ l2) (-1)) (last_pos st (-1) (l1 ++ m' ++ l2))
    (ivs_len (l1 ++ m' ++ l2)) (m_iSize st) (m_iLargestSeq st') ->
  rep st' (l1 ++ m' ++ l2).
Proof.
  intros [Hs Hok Hl Hh Ht Hlen] Hok' pr nx Hlen' HB HC ->. cbn [m_caSeq] in *.
  set (arr' := m_caSeq st') in *. clearbody arr'. constructor; sst; auto.
  apply (layout_relink (m_iSize st) c ltac:(lia) lo (hi st) (m_caSeq st) arr' l1 m m' l2); auto.
  - lia.
  - by apply ivs_ok_starts.
  - by apply ivs_ok_starts.
  - intros p Hp Hm Hm'. rewrite (HB p Hp Hm Hm'). simpl. split_and!; auto.
    intros z ->. done.
  - intros p Hp. apply HC; [|done]. destruct Hp as [(a & b & _ & <-)|(a & b & _ & <-)]; apply pos_bound; lia.
Qed.

Lemma hd_pos_cases st l : 0 < m_iSize st ->
  l = [] /\ hd_pos st l (-1) = -1 \/
  l <> [] /\ 0 <= hd_pos st l (-1) < m_iSize st /\ at_pos st l (hd_pos st l (-1)).
Proof.
  intros Hs. destruct l as [|[a b] r]; [by left|right]. split_and!; [done|..|by apply hd_pos_at].
  all: simpl; by apply pos_bound.
Qed.

Lemma last_pos_cases st l : 0 < m_iSize st ->
  l = [] /\ last_pos st (-1) l = -1 \/
  l <> [] /\ 0 <= last_pos st (-1) l < m_iSize st /\ at_pos st l (last_pos st (-1) l).
Proof.
  intros Hs. destruct l as [|iv r]; [by left|right].
  pose proof (last_pos_at (m_iSize st) c (iv :: r) (-1) ltac:(done)) as H.
  split_and!; [done|..|done]; destruct H as (a & b & _ & <-); by apply pos_bound.
Qed.

(** A node in the middle of the list and its surroundings. *)
Lemma around st l1 a b l2 : rep st (l1 ++ (a, b) :: l2) ->
  let pr := last_pos st (-1) l1 in let nx := hd_pos st l2 (-1) in
  (m_caSeq st).[pos st a] = mkSeq (seq_of a) (end_code a b) nx pr /\
  (lo <= a <= b /\ b < hi st) /\
  (forall x, a <= x <= b -> pos st x <> pr /\ pos st x <> nx) /\
  (forall x, a < x <= b -> pos st x <> pos st a /\
     seqstart ((m_caSeq st).[pos st x]) = SRT_SEQNO_NONE /\
     seqend ((m_caSeq st).[pos st x]) = SRT_SEQNO_NONE) /\
  (pr = -1 \/ pr <> nx).
Proof.
  intros Hrep. pose proof (rcv_rep_starts _ _ Hrep) as Hst. pose proof (r_layout _ _ Hrep) as Hl.
  pose proof (r_size _ _ Hrep) as Hs. assert (Hsz : 0 < m_iSize st) by lia. cbv zeta.
  destruct (layout_slot _ c Hsz lo _ _ l1 a b l2 ltac:(reflexivity) Hst Hl) as (E1 & E2 & E3 & E4).
  cbn [nstart nend nnext nprior Seq_node] in *.
  pose proof (r_ok _ _ Hrep) as Hok. apply ivs_ok_app in Hok as [H1 H2]. simpl in H2.
  pose proof (last_end_bound lo (hi st) l1 ltac:(lia) H1).
  assert (Hl1 : forall y e, (y, e) ∈ l1 -> lo <= y < last_end lo l1).
  { intros y e Hin. pose proof (starts_ok_last _ _ _ _ _ (ivs_ok_starts _ _ _ H1) Hin).
    pose proof (starts_ok_elem _ _ _ _ _ (ivs_ok_starts _ _ _ H1) Hin).
    pose proof (last_start_le_end lo (hi st) l1 ltac:(lia) H1). lia. }
  assert (Hl2 : forall y e, (y, e) ∈ l2 -> b < y < hi st).
  { intros y e Hin. pose proof (starts_ok_elem _ _ _ _ _ (ivs_ok_starts _ _ _ (proj2 (proj2 (proj2 H2)))) Hin). lia. }
  split_and!; try lia.
  - destruct ((m_caSeq st).[pos st a]). simpl in *. congruence.
  - intros x Hx. pose proof (pos_bound (m_iSize st) c Hsz x). split.
    + destruct (last_pos_cases st l1 Hsz) as [[_ E]|(_ & _ & y & e & Hin & E)]; [lia|].
      specialize (Hl1 _ _ Hin). rewrite <- E. intros E'%pos_inj; lia.
    + destruct (hd_pos_cases st l2 Hsz) as [[_ E]|(_ & _ & y & e & Hin & E)]; [lia|].
      specialize (Hl2 _ _ Hin). rewrite <- E. intros E'%pos_inj; lia.
  - intros x Hx. split; [intros E'%pos_inj; lia|].
    assert (Hn : forall e, (x, e) ∉ l1 ++ (a, b) :: l2); [|exact (layout_free _ c Hsz lo (hi st) _ _ x ltac:(lia) ltac:(lia) Hst Hn Hl)].
    intros e [Hin|[[= -> ->]|Hin]%elem_of_cons]%elem_of_app; [|lia|].
    + specialize (Hl1 _ _ Hin). lia.
    + specialize (Hl2 _ _ Hin). lia.
  - destruct (last_pos_cases st l1 Hsz) as [[_ E]|(_ & ? & y & e & Hin & E)]; [by left|right].
    destruct (hd_pos_cases st l2 Hsz) as [[_ E']|(_ & ? & y' & e' & Hin' & E')]; [lia|].
    specialize (Hl1 _ _ Hin). specialize (Hl2 _ _ Hin'). rewrite <- E, <- E'. intros E''%pos_inj; lia.
Qed.

Lemma around_next st l1 iv l2 : rep st (l1 ++ iv :: l2) -> l1 <> [] ->
  inext ((m_caSeq st).[last_pos st (-1) l1]) = pos st iv.1.
Proof.
  intros Hrep Hne. destruct l1 as [|[x y] l1] using rev_ind; [done|]. clear IHl1 Hne.
  rewrite last_pos_app. simpl. rewrite <- app_assoc in Hrep.
  destruct (around _ _ _ _ _ Hrep) as [-> _]. simpl. by destruct iv.
Qed.

Lemma around_prior st l1 iv l2 : rep st (l1 ++ iv :: l2) -> l2 <> [] ->
  iprior ((m_caSeq st).[hd_pos st l2 (-1)]) = pos st iv.1.
Proof.
  intros Hrep Hne. destruct l2 as [|[x y] l2]; [done|]. simpl. rewrite cons_middle, app_assoc in Hrep.
  destruct (around _ _ _ _ _ Hrep) as [-> _]. simpl. rewrite last_pos_app. by destruct iv.
Qed.

Definition is_nil {A} (l : list A) : bool := match l with [] => true | _ => false end.

Lemma head_test st l1 a b l2 : rep st (l1 ++ (a, b) :: l2) -> (m_iHead st =? pos st a) = is_nil l1.
Proof.
  intros Hrep. rewrite (r_head _ _ Hrep). pose proof (r_size _ _ Hrep).
  destruct l1 as [|[x y] l1]; simpl; [apply Z.eqb_refl|]. apply Z.eqb_neq. intros E.
  apply (at_pos_disjoint (m_iSize st) c ltac:(lia) lo (hi st) ((x, y) :: l1) ((a, b) :: l2) (pos st a)).
  - lia.
  - by apply rcv_rep_starts.
  - rewrite at_pos_cons. by left.
  - rewrite at_pos_cons. by left.
Qed.

Lemma tail_test st l1 a b l2 : rep st (l1 ++ (a, b) :: l2) -> (m_iTail st =? pos st a) = is_nil l2.
Proof.
  intros Hrep. rewrite (r_tail _ _ Hrep). pose proof (r_size _ _ Hrep). rewrite last_pos_app. simpl.
  destruct l2 as [|[x y] l2]; simpl; [apply Z.eqb_refl|]. apply Z.eqb_neq. intros E.
  rewrite cons_middle, app_assoc in Hrep.
  apply (at_pos_disjoint (m_iSize st) c ltac:(lia) lo (hi st) (l1 ++ [(a, b)]) ((x, y) :: l2) (pos st a)).
  - lia.
  - by apply rcv_rep_starts.
  - rewrite at_pos_app, at_pos_cons. auto.
  - rewrite <- E. change (last_pos st (pos st x) l2) with (last_pos st 0 ((x, y) :: l2)).
    by apply last_pos_at.
Qed.

Lemma nx_test st l : 0 < m_iSize st -> (hd_pos st l (-1) =? -1) = is_nil l.
Proof. intros Hs. rewrite hd_pos_none by done. by destruct l. Qed.

Lemma r_head_app st l1 l2 l3 : rep st (l1 ++ l2) -> l1 <> [] -> hd_pos st (l1 ++ l3) (-1) = m_iHead st.
Proof. intros Hrep Hne. rewrite (r_head _ _ Hrep), !hd_pos_app. by destruct l1 as [|[]]. Qed.

(** The outcome of a removal that finds the number. *)
Definition removed_from (st : t) (l : list (Z * Z)) (x : Z) (r : option (t * bool)) : Prop :=
  exists st' l', r = Some (st', true) /\ rep st' l' /\ m_iSize st' = m_iSize st /\
    ivs_set l' = ivs_set l ∖ {[x]} /\
    m_iLargestSeq st' = if m_iLength st' =? 0 then SRT_SEQNO_NONE else m_iLargestSeq st.

Lemma removed_finish st l1 a b l2 x m' st1 :
  rep st (l1 ++ (a, b) :: l2) -> a <= x <= b ->
  m' = (if a <? x then [(a, x - 1)] else []) ++ (if x <? b then [(x + 1, b)] else []) ->
  zlen (m_caSeq st1) = m_iSize st ->
  (forall p, 0 <= p < m_iSize st -> ~ at_pos st [(a, b)] p -> ~ at_pos st m' p ->
     let n := (m_caSeq st).[p] in
     (m_caSeq st1).[p] = mkSeq (seqstart n) (seqend n)
       (if p =? last_pos st (-1) l1 then hd_pos st (m' ++ l2) (-1) else inext n)
       (if p =? hd_pos st l2 (-1) then last_pos st (last_pos st (-1) l1) m' else iprior n)) ->
  (forall p, 0 <= p < m_iSize st -> at_pos st [(a, b)] p \/ at_pos st m' p ->
     slot_is (slot (m_iSize st) c (last_pos st (-1) l1) m' (hd_pos st l2 (-1)) p) ((m_caSeq st1).[p])) ->
  st1 = mk (m_caSeq st1) (hd_pos st (l1 ++ m' ++ l2) (-1)) (last_pos st (-1) (l1 ++ m' ++ l2))
    (m_iLength st) (m_iSize st) (m_iLargestSeq st) ->
  removed_from st (l1 ++ (a, b) :: l2) x (removed st1).
Proof.
  intros Hrep Hx Hm' Hlen HB HC Hst1.
  pose proof (r_ok _ _ Hrep) as Hok. apply ivs_ok_app in Hok as [H1 H2]. simpl in H2.
  pose proof (r_size _ _ Hrep).
  assert (Hok' : ivs_ok lo (hi st) (l1 ++ m' ++ l2)).
  { apply ivs_ok_app. split; [done|]. subst m'. clear - H2 Hx.
    assert (forall d, d <= b + 1 -> ivs_ok d (hi st) l2) by (intros d Hd; apply (ivs_ok_weaken (b + 1) _ (hi st)); [lia..|tauto]).
    destruct (Z.ltb_spec a x), (Z.ltb_spec x b); simpl; repeat split; try lia; apply H; lia. }
  assert (Hl : ivs_len (l1 ++ m' ++ l2) = m_iLength st - 1).
  { rewrite (r_len _ _ Hrep), !ivs_len_app. simpl. subst m'.
    destruct (Z.ltb_spec a x), (Z.ltb_spec x b); simpl; lia. }
  set (g := if m_iLength st - 1 =? 0 then SRT_SEQNO_NONE else m_iLargestSeq st).
  exists (mk (m_caSeq st1) (hd_pos st (l1 ++ m' ++ l2) (-1)) (last_pos st (-1) (l1 ++ m' ++ l2))
    (m_iLength st - 1) (m_iSize st) g), (l1 ++ m' ++ l2). split_and!; [| |done| |done].
  - unfold removed, g. rewrite Hst1. sst. change (m_iLength st + -1) with (m_iLength st - 1).
    by destruct (m_iLength st - 1 =? 0).
  - eapply (relink_rep st l1 [(a, b)] m' l2); eauto. cbn [m_caSeq m_iLargestSeq]. by rewrite Hl.
  - apply set_eq. intros y. subst m'.
    assert (G1 : forall y, y ∈ ivs_set l1 -> y < a) by (intros z Hz; pose proof (ivs_set_below _ _ _ _ H1 Hz); lia).
    assert (G2 : forall y, y ∈ ivs_set l2 -> b < y).
    { intros z Hz. pose proof (ivs_set_bounds _ _ _ _ (proj2 (proj2 (proj2 H2))) Hz). lia. }
    specialize (G1 y). specialize (G2 y). revert G1 G2.
    destruct (Z.ltb_spec a x), (Z.ltb_spec x b);
      repeat (rewrite ?ivs_set_app, ?elem_of_union, ?elem_of_range, ?elem_of_empty,
        ?elem_of_difference, ?elem_of_singleton; simpl ivs_set); mem_codes; lia.
Qed.

(** The four ways a number leaves its node.  The states are the ones the
    branches of [remove] reach before they call [removed]. *)
Lemma remove_only st l1 x l2 : rep st (l1 ++ (x, x) :: l2) ->
  let pr := last_pos st (-1) l1 in let nx := hd_pos st l2 (-1) in
  removed_from st (l1 ++ (x, x) :: l2) x
    (removed (mk (put_start (pos st x) SRT_SEQNO_NONE (put_prior nx pr (put_next pr nx (m_caSeq st))))
      (hd_pos st (l1 ++ l2) (-1)) (last_pos st (-1) (l1 ++ l2)) (m_iLength st) (m_iSize st) (m_iLargestSeq st))).
Proof.
  intros Hrep pr nx. pose proof (r_size _ _ Hrep). pose proof (proj1 (r_layout _ _ Hrep)) as Hzl.
  destruct (around _ _ _ _ _ Hrep) as (E & _ & Hd & _). destruct (Hd x ltac:(lia)) as [D1 D2].
  fold pr nx in E, D1, D2. assert (pos st x <> pr /\ pos st x <> nx) by done.
  eapply (removed_finish st l1 x x l2 x []); [done|lia|by bdestr|..|reflexivity]; cbn [m_caSeq].
  - len. done.
  - intros p Hp Hn _. not_at_pos. fold pr nx. getput. simpl app. simpl last_pos. fold nx. slot_eqb. done.
  - intros p Hp Hn. at_pos_cases. subst p. getput. rewrite E. simpl. rewrite Z.eqb_refl, end_code_eq. done.
Qed.

Lemma remove_first st l1 x b l2 : rep st (l1 ++ (x, b) :: l2) -> x < b ->
  let pr := last_pos st (-1) l1 in let nx := hd_pos st l2 (-1) in let i := pos st (x + 1) in
  removed_from st (l1 ++ (x, b) :: l2) x
    (removed (mk (put_prior nx i (put_next pr i (put_prior i pr (put_next i nx
        (put_end (pos st x) SRT_SEQNO_NONE (put_start (pos st x) SRT_SEQNO_NONE
          (put_end i (end_code (x + 1) b) (put_start i (seq_of (x + 1)) (m_caSeq st)))))))))
      (hd_pos st (l1 ++ (x + 1, b) :: l2) (-1)) (last_pos st (-1) (l1 ++ (x + 1, b) :: l2))
      (m_iLength st) (m_iSize st) (m_iLargestSeq st))).
Proof.
  intros Hrep Hb pr nx i. pose proof (r_size _ _ Hrep). pose proof (proj1 (r_layout _ _ Hrep)) as Hzl.
  destruct (around _ _ _ _ _ Hrep) as (E & _ & Hd & Hf & Hpn). destruct (Hd x ltac:(lia)) as [D1 D2].
  destruct (Hd (x + 1) ltac:(lia)) as [D3 D4]. destruct (Hf (x + 1) ltac:(lia)) as (D5 & _).
  fold pr nx in E, D1, D2, D3, D4, Hpn. fold i in D3, D4, D5.
  eapply (removed_finish st l1 x b l2 x [(x + 1, b)]); [done|lia| |..|reflexivity]; cbn [m_caSeq].
  - destruct (Z.ltb_spec x x), (Z.ltb_spec x b); try lia. done.
  - len. done.
  - intros p Hp Hn Hn'. not_at_pos. fold pr nx. getput. simpl app. simpl last_pos. simpl hd_pos. fold i.
    assert (i <> p) by done. slot_eqb. done.
  - intros p Hp Hn. fold pr nx. at_pos_cases; subst p; simpl slot; fold i in Hp |- *;
      slot_eqb; getput; slot_eqb; done.
Qed.

Lemma remove_last st l1 a x l2 : rep st (l1 ++ (a, x) :: l2) -> a < x ->
  removed_from st (l1 ++ (a, x) :: l2) x
    (removed (mk (put_end (pos st a) (end_code a (x - 1)) (m_caSeq st))
      (m_iHead st) (m_iTail st) (m_iLength st) (m_iSize st) (m_iLargestSeq st))).
Proof.
  intros Hrep Hb. set (pr := last_pos st (-1) l1). set (nx := hd_pos st l2 (-1)).
  pose proof (r_size _ _ Hrep). pose proof (proj1 (r_layout _ _ Hrep)) as Hzl.
  destruct (around _ _ _ _ _ Hrep) as (E & _ & Hd & _ & Hpn). destruct (Hd a ltac:(lia)) as [D1 D2].
  fold pr nx in E, D1, D2, Hpn.
  eapply (removed_finish st l1 a x l2 x [(a, x - 1)]); [done|lia| |..]; cbn [m_caSeq].
  - destruct (Z.ltb_spec a x), (Z.ltb_spec x x); try lia. done.
  - len. done.
  - intros p Hp Hn Hn'. not_at_pos. fold pr nx. getput. simpl. slot_eqb.
    destruct (Z.eqb_spec p pr) as [Epr|], (Z.eqb_spec p nx) as [Enx|]; try (by destruct ((m_caSeq st).[p])).
    + lia.
    + destruct l1 as [|iv l1]; [unfold pr in Epr; simpl in Epr; lia|].
      pose proof (around_next st (iv :: l1) (a, x) l2 Hrep ltac:(done)) as EN. fold pr in EN. simpl in EN.
      rewrite Epr, <- EN. by destruct ((m_caSeq st).[pr]).
    + destruct l2 as [|iv l2]; [unfold nx in Enx; simpl in Enx; lia|].
      pose proof (around_prior st l1 (a, x) (iv :: l2) Hrep ltac:(done)) as EN. fold nx in EN. simpl in EN.
      rewrite Enx, <- EN. by destruct ((m_caSeq st).[nx]).
  - intros p Hp Hn. fold pr nx. at_pos_cases; subst p; simpl slot; slot_eqb; getput; rewrite E; slot_eqb; done.
  - rewrite (r_head _ _ Hrep), (r_tail _ _ Hrep), !hd_pos_app, !last_pos_app. done.
Qed.

Lemma remove_inner st l1 a x b l2 : rep st (l1 ++ (a, b) :: l2) -> a < x < b ->
  let nx := hd_pos st l2 (-1) in let j := pos st (x + 1) in
  removed_from st (l1 ++ (a, b) :: l2) x
    (removed (mk (put_prior nx j (put_prior j (pos st a) (put_next (pos st a) j (put_next j nx
        (put_end (pos st a) (end_code a (x - 1)) (put_end j (end_code (x + 1) b)
          (put_start j (seq_of (x + 1)) (m_caSeq st))))))))
      (m_iHead st) (last_pos st (-1) (l1 ++ (x + 1, b) :: l2)) (m_iLength st) (m_iSize st) (m_iLargestSeq st))).
Proof.
  intros Hrep Hb nx j. set (pr := last_pos st (-1) l1).
  pose proof (r_size _ _ Hrep). pose proof (proj1 (r_layout _ _ Hrep)) as Hzl.
  destruct (around _ _ _ _ _ Hrep) as (E & _ & Hd & Hf & Hpn). destruct (Hd a ltac:(lia)) as [D1 D2].
  destruct (Hd (x + 1) ltac:(lia)) as [D3 D4]. destruct (Hf (x + 1) ltac:(lia)) as (D5 & _).
  fold pr nx in E, D1, D2, D3, D4, Hpn. fold j in D3, D4, D5.
  eapply (removed_finish st l1 a b l2 x [(a, x - 1); (x + 1, b)]); [done|lia| |..]; cbn [m_caSeq].
  - destruct (Z.ltb_spec a x), (Z.ltb_spec x b); try lia. done.
  - len. done.
  - intros p Hp Hn Hn'. not_at_pos. fold pr nx. getput. simpl. fold j. assert (j <> p) by done. slot_eqb.
    destruct (Z.eqb_spec p pr) as [Epr|]; [|done].
    destruct l1 as [|iv l1]; [unfold pr in Epr; simpl in Epr; lia|].
    pose proof (around_next st (iv :: l1) (a, b) l2 Hrep ltac:(done)) as EN. fold pr in EN. simpl in EN.
    by rewrite Epr, <- EN.
  - intros p Hp Hn. fold pr nx. at_pos_cases; subst p; simpl slot; fold j in Hp |- *; slot_eqb; getput;
      rewrite ?E; cbn [seqstart seqend inext iprior]; slot_eqb; done.
  - rewrite (r_head _ _ Hrep), !hd_pos_app, !last_pos_app. done.
Qed.

Lemma pos_pred st y : 1 < m_iSize st \/ m_iSize st = 1 -> Z.rem (pos st y - 1 + m_iSize st) (m_iSize st) = pos st (y - 1).
Proof.
  intros Hs. pose proof (pos_bound (m_iSize st) c ltac:(lia) y).
  rewrite rem_nonneg by lia. replace (pos st y - 1 + m_iSize st) with (pos st y + (-1) + 1 * m_iSize st) by lia.
  rewrite Z.mod_add by lia. apply pos_shift.
Qed.

(** The backward search finds the last node that starts at [y] or before. *)
Lemma back_loop n st h k r y : rep st ((h, k) :: r) -> h <= y < hi st -> y - h < Z.of_nat n ->
  exists l1 a b l2, (h, k) :: r = l1 ++ (a, b) :: l2 /\ a <= y /\
    (forall u v l, l2 = (u, v) :: l -> y < u) /\
    loop n (back_step st) (pos st y) = Some (pos st a).
Proof.
  intros Hrep. pose proof (rcv_rep_starts _ _ Hrep) as Hst. pose proof (r_layout _ _ Hrep) as Hl.
  pose proof (r_size _ _ Hrep). assert (Hsz : 0 < m_iSize st) by lia.
  assert (Hh : lo <= h) by (simpl in Hst; lia).
  revert y. induction n as [|n IH]; intros y Hy Hn; [lia|]. simpl loop. unfold back_step at 1.
  destruct (start_dec ((h, k) :: r) y) as [(b & l1 & l2 & E)|Hno].
  - rewrite E in Hst, Hl. destruct (layout_slot _ c Hsz lo _ _ l1 y b l2 ltac:(reflexivity) Hst Hl) as (E1 & _).
    cbn [nstart Seq_node] in E1. rewrite E1.
    rewrite (proj2 (Z.eqb_neq _ SRT_SEQNO_NONE)) by apply seq_of_not_none.
    exists l1, y, b, l2. split_and!; [done|lia| |done].
    intros u v l ->. apply starts_ok_app in Hst as [_ Hst]. simpl in Hst. lia.
  - destruct (layout_free _ c Hsz lo (hi st) _ _ y ltac:(lia) ltac:(lia) Hst Hno Hl) as [E1 _].
    cbn [nstart Seq_node] in E1. rewrite E1, Z.eqb_refl, pos_pred by lia.
    assert (y <> h) by (intros ->; apply (Hno k); by left).
    destruct (IH (y - 1) ltac:(lia) ltac:(lia)) as (l1 & a & b & l2 & E & Ha & Hr & El).
    exists l1, a, b, l2. split_and!; [done|lia| |done].
    intros u v l ->. specialize (Hr u v l eq_refl). assert (u <> y); [|lia].
    intros ->. apply (Hno v). rewrite E. set_solver.
Qed.

Definition new_largest (st : t) (x : Z) : Z :=
  if (m_iLargestSeq st =? SRT_SEQNO_NONE) || (seqcmp (seq_of x) (m_iLargestSeq st) >? 0)
  then seq_of x else m_iLargestSeq st.

Lemma removed_from_eq st l x r r' : removed_from st l x r -> r = r' -> removed_from st l x r'.
Proof. by intros ? <-. Qed.

(** [x] is in the node that starts at [a], after its first number. *)
Lemma remove_after st l1 a b l2 x : rep st (l1 ++ (a, b) :: l2) -> a < x <= b ->
  removed_from st (l1 ++ (a, b) :: l2) x
    (let i := pos st a in let n := (m_caSeq st).[i] in
     if (seqend n =? SRT_SEQNO_NONE) || (seqcmp (seq_of x) (seqend n) >? 0) then Some (st, false)
     else if seq_of x =? seqend n then
       removed (if seq_of x =? incseq (seqstart n)
                then set_caSeq (put_end i SRT_SEQNO_NONE) st
                else set_caSeq (put_end i (decseq (seq_of x))) st)
     else
       let loc := Z.rem (pos st x + 1) (m_iSize st) in
       let st := set_caSeq (put_start loc (incseq (seq_of x))) st in
       let st := if seqcmp (seqend ((m_caSeq st).[i])) (seqstart ((m_caSeq st).[loc])) >? 0
                 then set_caSeq (put_end loc (seqend ((m_caSeq st).[i]))) st else st in
       let st := if seq_of x =? incseq (seqstart ((m_caSeq st).[i]))
                 then set_caSeq (put_end i SRT_SEQNO_NONE) st
                 else set_caSeq (put_end i (decseq (seq_of x))) st in
       let st := set_caSeq (put_next loc (inext ((m_caSeq st).[i]))) st in
       let st := set_caSeq (put_next i loc) st in
       let st := set_caSeq (put_prior loc i) st in
       let st := if m_iTail st =? i then set_iTail loc st
                 else set_caSeq (put_prior (inext ((m_caSeq st).[loc])) loc) st in
       removed st).
Proof.
  intros Hrep Hx. pose proof (r_size _ _ Hrep). pose proof (proj1 (r_layout _ _ Hrep)) as Hzl.
  destruct (around _ _ _ _ _ Hrep) as (E & Hab & Hd & Hf & Hpn). destruct (Hd a ltac:(lia)) as [D1 D2].
  pose proof (pos_bound (m_iSize st) c ltac:(lia) a).
  cbv zeta. rewrite E. cbn [seqstart seqend inext iprior].
  rewrite end_code_none, end_code_ne by lia. autorewrite with seqno.
  destruct (Z.eqb_spec a b); [lia|]. destruct (Z.gtb_spec x b); [lia|]. simpl orb. cbv iota.
  assert (Hend : forall s, (if x =? a + 1 then set_caSeq (put_end (pos st a) SRT_SEQNO_NONE) s
     else set_caSeq (put_end (pos st a) (seq_of (x - 1))) s) = set_caSeq (put_end (pos st a) (end_code a (x - 1))) s).
  { intros s. unfold end_code. destruct (Z.eqb_spec x (a + 1)), (Z.eqb_spec a (x - 1)); try lia; done. }
  destruct (Z.eqb_spec x b) as [->|Hxb].
  { rewrite Hend. apply remove_last; [done|lia]. }
  rewrite pos_succ by lia.
  pose proof (pos_bound (m_iSize st) c ltac:(lia) (x + 1)).
  destruct (Hf (x + 1) ltac:(lia)) as (F1 & F2 & F3).
  set (st1 := if seqcmp _ _ >? 0 then _ else _).
  assert (st1 = set_caSeq (fun arr => put_end (pos st (x + 1)) (end_code (x + 1) b)
     (put_start (pos st (x + 1)) (seq_of (x + 1)) arr)) st) as ->.
  { subst st1. unfold set_caSeq. cbn [m_caSeq m_iHead m_iTail m_iLength m_iSize m_iLargestSeq].
    getput. slot_eqb. rewrite E. cbn [seqend]. rewrite end_code_ne by lia. autorewrite with seqno.
    destruct (Z.gtb_spec b (x + 1)); [by rewrite end_code_ne by lia|].
    assert (b = x + 1) as -> by lia. rewrite end_code_eq. f_equal. symmetry.
    apply aupd_same; [len; lia|]. getput. slot_eqb. by rewrite F3. }
  set (st1 := set_caSeq _ st).
  assert (E1 : seqstart ((m_caSeq st1).[pos st a]) = seq_of a).
  { subst st1. unfold set_caSeq. cbn [m_caSeq]. getput. slot_eqb. by rewrite E. }
  rewrite E1. autorewrite with seqno. rewrite Hend.
  eapply removed_from_eq; [apply (remove_inner st l1 a x b l2 Hrep); lia|].
  f_equal. subst st1. sst. rewrite (tail_test _ _ _ _ _ Hrep).
  destruct (is_nil l2) eqn:Hnil.
  - destruct l2; [|done]. simpl hd_pos. rewrite put_prior_none, last_pos_app. simpl last_pos.
    getput. slot_eqb. rewrite E. done.
  - getput. slot_eqb. rewrite E. cbn [inext]. f_equal.
    rewrite (r_tail _ _ Hrep), !last_pos_app. by destruct l2 as [|[] ?].
Qed.

(** [x] is the first number of its node. *)
Lemma remove_at_start st l1 x b l2 : rep st (l1 ++ (x, b) :: l2) ->
  removed_from st (l1 ++ (x, b) :: l2) x
    (let head := m_iHead st in let loc := pos st x in let n := (m_caSeq st).[loc] in
    if seqend n =? SRT_SEQNO_NONE then
      let st :=
        if head =? loc then
          let st := set_iHead (inext n) st in
          if negb (m_iHead st =? -1) then set_caSeq (put_prior (m_iHead st) (-1)) st
          else set_iTail (-1) st
        else
          let st := set_caSeq (put_next (iprior n) (inext n)) st in
          let n := (m_caSeq st).[loc] in
          if negb (inext n =? -1) then set_caSeq (put_prior (inext n) (iprior n)) st
          else set_iTail (iprior n) st in
      removed (set_caSeq (put_start loc SRT_SEQNO_NONE) st)
    else
      let i := Z.rem (loc + 1) (m_iSize st) in
      let st := set_caSeq (put_start i (incseq (seqstart n))) st in
      let st := if seqcmp (seqend ((m_caSeq st).[loc])) (incseq (seqstart ((m_caSeq st).[loc]))) >? 0
                then set_caSeq (put_end i (seqend ((m_caSeq st).[loc]))) st else st in
      let st := set_caSeq (put_start loc SRT_SEQNO_NONE) st in
      let st := set_caSeq (put_end loc SRT_SEQNO_NONE) st in
      let st := set_caSeq (put_next i (inext ((m_caSeq st).[loc]))) st in
      let st := set_caSeq (put_prior i (iprior ((m_caSeq st).[loc]))) st in
      let st := if m_iHead st =? loc then set_iHead i st
                else set_caSeq (put_next (iprior ((m_caSeq st).[i])) i) st in
      let st := if m_iTail st =? loc then set_iTail i st
                else set_caSeq (put_prior (inext ((m_caSeq st).[i])) i) st in
      removed st).
Proof.
  intros Hrep. pose proof (r_size _ _ Hrep). pose proof (proj1 (r_layout _ _ Hrep)) as Hzl.
  destruct (around _ _ _ _ _ Hrep) as (E & Hab & Hd & Hf & Hpn). destruct (Hd x ltac:(lia)) as [D1 D2].
  pose proof (pos_bound (m_iSize st) c ltac:(lia) x).
  cbv zeta. rewrite E. cbn [seqstart seqend inext iprior].
  rewrite end_code_none, (head_test _ _ _ _ _ Hrep). destruct (Z.eqb_spec x b) as [->|Hxb].
  - eapply removed_from_eq; [apply (remove_only st l1 b l2 Hrep)|]. f_equal.
    destruct (is_nil l1) eqn:Hl1.
    + destruct l1; [|done]. simpl app. simpl last_pos. rewrite put_next_none.
      cbn [m_iHead set_iHead]. rewrite nx_test by lia.
      destruct (is_nil l2) eqn:Hl2; sst; simpl negb; cbv iota; [by destruct l2|].
      rewrite (r_tail _ _ Hrep), !last_pos_app. by destruct l2 as [|[] ?].
    + set (s1 := set_caSeq (put_next _ _) st).
      assert (E1 : (m_caSeq s1).[pos st b] = mkSeq (seq_of b) (end_code b b) (hd_pos st l2 (-1)) (last_pos st (-1) l1)).
      { subst s1. unfold set_caSeq. cbn [m_caSeq]. getput. rewrite E. slot_eqb. done. }
      rewrite E1. cbn [inext iprior]. rewrite nx_test by lia. subst s1.
      rewrite (r_head_app st l1 _ l2 Hrep) by (intros ->; done).
      destruct (is_nil l2) eqn:Hl2; sst; simpl negb; cbv iota.
      * destruct l2; [|done]. by rewrite last_pos_app.
      * rewrite (r_tail _ _ Hrep), !last_pos_app. by destruct l2 as [|[] ?].
  - destruct (Hd (x + 1) ltac:(lia)) as [D3 D4]. destruct (Hf (x + 1) ltac:(lia)) as (F1 & F2 & F3).
    pose proof (pos_bound (m_iSize st) c ltac:(lia) (x + 1)).
    rewrite pos_succ by lia. autorewrite with seqno.
    set (i := pos st (x + 1)) in *. set (nx := hd_pos st l2 (-1)) in *. set (pr := last_pos st (-1) l1) in *.
    set (s1 := if seqcmp _ _ >? 0 then _ else _).
    assert (Es : s1 = set_caSeq (fun arr => put_end i (end_code (x + 1) b) (put_start i (seq_of (x + 1)) arr)) st).
    { subst s1. unfold set_caSeq. cbn [m_caSeq m_iHead m_iTail m_iLength m_iSize m_iLargestSeq].
      getput. slot_eqb. rewrite E. cbn [seqend seqstart]. rewrite end_code_ne by lia. autorewrite with seqno.
      destruct (Z.gtb_spec b (x + 1)); [by rewrite end_code_ne by lia|].
      assert (b = x + 1) as -> by lia. rewrite end_code_eq. f_equal. symmetry.
      apply aupd_same; [len; lia|]. getput. slot_eqb. by rewrite F3. }
    clearbody s1. subst s1.
    set (s2 := set_caSeq (put_end (pos st x) _) _).
    assert (E2 : inext ((m_caSeq s2).[pos st x]) = nx /\ iprior ((m_caSeq s2).[pos st x]) = pr).
    { subst s2. unfold set_caSeq. cbn [m_caSeq]. getput. slot_eqb. rewrite E. done. }
    destruct E2 as [E2 E3]. rewrite E2.
    set (s3 := set_caSeq (put_next i nx) s2).
    assert (E4 : iprior ((m_caSeq s3).[pos st x]) = pr).
    { subst s3 s2. unfold set_caSeq. cbn [m_caSeq]. getput. slot_eqb. rewrite E. done. }
    rewrite E4. set (s4 := set_caSeq (put_prior i pr) s3).
    assert (E5 : inext ((m_caSeq s4).[i]) = nx /\ iprior ((m_caSeq s4).[i]) = pr /\
       m_iHead s4 = m_iHead st /\ m_iTail s4 = m_iTail st).
    { subst s4 s3 s2. unfold set_caSeq. cbn [m_caSeq]. getput. slot_eqb. done. }
    destruct E5 as (E5 & E6 & E7 & E8). rewrite E6, E7, (head_test _ _ _ _ _ Hrep).
    eapply removed_from_eq; [apply (remove_first st l1 x b l2 Hrep); lia|]. f_equal. fold i nx pr.
    set (s5 := if is_nil l1 then _ else _).
    assert (Es5 : s5 = mk (put_next pr i (m_caSeq s4)) (hd_pos st (l1 ++ (x + 1, b) :: l2) (-1))
      (m_iTail st) (m_iLength st) (m_iSize st) (m_iLargestSeq st)).
    { subst s5. destruct (is_nil l1) eqn:Hl1.
      - destruct l1; [|done]. simpl. subst pr s4 s3 s2. sst. by rewrite put_next_none.
      - rewrite (r_head_app st l1 _ ((x + 1, b) :: l2) Hrep) by (intros ->; done). subst s4 s3 s2. by sst. }
    rewrite Es5. cbn [m_iTail m_caSeq]. rewrite (tail_test _ _ _ _ _ Hrep).
    assert (Hz4 : zlen (m_caSeq s4) = m_iSize st).
    { subst s4 s3 s2. unfold set_caSeq. cbn [m_caSeq]. by len. }
    getput. slot_eqb. rewrite E5. subst s4 s3 s2. sst. destruct (is_nil l2) eqn:Hl2.
    + destruct l2; [|done]. simpl in nx. subst nx. by rewrite put_prior_none, last_pos_app.
    + rewrite (r_tail _ _ Hrep), !last_pos_app. by destruct l2 as [|[] ?].
Qed.

Lemma remove_spec st l x : rep st l -> lo <= x < hi st ->
  let st0 := set_iLargestSeq (new_largest st x) st in
  if decide (x ∈ ivs_set l) then removed_from st0 l x (remove (seq_of x) st)
  else remove (seq_of x) st = Some (st0, false).
Proof.
  intros Hrep0 Hx st0. assert (Hrep : rep st0 l) by (by destruct Hrep0).
  change (hi st) with (hi st0) in Hx.
  assert (remove (seq_of x) st = remove_found (seq_of x) st0) as ->.
  { unfold remove, st0, new_largest. f_equal. destruct (_ || _); [done|]. by destruct st. }
  clearbody st0. clear Hrep0 st. rename st0 into st. unfold remove_found.
  pose proof (rcv_rep_starts _ _ Hrep) as Hst. pose proof (r_size _ _ Hrep).
  destruct l as [|[h k] r].
  { destruct (decide _) as [Hin|_]; [set_solver|]. rewrite (r_len _ _ Hrep). done. }
  assert (Hlen : m_iLength st <> 0).
  { pose proof (r_ok _ _ Hrep) as Hok. rewrite (r_len _ _ Hrep). simpl in Hok |- *.
    pose proof (ivs_len_nonneg _ _ _ (proj2 (proj2 (proj2 Hok)))). lia. }
  rewrite (proj2 (Z.eqb_neq _ _) Hlen).
  assert (Hh : m_iHead st = pos st h) by apply (r_head _ _ Hrep).
  destruct (around st [] h k r Hrep) as (E & Hhk & _). simpl in Hst.
  cbv beta zeta delta [remove_found]. rewrite Hh, E. cbn [seqstart]. autorewrite with seqno.
  pose proof (pos_bound (m_iSize st) c ltac:(lia) h).
  destruct (Z.ltb_spec (x - h) 0).
  { destruct (decide _) as [Hin|_]; [|done]. exfalso.
    pose proof (r_ok _ _ Hrep) as Hok. simpl in Hok.
    apply (ivs_set_bounds h (hi st)) in Hin; [lia|]. simpl. intuition lia. }
  rewrite rem_nonneg, pos_shift by lia. replace (h + (x - h)) with x by lia.
  destruct (start_dec ((h, k) :: r) x) as [(b & l1 & l2 & El)|Hno].
  - rewrite El in *. destruct (around _ _ _ _ _ Hrep) as (Ex & Hxb & _).
    rewrite decide_True by (rewrite ivs_set_app; simpl; apply elem_of_union_r, elem_of_union_l, elem_of_range; lia).
    pose proof (remove_at_start _ _ _ _ _ Hrep) as Hres. cbv zeta in Hres.
    rewrite Ex in Hres |- *. cbn [seqstart seqend inext iprior] in Hres |- *.
    rewrite Z.eqb_refl. rewrite Hh in Hres. exact Hres.
  - destruct (layout_free (m_iSize st) c ltac:(lia) lo (hi st) _ _ x ltac:(lia) ltac:(lia) (rcv_rep_starts _ _ Hrep) Hno
      (r_layout _ _ Hrep)) as [F1 _].
    cbn [nstart Seq_node] in F1. rewrite F1.
    rewrite (proj2 (Z.eqb_neq _ SRT_SEQNO_NONE)) by apply seq_of_not_none.
    assert (x <> h) by (intros ->; apply (Hno k); by left).
    rewrite pos_pred by lia. pose proof (proj1 (r_layout _ _ Hrep)) as Hzl.
    destruct (back_loop (fuel st) st h k r (x - 1) Hrep) as (l1 & a & b & l2 & El & Ha & Hr & Eb);
      [lia|unfold fuel; lia|].
    rewrite Eb, bind_Some. rewrite El in *.
    assert (Hr' : forall u v l, l2 = (u, v) :: l -> x < u).
    { intros u v l' ->. specialize (Hr u v l' eq_refl). assert (u <> x); [|lia].
      intros ->. apply (Hno v). set_solver. }
    destruct (decide (x <= b)) as [Hb|Hb].
    + rewrite decide_True by (rewrite ivs_set_app; simpl; apply elem_of_union_r, elem_of_union_l, elem_of_range; lia).
      pose proof (remove_after _ _ _ _ _ x Hrep ltac:(lia)) as Hres. cbv zeta in Hres. autorewrite with seqno in Hres. exact Hres.
    + pose proof (r_ok _ _ Hrep) as Hok. apply ivs_ok_app in Hok as [G1 G2]. simpl in G2.
      rewrite decide_False.
      * destruct (around _ _ _ _ _ Hrep) as (Ea & Hab & _). rewrite Ea. cbn [seqend].
        rewrite end_code_none. destruct (Z.eqb_spec a b); [done|].
        rewrite end_code_ne by done. autorewrite with seqno. by destruct (Z.gtb_spec x b); [|lia].
      * rewrite ivs_set_app. simpl. rewrite !elem_of_union, elem_of_range. intros [Hin|[Hin|Hin]]; [|lia|].
        -- pose proof (ivs_set_below _ _ _ _ G1 Hin). lia.
        -- destruct l2 as [|[u v] l2]; [set_solver|]. specialize (Hr' u v l2 eq_refl).
           apply (ivs_set_bounds u (hi st)) in Hin; [lia|]. simpl in G2 |- *. intuition lia.
Qed.

(** ** Insertion *)

Lemma insert_empty st s1 s2 st1 : rep st [] -> lo <= s1 <= s2 -> s2 < hi st -> pos st s1 = 0 ->
  st1 = mk (put_prior 0 (-1) (put_next 0 (-1)
      ((if negb (seq_of s2 =? seq_of s1) then put_end 0 (seq_of s2) else fun arr => arr) (put_start 0 (seq_of s1) (m_caSeq st)))))
    0 0 (s2 - s1 + 1) (m_iSize st) (m_iLargestSeq st1) ->
  rep st1 [(s1, s2)].
Proof.
  intros Hrep H1 H2 Hp ->. pose proof (r_size _ _ Hrep). pose proof (r_layout _ _ Hrep) as [Hzl Hl].
  assert (F : seqend ((m_caSeq st).[0]) = SRT_SEQNO_NONE) by apply (Hl 0 ltac:(lia)).
  autorewrite with seqno.
  apply (relink_rep st [] [] [(s1, s2)] []); [done|simpl; lia|..]; cbn [m_caSeq m_iLargestSeq].
  - destruct (negb _); by len.
  - intros p Hp' _ Hn. not_at_pos. simpl. assert (0 <> p) by congruence.
    destruct (negb _); getput; slot_eqb; by destruct ((m_caSeq st).[p]).
  - intros p Hp' Hn. at_pos_cases. subst p. rewrite Hp. simpl. rewrite Hp. simpl Z.eqb. cbv iota. simpl.
    destruct (Z.eqb_spec s2 s1) as [->|]; cbn [negb]; cbv iota; cbv beta; getput; slot_eqb.
    + rewrite end_code_eq, F. done.
    + by rewrite end_code_ne by lia.
  - simpl. rewrite Hp. f_equal. lia.
Qed.

(** The two ways a range is appended to a list that is not empty. *)
Lemma extend_tail st l1 a b s2 st1 : rep st (l1 ++ [(a, b)]) -> a < b < s2 -> s2 < hi st ->
  st1 = mk (put_end (pos st a) (seq_of s2) (m_caSeq st)) (m_iHead st) (m_iTail st)
    (m_iLength st + (s2 - b)) (m_iSize st) (m_iLargestSeq st1) ->
  rep st1 (l1 ++ [(a, s2)]).
Proof.
  intros Hrep Hb H2 ->. pose proof (r_size _ _ Hrep). pose proof (proj1 (r_layout _ _ Hrep)) as Hzl.
  destruct (around _ _ _ _ _ Hrep) as (E & Hab & Hd & _). destruct (Hd a ltac:(lia)) as [D1 D2].
  pose proof (r_ok _ _ Hrep) as Hok. apply ivs_ok_app in Hok as [G1 G2]. simpl in G2.
  apply (relink_rep st l1 [(a, b)] [(a, s2)] []); [done| |..]; cbn [m_caSeq m_iLargestSeq].
  - apply ivs_ok_app. split; [done|]. simpl. lia.
  - by len.
  - intros p Hp Hn _. not_at_pos. getput. cbn [hd_pos]. slot_eqb. simpl.
    destruct (Z.eqb_spec p (last_pos st (-1) l1)) as [Epr|]; [|by destruct ((m_caSeq st).[p])].
    destruct l1 as [|iv l1]; [simpl in Epr; lia|].
    pose proof (around_next st (iv :: l1) (a, b) [] Hrep ltac:(done)) as EN.
    rewrite Epr. simpl in EN. rewrite <- EN. by destruct ((m_caSeq st).[_]).
  - intros p Hp Hn. at_pos_cases; subst p; simpl slot; slot_eqb; getput; rewrite E; slot_eqb;
      simpl; rewrite end_code_ne by lia; done.
  - rewrite (r_head _ _ Hrep), (r_tail _ _ Hrep), (r_len _ _ Hrep), !hd_pos_app, !last_pos_app, !ivs_len_app.
    f_equal. simpl. lia.
Qed.

Lemma append_tail st l s1 s2 st1 : rep st l -> l <> [] -> last_end lo l <= s1 <= s2 -> s2 < hi st ->
  st1 = mk (put_next (pos st s1) (-1) (put_prior (pos st s1) (m_iTail st) (put_next (m_iTail st) (pos st s1)
      ((if negb (seq_of s2 =? seq_of s1) then put_end (pos st s1) (seq_of s2) else fun arr => arr)
        (put_start (pos st s1) (seq_of s1) (m_caSeq st))))))
    (m_iHead st) (pos st s1) (m_iLength st + (s2 - s1 + 1)) (m_iSize st) (m_iLargestSeq st1) ->
  rep st1 (l ++ [(s1, s2)]).
Proof.
  intros Hrep Hne Hs H2 ->. pose proof (r_size _ _ Hrep). pose proof (proj1 (r_layout _ _ Hrep)) as Hzl.
  pose proof (r_ok _ _ Hrep) as Hok. pose proof (last_end_bound lo (hi st) l ltac:(lia) Hok).
  assert (Hlt : forall a b, (a, b) ∈ l -> lo <= a < s1).
  { intros a b Hin. pose proof (starts_ok_last _ _ _ _ _ (ivs_ok_starts _ _ _ Hok) Hin).
    pose proof (starts_ok_elem _ _ _ _ _ (ivs_ok_starts _ _ _ Hok) Hin).
    pose proof (last_start_le_end lo (hi st) l ltac:(lia) Hok). lia. }
  assert (Hno : forall b, (s1, b) ∉ l) by (intros b Hin; specialize (Hlt _ _ Hin); lia).
  destruct (layout_free (m_iSize st) c ltac:(lia) lo (hi st) _ l s1 ltac:(lia) ltac:(lia) (rcv_rep_starts _ _ Hrep)
    Hno (r_layout _ _ Hrep)) as [_ F].
  cbn [nend Seq_node] in F. pose proof (pos_bound (m_iSize st) c ltac:(lia) s1).
  rewrite (r_tail _ _ Hrep). destruct (last_pos_cases st l ltac:(lia)) as [[? _]|(_ & Hpr & a & b & Hin & Ea)]; [done|].
  assert (Hpne : pos st s1 <> last_pos st (-1) l).
  { specialize (Hlt _ _ Hin). rewrite <- Ea. intros E'%pos_inj; lia. }
  autorewrite with seqno. rewrite <- (app_nil_r l) in Hrep.
  apply (relink_rep st l [] [(s1, s2)] []); [done| |..]; cbn [m_caSeq m_iLargestSeq].
  - apply ivs_ok_app. split; [done|]. simpl. lia.
  - destruct (negb _); by len.
  - intros p Hp _ Hn. not_at_pos. cbn [hd_pos app].
    destruct (negb _); getput; slot_eqb; by destruct (p =? last_pos st (-1) l).
  - intros p Hp Hn. at_pos_cases. subst p. simpl slot. slot_eqb.
    destruct (Z.eqb_spec s2 s1) as [->|]; cbn [negb]; cbv iota beta; getput; slot_eqb; simpl.
    + by rewrite end_code_eq, F.
    + by rewrite end_code_ne by lia.
  - rewrite app_nil_r in Hrep. simpl app. rewrite (r_head _ _ Hrep), (r_len _ _ Hrep), last_pos_app, ivs_len_app, !hd_pos_app.
    destruct l as [|[x y] l]; [done|]. simpl. f_equal. lia.
Qed.

Lemma head_start st l a b : rep st (l ++ [(a, b)]) ->
  exists h, seqstart ((m_caSeq st).[m_iHead st]) = seq_of h /\ m_iHead st = pos st h /\ lo <= h <= a.
Proof.
  intros Hrep. pose proof (rcv_rep_starts _ _ Hrep) as Hst.
  assert (Hin : (a, b) ∈ l ++ [(a, b)]) by set_solver. rewrite (r_head _ _ Hrep).
  destruct (l ++ [(a, b)]) as [|[h k] r] eqn:El; [by destruct l|].
  exists h. destruct (around st [] h k r Hrep) as (E & Hhk & _). simpl hd_pos. rewrite E.
  split_and!; [done|done|lia|]. simpl in Hst.
  apply elem_of_cons in Hin as [[= -> ->]|Hin]; [lia|].
  pose proof (starts_ok_elem _ _ _ _ _ (proj2 (proj2 Hst)) Hin). lia.
Qed.

Lemma insert_new_spec st l s1 s2 : rep st l -> lo <= s1 <= s2 -> s2 < hi st ->
  (forall x, x ∈ ivs_set l -> x < s1) -> (l = [] -> pos st s1 = 0) ->
  exists st' l', insert_new (seq_of s1) (seq_of s2) st = (st', s2 - s1 + 1) /\ rep st' l' /\
    m_iSize st' = m_iSize st /\ m_iLargestSeq st' = seq_of s2 /\
    ivs_set l' = ivs_set l ∪ range s1 s2.
Proof.
  intros Hrep H1 H2 Hlt Hphase. unfold insert_new.
  set (st0 := set_iLargestSeq (seq_of s2) st).
  assert (Hrep0 : rep st0 l) by (by destruct Hrep).
  assert (Hg : m_iLargestSeq st0 = seq_of s2) by done.
  change (hi st) with (hi st0) in H2. change (pos st s1) with (pos st0 s1) in Hphase.
  change (m_iSize st) with (m_iSize st0). clearbody st0. clear Hrep st. rename st0 into st, Hrep0 into Hrep.
  pose proof (r_size _ _ Hrep). autorewrite with seqno.
  destruct l as [|[a b] l1] using rev_ind.
  - rewrite (r_len _ _ Hrep). simpl (ivs_len [] =? 0). cbv iota.
    match goal with |- context [add_iLength (s2 - s1 + 1) ?s] => set (st1 := s) end.
    exists (add_iLength (s2 - s1 + 1) st1), [(s1, s2)]. split_and!; [done| | | |simpl; ivs_ext].
    + apply (insert_empty st s1 s2); auto. subst st1. autorewrite with seqno.
      rewrite <- (Z.add_0_l (s2 - s1 + 1)) at 2. rewrite <- (r_len _ _ Hrep : m_iLength st = 0).
      destruct (negb _); done.
    + subst st1. by destruct (negb _).
    + subst st1. by destruct (negb _).
  - clear IHl1 Hphase. destruct (around _ _ _ _ _ Hrep) as (E & Hab & _).
    assert (Hbs : b < s1).
    { apply Hlt. rewrite ivs_set_app. simpl. apply elem_of_union_r, elem_of_union_l, elem_of_range. lia. }
    assert (Hlen : m_iLength st <> 0).
    { rewrite (r_len _ _ Hrep), ivs_len_app. pose proof (r_ok _ _ Hrep) as Hok.
      apply ivs_ok_app in Hok as [Hok _]. pose proof (ivs_len_nonneg _ _ _ Hok). simpl. lia. }
    destruct (head_start _ _ _ _ Hrep) as (h & Eh & Hh & Hha).
    pose proof (pos_bound (m_iSize st) c ltac:(lia) h).
    rewrite (proj2 (Z.eqb_neq _ _) Hlen), Eh. autorewrite with seqno.
    destruct (Z.ltb_spec (s1 - h) 0); [lia|].
    rewrite Hh, rem_nonneg, pos_shift by lia. replace (h + (s1 - h)) with s1 by lia.
    assert (Ht : m_iTail st = pos st a) by (rewrite (r_tail _ _ Hrep), last_pos_app; done).
    rewrite Ht, E. cbn [seqend]. rewrite end_code_none.
    assert (Hcond : negb (a =? b) && (incseq (end_code a b) =? seq_of s1) = negb (a =? b) && (b + 1 =? s1)).
    { destruct (Z.eqb_spec a b); [done|]. rewrite end_code_ne by done. by autorewrite with seqno. }
    rewrite Hcond. match goal with |- context [add_iLength (s2 - s1 + 1) ?s] => set (st1 := s) end.
    destruct (negb (a =? b) && (b + 1 =? s1)) eqn:Hc.
    + apply andb_prop in Hc as [Hc1%negb_true_iff%Z.eqb_neq Hc2%Z.eqb_eq].
      exists (add_iLength (s2 - s1 + 1) st1), (l1 ++ [(a, s2)]). split_and!; [done| |done|done|].
      * apply (extend_tail st l1 a b s2); [done|lia..|]. subst st1. sst. f_equal. lia.
      * ivs_ext.
    + exists (add_iLength (s2 - s1 + 1) st1), ((l1 ++ [(a, b)]) ++ [(s1, s2)]). split_and!; [done| | | |ivs_ext].
      * apply (append_tail st _ s1 s2); [done|by destruct l1| |done|].
        -- rewrite last_end_app. simpl. lia.
        -- subst st1. rewrite Ht. autorewrite with seqno. by destruct (s2 =? s1).
      * subst st1. by destruct (seq_of s2 =? seq_of s1), (s2 =? s1).
      * subst st1. by destruct (seq_of s2 =? seq_of s1), (s2 =? s1).
Qed.
End Rep.

(** ** The list as a set of lost positions *)

(** [g] is the position [m_iLargestSeq] stands for, the largest one the list
    has been told of. *)
Definition holds (st : t) (S : gset Z) (g : option Z) : Prop :=
  (exists c lo l, rep c lo st l /\ ivs_set l = S) /\
  match g with
  | None => m_iLargestSeq st = SRT_SEQNO_NONE /\ S = ∅
  | Some m => m_iLargestSeq st = seq_of m /\ forall x, x ∈ S -> x <= m
  end.

(** Positions close enough to compare with the largest one. *)
Definition near (g : option Z) (x : Z) : Prop :=
  match g with None => True | Some m => - m_iSeqNoTH < x - m < m_iSeqNoTH end.

Lemma rcv_rep_rewindow c lo lo' st l : rep c lo st l -> fits lo' (m_iSize st) (ivs_set l) -> rep c lo' st l.
Proof. intros [] Hf. constructor; auto. by apply (ivs_rewindow lo (lo + m_iSize st)). Qed.

Lemma rcv_rep_empty_phase c c' lo lo' st : rep c lo st [] -> rep c' lo' st [].
Proof. intros [? ? [Hl Hp] ? ? ?]. constructor; simpl; auto. by split. Qed.

Lemma rcv_holds_length st S g : holds st S g -> getLossLength st = Z.of_nat (size S).
Proof.
  intros [(c & lo & l & Hrep & <-) _]. unfold getLossLength. rewrite (r_len _ _ _ _ Hrep).
  by apply (ivs_len_size lo (lo + m_iSize st)), (r_ok _ _ _ _ Hrep).
Qed.

Lemma rep_zero c lo st l : rep c lo st l -> (m_iLength st =? 0) = bool_decide (ivs_set l = ∅).
Proof.
  intros Hrep. rewrite (r_len _ _ _ _ Hrep), (ivs_len_size lo (lo + m_iSize st)) by apply Hrep.
  case_bool_decide as Hd.
  - rewrite Hd. done.
  - apply Z.eqb_neq. intros H0. apply Hd. apply leibniz_equiv, size_empty_inv. lia.
Qed.

Lemma holds_zero st S g : holds st S g -> (m_iLength st =? 0) = bool_decide (S = ∅).
Proof. intros [(c & lo & l & Hrep & <-) _]. by eapply rep_zero. Qed.

Lemma rcv_init_holds n f : 0 < n <= m_iSeqNoTH -> holds (init n f) ∅ None.
Proof.
  intros Hn. split; [|done]. exists 0, 0, []. split; [|done]. constructor; simpl; auto.
  apply layout_nil.
  - rewrite length_map, length_seq. lia.
  - intros p Hp. unfold aget. destruct (Z.ltb_spec p 0); [lia|]. rewrite list_lookup_total_alt.
    unfold init. simpl. rewrite list_lookup_fmap, lookup_seq_lt by lia. done.
Qed.

(** The range that [insert] adds: what lies after the largest number. *)
Definition new_from (g : option Z) (s1 : Z) : Z :=
  match g with None => s1 | Some m => Z.max s1 (m + 1) end.

Lemma insert_new_holds st S g s1 s2 lo : holds st S g -> new_from g s1 <= s1 -> s1 <= s2 ->
  fits lo (m_iSize st) (S ∪ range s1 s2) ->
  exists st', insert_new (seq_of s1) (seq_of s2) st = (st', s2 - s1 + 1) /\
    holds st' (S ∪ range s1 s2) (Some s2) /\ m_iSize st' = m_iSize st.
Proof.
  intros [(c & lo0 & l & Hrep & <-) Hg] Hn H12 Hf.
  assert (Hlt : forall x, x ∈ ivs_set l -> x < s1).
  { intros x Hx. destruct g as [m|]; [|destruct Hg as [_ E0]; rewrite E0 in Hx; set_solver].
    simpl in Hn. destruct Hg as [_ Hg]. specialize (Hg _ Hx). lia. }
  assert (Hf1 : fits lo (m_iSize st) (ivs_set l)) by (intros x Hx; apply Hf; set_solver).
  assert (H1 : lo <= s1 < lo + m_iSize st) by (apply (Hf s1); apply elem_of_union_r, elem_of_range; lia).
  assert (H2 : lo <= s2 < lo + m_iSize st) by (apply (Hf s2); apply elem_of_union_r, elem_of_range; lia).
  pose proof (rcv_rep_rewindow _ _ _ _ _ Hrep Hf1) as Hrep'.
  assert (exists c', rep c' lo st l /\ (l = [] -> pos (m_iSize st) c' s1 = 0)) as (c' & Hrep1 & Hph).
  { destruct l as [|iv l]; [|exists c; split; [done|by intros]].
    exists (- s1). split; [by apply (rcv_rep_empty_phase c _ lo)|].
    intros _. unfold pos. rewrite Z.add_opp_diag_l. apply Z.mod_0_l. pose proof (r_size _ _ _ _ Hrep). lia. }
  destruct (insert_new_spec c' lo st l s1 s2 Hrep1) as (st' & l' & E & Hrep2 & Hs & Hg' & HS); auto; [lia..|].
  exists st'. split_and!; auto. split; [by exists c', lo, l'|]. split; [done|].
  intros x [Hx|Hx%elem_of_range]%elem_of_union; [specialize (Hlt _ Hx)|]; lia.
Qed.

Lemma rcv_insert_holds st S g s1 s2 lo : holds st S g -> s1 <= s2 -> near g s1 -> near g s2 ->
  fits lo (m_iSize st) (S ∪ range (new_from g s1) s2) ->
  let s1' := new_from g s1 in
  if s2 <? s1' then insert (seq_of s1) (seq_of s2) st = (st, 0)
  else exists st', insert (seq_of s1) (seq_of s2) st = (st', s2 - s1' + 1) /\
    holds st' (S ∪ range s1' s2) (Some s2) /\ m_iSize st' = m_iSize st.
Proof.
  intros Hh H12 N1 N2 Hf. cbv zeta. unfold insert. pose proof Hh as [_ Hg].
  destruct g as [m|]; simpl in *.
  - destruct Hg as [Hg _]. rewrite Hg, (proj2 (Z.eqb_neq _ SRT_SEQNO_NONE)) by apply seq_of_not_none.
    autorewrite with seqno. cbn [negb andb].
    destruct (Z.leb_spec s1 m).
    + rewrite Z.max_r in * by lia. destruct (Z.gtb_spec s2 m), (Z.ltb_spec s2 (m + 1)); try lia; [|done].
      apply (insert_new_holds _ _ (Some m) _ _ lo Hh); simpl; auto; lia.
    + rewrite Z.max_l in * by lia. destruct (Z.ltb_spec s2 s1); [lia|].
      apply (insert_new_holds _ _ (Some m) _ _ lo Hh); simpl; auto; lia.
  - destruct Hg as [-> _]. cbn [negb andb]. rewrite Z.eqb_refl. cbn [negb andb].
    destruct (Z.ltb_spec s2 s1); [lia|].
    apply (insert_new_holds _ _ None _ _ lo Hh); simpl; auto; lia.
Qed.

(** The set and the largest number after [remove]. *)
Definition spec_remove (S : gset Z) (g : option Z) (x : Z) : gset Z * option Z :=
  let g := match g with None => x | Some m => Z.max m x end in
  if decide (x ∈ S) then (S ∖ {[x]}, if decide (S ∖ {[x]} = ∅) then None else Some g)
  else (S, Some g).

Lemma new_largest_holds st S g x : holds st S g -> near g x ->
  new_largest st x = seq_of (match g with None => x | Some m => Z.max m x end).
Proof.
  intros [_ Hg] Hn. unfold new_largest. destruct g as [m|]; destruct Hg as [-> _]; [|done].
  rewrite (proj2 (Z.eqb_neq _ SRT_SEQNO_NONE)) by apply seq_of_not_none. simpl in Hn.
  autorewrite with seqno. cbn [orb]. destruct (Z.gtb_spec x m); f_equal; lia.
Qed.

Lemma remove_holds st S g x lo : holds st S g -> near g x -> fits lo (m_iSize st) (S ∪ {[x]}) ->
  exists st', remove (seq_of x) st = Some (st', bool_decide (x ∈ S)) /\
    holds st' (spec_remove S g x).1 (spec_remove S g x).2 /\ m_iSize st' = m_iSize st.
Proof.
  intros Hh Hn Hf. pose proof (new_largest_holds _ _ _ _ Hh Hn) as Hnl.
  pose proof Hh as [(c & lo0 & l & Hrep & HS) Hg].
  assert (Hf1 : fits lo (m_iSize st) (ivs_set l)) by (rewrite HS; intros y Hy; apply Hf; set_solver).
  assert (Hx : lo <= x < lo + m_iSize st) by (apply (Hf x); set_solver).
  pose proof (rcv_rep_rewindow _ _ _ _ _ Hrep Hf1) as Hrep'.
  pose proof (remove_spec c lo st l x Hrep' Hx) as Hr. cbv zeta in Hr. rewrite HS in Hr.
  unfold spec_remove. rewrite bool_decide_decide. destruct (decide (x ∈ S)) as [Hin|Hin].
  - destruct Hr as (st' & l' & E & Hrep1 & Hs & HS' & Hl). exists st'. split_and!; [done| |done].
    rewrite HS in HS'. simpl. split; [by exists c, lo, l'|]. cbn [set_iLargestSeq m_iLargestSeq] in Hl.
    rewrite (rep_zero _ _ _ _ Hrep1), HS', bool_decide_decide in Hl.
    destruct (decide (S ∖ {[x]} = ∅)); [done|]. rewrite Hl, Hnl. split; [done|].
    intros y Hy. destruct g as [m|]; destruct Hg as [_ Hg]; [specialize (Hg y ltac:(set_solver)); lia|set_solver].
  - exists (set_iLargestSeq (new_largest st x) st). split_and!; [done| |done]. simpl. split.
    + exists c, lo, l. split; [by destruct Hrep'|done].
    + cbn [set_iLargestSeq m_iLargestSeq]. split; [done|]. intros y Hy. destruct g as [m|]; destruct Hg as [_ Hg].
      * specialize (Hg _ Hy). lia.
      * set_solver.
Qed.

Definition largest_from (g : option Z) (a b : Z) (g' : option Z) : Prop :=
  match g' with None => True | Some m => g = Some m \/ a <= m <= b end.

Lemma spec_remove_largest S g x : largest_from g x x (spec_remove S g x).2.
Proof.
  assert (H : largest_from g x x (Some match g with None => x | Some m => Z.max m x end)).
  { simpl. destruct g as [m|]; [|right; lia].
    destruct (Z.max_spec m x) as [[? ->]|[? ->]]; [right; lia|by left]. }
  unfold spec_remove. repeat case_decide; done.
Qed.

Lemma spec_remove_set S g x : (spec_remove S g x).1 = S ∖ {[x]}.
Proof. unfold spec_remove. case_decide; simpl; [done|set_solver]. Qed.

Lemma remove_loop n st S g i last lo : holds st S g -> i <= last + 1 ->
  (forall x, i <= x <= last -> near g x) -> fits lo (m_iSize st) (S ∪ range i last) ->
  m_iSize st <= m_iSeqNoTH -> last + 1 - i < Z.of_nat n ->
  exists st' g', loop n (remove_step (seq_of last)) (Some st, seq_of i) = Some (Some st') /\
    holds st' (S ∖ range i last) g' /\ largest_from g i last g' /\ m_iSize st' = m_iSize st.
Proof.
  revert st S g i. induction n as [|n IH]; intros st S g i Hh Hi Hn Hf Hs Hlt; [lia|]. simpl loop.
  destruct (decide (i = last + 1)) as [->|Hne].
  - autorewrite with seqno. destruct (Z.leb_spec (last + 1) last); [lia|]. exists st, g. split_and!; [done| | |done].
    + replace (S ∖ range (last + 1) last) with S; [done|]. ivs_ext.
    + destruct g; simpl; auto.
  - assert (Hw : forall x, i <= x <= last -> lo <= x < lo + m_iSize st).
    { intros x Hx. apply (Hf x). apply elem_of_union_r, elem_of_range. lia. }
    pose proof (Hw i ltac:(lia)). pose proof (Hw last ltac:(lia)).
    autorewrite with seqno. destruct (Z.leb_spec i last); [|lia].
    destruct (remove_holds st S g i lo Hh) as (st1 & E & Hh1 & Hs1).
    { apply Hn. lia. }
    { intros x Hx. apply Hf. revert Hx. rewrite !elem_of_union, elem_of_range, elem_of_singleton. mem_codes. lia. }
    simpl. rewrite E. simpl.
    rewrite spec_remove_set in Hh1. pose proof (spec_remove_largest S g i) as Hg1.
    set (g1 := (spec_remove S g i).2) in *. clearbody g1.
    destruct (IH st1 (S ∖ {[i]}) g1 (i + 1)) as (st2 & g2 & E2 & Hh2 & Hg2 & Hs2); auto; try lia.
    { intros x Hx. unfold largest_from in Hg1. destruct g1 as [m|]; [|done].
      destruct Hg1 as [->|Hm]; [apply Hn; lia|]. specialize (Hw x ltac:(lia)). simpl. lia. }
    { rewrite Hs1. intros x Hx. apply Hf. revert Hx. rewrite !elem_of_union, elem_of_difference, !elem_of_range.
      mem_codes. lia. }
    exists st2, g2. split_and!; [done| | |congruence].
    + replace (S ∖ range i last) with (S ∖ {[i]} ∖ range (i + 1) last); [done|]. ivs_ext.
    + unfold largest_from in *. destruct g2 as [m|]; [|done]. destruct Hg2 as [->|?]; [|right; lia].
      destruct Hg1 as [?|?]; [by left|right; lia].
Qed.

Lemma remove_all_holds st S g first last lo : holds st S g -> first <= last ->
  (forall x, first <= x <= last -> near g x) -> fits lo (m_iSize st) (S ∪ range first last) ->
  exists st' g', remove_all (seq_of first) (seq_of last) st = Some st' /\
    holds st' (S ∖ range first last) g' /\ largest_from g first last g' /\ m_iSize st' = m_iSize st.
Proof.
  intros Hh Hle Hn Hf. assert (Hs : 0 < m_iSize st <= m_iSeqNoTH) by (destruct Hh as [(c & lo0 & l & [] & _) _]; done).
  assert (Hw : fits lo (m_iSize st) (range first last)) by (intros x Hx; apply Hf, elem_of_union_r, Hx).
  pose proof (Hw first ltac:(apply elem_of_range; lia)) as W1. pose proof (Hw last ltac:(apply elem_of_range; lia)) as W2.
  simpl in W1, W2. unfold remove_all. autorewrite with seqno.
  destruct (remove_loop (Datatypes.S (Z.to_nat (last - first + 1))) st S g first last lo) as (st' & g' & E & ?); auto; try lia.
  exists st', g'. rewrite E. done.
Qed.

Lemma first_holds st S g : holds st S g ->
  getFirstLostSeq st = match first_of S with Some m => seq_of m | None => SRT_SEQNO_NONE end.
Proof.
  intros Hh. unfold getFirstLostSeq. rewrite (holds_zero _ _ _ Hh).
  destruct Hh as [(c & lo & l & Hrep & <-) _]. destruct l as [|[a b] r]; [done|].
  rewrite (ivs_first _ _ _ _ _ (r_ok _ _ _ _ Hrep)), bool_decide_false.
  - destruct (around c lo st [] a b r Hrep) as (E & _). rewrite (r_head _ _ _ _ Hrep). simpl hd_pos. by rewrite E.
  - intros E. apply (ivs_set_nil_inv _ lo (lo + m_iSize st)) in E; [done|]. apply Hrep.
Qed.

Lemma find_loop n c lo st l1 l2 s1 s2 : rep c lo st (l1 ++ l2) -> (length l2 < n)%nat ->
  s1 <= s2 -> lo <= s1 -> s2 < lo + m_iSize st ->
  loop n (find_step st (seq_of s1) (seq_of s2)) (hd_pos (m_iSize st) c l2 (-1)) =
    Some (negb (bool_decide (ivs_set l2 ∩ range s1 s2 = ∅))).
Proof.
  revert l1 l2. induction n as [|n IH]; intros l1 l2 Hrep Hn H12 H1 H2; [lia|]. simpl loop.
  destruct l2 as [|[a b] r].
  { simpl. by rewrite bool_decide_true by set_solver. }
  pose proof (r_size _ _ _ _ Hrep). destruct (around c lo st l1 a b r Hrep) as (E & Hab & _).
  pose proof (r_ok _ _ _ _ Hrep) as Hok. apply ivs_ok_app in Hok as [_ Hok]. simpl in Hok.
  simpl hd_pos. pose proof (pos_bound (m_iSize st) c ltac:(lia) a). unfold find_step at 1.
  rewrite (proj2 (Z.eqb_neq (pos (m_iSize st) c a) (-1))) by lia. cbn [negb]. rewrite E. cbn [seqstart seqend inext].
  rewrite end_code_none. autorewrite with seqno.
  assert (Hend : (a <? s1) && negb (a =? b) && (seqcmp (end_code a b) (seq_of s1) >=? 0) = (a <? s1) && (b >=? s1)).
  { destruct (Z.ltb_spec a s1); [|done]. destruct (Z.eqb_spec a b) as [->|].
    - cbn. destruct (Z.geb_spec b s1); [lia|done].
    - rewrite end_code_ne by done. by autorewrite with seqno. }
  rewrite Hend. clear Hend.
  destruct ((a =? s1) || (a >? s1) && (a <=? s2) || (a <? s1) && (b >=? s1)) eqn:Hc.
  - rewrite bool_decide_false; [done|]. intros Hemp.
    assert (Hx : Z.max a s1 ∈ ivs_set ((a, b) :: r) ∩ range s1 s2); [|rewrite Hemp in Hx; set_solver].
    simpl ivs_set. rewrite elem_of_intersection, elem_of_union, !elem_of_range. lia.
  - rewrite (cons_middle (a, b)), app_assoc in Hrep. rewrite (IH _ _ Hrep) by (simpl in Hn; lia).
    do 2 f_equal. apply bool_decide_ext. simpl ivs_set. split; intros Hemp; [|set_solver].
    apply set_eq. intros x. split; [|set_solver]. rewrite elem_of_intersection, elem_of_union, !elem_of_range.
    intros [[Hx|Hx] Hr]; [exfalso; lia|]. rewrite <- Hemp. by rewrite elem_of_intersection, elem_of_range.
Qed.

Lemma find_holds st S g s1 s2 lo : holds st S g -> s1 <= s2 -> fits lo (m_iSize st) (S ∪ range s1 s2) ->
  find (seq_of s1) (seq_of s2) st = Some (negb (bool_decide (S ∩ range s1 s2 = ∅))).
Proof.
  intros Hh H12 Hf. unfold find. rewrite (holds_zero _ _ _ Hh). case_bool_decide as Hemp.
  { subst S. by rewrite bool_decide_true by set_solver. }
  destruct Hh as [(c & lo0 & l & Hrep & <-) _].
  assert (Hf1 : fits lo (m_iSize st) (ivs_set l)) by (intros x Hx; apply Hf, elem_of_union_l, Hx).
  pose proof (rcv_rep_rewindow _ _ _ _ _ Hrep Hf1) as Hrep'.
  assert (W1 : lo <= s1 < lo + m_iSize st) by (apply (Hf s1); apply elem_of_union_r, elem_of_range; lia).
  assert (W2 : lo <= s2 < lo + m_iSize st) by (apply (Hf s2); apply elem_of_union_r, elem_of_range; lia).
  rewrite (r_head _ _ _ _ Hrep'). pose proof (r_size _ _ _ _ Hrep).
  apply (find_loop _ c lo st [] l); auto; try lia. unfold fuel.
  pose proof (ivs_length lo (lo + m_iSize st) l ltac:(lia) (r_ok _ _ _ _ Hrep')).
  pose proof (proj1 (r_layout _ _ _ _ Hrep)). lia.
Qed.

Lemma rcv_removeUpTo_holds st S g last lo : holds st S g -> (forall x, lo <= x <= last -> near g x) -> lo <= last ->
  fits lo (m_iSize st) (S ∪ {[last]}) ->
  exists st' g', removeUpTo (seq_of last) st = Some (st', getFirstLostSeq st) /\
    holds st' (filter (fun x => last < x) S) g' /\ largest_from g lo last g' /\ m_iSize st' = m_iSize st.
Proof.
  intros Hh Hn Hlo Hf. assert (Hs : 0 < m_iSize st <= m_iSeqNoTH) by (destruct Hh as [(c & lo0 & l & [] & _) _]; done).
  assert (W2 : lo <= last < lo + m_iSize st) by (apply (Hf last); set_solver).
  assert (Hsame : largest_from g lo last g) by (destruct g; [by left|done]).
  unfold removeUpTo. rewrite (first_holds _ _ _ Hh). destruct (first_of S) as [m|] eqn:Hm.
  - apply first_of_Some in Hm as [Hm Hmin].
    rewrite (proj2 (Z.eqb_neq _ SRT_SEQNO_NONE)) by apply seq_of_not_none.
    assert (Wm : lo <= m < lo + m_iSize st) by (apply (Hf m), elem_of_union_l, Hm).
    autorewrite with seqno. destruct (Z.ltb_spec last m).
    + exists st, g. split; [done|]. replace (filter (fun x => last < x) S) with S; [done|].
      apply set_eq. intros x. rewrite elem_of_filter. split; [|tauto]. intros Hx. specialize (Hmin _ Hx). split; [lia|done].
    + destruct (remove_all_holds st S g m last lo) as (st' & g' & E & Hh' & Hg' & Hsz); auto; [intros; apply Hn; lia| |].
      { intros x [Hx|Hx%elem_of_range]%elem_of_union; [by apply Hf, elem_of_union_l|simpl; lia]. }
      exists st', g'. rewrite E. split; [done|]. split; [|split; [|done]].
      * replace (filter (fun x => last < x) S) with (S ∖ range m last); [done|].
        apply set_eq. intros x. rewrite elem_of_filter, elem_of_difference, elem_of_range. split.
        -- intros [Hx Hr]. specialize (Hmin _ Hx). split; [lia|done].
        -- intros [Hx Hr]. split; [done|lia].
      * destruct g' as [m'|]; [|done]. destruct Hg' as [Hg'|Hg']; [by left|right; lia].
  - apply first_of_None in Hm as ->. exists st, g. rewrite Z.eqb_refl, filter_empty_L by apply _. done.
Qed.

(** ** Properties *)

(** [insert] into the receiver's list: the part of the range that is not
    above the largest number the list knows is dropped, the rest is added;
    the return value is the length of what was added, 0 when nothing was. *)
Theorem rcv_insert (st : t) (S : gset Z) (g : option Z) (s1 s2 lo : Z) (Hh : holds st S g) (H12 : s1 <= s2)
  (N1 : near g s1) (N2 : near g s2) (Hf : fits lo (m_iSize st) (S ∪ range (new_from g s1) s2)) :
  let added := range (new_from g s1) s2 in
  exists st', insert (seq_of s1) (seq_of s2) st = (st', Z.of_nat (size added)) /\
    added ∩ S = ∅ /\
    holds st' (S ∪ added) (if s2 <? new_from g s1 then g else Some s2) /\
    getLossLength st' = getLossLength st + Z.of_nat (size added).
Proof.
  intros added. pose proof (rcv_insert_holds st S g s1 s2 lo Hh H12 N1 N2 Hf) as Hi. cbv zeta in Hi.
  assert (Hd : added ∩ S = ∅).
  { subst added. destruct Hh as [_ Hg]. apply set_eq. intros x. split; [|set_solver].
    rewrite elem_of_intersection, elem_of_range. unfold new_from. intros [Hx HS].
    destruct g as [m|]; destruct Hg as [_ Hg]; [specialize (Hg _ HS); lia|set_solver]. }
  destruct (Z.ltb_spec s2 (new_from g s1)) as [Hlt|Hge].
  - assert (added = ∅) as ->.
    { subst added. apply set_eq. intros x. rewrite elem_of_range. split; [lia|set_solver]. }
    exists st. rewrite Hi, size_empty, union_empty_r_L. split_and!; [done|set_solver|done|lia].
  - destruct Hi as (st' & E & Hh' & _). exists st'. subst added. rewrite E, size_range by lia. split_and!; auto.
    rewrite (rcv_holds_length _ _ _ Hh'), (rcv_holds_length _ _ _ Hh), size_union, Nat2Z.inj_add, size_range by (lia || set_solver).
    lia.
Qed.

Lemma rcv_insert_witness :
  exists st', insert 0x7FFFFFFE 2 (init 10 (fun _ => (0, 0))) = (st', 5) /\ getLossLength st' = 5.
Proof.
  destruct (rcv_insert (init 10 (fun _ => (0, 0))) ∅ None 0x7FFFFFFE 0x80000002 0x7FFFFFFA) as (st' & E & _ & _ & Hl).
  - apply rcv_init_holds. vm_compute. split; [reflexivity|discriminate].
  - lia.
  - exact I.
  - exact I.
  - apply (bool_decide_unpack _). vm_compute. exact I.
  - exists st'. split; [exact E|]. rewrite Hl. vm_compute. reflexivity.
Defined.

(** [remove] takes exactly the given position out of the list, wherever
    it lies in its interval, and tells whether it was there. *)
Theorem rcv_remove (st : t) (S : gset Z) (g : option Z) (x lo : Z) (Hh : holds st S g)
  (Hn : near g x) (Hf : fits lo (m_iSize st) (S ∪ {[x]})) :
  exists st', remove (seq_of x) st = Some (st', bool_decide (x ∈ S)) /\
    holds st' (S ∖ {[x]}) (spec_remove S g x).2 /\
    getLossLength st' = Z.of_nat (size (S ∖ {[x]})).
Proof.
  destruct (remove_holds st S g x lo Hh Hn Hf) as (st' & E & Hh' & _). rewrite spec_remove_set in Hh'.
  exists st'. split_and!; auto. by apply (rcv_holds_length _ _ _ Hh').
Qed.

Lemma rcv_remove_witness :
  exists st, insert 0x7FFFFFFE 2 (init 10 (fun _ => (0, 0))) = (st, 5) /\
    exists st', remove 0 st = Some (st', true) /\ getLossLength st' = 4.
Proof.
  destruct (rcv_insert_holds (init 10 (fun _ => (0, 0))) ∅ None 0x7FFFFFFE 0x80000002 0x7FFFFFFA) as (st & E & Hh & Hs).
  - apply rcv_init_holds. vm_compute. split; [reflexivity|discriminate].
  - lia.
  - exact I.
  - exact I.
  - apply (bool_decide_unpack _). vm_compute. exact I.
  - exists st. split; [exact E|].
    destruct (rcv_remove st (∅ ∪ range 0x7FFFFFFE 0x80000002) (Some 0x80000002) 0x80000000 0x7FFFFFFA Hh)
      as (st' & E' & _ & Hl).
    + vm_compute. split; reflexivity.
    + rewrite Hs. apply (bool_decide_unpack _). vm_compute. exact I.
    + exists st'. change (seq_of 0x80000000) with 0 in E'. rewrite Hl.
      rewrite bool_decide_true in E'; [split; [exact E'|vm_compute; reflexivity]|].
      apply (bool_decide_unpack _). vm_compute. exact I.
Defined.

(** The range removals: [remove(first, last)] takes out every position
    from [first] to [last]; [removeUpTo(last)] takes out every position up to
    and including [last] and returns the first number the list held. *)
Theorem rcv_remove_ranges (st : t) (S : gset Z) (g : option Z) (first last lo : Z) (Hh : holds st S g)
  (Hle : first <= last) (Hn : forall x, lo <= x <= last -> near g x)
  (Hlo : lo <= first) (Hf : fits lo (m_iSize st) (S ∪ range first last)) :
  (exists st' g', remove_range (seq_of first) (seq_of last) st = Some (st', true) /\
     holds st' (S ∖ range first last) g') /\
  (exists st' g', removeUpTo (seq_of last) st = Some (st', getFirstLostSeq st) /\
     holds st' (filter (fun x => last < x) S) g').
Proof.
  assert (Hs : 0 < m_iSize st <= m_iSeqNoTH) by (destruct Hh as [(c & lo0 & l & [] & _) _]; done).
  assert (W1 : lo <= first < lo + m_iSize st) by (apply (Hf first); apply elem_of_union_r, elem_of_range; lia).
  assert (W2 : lo <= last < lo + m_iSize st) by (apply (Hf last); apply elem_of_union_r, elem_of_range; lia).
  split.
  - unfold remove_range. autorewrite with seqno. destruct (Z.gtb_spec first last); [lia|].
    destruct (remove_all_holds st S g first last lo) as (st' & g' & E & Hh' & _); auto; [intros; apply Hn; lia|].
    exists st', g'. by rewrite E.
  - destruct (rcv_removeUpTo_holds st S g last lo) as (st' & g' & E & Hh' & _); auto; [lia| |by exists st', g'].
    intros x [Hx|Hx%elem_of_singleton]%elem_of_union; [by apply Hf, elem_of_union_l|simpl; lia].
Qed.

Lemma rcv_remove_ranges_witness :
  exists st, insert 0x7FFFFFFE 2 (init 10 (fun _ => (0, 0))) = (st, 5) /\
    exists st', removeUpTo 0 st = Some (st', 0x7FFFFFFE) /\
      holds st' (filter (fun x => 0x80000000 < x) (∅ ∪ range 0x7FFFFFFE 0x80000002)) (Some 0x80000002).
Proof.
  destruct (rcv_insert_holds (init 10 (fun _ => (0, 0))) ∅ None 0x7FFFFFFE 0x80000002 0x7FFFFFFA) as (st & E & Hh & Hs).
  - apply rcv_init_holds. vm_compute. split; [reflexivity|discriminate].
  - lia.
  - exact I.
  - exact I.
  - apply (bool_decide_unpack _). vm_compute. exact I.
  - exists st. split; [exact E|].
    destruct (rcv_remove_ranges st (∅ ∪ range 0x7FFFFFFE 0x80000002) (Some 0x80000002)
      0x7FFFFFFA 0x80000000 0x7FFFFFFA Hh) as (_ & st' & g' & E' & Hh').
    + lia.
    + intros x Hx. unfold near. seqlia.
    + lia.
    + rewrite Hs. apply (bool_decide_unpack _). vm_compute. exact I.
    + exists st'. vm_compute in E. injection E as <-. split; [exact E'|].
      vm_compute in E'. injection E' as <-. destruct Hh' as [Hr Hg]. split; [exact Hr|].
      split; [reflexivity|]. intros x [_ Hx]%elem_of_filter. apply elem_of_union in Hx as [Hx|Hx].
      * exfalso. apply (not_elem_of_empty (C := gset Z) x Hx).
      * apply elem_of_range in Hx. lia.
Defined.

(** The queries: [getFirstLostSeq] is the lowest position of the list
    ([SRT_SEQNO_NONE] when it is empty), and [find] tells whether any lost
    position lies in the range. *)
Theorem rcv_queries (st : t) (S : gset Z) (g : option Z) (s1 s2 lo : Z) (Hh : holds st S g)
  (H12 : s1 <= s2) (Hf : fits lo (m_iSize st) (S ∪ range s1 s2)) :
  getFirstLostSeq st = match first_of S with Some m => seq_of m | None => SRT_SEQNO_NONE end /\
  exists b, find (seq_of s1) (seq_of s2) st = Some b /\ (b = true <-> exists x, x ∈ S /\ s1 <= x <= s2).
Proof.
  split; [by eapply first_holds|]. eexists. split; [by eapply find_holds|].
  rewrite negb_true_iff, bool_decide_eq_false. split.
  - intros Hne. apply set_choose_L in Hne as [x Hx]. exists x.
    by rewrite elem_of_intersection, elem_of_range in Hx.
  - intros (x & Hx & Hr) Hemp. apply (not_elem_of_empty (C := gset Z) x). rewrite <- Hemp.
    by rewrite elem_of_intersection, elem_of_range.
Qed.

Lemma rcv_queries_witness : exists b, find 3 5 (init 10 (fun _ => (0, 0))) = Some b /\ b = false.
Proof.
  destruct (rcv_queries (init 10 (fun _ => (0, 0))) ∅ None 3 5 0) as (_ & b & E & _).
  - apply rcv_init_holds. vm_compute. split; [reflexivity|discriminate].
  - lia.
  - apply (bool_decide_unpack _). vm_compute. exact I.
  - exists b. split; [exact E|]. vm_compute in E. injection E as <-. reflexivity.
Defined.

(** A largest number that was set more than half a cycle ago blocks the
    list: every range in the following half of the cycle is rejected, and
    stays unreported, even when the list is empty. *)
Theorem rcv_stale_largest (st : t) (m s1 s2 : Z) (Hm : m_iLargestSeq st = seq_of m)
  (H1 : m + 2 ^ 30 + 1 < s1) (H12 : s1 <= s2) (H2 : s2 <= m + 2 ^ 31) :
  insert (seq_of s1) (seq_of s2) st = (st, 0).
Proof.
  assert (Hc : forall s, s1 <= s <= s2 -> seqcmp (seq_of s) (seq_of m) <= 0).
  { intros s Hs. destruct (seq_of_diff s m) as (k & Hk & Hr). unfold seqcmp, m_iSeqNoTH. bdestr. }
  unfold insert. rewrite Hm, (proj2 (Z.eqb_neq _ SRT_SEQNO_NONE)) by apply seq_of_not_none.
  pose proof (Hc s1 ltac:(lia)). pose proof (Hc s2 ltac:(lia)). cbn [negb andb].
  destruct (Z.leb_spec (seqcmp (seq_of s1) (seq_of m)) 0); [|lia].
  by destruct (Z.gtb_spec (seqcmp (seq_of s2) (seq_of m)) 0); [lia|].
Qed.

Lemma rcv_stale_largest_witness :
  let st := init 10 (fun _ => (0, 0)) in
  exists st', remove 7 st = Some (st', false) /\ getLossLength st' = 0 /\
    insert 0x40000100 0x40000100 st' = (st', 0).
Proof.
  eexists. split; [reflexivity|]. split; [reflexivity|].
  apply (rcv_stale_largest _ 7 0x40000100 0x40000100); [reflexivity|lia..].
Defined.
