(* ===== verification/FreshLoss.v ===== *)
(** [CRcvFreshLoss] of srtcore/list.cpp and its use in core.cpp: the losses
    that are not reported yet, because reordering may still bring the packets
    in. *)
From Stdlib Require Import Sorted.
From S2P Require Import Prelude SeqNo Slots.
Import CSeqNo.

Module CRcvFreshLoss.
Record t := mk { seq0 : Z; seq1 : Z; ttl : Z; timestamp : Z }.

Inductive Emod := NONE | STRIPPED | SPLIT | DELETE.

(** [revoke] of one sequence number. *)
Definition revoke (sequence : Z) (r : t) : t * Emod :=
  let diffbegin := seqcmp sequence (seq0 r) in
  let diffend := seqcmp sequence (seq1 r) in
  if (diffbegin <? 0) || (diffend >? 0) then (r, NONE)
  else if diffbegin =? 0 then
    if diffend =? 0 then (r, DELETE)
    else (mk (incseq (seq0 r)) (seq1 r) (ttl r) (timestamp r), STRIPPED)
  else if diffend =? 0 then (mk (seq0 r) (decseq (seq1 r)) (ttl r) (timestamp r), STRIPPED)
  else (r, SPLIT).

(** [revoke] of a range. *)
Definition revoke_range (lo hi : Z) (r : t) : t * Emod :=
  if negb (lo =? SRT_SEQNO_NONE) && (seqcmp lo (seq1 r) >? 0) then (r, DELETE)
  else if seqcmp hi (seq0 r) <? 0 then (r, NONE)
  else if seqcmp hi (seq1 r) <? 0
  then (mk (incseq hi) (seq1 r) (ttl r) (timestamp r), STRIPPED)
  else (r, DELETE).

(** [removeOne]: the container afterwards, the result and [*pw_had_ttl];
    [now] is the time a new record is stamped with. *)
Fixpoint removeOne (now : Z) (w_container : list t) (sequence : Z) : list t * bool * Z :=
  match w_container with
  | [] => ([], false, 0)
  | r :: rest =>
      let had_ttl := ttl r in
      match revoke sequence r with
      | (r', NONE) =>
          let '(rest', found, had) := removeOne now rest sequence in (r' :: rest', found, had)
      | (_, DELETE) => (rest, true, had_ttl)
      | (r', SPLIT) =>
          let next_end := seq1 r' in
          let next_begin := incseq sequence in
          (mk (seq0 r') (decseq sequence) (ttl r') (timestamp r') ::
           mk next_begin next_end (ttl r') now :: rest, true, had_ttl)
      | (r', STRIPPED) => (r' :: rest, true, had_ttl)
      end
  end.

(** The loop of [CUDT::dropFromLossLists] over [m_FreshLoss], and the
    erasure of the records it found obsolete. *)
Fixpoint drop_fresh (from to : Z) (m_FreshLoss : list t) : list t :=
  match m_FreshLoss with
  | [] => []
  | r :: rest =>
      match revoke_range from to r with
      | (_, DELETE) => drop_fresh from to rest
      | (r', _) => r' :: rest
      end
  end.

(** [CUDT::addLossRecord]. *)
Definition addLossRecord (lr : list Z) (lo hi : Z) : list Z :=
  if lo =? hi then lr ++ [lo] else lr ++ [Z.lor lo (2 ^ 31); hi].

(** The end of [CUDT::processData]: records whose time to live is over are
    reported and removed, the others get older. *)
Fixpoint take_expired (m_FreshLoss : list t) (lossdata : list Z) : list t * list Z :=
  match m_FreshLoss with
  | r :: rest =>
      if ttl r <=? 0 then take_expired rest (addLossRecord lossdata (seq0 r) (seq1 r))
      else (r :: rest, lossdata)
  | [] => ([], lossdata)
  end.

Definition age_fresh (m_FreshLoss : list t) : list t * list Z :=
  let (rest, lossdata) := take_expired m_FreshLoss [] in
  (map (fun r => mk (seq0 r) (seq1 r) (ttl r - 1) (timestamp r)) rest, lossdata).
End CRcvFreshLoss.
Import CRcvFreshLoss.

(** ** Records as intervals of positions *)

Record entry := Entry { e_iv : Z * Z; e_ttl : Z; e_time : Z }.

Definition to_rec (e : entry) : CRcvFreshLoss.t := mk (seq_of (e_iv e).1) (seq_of (e_iv e).2) (e_ttl e) (e_time e).

(** The time to live of the record that covers a position. *)
Fixpoint ttl_at (l : list entry) (x : Z) : option Z :=
  match l with
  | [] => None
  | e :: r => if ((e_iv e).1 <=? x) && (x <=? (e_iv e).2) then Some (e_ttl e) else ttl_at r x
  end.

Lemma ttl_at_below lo hi l x : ivs_ok lo hi (map e_iv l) -> x < lo -> ttl_at l x = None.
Proof.
  revert lo. induction l as [|[[a b] t tm] r IH]; simpl; intros lo Hok Hx; [done|].
  destruct Hok as (? & ? & ? & Hok). destruct (Z.leb_spec a x); [lia|]. simpl. apply (IH (b + 1)); [done|lia].
Qed.

(** One record of the list, at a position it covers or not. *)
Lemma ttl_at_cons a b t tm r x :
  ttl_at (Entry (a, b) t tm :: r) x = if decide (a <= x <= b) then Some t else ttl_at r x.
Proof. simpl. case_decide; destruct (Z.leb_spec a x), (Z.leb_spec x b); try lia; done. Qed.

(** Ascending disjoint records in a window narrow enough to be compared. *)
Definition fresh_ok (lo hi : Z) (l : list entry) : Prop := hi - lo <= m_iSeqNoTH /\ ivs_ok lo hi (map e_iv l).

Section Window.
(** The numbers in the list and in the requests lie in one window. *)
Context (wlo hi : Z) (Hw : hi - wlo <= m_iSeqNoTH).

Lemma removeOne_ok now lo l x : wlo <= lo -> ivs_ok lo hi (map e_iv l) -> wlo <= x < hi ->
  exists l', removeOne now (map to_rec l) (seq_of x) =
      (map to_rec l', bool_decide (is_Some (ttl_at l x)), default 0 (ttl_at l x)) /\
    ivs_ok lo hi (map e_iv l') /\
    forall y, ttl_at l' y = if decide (y = x) then None else ttl_at l y.
Proof.
  intros Hlo Hok Hx. revert lo Hlo Hok. induction l as [|[[a b] t tm] r IH]; intros lo Hlo Hok.
  { exists []. split_and!; [done|done|]. intros y. by case_decide. }
  simpl in Hok. destruct Hok as (? & ? & ? & Hok).
  cbn [map removeOne]. unfold revoke. change (to_rec (Entry (a, b) t tm)) with (mk (seq_of a) (seq_of b) t tm).
  cbn [seq0 seq1 ttl timestamp].
  autorewrite with seqno.
  assert (Hr : forall y, y <= b -> ttl_at r y = None) by (intros y Hy; apply (ttl_at_below (b + 1) hi); [done|lia]).
  destruct (decide (a <= x <= b)) as [Hin|Hout].
  2: { destruct (IH (b + 1) ltac:(lia) Hok) as (l' & E & Hok' & Hl').
       exists (Entry (a, b) t tm :: l'). 
       assert ((x <? a) || (x >? b) = true) as -> by (destruct (Z.ltb_spec x a), (Z.gtb_spec x b); lia || done).
       rewrite E. split_and!.
       - rewrite ttl_at_cons, decide_False by done. done.
       - simpl. auto.
       - intros y. rewrite !ttl_at_cons, Hl'. repeat case_decide; done || lia. }
  rewrite ttl_at_cons, decide_True by done. rewrite (bool_decide_true (is_Some _)) by done.
  assert ((x <? a) || (x >? b) = false) as -> by (destruct (Z.ltb_spec x a), (Z.gtb_spec x b); lia || done).
  destruct (Z.eqb_spec x a) as [Hxa|Hxa], (Z.eqb_spec x b) as [Hxb|Hxb].
  - exists r. split_and!; [done|apply (ivs_ok_weaken (b + 1) _ hi); [lia..|done]|].
    intros y. rewrite ttl_at_cons. repeat case_decide; try done; try lia. apply Hr. lia.
  - exists (Entry (a + 1, b) t tm :: r). split_and!; [done|simpl; repeat split; try lia; done|].
    intros y. rewrite !ttl_at_cons. repeat case_decide; try done; try lia. apply Hr. lia.
  - exists (Entry (a, b - 1) t tm :: r). split_and!; [done| |].
    + simpl. repeat split; try lia. apply (ivs_ok_weaken (b + 1) _ hi); [lia..|done].
    + intros y. rewrite !ttl_at_cons. repeat case_decide; try done; try lia. apply Hr. lia.
  - exists (Entry (a, x - 1) t tm :: Entry (x + 1, b) t now :: r). split_and!; [done| |].
    + simpl. repeat split; try lia. done.
    + intros y. rewrite !ttl_at_cons. repeat case_decide; try done; try lia. apply Hr. lia.
Qed.

Lemma drop_ok lo l from to : wlo <= lo -> ivs_ok lo hi (map e_iv l) -> wlo <= to < hi ->
  (from = SRT_SEQNO_NONE \/ exists f, from = seq_of f /\ wlo <= f <= to) ->
  exists l', drop_fresh from (seq_of to) (map to_rec l) = map to_rec l' /\
    ivs_ok lo hi (map e_iv l') /\
    forall y, ttl_at l' y = if decide (y <= to) then None else ttl_at l y.
Proof.
  intros Hlo Hok Hto Hfrom. revert lo Hlo Hok. induction l as [|[[a b] t tm] r IH]; intros lo Hlo Hok.
  { exists []. split_and!; [done|done|]. intros y. by case_decide. }
  simpl in Hok. destruct Hok as (? & ? & ? & Hok).
  cbn [map drop_fresh]. unfold revoke_range. change (to_rec (Entry (a, b) t tm)) with (mk (seq_of a) (seq_of b) t tm).
  cbn [seq0 seq1 ttl timestamp].
  autorewrite with seqno.
  assert (Hr : forall y, y <= b -> ttl_at r y = None) by (intros y Hy; apply (ttl_at_below (b + 1) hi); [done|lia]).
  destruct (IH (b + 1) ltac:(lia) Hok) as (l' & E & Hok' & Hl').
  assert (Hdel : b <= to -> exists l'', drop_fresh from (seq_of to) (map to_rec r) = map to_rec l'' /\
    ivs_ok lo hi (map e_iv l'') /\
    forall y, ttl_at l'' y = if decide (y <= to) then None else ttl_at (Entry (a, b) t tm :: r) y).
  { intros Hb. exists l'. split_and!; [done|apply (ivs_ok_weaken (b + 1) _ hi); [lia..|done]|].
    intros y. rewrite Hl', ttl_at_cons. repeat case_decide; done || lia. }
  assert (Hfirst : negb (from =? SRT_SEQNO_NONE) && (seqcmp from (seq_of b) >? 0) = true -> b <= to).
  { destruct Hfrom as [->|(f & -> & Hf)]; [done|]. intros [_ Hc]%andb_prop. autorewrite with seqno in Hc. lia. }
  destruct (negb _ && _); [by apply Hdel, Hfirst|]. clear Hfirst.
  destruct (Z.ltb_spec to a); [|destruct (Z.ltb_spec to b)].
  - exists (Entry (a, b) t tm :: r). split_and!; [done|simpl; auto|].
    intros y. case_decide; [|done]. rewrite ttl_at_cons, decide_False by lia. apply Hr. lia.
  - exists (Entry (to + 1, b) t tm :: r). split_and!; [done|simpl; repeat split; try lia; done|].
    intros y. rewrite !ttl_at_cons. repeat case_decide; try done; try lia. apply Hr. lia.
  - apply Hdel. lia.
Qed.
End Window.

(** ** Expiry *)

(** [processData] called for [n] packets that bring no new loss. *)
Fixpoint age_rounds (n : nat) (m_FreshLoss : list CRcvFreshLoss.t) : list (list Z) :=
  match n with
  | O => []
  | S n => let (rest, lossdata) := age_fresh m_FreshLoss in lossdata :: age_rounds n rest
  end.

Definition encode_losses (lr : list Z) (l : list entry) : list Z :=
  foldl (fun lr e => addLossRecord lr (seq_of (e_iv e).1) (seq_of (e_iv e).2)) lr l.

(** Records are appended with the same initial time to live, so the older ones
    never have more of it left. *)
Definition ttl_sorted (l : list entry) : Prop := StronglySorted (fun e e' => e_ttl e <= e_ttl e') l.

Definition older (e : entry) : entry := Entry (e_iv e) (e_ttl e - 1) (e_time e).

Lemma ttl_sorted_inv e l : ttl_sorted (e :: l) -> ttl_sorted l /\ forall e', e' ∈ l -> e_ttl e <= e_ttl e'.
Proof.
  intros H. apply StronglySorted_inv in H as [Hs Hf]. split; [done|]. by rewrite list.Forall_forall in Hf.
Qed.

Lemma filter_all {A} (P : A -> Prop) `{forall x, Decision (P x)} (l : list A) : (forall x, x ∈ l -> P x) -> filter P l = l.
Proof.
  induction l as [|x l IH]; intros Hall; [done|]. rewrite filter_cons_True by (apply Hall; left).
  by rewrite IH by (intros y Hy; apply Hall; by right).
Qed.

Lemma filter_none {A} (P : A -> Prop) `{forall x, Decision (P x)} (l : list A) : (forall x, x ∈ l -> ~ P x) -> filter P l = [].
Proof.
  induction l as [|x l IH]; intros Hall; [done|]. rewrite filter_cons_False by (apply Hall; left).
  by rewrite IH by (intros y Hy; apply Hall; by right).
Qed.

Lemma filter_ext_in (P Q : entry -> Prop) `{forall x, Decision (P x)} `{forall x, Decision (Q x)} (l : list entry) :
  (forall x, x ∈ l -> P x <-> Q x) -> filter P l = filter Q l.
Proof.
  induction l as [|x l IH]; intros Hall; [done|]. rewrite !filter_cons.
  rewrite IH by (intros y Hy; apply Hall; by right). pose proof (Hall x ltac:(left)).
  repeat case_decide; tauto.
Qed.

Lemma take_expired_spec l lr : ttl_sorted l ->
  take_expired (map to_rec l) lr =
    (map to_rec (filter (fun e => 0 < e_ttl e) l), encode_losses lr (filter (fun e => e_ttl e <= 0) l)).
Proof.
  revert lr. induction l as [|[[a b] t tm] l IH]; intros lr Hs; [done|]. apply ttl_sorted_inv in Hs as [Hs He].
  cbn [map take_expired]. change (to_rec (Entry (a, b) t tm)) with (mk (seq_of a) (seq_of b) t tm).
  cbn [ttl seq0 seq1]. simpl in He. destruct (Z.leb_spec t 0).
  - rewrite IH by done. rewrite filter_cons_False, filter_cons_True by (simpl; lia). done.
  - rewrite filter_cons_True, filter_cons_False by (simpl; lia).
    rewrite filter_all, filter_none; [done|..]; intros e Hin; specialize (He e Hin); lia.
Qed.

Lemma age_fresh_spec l : ttl_sorted l ->
  age_fresh (map to_rec l) =
    (map to_rec (map older (filter (fun e => 0 < e_ttl e) l)),
     encode_losses [] (filter (fun e => e_ttl e <= 0) l)).
Proof. intros Hs. unfold age_fresh. rewrite take_expired_spec by done. by rewrite !map_map. Qed.

Lemma ttl_sorted_older l : ttl_sorted l -> ttl_sorted (map older l).
Proof.
  induction l as [|e l IH]; intros Hs; [constructor|]. apply ttl_sorted_inv in Hs as [Hs He].
  simpl. constructor; [by apply IH|]. apply list.Forall_forall. intros e' Hin.
  apply list_elem_of_fmap in Hin as (e'' & -> & Hin). specialize (He _ Hin). simpl. lia.
Qed.

Lemma ttl_sorted_filter (P : entry -> Prop) `{forall x, Decision (P x)} (l : list entry) : ttl_sorted l -> ttl_sorted (filter P l).
Proof.
  induction l as [|e l IH]; intros Hs; [constructor|]. apply ttl_sorted_inv in Hs as [Hs He].
  rewrite filter_cons. case_decide; [|by apply IH]. constructor; [by apply IH|].
  apply list.Forall_forall. intros e' Hin. apply list_elem_of_filter in Hin as [_ Hin]. by apply He.
Qed.

Lemma encode_older lr l : encode_losses lr (map older l) = encode_losses lr l.
Proof. revert lr. induction l as [|e l IH]; intros lr; [done|]. apply IH. Qed.

Lemma filter_older l (k : Z) : 0 <= k ->
  filter (fun e => e_ttl e = k) (map older (filter (fun e => 0 < e_ttl e) l)) =
  map older (filter (fun e => e_ttl e = k + 1) l).
Proof.
  intros Hk. induction l as [|e l IH]; [done|]. rewrite !filter_cons.
  case_decide; simpl; rewrite ?filter_cons; repeat case_decide; simpl in *; rewrite ?IH; try done; lia.
Qed.

(** ** Properties *)

(** [removeOne] takes exactly the given position out of the records,
    splitting, shrinking or deleting the one that covers it, and keeps the
    others with their time to live; the result tells whether the position was
    covered and [had_ttl] which time to live it had. *)
Theorem fresh_removeOne (now lo hi x : Z) (l : list entry) (Hok : fresh_ok lo hi l) (Hx : lo <= x < hi) :
  exists l', removeOne now (map to_rec l) (seq_of x) =
      (map to_rec l', bool_decide (is_Some (ttl_at l x)), default 0 (ttl_at l x)) /\
    fresh_ok lo hi l' /\
    forall y, ttl_at l' y = if decide (y = x) then None else ttl_at l y.
Proof.
  destruct Hok as [Hw Hok]. destruct (removeOne_ok lo hi Hw now lo l x) as (l' & E & Hok' & Hl'); [lia|done|lia|].
  exists l'. unfold fresh_ok. auto.
Qed.

Lemma fresh_removeOne_witness :
  exists l', removeOne 9 (map to_rec [Entry (0x7FFFFFFD, 0x80000002) 4 7]) 0 = (map to_rec l', true, 4).
Proof.
  destruct (fresh_removeOne 9 0x7FFFFFF0 0x80000010 0x80000000 [Entry (0x7FFFFFFD, 0x80000002) 4 7])
    as (l' & E & _).
  - split; [vm_compute; discriminate|]. vm_compute. repeat split; discriminate.
  - lia.
  - exists l'. exact E.
Defined.

(** A drop request up to [to], with or without a known start, leaves
    exactly the positions after [to] in the records. *)
Theorem fresh_drop (lo hi from to : Z) (l : list entry) (Hok : fresh_ok lo hi l) (Hto : lo <= to < hi)
  (Hfrom : from = SRT_SEQNO_NONE \/ exists f, from = seq_of f /\ lo <= f <= to) :
  exists l', drop_fresh from (seq_of to) (map to_rec l) = map to_rec l' /\ fresh_ok lo hi l' /\
    forall y, ttl_at l' y = if decide (y <= to) then None else ttl_at l y.
Proof.
  destruct Hok as [Hw Hok]. destruct (drop_ok lo hi Hw lo l from to) as (l' & E & Hok' & Hl'); auto; [lia|].
  exists l'. unfold fresh_ok. auto.
Qed.

Lemma fresh_drop_witness :
  exists l', drop_fresh (-1) 0 (map to_rec [Entry (0x7FFFFFFA, 0x7FFFFFFB) 2 5; Entry (0x7FFFFFFD, 0x80000002) 4 7])
      = map to_rec l' /\ ttl_at l' 0x80000001 = Some 4.
Proof.
  destruct (fresh_drop 0x7FFFFFF0 0x80000010 (-1) 0x80000000
    [Entry (0x7FFFFFFA, 0x7FFFFFFB) 2 5; Entry (0x7FFFFFFD, 0x80000002) 4 7]) as (l' & E & _ & Hl).
  - split; [vm_compute; discriminate|]. vm_compute. repeat split; discriminate.
  - lia.
  - left. reflexivity.
  - exists l'. split; [exact E|]. rewrite Hl. reflexivity.
Defined.

(** Each record is reported once, by the call of [processData] that finds
    its time to live used up: of the calls that follow a loss, the one with
    number [k] reports exactly the records that had [k] left. *)
Theorem fresh_reported_once (l : list entry) (n k : nat) (Hs : ttl_sorted l)
  (Hpos : forall e, e ∈ l -> 0 <= e_ttl e) (Hk : (k < n)%nat) :
  age_rounds n (map to_rec l) !! k =
    Some (encode_losses [] (filter (fun e => e_ttl e = Z.of_nat k) l)).
Proof.
  revert k l Hs Hpos Hk. induction n as [|n IH]; intros k l Hs Hpos Hk; [lia|]. simpl.
  rewrite age_fresh_spec by done. destruct k as [|k]; simpl.
  - do 2 f_equal. apply filter_ext_in. intros e He. specialize (Hpos e He). lia.
  - rewrite IH; [| |..|lia].
    + rewrite filter_older, encode_older by lia. do 2 f_equal. apply list_filter_iff. intros e. lia.
    + apply ttl_sorted_older, ttl_sorted_filter, Hs.
    + intros e He. apply list_elem_of_fmap in He as (e' & -> & He). apply list_elem_of_filter in He as [He _]. simpl. lia.
Qed.

Lemma fresh_reported_once_witness :
  age_rounds 4 (map to_rec [Entry (3, 5) 1 0; Entry (8, 8) 3 0; Entry (9, 10) 3 0]) !! 3%nat =
    Some [8; Z.lor 9 (2 ^ 31); 10].
Proof.
  rewrite (fresh_reported_once [Entry (3, 5) 1 0; Entry (8, 8) 3 0; Entry (9, 10) 3 0] 4 3).
  - vm_compute. reflexivity.
  - repeat constructor; simpl; lia.
  - intros e He. repeat (apply elem_of_cons in He as [->|He]; [simpl; lia|]). by apply elem_of_nil in He.
  - lia.
Defined.
