(* ===== verification/LossReport.v ===== *)
(** Loss reports, from the receiver's loss list over the wire format to the
    sender's loss list, and the reordering tolerance that delays them: the
    parts of srtcore/core.cpp that use the lists of list.cpp. *)
From S2P Require Import Prelude SeqNo Slots.
From S2P Require SndLossList RcvLossList FreshLoss.
Import CSeqNo.

(** ** The receiver of a loss report *)
Module CUDT.
Record snd_t := mk_snd {
  m_pSndLossList : SndLossList.CSndLossList.t;
  m_iSndLastAck : Z;
  m_iSndCurrSeqNo : Z;
  (** the ranges of the UMSG_DROPREQ messages sent, in order *)
  dropreq_sent : list (Z * Z);
  (** [m_stats.sndr.lost] *)
  lost_count : Z;
  m_bBroken : bool;
}.

Definition with_list (l : SndLossList.CSndLossList.t) (num : Z) (st : snd_t) : snd_t :=
  mk_snd l (m_iSndLastAck st) (m_iSndCurrSeqNo st) (dropreq_sent st) (lost_count st + num) (m_bBroken st).
Definition send_dropreq (lo hi : Z) (st : snd_t) : snd_t :=
  mk_snd (m_pSndLossList st) (m_iSndLastAck st) (m_iSndCurrSeqNo st) (dropreq_sent st ++ [(lo, hi)])
    (lost_count st) (m_bBroken st).
Definition set_broken (st : snd_t) : snd_t :=
  mk_snd (m_pSndLossList st) (m_iSndLastAck st) (m_iSndCurrSeqNo st) (dropreq_sent st) (lost_count st) true.

(** [IsSet(w, LOSSDATA_SEQNO_RANGE_FIRST)] and [SEQNO_VALUE::unwrap] of a
    32-bit word. *)
Definition range_first (w : Z) : bool := Z.testbit w 31.
Definition SEQNO_VALUE_unwrap (w : Z) : Z := Z.land w 0x7FFFFFFF.

(** One range of the message; the boolean is [secure]. *)
Definition loss_range (losslist_lo losslist_hi : Z) (st : snd_t) : option (snd_t * bool) :=
  if (seqcmp losslist_lo losslist_hi >? 0) || (seqcmp losslist_hi (m_iSndCurrSeqNo st) >? 0)
  then Some (st, false)
  else
    let ack := m_iSndLastAck st in
    if seqcmp losslist_lo ack >=? 0 then
      r ← SndLossList.CSndLossList.insert losslist_lo losslist_hi (m_pSndLossList st);
      Some (with_list r.1 r.2 st, true)
    else
      let dropreq_hi := losslist_hi in
      if seqcmp losslist_hi ack >=? 0 then
        r ← SndLossList.CSndLossList.insert ack losslist_hi (m_pSndLossList st);
        let dropreq_hi := decseq ack in
        Some (with_list r.1 r.2 (send_dropreq losslist_lo dropreq_hi st), true)
      else Some (with_list (m_pSndLossList st) 0 (send_dropreq losslist_lo dropreq_hi st), true).

(** One single number of the message. *)
Definition loss_single (seq : Z) (st : snd_t) : option (snd_t * bool) :=
  if seqcmp seq (m_iSndLastAck st) >=? 0 then
    if seqcmp seq (m_iSndCurrSeqNo st) >? 0 then Some (st, false)
    else
      r ← SndLossList.CSndLossList.insert seq seq (m_pSndLossList st);
      Some (with_list r.1 r.2 st, true)
  else Some (send_dropreq seq seq st, true).

(** The loop over the words of the message. *)
Fixpoint loss_words (losslist : list Z) (st : snd_t) : option (snd_t * bool) :=
  match losslist with
  | [] => Some (st, true)
  | w :: rest =>
      if range_first w then
        match rest with
        | [] => Some (st, false)
        | hi :: rest' =>
            r ← loss_range (SEQNO_VALUE_unwrap w) (i32 hi) st;
            if r.2 : bool then loss_words rest' r.1 else Some (r.1, false)
        end
      else
        r ← loss_single w st;
        if r.2 : bool then loss_words rest r.1 else Some (r.1, false)
  end.

Definition processCtrlLossReport (losslist : list Z) (st : snd_t) : option snd_t :=
  r ← loss_words losslist st;
  Some (if r.2 : bool then r.1 else set_broken r.1).

(** [sendLossReport]: the message for a list of ranges. *)
Definition sendLossReport (loss_seqs : list (Z * Z)) : list Z :=
  foldl (fun buf i => if i.1 =? i.2 then buf ++ [i.1] else buf ++ [Z.lor i.1 (2 ^ 31); i.2]) [] loss_seqs.

(** ** The receiving side: reordering tolerance and loss records *)
Record rcv_t := mk_rcv {
  m_pRcvLossList : RcvLossList.CRcvLossList.t;
  m_FreshLoss : list FreshLoss.CRcvFreshLoss.t;
  m_iReorderTolerance : Z;
  m_iConsecEarlyDelivery : Z;
  m_iConsecOrderedDelivery : Z;
  (** [m_stats.traceReorderDistance] *)
  traceReorderDistance : Z;
}.

(** [unlose] for a packet with the given number and rexmit flag; the peer
    flag, the tolerance limit and the current number are members that it
    only reads. *)
Definition unlose (m_bPeerRexmitFlag : bool) (iMaxReorderTolerance m_iRcvCurrSeqNo now : Z)
    (sequence : Z) (rexmit : bool) (st : rcv_t) : option rcv_t :=
  l ← RcvLossList.CRcvLossList.remove sequence (m_pRcvLossList st);
  let loss := l.1 in
  let was_reordered := m_bPeerRexmitFlag && negb rexmit in
  let seqdiff := Z.abs (seqcmp m_iRcvCurrSeqNo sequence) in
  let trace := if was_reordered then Z.max seqdiff (traceReorderDistance st) else traceReorderDistance st in
  let has_increased_tolerance := was_reordered && (seqdiff >? m_iReorderTolerance st) in
  let tolerance := if has_increased_tolerance then Z.min seqdiff iMaxReorderTolerance
                   else m_iReorderTolerance st in
  if negb m_bPeerRexmitFlag || (tolerance =? 0) then
    Some (mk_rcv loss (m_FreshLoss st) tolerance (m_iConsecEarlyDelivery st) (m_iConsecOrderedDelivery st) trace)
  else
  let '(fresh, _, had_ttl) := FreshLoss.CRcvFreshLoss.removeOne now (m_FreshLoss st) sequence in
  if was_reordered then
    if has_increased_tolerance then Some (mk_rcv loss fresh tolerance 0 0 trace)
    else if had_ttl >? 2 then
      let early := m_iConsecEarlyDelivery st + 1 in
      if early >=? 10 then
        if tolerance >? 0 then Some (mk_rcv loss fresh (tolerance - 1) 0 0 (trace - 1))
        else Some (mk_rcv loss fresh tolerance 0 0 trace)
      else Some (mk_rcv loss fresh tolerance early 0 trace)
    else Some (mk_rcv loss fresh tolerance (m_iConsecEarlyDelivery st) 0 trace)
  else Some (mk_rcv loss fresh tolerance (m_iConsecEarlyDelivery st) (m_iConsecOrderedDelivery st) trace).

(** [dropFromLossLists]. *)
Definition dropFromLossLists (m_bPeerRexmitFlag : bool) (from to : Z) (st : rcv_t) : option rcv_t :=
  loss ← (if from =? SRT_SEQNO_NONE
          then r ← RcvLossList.CRcvLossList.removeUpTo to (m_pRcvLossList st); Some r.1
          else r ← RcvLossList.CRcvLossList.remove_range from to (m_pRcvLossList st); Some r.1);
  let fresh := if negb m_bPeerRexmitFlag || (m_iReorderTolerance st =? 0) then m_FreshLoss st
               else FreshLoss.CRcvFreshLoss.drop_fresh from to (m_FreshLoss st) in
  Some (mk_rcv loss fresh (m_iReorderTolerance st) (m_iConsecEarlyDelivery st)
          (m_iConsecOrderedDelivery st) (traceReorderDistance st)).

(** The recording of detected losses in [processData]. *)
Definition record_losses (initial_loss_ttl now : Z) (srt_loss_seqs : list (Z * Z)) (st : rcv_t) : rcv_t :=
  foldl (fun st i =>
    let loss := (RcvLossList.CRcvLossList.insert i.1 i.2 (m_pRcvLossList st)).1 in
    let fresh := if initial_loss_ttl =? 0 then m_FreshLoss st
                 else m_FreshLoss st ++ [FreshLoss.CRcvFreshLoss.mk i.1 i.2 initial_loss_ttl now] in
    mk_rcv loss fresh (m_iReorderTolerance st) (m_iConsecEarlyDelivery st)
      (m_iConsecOrderedDelivery st) (traceReorderDistance st)) st srt_loss_seqs.

(** The end of [processData]: the tolerance shrinks after 50 packets in order. *)
Definition ordered_delivery (m_bPeerRexmitFlag was_sent_in_order : bool) (st : rcv_t) : rcv_t :=
  if m_bPeerRexmitFlag && was_sent_in_order then
    let n := m_iConsecOrderedDelivery st + 1 in
    if n >=? 50 then
      if m_iReorderTolerance st >? 0
      then mk_rcv (m_pRcvLossList st) (m_FreshLoss st) (m_iReorderTolerance st - 1)
             (m_iConsecEarlyDelivery st) 0 (traceReorderDistance st - 1)
      else mk_rcv (m_pRcvLossList st) (m_FreshLoss st) (m_iReorderTolerance st)
             (m_iConsecEarlyDelivery st) 0 (traceReorderDistance st)
    else mk_rcv (m_pRcvLossList st) (m_FreshLoss st) (m_iReorderTolerance st)
           (m_iConsecEarlyDelivery st) n (traceReorderDistance st)
  else st.
End CUDT.
Import CUDT.

(** ** The wire format *)

Definition words_of (iv : Z * Z) : list Z :=
  if iv.1 =? iv.2 then [seq_of iv.1] else [Z.lor (seq_of iv.1) (2 ^ 31); seq_of iv.2].

Definition encode (l : list (Z * Z)) : list Z := flat_map words_of l.

Lemma seq_not_range a : range_first (seq_of a) = false.
Proof. unfold range_first, seq_of. apply Z.mod_pow2_bits_high. lia. Qed.

Lemma range_word a : range_first (Z.lor (seq_of a) (2 ^ 31)) = true /\
  SEQNO_VALUE_unwrap (Z.lor (seq_of a) (2 ^ 31)) = seq_of a.
Proof.
  split.
  - unfold range_first. rewrite Z.lor_spec, Z.pow2_bits_true by lia. apply orb_true_r.
  - unfold SEQNO_VALUE_unwrap. change 0x7FFFFFFF with (Z.ones 31). rewrite Z.land_lor_distr_l.
    rewrite !Z.land_ones by lia. rewrite Z.mod_same, Z.lor_0_r by lia. unfold seq_of. apply Z.mod_mod. lia.
Qed.

Lemma i32_seq_of a : i32 (seq_of a) = seq_of a.
Proof. apply i32_id. pose proof (seq_of_valid a). unfold in_i32, valid, m_iMaxSeqNo in *. lia. Qed.

(** ** Writing a report *)

Section Write.
Import RcvLossList RcvLossList.CRcvLossList.

Lemma encode_app l1 l2 : encode (l1 ++ l2) = encode l1 ++ encode l2.
Proof. unfold encode. induction l1 as [|iv l1 IH]; [done|]. simpl. by rewrite IH, app_assoc. Qed.

Lemma loss_loop n c lo st l1 l2 arr limit : rep c lo st (l1 ++ l2) -> (length l2 < n)%nat -> zlen arr <= limit ->
  exists m r, l2 = m ++ r /\
    loop n (loss_step st limit) (arr, hd_pos (m_iSize st) c l2 (-1)) = Some (arr ++ encode m) /\
    zlen (arr ++ encode m) <= limit /\ (r = [] \/ limit - 1 <= zlen (arr ++ encode m)).
Proof.
  revert l1 l2 arr. induction n as [|n IH]; intros l1 l2 arr Hrep Hn Harr; [lia|]. simpl loop.
  destruct l2 as [|[a b] l2].
  { exists [], []. simpl. unfold loss_step. rewrite andb_false_r. unfold encode. simpl. rewrite app_nil_r. auto. }
  pose proof (r_size _ _ _ _ Hrep). destruct (around c lo st l1 a b l2 Hrep) as (E & Hab & _).
  simpl hd_pos. pose proof (pos_bound (m_iSize st) c ltac:(lia) a). unfold loss_step at 1.
  rewrite (proj2 (Z.eqb_neq (pos (m_iSize st) c a) (-1))) by lia. cbn [negb]. rewrite andb_true_r.
  destruct (Z.ltb_spec (zlen arr) (limit - 1)).
  2: { exists [], ((a, b) :: l2). unfold encode. simpl. rewrite app_nil_r. auto. }
  rewrite E. cbn [seqstart seqend inext]. rewrite end_code_none.
  rewrite (cons_middle (a, b)), app_assoc in Hrep.
  assert (Hw : arr ++ words_of (a, b) = (if negb (a =? b)
     then arr ++ [Z.lor (seq_of a) LOSSDATA_SEQNO_RANGE_FIRST; end_code a b] else arr ++ [seq_of a])).
  { unfold words_of, end_code. simpl. by destruct (a =? b). }
  destruct (IH _ l2 (arr ++ words_of (a, b)) Hrep) as (m & r & -> & El & Hlen & Hr).
  { simpl in Hn. lia. }
  { rewrite length_app. unfold words_of. destruct (_ =? _); simpl; lia. }
  exists ((a, b) :: m), r. split; [done|]. unfold encode in *. cbn [flat_map].
  rewrite app_assoc. split; [|done]. rewrite <- El, Hw. by destruct (negb (a =? b)).
Qed.

(** What [getLossArray] writes is an initial part of the list. *)
Lemma loss_array_spec c lo st l limit : rep c lo st l -> 0 <= limit ->
  exists m r, l = m ++ r /\ getLossArray limit st = Some (encode m) /\
    zlen (encode m) <= limit /\ (r = [] \/ limit - 1 <= zlen (encode m)).
Proof.
  intros Hrep Hlim. unfold getLossArray. rewrite (r_head _ _ _ _ Hrep). pose proof (r_size _ _ _ _ Hrep).
  destruct (loss_loop (fuel st) c lo st [] l [] limit Hrep) as (m & r & -> & E & ?).
  - unfold fuel. pose proof (ivs_length lo (lo + m_iSize st) l ltac:(lia) (r_ok _ _ _ _ Hrep)).
    pose proof (proj1 (r_layout _ _ _ _ Hrep)). lia.
  - simpl. lia.
  - exists m, r. auto.
Qed.
End Write.

(** ** Reading a report *)

Lemma loss_words_single w rest st : range_first w = false ->
  loss_words (w :: rest) st =
    (r ← loss_single w st; if r.2 : bool then loss_words rest r.1 else Some (r.1, false)).
Proof. intros E. simpl. by rewrite E. Qed.

Lemma loss_words_range w hi rest st : range_first w = true ->
  loss_words (w :: hi :: rest) st =
    (r ← loss_range (SEQNO_VALUE_unwrap w) (i32 hi) st;
     if r.2 : bool then loss_words rest r.1 else Some (r.1, false)).
Proof. intros E. simpl. by rewrite E. Qed.

Section Read.
Import SndLossList SndLossList.CSndLossList.
(** The sender's last acknowledged and last sent positions. *)
Context (ack cur : Z).

Record sender (st : snd_t) (S : gset Z) : Prop := {
  s_list : holds (m_pSndLossList st) S;
  s_ack : m_iSndLastAck st = seq_of ack;
  s_cur : m_iSndCurrSeqNo st = seq_of cur;
}.

Definition dropped (iv : Z * Z) : list (Z * Z) :=
  if iv.1 <? ack then [(seq_of iv.1, seq_of (Z.min iv.2 (ack - 1)))] else [].

(** What a part of the message does to the sender. *)
Definition after (st st' : snd_t) (S S' : gset Z) (drops : list (Z * Z)) : Prop :=
  sender st' S' /\ m_iSize (m_pSndLossList st') = m_iSize (m_pSndLossList st) /\
  dropreq_sent st' = dropreq_sent st ++ drops /\
  lost_count st' = lost_count st + (Z.of_nat (size S') - Z.of_nat (size S)) /\
  m_bBroken st' = m_bBroken st.

Context (lo n : Z) (Hn : n <= m_iSeqNoTH) (Hack : lo <= ack <= cur + 1) (Hcur : cur < lo + n).

Lemma insert_part st S a b : sender st S -> m_iSize (m_pSndLossList st) = n ->
  lo <= a <= b -> b <= cur -> b - a + 1 < n -> fits lo n S ->
  exists l, insert (seq_of a) (seq_of b) (m_pSndLossList st) =
      Some (l, Z.of_nat (size (S ∪ range a b)) - Z.of_nat (size S)) /\
    holds l (S ∪ range a b) /\ m_iSize l = n.
Proof.
  intros [Hl _ _] Hs Hab Hb Hr Hf.
  destruct (snd_insert_holds (m_pSndLossList st) S a b lo Hl) as (l & E & Hl' & Hsz); [lia|lia| |].
  - rewrite Hs. intros x [Hx|Hx%elem_of_range]%elem_of_union; [by apply Hf|simpl; lia].
  - exists l. rewrite E, Hsz, Hs. auto.
Qed.

Lemma read_iv st S a b rest : sender st S -> m_iSize (m_pSndLossList st) = n ->
  cur + 1 - m_iSeqNoTH < a -> a <= b <= cur -> b - Z.max a ack + 1 < n -> fits lo n S ->
  exists st', loss_words (words_of (a, b) ++ rest) st = loss_words rest st' /\
    after st st' S (S ∪ range (Z.max a ack) b) (dropped (a, b)).
Proof.
  intros Hst Hs Ha Hab Hr Hf. pose proof Hst as [Hl Hack' Hcur']. unfold words_of, dropped, after. cbn [fst snd].
  assert (Hempty : b < ack -> S ∪ range (Z.max a ack) b = S).
  { intros Hb. apply set_eq. intros x. rewrite elem_of_union, elem_of_range. split; [intros [?|?]; [done|lia]|auto]. }
  destruct (Z.eqb_spec a b) as [<-|Hne].
  - cbn [app]. rewrite loss_words_single by apply seq_not_range. unfold loss_single. rewrite Hack', Hcur'. seqsimp.
    destruct (Z.geb_spec a ack).
    + destruct (Z.gtb_spec a cur); [lia|]. rewrite Z.max_l in * by lia.
      destruct (insert_part st S a a Hst Hs) as (l & E & Hl' & Hsz); [lia..|done|].
      rewrite E, !bind_Some. cbn [fst snd]. eexists. split; [reflexivity|]. destruct (Z.ltb_spec a ack); [lia|].
      rewrite app_nil_r. repeat split; auto; simpl; lia.
    + eexists. split; [reflexivity|]. destruct (Z.ltb_spec a ack); [|lia].
      rewrite Z.min_l, Hempty by lia. repeat split; auto; simpl; lia.
  - cbn [app]. rewrite loss_words_range by apply range_word. rewrite (proj2 (range_word a)), i32_seq_of.
    unfold loss_range. rewrite Hack', Hcur'. seqsimp.
    destruct (Z.gtb_spec a b), (Z.gtb_spec b cur); try lia. cbn [orb].
    destruct (Z.geb_spec a ack).
    + rewrite Z.max_l in * by lia.
      destruct (insert_part st S a b Hst Hs) as (l & E & Hl' & Hsz); [lia..|done|].
      rewrite E, !bind_Some. cbn [fst snd]. eexists. split; [reflexivity|]. destruct (Z.ltb_spec a ack); [lia|].
      rewrite app_nil_r. repeat split; auto; simpl; lia.
    + destruct (Z.ltb_spec a ack); [|lia]. destruct (Z.geb_spec b ack).
      * rewrite Z.max_r in * by lia. rewrite Z.min_r by lia.
        destruct (insert_part st S ack b Hst Hs) as (l & E & Hl' & Hsz); [lia..|done|].
        rewrite E, !bind_Some. cbn [fst snd]. eexists. split; [reflexivity|]. repeat split; auto; simpl; lia.
      * rewrite Z.min_l, Hempty by lia. eexists. split; [reflexivity|]. repeat split; auto; simpl; lia.
Qed.

Lemma read_ivs st S l rest glo : sender st S -> m_iSize (m_pSndLossList st) = n -> fits lo n S ->
  cur + 1 - m_iSeqNoTH < glo -> ivs_ok glo (cur + 1) l -> (forall a b, (a, b) ∈ l -> b - Z.max a ack + 1 < n) ->
  exists st', loss_words (encode l ++ rest) st = loss_words rest st' /\
    after st st' S (S ∪ filter (fun x => ack <= x) (ivs_set l)) (flat_map dropped l).
Proof.
  revert st S glo. induction l as [|[a b] l IH]; intros st S glo Hst Hs Hf Hg Hok Hlen.
  { exists st. simpl ivs_set. rewrite filter_empty_L by apply _. rewrite union_empty_r_L.
    split; [done|]. repeat split; try apply Hst; auto; simpl; rewrite ?app_nil_r; auto; lia. }
  simpl in Hok. destruct Hok as (? & ? & ? & Hok).
  destruct (read_iv st S a b (encode l ++ rest) Hst Hs) as (st1 & E1 & Hst1 & Hs1 & Hd1 & Hc1 & Hb1);
    [lia|lia|by apply Hlen; left|done|].
  destruct (IH st1 (S ∪ range (Z.max a ack) b) (b + 1)) as (st2 & E2 & Hst2 & Hs2 & Hd2 & Hc2 & Hb2); auto; try lia.
  { intros x [Hx|Hx%elem_of_range]%elem_of_union; [by apply Hf|simpl; lia]. }
  { intros x y Hin. apply Hlen. by right. }
  exists st2. unfold encode in *. cbn [flat_map]. rewrite <- app_assoc, E1, E2. split; [done|].
  assert (HS : S ∪ filter (fun x => ack <= x) (ivs_set ((a, b) :: l)) =
               S ∪ range (Z.max a ack) b ∪ filter (fun x => ack <= x) (ivs_set l)).
  { apply set_eq. intros x. simpl ivs_set. rewrite !elem_of_union, !elem_of_filter, elem_of_union, !elem_of_range.
    mem_codes. lia. }
  rewrite HS. split; [done|]. split; [congruence|]. split; [|split; [lia|congruence]].
  rewrite Hd2, Hd1, <- app_assoc. done.
Qed.
End Read.

Lemma loss_words_secure st st' words : loss_words words st = Some (st', true) ->
  processCtrlLossReport words st = Some st'.
Proof. intros E. unfold processCtrlLossReport. by rewrite E. Qed.

Lemma dropped_len ack cur lo n glo l : lo <= ack -> cur - ack + 1 < n -> ivs_ok glo (cur + 1) l ->
  forall a b, (a, b) ∈ l -> b - Z.max a ack + 1 < n.
Proof.
  intros Hlo Hn Hok a b Hin. pose proof (starts_ok_elem _ _ _ _ _ (ivs_ok_starts _ _ _ Hok) Hin). lia.
Qed.

(** ** Properties *)

(** C11. A loss report built by the receiver and processed by the sender: the
    message fits into [limit] words, it names an initial part of the
    receiver's loss list, all of it unless the message is full, and the
    sender's list afterwards holds what it held before and the reported
    positions that are not acknowledged yet. *)
Theorem loss_report_delivered (rl : RcvLossList.CRcvLossList.t) (R : gset Z) (g : option Z) (limit : Z)
  (st : snd_t) (S : gset Z) (ack cur lo : Z)
  (HR : RcvLossList.holds rl R g) (Hlim : 0 <= limit) (Hst : sender ack cur st S)
  (Hn : SndLossList.CSndLossList.m_iSize (m_pSndLossList st) <= m_iSeqNoTH)
  (Hack : lo <= ack <= cur + 1) (Hcur : cur < lo + SndLossList.CSndLossList.m_iSize (m_pSndLossList st))
  (Hflight : cur - ack + 1 < SndLossList.CSndLossList.m_iSize (m_pSndLossList st))
  (HS : fits lo (SndLossList.CSndLossList.m_iSize (m_pSndLossList st)) S)
  (HRw : fits (cur + 2 - m_iSeqNoTH) (m_iSeqNoTH - 1) R) :
  exists words reported st', RcvLossList.CRcvLossList.getLossArray limit rl = Some words /\
    zlen words <= limit /\ reported ⊆ R /\
    (forall x y, x ∈ reported -> y ∈ R -> y ∉ reported -> x < y) /\
    (reported = R \/ limit - 1 <= zlen words) /\
    processCtrlLossReport words st = Some st' /\
    sender ack cur st' (S ∪ filter (fun x => ack <= x) reported) /\
    lost_count st' - lost_count st = Z.of_nat (size (filter (fun x => ack <= x) reported ∖ S)) /\
    m_bBroken st' = m_bBroken st.
Proof.
  destruct HR as [(c & lo0 & l & Hrep & <-) _].
  destruct (loss_array_spec c lo0 rl l limit Hrep Hlim) as (m & r & -> & E & Hlen & Hfull).
  pose proof (RcvLossList.r_ok _ _ _ _ Hrep) as Hok.
  apply (ivs_rewindow _ _ _ _ _ Hok) in HRw.
  replace (cur + 2 - m_iSeqNoTH + (m_iSeqNoTH - 1)) with (cur + 1) in HRw by lia.
  apply ivs_ok_app in HRw as [Hokm Hokr].
  destruct (read_ivs ack cur lo _ Hn Hack Hcur st S m [] (cur + 2 - m_iSeqNoTH) Hst eq_refl HS)
    as (st' & E' & Hst' & _ & _ & Hc & Hb); [lia|done|eapply (dropped_len ack cur lo); [lia|exact Hflight|eassumption]|].
  rewrite app_nil_r in E'. exists (encode m), (ivs_set m), st'. split_and!; auto.
  - rewrite ivs_set_app. set_solver.
  - intros x y Hx Hy Hny. rewrite ivs_set_app, elem_of_union in Hy. destruct Hy as [|Hy]; [done|].
    pose proof (ivs_set_below _ _ _ _ Hokm Hx). pose proof (ivs_set_bounds _ _ _ _ Hokr Hy). lia.
  - destruct Hfull as [->|?]; [left; by rewrite app_nil_r|by right].
  - by apply loss_words_secure.
  - rewrite Hc, size_union_alt. lia.
Qed.

(** C38. A report with a range or number beyond the last sent packet, with its
    bounds swapped, or cut off after the first word of a range, breaks the
    connection; the ranges before it are in the loss list, the rest is not
    read. *)
Theorem loss_report_rejected (st : snd_t) (S : gset Z) (ack cur lo glo a b : Z) (l : list (Z * Z)) (bad rest : list Z)
  (Hst : sender ack cur st S) (Hn : SndLossList.CSndLossList.m_iSize (m_pSndLossList st) <= m_iSeqNoTH)
  (Hack : lo <= ack <= cur + 1) (Hcur : cur < lo + SndLossList.CSndLossList.m_iSize (m_pSndLossList st))
  (Hflight : cur - ack + 1 < SndLossList.CSndLossList.m_iSize (m_pSndLossList st))
  (HS : fits lo (SndLossList.CSndLossList.m_iSize (m_pSndLossList st)) S)
  (Hg : cur + 1 - m_iSeqNoTH < glo) (Hl : ivs_ok glo (cur + 1) l)
  (Ha : - m_iSeqNoTH < a - ack < m_iSeqNoTH /\ - m_iSeqNoTH < a - cur < m_iSeqNoTH)
  (Hb : - m_iSeqNoTH < b - cur < m_iSeqNoTH /\ - m_iSeqNoTH < b - a < m_iSeqNoTH)
  (Hbad : bad ++ rest = [Z.lor (seq_of a) (2 ^ 31)] \/
          bad = [Z.lor (seq_of a) (2 ^ 31); seq_of b] /\ (cur < b \/ b < a) \/
          bad = [seq_of a] /\ cur < a) :
  exists st', processCtrlLossReport (encode l ++ bad ++ rest) st = Some st' /\ m_bBroken st' = true /\
    sender ack cur st' (S ∪ filter (fun x => ack <= x) (ivs_set l)).
Proof.
  destruct (read_ivs ack cur lo _ Hn Hack Hcur st S l (bad ++ rest) glo Hst eq_refl HS)
    as (st1 & E & Hst1 & _); [lia|done|eapply (dropped_len ack cur lo); [lia|exact Hflight|eassumption]|].
  exists (set_broken st1). split; [|split; [done|by destruct Hst1]].
  unfold processCtrlLossReport. rewrite E. destruct Hst1 as [_ Ha1 Hc1].
  assert (loss_words (bad ++ rest) st1 = Some (st1, false)) as ->; [|done].
  destruct Hbad as [->|[[-> Hx]|[-> Hx]]].
  - simpl. by rewrite (proj1 (range_word a)).
  - cbn [app]. rewrite loss_words_range by apply range_word. rewrite (proj2 (range_word a)), i32_seq_of.
    unfold loss_range. rewrite Hc1. seqsimp.
    destruct (Z.gtb_spec a b); [done|]. by destruct (Z.gtb_spec b cur); [|lia].
  - cbn [app]. rewrite loss_words_single by apply seq_not_range.
    unfold loss_single. rewrite Ha1, Hc1. seqsimp.
    destruct (Z.geb_spec a ack); [|lia]. by destruct (Z.gtb_spec a cur); [|lia].
Qed.

Lemma sender_init : sender 6 10 (mk_snd (SndLossList.CSndLossList.init 20 (fun _ => 0)) 6 10 [] 0 false) ∅.
Proof.
  split; [|reflexivity|reflexivity]. apply SndLossList.snd_init_holds. vm_compute. split; [reflexivity|discriminate].
Defined.

Lemma loss_report_delivered_witness :
  exists rl words st', RcvLossList.CRcvLossList.insert 5 7 (RcvLossList.CRcvLossList.init 20 (fun _ => (0, 0))) = (rl, 3) /\
    RcvLossList.CRcvLossList.getLossArray 10 rl = Some words /\ words = [2 ^ 31 + 5; 7] /\
    processCtrlLossReport words
      (mk_snd (SndLossList.CSndLossList.init 20 (fun _ => 0)) 6 10 [] 0 false) = Some st' /\
    m_bBroken st' = false.
Proof.
  destruct (RcvLossList.rcv_insert_holds (RcvLossList.CRcvLossList.init 20 (fun _ => (0, 0))) ∅ None 5 7 0)
    as (rl & E & Hh & _).
  - apply RcvLossList.rcv_init_holds. vm_compute. split; [reflexivity|discriminate].
  - lia.
  - exact I.
  - exact I.
  - apply (bool_decide_unpack _). vm_compute. exact I.
  - destruct (loss_report_delivered rl (∅ ∪ range 5 7) (Some 7) 10 _ ∅ 6 10 0 Hh ltac:(lia) sender_init)
      as (words & rep & st' & E1 & _ & _ & _ & _ & E2 & _ & _ & Hb).
    + vm_compute. discriminate.
    + lia.
    + vm_compute. reflexivity.
    + vm_compute. reflexivity.
    + apply (bool_decide_unpack _). vm_compute. exact I.
    + apply (bool_decide_unpack _). vm_compute. exact I.
    + exists rl, words, st'. repeat split; [exact E|exact E1| |exact E2|exact Hb].
      vm_compute in E. injection E as <-. vm_compute in E1. injection E1 as <-. reflexivity.
Defined.

Lemma loss_report_rejected_witness :
  exists st', processCtrlLossReport [7; 2 ^ 31 + 8; 12; 9]
      (mk_snd (SndLossList.CSndLossList.init 20 (fun _ => 0)) 6 10 [] 0 false) = Some st' /\ m_bBroken st' = true.
Proof.
  destruct (loss_report_rejected _ ∅ 6 10 0 1 8 12 [(7, 7)] [2 ^ 31 + 8; 12] [9] sender_init) as (st' & E & Hb & _).
  - vm_compute. discriminate.
  - lia.
  - vm_compute. reflexivity.
  - vm_compute. reflexivity.
  - apply (bool_decide_unpack _). vm_compute. exact I.
  - vm_compute. reflexivity.
  - simpl. lia.
  - unfold m_iSeqNoTH. lia.
  - unfold m_iSeqNoTH. lia.
  - right. left. split; [reflexivity|lia].
  - exists st'. split; [exact E|exact Hb].
Defined.

(** The distance [unlose] measures between the current position and the one
    of the belated packet: the lag, unless the 31-bit numbers wrapped between
    the two. *)
Definition measured_lag (cur x : Z) : Z :=
  if cur / 2 ^ 31 =? x / 2 ^ 31 then Z.abs (cur - x) else 2 ^ 31 - Z.abs (cur - x).

Lemma seqcmp_abs cur x : - m_iSeqNoTH < cur - x < m_iSeqNoTH ->
  Z.abs (seqcmp (seq_of cur) (seq_of x)) = measured_lag cur x.
Proof.
  intros H. unfold measured_lag, seqcmp, seq_of, m_iSeqNoTH in *.
  pose proof (Z.div_mod cur (2 ^ 31) ltac:(lia)). pose proof (Z.mod_pos_bound cur (2 ^ 31) ltac:(lia)).
  pose proof (Z.div_mod x (2 ^ 31) ltac:(lia)). pose proof (Z.mod_pos_bound x (2 ^ 31) ltac:(lia)).
  set (qc := cur / 2 ^ 31) in *. set (qx := x / 2 ^ 31) in *.
  destruct (Z.ltb_spec (Z.abs (cur mod 2 ^ 31 - x mod 2 ^ 31)) 0x3FFFFFFF); destruct (Z.eqb_spec qc qx); lia.
Qed.

(** A belated packet, reported by [unlose]: its position leaves the loss
    list and the record of fresh losses, a packet that was not retransmitted
    and whose measured lag exceeds the reordering tolerance raises the
    tolerance to that lag, up to the limit, and the tolerance never leaves the
    range from 0 to that limit.  The measured lag is the real one except when
    the sequence numbers wrapped in between; then it is at least half the
    number range, and one packet late by one raises the tolerance to the
    limit. *)
Theorem unlose_effect (st : rcv_t) (S : gset Z) (g : option Z) (l : list FreshLoss.entry)
  (max_tol cur now x lo flo fhi : Z) (rexmit : bool)
  (HS : RcvLossList.holds (m_pRcvLossList st) S g) (Hn : RcvLossList.near g x)
  (Hf : fits lo (RcvLossList.CRcvLossList.m_iSize (m_pRcvLossList st)) (S ∪ {[x]}))
  (Hl : m_FreshLoss st = map FreshLoss.to_rec l) (Hok : FreshLoss.fresh_ok flo fhi l) (Hx : flo <= x < fhi)
  (Hcur : - m_iSeqNoTH < cur - x < m_iSeqNoTH)
  (Htol : 0 <= m_iReorderTolerance st <= max_tol) (Hpos : 0 < m_iReorderTolerance st) :
  exists st' l', unlose true max_tol (seq_of cur) now (seq_of x) rexmit st = Some st' /\
    RcvLossList.holds (m_pRcvLossList st') (S ∖ {[x]}) (RcvLossList.spec_remove S g x).2 /\
    m_FreshLoss st' = map FreshLoss.to_rec l' /\
    (forall y, FreshLoss.ttl_at l' y = if decide (y = x) then None else FreshLoss.ttl_at l y) /\
    0 <= m_iReorderTolerance st' <= max_tol /\
    (rexmit = false -> m_iReorderTolerance st < measured_lag cur x ->
       m_iReorderTolerance st' = Z.min (measured_lag cur x) max_tol).
Proof.
  destruct (RcvLossList.remove_holds _ S g x lo HS Hn Hf) as (loss & E & Hloss & _).
  rewrite RcvLossList.spec_remove_set in Hloss.
  destruct Hok as [Hw Hok].
  destruct (FreshLoss.removeOne_ok flo fhi Hw now flo l x) as (l' & E' & _ & Hl'); [lia|done|lia|].
  pose proof (seqcmp_abs cur x Hcur) as Hd.
  assert (0 <= measured_lag cur x) by lia.
  set (d := measured_lag cur x) in *.
  assert (exists tol e o tr, unlose true max_tol (seq_of cur) now (seq_of x) rexmit st =
      Some (mk_rcv loss (map FreshLoss.to_rec l') tol e o tr) /\ 0 <= tol <= max_tol /\
      (rexmit = false -> m_iReorderTolerance st < d -> tol = Z.min d max_tol))
    as (tol & e & o & tr & Eu & Ht & Ht').
  { unfold unlose. rewrite E, bind_Some. cbn [fst]. rewrite Hd, Hl, E'. cbn [negb orb andb].
    destruct rexmit; cbn [negb andb].
    - destruct (Z.eqb_spec (m_iReorderTolerance st) 0); [lia|].
      do 4 eexists. split; [reflexivity|]. split; [done|discriminate].
    - destruct (Z.gtb_spec d (m_iReorderTolerance st)).
      + destruct (Z.eqb_spec (Z.min d max_tol) 0); [lia|].
        do 4 eexists. split; [reflexivity|]. split; [lia|done].
      + destruct (Z.eqb_spec (m_iReorderTolerance st) 0); [lia|].
        assert (Hall : forall tol, tol = m_iReorderTolerance st \/ tol = m_iReorderTolerance st - 1 ->
          0 <= tol <= max_tol /\ (false = false -> m_iReorderTolerance st < d -> tol = Z.min d max_tol))
          by (intros; lia).
        destruct (_ >? 2); [|do 4 eexists; split; [reflexivity|apply Hall; auto]].
        destruct (_ >=? 10); [|do 4 eexists; split; [reflexivity|apply Hall; auto]].
        destruct (_ >? 0); do 4 eexists; (split; [reflexivity|apply Hall; auto]). }
  exists (mk_rcv loss (map FreshLoss.to_rec l') tol e o tr), l'. split_and!; auto; apply Ht.
Qed.

Lemma unlose_effect_witness :
  exists st', unlose true 40 0 0 2147483647 false
      (mk_rcv (RcvLossList.CRcvLossList.init 20 (fun _ => (0, 0)))
        (map FreshLoss.to_rec [FreshLoss.Entry (2147483645, 2147483650) 3 0]) 5 0 7 0) = Some st' /\
    m_iReorderTolerance st' = 40.
Proof.
  destruct (unlose_effect (mk_rcv (RcvLossList.CRcvLossList.init 20 (fun _ => (0, 0)))
      (map FreshLoss.to_rec [FreshLoss.Entry (2147483645, 2147483650) 3 0]) 5 0 7 0) ∅ None
      [FreshLoss.Entry (2147483645, 2147483650) 3 0]
      40 2147483648 0 2147483647 2147483640 2147483640 2147483660 false) as (st' & l' & E & _ & _ & _ & _ & Ht).
  - apply RcvLossList.rcv_init_holds. vm_compute. split; [reflexivity|discriminate].
  - exact I.
  - apply (bool_decide_unpack _). vm_compute. exact I.
  - reflexivity.
  - split; [vm_compute; discriminate|]. vm_compute. repeat split; discriminate.
  - lia.
  - unfold m_iSeqNoTH. lia.
  - simpl. lia.
  - simpl. lia.
  - exists st'. split; [exact E|]. apply Ht; vm_compute; reflexivity.
Defined.
