(* ===== verification/TsbPd.v ===== *)
(** Timestamp-based delivery: the [DriftTracer] of utilities.h and
    [CTsbpdTime] of tsbpd_time.h and tsbpd_time.cpp.  Times and durations are
    microseconds; the mutex is left out, every method runs under it. *)
From S2P Require Import Prelude.

Module DriftTracer.
Section Tracer.
(** The template arguments; CTsbpdTime instantiates [CLEAR_ON_UPDATE] by its default. *)
Context (MAX_SPAN MAX_DRIFT : Z) (CLEAR_ON_UPDATE : bool).

Record t := mk { m_qDrift : Z; m_qOverdrift : Z; m_qDriftSum : Z; m_uDriftSpan : Z }.

Definition init : t := mk 0 0 0 0.

Definition update (driftval : Z) (d : t) : t * bool :=
  let sum := m_qDriftSum d + driftval in
  let span := m_uDriftSpan d + 1 in
  let over := if CLEAR_ON_UPDATE then 0 else m_qOverdrift d in
  if span <? MAX_SPAN then (mk (m_qDrift d) over sum span, false) else
  let drift := Z.quot sum span in
  if Z.abs drift >? MAX_DRIFT then
    let over := if drift <? 0 then - MAX_DRIFT else MAX_DRIFT in
    (mk (drift - over) over 0 0, true)
  else (mk drift over 0 0, true).

Definition forceDrift (driftval : Z) (d : t) : t :=
  mk driftval (m_qOverdrift d) (m_qDriftSum d) (m_uDriftSpan d).

Definition drift (d : t) : Z := m_qDrift d.
Definition overdrift (d : t) : Z := m_qOverdrift d.
End Tracer.
End DriftTracer.

Module CTsbpdTime.
Definition TSBPD_WRAP_PERIOD : Z := 30 * 1000000.
Definition TSBPD_DRIFT_MAX_VALUE : Z := 5000.
Definition TSBPD_DRIFT_MAX_SAMPLES : Z := 1000.
(** [CPacket::MAX_TIMESTAMP]. *)
Definition MAX_TIMESTAMP : Z := 0xFFFFFFFF.

Record t := mk {
  m_iFirstRTT : Z;
  m_bTsbPdMode : bool;
  m_tdTsbPdDelay : Z;
  m_tsTsbPdTimeBase : Z;
  m_bTsbPdWrapCheck : bool;
  m_DriftTracer : DriftTracer.t;
}.

Definition init (time_point0 : Z) : t := mk (-1) false 0 time_point0 false DriftTracer.init.

Definition with_base (base : Z) (wrap : bool) (st : t) : t :=
  mk (m_iFirstRTT st) (m_bTsbPdMode st) (m_tdTsbPdDelay st) base wrap (m_DriftTracer st).

Definition getBaseTimeNoLock (timestamp_us : Z) (st : t) : Z :=
  m_tsTsbPdTimeBase st +
  (if m_bTsbPdWrapCheck st && (timestamp_us <=? 2 * TSBPD_WRAP_PERIOD) then MAX_TIMESTAMP + 1 else 0).

Definition getPktBaseTimeNoLock (usPktTimestamp : Z) (st : t) : Z :=
  getBaseTimeNoLock usPktTimestamp st + usPktTimestamp.

Definition getPktTime (usPktTimestamp : Z) (st : t) : Z :=
  getPktBaseTimeNoLock usPktTimestamp st + m_tdTsbPdDelay st + DriftTracer.drift (m_DriftTracer st).

Definition addDriftSample (usPktTimestamp tsPktArrival usRTTSample : Z) (st : t) : t * bool :=
  if negb (m_bTsbPdMode st) then (st, false) else
  let first := if m_iFirstRTT st =? -1 then usRTTSample else m_iFirstRTT st in
  let tdRTTDelta := if usRTTSample >=? 0 then Z.quot (usRTTSample - first) 2 else 0 in
  let tdDrift := tsPktArrival - getPktBaseTimeNoLock usPktTimestamp st - tdRTTDelta in
  let '(tracer, updated) :=
    DriftTracer.update TSBPD_DRIFT_MAX_SAMPLES TSBPD_DRIFT_MAX_VALUE true tdDrift (m_DriftTracer st) in
  let base := if updated then m_tsTsbPdTimeBase st + DriftTracer.overdrift tracer else m_tsTsbPdTimeBase st in
  (mk first true (m_tdTsbPdDelay st) base (m_bTsbPdWrapCheck st) tracer, updated).

Definition setTsbPdMode (timebase : Z) (wrap : bool) (delay : Z) (st : t) : t :=
  mk (m_iFirstRTT st) true delay timebase wrap (m_DriftTracer st).

Definition applyGroupTime (timebase : Z) (wrp : bool) (delay udrift : Z) (st : t) : t :=
  mk (m_iFirstRTT st) true delay timebase wrp (DriftTracer.forceDrift udrift (m_DriftTracer st)).

Definition applyGroupDrift (timebase : Z) (wrp : bool) (udrift : Z) (st : t) : t :=
  mk (m_iFirstRTT st) (m_bTsbPdMode st) (m_tdTsbPdDelay st) timebase wrp
    (DriftTracer.forceDrift udrift (m_DriftTracer st)).

Definition updateBaseTime (usPktTimestamp : Z) (st : t) : t :=
  if m_bTsbPdWrapCheck st then
    if (usPktTimestamp >=? TSBPD_WRAP_PERIOD) && (usPktTimestamp <=? TSBPD_WRAP_PERIOD * 2)
    then with_base (m_tsTsbPdTimeBase st + (MAX_TIMESTAMP + 1)) false st
    else st
  else if usPktTimestamp >? MAX_TIMESTAMP - TSBPD_WRAP_PERIOD
  then with_base (m_tsTsbPdTimeBase st) true st
  else st.

Definition getInternalTimeBase (st : t) : Z * bool * Z :=
  (m_tsTsbPdTimeBase st, m_bTsbPdWrapCheck st, DriftTracer.drift (m_DriftTracer st)).
End CTsbpdTime.
Import CTsbpdTime.

(** ** The sender's clock behind the 32-bit timestamps

    [B] is the local time of the sender's clock reading 0, [h] the latest
    reading seen.  While no wrap check is on, the readings around [h] lie in
    one epoch; while it is on, they lie around the end of one. *)
Definition tracks (B h : Z) (st : t) : Prop :=
  exists e, 0 <= e /\ m_tsTsbPdTimeBase st = B + e * 2 ^ 32 /\
    if m_bTsbPdWrapCheck st
    then (e + 1) * 2 ^ 32 - TSBPD_WRAP_PERIOD <= h < (e + 1) * 2 ^ 32 + TSBPD_WRAP_PERIOD
    else e * 2 ^ 32 <= h < (e + 1) * 2 ^ 32 - TSBPD_WRAP_PERIOD /\
      (e = 0 \/ e * 2 ^ 32 + TSBPD_WRAP_PERIOD <= h).

(** A reading at most a wrap period away from the latest one. *)
Definition close (h t : Z) : Prop := 0 <= t /\ h - TSBPD_WRAP_PERIOD <= t < h + TSBPD_WRAP_PERIOD.

#[export] Instance close_dec h t : Decision (close h t).
Proof. unfold close. apply _. Defined.

Lemma tsbpd_epoch t e : e * 2 ^ 32 <= t < (e + 1) * 2 ^ 32 -> t mod 2 ^ 32 = t - e * 2 ^ 32.
Proof. intros H. symmetry. apply (Z.mod_unique _ _ e); lia. Qed.

Lemma tracks_read B h st t : tracks B h st -> close h t -> getPktBaseTimeNoLock (t mod 2 ^ 32) st = B + t.
Proof.
  intros (e & He & Hb & Hw) [Ht Hc]. unfold getPktBaseTimeNoLock, getBaseTimeNoLock. rewrite Hb.
  unfold TSBPD_WRAP_PERIOD, MAX_TIMESTAMP in *. destruct (m_bTsbPdWrapCheck st); cbn [andb].
  - destruct (Z.lt_ge_cases t ((e + 1) * 2 ^ 32)).
    + rewrite (tsbpd_epoch t e) by lia. bdestr.
    + rewrite (tsbpd_epoch t (e + 1)) by lia. bdestr.
  - rewrite (tsbpd_epoch t e) by lia. lia.
Qed.

Lemma tracks_update B h st t : tracks B h st -> close h t ->
  tracks B (Z.max h t) (updateBaseTime (t mod 2 ^ 32) st).
Proof.
  intros (e & He & Hb & Hw) [Ht Hc]. unfold updateBaseTime, tracks, with_base.
  unfold TSBPD_WRAP_PERIOD, MAX_TIMESTAMP in *. destruct (m_bTsbPdWrapCheck st) eqn:Ew.
  - destruct (Z.lt_ge_cases t ((e + 1) * 2 ^ 32)).
    + rewrite (tsbpd_epoch t e) by lia.
      rewrite (proj2 (Z.leb_gt (t - e * 2 ^ 32) (30 * 1000000 * 2))), andb_false_r by lia.
      exists e. rewrite Ew. lia.
    + rewrite (tsbpd_epoch t (e + 1)) by lia. rewrite Z.geb_leb.
      destruct (Z.leb_spec (30 * 1000000) (t - (e + 1) * 2 ^ 32)); cbn [andb].
      * rewrite (proj2 (Z.leb_le (t - (e + 1) * 2 ^ 32) (30 * 1000000 * 2))) by lia.
        exists (e + 1). simpl. lia.
      * exists e. rewrite Ew. lia.
  - rewrite (tsbpd_epoch t e) by lia. rewrite Z.gtb_ltb.
    destruct (Z.ltb_spec (4294967295 - 30 * 1000000) (t - e * 2 ^ 32)).
    + exists e. simpl. lia.
    + exists e. rewrite Ew. lia.
Qed.

(** ** The unbounded clock that the 32-bit arithmetic implements *)
Record clock := Clock {
  latest : Z;          (** the latest reading of the sender's clock *)
  origin : Z;          (** the local time of reading 0, with the drift moved into it *)
  c_firstRTT : Z;
  c_delay : Z;
  c_tracer : DriftTracer.t
}.

Inductive event :=
  | Packet (t : Z)                     (** a data or control packet stamped at reading [t] *)
  | Sample (t arrival rtt : Z).        (** an ACKACK stamped at [t], with the RTT it measures *)

Definition reading (e : event) : Z := match e with Packet t | Sample t _ _ => t end.

Definition clock_step (c : clock) (e : event) : clock :=
  match e with
  | Packet t => Clock (Z.max (latest c) t) (origin c) (c_firstRTT c) (c_delay c) (c_tracer c)
  | Sample t arrival rtt =>
      let first := if c_firstRTT c =? -1 then rtt else c_firstRTT c in
      let delta := if 0 <=? rtt then Z.quot (rtt - first) 2 else 0 in
      let '(tr, updated) :=
        DriftTracer.update TSBPD_DRIFT_MAX_SAMPLES TSBPD_DRIFT_MAX_VALUE true
          (arrival - (origin c + t) - delta) (c_tracer c) in
      Clock (latest c) (if updated then origin c + DriftTracer.m_qOverdrift tr else origin c) first (c_delay c) tr
  end.

Definition delivery (c : clock) (t : Z) : Z := origin c + t + c_delay c + DriftTracer.m_qDrift (c_tracer c).

Definition tsbpd_step (st : CTsbpdTime.t) (e : event) : CTsbpdTime.t :=
  match e with
  | Packet t => updateBaseTime (t mod 2 ^ 32) st
  | Sample t arrival rtt => (addDriftSample (t mod 2 ^ 32) arrival rtt st).1
  end.

Fixpoint in_order (c : clock) (es : list event) : Prop :=
  match es with
  | [] => True
  | e :: es => close (latest c) (reading e) /\ in_order (clock_step c e) es
  end.

Record implements (c : clock) (st : CTsbpdTime.t) : Prop := {
  im_mode : m_bTsbPdMode st = true;
  im_track : tracks (origin c) (latest c) st;
  im_rtt : m_iFirstRTT st = c_firstRTT c;
  im_delay : m_tdTsbPdDelay st = c_delay c;
  im_tracer : m_DriftTracer st = c_tracer c
}.

Lemma implements_step c st e : implements c st -> close (latest c) (reading e) ->
  implements (clock_step c e) (tsbpd_step st e).
Proof.
  intros [Hm Ht Hr Hd Htr] He. destruct e as [t|t arrival rtt]; cbn [reading] in He.
  - split; cbn; [| by apply tracks_update | ..];
      unfold updateBaseTime, with_base; repeat case_match; by cbn.
  - unfold clock_step, tsbpd_step, addDriftSample. rewrite Hm, Hr, Htr, (tracks_read _ _ _ _ Ht He), Z.geb_leb.
    cbn [negb]. destruct (DriftTracer.update _ _ _ _ _) as [tr u]. unfold DriftTracer.overdrift.
    split; cbn; [done| |done..].
    destruct Ht as (ep & Hep & Hb & Hw). exists ep. cbn. rewrite Hb. split; [done|]. split; [|exact Hw].
    destruct u; lia.
Qed.

Lemma implements_run es c st : implements c st -> in_order c es ->
  implements (foldl clock_step c es) (foldl tsbpd_step st es).
Proof.
  revert c st. induction es as [|e es IH]; intros c st Hi; [done|]. intros [He Hes].
  cbn [foldl]. apply IH; [by apply implements_step|done].
Qed.

(** C25. The 32-bit timestamps implement an unbounded clock.  From any state
    that [setTsbPdMode] leaves, through any sequence of packets and drift
    samples whose clock readings stay within the 30 seconds of the wrap period
    of the latest reading, in any order, the delivery time [getPktTime]
    computes from the low 32 bits of a reading is the one of the clock that
    never wraps, and so is the base time; the wraps of the timestamp field,
    however many, cannot be seen. *)
Theorem tsbpd_refines_clock (tb delay h t : Z) (st : CTsbpdTime.t) (es : list event)
  (Hh : 0 <= h < 2 ^ 32 - TSBPD_WRAP_PERIOD)
  (Hes : in_order (Clock h tb (m_iFirstRTT st) delay (m_DriftTracer st)) es)
  (Ht : close (latest (foldl clock_step (Clock h tb (m_iFirstRTT st) delay (m_DriftTracer st)) es)) t) :
  let c := foldl clock_step (Clock h tb (m_iFirstRTT st) delay (m_DriftTracer st)) es in
  let st' := foldl tsbpd_step (setTsbPdMode tb false delay st) es in
  getPktTime (t mod 2 ^ 32) st' = delivery c t /\ getPktBaseTimeNoLock (t mod 2 ^ 32) st' = origin c + t.
Proof.
  intros c st'.
  assert (implements c st') as [Hm Htr _ Hd Hdr].
  { apply implements_run; [|done]. split; try done. exists 0. cbn. lia. }
  pose proof (tracks_read _ _ _ _ Htr Ht) as Hr. split; [|done].
  unfold getPktTime, delivery, DriftTracer.drift. rewrite Hr, Hd, Hdr. reflexivity.
Qed.

Lemma tsbpd_refines_clock_witness :
  getPktTime ((2 ^ 32 + 5) mod 2 ^ 32)
    (foldl tsbpd_step (setTsbPdMode 1000 false 120 (CTsbpdTime.init 0)) [Packet (2 ^ 32 - 100); Packet (2 ^ 32 + 7)])
  = 1000 + (2 ^ 32 + 5) + 120.
Proof.
  pose proof (tsbpd_refines_clock 1000 120 (2 ^ 32 - 30000001) (2 ^ 32 + 5) (CTsbpdTime.init 0)
    [Packet (2 ^ 32 - 100); Packet (2 ^ 32 + 7)]) as H.
  destruct H as [H _].
  - vm_compute. split; [discriminate|reflexivity].
  - split; [|split; [|exact I]]; apply (bool_decide_unpack _); vm_compute; exact I.
  - apply (bool_decide_unpack _). vm_compute. exact I.
  - rewrite H. reflexivity.
Defined.

(** ** Drift *)
Definition zsum (l : list Z) : Z := foldr Z.add 0 l.

(** The samples of the unfinished measurement. *)
Definition window (l : list Z) (st : CTsbpdTime.t) : Prop :=
  m_bTsbPdMode st = true /\ zlen l < TSBPD_DRIFT_MAX_SAMPLES /\
  DriftTracer.m_qDriftSum (m_DriftTracer st) = zsum l /\ DriftTracer.m_uDriftSpan (m_DriftTracer st) = zlen l.

Definition sample_of (ts arrival rtt : Z) (st : CTsbpdTime.t) : Z :=
  let first := if m_iFirstRTT st =? -1 then rtt else m_iFirstRTT st in
  arrival - getPktBaseTimeNoLock ts st - (if rtt >=? 0 then Z.quot (rtt - first) 2 else 0).

Lemma zsum_app l x : zsum (l ++ [x]) = zsum l + x.
Proof. unfold zsum. induction l; cbn in *; lia. Qed.

(** A drift sample only counts when the window of 1000 is full: until
    then the delivery times stay as they are, and the sample joins the window.
    The sample that completes the window empties it and makes the mean of the
    1000 samples (rounded towards zero) the drift in effect for every
    delivery, replacing the previous drift: what exceeds 5 ms moves into the
    time base, by at most 5 ms, and the rest remains as drift. *)
Theorem drift_window (ts arrival rtt : Z) (l : list Z) (st : CTsbpdTime.t) (Hl : window l st) :
  let s := sample_of ts arrival rtt st in
  let '(st', updated) := addDriftSample ts arrival rtt st in
  if zlen l + 1 <? TSBPD_DRIFT_MAX_SAMPLES then
    updated = false /\ window (l ++ [s]) st' /\ forall x, getPktTime x st' = getPktTime x st
  else
    let mean := Z.quot (zsum (l ++ [s])) TSBPD_DRIFT_MAX_SAMPLES in
    let moved := m_tsTsbPdTimeBase st' - m_tsTsbPdTimeBase st in
    updated = true /\ window [] st' /\
    (forall x, getPktTime x st' = getPktBaseTimeNoLock x st + m_tdTsbPdDelay st + mean) /\
    Z.abs moved <= TSBPD_DRIFT_MAX_VALUE /\ (moved = 0 <-> Z.abs mean <= TSBPD_DRIFT_MAX_VALUE) /\
    (Z.abs mean <= 2 * TSBPD_DRIFT_MAX_VALUE ->
      Z.abs (DriftTracer.drift (m_DriftTracer st')) <= TSBPD_DRIFT_MAX_VALUE).
Proof.
  destruct Hl as (Hm & Hlen & Hs & Hn). intros s. unfold addDriftSample. rewrite Hm. cbn [negb].
  fold (sample_of ts arrival rtt st). fold s. unfold DriftTracer.update. rewrite Hs, Hn, <- zsum_app.
  unfold TSBPD_DRIFT_MAX_SAMPLES in *.
  destruct (Z.ltb_spec (zlen l + 1) 1000).
  - split; [done|]. split; [|done]. unfold window, TSBPD_DRIFT_MAX_SAMPLES. cbn. rewrite length_app. cbn. split_and!; try done; lia.
  - replace (zlen l + 1) with 1000 by lia. set (mean := Z.quot _ 1000). cbv zeta.
    unfold TSBPD_DRIFT_MAX_VALUE. rewrite Z.gtb_ltb.
    destruct (Z.ltb_spec 5000 (Z.abs mean)); [destruct (Z.ltb_spec mean 0)|]; cbn;
      unfold window, getPktTime, getPktBaseTimeNoLock, getBaseTimeNoLock, DriftTracer.drift, TSBPD_DRIFT_MAX_SAMPLES; cbn;
      split_and!; try done; intros; lia.
Qed.

Lemma drift_window_witness :
  exists st, window [] st /\ (addDriftSample 40 100 20 st).2 = false /\
    getPktTime 7 (addDriftSample 40 100 20 st).1 = getPktTime 7 st.
Proof.
  exists (setTsbPdMode 1000 false 120 (CTsbpdTime.init 0)).
  assert (Hw : window [] (setTsbPdMode 1000 false 120 (CTsbpdTime.init 0)))
    by (split; [reflexivity|split; [reflexivity|split; reflexivity]]).
  pose proof (drift_window 40 100 20 [] _ Hw) as H.
  split; [exact Hw|]. destruct (addDriftSample 40 100 20 _) as [st' u]. split; [apply H|apply H].
Defined.
