(* ===== verification/AckWindow.v ===== *)
(** The window of sent ACKs: [ACKWindowTools] of window.cpp and [CACKWindow]
    of window.h.  The clock is an argument of [store]. *)
From S2P Require Import Prelude Ring SeqNo.
Import CSeqNo.

Module CACKWindow.
Record Seq := mkSeq { iACKSeqNo : Z; iACK : Z; tsTimeStamp : Z }.

#[export] Instance Seq_inhabited : Inhabited Seq := populate (mkSeq 0 0 0).

Record t := mk { m_aSeq : list Seq; m_iHead : Z; m_iTail : Z }.

Definition no_ack (s : Seq) : Seq := mkSeq SRT_SEQNO_NONE (iACK s) (tsTimeStamp s).

Definition init (SIZE : nat) : t := mk (aupd (replicate SIZE (mkSeq 0 0 0)) 0 no_ack) 0 0.

Definition store (seq ack now : Z) (st : t) : t :=
  let size := zlen (m_aSeq st) in
  let aSeq := (m_aSeq st).[m_iHead st <- mkSeq seq ack now] in
  let iHead := (m_iHead st + 1) mod size in
  mk aSeq iHead (if iHead =? m_iTail st then (m_iTail st + 1) mod size else m_iTail st).

(** The search of [acknowledge]: [n] steps from index [j] on, over the cells
    that [cell] gives for the indices. *)
Fixpoint search (cell : Z -> Seq) (seq : Z) (n : nat) (j : Z) : option Z :=
  match n with
  | O => None
  | Datatypes.S n => if seq =? iACKSeqNo (cell j) then Some j else search cell seq n (j + 1)
  end.

(** The window, the data ACK written to the reference argument, and the RTT. *)
Definition acknowledge (seq currtime : Z) (st : t) : t * option Z * Z :=
  let a := m_aSeq st in
  let size := zlen a in
  if m_iHead st >=? m_iTail st then
    match search (fun i => a.[i]) seq (Z.to_nat (m_iHead st - m_iTail st)) (m_iTail st) with
    | Some i =>
        let rtt := i32 (currtime - tsTimeStamp (a.[i])) in
        (if i + 1 =? m_iHead st then mk (aupd a 0 no_ack) 0 0 else mk a (m_iHead st) ((i + 1) mod size),
         Some (iACK (a.[i])), rtt)
    | None => (st, None, -1)
    end
  else
    match search (fun j => a.[j mod size]) seq (Z.to_nat (m_iHead st + size - m_iTail st)) (m_iTail st) with
    | Some j =>
        let j := j mod size in
        let rtt := i32 (currtime - tsTimeStamp (a.[j])) in
        (if j =? m_iHead st then mk (aupd a 0 no_ack) 0 0 else mk a (m_iHead st) ((j + 1) mod size),
         Some (iACK (a.[j])), rtt)
    | None => (st, None, -1)
    end.
End CACKWindow.
Import CACKWindow.

(** ** The queue of the ACKs that wait for their ACKACK *)

Record holds (st : t) (q : list Seq) : Prop := {
  h_head : 0 <= m_iHead st < zlen (m_aSeq st);
  h_tail : 0 <= m_iTail st < zlen (m_aSeq st);
  h_len : (m_iHead st - m_iTail st) mod zlen (m_aSeq st) = zlen q;
  h_ring : ring (m_aSeq st) (m_iTail st) (zlen q) = q
}.

Lemma holds_len st q : holds st q -> zlen q < zlen (m_aSeq st).
Proof. intros [Hh _ <- _]. apply Z.mod_pos_bound. lia. Qed.

Lemma ack_init_holds (SIZE : nat) : (0 < SIZE)%nat -> holds (init SIZE) [].
Proof.
  intros Hs. unfold init. split; cbn [m_aSeq m_iHead m_iTail]; rewrite ?length_aupd, ?length_replicate; try lia.
  - by rewrite Z.mod_0_l by lia.
  - done.
Qed.

(** The position of the first ACK with the given number. *)
Fixpoint position (seq : Z) (q : list Seq) : option nat :=
  match q with
  | [] => None
  | s :: q => if seq =? iACKSeqNo s then Some O else Datatypes.S <$> position seq q
  end.

Lemma position_lookup seq q k : position seq q = Some k -> exists s, q !! k = Some s /\ (k < length q)%nat.
Proof.
  revert k. induction q as [|s q IH]; intros k; cbn; [done|].
  destruct (seq =? iACKSeqNo s); [intros [= <-]; exists s; split; [done|lia]|].
  destruct (position seq q) as [k'|]; intros [= <-]. destruct (IH k' eq_refl) as (s' & Hs & Hk).
  exists s'. cbn. split; [done|lia].
Qed.

Lemma search_ring (cell : Z -> Seq) a seq s n j :
  (forall i, 0 <= i < n -> cell (j + i) = a.[(s + i) mod zlen a]) -> 0 <= n ->
  search cell seq (Z.to_nat n) j = (fun k : nat => j + Z.of_nat k) <$> position seq (ring a s n).
Proof.
  intros Hc Hn. remember (Z.to_nat n) as m eqn:Em. revert n s j Hc Hn Em.
  induction m as [|m IH]; intros n s j Hc Hn Em.
  - by rewrite ring_nil by lia.
  - rewrite ring_cons by lia. cbn [search position].
    rewrite <- (Z.add_0_r s) at 1. rewrite <- Hc, Z.add_0_r by lia.
    destruct (seq =? iACKSeqNo (cell j)); [cbn; f_equal; lia|].
    rewrite (IH (n - 1) (s + 1) (j + 1)).
    + destruct (position seq _); cbn; [|done]. f_equal. lia.
    + intros i Hi. replace (j + 1 + i) with (j + (i + 1)) by lia. rewrite Hc by lia. do 2 f_equal. lia.
    + lia.
    + lia.
Qed.

(** What [acknowledge] does to the queue: it takes out the ACK it finds with
    all the older ones. *)
Definition spec_acknowledge (seq currtime : Z) (q : list Seq) : list Seq * option Z * Z :=
  match position seq q with
  | Some k => let s := nth k q inhabitant in
      (drop (Datatypes.S k) q, Some (iACK s), i32 (currtime - tsTimeStamp s))
  | None => (q, None, -1)
  end.

Lemma drop_holds st q k : holds st q -> (k < length q)%nat ->
  holds (mk (m_aSeq st) (m_iHead st) ((m_iTail st + Z.of_nat k + 1) mod zlen (m_aSeq st))) (drop (Datatypes.S k) q).
Proof.
  intros Hst Hk. pose proof (holds_len _ _ Hst) as Hlen. destruct Hst as [Hh Ht Hl Hr]. set (size := zlen (m_aSeq st)) in *.
  assert (E : zlen (drop (Datatypes.S k) q) = zlen q - (Z.of_nat k + 1)) by (rewrite length_drop; lia).
  split; cbn [m_aSeq m_iHead m_iTail]; fold size; [done|apply Z.mod_pos_bound; lia|..].
  - rewrite Zminus_mod_idemp_r, E. rewrite <- (Z.mod_small (zlen q - (Z.of_nat k + 1)) size) by lia.
    rewrite <- Hl, Zminus_mod_idemp_l. f_equal. lia.
  - rewrite E. unfold size. rewrite ring_mod, <- Z.add_assoc, <- ring_drop, Hr by lia. f_equal. lia.
Qed.

Lemma empty_holds st q : holds st q -> holds (mk (aupd (m_aSeq st) 0 no_ack) 0 0) [].
Proof.
  intros [Hh Ht _ _]. split; cbn [m_aSeq m_iHead m_iTail]; rewrite ?length_aupd; [lia|lia| |done].
  by rewrite Z.mod_0_l by lia.
Qed.

Lemma head_index st q : holds st q ->
  (m_iTail st + zlen q) mod zlen (m_aSeq st) = m_iHead st.
Proof.
  intros [Hh Ht Hl _]. rewrite <- Hl, Zplus_mod_idemp_r.
  replace (_ + _) with (m_iHead st) by lia. apply Z.mod_small. lia.
Qed.

Lemma store_ring st q x : holds st q ->
  ring ((m_aSeq st).[m_iHead st <- x]) (m_iTail st) (zlen q + 1) = q ++ [x].
Proof.
  intros Hst. pose proof (holds_len _ _ Hst). pose proof (head_index _ _ Hst) as E. destruct Hst as [Hh _ _ Hr].
  rewrite ring_snoc by lia. rewrite length_aset, E, aget_aset_eq by done. f_equal.
  rewrite <- E, ring_set_out by lia. exact Hr.
Qed.

(** The head meets the tail exactly when the queue fills the array. *)
Lemma store_full st q : holds st q ->
  ((m_iHead st + 1) mod zlen (m_aSeq st) =? m_iTail st) = (zlen q + 1 =? zlen (m_aSeq st)).
Proof.
  intros Hst. pose proof (holds_len _ _ Hst) as Hlen. rewrite <- (head_index _ _ Hst), Zplus_mod_idemp_l.
  destruct Hst as [_ Ht _ _]. rewrite <- Z.add_assoc. destruct (Z.eqb_spec (zlen q + 1) (zlen (m_aSeq st))) as [E|E].
  - rewrite E, Zplus_mod, Z.mod_same, Z.add_0_r, Z.mod_mod by lia. apply Z.eqb_eq, Z.mod_small. done.
  - apply Z.eqb_neq. intros E2. apply E.
    assert (zlen q + 1 = 0); [|lia]. apply (ring_index_inj (m_aSeq st) (m_iTail st)); [lia..|].
    rewrite E2, Z.add_0_r. symmetry. by apply Z.mod_small.
Qed.

Lemma store_holds st q seq ack now : holds st q ->
  holds (store seq ack now st)
    (if zlen q + 1 =? zlen (m_aSeq st) then drop 1 (q ++ [mkSeq seq ack now]) else q ++ [mkSeq seq ack now]).
Proof.
  intros Hst. set (x := mkSeq seq ack now). unfold store. fold x. rewrite (store_full _ _ Hst).
  pose proof (holds_len _ _ Hst) as Hlen. pose proof (store_ring st q x Hst) as Hring.
  assert (Hhead : (m_iHead st + 1 - m_iTail st) mod zlen (m_aSeq st) = (zlen q + 1) mod zlen (m_aSeq st)).
  { rewrite <- (head_index _ _ Hst), <- Zminus_mod_idemp_l, Zplus_mod_idemp_l, Zminus_mod_idemp_l. f_equal. lia. }
  destruct Hst as [Hh Ht Hl Hr]. destruct (Z.eqb_spec (zlen q + 1) (zlen (m_aSeq st))) as [E|E];
    split; cbn [m_aSeq m_iHead m_iTail]; rewrite ?length_drop, ?length_aset, ?length_app; cbn [length];
    try (apply Z.mod_pos_bound; lia); try done.
  - rewrite <- Zminus_mod. replace (_ - _) with (m_iHead st - m_iTail st) by lia. lia.
  - rewrite <- (length_aset (m_aSeq st) (m_iHead st) x), ring_mod, <- Hring.
    change 1%nat with (Z.to_nat 1). rewrite ring_drop by lia. f_equal. lia.
  - rewrite Zminus_mod_idemp_l, Hhead, Z.mod_small; lia.
  - rewrite Nat2Z.inj_add. exact Hring.
Qed.

Lemma acknowledge_holds st q seq now : holds st q ->
  exists st', acknowledge seq now st =
      (st', (spec_acknowledge seq now q).1.2, (spec_acknowledge seq now q).2) /\
    holds st' (spec_acknowledge seq now q).1.1.
Proof.
  intros Hst. pose proof (holds_len _ _ Hst) as Hlen. destruct (Hst) as [Hh Ht Hl Hr].
  assert (Hcell : forall k s, q !! k = Some s -> (m_aSeq st).[(m_iTail st + Z.of_nat k) mod zlen (m_aSeq st)] = s).
  { intros k s Hk. pose proof (lookup_lt_Some _ _ _ Hk).
    rewrite <- Hr, ring_lookup, decide_True in Hk by lia. by injection Hk. }
  rewrite (ring_dist _ _ _ Ht Hh) in Hl. unfold acknowledge, spec_acknowledge. rewrite Z.geb_leb.
  destruct (Z.leb_spec (m_iTail st) (m_iHead st)) as [Hle|Hlt]; rewrite Hl.
  - rewrite (search_ring _ (m_aSeq st) seq (m_iTail st)), Hr by
      first [lia | intros i Hi; rewrite Z.mod_small by lia; done].
    destruct (position seq q) as [k|] eqn:Ek; cbn [fmap option_fmap option_map]; [|eexists; by split].
    destruct (position_lookup _ _ _ Ek) as (s & Hs & Hk). rewrite (nth_lookup_Some q k inhabitant s Hs).
    specialize (Hcell k s Hs). rewrite Z.mod_small in Hcell by lia. rewrite Hcell.
    eexists; split; [reflexivity|]. cbn [fst snd].
    destruct (Z.eqb_spec (m_iTail st + Z.of_nat k + 1) (m_iHead st)).
    + rewrite drop_ge by lia. by eapply empty_holds.
    + by apply drop_holds.
  - rewrite (search_ring _ (m_aSeq st) seq (m_iTail st)), Hr by first [lia | intros i Hi; done].
    destruct (position seq q) as [k|] eqn:Ek; cbn [fmap option_fmap option_map]; [|eexists; by split].
    destruct (position_lookup _ _ _ Ek) as (s & Hs & Hk). rewrite (nth_lookup_Some q k inhabitant s Hs).
    rewrite (Hcell k s Hs). eexists; split; [reflexivity|]. cbn [fst snd].
    destruct (Z.eqb_spec ((m_iTail st + Z.of_nat k) mod zlen (m_aSeq st)) (m_iHead st)) as [E|E].
    + exfalso. rewrite <- (head_index _ _ Hst) in E. apply (ring_index_inj (m_aSeq st)) in E; lia.
    + rewrite Zplus_mod_idemp_l. by apply drop_holds.
Qed.

(** [store] and [acknowledge] keep a bounded queue in the array.  [store]
    appends the ACK and, when the queue then has as many entries as the array
    has cells, forgets the oldest; [acknowledge] answers the ACKACK with the
    data ACK and the round-trip time of the first entry of that number, and
    drops that entry with all the older ones; an ACKACK of an unknown number
    changes nothing and gives -1. *)
Theorem ack_window_queue (st : t) (q : list Seq) (seq ack now : Z) (Hst : holds st q) :
  holds (store seq ack now st)
    (if zlen q + 1 =? zlen (m_aSeq st) then drop 1 (q ++ [mkSeq seq ack now]) else q ++ [mkSeq seq ack now]) /\
  exists st', acknowledge seq now st =
      (st', (spec_acknowledge seq now q).1.2, (spec_acknowledge seq now q).2) /\
    holds st' (spec_acknowledge seq now q).1.1.
Proof. split; [by apply store_holds|by apply acknowledge_holds]. Qed.

Lemma ack_window_queue_witness :
  exists st', acknowledge 8 170 (store 8 120 100 (init 4)) = (st', Some 120, 70) /\ holds st' [].
Proof.
  pose proof (proj1 (ack_window_queue (init 4) [] 8 120 100 (ack_init_holds 4 ltac:(lia)))) as H.
  destruct (ack_window_queue (store 8 120 100 (init 4)) [mkSeq 8 120 100] 8 0 170 H) as (_ & st' & E & Hst').
  exists st'. split; [exact E|exact Hst'].
Defined.
