(* ===== verification/UnitQueue.v ===== *)
(** [CUnitQueue] of queue.cpp: the pool of units that incoming packets are
    read into, and the interface through which the receiver buffer uses it.
    A unit is named by its block and its index there; the units' packets are
    with their users.  [new] may fail: its success is an argument. *)
From stdpp Require Import gmap.
From S2P Require Import Prelude.

Module CUnitQueue.
Definition CUnit : Type := nat * nat.

(** The circular list of [CQEntry] in the order from [m_pQEntry] to
    [m_pLastQueue], each with the [m_bTaken] flags of its units. *)
Record t := mk {
  m_pQEntry : list (list bool);
  m_pCurrQueue : nat;
  m_pAvailUnit : nat;      (** index in the current block *)
  m_iSize : Z;
  m_iNumTaken : Z;
  m_iBlockSize : nat;
}.

Definition allocateEntry (iNumUnits : nat) : list bool := replicate iNumUnits false.

Definition init (initNumUnits : nat) : t :=
  mk [allocateEntry initNumUnits] 0 0 (Z.of_nat initNumUnits) 0 initNumUnits.

Definition capacity (q : t) : Z := m_iSize q.
Definition size (q : t) : Z := m_iSize q - m_iNumTaken q.

Definition increase_ (allocated : bool) (q : t) : t :=
  if allocated then
    mk (m_pQEntry q ++ [allocateEntry (m_iBlockSize q)]) (m_pCurrQueue q) (m_pAvailUnit q)
      (m_iSize q + Z.of_nat (m_iBlockSize q)) (m_iNumTaken q) (m_iBlockSize q)
  else q.

Definition m_bTaken (q : t) (u : CUnit) : bool := nth u.2 (nth u.1 (m_pQEntry q) []) true.

Definition next_block (q : t) (b : nat) : nat := if (S b =? length (m_pQEntry q))%nat then O else S b.

(** One iteration of the two loops of [getNextAvailUnit], from the current
    unit and the count [units_checked]. *)
Definition find_step (q : t) (s : nat * nat * Z) : (nat * nat * Z) + (nat * nat * option CUnit) :=
  let '(curr, avail, units_checked) := s in
  if (avail =? length (nth curr (m_pQEntry q) []))%nat then
    let curr := next_block q curr in
    if units_checked <? m_iSize q then inl (curr, O, units_checked) else inr (curr, O, None)
  else if negb (m_bTaken q (curr, avail)) then inr (curr, avail, Some (curr, avail))
  else inl (curr, S avail, units_checked + 1).

Definition find_fuel (q : t) : nat :=
  (2 * Z.to_nat (m_iSize q) + 2 * length (m_pQEntry q) + 2)%nat.

Definition getNextAvailUnit (allocated : bool) (q : t) : option (t * option CUnit) :=
  let q := if m_iNumTaken q * 10 >? capacity q * 9 then increase_ allocated q else q in
  if m_iNumTaken q >=? capacity q then Some (q, None) else
  '(curr, avail, u) ← loop (find_fuel q) (find_step q) (m_pCurrQueue q, m_pAvailUnit q, 0);
  Some (mk (m_pQEntry q) curr avail (m_iSize q) (m_iNumTaken q) (m_iBlockSize q), u).

Definition set_taken (u : CUnit) (b : bool) (q : t) (num : Z) : t :=
  mk (alter (fun block => <[u.2 := b]> block) u.1 (m_pQEntry q)) (m_pCurrQueue q) (m_pAvailUnit q)
    (m_iSize q) num (m_iBlockSize q).

Definition makeUnitFree (u : CUnit) (q : t) : t := set_taken u false q (m_iNumTaken q - 1).
Definition makeUnitTaken (u : CUnit) (q : t) : t := set_taken u true q (m_iNumTaken q + 1).
End CUnitQueue.

(** ** The interface for the users of units *)

(** What a pool of units promises: which units are taken, and that taking and
    freeing a unit change just that. *)
Class UnitPool (Q : Type) := {
  pool_inv : Q -> Prop;
  pool_has : Q -> CUnitQueue.CUnit -> Prop;
  pool_taken : Q -> gset CUnitQueue.CUnit;
  make_taken : CUnitQueue.CUnit -> Q -> Q;
  make_free : CUnitQueue.CUnit -> Q -> Q;
  make_taken_ok q u : pool_inv q -> pool_has q u -> u ∉ pool_taken q ->
    pool_inv (make_taken u q) /\ pool_taken (make_taken u q) = {[u]} ∪ pool_taken q /\
    forall v, pool_has (make_taken u q) v <-> pool_has q v;
  make_free_ok q u : pool_inv q -> u ∈ pool_taken q ->
    pool_inv (make_free u q) /\ pool_taken (make_free u q) = pool_taken q ∖ {[u]} /\
    forall v, pool_has (make_free u q) v <-> pool_has q v;
}.

(** ** The implementation of the interface *)
Import CUnitQueue.

(** The taken units of a list of blocks, the first of which has number [b]. *)
Fixpoint taken_in (i : nat) (b : nat) (block : list bool) : gset CUnit :=
  match block with
  | [] => ∅
  | f :: block => (if f : bool then {[(b, i)]} else ∅) ∪ taken_in (S i) b block
  end.

Fixpoint taken_from (b : nat) (blocks : list (list bool)) : gset CUnit :=
  match blocks with
  | [] => ∅
  | block :: blocks => taken_in O b block ∪ taken_from (S b) blocks
  end.

Definition taken_units (q : t) : gset CUnit := taken_from O (m_pQEntry q).

Definition has_unit (q : t) (u : CUnit) : Prop := exists block, m_pQEntry q !! u.1 = Some block /\ (u.2 < length block)%nat.

Record wf (q : t) : Prop := {
  wf_block : (0 < m_iBlockSize q)%nat;
  wf_blocks : Forall (fun block => length block = m_iBlockSize q) (m_pQEntry q);
  wf_size : m_iSize q = Z.of_nat (length (m_pQEntry q) * m_iBlockSize q);
  wf_curr : (m_pCurrQueue q < length (m_pQEntry q))%nat;
  wf_avail : (m_pAvailUnit q <= m_iBlockSize q)%nat;
  wf_taken : m_iNumTaken q = Z.of_nat (base.size (taken_units q))
}.

Lemma elem_of_taken_in i b block u : u ∈ taken_in i b block <->
  u.1 = b /\ (i <= u.2)%nat /\ block !! (u.2 - i)%nat = Some true.
Proof.
  revert i. induction block as [|f block IH]; intros i; cbn [taken_in].
  - split; [set_solver|]. intros (_ & _ & H). by rewrite lookup_nil in H.
  - rewrite elem_of_union, IH. destruct u as [b' j]. cbn [fst snd]. split.
    + intros [H|(-> & Hi & Hl)].
      * destruct f; [|set_solver]. apply elem_of_singleton in H. injection H as -> ->.
        rewrite Nat.sub_diag. done.
      * replace (j - i)%nat with (S (j - S i)) by lia. cbn. split_and!; [done|lia|done].
    + intros (-> & Hi & Hl). destruct (decide (j = i)) as [->|].
      * rewrite Nat.sub_diag in Hl. cbn in Hl. injection Hl as ->. left. set_solver.
      * right. replace (j - i)%nat with (S (j - S i)) in Hl by lia. cbn in Hl. split_and!; [done|lia|done].
Qed.

Lemma elem_of_taken_from b blocks u : u ∈ taken_from b blocks <->
  (b <= u.1)%nat /\ exists block, blocks !! (u.1 - b)%nat = Some block /\ block !! u.2 = Some true.
Proof.
  revert b. induction blocks as [|block blocks IH]; intros b; cbn [taken_from].
  - split; [set_solver|]. intros (_ & bl & H & _). by rewrite lookup_nil in H.
  - rewrite elem_of_union, IH, elem_of_taken_in. destruct u as [b' j]. cbn [fst snd]. rewrite Nat.sub_0_r. split.
    + intros [(-> & _ & Hl)|(Hb & bl & Hbl & Hl)].
      * split; [done|]. exists block. by rewrite Nat.sub_diag.
      * split; [lia|]. exists bl. by replace (b' - b)%nat with (S (b' - S b)) by lia.
    + intros (Hb & bl & Hbl & Hl). destruct (decide (b' = b)) as [->|].
      * left. rewrite Nat.sub_diag in Hbl. cbn in Hbl. injection Hbl as ->. split_and!; [done|lia|done].
      * right. split; [lia|]. exists bl. by replace (b' - b)%nat with (S (b' - S b)) in Hbl by lia.
Qed.

Lemma elem_of_taken q u : u ∈ taken_units q <->
  exists block, m_pQEntry q !! u.1 = Some block /\ block !! u.2 = Some true.
Proof.
  unfold taken_units. rewrite elem_of_taken_from, Nat.sub_0_r. split; [by intros [_ ?]|]. intros ?. split; [lia|done].
Qed.

Lemma m_bTaken_spec q u : has_unit q u -> m_bTaken q u = bool_decide (u ∈ taken_units q).
Proof.
  intros (block & Hb & Hl). unfold m_bTaken. rewrite (nth_lookup_Some _ _ _ _ Hb).
  destruct (lookup_lt_is_Some_2 block u.2 Hl) as [f Hf]. rewrite (nth_lookup_Some _ _ _ _ Hf).
  symmetry. case_bool_decide as Hd; rewrite elem_of_taken in Hd.
  - destruct Hd as (bl & Hbl & Htl). congruence.
  - destruct f; [|done]. exfalso. apply Hd. eauto.
Qed.

Lemma set_taken_spec u b q n : has_unit q u ->
  taken_units (set_taken u b q n) = if b then {[u]} ∪ taken_units q else taken_units q ∖ {[u]}.
Proof.
  intros (block & Hb & Hl). apply set_eq. intros v. destruct u as [bu iu], v as [bv iv]. cbn [fst snd] in *.
  assert (E : (bv, iv) ∈ taken_units (set_taken (bu, iu) b q n) <->
    (if decide ((bv, iv) = (bu, iu)) then b = true else (bv, iv) ∈ taken_units q)).
  { rewrite !elem_of_taken. cbn [set_taken m_pQEntry fst snd]. destruct (decide (bv = bu)) as [->|Hne].
    - rewrite list_lookup_alter, decide_True, Hb by done. cbn. destruct (decide (iv = iu)) as [->|Hni].
      + rewrite decide_True by done. split.
        * intros (bl & E & Hbl). injection E as <-. rewrite list_lookup_insert_eq in Hbl by done. congruence.
        * intros ->. eexists. split; [done|]. by rewrite list_lookup_insert_eq.
      + rewrite decide_False, elem_of_taken by congruence. cbn [fst snd]. rewrite Hb. split; intros (bl & E & Hbl); injection E as <-.
        * rewrite list_lookup_insert_ne in Hbl by done. eauto.
        * eexists. split; [done|]. by rewrite list_lookup_insert_ne.
    - rewrite list_lookup_alter_ne by done. rewrite decide_False, elem_of_taken by congruence. done. }
  rewrite E. case_decide as Hd.
  - rewrite Hd. destruct b; set_solver.
  - destruct b; set_solver.
Qed.

Lemma set_taken_has u b q n v : has_unit (set_taken u b q n) v <-> has_unit q v.
Proof.
  unfold has_unit. cbn [set_taken m_pQEntry]. destruct (decide (v.1 = u.1)) as [->|Hne].
  - rewrite list_lookup_alter, decide_True by done. destruct (m_pQEntry q !! u.1) as [block|]; cbn.
    + split; intros (bl & E & Hl); injection E as <-; eexists; (split; [done|]); by rewrite length_insert in *.
    + split; intros (bl & E & _); discriminate.
  - by rewrite list_lookup_alter_ne.
Qed.

Lemma set_taken_wf u b q n : wf q -> n = Z.of_nat (base.size (taken_units (set_taken u b q n))) -> wf (set_taken u b q n).
Proof.
  intros [Hb Hbl Hs Hc Ha Ht] Hn. split; cbn [set_taken m_pQEntry m_pCurrQueue m_pAvailUnit m_iSize m_iNumTaken m_iBlockSize];
    rewrite ?length_alter; try done.
  apply Forall_alter; [done|]. intros x Hx Hlen. by rewrite length_insert.
Qed.

Lemma taken_has q u : u ∈ taken_units q -> has_unit q u.
Proof.
  rewrite elem_of_taken. intros (block & Hb & Hl). exists block. split; [done|]. by apply lookup_lt_Some in Hl.
Qed.

#[export] Program Instance CUnitQueue_pool : UnitPool CUnitQueue.t := {
  pool_inv := wf;
  pool_has := has_unit;
  pool_taken := taken_units;
  make_taken := makeUnitTaken;
  make_free := makeUnitFree;
}.
Next Obligation.
  intros q u Hq Hu Hn. unfold makeUnitTaken. split_and!.
  - apply set_taken_wf; [done|]. rewrite set_taken_spec, size_union, size_singleton by (done || set_solver).
    rewrite (wf_taken _ Hq). lia.
  - by rewrite set_taken_spec.
  - intros v. apply set_taken_has.
Qed.
Next Obligation.
  intros q u Hq Hu. unfold makeUnitFree. pose proof (taken_has _ _ Hu) as Hh. split_and!.
  - apply set_taken_wf; [done|]. rewrite set_taken_spec by done. rewrite (wf_taken _ Hq).
    assert (Es : taken_units q = {[u]} ∪ taken_units q ∖ {[u]}) by (apply union_difference_singleton_L; done).
    rewrite Es at 1. rewrite size_union, size_singleton by set_solver. lia.
  - by rewrite set_taken_spec.
  - intros v. apply set_taken_has.
Qed.

(** ** The search for a free unit *)
Section Search.
Context (q : t) (Hq : wf q).

Notation B := (Z.of_nat (m_iBlockSize q)).
Notation N := (m_iSize q).

(** The flag of the unit at position [i] of all blocks in a row. *)
Definition cell (i : Z) : bool := m_bTaken q (Z.to_nat (i / B), Z.to_nat (i mod B)).

Lemma block_length b : (b < length (m_pQEntry q))%nat -> length (nth b (m_pQEntry q) []) = m_iBlockSize q.
Proof.
  intros Hb. pose proof (wf_blocks _ Hq) as Hf. rewrite list.Forall_forall in Hf. apply Hf.
  destruct (lookup_lt_is_Some_2 _ _ Hb) as [bl Hbl]. rewrite (nth_lookup_Some _ _ _ _ Hbl).
  by eapply list_elem_of_lookup_2.
Qed.

Lemma has_unit_iff b i : has_unit q (b, i) <-> (b < length (m_pQEntry q))%nat /\ (i < m_iBlockSize q)%nat.
Proof.
  unfold has_unit. cbn [fst snd]. split.
  - intros (bl & Hbl & Hi). apply lookup_lt_Some in Hbl as Hb. split; [done|].
    rewrite <- (block_length b Hb), (nth_lookup_Some _ _ _ _ Hbl). done.
  - intros [Hb Hi]. destruct (lookup_lt_is_Some_2 _ _ Hb) as [bl Hbl]. exists bl. split; [done|].
    rewrite <- (nth_lookup_Some _ _ [] _ Hbl), block_length; done.
Qed.

Lemma cell_at b i : (i < m_iBlockSize q)%nat -> cell (Z.of_nat b * B + Z.of_nat i) = m_bTaken q (b, i).
Proof.
  intros Hi. unfold cell. rewrite Z.div_add_l, Z.div_small, Z.add_0_r by lia.
  rewrite Z.add_comm, Z_mod_plus_full, Z.mod_small by lia. by rewrite !Nat2Z.id.
Qed.

(** The cells seen so far, from a start [s] on, are all taken. *)
Definition search_inv (st : nat * nat * Z) : Prop :=
  let '(curr, avail, checked) := st in
  (curr < length (m_pQEntry q))%nat /\ (avail <= m_iBlockSize q)%nat /\ 0 <= checked /\
  exists s, 0 <= s /\ (s + checked) mod N = (Z.of_nat curr * B + Z.of_nat avail) mod N /\
    forall j, 0 <= j < checked -> cell ((s + j) mod N) = true.

Lemma search_bound st i : search_inv st -> 0 <= i < N -> cell i = false -> st.2 < N.
Proof.
  destruct st as [[curr avail] checked]. intros (_ & _ & Hc & s & Hs & _ & Hall) Hi Hcell. cbn [snd].
  apply Z.nle_gt. intros Hle. specialize (Hall ((i - s) mod N)). rewrite Zplus_mod_idemp_r in Hall.
  replace (s + (i - s)) with i in Hall by lia. rewrite (Z.mod_small i), Hcell in Hall by lia.
  pose proof (Z.mod_pos_bound (i - s) N ltac:(lia)). enough (false = true) by done. apply Hall. lia.
Qed.

Lemma find_free i : 0 <= i < N -> cell i = false ->
  exists curr avail u, loop (find_fuel q) (find_step q) (m_pCurrQueue q, m_pAvailUnit q, 0) =
      Some (curr, avail, Some u) /\ has_unit q u /\ m_bTaken q u = false /\ u = (curr, avail).
Proof.
  intros Hi Hcell. pose proof (wf_block _ Hq). pose proof (wf_size _ Hq).
  destruct (loop_total (find_step q) search_inv
    (fun r => exists u, r.2 = Some u /\ has_unit q u /\ m_bTaken q u = false /\ u = (r.1.1, r.1.2))
    (fun st => (2 * Z.to_nat (N - st.2) + if (st.1.2 =? m_iBlockSize q)%nat then 1 else 0)%nat))
    with (fuel := find_fuel q) (s := (m_pCurrQueue q, m_pAvailUnit q, 0))
    as ([[curr avail] r] & E & u & Hr & Hu & Ht & Hua).
  - intros st Hinv. pose proof (search_bound st i Hinv Hi Hcell) as Hlt.
    destruct st as [[curr avail] checked]. destruct Hinv as (Hc & Ha & Hch & s & Hs & Hmod & Hall). cbn [fst snd] in *.
    unfold find_step. rewrite block_length by done. destruct (Nat.eqb_spec avail (m_iBlockSize q)) as [->|Hne].
    + rewrite (proj2 (Z.ltb_lt _ _)) by done. unfold next_block. split.
      * split_and!; [destruct (Nat.eqb_spec (S curr) (length (m_pQEntry q))); lia|lia|done|]. exists s. split_and!; [done| |done].
        rewrite Hmod. destruct (Nat.eqb_spec (S curr) (length (m_pQEntry q))) as [E|E].
        -- replace (Z.of_nat curr * B + B) with N by nia. by rewrite Z.mod_same, Z.mod_0_l by lia.
        -- f_equal. lia.
      * cbn [fst snd]. destruct (Nat.eqb_spec 0 (m_iBlockSize q)); lia.
    + destruct (m_bTaken q (curr, avail)) eqn:Et; cbn [negb].
      * split.
        -- split_and!; [done|lia|lia|]. exists s. split_and!; [done| |].
           ++ rewrite Z.add_assoc, <- Zplus_mod_idemp_l, Hmod, Zplus_mod_idemp_l. f_equal. lia.
           ++ intros j Hj. destruct (decide (j = checked)) as [->|]; [|apply Hall; lia].
              rewrite Hmod, Z.mod_small by nia. by rewrite cell_at by lia.
        -- cbn [fst snd]. destruct (Nat.eqb_spec (S avail) (m_iBlockSize q)); lia.
      * exists (curr, avail). split_and!; [done| |done|done]. apply has_unit_iff. lia.
  - split_and!; [apply (wf_curr _ Hq)|apply (wf_avail _ Hq)|lia|].
    exists (Z.of_nat (m_pCurrQueue q) * B + Z.of_nat (m_pAvailUnit q)). split_and!; [lia|f_equal; lia|lia].
  - cbn [fst snd]. unfold find_fuel. case_match; lia.
  - exists curr, avail, u. cbn [fst snd] in *. by subst r.
Qed.

Definition all_units : gset CUnit :=
  list_to_set ((fun j => (j / m_iBlockSize q, j mod m_iBlockSize q)%nat) <$> seq 0 (length (m_pQEntry q) * m_iBlockSize q)).

Lemma size_all_units : base.size all_units = (length (m_pQEntry q) * m_iBlockSize q)%nat.
Proof.
  unfold all_units. rewrite size_list_to_set, length_fmap, length_seq; [done|].
  apply NoDup_fmap_2_strong; [|apply NoDup_seq]. intros x y _ _ [= Hd Hm].
  pose proof (wf_block _ Hq). rewrite (Nat.div_mod_eq x (m_iBlockSize q)), (Nat.div_mod_eq y (m_iBlockSize q)). by rewrite Hd, Hm.
Qed.

Lemma elem_of_all_units u : u ∈ all_units <-> has_unit q u.
Proof.
  pose proof (wf_block _ Hq) as HB. destruct u as [b i]. rewrite has_unit_iff. unfold all_units.
  rewrite elem_of_list_to_set, list_elem_of_fmap. split.
  - intros (j & [= -> ->] & Hj). apply elem_of_seq in Hj. split.
    + apply Nat.Div0.div_lt_upper_bound. lia.
    + apply Nat.mod_upper_bound. lia.
  - intros [Hb Hi]. exists (b * m_iBlockSize q + i)%nat. split.
    + rewrite Nat.div_add_l, Nat.div_small, Nat.add_0_r by lia.
      by rewrite Nat.add_comm, Nat.Div0.mod_add, Nat.mod_small by lia.
    + apply elem_of_seq. nia.
Qed.

Lemma taken_all : taken_units q ⊆ all_units.
Proof. intros u Hu. by apply elem_of_all_units, taken_has. Qed.

Lemma free_unit : m_iNumTaken q < m_iSize q -> exists i, 0 <= i < N /\ cell i = false.
Proof.
  intros Hlt. destruct (decide (all_units ⊆ taken_units q)) as [Hsub|Hsub].
  - apply subseteq_size in Hsub. rewrite size_all_units in Hsub.
    rewrite (wf_taken _ Hq), (wf_size _ Hq) in Hlt. lia.
  - destruct (set_choose_L (all_units ∖ taken_units q)) as [[b i] Hu].
    { intros E. apply Hsub. set_solver. }
    apply elem_of_difference in Hu as [Hu Hn]. apply elem_of_all_units in Hu.
    pose proof (proj1 (has_unit_iff _ _) Hu) as [Hb Hi]. exists (Z.of_nat b * B + Z.of_nat i).
    rewrite (wf_size _ Hq), cell_at, m_bTaken_spec by done. split; [nia|]. by apply bool_decide_eq_false.
Qed.
End Search.

Lemma increase_wf q : wf q -> wf (increase_ true q) /\ taken_units (increase_ true q) = taken_units q.
Proof.
  intros Hq. assert (E : taken_units (increase_ true q) = taken_units q).
  { apply set_eq. intros u. rewrite !elem_of_taken. cbn [increase_ m_pQEntry]. split; intros (bl & Hbl & Hl); exists bl.
    - split; [|done]. apply lookup_app_Some in Hbl as [Hbl|[_ Hbl]]; [done|].
      apply list_lookup_singleton_Some in Hbl as [_ <-]. apply lookup_replicate in Hl as [[=] _].
    - split; [|done]. by apply lookup_app_l_Some. }
  split; [|done]. destruct Hq as [Hb Hbl Hs Hc Ha Ht].
  split; cbn [increase_ m_pQEntry m_pCurrQueue m_pAvailUnit m_iSize m_iNumTaken m_iBlockSize]; rewrite ?length_app; cbn [length]; try lia.
  - apply Forall_app. split; [done|]. constructor; [apply length_replicate|done].
  - rewrite Ht. do 2 f_equal. symmetry. exact E.
Qed.

Lemma init_wf n : (0 < n)%nat -> wf (init n) /\ taken_units (init n) = ∅.
Proof.
  intros Hn. assert (E : taken_units (init n) = ∅).
  { apply set_eq. intros u. rewrite elem_of_taken. split; [|set_solver]. intros (bl & Hbl & Hl).
    apply list_lookup_singleton_Some in Hbl as [_ <-]. apply lookup_replicate in Hl as [[=] _]. }
  split; [|done]. split; cbn [init m_pQEntry m_pCurrQueue m_pAvailUnit m_iSize m_iNumTaken m_iBlockSize length]; try lia.
  - constructor; [apply length_replicate|done].
  - transitivity (Z.of_nat (base.size (∅ : gset CUnit))); [by rewrite size_empty|]. do 2 f_equal. symmetry. exact E.
Qed.

(** C26. [getNextAvailUnit] always returns, never hands out a unit that is in
    use, and fails only when every unit is in use and the memory for another
    block is not given; the pool stays well formed, no unit changes its state,
    and a block is added exactly when strictly more than 90% of the units are in
    use (comments at queue.h:92 and queue.cpp:160 say 90% or more). *)
Theorem next_avail_unit (allocated : bool) (q : t) (Hq : wf q) :
  exists q' r, getNextAvailUnit allocated q = Some (q', r) /\ wf q' /\ taken_units q' = taken_units q /\
    capacity q' = capacity q +
      (if allocated && (m_iNumTaken q * 10 >? capacity q * 9) then Z.of_nat (m_iBlockSize q) else 0) /\
    match r with
    | Some u => has_unit q' u /\ u ∉ taken_units q'
    | None => allocated = false /\ forall u, has_unit q u -> u ∈ taken_units q
    end.
Proof.
  set (q1 := if m_iNumTaken q * 10 >? capacity q * 9 then increase_ allocated q else q).
  assert (Hq1 : wf q1 /\ taken_units q1 = taken_units q).
  { unfold q1. destruct (_ >? _); [|done]. destruct allocated; [by apply increase_wf|done]. }
  assert (Hcap : capacity q1 = capacity q +
      (if allocated && (m_iNumTaken q * 10 >? capacity q * 9) then Z.of_nat (m_iBlockSize q) else 0)).
  { unfold q1, capacity. destruct allocated, (_ >? _); cbn; lia. }
  assert (Hnum : m_iNumTaken q1 = m_iNumTaken q) by (unfold q1; by destruct (_ >? _), allocated).
  destruct Hq1 as [Hw1 Ht1]. unfold getNextAvailUnit. fold q1. rewrite Z.geb_leb.
  destruct (Z.leb_spec (capacity q1) (m_iNumTaken q1)) as [Hfull|Hfree].
  - exists q1, None. split_and!; try done.
    + pose proof (wf_size _ Hq). pose proof (wf_block _ Hq). pose proof (wf_curr _ Hq).
      rewrite Hcap, Hnum, Z.gtb_ltb in Hfull. unfold capacity in *. destruct allocated; [|done].
      exfalso. pose proof (wf_taken _ Hq). pose proof (subseteq_size _ _ (taken_all q Hq)) as Hsub.
      rewrite size_all_units in Hsub by done.
      assert (0 < m_iSize q) by nia.
      destruct (Z.ltb_spec (m_iSize q * 9) (m_iNumTaken q * 10)); cbn [andb] in Hfull; lia.
    + intros u Hu. apply elem_of_all_units in Hu; [|done].
      assert (taken_units q = all_units q) as ->; [|done]. apply set_subseteq_size_eq; [by apply taken_all|].
      rewrite size_all_units by done. pose proof (wf_taken _ Hq). pose proof (wf_size _ Hq).
      rewrite Hcap, Hnum in Hfull. unfold capacity in Hfull. destruct (allocated && _); lia.
  - destruct (free_unit q1 Hw1 Hfree) as (i & Hi & Hcell).
    destruct (find_free q1 Hw1 i Hi Hcell) as (curr & avail & u & E & Hu & Htk & ->).
    unfold capacity in *. exists (mk (m_pQEntry q1) curr avail (m_iSize q1) (m_iNumTaken q1) (m_iBlockSize q1)), (Some (curr, avail)).
    rewrite E, bind_Some. split_and!; try done.
    + destruct Hw1 as [Hb Hbl Hs Hc Ha Ht]. apply has_unit_iff in Hu as [Hu1 Hu2]; [|done].
      split; cbn [m_pQEntry m_pCurrQueue m_pAvailUnit m_iSize m_iNumTaken m_iBlockSize]; try done. lia.
    + rewrite m_bTaken_spec in Htk by done. by apply bool_decide_eq_false in Htk.
Qed.

Lemma next_avail_unit_witness :
  exists q' u, getNextAvailUnit true (makeUnitTaken (0, 0)%nat (init 2)) = Some (q', Some u) /\ u = (0, 1)%nat /\ wf q'.
Proof.
  destruct (init_wf 2 ltac:(lia)) as [Hw Ht].
  destruct (@make_taken_ok _ CUnitQueue_pool (init 2) (0, 0)%nat Hw) as (Hw' & _ & _).
  - apply has_unit_iff; [exact Hw|]. simpl. lia.
  - simpl. rewrite Ht. apply not_elem_of_empty.
  - destruct (next_avail_unit true (makeUnitTaken (0, 0)%nat (init 2)) Hw') as (q' & r & E & Hq' & _ & _ & _).
    exists q', (0, 1)%nat. vm_compute in E. injection E as <- <-. split; [vm_compute; reflexivity|].
    split; [reflexivity|exact Hq'].
Defined.
