(* ===== verification/RcvBuffer.v ===== *)
(** [CRcvBuffer] of buffer_rcv.h and buffer_rcv.cpp: the ring of received
    packets that the application reads messages or a byte stream from.  The
    unit queue is any pool with the interface of UnitQueue.v; a unit in the
    buffer comes with its packet, which nobody writes while the unit is taken.
    The clock, the sink of [readBufferTo] and the user's buffer are arguments.
    [None] is a loop out of fuel; no state in which the invariant holds gives
    it. *)
From stdpp Require Import gmap.
From S2P Require Import Prelude Ring SeqNo Packet TsbPd UnitQueue.
Import CSeqNo CPacket.

Module CRcvBuffer.
Inductive EntryStatus := EntryState_Empty | EntryState_Avail | EntryState_Read | EntryState_Drop.

#[export] Instance EntryStatus_eq_dec : EqDecision EntryStatus.
Proof. solve_decision. Defined.

Record CUnit := mkUnit { unit_id : CUnitQueue.CUnit; m_Packet : CPacket.t }.
Record Entry := mkEntry { pUnit : option CUnit; status : EntryStatus }.

(** [Entry()]. *)
Definition no_entry : Entry := mkEntry None EntryState_Empty.
#[export] Instance Entry_inhabited : Inhabited Entry := populate no_entry.
Definition no_packet : CPacket.t := CPacket.mk 0 0 0 0 [].

Definition set_status (s : EntryStatus) (e : Entry) : Entry := mkEntry (pUnit e) s.

Inductive DropActionIfExists := DROP_EXISTING | KEEP_EXISTING.

(** The fields of [SRT_MSGCTRL] that the buffer fills in. *)
Record SRT_MSGCTRL := mkCtrl { msgno : Z; srctime : Z; pktseq : Z }.

Record PacketInfo := mkInfo { seqno : Z; seq_gap : bool; tsbpd_time : Z }.

(** [size_t] arithmetic. *)
Definition u64 (z : Z) : Z := z mod 2 ^ 64.

Definition isInRange (iStartPos iMaxPosOff iSize iFirstNonreadPos : Z) : bool :=
  if iFirstNonreadPos =? iStartPos then true else
  let iLastPos := (iStartPos + iMaxPosOff) mod iSize in
  if iLastPos <? iStartPos then (iFirstNonreadPos >? iStartPos) || (iFirstNonreadPos <=? iLastPos)
  else (iFirstNonreadPos >? iStartPos) && (iFirstNonreadPos <=? iLastPos).

Section Buffer.
Context {Q : Type} `{!UnitPool Q}.

Record t := mk {
  m_entries : list Entry;
  m_pUnitQueue : Q;
  m_iStartSeqNo : Z;
  m_iStartPos : Z;
  m_iFirstNonreadPos : Z;
  m_iMaxPosOff : Z;
  m_iNotch : Z;
  m_numOutOfOrderPackets : Z;
  m_iFirstReadableOutOfOrder : Z;
  m_bPeerRexmitFlag : bool;
  m_bMessageAPI : bool;
  m_tsbpd : CTsbpdTime.t;
  m_iBytesCount : Z;
  m_iPktsCount : Z;
  m_uAvgPayloadSz : Z;
}.

Definition m_szSize (st : t) : Z := zlen (m_entries st).

(** Field updates. *)
Definition set_entries (es : list Entry) (q : Q) (st : t) : t :=
  mk es q (m_iStartSeqNo st) (m_iStartPos st) (m_iFirstNonreadPos st) (m_iMaxPosOff st) (m_iNotch st)
    (m_numOutOfOrderPackets st) (m_iFirstReadableOutOfOrder st) (m_bPeerRexmitFlag st) (m_bMessageAPI st)
    (m_tsbpd st) (m_iBytesCount st) (m_iPktsCount st) (m_uAvgPayloadSz st).
Definition set_start (seqno pos off : Z) (st : t) : t :=
  mk (m_entries st) (m_pUnitQueue st) seqno pos (m_iFirstNonreadPos st) off (m_iNotch st)
    (m_numOutOfOrderPackets st) (m_iFirstReadableOutOfOrder st) (m_bPeerRexmitFlag st) (m_bMessageAPI st)
    (m_tsbpd st) (m_iBytesCount st) (m_iPktsCount st) (m_uAvgPayloadSz st).
Definition set_iFirstNonreadPos (pos : Z) (st : t) : t :=
  mk (m_entries st) (m_pUnitQueue st) (m_iStartSeqNo st) (m_iStartPos st) pos (m_iMaxPosOff st) (m_iNotch st)
    (m_numOutOfOrderPackets st) (m_iFirstReadableOutOfOrder st) (m_bPeerRexmitFlag st) (m_bMessageAPI st)
    (m_tsbpd st) (m_iBytesCount st) (m_iPktsCount st) (m_uAvgPayloadSz st).
Definition set_iNotch (n : Z) (st : t) : t :=
  mk (m_entries st) (m_pUnitQueue st) (m_iStartSeqNo st) (m_iStartPos st) (m_iFirstNonreadPos st) (m_iMaxPosOff st) n
    (m_numOutOfOrderPackets st) (m_iFirstReadableOutOfOrder st) (m_bPeerRexmitFlag st) (m_bMessageAPI st)
    (m_tsbpd st) (m_iBytesCount st) (m_iPktsCount st) (m_uAvgPayloadSz st).
Definition set_outOfOrder (num first : Z) (st : t) : t :=
  mk (m_entries st) (m_pUnitQueue st) (m_iStartSeqNo st) (m_iStartPos st) (m_iFirstNonreadPos st) (m_iMaxPosOff st)
    (m_iNotch st) num first (m_bPeerRexmitFlag st) (m_bMessageAPI st)
    (m_tsbpd st) (m_iBytesCount st) (m_iPktsCount st) (m_uAvgPayloadSz st).
Definition set_iFirstReadableOutOfOrder (first : Z) (st : t) : t :=
  set_outOfOrder (m_numOutOfOrderPackets st) first st.
Definition set_tsbpd (ts : CTsbpdTime.t) (st : t) : t :=
  mk (m_entries st) (m_pUnitQueue st) (m_iStartSeqNo st) (m_iStartPos st) (m_iFirstNonreadPos st) (m_iMaxPosOff st)
    (m_iNotch st) (m_numOutOfOrderPackets st) (m_iFirstReadableOutOfOrder st) (m_bPeerRexmitFlag st) (m_bMessageAPI st)
    ts (m_iBytesCount st) (m_iPktsCount st) (m_uAvgPayloadSz st).
Definition set_counts (bytes pkts avg : Z) (st : t) : t :=
  mk (m_entries st) (m_pUnitQueue st) (m_iStartSeqNo st) (m_iStartPos st) (m_iFirstNonreadPos st) (m_iMaxPosOff st)
    (m_iNotch st) (m_numOutOfOrderPackets st) (m_iFirstReadableOutOfOrder st) (m_bPeerRexmitFlag st) (m_bMessageAPI st)
    (m_tsbpd st) bytes pkts avg.

Definition init (initSeqNo : Z) (size : nat) (unitqueue : Q) (bMessageAPI : bool) (tsbpd : CTsbpdTime.t) : t :=
  mk (replicate size no_entry) unitqueue initSeqNo 0 0 0 0 0 (-1) true bMessageAPI tsbpd 0 0 0.

Definition incPos (st : t) (pos inc : Z) : Z := (pos + inc) mod m_szSize st.
Definition decPos (st : t) (pos : Z) : Z := if pos - 1 >=? 0 then pos - 1 else m_szSize st - 1.
Definition offPos (st : t) (pos1 pos2 : Z) : Z := if pos2 >=? pos1 then pos2 - pos1 else m_szSize st + pos2 - pos1.

Definition capacity (st : t) : Z := m_szSize st - 1.
Definition empty (st : t) : bool := m_iMaxPosOff st =? 0.
Definition full (st : t) : bool := m_iMaxPosOff st =? capacity st.
Definition isTsbPd (st : t) : bool := CTsbpdTime.m_bTsbPdMode (m_tsbpd st).
Definition hasReadableInorderPkts (st : t) : bool := negb (m_iFirstNonreadPos st =? m_iStartPos st).

(** [m_entries[pos].pUnit] and [packetAt(pos)]; the latter is only used
    where the unit is there. *)
Definition unit_at (st : t) (pos : Z) : option CUnit := pUnit ((m_entries st).[pos]).
Definition has_unit (st : t) (pos : Z) : bool := bool_decide (is_Some (unit_at st pos)).
Definition packetAt (st : t) (pos : Z) : CPacket.t := from_option m_Packet no_packet (unit_at st pos).
Definition status_at (st : t) (pos : Z) : EntryStatus := status ((m_entries st).[pos]).

Definition is_first (p : CPacket.t) : bool := negb (Z.land (getMsgBoundary p) PB_FIRST =? 0).
Definition is_last (p : CPacket.t) : bool := negb (Z.land (getMsgBoundary p) PB_LAST =? 0).

Definition countBytes (pkts bytes : Z) (st : t) : t :=
  let avg := m_uAvgPayloadSz st in
  set_counts (m_iBytesCount st + bytes) (m_iPktsCount st + pkts)
    (if bytes >? 0 then if avg =? 0 then bytes else (avg * 99 + bytes) / 100 else avg) st.

Definition updateTsbPdTimeBase (usPktTimestamp : Z) (st : t) : t :=
  set_tsbpd (CTsbpdTime.updateBaseTime usPktTimestamp (m_tsbpd st)) st.

Definition releaseUnitInPos (pos : Z) (st : t) : t :=
  set_entries ((m_entries st).[pos <- no_entry])
    (match unit_at st pos with Some u => make_free (unit_id u) (m_pUnitQueue st) | None => m_pUnitQueue st end) st.

Definition set_status_at (pos : Z) (s : EntryStatus) (st : t) : t :=
  set_entries (aupd (m_entries st) pos (set_status s)) (m_pUnitQueue st) st.

(** What [dropUnitInPos] does before it releases the unit. *)
Definition before_drop (pos : Z) (st : t) : t :=
  if isTsbPd st then updateTsbPdTimeBase (getMsgTimeStamp (packetAt st pos)) st
  else if m_bMessageAPI st && negb (getMsgOrderFlag (packetAt st pos)) then
    set_outOfOrder (u64 (m_numOutOfOrderPackets st - 1))
      (if pos =? m_iFirstReadableOutOfOrder st then -1 else m_iFirstReadableOutOfOrder st) st
  else st.

Definition dropUnitInPos (pos : Z) (st : t) : t * bool :=
  if negb (has_unit st pos) then (st, false) else (releaseUnitInPos pos (before_drop pos st), true).

Definition filler (s : EntryStatus) : bool :=
  match s with EntryState_Read | EntryState_Drop => true | _ => false end.

Definition release_step (st : t) : t + t :=
  let pos := m_iStartPos st in
  if filler (status_at st pos) then
    let st := releaseUnitInPos pos st in
    let off := m_iMaxPosOff st - 1 in
    inl (set_start (incseq (m_iStartSeqNo st)) (incPos st pos 1) (if off <? 0 then 0 else off) st)
  else inr st.

(** Every loop over the ring makes at most one round, or ends at a cell
    that the round has cleared. *)
Definition fuel (st : t) : nat := S (length (m_entries st)).

Definition releaseNextFillerEntries (st : t) : option t := loop (fuel st) release_step st.

Definition is_avail (s : EntryStatus) : bool := match s with EntryState_Avail => true | _ => false end.

(** The inner loop of [updateNonreadPos]: the position behind the message
    that starts at [pos], if it is complete. *)
Definition message_step (st : t) (pos end_pos i : Z) : Z + option Z :=
  if i =? end_pos then inr None
  else if negb (has_unit st i) || negb (is_avail (status_at st pos)) then inr None
  else if negb (m_bMessageAPI st) || is_last (packetAt st i) then inr (Some (incPos st i 1))
  else inl (incPos st i 1).

(** One iteration of its outer loop. *)
Definition nonread_step (end_pos : Z) (s : t * Z) : (t * Z) + option t :=
  let '(st, pos) := s in
  if has_unit st pos && is_avail (status_at st pos) then
    if m_bMessageAPI st && negb (is_first (packetAt st pos)) then inr (Some st) else
    match loop (fuel st) (message_step st pos end_pos) pos with
    | None => inr None
    | Some r =>
        let st := match r with Some p => set_iFirstNonreadPos p st | None => st end in
        if (pos =? m_iFirstNonreadPos st) || negb (has_unit st (m_iFirstNonreadPos st)) then inr (Some st)
        else inl (st, m_iFirstNonreadPos st)
    end
  else inr (Some st).

Definition updateNonreadPos (st : t) : option t :=
  if m_iMaxPosOff st =? 0 then Some st else
  r ← loop (fuel st) (nonread_step (incPos st (m_iStartPos st) (m_iMaxPosOff st))) (st, m_iFirstNonreadPos st); r.

Definition findLastMessagePkt (st : t) : option Z :=
  loop (fuel st) (fun i =>
    if i =? m_iFirstNonreadPos st then inr (-1)
    else if is_last (packetAt st i) then inr i else inl (incPos st i 1)) (m_iStartPos st).

(** ** Messages read out of order *)

Definition lastPos (st : t) : Z := (m_iStartPos st + m_iMaxPosOff st - 1) mod m_szSize st.

Definition scanNotInOrderMessageRight (startPos msgNo : Z) (st : t) : option Z :=
  if startPos =? lastPos st then Some (-1) else
  loop (fuel st) (fun pos =>
    let pos := incPos st pos 1 in
    if negb (has_unit st pos) then inr (-1)
    else if negb (getMsgSeq (m_bPeerRexmitFlag st) (packetAt st pos) =? msgNo) then inr (-1)
    else if is_last (packetAt st pos) then inr pos
    else if pos =? lastPos st then inr (-1) else inl pos) startPos.

Definition scanNotInOrderMessageLeft (startPos msgNo : Z) (st : t) : option Z :=
  if startPos =? m_iStartPos st then Some (-1) else
  loop (fuel st) (fun pos =>
    let pos := decPos st pos in
    if negb (has_unit st pos) then inr (-1)
    else if negb (getMsgSeq (m_bPeerRexmitFlag st) (packetAt st pos) =? msgNo) then inr (-1)
    else if is_first (packetAt st pos) then inr pos
    else if pos =? m_iStartPos st then inr (-1) else inl pos) startPos.

Definition onInsertNotInOrderPacket (insertPos : Z) (st : t) : option t :=
  if m_numOutOfOrderPackets st =? 0 then Some st
  else if m_iFirstReadableOutOfOrder st >=? 0 then Some st else
  let pkt := packetAt st insertPos in
  let msgNo := getMsgSeq (m_bPeerRexmitFlag st) pkt in
  hasLast ← (if is_last pkt then Some true
             else r ← scanNotInOrderMessageRight insertPos msgNo st; Some (-1 <? r));
  if negb hasLast then Some st else
  firstPktPos ← (if is_first pkt then Some insertPos else scanNotInOrderMessageLeft insertPos msgNo st);
  Some (if firstPktPos <? 0 then st else set_iFirstReadableOutOfOrder firstPktPos st).

Definition checkFirstReadableOutOfOrder (st : t) : option bool :=
  if (m_numOutOfOrderPackets st =? 0) || (m_iFirstReadableOutOfOrder st <? 0) || (m_iMaxPosOff st =? 0)
  then Some false else
  let endPos := incPos st (m_iStartPos st) (m_iMaxPosOff st) in
  loop (fuel st) (fun s : Z * Z =>
    let '(pos, msgno) := s in
    if pos =? endPos then inr false
    else if negb (has_unit st pos) then inr false else
    let pkt := packetAt st pos in
    if getMsgOrderFlag pkt then inr false else
    let seq := getMsgSeq (m_bPeerRexmitFlag st) pkt in
    if negb (msgno =? -1) && negb (msgno =? seq) then inr false
    else if is_last pkt then inr true
    else inl (incPos st pos 1, if msgno =? -1 then seq else msgno)) (m_iFirstReadableOutOfOrder st, -1).

(** One iteration of the loop of [updateFirstReadableOutOfOrder] over
    [(pos, outOfOrderPktsRemain, posFirst, msgNo)]; the result is the
    message found, if any.  The test for the last position is only reached
    on some of the paths. *)
Definition ooo_step (st : t) (s : Z * Z * Z * Z) : (Z * Z * Z * Z) + option Z :=
  let '(pos, remain, posFirst, msgNo) := s in
  if remain =? 0 then inr None
  else if negb (has_unit st pos) then inl (incPos st pos 1, remain, -1, -1) else
  let pkt := packetAt st pos in
  if getMsgOrderFlag pkt then inl (incPos st pos 1, remain, -1, -1) else
  let remain := remain - 1 in
  let seq := getMsgSeq (m_bPeerRexmitFlag st) pkt in
  let '(posFirst, msgNo) := if is_first pkt then (pos, seq) else (posFirst, msgNo) in
  if negb (seq =? msgNo) then inl (incPos st pos 1, remain, -1, -1)
  else if is_last pkt then inr (Some posFirst)
  else if pos =? lastPos st then inr None
  else inl (incPos st pos 1, remain, posFirst, msgNo).

Definition updateFirstReadableOutOfOrder (st : t) : option t :=
  if hasReadableInorderPkts st || (m_numOutOfOrderPackets st =? 0) || (m_iFirstReadableOutOfOrder st >=? 0)
  then Some st
  else if m_iMaxPosOff st =? 0 then Some st else
  r ← loop (fuel st) (ooo_step st) (m_iStartPos st, i32 (m_numOutOfOrderPackets st), -1, -1);
  Some (match r with Some posFirst => set_iFirstReadableOutOfOrder posFirst st | None => st end).

(** ** Insertion and dropping *)

Definition insert (unit : CUnit) (st : t) : option (t * Z) :=
  let seqno := getSeqNo (m_Packet unit) in
  let offset := seqoff (m_iStartSeqNo st) seqno in
  if offset <? 0 then Some (st, -2)
  else if offset >=? capacity st then Some (st, -3) else
  let pos := (m_iStartPos st + offset) mod m_szSize st in
  let st := if offset >=? m_iMaxPosOff st
            then set_start (m_iStartSeqNo st) (m_iStartPos st) (offset + 1) st else st in
  if bool_decide (status_at st pos <> EntryState_Empty) then Some (st, -1) else
  let st := set_entries ((m_entries st).[pos <- mkEntry (Some unit) EntryState_Avail])
              (make_taken (unit_id unit) (m_pUnitQueue st)) st in
  let st := countBytes 1 (getLength (m_Packet unit)) st in
  st ← (if negb (isTsbPd st) && m_bMessageAPI st && negb (getMsgOrderFlag (m_Packet unit)) then
          onInsertNotInOrderPacket pos
            (set_outOfOrder (u64 (m_numOutOfOrderPackets st + 1)) (m_iFirstReadableOutOfOrder st) st)
        else Some st);
  st ← updateNonreadPos st;
  Some (st, 0).

(** One iteration of the loop of [dropUpTo], with the counters of missing
    and of discarded packets. *)
Definition drop_step (s : t * Z * Z) : t * Z * Z :=
  let '(st, iNumDropped, iNumDiscarded) := s in
  let pos := m_iStartPos st in
  let iNumDiscarded := match status_at st pos with EntryState_Avail => iNumDiscarded + 1 | _ => iNumDiscarded end in
  let iNumDropped := match status_at st pos with EntryState_Empty => iNumDropped + 1 | _ => iNumDropped end in
  let st := set_status_at pos EntryState_Empty (dropUnitInPos pos st).1 in
  (set_start (m_iStartSeqNo st) (incPos st pos 1) (m_iMaxPosOff st) st, iNumDropped, iNumDiscarded).

Definition dropUpTo (seqno : Z) (st : t) : option (t * (Z * Z)) :=
  let len := seqoff (m_iStartSeqNo st) seqno in
  if len <=? 0 then Some (st, (0, 0)) else
  let off := m_iMaxPosOff st - len in
  let st := set_start (m_iStartSeqNo st) (m_iStartPos st) (if off <? 0 then 0 else off) st in
  let '(st, iNumDropped, iNumDiscarded) := Nat.iter (Z.to_nat len) drop_step (st, 0, 0) in
  let st := set_start seqno (m_iStartPos st) (m_iMaxPosOff st) st in
  st ← releaseNextFillerEntries st;
  st ← (if negb (isInRange (m_iStartPos st) (m_iMaxPosOff st) (m_szSize st) (m_iFirstNonreadPos st))
        then updateNonreadPos (set_iFirstNonreadPos (m_iStartPos st) st) else Some st);
  st ← (if negb (isTsbPd st) && m_bMessageAPI st then updateFirstReadableOutOfOrder st else Some st);
  Some (st, (iNumDropped, iNumDiscarded)).

Definition dropAll (st : t) : option (t * Z) :=
  if empty st then Some (st, 0) else
  let end_seqno := incseq_by (m_iStartSeqNo st) (m_iMaxPosOff st) in
  '(st, numDropped) ← dropUpTo end_seqno st;
  Some (st, numDropped.1 + numDropped.2).

Definition getRcvDataSize (st : t) : Z :=
  if m_iFirstNonreadPos st >=? m_iStartPos st then m_iFirstNonreadPos st - m_iStartPos st
  else m_szSize st + m_iFirstNonreadPos st - m_iStartPos st.

(** The state of the loops of [dropMessage]: the buffer, [bDropByMsgNo],
    [minDroppedOffset] and [iDropCnt]. *)
Definition drop_cell (i : Z) (st : t) : t :=
  set_status_at i EntryState_Drop (dropUnitInPos i st).1.

Definition drop_range_step (bKeepExisting : bool) (end_pos : Z) (s : t * bool * Z * Z * Z) :
    (t * bool * Z * Z * Z) + (t * bool * Z * Z) :=
  let '(st, bDropByMsgNo, minDroppedOffset, iDropCnt, i) := s in
  if i =? end_pos then inr (st, bDropByMsgNo, minDroppedOffset, iDropCnt)
  else if bool_decide (status_at st i = EntryState_Drop)
  then inl (st, bDropByMsgNo, minDroppedOffset, iDropCnt, incPos st i 1) else
  let bnd := getMsgBoundary (packetAt st i) in
  if has_unit st i && bKeepExisting && (bnd =? PB_SOLO)
  then inl (st, false, minDroppedOffset, iDropCnt, incPos st i 1) else
  inl (drop_cell i st,
       if has_unit st i && (bnd =? PB_FIRST) then false else bDropByMsgNo,
       if minDroppedOffset =? -1 then offPos st (m_iStartPos st) i else minDroppedOffset,
       iDropCnt + 1, incPos st i 1).

Definition drop_msgno_step (bKeepExisting : bool) (msgno stop_pos : Z) (s : t * Z * Z * Z) :
    (t * Z * Z * Z) + (t * Z * Z) :=
  let '(st, minDroppedOffset, iDropCnt, i) := s in
  if i =? stop_pos then inr (st, minDroppedOffset, iDropCnt)
  else if negb (has_unit st i) then inl (st, minDroppedOffset, iDropCnt, decPos st i) else
  let bnd := getMsgBoundary (packetAt st i) in
  let msgseq := getMsgSeq (m_bPeerRexmitFlag st) (packetAt st i) in
  if negb (msgseq =? msgno) then inr (st, minDroppedOffset, iDropCnt)
  else if bKeepExisting && (bnd =? PB_SOLO) then inr (st, minDroppedOffset, iDropCnt) else
  let st1 := drop_cell i st in
  let off := offPos st (m_iStartPos st) i in
  if bnd =? PB_FIRST then inr (st1, off, iDropCnt + 1) else inl (st1, off, iDropCnt + 1, decPos st i).

Definition dropMessage (seqnolo seqnohi msgno : Z) (actionOnExisting : DropActionIfExists) (st : t) : option (t * Z) :=
  let offset_a := seqoff (m_iStartSeqNo st) seqnolo in
  let offset_b := seqoff (m_iStartSeqNo st) seqnohi in
  if (offset_b <? 0) || (offset_a >=? m_szSize st) then Some (st, 0) else
  let bKeepExisting := match actionOnExisting with KEEP_EXISTING => true | DROP_EXISTING => false end in
  let start_pos := incPos st (m_iStartPos st) (Z.max 0 offset_a) in
  let end_pos := incPos st (m_iStartPos st) (Z.min (m_szSize st - 1) (offset_b + 1)) in
  '(st, bDropByMsgNo, minDroppedOffset, iDropCnt) ←
    loop (fuel st) (drop_range_step bKeepExisting end_pos) (st, msgno >? 0, -1, 0, start_pos);
  '(st, minDroppedOffset, iDropCnt) ←
    (if bDropByMsgNo : bool then
       loop (fuel st) (drop_msgno_step bKeepExisting msgno (decPos st (m_iStartPos st)))
         (st, minDroppedOffset, iDropCnt, start_pos)
     else Some (st, minDroppedOffset, iDropCnt));
  let needUpdateNonreadPos := negb (minDroppedOffset =? -1) && (minDroppedOffset <=? getRcvDataSize st) in
  st ← releaseNextFillerEntries st;
  st ← (if needUpdateNonreadPos then updateNonreadPos (set_iFirstNonreadPos (m_iStartPos st) st) else Some st);
  st ← (if negb (isTsbPd st) && m_bMessageAPI st then
          ok ← checkFirstReadableOutOfOrder st;
          updateFirstReadableOutOfOrder (if ok : bool then st else set_iFirstReadableOutOfOrder (-1) st)
        else Some st);
  Some (st, iDropCnt).

(** ** Reading *)

Definition getPktTsbPdTime (usPktTimestamp : Z) (st : t) : Z := CTsbpdTime.getPktTime usPktTimestamp (m_tsbpd st).
Definition getTsbPdTimeBase (usPktTimestamp : Z) (st : t) : Z := CTsbpdTime.getBaseTimeNoLock usPktTimestamp (m_tsbpd st).

(** One packet of [readMessage] at [i]: the state has the bytes copied so
    far, [pkts_read], [bytes_extracted] and the message control data. *)
Definition read_step (len readPos : Z) (updateStartPos : bool)
    (s : t * list Z * Z * Z * option SRT_MSGCTRL * Z) :
    (t * list Z * Z * Z * option SRT_MSGCTRL * Z) + (t * list Z * Z * Z * option SRT_MSGCTRL) :=
  let '(st, data, pkts_read, bytes_extracted, msgctrl, i) := s in
  if negb (has_unit st i) then inr (st, data, pkts_read, bytes_extracted, msgctrl) else
  let packet := packetAt st i in
  let pktsize := getLength packet in
  let pktseqno := getSeqNo packet in
  let unitsize := Z.min (len - zlen data) pktsize in
  let data := data ++ take (Z.to_nat unitsize) (m_pcData packet) in
  let st := if isTsbPd st then updateTsbPdTimeBase (getMsgTimeStamp packet) st else st in
  let st := if negb (m_numOutOfOrderPackets st =? 0) && negb (getMsgOrderFlag packet)
            then set_outOfOrder (m_numOutOfOrderPackets st - 1) (m_iFirstReadableOutOfOrder st) st else st in
  let pbLast := is_last packet in
  let msgctrl := c ← msgctrl;
    Some (mkCtrl (if is_first packet then getMsgSeq (m_bPeerRexmitFlag st) packet else msgno c)
            (if pbLast then getPktTsbPdTime (getMsgTimeStamp packet) st else srctime c) pktseqno) in
  let st := releaseUnitInPos i st in
  let st := if updateStartPos then set_start (incseq pktseqno) (incPos st i 1) (m_iMaxPosOff st - 1) st
            else set_status_at i EntryState_Read st in
  if pbLast then
    inr (if readPos =? m_iFirstReadableOutOfOrder st then set_iFirstReadableOutOfOrder (-1) st else st,
         data, pkts_read + 1, bytes_extracted + pktsize, msgctrl)
  else inl (st, data, pkts_read + 1, bytes_extracted + pktsize, msgctrl, incPos st i 1).

(** The buffer, the bytes written to the user's buffer of length [len], the
    control data and the number returned. *)
Definition readMessage (len : Z) (msgctrl : option SRT_MSGCTRL) (st : t) :
    option (t * list Z * option SRT_MSGCTRL * Z) :=
  let canReadInOrder := hasReadableInorderPkts st in
  if negb canReadInOrder && (m_iFirstReadableOutOfOrder st <? 0) then Some (st, [], msgctrl, 0) else
  let readPos := if canReadInOrder then m_iStartPos st else m_iFirstReadableOutOfOrder st in
  '(st, data, pkts_read, bytes_extracted, msgctrl) ←
    loop (fuel st) (read_step len readPos (readPos =? m_iStartPos st)) (st, [], 0, 0, msgctrl, readPos);
  let st := countBytes (- pkts_read) (- bytes_extracted) st in
  st ← releaseNextFillerEntries st;
  let st := if negb (isInRange (m_iStartPos st) (m_iMaxPosOff st) (m_szSize st) (m_iFirstNonreadPos st))
            then set_iFirstNonreadPos (m_iStartPos st) st else st in
  st ← (if negb (isTsbPd st) then updateFirstReadableOutOfOrder st else Some st);
  Some (st, data, msgctrl, zlen data).

Section Sink.
(** The destination of [readBufferTo] with its copy function, which says
    whether it succeeded. *)
Context {W : Type} (funcCopyToDst : list Z -> Z -> W -> W * bool).

Inductive read_end := Stop | NullUnit.

(** One iteration of its loop over [(st, arg, rs, p)]. *)
Definition buffer_step (now len end_pos : Z) (s : t * W * Z * Z) : (t * W * Z * Z) + (t * W * Z * read_end) :=
  let '(st, arg, rs, p) := s in
  if (p =? end_pos) || (rs <=? 0) then inr (st, arg, rs, Stop)
  else if negb (has_unit st p) then inr (st, arg, rs, NullUnit) else
  let pkt := packetAt st p in
  if isTsbPd st && (getPktTsbPdTime (getMsgTimeStamp pkt) st >? now) then inr (st, arg, rs, Stop) else
  let remain_pktlen := getLength pkt - m_iNotch st in
  let unitsize := Z.min remain_pktlen rs in
  let bytes := take (Z.to_nat unitsize) (drop (Z.to_nat (m_iNotch st)) (m_pcData pkt)) in
  let '(arg, copied) := funcCopyToDst bytes (len - rs) arg in
  if negb copied then inr (st, arg, rs, Stop)
  else if rs >=? remain_pktlen then
    let st := set_iNotch 0 (releaseUnitInPos p st) in
    let p := incPos st p 1 in
    inl (set_start (incseq (m_iStartSeqNo st)) p (m_iMaxPosOff st - 1) st, arg, rs - unitsize, p)
  else inl (set_iNotch (m_iNotch st + rs) st, arg, rs - unitsize, p).

Definition readBufferTo (now len : Z) (arg : W) (st : t) : option (t * W * Z) :=
  '(st, arg, rs, e) ← loop (fuel st) (buffer_step now len (m_iFirstNonreadPos st)) (st, arg, len, m_iStartPos st);
  match e with
  | NullUnit => Some (st, arg, -1)
  | Stop =>
      let iBytesRead := len - rs in
      let st := countBytes (-1) (- iBytesRead) st in
      let st := if negb (isInRange (m_iStartPos st) (m_iMaxPosOff st) (m_szSize st) (m_iFirstNonreadPos st))
                then set_iFirstNonreadPos (m_iStartPos st) st else st in
      Some (st, arg, iBytesRead)
  end.
End Sink.

(** [memcpy] to an offset of the destination. *)
Definition copyBytesToBuf (data : list Z) (dst_offset : Z) (dst : list Z) : list Z * bool :=
  (take (Z.to_nat dst_offset) dst ++ data ++ drop (Z.to_nat dst_offset + length data) dst, true).

Definition readBuffer (now len : Z) (dst : list Z) (st : t) : option (t * list Z * Z) :=
  readBufferTo copyBytesToBuf now len dst st.

Definition readBufferToFile {W} (write : list Z -> W -> W * bool) (now len : Z) (ofs : W) (st : t) :
    option (t * W * Z) :=
  readBufferTo (fun data _ => write data) now len ofs st.

(** ** Queries *)

Definition hasAvailablePackets (st : t) : bool :=
  hasReadableInorderPkts st ||
  ((m_numOutOfOrderPackets st >? 0) && negb (m_iFirstReadableOutOfOrder st =? -1)).

Definition countReadable (st : t) : Z := getRcvDataSize st.

Definition getAvailablePacketsRange (st : t) : Z * Z :=
  (m_iStartSeqNo st, incseq_by (m_iStartSeqNo st) (i32 (countReadable st))).

Definition getFirstNonreadSeqNo (st : t) : Z :=
  incseq_by (m_iStartSeqNo st) (offPos st (m_iStartPos st) (m_iFirstNonreadPos st)).

Definition getAvailSize (iFirstUnackSeqNo : Z) (st : t) : Z :=
  if seqcmp (m_iStartSeqNo st) iFirstUnackSeqNo >=? 0 then capacity st
  else u64 (capacity st - seqlen (m_iStartSeqNo st) iFirstUnackSeqNo + 1).

Definition getFirstValidPacketInfo (st : t) : option PacketInfo :=
  let end_pos := incPos st (m_iStartPos st) (m_iMaxPosOff st) in
  loop (fuel st) (fun i =>
    if i =? end_pos then inr (mkInfo (-1) false 0)
    else if negb (has_unit st i) then inl (incPos st i 1) else
    let packet := packetAt st i in
    inr (mkInfo (getSeqNo packet) (negb (i =? m_iStartPos st)) (getPktTsbPdTime (getMsgTimeStamp packet) st)))
    (m_iStartPos st).

Definition isRcvDataReady (time_now : Z) (st : t) : option bool :=
  let haveInorderPackets := hasReadableInorderPkts st in
  if negb (isTsbPd st) then
    Some (if haveInorderPackets then true
          else (m_numOutOfOrderPackets st >? 0) && negb (m_iFirstReadableOutOfOrder st =? -1))
  else if negb haveInorderPackets then Some false else
  info ← getFirstValidPacketInfo st; Some (tsbpd_time info <=? time_now).

Definition getFirstReadablePacketInfo (time_now : Z) (st : t) : option PacketInfo :=
  let unreadableInfo := mkInfo SRT_SEQNO_NONE false 0 in
  let hasInorderPackets := hasReadableInorderPkts st in
  if negb (isTsbPd st) then
    Some (if hasInorderPackets then mkInfo (getSeqNo (packetAt st (m_iStartPos st))) false 0
          else if m_iFirstReadableOutOfOrder st >=? 0
          then mkInfo (getSeqNo (packetAt st (m_iFirstReadableOutOfOrder st))) true 0
          else unreadableInfo)
  else if negb hasInorderPackets then Some unreadableInfo else
  info ← getFirstValidPacketInfo st;
  Some (if tsbpd_time info <=? time_now then info else unreadableInfo).

(** [getTimespan_ms]; [count_milliseconds] cuts to milliseconds. *)
Definition getTimespan_ms (st : t) : option Z :=
  if negb (isTsbPd st) then Some 0
  else if m_iMaxPosOff st =? 0 then Some 0 else
  lastpos ← loop (fuel st) (fun p =>
    if negb (has_unit st p) && negb (p =? m_iStartPos st) then inl (decPos st p) else inr p)
    (incPos st (m_iStartPos st) (m_iMaxPosOff st - 1));
  if negb (has_unit st lastpos) then Some 0 else
  startpos ← loop (fuel st) (fun p =>
    if negb (has_unit st p) && negb (p =? lastpos) then inl (incPos st p 1) else inr p) (m_iStartPos st);
  if negb (has_unit st startpos) then Some 0 else
  let startstamp := getPktTsbPdTime (getMsgTimeStamp (packetAt st startpos)) st in
  let endstamp := getPktTsbPdTime (getMsgTimeStamp (packetAt st lastpos)) st in
  Some (if endstamp <? startstamp then 0 else i32 (Z.quot (endstamp - startstamp) 1000 + 1)).
End Buffer.
End CRcvBuffer.
