(* ===== verification/RcvBufferInv.v ===== *)
(** The invariant of the receiver buffer of RcvBuffer.v over any pool of
    units: the ring as a list of cells, the units it owns, the number of
    packets that may be read out of order, the complete messages at its head;
    insertion and dropping in terms of the cells. *)
From stdpp Require Import gmap.
From S2P Require Import Prelude Ring SeqNo Packet TsbPd UnitQueue RcvBuffer.
Import CSeqNo CPacket.
Import CRcvBuffer.

(** ** The buffer as a list of cells

    [cs] are the cells in the order of their sequence numbers, the first one
    at position [s] of the unbounded numbering; [others] are the taken units
    that are not in this buffer. *)
Section Facts.
Context {Q : Type} `{HQ : !UnitPool Q}.
Implicit Types (st : t (Q := Q)) (cs : list Entry) (e : Entry).

Definition unit_of (e : Entry) : option CUnitQueue.CUnit := unit_id <$> pUnit e.
Definition ids (cs : list Entry) : list CUnitQueue.CUnit := omap unit_of cs.

Definition cell_ok (s : Z) (k : nat) (e : Entry) : Prop :=
  match pUnit e with
  | Some u => status e = EntryState_Avail /\ getSeqNo (m_Packet u) = seq_of (s + Z.of_nat k)
  | None => status e <> EntryState_Avail
  end.

Record core st (s : Z) (cs : list Entry) (others : gset CUnitQueue.CUnit) : Prop := {
  c_size : 2 <= m_szSize st <= m_iSeqNoTH;
  c_start : 0 <= m_iStartPos st < m_szSize st;
  c_cells : ring (m_entries st) (m_iStartPos st) (m_szSize st) = cs;
  c_ok : forall k e, cs !! k = Some e -> cell_ok s k e;
  c_inv : pool_inv (m_pUnitQueue st);
  c_taken : pool_taken (m_pUnitQueue st) = others ∪ list_to_set (ids cs);
  c_fresh : others ## list_to_set (ids cs);
  c_nodup : NoDup (ids cs)
}.

Lemma core_length st s cs o : core st s cs o -> zlen cs = m_szSize st.
Proof. intros [Hs _ <- _ _ _ _ _]. rewrite length_ring. lia. Qed.

Lemma core_at st s cs o k : core st s cs o -> 0 <= k < m_szSize st ->
  cs !! Z.to_nat k = Some ((m_entries st).[(m_iStartPos st + k) mod m_szSize st]).
Proof.
  intros Hc Hk. rewrite <- (c_cells _ _ _ _ Hc), ring_lookup, decide_True by lia.
  unfold m_szSize. by rewrite Z2Nat.id by lia.
Qed.

(** The index of a cell, and back. *)
Definition pos_of st (k : Z) : Z := (m_iStartPos st + k) mod m_szSize st.

Lemma pos_of_range st s cs o k : core st s cs o -> 0 <= pos_of st k < m_szSize st.
Proof. intros Hc. apply Z.mod_pos_bound. pose proof (c_size _ _ _ _ Hc). lia. Qed.

Lemma pos_of_0 st s cs o : core st s cs o -> pos_of st 0 = m_iStartPos st.
Proof. intros Hc. unfold pos_of. rewrite Z.add_0_r. apply Z.mod_small, (c_start _ _ _ _ Hc). Qed.

Lemma pos_of_inj st s cs o i k : core st s cs o -> 0 <= i < m_szSize st -> 0 <= k < m_szSize st ->
  pos_of st i = pos_of st k -> i = k.
Proof. intros Hc Hi Hk E. by apply (ring_index_inj (m_entries st) (m_iStartPos st)). Qed.

Lemma pos_of_eqb st s cs o i k : core st s cs o -> 0 <= i < m_szSize st -> 0 <= k < m_szSize st ->
  (pos_of st i =? pos_of st k) = (i =? k).
Proof.
  intros Hc Hi Hk. destruct (Z.eqb_spec i k) as [->|Hne]; [apply Z.eqb_refl|].
  apply Z.eqb_neq. intros E. apply Hne. by eapply pos_of_inj.
Qed.

Lemma incPos_pos_of st k : incPos st (pos_of st k) 1 = pos_of st (k + 1).
Proof. unfold incPos, pos_of. rewrite Zplus_mod_idemp_l. f_equal. lia. Qed.

Lemma pos_of_start st k : incPos st (m_iStartPos st) k = pos_of st k.
Proof. done. Qed.

Lemma unit_at_cell st s cs o k e : core st s cs o -> cs !! Z.to_nat k = Some e -> 0 <= k ->
  unit_at st (pos_of st k) = pUnit e /\ status_at st (pos_of st k) = status e.
Proof.
  intros Hc He Hk. pose proof (core_length _ _ _ _ Hc) as Hl. apply lookup_lt_Some in He as Hlt.
  rewrite (core_at _ _ _ _ _ Hc) in He by lia. injection He as <-. done.
Qed.

Lemma cell_exists st s cs o k : core st s cs o -> 0 <= k < m_szSize st -> exists e, cs !! Z.to_nat k = Some e.
Proof. intros Hc Hk. eexists. by apply (core_at _ _ _ _ _ Hc). Qed.

Lemma ids_app l l' : ids (l ++ l') = ids l ++ ids l'.
Proof. apply omap_app. Qed.
Lemma ids_cons e l : ids (e :: l) = option_list (unit_of e) ++ ids l.
Proof. unfold ids. cbn [omap list_omap]. by destruct (unit_of e). Qed.

Lemma unit_of_none e : pUnit e = None -> unit_of e = None.
Proof. unfold unit_of. by intros ->. Qed.

Lemma ids_insert cs k e x : cs !! k = Some e ->
  option_list (unit_of x) ++ ids cs ≡ₚ option_list (unit_of e) ++ ids (<[k := x]> cs).
Proof.
  intros He. rewrite <- (take_drop_middle cs k e He) at 1.
  rewrite (insert_take_drop cs k x) by (by eapply lookup_lt_Some).
  rewrite !ids_app, !ids_cons. solve_Permutation.
Qed.

Lemma ids_none cs : (forall e, e ∈ cs -> pUnit e = None) -> ids cs = [].
Proof.
  induction cs as [|e cs IH]; intros H; [done|].
  rewrite ids_cons, IH by (intros; apply H; by right). rewrite unit_of_none; [done|]. apply H. by left.
Qed.

(** Replacing the entries and the pool. *)
Lemma core_set st s cs o k e x q : core st s cs o -> cs !! Z.to_nat k = Some e -> 0 <= k ->
  cell_ok s (Z.to_nat k) x -> pool_inv q -> pool_taken q = o ∪ list_to_set (ids (<[Z.to_nat k := x]> cs)) ->
  o ## list_to_set (ids (<[Z.to_nat k := x]> cs)) -> NoDup (ids (<[Z.to_nat k := x]> cs)) ->
  core (set_entries ((m_entries st).[pos_of st k <- x]) q st) s (<[Z.to_nat k := x]> cs) o.
Proof.
  intros Hc He Hk Hx Hq Ht Hf Hn. pose proof (core_length _ _ _ _ Hc) as Hl. apply lookup_lt_Some in He as Hlt.
  assert (Es : m_szSize (set_entries ((m_entries st).[pos_of st k <- x]) q st) = m_szSize st)
    by (unfold m_szSize; cbn [m_entries set_entries]; by rewrite length_aset).
  destruct Hc as [Hs Hst Hr Hok _ _ _ _]. split; rewrite ?Es; try done.
  - cbn [m_entries m_iStartPos set_entries]. unfold pos_of, m_szSize. rewrite ring_set_in by (unfold m_szSize in *; lia).
    by rewrite <- Hr.
  - intros j e' Hj. destruct (decide (j = Z.to_nat k)) as [->|Hne].
    + rewrite list_lookup_insert_eq in Hj by done. injection Hj as <-. done.
    + rewrite list_lookup_insert_ne in Hj by done. by apply Hok.
Qed.

(** Writing a cell without a unit over one without a unit. *)
Lemma core_mark st s cs o k e x : core st s cs o -> cs !! Z.to_nat k = Some e -> 0 <= k ->
  pUnit e = None -> pUnit x = None -> status x <> EntryState_Avail ->
  core (set_entries ((m_entries st).[pos_of st k <- x]) (m_pUnitQueue st) st) s (<[Z.to_nat k := x]> cs) o.
Proof.
  intros Hc He Hk Hne Hnx Hx. pose proof (ids_insert cs _ e x He) as Hp.
  rewrite !unit_of_none in Hp by done. cbn in Hp. pose proof Hc as [_ _ _ _ Hi Ht Hf Hn].
  eapply core_set; try done.
  - unfold cell_ok. by rewrite Hnx.
  - rewrite Ht. f_equal. by rewrite Hp.
  - by rewrite <- Hp.
  - by rewrite <- Hp.
Qed.

Lemma core_release st s cs o k e : core st s cs o -> cs !! Z.to_nat k = Some e -> 0 <= k ->
  core (releaseUnitInPos (pos_of st k) st) s (<[Z.to_nat k := no_entry]> cs) o.
Proof.
  intros Hc He Hk. destruct (unit_at_cell _ _ _ _ _ _ Hc He Hk) as [Hu _].
  unfold releaseUnitInPos. rewrite Hu. pose proof (ids_insert cs _ e no_entry He) as Hp.
  destruct (pUnit e) as [u|] eqn:Eu; [|by eapply core_mark].
  unfold unit_of at 1 2 in Hp. rewrite Eu in Hp. cbn in Hp. pose proof Hc as [_ _ _ _ Hi Ht Hf Hn].
  assert (Hn' : NoDup (unit_id u :: ids (<[Z.to_nat k := no_entry]> cs))) by (by rewrite <- Hp).
  apply list.NoDup_cons in Hn' as [Hni Hn'].
  assert (Hs : (list_to_set (ids cs) : gset CUnitQueue.CUnit) =
    {[unit_id u]} ∪ list_to_set (ids (<[Z.to_nat k := no_entry]> cs))) by (rewrite Hp; done).
  rewrite Hs in Ht, Hf. destruct (make_free_ok (m_pUnitQueue st) (unit_id u) Hi) as (Hi' & Ht' & _).
  { rewrite Ht. set_solver. }
  eapply core_set; try done.
  - rewrite Ht', Ht. set_solver.
  - set_solver.
Qed.

(** The number of packets that may be read out of order. *)
Definition ooo_mode st : bool := negb (isTsbPd st) && m_bMessageAPI st.
Definition is_ooo (e : Entry) : bool :=
  match pUnit e with Some u => negb (getMsgOrderFlag (m_Packet u)) | None => false end.
Fixpoint count_ooo (cs : list Entry) : Z :=
  match cs with [] => 0 | e :: cs => (if is_ooo e then 1 else 0) + count_ooo cs end.

Definition num_ok st cs : Prop := m_numOutOfOrderPackets st = if ooo_mode st then count_ooo cs else 0.

Definition rep st s cs o : Prop := core st s cs o /\ num_ok st cs.

Lemma count_ooo_app l l' : count_ooo (l ++ l') = count_ooo l + count_ooo l'.
Proof. induction l; cbn [count_ooo app]; [done|]. rewrite IHl. lia. Qed.

Lemma count_ooo_range l : 0 <= count_ooo l <= zlen l.
Proof. induction l as [|e l IH]; cbn [count_ooo length]; [done|]. destruct (is_ooo e); lia. Qed.

Lemma count_ooo_insert cs k e x : cs !! k = Some e ->
  count_ooo (<[k := x]> cs) = count_ooo cs - (if is_ooo e then 1 else 0) + (if is_ooo x then 1 else 0).
Proof.
  intros He. rewrite <- (take_drop_middle cs k e He) at 2.
  rewrite (insert_take_drop cs k x) by (by eapply lookup_lt_Some).
  rewrite !count_ooo_app. cbn [count_ooo]. lia.
Qed.

Lemma is_ooo_none e : pUnit e = None -> is_ooo e = false.
Proof. unfold is_ooo. by intros ->. Qed.

(** The fields that the operations on single cells leave alone. *)
Record frame st st' : Prop := {
  f_seq : m_iStartSeqNo st' = m_iStartSeqNo st;
  f_pos : m_iStartPos st' = m_iStartPos st;
  f_nonread : m_iFirstNonreadPos st' = m_iFirstNonreadPos st;
  f_off : m_iMaxPosOff st' = m_iMaxPosOff st;
  f_size : m_szSize st' = m_szSize st;
  f_api : m_bMessageAPI st' = m_bMessageAPI st;
  f_rexmit : m_bPeerRexmitFlag st' = m_bPeerRexmitFlag st;
  f_tsbpd : isTsbPd st' = isTsbPd st
}.

#[export] Instance frame_preorder : PreOrder frame.
Proof. split; [by intros st|]. intros x y z [] []. split; congruence. Qed.

Lemma frame_mode st st' : frame st st' -> ooo_mode st' = ooo_mode st.
Proof. intros []. unfold ooo_mode. congruence. Qed.

Lemma frame_pos_of st st' k : frame st st' -> pos_of st' k = pos_of st k.
Proof. intros []. unfold pos_of. congruence. Qed.

Lemma updateBaseTime_mode ts x : CTsbpdTime.m_bTsbPdMode (CTsbpdTime.updateBaseTime ts x) = CTsbpdTime.m_bTsbPdMode x.
Proof. unfold CTsbpdTime.updateBaseTime. by repeat case_match. Qed.

(** [core] only looks at the entries, the pool and the start. *)
Lemma core_ext st st' s cs o : core st s cs o -> m_entries st' = m_entries st ->
  m_pUnitQueue st' = m_pUnitQueue st -> m_iStartPos st' = m_iStartPos st -> core st' s cs o.
Proof. intros [] E1 E2 E3. split; unfold m_szSize in *; by rewrite ?E1, ?E2, ?E3. Qed.

Lemma before_drop_ok st s cs o k e u : rep st s cs o -> cs !! Z.to_nat k = Some e -> 0 <= k -> pUnit e = Some u ->
  core (before_drop (pos_of st k) st) s cs o /\ frame st (before_drop (pos_of st k) st) /\
  m_numOutOfOrderPackets (before_drop (pos_of st k) st) =
    (if ooo_mode st then count_ooo (<[Z.to_nat k := no_entry]> cs) else 0).
Proof.
  intros [Hc Hn] He Hk Hu. pose proof (core_length _ _ _ _ Hc). destruct (unit_at_cell _ _ _ _ _ _ Hc He Hk) as [Hua _].
  pose proof (count_ooo_insert cs _ e no_entry He) as Hcnt. rewrite (is_ooo_none no_entry) in Hcnt by done.
  pose proof (count_ooo_range (<[Z.to_nat k := no_entry]> cs)) as Hr. rewrite length_insert in Hr.
  pose proof (c_size _ _ _ _ Hc). unfold m_iSeqNoTH in *.
  assert (Hfl : getMsgOrderFlag (packetAt st (pos_of st k)) = negb (is_ooo e)).
  { unfold packetAt, is_ooo. rewrite Hua, Hu. cbn. by rewrite negb_involutive. }
  unfold before_drop, num_ok, ooo_mode in *. rewrite Hfl, negb_involutive. destruct (isTsbPd st) eqn:Et; cbn [negb andb] in *.
  - split; [by eapply core_ext|]. split; [|done]. split; try done.
    unfold isTsbPd in *. cbn [m_tsbpd updateTsbPdTimeBase set_tsbpd]. apply updateBaseTime_mode.
  - destruct (m_bMessageAPI st) eqn:Ea; cbn [andb]; [|by split; [|split]].
    destruct (is_ooo e).
    + split; [by eapply core_ext|]. split; [done|]. cbn [m_numOutOfOrderPackets set_outOfOrder]. unfold u64.
      rewrite Z.mod_small; lia.
    + split; [done|]. split; [done|lia].
Qed.

Lemma frame_release st k : frame st (releaseUnitInPos (pos_of st k) st).
Proof. split; try done. unfold m_szSize. cbn. by rewrite length_aset. Qed.

Lemma drop_unit_ok st s cs o k e : rep st s cs o -> cs !! Z.to_nat k = Some e -> 0 <= k ->
  let st' := (dropUnitInPos (pos_of st k) st).1 in
  exists e', rep st' s (<[Z.to_nat k := e']> cs) o /\ frame st st' /\ pUnit e' = None /\
    status e' = match pUnit e with Some _ => EntryState_Empty | None => status e end.
Proof.
  intros Hrep He Hk. destruct (Hrep) as [Hc Hn]. destruct (unit_at_cell _ _ _ _ _ _ Hc He Hk) as [Hua _].
  unfold dropUnitInPos, has_unit. rewrite Hua. destruct (pUnit e) as [u|] eqn:Eu.
  - rewrite bool_decide_true by eauto. cbn [negb fst].
    destruct (before_drop_ok _ _ _ _ _ _ _ Hrep He Hk Eu) as (Hc1 & Hf1 & Hn1).
    set (st1 := before_drop (pos_of st k) st) in *.
    pose proof (core_release _ _ _ _ _ _ Hc1 He Hk) as Hc2. pose proof (frame_release st1 k) as Hf2.
    rewrite (frame_pos_of _ _ k Hf1) in Hc2, Hf2. exists no_entry.
    split; [split; [done|]|split; [by etrans|done]].
    unfold num_ok. rewrite (frame_mode _ _ Hf2), (frame_mode _ _ Hf1). exact Hn1.
  - rewrite bool_decide_false by (intros [? [=]]). cbn [negb fst]. exists e.
    rewrite list_insert_id by done. by split.
Qed.

Lemma frame_set_status st k x : frame st (set_status_at k x st).
Proof. split; try done. unfold m_szSize. cbn. by rewrite length_aupd. Qed.

(** Dropping the unit of a cell, if any, and giving the cell the status [x]. *)
Lemma drop_mark_ok st s cs o k e x : rep st s cs o -> cs !! Z.to_nat k = Some e -> 0 <= k -> x <> EntryState_Avail ->
  let st' := set_status_at (pos_of st k) x (dropUnitInPos (pos_of st k) st).1 in
  rep st' s (<[Z.to_nat k := mkEntry None x]> cs) o /\ frame st st'.
Proof.
  intros Hrep He Hk Hx. destruct (drop_unit_ok _ _ _ _ _ _ Hrep He Hk) as (e' & [Hc1 Hn1] & Hf1 & Hu1 & Hs1).
  set (st1 := (dropUnitInPos (pos_of st k) st).1) in *. apply lookup_lt_Some in He as Hlt.
  assert (He1 : <[Z.to_nat k := e']> cs !! Z.to_nat k = Some e') by by apply list_lookup_insert_eq.
  split; [|etrans; [exact Hf1|apply frame_set_status]].
  destruct (unit_at_cell _ _ _ _ _ _ Hc1 He1 Hk) as [Hua1 _]. rewrite (frame_pos_of _ _ k Hf1) in Hua1.
  assert (Hx1 : set_status x ((m_entries st1).[pos_of st k]) = mkEntry None x).
  { unfold set_status. unfold unit_at in Hua1. by rewrite Hua1, Hu1. }
  pose proof (core_mark _ _ _ _ _ _ (mkEntry None x) Hc1 He1 Hk Hu1 eq_refl Hx) as Hc2.
  rewrite list_insert_insert_eq, (frame_pos_of _ _ k Hf1) in Hc2.
  split; [unfold set_status_at, aupd; by rewrite Hx1|].
  unfold num_ok in *. rewrite (frame_mode _ _ (frame_set_status st1 _ x)). cbn [m_numOutOfOrderPackets set_status_at set_entries].
  rewrite Hn1. rewrite !(count_ooo_insert _ _ _ _ He). by rewrite (is_ooo_none e') by done.
Qed.

(** ** Moving the start *)

Definition cell_at cs (k : nat) : Entry := default no_entry (cs !! k).

(** The cells after the start has moved by [n]: the first [n] are gone, as
    many empty ones follow. *)
Definition shift (n : nat) cs : list Entry := map (fun i => cell_at cs (n + i)) (seq 0 (length cs)).

Lemma length_shift n cs : length (shift n cs) = length cs.
Proof. unfold shift. by rewrite length_map, length_seq. Qed.

Lemma cell_at_shift n cs k : cell_at (shift n cs) k = cell_at cs (n + k).
Proof.
  unfold cell_at at 1, shift. rewrite list_lookup_fmap. destruct (decide (k < length cs)%nat).
  - by rewrite lookup_seq_lt by lia.
  - rewrite lookup_seq_ge by lia. cbn. unfold cell_at. by rewrite lookup_ge_None_2 by lia.
Qed.

Lemma cell_at_lookup cs k : (k < length cs)%nat -> cs !! k = Some (cell_at cs k).
Proof. intros Hk. unfold cell_at. by destruct (lookup_lt_is_Some_2 cs k Hk) as [e ->]. Qed.

Lemma cells_ext cs cs' : length cs = length cs' -> (forall k, cell_at cs k = cell_at cs' k) -> cs = cs'.
Proof.
  intros Hl He. apply list_eq. intros k. destruct (decide (k < length cs)%nat).
  - rewrite !cell_at_lookup by lia. by rewrite He.
  - by rewrite !lookup_ge_None_2 by lia.
Qed.

Lemma shift_0 cs : shift 0 cs = cs.
Proof. apply cells_ext; [apply length_shift|]. intros k. apply cell_at_shift. Qed.

Lemma shift_shift n m cs : shift n (shift m cs) = shift (m + n) cs.
Proof.
  apply cells_ext; [by rewrite !length_shift|]. intros k. rewrite !cell_at_shift. f_equal. lia.
Qed.

Lemma shift_1 e cs : shift 1 (e :: cs) = cs ++ [no_entry].
Proof.
  apply cells_ext; [rewrite length_shift, length_app; cbn; lia|]. intros k. rewrite cell_at_shift.
  unfold cell_at. change ((e :: cs) !! (1 + k)%nat) with (cs !! k). destruct (decide (k < length cs)%nat).
  - by rewrite lookup_app_l.
  - rewrite (lookup_ge_None_2 cs k), lookup_app_r by lia. by destruct (k - length cs)%nat as [|[]].
Qed.

(** The fields that moving the start leaves alone too. *)
Record stable st st' : Prop := {
  t_nonread : m_iFirstNonreadPos st' = m_iFirstNonreadPos st;
  t_size : m_szSize st' = m_szSize st;
  t_api : m_bMessageAPI st' = m_bMessageAPI st;
  t_rexmit : m_bPeerRexmitFlag st' = m_bPeerRexmitFlag st;
  t_tsbpd : isTsbPd st' = isTsbPd st
}.

#[export] Instance stable_preorder : PreOrder stable.
Proof. split; [by intros st|]. intros x y z [] []. split; congruence. Qed.

Lemma frame_stable st st' : frame st st' -> stable st st'.
Proof. by intros []. Qed.

Lemma stable_mode st st' : stable st st' -> ooo_mode st' = ooo_mode st.
Proof. intros []. unfold ooo_mode. congruence. Qed.

(** The start moves over a cell without a unit. *)
Lemma rep_advance st s e cs o seq off : rep st s (e :: cs) o -> pUnit e = None ->
  rep (set_start seq (pos_of st 1) off st) (s + 1) (cs ++ [e]) o.
Proof.
  intros [Hc Hn] He. pose proof (core_length _ _ _ _ Hc) as Hl. destruct Hc as [Hs Hst Hr Hok Hi Ht Hf Hnd].
  assert (Hids : ids (cs ++ [e]) = ids (e :: cs)).
  { rewrite ids_app, !ids_cons, unit_of_none by done. apply app_nil_r. }
  split; [split|]; cbn [m_entries m_pUnitQueue m_iStartPos set_start]; try done; rewrite ?Hids; try done.
  - apply Z.mod_pos_bound. unfold m_szSize in *. cbn. lia.
  - unfold pos_of. change (m_szSize (set_start _ _ _ _)) with (m_szSize st). unfold m_szSize at 1. rewrite ring_mod.
    replace (m_szSize st) with (m_szSize st - 1 + 1) by lia. rewrite ring_snoc by lia.
    rewrite ring_cons in Hr by lia. injection Hr as Hr1 Hr2. rewrite Hr2. do 2 f_equal.
    rewrite <- Hr1. f_equal. fold (m_szSize st).
    replace (m_iStartPos st + 1 + (m_szSize st - 1)) with (m_iStartPos st + 1 * m_szSize st) by lia. apply Z_mod_plus_full.
  - intros k x Hk. unfold cell_ok. apply lookup_app_Some in Hk as [Hk|[Hk1 Hk]].
    + specialize (Hok (S k) x Hk). unfold cell_ok in Hok. replace (s + 1 + Z.of_nat k) with (s + Z.of_nat (S k)) by lia. done.
    + apply list_lookup_singleton_Some in Hk as [_ <-]. rewrite He.
      specialize (Hok O e eq_refl). unfold cell_ok in Hok. by rewrite He in Hok.
  - unfold num_ok, ooo_mode in *. cbn [m_numOutOfOrderPackets set_start]. rewrite Hn, count_ooo_app. cbn [count_ooo].
    change (isTsbPd (set_start _ _ _ st)) with (isTsbPd st). rewrite (is_ooo_none e) by done.
    change (m_bMessageAPI (set_start _ _ _ st)) with (m_bMessageAPI st). case_match; lia.
Qed.

Definition is_empty (s : EntryStatus) : bool := match s with EntryState_Empty => true | _ => false end.

Lemma drop_step_ok st s cs o a b : rep st s cs o ->
  exists st', drop_step (st, a, b) =
      (st', a + (if is_empty (status (cell_at cs 0)) then 1 else 0),
            b + (if is_avail (status (cell_at cs 0)) then 1 else 0)) /\
    rep st' (s + 1) (shift 1 cs) o /\ stable st st' /\ m_iStartPos st' = pos_of st 1 /\
    m_iStartSeqNo st' = m_iStartSeqNo st /\ m_iMaxPosOff st' = m_iMaxPosOff st.
Proof.
  intros Hrep. pose proof (proj1 Hrep) as Hc. pose proof (core_length _ _ _ _ Hc) as Hl. pose proof (c_size _ _ _ _ Hc).
  destruct cs as [|e cs]; [cbn in Hl; lia|]. assert (He : (e :: cs) !! Z.to_nat 0 = Some e) by done.
  destruct (unit_at_cell _ _ _ _ _ _ Hc He ltac:(lia)) as [_ Hst].
  destruct (drop_mark_ok _ _ _ _ _ _ EntryState_Empty Hrep He ltac:(lia) ltac:(done)) as [Hrep1 Hf1].
  rewrite (pos_of_0 _ _ _ _ Hc) in Hst, Hrep1, Hf1. cbn [cell_at lookup list_lookup default from_option].
  unfold drop_step. rewrite Hst. set (st1 := set_status_at _ _ _) in *.
  assert (Hp : pos_of st1 1 = pos_of st 1) by (by apply frame_pos_of).
  eexists. split; [|split; [|split]].
  - unfold cell_at. cbn. f_equal; [f_equal|]; destruct (status e); cbn; lia.
  - rewrite shift_1. change (Z.to_nat 0) with O in Hrep1. cbn [list_insert insert] in Hrep1.
    rewrite <- (f_pos _ _ Hf1). fold (pos_of st1 1). by apply (rep_advance _ _ (mkEntry None EntryState_Empty)).
  - etrans; [apply frame_stable, Hf1|]. by split.
  - cbn [m_iStartPos m_iStartSeqNo m_iMaxPosOff set_start]. destruct Hf1 as [F1 F2 F3 F4 F5 F6 F7 F8].
    split_and!; [|done|done]. unfold incPos, pos_of. by rewrite F5.
Qed.

(** The number of the first [n] cells whose status satisfies [p]. *)
Fixpoint count_cells (p : EntryStatus -> bool) cs (n : nat) : Z :=
  match n with O => 0 | S n => count_cells p cs n + (if p (status (cell_at cs n)) then 1 else 0) end.

Lemma pos_of_moved st st' n k : stable st st' -> m_iStartPos st' = pos_of st n -> pos_of st' k = pos_of st (n + k).
Proof.
  intros [] Hp. unfold pos_of in *. rewrite t_size0, Hp, Zplus_mod_idemp_l. f_equal. lia.
Qed.

Lemma drop_loop_ok st s cs o n : rep st s cs o ->
  exists st', Nat.iter n drop_step (st, 0, 0) = (st', count_cells is_empty cs n, count_cells is_avail cs n) /\
    rep st' (s + Z.of_nat n) (shift n cs) o /\ stable st st' /\ m_iStartPos st' = pos_of st (Z.of_nat n) /\
    m_iStartSeqNo st' = m_iStartSeqNo st /\ m_iMaxPosOff st' = m_iMaxPosOff st.
Proof.
  intros Hrep. induction n as [|n (st1 & E1 & Hrep1 & Hs1 & Hp1 & Hq1 & Ho1)].
  - exists st. rewrite shift_0, Z.add_0_r. split_and!; try done. symmetry. exact (pos_of_0 _ _ _ _ (proj1 Hrep)).
  - cbn [Nat.iter nat_rect]. change (nat_rect _ _ _ n) with (Nat.iter n drop_step (st, 0, 0)). rewrite E1.
    destruct (drop_step_ok st1 _ _ o (count_cells is_empty cs n) (count_cells is_avail cs n) Hrep1)
      as (st2 & E2 & Hrep2 & Hs2 & Hp2 & Hq2 & Ho2).
    rewrite cell_at_shift, Nat.add_0_r in E2. exists st2. rewrite shift_shift in Hrep2.
    replace (s + Z.of_nat n + 1) with (s + Z.of_nat (S n)) in Hrep2 by lia.
    replace (n + 1)%nat with (S n) in Hrep2 by lia. split_and!; try done; try congruence.
    + by etrans.
    + rewrite Hp2, (pos_of_moved _ _ _ _ Hs1 Hp1). f_equal. lia.
Qed.

(** ** Releasing the filler entries *)

Lemma filler_none s k e : cell_ok s k e -> filler (status e) = true -> pUnit e = None.
Proof. unfold cell_ok. destruct (pUnit e); [|done]. intros [-> _]. done. Qed.

Definition fillers cs : nat := length (List.filter (fun e => filler (status e)) cs).

Definition after_release st s cs o (f : nat) st' : Prop :=
  rep st' (s + Z.of_nat f) (shift f cs) o /\ stable st st' /\ m_iStartPos st' = pos_of st (Z.of_nat f) /\
  m_iMaxPosOff st' = Z.max 0 (m_iMaxPosOff st - Z.of_nat f) /\
  (m_iStartSeqNo st = seq_of s -> m_iStartSeqNo st' = seq_of (s + Z.of_nat f)) /\
  forall k, (k < f)%nat -> filler (status (cell_at cs k)) = true.

Lemma release_step_ok st s cs o : rep st s cs o -> 0 <= m_iMaxPosOff st ->
  match release_step st with
  | inl st' => after_release st s cs o 1 st' /\ (fillers (shift 1 cs) < fillers cs)%nat
  | inr st' => st' = st /\ filler (status (cell_at cs 0)) = false
  end.
Proof.
  intros Hrep Hoff. pose proof (proj1 Hrep) as Hc. pose proof (core_length _ _ _ _ Hc) as Hl. pose proof (c_size _ _ _ _ Hc).
  destruct cs as [|e cs]; [cbn in Hl; lia|]. assert (He : (e :: cs) !! Z.to_nat 0 = Some e) by done.
  destruct (unit_at_cell _ _ _ _ _ _ Hc He ltac:(lia)) as [_ Hst]. rewrite (pos_of_0 _ _ _ _ Hc) in Hst.
  unfold release_step. rewrite Hst. unfold cell_at. cbn [lookup list_lookup default from_option].
  destruct (filler (status e)) eqn:Ef; [|done].
  assert (Hu : pUnit e = None) by (eapply filler_none; [apply (c_ok _ _ _ _ Hc O e eq_refl)|done]).
  pose proof (core_release _ _ _ _ _ _ Hc He ltac:(lia)) as Hc1. pose proof (frame_release st 0) as Hf1.
  rewrite (pos_of_0 _ _ _ _ Hc) in Hc1, Hf1. change (Z.to_nat 0) with O in Hc1. cbn [insert list_insert] in Hc1.
  set (st1 := releaseUnitInPos (m_iStartPos st) st) in *.
  assert (Hrep1 : rep st1 s (no_entry :: cs) o).
  { split; [done|]. unfold num_ok. rewrite (frame_mode _ _ Hf1). change (m_numOutOfOrderPackets st1) with (m_numOutOfOrderPackets st).
    rewrite (proj2 Hrep). cbn [count_ooo]. by rewrite (is_ooo_none e) by done. }
  pose proof (fun seq off => rep_advance st1 s no_entry cs o seq off Hrep1 eq_refl) as Hadv.
  assert (Hp : incPos st1 (m_iStartPos st) 1 = pos_of st1 1) by (unfold incPos, pos_of; by rewrite (f_pos _ _ Hf1)).
  split; [|].
  - rewrite Hp. unfold after_release. rewrite shift_1. split_and!.
    + apply Hadv.
    + etrans; [apply frame_stable, Hf1|]. by split.
    + cbn [m_iStartPos set_start]. by apply frame_pos_of.
    + cbn [m_iMaxPosOff set_start]. rewrite (f_off _ _ Hf1). bdestr.
    + cbn [m_iStartSeqNo set_start]. rewrite (f_seq _ _ Hf1). intros ->. by rewrite incseq_seq_of.
    + intros k Hk. assert (k = O) as -> by lia. exact Ef.
  - rewrite shift_1. unfold fillers. rewrite List.filter_app, length_app. cbn. rewrite Ef. cbn. lia.
Qed.

Lemma after_release_trans st s cs o f st1 st2 : after_release st s cs o f st1 ->
  after_release st1 (s + Z.of_nat f) (shift f cs) o 1 st2 -> after_release st s cs o (S f) st2.
Proof.
  intros (Hr1 & Hs1 & Hp1 & Ho1 & Hq1 & Hf1) (Hr2 & Hs2 & Hp2 & Ho2 & Hq2 & Hf2).
  rewrite shift_shift in Hr2. replace (f + 1)%nat with (S f) in Hr2 by lia. unfold after_release.
  replace (s + Z.of_nat f + Z.of_nat 1) with (s + Z.of_nat (S f)) in * by lia. split_and!; try done.
  - by etrans.
  - rewrite Hp2, (pos_of_moved _ _ _ _ Hs1 Hp1). f_equal. lia.
  - lia.
  - auto.
  - intros k Hk. destruct (decide (k = f)) as [->|]; [|apply Hf1; lia].
    specialize (Hf2 O ltac:(lia)). by rewrite cell_at_shift, Nat.add_0_r in Hf2.
Qed.

Lemma release_ok st s cs o : rep st s cs o -> 0 <= m_iMaxPosOff st ->
  exists st' f, releaseNextFillerEntries st = Some st' /\ after_release st s cs o f st' /\
    filler (status (cell_at cs f)) = false.
Proof.
  intros Hrep Hoff.
  destruct (loop_total release_step
    (fun st1 => exists f, after_release st s cs o f st1)
    (fun st' => exists f, after_release st s cs o f st' /\ filler (status (cell_at cs f)) = false)
    (fun st1 => fillers (ring (m_entries st1) (m_iStartPos st1) (m_szSize st1))) )
    with (fuel := fuel st) (s := st) as (st' & E & f & Hf & Hn).
  - intros st1 [f Hf]. pose proof Hf as (Hr1 & _ & _ & Ho1 & _).
    pose proof (release_step_ok st1 _ _ _ Hr1 ltac:(lia)) as Hstep.
    rewrite (c_cells _ _ _ _ (proj1 Hr1)).
    destruct (release_step st1) as [st2|st2].
    + destruct Hstep as [Hstep Hlt]. split; [exists (S f); by eapply after_release_trans|].
      by rewrite (c_cells _ _ _ _ (proj1 (proj1 Hstep))).
    + destruct Hstep as [-> Hn]. exists f. split; [done|]. by rewrite cell_at_shift, Nat.add_0_r in Hn.
  - exists O. unfold after_release. rewrite shift_0, Z.add_0_r. split_and!; try done; try lia.
    symmetry. exact (pos_of_0 _ _ _ _ (proj1 Hrep)).
  - rewrite (c_cells _ _ _ _ (proj1 Hrep)). unfold fuel, fillers.
    pose proof (List.filter_length_le (fun e => filler (status e)) cs). pose proof (core_length _ _ _ _ (proj1 Hrep)) as Hl.
    unfold m_szSize in Hl. lia.
  - by exists st', f.
Qed.

(** ** Complete messages *)

Definition has_packet (e : Entry) : bool := bool_decide (is_Some (pUnit e)).
Definition packet_of (e : Entry) : CPacket.t := from_option m_Packet no_packet (pUnit e).

(** The number of cells of the message at the head, if all its packets up to
    the last one are there; in stream mode every packet is a message. *)
Fixpoint msg_end (api : bool) (l : list Entry) : option nat :=
  match l with
  | [] => None
  | e :: l =>
      if negb (has_packet e) then None
      else if negb api || is_last (packet_of e) then Some 1%nat
      else S <$> msg_end api l
  end.

Definition msg_starts (api : bool) (l : list Entry) : bool :=
  match l with
  | [] => false
  | e :: _ => has_packet e && (negb api || is_first (packet_of e))
  end.

(** The message that can be read from the head. *)
Definition head_message (api : bool) (l : list Entry) : option nat :=
  if msg_starts api l then msg_end api l else None.

(** The first [n] cells are complete messages. *)
Inductive messages (api : bool) : list Entry -> nat -> Prop :=
  | messages_nil l : messages api l 0
  | messages_cons l k n : head_message api l = Some k -> messages api (drop k l) n -> messages api l (k + n).

Lemma msg_end_range api l n : msg_end api l = Some n -> (1 <= n <= length l)%nat.
Proof.
  revert n. induction l as [|e l IH]; intros n; cbn [msg_end]; [done|].
  destruct (has_packet e); [|done]. destruct (_ || _); cbn [negb].
  - intros [= <-]. cbn. lia.
  - destruct (msg_end api l) as [m|]; intros [= <-]. specialize (IH m eq_refl). cbn. lia.
Qed.

Lemma msg_end_packets api l n : msg_end api l = Some n -> forall k, (k < n)%nat -> has_packet (cell_at l k) = true.
Proof.
  revert n. induction l as [|e l IH]; intros n; cbn [msg_end]; [done|].
  destruct (has_packet e) eqn:Ep; [|done]. destruct (_ || _); cbn [negb].
  - intros [= <-] k Hk. assert (k = O) as -> by lia. done.
  - destruct (msg_end api l) as [m|]; intros [= <-]. intros [|k] Hk; [done|]. apply (IH m eq_refl k). lia.
Qed.

Lemma messages_app api l n m : messages api l n -> messages api (drop n l) m -> messages api l (n + m).
Proof.
  induction 1 as [l|l k n Hk _ IH]; intros Hm; [done|]. rewrite <- Nat.add_assoc.
  constructor; [done|]. apply IH. by rewrite drop_drop.
Qed.

Lemma drop_cons_at cs k : (k < length cs)%nat -> drop k cs = cell_at cs k :: drop (S k) cs.
Proof. intros Hk. apply drop_S. by apply cell_at_lookup. Qed.

Section Update.
Context (st : t (Q := Q)) (s : Z) (cs : list Entry) (o : gset CUnitQueue.CUnit) (off : nat).
Context (Hc : core st s cs o) (Hoff : Z.of_nat off <= m_szSize st - 1).
Context (Hbeyond : forall k, (off <= k)%nat -> cell_at cs k = no_entry).

Notation api := (m_bMessageAPI st).
Notation p k := (pos_of st (Z.of_nat k)).

Lemma cell_facts k : (k <= off)%nat ->
  CRcvBuffer.has_unit st (p k) = has_packet (cell_at cs k) /\ packetAt st (p k) = packet_of (cell_at cs k) /\
  is_avail (status_at st (p k)) = has_packet (cell_at cs k).
Proof.
  intros Hk. pose proof (core_length _ _ _ _ Hc) as Hl. pose proof (cell_at_lookup cs k ltac:(lia)) as He.
  assert (He' : cs !! Z.to_nat (Z.of_nat k) = Some (cell_at cs k)) by (by rewrite Nat2Z.id).
  destruct (unit_at_cell _ _ _ _ _ _ Hc He' ltac:(lia)) as [Hu Hs].
  unfold CRcvBuffer.has_unit, packetAt, has_packet, packet_of. rewrite Hu, Hs. split_and!; [done|done|].
  pose proof (c_ok _ _ _ _ Hc k _ He) as Hok. unfold cell_ok in Hok. destruct (pUnit (cell_at cs k)).
  - destruct Hok as [-> _]. by rewrite bool_decide_true by eauto.
  - rewrite bool_decide_false by (intros [? [=]]). by destruct (status (cell_at cs k)).
Qed.

Lemma p_eqb i k : (i <= off)%nat -> (k <= off)%nat -> (p i =? p k) = (i =? k)%nat.
Proof.
  intros Hi Hk. rewrite (pos_of_eqb _ _ _ _ _ _ Hc) by lia.
  destruct (Nat.eqb_spec i k); [apply Z.eqb_eq|apply Z.eqb_neq]; lia.
Qed.

Lemma p_next k : incPos st (p k) 1 = p (S k).
Proof. rewrite incPos_pos_of. f_equal. lia. Qed.

Lemma message_loop k i m : (k <= i <= off)%nat -> has_packet (cell_at cs k) = true -> (off - i < m)%nat ->
  loop m (message_step st (p k) (p off)) (p i) = Some ((fun n : nat => p (i + n)) <$> msg_end api (drop i cs)).
Proof.
  intros Hi Hk. revert i Hi. induction m as [|m IH]; intros i Hi Hm; [lia|].
  pose proof (core_length _ _ _ _ Hc) as Hl. rewrite (drop_cons_at cs i) by lia. cbn [loop msg_end].
  destruct (cell_facts k ltac:(lia)) as (_ & _ & Hav). destruct (cell_facts i ltac:(lia)) as (Hu & Hp & _).
  assert (message_step st (p k) (p off) (p i) =
    if (i =? off)%nat || negb (has_packet (cell_at cs i)) then inr None
    else if negb api || is_last (packet_of (cell_at cs i)) then inr (Some (p (S i))) else inl (p (S i))) as ->.
  { unfold message_step. rewrite p_eqb, Hu, Hp, Hav, Hk, p_next by lia. cbn [negb]. rewrite orb_false_r.
    by destruct (i =? off)%nat. }
  destruct (Nat.eqb_spec i off) as [->|Hne]; [by rewrite Hbeyond by lia|].
  destruct (has_packet (cell_at cs i)); cbn [negb orb]; [|done].
  destruct (_ || _); [cbn; do 3 f_equal; lia|].
  rewrite IH by lia. destruct (msg_end _ _); cbn; [|done]. do 3 f_equal. lia.
Qed.

Definition at_nonread (k : nat) := set_iFirstNonreadPos (p k) st.

Lemma message_in_range k n : (k <= off)%nat -> msg_end api (drop k cs) = Some n -> (1 <= n /\ k + n <= off)%nat.
Proof.
  intros Hk Hn. pose proof (msg_end_range _ _ _ Hn) as [Hn1 _]. split; [done|].
  pose proof (core_length _ _ _ _ Hc) as Hl.
  destruct (decide (k + n <= off)%nat) as [|Hgt]; [done|]. exfalso.
  pose proof (msg_end_packets _ _ _ Hn (off - k) ltac:(lia)) as Hp.
  unfold cell_at in Hp. rewrite lookup_drop in Hp. replace (k + (off - k))%nat with off in Hp by lia.
  fold (cell_at cs off) in Hp. rewrite Hbeyond in Hp by lia. done.
Qed.

Lemma nonread_loop k m : (k <= off)%nat -> (off - k < m)%nat ->
  exists n, loop m (nonread_step (p off)) (at_nonread k, p k) = Some (Some (at_nonread (k + n))) /\
    messages api (drop k cs) n /\ head_message api (drop (k + n) cs) = None /\ (k + n <= off)%nat.
Proof.
  revert k. induction m as [|m IH]; intros k Hk Hm; [lia|]. cbn [loop]. unfold nonread_step at 1.
  pose proof (core_length _ _ _ _ Hc) as Hl. destruct (cell_facts k ltac:(lia)) as (Hu & Hp & Hav).
  change (CRcvBuffer.has_unit (at_nonread k)) with (CRcvBuffer.has_unit st).
  change (status_at (at_nonread k)) with (status_at st). change (packetAt (at_nonread k)) with (packetAt st).
  change (m_bMessageAPI (at_nonread k)) with api. change (fuel (at_nonread k)) with (fuel st).
  change (message_step (at_nonread k)) with (message_step st). rewrite Hu, Hav, Hp, andb_diag.
  assert (Hhead : msg_starts api (drop k cs) =
    has_packet (cell_at cs k) && (negb api || is_first (packet_of (cell_at cs k))))
    by (by rewrite (drop_cons_at cs k) by lia).
  destruct (has_packet (cell_at cs k)) eqn:Ep; cbn [andb] in *; cycle 1.
  { exists O. rewrite Nat.add_0_r. split_and!; [done|constructor| |done]. unfold head_message. by rewrite Hhead. }
  destruct (api && negb (is_first (packet_of (cell_at cs k)))) eqn:Ef.
  { exists O. rewrite Nat.add_0_r. split_and!; [done|constructor| |done]. unfold head_message. rewrite Hhead.
    apply andb_true_iff in Ef as [-> Ef]. apply negb_true_iff in Ef. by rewrite Ef. }
  assert (Hst : msg_starts api (drop k cs) = true).
  { rewrite Hhead. destruct api; cbn in *; [|done]. by destruct (is_first _). }
  rewrite (message_loop k k) by (done || (unfold fuel, m_szSize in *; lia)).
  destruct (msg_end api (drop k cs)) as [n|] eqn:En; cbn [fmap option_fmap option_map].
  - destruct (message_in_range k n Hk En) as [Hn1 Hn2].
    assert (Hhm : head_message api (drop k cs) = Some n) by (unfold head_message; by rewrite Hst).
    change (m_iFirstNonreadPos (set_iFirstNonreadPos (p (k + n)) (at_nonread k))) with (p (k + n)).
    change (CRcvBuffer.has_unit (set_iFirstNonreadPos _ _)) with (CRcvBuffer.has_unit st).
    rewrite p_eqb by lia. rewrite (proj2 (Nat.eqb_neq _ _)) by lia. cbn [orb].
    destruct (cell_facts (k + n) ltac:(lia)) as (Hu2 & _ & _). rewrite Hu2.
    change (set_iFirstNonreadPos (p (k + n)) (at_nonread k)) with (at_nonread (k + n)).
    destruct (has_packet (cell_at cs (k + n))) eqn:Ep2; cbn [negb].
    + destruct (IH (k + n)%nat ltac:(lia) ltac:(lia)) as (n' & E & Hms & Hstuck & Hle).
      exists (n + n')%nat. rewrite Nat.add_assoc. split_and!; [done| |done|done].
      constructor; [done|]. by rewrite drop_drop.
    + exists n. split_and!; [done| | |done].
      * rewrite <- (Nat.add_0_r n). constructor; [done|constructor].
      * unfold head_message. rewrite (drop_cons_at cs (k + n)) by lia. cbn [msg_starts]. by rewrite Ep2.
  - exists O. rewrite Nat.add_0_r. change (m_iFirstNonreadPos (at_nonread k)) with (p k). rewrite Z.eqb_refl. cbn [orb].
    split_and!; [done|constructor| |done]. unfold head_message. by rewrite Hst.
Qed.
End Update.

(** ** The whole invariant

    The start is at position [s], the first [nr] cells are complete messages
    and the cells from [off] on are empty. *)
Record inv st s cs (nr : nat) o : Prop := {
  i_rep : rep st s cs o;
  i_seq : m_iStartSeqNo st = seq_of s;
  i_off : 0 <= m_iMaxPosOff st <= m_szSize st - 1;
  i_beyond : forall k, m_iMaxPosOff st <= Z.of_nat k -> cell_at cs k = no_entry;
  i_nonread : m_iFirstNonreadPos st = pos_of st (Z.of_nat nr);
  i_nr : Z.of_nat nr <= m_iMaxPosOff st;
  i_msgs : messages (m_bMessageAPI st) cs nr
}.

Lemma set_nonread_id st v : m_iFirstNonreadPos st = v -> set_iFirstNonreadPos v st = st.
Proof. intros <-. by destruct st. Qed.

Lemma set_first_id st : set_iFirstReadableOutOfOrder (m_iFirstReadableOutOfOrder st) st = st.
Proof. by destruct st. Qed.

Lemma rep_ext st st' s cs o : rep st s cs o -> m_entries st' = m_entries st -> m_pUnitQueue st' = m_pUnitQueue st ->
  m_iStartPos st' = m_iStartPos st -> m_numOutOfOrderPackets st' = m_numOutOfOrderPackets st ->
  ooo_mode st' = ooo_mode st -> rep st' s cs o.
Proof.
  intros [Hc Hn] E1 E2 E3 E4 E5. split; [by eapply core_ext|]. unfold num_ok. by rewrite E4, E5.
Qed.

Lemma no_head_message api cs k : cell_at cs k = no_entry -> head_message api (drop k cs) = None.
Proof.
  intros Hk. unfold head_message. destruct (drop k cs) as [|e l] eqn:E; [done|].
  assert (e = no_entry) as ->; [|done]. rewrite <- Hk. unfold cell_at. rewrite <- (Nat.add_0_r k), <- lookup_drop. by rewrite E.
Qed.

(** Extending the readable part from a position up to which it is known. *)
Lemma update_ok st s cs k o : rep st s cs o -> m_iStartSeqNo st = seq_of s ->
  0 <= m_iMaxPosOff st <= m_szSize st - 1 ->
  (forall k, m_iMaxPosOff st <= Z.of_nat k -> cell_at cs k = no_entry) ->
  m_iFirstNonreadPos st = pos_of st (Z.of_nat k) -> Z.of_nat k <= m_iMaxPosOff st ->
  messages (m_bMessageAPI st) cs k ->
  exists n, updateNonreadPos st = Some (set_iFirstNonreadPos (pos_of st (Z.of_nat (k + n))) st) /\
    inv (set_iFirstNonreadPos (pos_of st (Z.of_nat (k + n))) st) s cs (k + n) o /\
    head_message (m_bMessageAPI st) (drop (k + n) cs) = None.
Proof.
  intros Hrep Hseq Hoff Hbey Hnon Hk Hms. pose proof (proj1 Hrep) as Hc.
  pose proof (nonread_loop st s cs o (Z.to_nat (m_iMaxPosOff st)) Hc ltac:(lia)
    ltac:(intros j Hj; apply Hbey; lia) k (fuel st) ltac:(lia)) as Hl.
  destruct Hl as (n & E & Hms2 & Hstuck & Hle). { unfold fuel, m_szSize in *. lia. }
  assert (Hinv : inv (set_iFirstNonreadPos (pos_of st (Z.of_nat (k + n))) st) s cs (k + n) o).
  { split; try done; [by eapply rep_ext|cbn; lia|by apply messages_app]. }
  exists n. split; [|done]. unfold updateNonreadPos. destruct (Z.eqb_spec (m_iMaxPosOff st) 0) as [E0|].
  - assert (n = O) as -> by lia. rewrite Nat.add_0_r. by rewrite set_nonread_id.
  - unfold at_nonread in E. rewrite (set_nonread_id st _ Hnon), Z2Nat.id in E by lia.
    rewrite Hnon, pos_of_start, E. done.
Qed.

Lemma in_range_ok st s cs o off k : core st s cs o -> 0 <= off < m_szSize st -> 0 <= k < m_szSize st ->
  isInRange (m_iStartPos st) off (m_szSize st) (pos_of st k) = (k <=? off).
Proof.
  intros Hc Hoff Hk. pose proof (c_start _ _ _ _ Hc) as Hs.
  assert (Hmod : forall x, 0 <= x < m_szSize st -> (m_iStartPos st + x) mod m_szSize st =
    if m_iStartPos st + x <? m_szSize st then m_iStartPos st + x else m_iStartPos st + x - m_szSize st).
  { intros x Hx. destruct (Z.ltb_spec (m_iStartPos st + x) (m_szSize st)); [apply Z.mod_small; lia|].
    symmetry. apply (Z.mod_unique _ _ 1); lia. }
  unfold isInRange, pos_of. rewrite !Hmod by lia. bdestr.
Qed.

(** ** The search for messages that can be read out of order terminates *)

Lemma ooo_update_ok st s cs o : rep st s cs o ->
  exists v, updateFirstReadableOutOfOrder st = Some (set_iFirstReadableOutOfOrder v st).
Proof.
  intros [Hc Hn]. pose proof (core_length _ _ _ _ Hc) as Hl. pose proof (c_size _ _ _ _ Hc) as Hsz.
  unfold updateFirstReadableOutOfOrder. destruct (_ || _ || _) eqn:Eg.
  { eexists. f_equal. symmetry. apply set_first_id. }
  destruct (m_iMaxPosOff st =? 0). { eexists. f_equal. symmetry. apply set_first_id. }
  apply orb_false_iff in Eg as [Eg _]. apply orb_false_iff in Eg as [_ Eg]. apply Z.eqb_neq in Eg.
  assert (Hnum : m_numOutOfOrderPackets st = count_ooo cs) by (unfold num_ok in Hn; destruct (ooo_mode st); [done|lia]).
  pose proof (count_ooo_range cs) as Hr.
  assert (Hloop : forall m j pf mn, (j <= length cs)%nat -> (length cs - j < m)%nat ->
    exists r, loop m (ooo_step st) (pos_of st (Z.of_nat j), count_ooo (drop j cs), pf, mn) = Some r).
  { induction m as [|m IH]; intros j pf mn Hj Hm; [lia|]. cbn [loop].
    assert (Hnext : incPos st (pos_of st (Z.of_nat j)) 1 = pos_of st (Z.of_nat (S j)))
      by (rewrite incPos_pos_of; f_equal; lia).
    unfold ooo_step at 1. destruct (Z.eqb_spec (count_ooo (drop j cs)) 0) as [|Hne]; [eauto|].
    destruct (decide (j = length cs)) as [->|]; [by rewrite drop_all in Hne|].
    rewrite (drop_cons_at cs j) by lia. cbn [count_ooo].
    assert (He : cs !! Z.to_nat (Z.of_nat j) = Some (cell_at cs j)) by (rewrite Nat2Z.id; apply cell_at_lookup; lia).
    destruct (unit_at_cell _ _ _ _ _ _ Hc He ltac:(lia)) as [Hu _].
    unfold CRcvBuffer.has_unit, packetAt, is_ooo. rewrite Hu, Hnext. destruct (pUnit (cell_at cs j)) as [u|].
    - rewrite bool_decide_true by eauto. cbn [negb from_option]. destruct (getMsgOrderFlag (m_Packet u)); cbn [negb].
      + rewrite Z.add_0_l. apply IH; lia.
      + replace (1 + count_ooo (drop (S j) cs) - 1) with (count_ooo (drop (S j) cs)) by lia.
        destruct (if is_first (m_Packet u) then _ else _) as [pf' mn'].
        destruct (negb _); [apply IH; lia|]. destruct (is_last _); [eauto|]. destruct (_ =? _); [eauto|]. apply IH; lia.
    - rewrite bool_decide_false by (intros [? [=]]). cbn [negb]. rewrite Z.add_0_l. apply IH; lia. }
  destruct (Hloop (fuel st) O (-1) (-1)) as [r E]; [lia|unfold fuel, m_szSize in *; lia|].
  rewrite drop_0, (pos_of_0 _ _ _ _ Hc : pos_of st (Z.of_nat 0) = _) in E.
  unfold m_iSeqNoTH in *. rewrite i32_id, Hnum, E by (unfold in_i32; lia). cbn.
  destruct r as [v|]; [by exists v|]. eexists. f_equal. symmetry. apply set_first_id.
Qed.

Lemma lastPos_pos_of st : lastPos st = pos_of st (m_iMaxPosOff st - 1).
Proof. unfold lastPos, pos_of. f_equal. lia. Qed.

Lemma decPos_pos_of st s cs o k : core st s cs o -> 0 <= k < m_szSize st -> decPos st (pos_of st (k + 1)) = pos_of st k.
Proof.
  intros Hc Hk. pose proof (pos_of_range _ _ _ _ (k + 1) Hc) as Hr. unfold decPos. rewrite Z.geb_leb.
  replace k with (k + 1 - 1) at 3 by lia. unfold pos_of in *. set (x := (m_iStartPos st + (k + 1)) mod m_szSize st) in *.
  replace (m_iStartPos st + (k + 1 - 1)) with (m_iStartPos st + (k + 1) - 1) by lia.
  rewrite <- Zminus_mod_idemp_l. fold x. destruct (Z.leb_spec 0 (x - 1)).
  - symmetry. apply Z.mod_small. lia.
  - apply (Z.mod_unique _ _ (-1)); lia.
Qed.

Lemma scan_right_ok st s cs o (k : nat) msgNo : core st s cs o -> Z.of_nat k < m_iMaxPosOff st <= m_szSize st - 1 ->
  exists v, scanNotInOrderMessageRight (pos_of st (Z.of_nat k)) msgNo st = Some v.
Proof.
  intros Hc Hk. unfold scanNotInOrderMessageRight. rewrite lastPos_pos_of.
  rewrite (pos_of_eqb _ _ _ _ _ _ Hc) by lia. destruct (Z.eqb_spec (Z.of_nat k) (m_iMaxPosOff st - 1)); [eauto|].
  assert (Hf : Z.of_nat (length (m_entries st)) < Z.of_nat (fuel st)) by (unfold fuel; lia).
  assert (Hm : (Z.to_nat (m_iMaxPosOff st - 1) - k < fuel st)%nat) by (unfold m_szSize in *; lia). clear Hf.
  revert k Hk n Hm. generalize (fuel st) as m. induction m as [|m IH]; intros k Hk Hne Hm; [lia|]. cbn [loop].
  rewrite incPos_pos_of. replace (Z.of_nat k + 1) with (Z.of_nat (S k)) by lia.
  destruct (negb (CRcvBuffer.has_unit _ _)); [eauto|]. destruct (negb (_ =? msgNo)); [eauto|].
  destruct (is_last _); [eauto|]. rewrite (pos_of_eqb _ _ _ _ _ _ Hc) by lia.
  destruct (Z.eqb_spec (Z.of_nat (S k)) (m_iMaxPosOff st - 1)); [eauto|]. apply IH; lia.
Qed.

Lemma scan_left_ok st s cs o (k : nat) msgNo : core st s cs o -> Z.of_nat k < m_szSize st ->
  exists v, scanNotInOrderMessageLeft (pos_of st (Z.of_nat k)) msgNo st = Some v.
Proof.
  intros Hc Hk. unfold scanNotInOrderMessageLeft. rewrite <- (pos_of_0 _ _ _ _ Hc).
  rewrite (pos_of_eqb _ _ _ _ _ _ Hc) by lia. destruct (Z.eqb_spec (Z.of_nat k) 0); [eauto|].
  assert (Hm : (k < fuel st)%nat) by (unfold fuel, m_szSize in *; lia).
  revert k Hk n Hm. generalize (fuel st) as m. induction m as [|m IH]; intros k Hk Hne Hm; [lia|]. cbn [loop].
  destruct k as [|k]; [lia|]. replace (Z.of_nat (S k)) with (Z.of_nat k + 1) by lia.
  rewrite (decPos_pos_of _ _ _ _ _ Hc) by lia.
  destruct (negb (CRcvBuffer.has_unit _ _)); [eauto|]. destruct (negb (_ =? msgNo)); [eauto|].
  destruct (is_first _); [eauto|]. rewrite (pos_of_eqb _ _ _ _ _ _ Hc) by lia.
  destruct (Z.eqb_spec (Z.of_nat k) 0); [eauto|]. apply IH; lia.
Qed.

Lemma on_insert_ok st s cs o (k : nat) : core st s cs o -> Z.of_nat k < m_iMaxPosOff st <= m_szSize st - 1 ->
  exists v, onInsertNotInOrderPacket (pos_of st (Z.of_nat k)) st = Some (set_iFirstReadableOutOfOrder v st).
Proof.
  intros Hc Hk. assert (Hid : exists v, Some st = Some (set_iFirstReadableOutOfOrder v st))
    by (eexists; f_equal; symmetry; apply set_first_id).
  unfold onInsertNotInOrderPacket. destruct (_ =? 0); [done|]. destruct (_ >=? 0); [done|].
  set (no := getMsgSeq _ _).
  destruct (scan_right_ok _ _ _ _ k no Hc Hk) as [v Ev]. destruct (scan_left_ok _ _ _ _ k no Hc ltac:(lia)) as [w Ew].
  assert (exists b, (if is_last (packetAt st (pos_of st (Z.of_nat k))) then Some true
     else r ← scanNotInOrderMessageRight (pos_of st (Z.of_nat k)) no st; Some (-1 <? r)) = Some b) as [b ->].
  { destruct (is_last _); [eauto|]. rewrite Ev. cbn. eauto. }
  rewrite bind_Some. destruct b; cbn [negb]; [|done].
  assert (exists f, (if is_first (packetAt st (pos_of st (Z.of_nat k))) then Some (pos_of st (Z.of_nat k))
     else scanNotInOrderMessageLeft (pos_of st (Z.of_nat k)) no st) = Some f) as [f ->].
  { destruct (is_first _); eauto. }
  rewrite bind_Some. destruct (f <? 0); [done|eauto].
Qed.

(** ** Insertion *)

Lemma msg_end_take api l m k : (k <= m)%nat -> msg_end api l = Some k -> msg_end api (take m l) = Some k.
Proof.
  revert m k. induction l as [|e l IH]; intros m k Hk; cbn [msg_end]; [done|]. intros H.
  assert (k <> O) by (destruct (msg_end_range api (e :: l) k); [exact H|lia]).
  destruct m as [|m]; [lia|]. cbn [take msg_end]. destruct (has_packet e); cbn [negb] in *; [|done].
  destruct (_ || _); [done|]. destruct (msg_end api l) as [k'|]; [|done]. injection H as <-. by rewrite (IH m k') by (done || lia).
Qed.

Lemma msg_end_take_inv api l m k : msg_end api (take m l) = Some k -> msg_end api l = Some k.
Proof.
  revert m k. induction l as [|e l IH]; intros m k; [by rewrite take_nil|]. destruct m as [|m]; [done|].
  cbn [take msg_end]. destruct (has_packet e); cbn [negb]; [|done]. destruct (_ || _); [done|].
  destruct (msg_end api (take m l)) as [k'|] eqn:E; intros [= <-]. by rewrite (IH _ _ E).
Qed.

Lemma head_message_take api l m k : (k <= m)%nat -> head_message api l = Some k -> head_message api (take m l) = Some k.
Proof.
  unfold head_message. intros Hk. destruct (msg_starts api l) eqn:Es; [|done]. intros E.
  destruct (msg_end_range _ _ _ E). destruct l as [|e l]; [done|]. destruct m as [|m]; [lia|].
  rewrite (msg_end_take api (e :: l) (S m) k) by done. cbn [take msg_starts] in *. by rewrite Es.
Qed.

Lemma head_message_take_inv api l m k : head_message api (take m l) = Some k -> head_message api l = Some k.
Proof.
  unfold head_message. destruct l as [|e l]; [by rewrite take_nil|]. destruct m as [|m]; [done|]. cbn [take msg_starts].
  destruct (_ && _); [|done]. apply (msg_end_take_inv api (e :: l) (S m)).
Qed.

Lemma messages_take api l n m : (n <= m)%nat -> messages api l n -> messages api (take m l) n.
Proof.
  intros Hn Hm. revert m Hn. induction Hm as [l|l k n Hk _ IH]; intros m Hn; [constructor|].
  constructor; [apply head_message_take; [lia|done]|]. rewrite skipn_firstn_comm. apply IH. lia.
Qed.

Lemma messages_take_inv api l n m : messages api (take m l) n -> messages api l n.
Proof.
  remember (take m l) as l' eqn:E. intros Hm. revert m l E. induction Hm as [l'|l' k n Hk _ IH]; intros m l ->; [constructor|].
  constructor; [by eapply head_message_take_inv|]. eapply (IH (m - k)%nat). apply skipn_firstn_comm.
Qed.

Lemma messages_packets api l n : messages api l n -> forall k, (k < n)%nat -> has_packet (cell_at l k) = true.
Proof.
  induction 1 as [l|l k n Hk _ IH]; intros j Hj; [lia|]. destruct (decide (j < k)%nat) as [Hjk|].
  - unfold head_message in Hk. destruct (msg_starts api l); [|done]. by eapply msg_end_packets.
  - specialize (IH (j - k)%nat ltac:(lia)). unfold cell_at in *. rewrite lookup_drop in IH.
    by replace (k + (j - k))%nat with j in IH by lia.
Qed.

Lemma has_packet_none e : has_packet e = false <-> pUnit e = None.
Proof. unfold has_packet. destruct (pUnit e); [|done]. rewrite bool_decide_true by eauto. done. Qed.

Lemma rep_frame st st' s cs o : rep st s cs o -> core st' s cs o -> frame st st' ->
  m_numOutOfOrderPackets st' = m_numOutOfOrderPackets st -> rep st' s cs o.
Proof. intros [_ Hn] Hc Hf E. split; [done|]. unfold num_ok. by rewrite E, (frame_mode _ _ Hf). Qed.

Definition store_unit (pos : Z) (u : CUnit) st : t (Q := Q) :=
  set_entries ((m_entries st).[pos <- mkEntry (Some u) EntryState_Avail]) (make_taken (unit_id u) (m_pUnitQueue st)) st.

Lemma store_core st s cs o (k : nat) e u : core st s cs o -> cs !! k = Some e -> pUnit e = None ->
  getSeqNo (m_Packet u) = seq_of (s + Z.of_nat k) ->
  pool_has (m_pUnitQueue st) (unit_id u) -> unit_id u ∉ pool_taken (m_pUnitQueue st) ->
  core (store_unit (pos_of st (Z.of_nat k)) u st) s (<[k := mkEntry (Some u) EntryState_Avail]> cs) o /\
  pool_taken (m_pUnitQueue (store_unit (pos_of st (Z.of_nat k)) u st)) = {[unit_id u]} ∪ pool_taken (m_pUnitQueue st) /\
  forall v, pool_has (m_pUnitQueue (store_unit (pos_of st (Z.of_nat k)) u st)) v <-> pool_has (m_pUnitQueue st) v.
Proof.
  intros Hc He Hn Hseq Hhas Hfree. pose proof (ids_insert cs k e (mkEntry (Some u) EntryState_Avail) He) as Hp.
  rewrite (unit_of_none e) in Hp by done. cbn [unit_of pUnit fmap option_fmap option_map option_list app] in Hp.
  pose proof Hc as [_ _ _ _ Hi Ht Hf Hd].
  destruct (make_taken_ok _ _ Hi Hhas Hfree) as (Hi' & Ht' & Hh'). split; [|done].
  assert (Hs : (list_to_set (ids (<[k := mkEntry (Some u) EntryState_Avail]> cs)) : gset CUnitQueue.CUnit) =
    {[unit_id u]} ∪ list_to_set (ids cs)) by (by rewrite <- Hp).
  rewrite <- (Nat2Z.id k) at 2. eapply core_set; rewrite ?Nat2Z.id; try done; [lia|..].
  - rewrite Ht', Ht, Hs. set_solver.
  - rewrite Hs. rewrite Ht in Hfree. set_solver.
  - rewrite <- Hp. apply list.NoDup_cons. split; [|done]. rewrite Ht in Hfree. set_solver.
Qed.

Lemma insert_tail st s cs o (k : nat) u b : core st s cs o -> Z.of_nat k < m_iMaxPosOff st <= m_szSize st - 1 ->
  m_numOutOfOrderPackets st =
    (if ooo_mode st then count_ooo cs - (if getMsgOrderFlag (m_Packet u) then 0 else 1) else 0) ->
  1 <= count_ooo cs + (if getMsgOrderFlag (m_Packet u) then 1 else 0) ->
  b = ooo_mode st && negb (getMsgOrderFlag (m_Packet u)) ->
  exists st', (if b then
            onInsertNotInOrderPacket (pos_of st (Z.of_nat k))
              (set_outOfOrder (u64 (m_numOutOfOrderPackets st + 1)) (m_iFirstReadableOutOfOrder st) st)
          else Some st) = Some st' /\ rep st' s cs o /\ frame st st' /\ m_pUnitQueue st' = m_pUnitQueue st.
Proof.
  intros Hc Hk Hn H1 ->. pose proof (core_length _ _ _ _ Hc). pose proof (c_size _ _ _ _ Hc).
  pose proof (count_ooo_range cs). unfold m_iSeqNoTH in *.
  destruct (getMsgOrderFlag (m_Packet u)).
  - rewrite andb_false_r. exists st. split_and!; try done. split; [done|]. unfold num_ok. rewrite Hn. by destruct (ooo_mode st); [lia|].
  - rewrite andb_true_r. destruct (ooo_mode st) eqn:Em.
    + rewrite Hn. replace (count_ooo cs - 1 + 1) with (count_ooo cs) by lia.
      unfold u64. rewrite Z.mod_small by lia.
      set (st1 := set_outOfOrder _ _ st). assert (Hc1 : core st1 s cs o) by (by eapply core_ext).
      destruct (on_insert_ok st1 s cs o k Hc1 Hk) as [v E]. change (pos_of st1) with (pos_of st) in E. rewrite E.
      eexists. split_and!; try done. split; [by eapply core_ext|]. unfold num_ok.
      change (ooo_mode (set_iFirstReadableOutOfOrder v st1)) with (ooo_mode st). by rewrite Em.
    + exists st. split_and!; try done. split; [done|]. unfold num_ok. by rewrite Em.
Qed.

Lemma messages_insert api cs nr (k : nat) e : messages api cs nr -> (nr <= k)%nat -> messages api (<[k := e]> cs) nr.
Proof.
  intros Hm Hk. apply (messages_take_inv _ _ _ nr). rewrite take_insert_ge by done. by apply messages_take.
Qed.

(** [insert] for a packet within the window. *)
Lemma insert_unfold st s (k : Z) u : m_iStartSeqNo st = seq_of s -> getSeqNo (m_Packet u) = seq_of (s + k) ->
  0 <= k < m_szSize st - 1 -> m_szSize st <= m_iSeqNoTH ->
  let st1 := set_start (m_iStartSeqNo st) (m_iStartPos st) (Z.max (m_iMaxPosOff st) (k + 1)) st in
  let p := pos_of st k in
  let st3 := countBytes 1 (getLength (m_Packet u)) (store_unit p u st1) in
  insert u st =
    if bool_decide (status_at st1 p <> EntryState_Empty) then Some (st1, -1) else
    st ← (if negb (isTsbPd st3) && m_bMessageAPI st3 && negb (getMsgOrderFlag (m_Packet u)) then
            onInsertNotInOrderPacket p
              (set_outOfOrder (u64 (m_numOutOfOrderPackets st3 + 1)) (m_iFirstReadableOutOfOrder st3) st3)
          else Some st3);
    st ← updateNonreadPos st;
    Some (st, 0).
Proof.
  intros Hseq Hu Hk Hsz st1 p st3. unfold insert. rewrite Hseq, Hu, seqoff_seq_of by (unfold m_iSeqNoTH in *; lia).
  replace (s + k - s) with k by lia. unfold capacity.
  rewrite (proj2 (Z.ltb_ge _ _)), !Z.geb_leb, (proj2 (Z.leb_gt (m_szSize st - 1) k)) by lia.
  rewrite <- Hseq.
  assert ((if m_iMaxPosOff st <=? k then set_start (m_iStartSeqNo st) (m_iStartPos st) (k + 1) st else st) = st1) as ->;
    [|reflexivity].
  unfold st1. destruct (Z.leb_spec (m_iMaxPosOff st) k); [by rewrite Z.max_r by lia|].
  rewrite Z.max_l by lia. by destruct st.
Qed.

Lemma insert_free st s cs nr o (k : nat) u : inv st s cs nr o -> Z.of_nat k < m_szSize st - 1 ->
  getSeqNo (m_Packet u) = seq_of (s + Z.of_nat k) -> status (cell_at cs k) = EntryState_Empty ->
  pool_has (m_pUnitQueue st) (unit_id u) -> unit_id u ∉ pool_taken (m_pUnitQueue st) ->
  exists st' n, insert u st = Some (st', 0) /\
    inv st' s (<[k := mkEntry (Some u) EntryState_Avail]> cs) (nr + n) o /\
    head_message (m_bMessageAPI st) (drop (nr + n) (<[k := mkEntry (Some u) EntryState_Avail]> cs)) = None /\
    m_iMaxPosOff st' = Z.max (m_iMaxPosOff st) (Z.of_nat k + 1) /\ m_bMessageAPI st' = m_bMessageAPI st /\
    pool_taken (m_pUnitQueue st') = {[unit_id u]} ∪ pool_taken (m_pUnitQueue st) /\
    forall v, pool_has (m_pUnitQueue st') v <-> pool_has (m_pUnitQueue st) v.
Proof.
  intros [[Hc Hn] Hseq Hoff Hbey Hnon Hnr Hms] Hk Hu He Hhas Hfree.
  pose proof (core_length _ _ _ _ Hc) as Hl. pose proof (c_size _ _ _ _ Hc) as Hsz. unfold m_iSeqNoTH in *.
  assert (Hek : cs !! k = Some (cell_at cs k)) by (apply cell_at_lookup; lia).
  assert (Hnone : pUnit (cell_at cs k) = None).
  { pose proof (c_ok _ _ _ _ Hc k _ Hek) as Hok. unfold cell_ok in Hok. destruct (pUnit _); [|done]. destruct Hok. congruence. }
  assert (Hge : (nr <= k)%nat).
  { destruct (decide (nr <= k)%nat); [done|]. pose proof (messages_packets _ _ _ Hms k ltac:(lia)) as Hp.
    by rewrite (proj2 (has_packet_none _) Hnone) in Hp. }
  set (off1 := Z.max (m_iMaxPosOff st) (Z.of_nat k + 1)).
  set (st1 := set_start (m_iStartSeqNo st) (m_iStartPos st) off1 st).
  assert (Hc1 : core st1 s cs o) by (by eapply core_ext).
  destruct (store_core st1 s cs o k _ u Hc1 Hek Hnone Hu Hhas Hfree) as (Hc2 & Ht2 & Hp2).
  set (cs' := <[k := mkEntry (Some u) EntryState_Avail]> cs) in *.
  change (pos_of st1 (Z.of_nat k)) with (pos_of st (Z.of_nat k)) in Hc2, Ht2, Hp2.
  set (st2 := store_unit (pos_of st (Z.of_nat k)) u st1) in *.
  set (st3 := countBytes 1 (getLength (m_Packet u)) st2).
  assert (Hc3 : core st3 s cs' o) by (by eapply core_ext).
  assert (Hs3 : m_szSize st3 = m_szSize st) by (unfold m_szSize; cbn; by rewrite length_aset).
  assert (Hp3 : pos_of st3 (Z.of_nat k) = pos_of st (Z.of_nat k)) by (unfold pos_of; by rewrite Hs3).
  pose proof (count_ooo_insert cs k _ (mkEntry (Some u) EntryState_Avail) Hek) as Hcnt. fold cs' in Hcnt.
  rewrite (is_ooo_none (cell_at cs k)) in Hcnt by done. cbn [is_ooo pUnit] in Hcnt. pose proof (count_ooo_range cs).
  destruct (insert_tail st3 s cs' o k u (negb (isTsbPd st3) && m_bMessageAPI st3 && negb (getMsgOrderFlag (m_Packet u))) Hc3)
    as (st4 & E4 & Hrep4 & Hf4 & Hq4).
  - rewrite Hs3. cbn [m_iMaxPosOff st3 countBytes set_counts st2 store_unit set_entries st1 set_start]. unfold off1. lia.
  - change (m_numOutOfOrderPackets st3) with (m_numOutOfOrderPackets st). unfold num_ok in Hn. rewrite Hn.
    change (ooo_mode st3) with (ooo_mode st). destruct (ooo_mode st), (getMsgOrderFlag _); cbn [negb] in *; lia.
  - destruct (getMsgOrderFlag _); cbn [negb] in *; lia.
  - done.
  - assert (Hoff4 : m_iMaxPosOff st4 = off1) by (by rewrite (f_off _ _ Hf4)).
    destruct (update_ok st4 s cs' nr o Hrep4) as (n & E5 & Hinv & Hstuck).
    + rewrite (f_seq _ _ Hf4). exact Hseq.
    + rewrite Hoff4, (f_size _ _ Hf4), Hs3. unfold off1. lia.
    + intros j Hj. rewrite Hoff4 in Hj. unfold cs', cell_at. rewrite list_lookup_insert_ne by lia. apply Hbey. lia.
    + rewrite (f_nonread _ _ Hf4), (frame_pos_of _ _ _ Hf4). unfold pos_of. rewrite Hs3. exact Hnon.
    + rewrite Hoff4. unfold off1. lia.
    + rewrite (f_api _ _ Hf4). by apply messages_insert.
    + eexists _, n. split; [|split_and!; [exact Hinv|by rewrite (f_api _ _ Hf4) in Hstuck|exact Hoff4|exact (f_api _ _ Hf4)| |]].
      * rewrite (insert_unfold st s (Z.of_nat k) u) by (try done; unfold m_iSeqNoTH; lia). cbv zeta.
        assert (Hst : status_at st1 (pos_of st (Z.of_nat k)) = EntryState_Empty).
        { destruct (unit_at_cell st1 s cs o (Z.of_nat k) (cell_at cs k) Hc1) as [_ E]; [by rewrite Nat2Z.id|lia|].
          rewrite He in E. exact E. }
        rewrite Hp3 in E4. fold off1 st1 st2 st3. rewrite Hst, bool_decide_false by (intros H'; by apply H').
        rewrite E4, bind_Some, E5, bind_Some. reflexivity.
      * cbn [m_pUnitQueue set_iFirstNonreadPos]. rewrite Hq4. exact Ht2.
      * cbn [m_pUnitQueue set_iFirstNonreadPos]. rewrite Hq4. exact Hp2.
Qed.

(** What [insert] answers for a packet at position [x]. *)
Definition insert_code (s size : Z) cs (x : Z) : Z :=
  if x <? s then -2 else if x - s >=? size - 1 then -3
  else if is_empty (status (cell_at cs (Z.to_nat (x - s)))) then 0 else -1.

Lemma insert_rejected st s cs nr o x u : inv st s cs nr o -> getSeqNo (m_Packet u) = seq_of x ->
  - m_iSeqNoTH < x - s < m_iSeqNoTH -> insert_code s (m_szSize st) cs x <> 0 ->
  insert u st = Some (st, insert_code s (m_szSize st) cs x).
Proof.
  intros [[Hc _] Hseq Hoff Hbey _ _ _] Hu Hx. unfold insert_code. rewrite Z.geb_leb.
  pose proof (c_size _ _ _ _ Hc) as Hsz. pose proof (core_length _ _ _ _ Hc) as Hl.
  destruct (Z.ltb_spec x s); [intros _|destruct (Z.leb_spec (m_szSize st - 1) (x - s)); [intros _|]].
  - unfold insert. rewrite Hseq, Hu, seqoff_seq_of, (proj2 (Z.ltb_lt _ _)) by lia. done.
  - unfold insert, capacity. rewrite Hseq, Hu, seqoff_seq_of, (proj2 (Z.ltb_ge _ _)) by lia.
    by rewrite Z.geb_leb, (proj2 (Z.leb_le _ _)) by lia.
  - intros Hne. destruct (is_empty _) eqn:Ee; [done|]. clear Hne.
    rewrite (insert_unfold st s (x - s) u) by first [done | lia | by replace (s + (x - s)) with x by lia]. cbv zeta.
    assert (Hlt : x - s < m_iMaxPosOff st).
    { apply Z.nle_gt. intros Hge. rewrite Hbey in Ee by lia. done. }
    rewrite Z.max_l by lia.
    assert (set_start (m_iStartSeqNo st) (m_iStartPos st) (m_iMaxPosOff st) st = st) as -> by (by destruct st).
    destruct (unit_at_cell st s cs o (x - s) (cell_at cs (Z.to_nat (x - s))) Hc) as [_ ->]; [apply cell_at_lookup; lia|lia|].
    rewrite bool_decide_true; [done|]. intros E. by rewrite E in Ee.
Qed.

(** C9. [insert] always returns, with the code that the position of the
    packet and the cell say: -2 before the start, -3 beyond the capacity
    (one cell stays free), -1 when the cell is in use, read or dropped, and
    0 otherwise.  Only 0 changes the buffer: the unit becomes taken and its
    cell holds it, every other cell is as before, and the part that can be
    read is extended to all the complete messages that now follow it. *)
Theorem rcvbuf_insert st s cs nr o x u (Hinv : inv st s cs nr o) (Hu : getSeqNo (m_Packet u) = seq_of x)
  (Hx : - m_iSeqNoTH < x - s < m_iSeqNoTH)
  (Hhas : pool_has (m_pUnitQueue st) (unit_id u)) (Hfree : unit_id u ∉ pool_taken (m_pUnitQueue st)) :
  exists st', insert u st = Some (st', insert_code s (m_szSize st) cs x) /\
    if insert_code s (m_szSize st) cs x =? 0 then
      let cs' := <[Z.to_nat (x - s) := mkEntry (Some u) EntryState_Avail]> cs in
      exists n, inv st' s cs' (nr + n) o /\ head_message (m_bMessageAPI st) (drop (nr + n) cs') = None /\
        m_iMaxPosOff st' = Z.max (m_iMaxPosOff st) (x - s + 1) /\
        pool_taken (m_pUnitQueue st') = {[unit_id u]} ∪ pool_taken (m_pUnitQueue st)
    else st' = st.
Proof.
  destruct (Z.eqb_spec (insert_code s (m_szSize st) cs x) 0) as [E|E].
  - unfold insert_code in *. rewrite Z.geb_leb in *. destruct (Z.ltb_spec x s); [done|].
    destruct (Z.leb_spec (m_szSize st - 1) (x - s)); [done|]. destruct (is_empty _) eqn:Ee; [|done].
    destruct (insert_free st s cs nr o (Z.to_nat (x - s)) u Hinv) as (st' & n & E1 & H1 & H2 & H3 & _ & H4 & _); try done.
    + lia.
    + rewrite Hu. f_equal. lia.
    + by destruct (status _).
    + exists st'. split; [done|]. exists n. split_and!; try done. rewrite H3. lia.
  - exists st. split; [|done]. by apply (insert_rejected st s cs nr o).
Qed.

(** ** Dropping up to a position *)

Lemma inv_set_first st s cs nr o v : inv st s cs nr o -> inv (set_iFirstReadableOutOfOrder v st) s cs nr o.
Proof. intros [Hr Hseq Hoff Hbey Hnon Hnr Hms]. split; try done. by eapply rep_ext. Qed.

Lemma inv_mode st s cs nr o : inv st s cs nr o ->
  exists v, (if negb (isTsbPd st) && m_bMessageAPI st then updateFirstReadableOutOfOrder st else Some st) =
    Some (set_iFirstReadableOutOfOrder v st) /\ inv (set_iFirstReadableOutOfOrder v st) s cs nr o.
Proof.
  intros Hinv. destruct (ooo_update_ok st s cs o (i_rep _ _ _ _ _ Hinv)) as [v E].
  destruct (_ && _).
  - exists v. split; [done|by apply inv_set_first].
  - exists (m_iFirstReadableOutOfOrder st). rewrite set_first_id. done.
Qed.

Lemma messages_shift api cs n m : messages api (drop n cs) m -> messages api (shift n cs) m.
Proof.
  intros Hm. apply (messages_take_inv _ _ _ (length cs - n)).
  assert (take (length cs - n) (shift n cs) = drop n cs) as ->; [|done].
  apply cells_ext.
  - rewrite length_take, length_shift, length_drop. lia.
  - intros k. unfold cell_at. rewrite lookup_drop. destruct (decide (k < length cs - n)%nat).
    + rewrite lookup_take_lt by done. exact (cell_at_shift n cs k).
    + rewrite lookup_take_ge by lia. by rewrite lookup_ge_None_2 by lia.
Qed.

(** The position of the first packet that cannot be read, seen from a start
    that has moved over it, is out of range or the start itself. *)
Lemma passed_nonread st s cs o off (nr n : nat) st' : core st s cs o -> core st' (s + Z.of_nat n) (shift n cs) o ->
  stable st st' -> m_iStartPos st' = pos_of st (Z.of_nat n) -> m_iFirstNonreadPos st = pos_of st (Z.of_nat nr) ->
  Z.of_nat nr <= off < m_szSize st -> (nr < n)%nat -> m_iMaxPosOff st' = Z.max 0 (off - Z.of_nat n) ->
  (isInRange (m_iStartPos st') (m_iMaxPosOff st') (m_szSize st') (m_iFirstNonreadPos st') = true ->
    m_iFirstNonreadPos st' = m_iStartPos st' /\ (length cs <= n)%nat).
Proof.
  intros Hc Hc' Hs Hp Hnon Hoff Hn Ho. pose proof (core_length _ _ _ _ Hc) as Hl. pose proof (c_size _ _ _ _ Hc) as Hsz.
  pose proof (t_size _ _ Hs) as Hsize. set (size := m_szSize st) in *.
  set (j := (Z.of_nat nr - Z.of_nat n) mod size). assert (Hj : 0 <= j < size) by (apply Z.mod_pos_bound; lia).
  assert (Hpj : m_iFirstNonreadPos st' = pos_of st' j).
  { rewrite (t_nonread _ _ Hs), Hnon, (pos_of_moved _ _ _ _ Hs Hp). unfold pos_of. fold size. unfold j.
    rewrite Z.add_assoc, Zplus_mod_idemp_r. f_equal. lia. }
  rewrite Hpj, (in_range_ok st' _ _ _ _ _ Hc') by (rewrite ?Hsize; lia).
  intros Hle%Z.leb_le. assert (Hdiv := Z.div_mod (Z.of_nat nr - Z.of_nat n) size ltac:(lia)). fold j in Hdiv.
  set (q := (Z.of_nat nr - Z.of_nat n) / size) in *. assert (q <= -1) by nia.
  destruct (Z.eq_dec q (-1)) as [Eq|].
  - rewrite Eq in Hdiv. assert (j = 0) by lia. split; [|lia]. rewrite H0. by rewrite (pos_of_0 _ _ _ _ Hc').
  - assert (q <= -2) by lia. assert (Z.of_nat n >= size) by nia. assert (j = 0) by lia. split; [|lia].
    replace j with 0. by rewrite (pos_of_0 _ _ _ _ Hc').
Qed.

Lemma shift_all n cs k : (length cs <= n)%nat -> cell_at (shift n cs) k = no_entry.
Proof. intros Hn. rewrite cell_at_shift. unfold cell_at. by rewrite lookup_ge_None_2 by lia. Qed.

Lemma after_release_rep st s cs o f st' : after_release st s cs o f st' -> rep st' (s + Z.of_nat f) (shift f cs) o.
Proof. by intros []. Qed.

Lemma filler_no_packet st s cs o k : core st s cs o -> filler (status (cell_at cs k)) = true -> has_packet (cell_at cs k) = false.
Proof.
  intros Hc Hf. apply has_packet_none. destruct (decide (k < length cs)%nat) as [Hk|].
  - eapply filler_none; [apply (c_ok _ _ _ _ Hc k), cell_at_lookup, Hk|done].
  - unfold cell_at in *. by rewrite lookup_ge_None_2 in * by lia.
Qed.

(** What a drop or a read that has moved the start over [n] cells leaves: the
    position of the first packet that cannot be read is in range, or it is
    behind the start and moving it there restores the invariant. *)
Definition moved st s cs (nr : nat) o (n : nat) st' : Prop :=
  if isInRange (m_iStartPos st') (m_iMaxPosOff st') (m_szSize st') (m_iFirstNonreadPos st')
  then inv st' (s + Z.of_nat n) (shift n cs) (nr - n) o /\
    ((n <= nr)%nat \/ forall k, cell_at (shift n cs) k = no_entry)
  else (nr < n)%nat /\ inv (set_iFirstNonreadPos (m_iStartPos st') st') (s + Z.of_nat n) (shift n cs) 0 o.

Lemma moved_ok st s cs nr o n st' : inv st s cs nr o -> rep st' (s + Z.of_nat n) (shift n cs) o -> stable st st' ->
  m_iStartPos st' = pos_of st (Z.of_nat n) -> m_iStartSeqNo st' = seq_of (s + Z.of_nat n) ->
  m_iMaxPosOff st' = Z.max 0 (m_iMaxPosOff st - Z.of_nat n) ->
  ((n <= nr)%nat -> messages (m_bMessageAPI st) (drop n cs) (nr - n)) ->
  moved st s cs nr o n st'.
Proof.
  intros Hinv Hrep' Hs Hp Hq Ho Hcut. unfold moved.
  set (r := isInRange _ _ _ _). pose proof Hinv as [[Hc _] _ Hoff Hbey Hnon Hnr Hms].
  pose proof (proj1 Hrep') as Hc'. pose proof (core_length _ _ _ _ Hc) as Hl. pose proof (c_size _ _ _ _ Hc) as Hsz.
  pose proof (t_size _ _ Hs) as Hsize.
  assert (Hbey' : forall k, m_iMaxPosOff st' <= Z.of_nat k -> cell_at (shift n cs) k = no_entry).
  { intros k Hk. rewrite cell_at_shift. apply Hbey. lia. }
  assert (Hzero : inv (set_iFirstNonreadPos (m_iStartPos st') st') (s + Z.of_nat n) (shift n cs) 0 o).
  { split; try done; [by eapply rep_ext|cbn [m_iMaxPosOff set_iFirstNonreadPos]| |cbn [m_iMaxPosOff set_iFirstNonreadPos]; lia|constructor].
    - change (m_szSize (set_iFirstNonreadPos _ st')) with (m_szSize st'). rewrite Hsize. lia.
    - cbn [m_iFirstNonreadPos set_iFirstNonreadPos]. symmetry. exact (pos_of_0 _ _ _ _ Hc'). }
  destruct (decide (n <= nr)%nat) as [Hle|Hgt].
  - assert (Hpn : m_iFirstNonreadPos st' = pos_of st' (Z.of_nat (nr - n))).
    { rewrite (t_nonread _ _ Hs), Hnon, (pos_of_moved _ _ _ _ Hs Hp). f_equal. lia. }
    assert (r = true) as ->.
    { unfold r. rewrite Hpn, (in_range_ok st' _ _ _ _ _ Hc') by (rewrite ?Hsize; lia). apply Z.leb_le. lia. }
    split; [|by left]. split; try done; [rewrite Hsize; lia|lia|].
    rewrite (t_api _ _ Hs). apply messages_shift. by apply Hcut.
  - destruct r eqn:Er; [|split; [lia|exact Hzero]].
    destruct (passed_nonread st s cs o (m_iMaxPosOff st) nr n st' Hc Hc' Hs Hp Hnon ltac:(lia) ltac:(lia) Ho Er) as [E Hall].
    replace (nr - n)%nat with O by lia. rewrite <- E, set_nonread_id in Hzero by done. split; [done|]. right. intros k. by apply shift_all.
Qed.

Lemma release_counts st st' : releaseNextFillerEntries st = Some st' ->
  m_iBytesCount st' = m_iBytesCount st /\ m_iPktsCount st' = m_iPktsCount st.
Proof.
  unfold releaseNextFillerEntries. set (P (x : t (Q := Q)) := m_iBytesCount x = m_iBytesCount st /\ m_iPktsCount x = m_iPktsCount st).
  apply (loop_inv _ P P); [|by split]. intros x Hx. unfold release_step. by destruct (filler _).
Qed.

(** The start has moved over [n] cells; the fillers behind them go too. *)
Lemma settle_ok st s cs nr o n st3 : inv st s cs nr o -> rep st3 (s + Z.of_nat n) (shift n cs) o -> stable st st3 ->
  m_iStartPos st3 = pos_of st (Z.of_nat n) -> m_iStartSeqNo st3 = seq_of (s + Z.of_nat n) ->
  m_iMaxPosOff st3 = Z.max 0 (m_iMaxPosOff st - Z.of_nat n) ->
  ((n <= nr)%nat -> messages (m_bMessageAPI st) (drop n cs) (nr - n)) ->
  exists st4 f, releaseNextFillerEntries st3 = Some st4 /\ stable st st4 /\
    (forall k, (n <= k < n + f)%nat -> filler (status (cell_at cs k)) = true) /\
    filler (status (cell_at cs (n + f))) = false /\ moved st s cs nr o (n + f) st4.
Proof.
  intros Hinv Hrep3 Hs3 Hp3 Hq3 Ho3 Hcut. pose proof Hinv as [Hrep Hseq Hoff Hbey Hnon Hnr Hms].
  destruct (release_ok st3 _ _ _ Hrep3 ltac:(lia)) as (st4 & f & E4 & (Hrep4 & Hs4 & Hp4 & Ho4 & Hq4 & Hf4) & Hstop).
  rewrite shift_shift in Hrep4. rewrite cell_at_shift in Hstop.
  assert (Hst : stable st st4) by by etrans.
  assert (Hfill : forall k, (n <= k < n + f)%nat -> filler (status (cell_at cs k)) = true).
  { intros k Hk. specialize (Hf4 (k - n)%nat ltac:(lia)). rewrite cell_at_shift in Hf4. by replace (n + (k - n))%nat with k in Hf4 by lia. }
  exists st4, f. split_and!; try done. rewrite <- Z.add_assoc, <- Nat2Z.inj_add in *. apply moved_ok; try done.
  - rewrite Hp4, (pos_of_moved _ _ _ _ Hs3 Hp3). by rewrite <- Nat2Z.inj_add.
  - by apply Hq4.
  - rewrite Ho4, Ho3. lia.
  - intros Hle. assert (f = O) as ->; [|rewrite Nat.add_0_r in *; by apply Hcut].
    destruct f as [|f]; [done|]. specialize (Hfill n ltac:(lia)).
    apply (filler_no_packet _ _ _ _ _ (proj1 Hrep)) in Hfill. by rewrite (messages_packets _ _ _ Hms) in Hfill by lia.
Qed.

Lemma drop_up_to_ok st s cs nr o (n : nat) (Hinv : inv st s cs nr o) (Hn : 0 < Z.of_nat n < m_iSeqNoTH)
  (Hcut : (n <= nr)%nat -> messages (m_bMessageAPI st) (drop n cs) (nr - n)) :
  exists st' f nr', dropUpTo (seq_of (s + Z.of_nat n)) st = Some (st', (count_cells is_empty cs n, count_cells is_avail cs n)) /\
    inv st' (s + Z.of_nat (n + f)) (shift (n + f) cs) nr' o /\
    (forall k, (n <= k < n + f)%nat -> filler (status (cell_at cs k)) = true) /\
    filler (status (cell_at cs (n + f))) = false /\
    if decide (n + f <= nr)%nat then nr' = (nr - (n + f))%nat
    else head_message (m_bMessageAPI st) (drop nr' (shift (n + f) cs)) = None.
Proof.
  pose proof Hinv as [Hrep Hseq Hoff Hbey Hnon Hnr Hms]. pose proof (c_size _ _ _ _ (proj1 Hrep)) as Hsz.
  set (off1 := Z.max 0 (m_iMaxPosOff st - Z.of_nat n)).
  set (st1 := set_start (m_iStartSeqNo st) (m_iStartPos st) off1 st).
  assert (Hrep1 : rep st1 s cs o) by (by eapply rep_ext).
  destruct (drop_loop_ok st1 s cs o n Hrep1) as (st2 & E2 & Hrep2 & Hs2 & Hp2 & Hq2 & Ho2).
  set (st3 := set_start (seq_of (s + Z.of_nat n)) (m_iStartPos st2) (m_iMaxPosOff st2) st2).
  destruct (settle_ok st s cs nr o n st3 Hinv) as (st4 & f & E4 & Hst & Hfill & Hstop & Hmoved); try done.
  { by eapply rep_ext. }
  { destruct Hs2. by split. }
  assert (E : dropUpTo (seq_of (s + Z.of_nat n)) st =
    st ← (if negb (isInRange (m_iStartPos st4) (m_iMaxPosOff st4) (m_szSize st4) (m_iFirstNonreadPos st4))
          then updateNonreadPos (set_iFirstNonreadPos (m_iStartPos st4) st4) else Some st4);
    st ← (if negb (isTsbPd st) && m_bMessageAPI st then updateFirstReadableOutOfOrder st else Some st);
    Some (st, (count_cells is_empty cs n, count_cells is_avail cs n))).
  { unfold dropUpTo. rewrite Hseq, seqoff_seq_of by lia. replace (s + Z.of_nat n - s) with (Z.of_nat n) by lia.
    rewrite (proj2 (Z.leb_gt _ _)) by lia. rewrite Nat2Z.id.
    assert (set_start (seq_of s) (m_iStartPos st) (if m_iMaxPosOff st - Z.of_nat n <? 0 then 0 else m_iMaxPosOff st - Z.of_nat n) st = st1) as ->.
    { unfold st1, off1. rewrite Hseq. f_equal. bdestr. }
    rewrite E2. fold st3. rewrite E4. reflexivity. }
  rewrite E. clear E. unfold moved in Hmoved. destruct (isInRange _ _ _ _); cbn [negb].
  - destruct Hmoved as [Hinv4 Hcase]. rewrite bind_Some.
    destruct (inv_mode _ _ _ _ _ Hinv4) as (v & Ev & Hinv5). rewrite Ev, bind_Some.
    exists (set_iFirstReadableOutOfOrder v st4), f, (nr - (n + f))%nat.
    split_and!; try done. destruct (decide (n + f <= nr)%nat); [done|].
    destruct Hcase as [|Hno]; [done|]. by apply no_head_message.
  - destruct Hmoved as [Hgt Hinv4]. pose proof Hinv4 as [Hr5 Hq5 Ho5 Hb5 Hn5 Hl5 Hm5].
    destruct (update_ok _ _ _ 0 _ Hr5 Hq5 Ho5 Hb5 Hn5 Hl5 Hm5) as (k & E5 & Hinv6 & Hstuck). rewrite E5, bind_Some.
    destruct (inv_mode _ _ _ _ _ Hinv6) as (v & Ev & Hinv7). rewrite Ev, bind_Some.
    eexists _, f, (0 + k)%nat. split_and!; try done.
    rewrite decide_False by lia. change (m_bMessageAPI (set_iFirstNonreadPos _ st4)) with (m_bMessageAPI st4) in Hstuck.
    by rewrite (t_api _ _ Hst) in Hstuck.
Qed.

(** C20. [dropUpTo] always returns: the first [n] cells are gone, and with
    them the cells read or dropped that follow at once, the rest of the buffer
    is as before and its empty tail has grown.  The counts are those of the
    missing and of the discarded packets among the [n] cells, packets read or
    dropped before do not count.  What was readable behind the cut stays
    readable; when the cut has passed it, every complete message at the new
    start becomes readable. *)
Theorem rcvbuf_dropUpTo st s cs nr o (n : nat) (Hinv : inv st s cs nr o) (Hn : 0 < Z.of_nat n < m_iSeqNoTH)
  (Hcut : (n <= nr)%nat -> messages (m_bMessageAPI st) (drop n cs) (nr - n)) :
  exists st' f nr', dropUpTo (seq_of (s + Z.of_nat n)) st = Some (st', (count_cells is_empty cs n, count_cells is_avail cs n)) /\
    inv st' (s + Z.of_nat (n + f)) (shift (n + f) cs) nr' o /\
    (forall k, (n <= k < n + f)%nat -> filler (status (cell_at cs k)) = true) /\
    filler (status (cell_at cs (n + f))) = false /\
    if decide (n + f <= nr)%nat then nr' = (nr - (n + f))%nat
    else head_message (m_bMessageAPI st) (drop nr' (shift (n + f) cs)) = None.
Proof. by apply drop_up_to_ok. Qed.

(** ** A new buffer *)

Lemma inv_empty_head st s cs nr o : inv st s cs nr o -> has_packet (cell_at cs 0) = false -> nr = O.
Proof.
  intros Hinv H0. destruct nr as [|nr]; [done|]. by rewrite (messages_packets _ _ _ (i_msgs _ _ _ _ _ Hinv) O) in H0 by lia.
Qed.

Lemma init_inv s size (q : Q) api ts : 2 <= Z.of_nat size <= m_iSeqNoTH -> pool_inv q ->
  inv (init (seq_of s) size q api ts) s (replicate size no_entry) 0 (pool_taken q).
Proof.
  intros Hsz Hq. set (st := init _ _ _ _ _). set (cs := replicate size no_entry).
  assert (Hs : m_szSize st = Z.of_nat size) by (unfold m_szSize, st; cbn; by rewrite length_replicate).
  assert (Hids : ids cs = []) by (apply ids_none; intros e He; by apply elem_of_replicate in He as [-> _]).
  assert (Hcnt : count_ooo cs = 0) by (unfold cs; clear; induction size; [done|]; cbn; by rewrite IHsize).
  assert (Hcell : forall k, cell_at cs k = no_entry).
  { intros k. unfold cell_at, cs. destruct (decide (k < size)%nat); [by rewrite lookup_replicate_2|].
    by rewrite lookup_ge_None_2 by (rewrite length_replicate; lia). }
  split; try done.
  - split; [|unfold num_ok; rewrite Hcnt; by destruct (ooo_mode st)]. split; rewrite ?Hs, ?Hids; try done; try (cbn; set_solver by lia).
    + apply list_eq. intros k. rewrite ring_lookup. case_decide; unfold cs.
      * rewrite lookup_replicate_2 by lia. f_equal. unfold st. cbn [m_entries init]. unfold aget.
        case_match; [done|]. rewrite list_lookup_total_alt. destruct (replicate _ _ !! _) eqn:E; [|done].
        apply list_elem_of_lookup_2, elem_of_replicate in E. by destruct E.
      * rewrite lookup_ge_None_2; [done|]. rewrite length_replicate. lia.
    + intros k e He. apply list_elem_of_lookup_2 in He. apply elem_of_replicate in He as [-> _]. done.
    + constructor.
  - rewrite Hs. cbn. lia.
  - constructor.
Qed.
End Facts.

(** ** Example buffers: eight cells from sequence number 10 on *)
Module RcvExample.
Definition pkt (seq bnd msgno : Z) (data : list Z) : CPacket.t :=
  CPacket.mk seq (bnd * 2 ^ 30 + 2 ^ 29 + msgno) 0 0 data.
Definition unit (i : nat) (p : CPacket.t) : CUnit := mkUnit (O, i) p.
Definition buffer (api : bool) : t (Q := CUnitQueue.t) := init 10 8 (CUnitQueue.init 8) api (CTsbpdTime.init 0).
(** The buffer after an insertion. *)
Definition put (u : CUnit) (st : t (Q := CUnitQueue.t)) : t := default st (fst <$> insert u st).

Lemma buffer_inv api : inv (buffer api) 10 (replicate 8 no_entry) 0 ∅.
Proof.
  destruct (init_wf 8 ltac:(lia)) as [Hw Ht]. pose proof (init_inv 10 8 (CUnitQueue.init 8) api (CTsbpdTime.init 0)) as H.
  change (pool_taken (CUnitQueue.init 8)) with (taken_units (CUnitQueue.init 8)) in H. rewrite Ht in H. apply H; [|exact Hw].
  vm_compute. split; discriminate.
Qed.

Lemma put_inv st cs nr (k : nat) i p : inv st 10 cs nr ∅ -> Z.of_nat k < m_szSize st - 1 ->
  getSeqNo p = seq_of (10 + Z.of_nat k) -> status (cell_at cs k) = EntryState_Empty ->
  pool_has (m_pUnitQueue st) (O, i) -> (O, i) ∉ pool_taken (m_pUnitQueue st) ->
  exists n, inv (put (unit i p) st) 10 (<[k := mkEntry (Some (unit i p)) EntryState_Avail]> cs) n ∅ /\
    head_message (m_bMessageAPI st) (drop n (<[k := mkEntry (Some (unit i p)) EntryState_Avail]> cs)) = None.
Proof.
  intros Hinv Hk Hp He Hh Hf. destruct (insert_free st 10 cs nr ∅ k (unit i p) Hinv Hk Hp He Hh Hf) as (st' & n & E & H1 & H2 & _).
  exists (nr + n)%nat. unfold put. rewrite E. done.
Qed.

(** A unit of the example pool that is free. *)
Lemma free_unit_ok (q : CUnitQueue.t) i : CUnitQueue.m_pQEntry q !! O <> None -> nth i (nth 0 (CUnitQueue.m_pQEntry q) []) true = false ->
  pool_has q (O, i) /\ (O, i) ∉ pool_taken q.
Proof.
  intros Hq Hi. assert (Hh : UnitQueue.has_unit q (O, i)).
  { unfold UnitQueue.has_unit. destruct (CUnitQueue.m_pQEntry q) as [|b bs]; [by destruct Hq|]. exists b. split; [done|]. cbn in *.
    destruct (decide (i < length b)%nat); [done|]. by rewrite nth_overflow in Hi by lia. }
  split; [done|]. pose proof (m_bTaken_spec q (O, i) Hh) as Hs. unfold CUnitQueue.m_bTaken in Hs. cbn [fst snd] in Hs. rewrite Hi in Hs.
  symmetry in Hs. by apply bool_decide_eq_false in Hs.
Qed.
End RcvExample.
Import RcvExample.

Lemma rcvbuf_insert_witness :
  exists st', insert (unit 0 (pkt 10 PB_SOLO 1 [1; 2])) (buffer true) = Some (st', 0) /\
    hasAvailablePackets st' = true /\ pool_taken (m_pUnitQueue st') = {[(O, O)]}.
Proof.
  pose proof (buffer_inv true) as Hinv. destruct (free_unit_ok (CUnitQueue.init 8) 0 ltac:(done) eq_refl) as [Hh Hf].
  destruct (rcvbuf_insert (buffer true) 10 _ 0 ∅ 10 (unit 0 (pkt 10 PB_SOLO 1 [1; 2])) Hinv eq_refl) as (st' & E & H).
  - vm_compute. split; reflexivity.
  - exact Hh.
  - exact Hf.
  - exists st'. change (insert_code _ _ _ _) with 0 in *. change (0 =? 0) with true in H. cbv iota zeta in H. destruct H as (n & _ & _ & _ & Ht).
    split; [exact E|]. split; [vm_compute in E; injection E as <-; reflexivity|].
    rewrite Ht. vm_compute. reflexivity.
Defined.

Lemma rcvbuf_dropUpTo_witness :
  exists st' f nr', dropUpTo 12 (put (unit 0 (pkt 12 PB_SOLO 1 [1; 2])) (buffer true)) = Some (st', (2, 0)) /\
    hasAvailablePackets st' = true /\ inv st' (10 + Z.of_nat (2 + f)) (shift (2 + f) (<[2%nat := mkEntry (Some (unit 0 (pkt 12 PB_SOLO 1 [1; 2]))) EntryState_Avail]> (replicate 8 no_entry))) nr' ∅.
Proof.
  pose proof (buffer_inv true) as Hinv. destruct (free_unit_ok (CUnitQueue.init 8) 0 ltac:(done) eq_refl) as [Hh Hf].
  destruct (put_inv (buffer true) _ 0 2 0 (pkt 12 PB_SOLO 1 [1; 2]) Hinv eq_refl eq_refl eq_refl Hh Hf) as (n & Hinv1 & _).
  pose proof (inv_empty_head _ _ _ _ _ Hinv1 eq_refl) as ->.
  destruct (rcvbuf_dropUpTo _ 10 _ 0 ∅ 2 Hinv1) as (st' & f & nr' & E & Hinv' & _).
  - vm_compute. split; reflexivity.
  - intros ?. lia.
  - exists st', f, nr'. split; [exact E|]. split; [|exact Hinv']. vm_compute in E. injection E as <-. reflexivity.
Defined.
