(* ===== verification/RcvBufferRead.v ===== *)
(** Reading from the receiver buffer of RcvBuffer.v: messages in order, and
    the byte stream. *)
From stdpp Require Import gmap.
From S2P Require Import Prelude Ring SeqNo Packet TsbPd UnitQueue RcvBuffer RcvBufferInv.
Import CSeqNo CPacket CRcvBuffer RcvExample.

Section Facts.
Context {Q : Type} `{HQ : !UnitPool Q}.
Implicit Types (st : t (Q := Q)) (cs : list Entry) (e : Entry).

(** ** Reading a message in order *)

Definition payload (l : list Entry) : list Z := concat (map (fun e => m_pcData (packet_of e)) l).

Lemma payload_app l l' : payload (l ++ l') = payload l ++ payload l'.
Proof. unfold payload. by rewrite map_app, concat_app. Qed.

Lemma take_payload (D p : list Z) len : 0 <= len ->
  take (Z.to_nat len) D ++ take (Z.to_nat (Z.min (len - zlen (take (Z.to_nat len) D)) (zlen p))) p = take (Z.to_nat len) (D ++ p).
Proof.
  intros Hl. rewrite take_app. f_equal. rewrite length_take.
  destruct (Z.le_ge_cases (zlen p) (len - Z.min len (zlen D))).
  - rewrite !take_ge; [done|lia|]. lia.
  - f_equal. lia.
Qed.

Lemma num_dec st cs e : num_ok st (e :: cs) ->
  (if negb (m_numOutOfOrderPackets st =? 0) && is_ooo e then m_numOutOfOrderPackets st - 1 else m_numOutOfOrderPackets st) =
  (if ooo_mode st then count_ooo cs else 0).
Proof.
  unfold num_ok. intros ->. cbn [count_ooo]. pose proof (count_ooo_range cs).
  destruct (ooo_mode st); [|done]. destruct (is_ooo e); cbn [andb]; rewrite ?andb_true_r, ?andb_false_r; [|lia].
  destruct (Z.eqb_spec (1 + count_ooo cs) 0); cbn [negb]; lia.
Qed.

(** The buffer after [read_step] has read the packet at the start. *)
Definition read_state st : t (Q := Q) :=
  let packet := packetAt st (m_iStartPos st) in
  let st1 := if isTsbPd st then updateTsbPdTimeBase (getMsgTimeStamp packet) st else st in
  let st2 := if negb (m_numOutOfOrderPackets st1 =? 0) && negb (getMsgOrderFlag packet)
             then set_outOfOrder (m_numOutOfOrderPackets st1 - 1) (m_iFirstReadableOutOfOrder st1) st1 else st1 in
  let st3 := releaseUnitInPos (m_iStartPos st) st2 in
  set_start (incseq (getSeqNo packet)) (incPos st3 (m_iStartPos st) 1) (m_iMaxPosOff st3 - 1) st3.

Lemma read_state_ok st s cs o : rep st s cs o -> has_packet (cell_at cs 0) = true ->
  rep (read_state st) (s + 1) (shift 1 cs) o /\ stable st (read_state st) /\ m_iStartPos (read_state st) = pos_of st 1 /\
  m_iStartSeqNo (read_state st) = seq_of (s + 1) /\ m_iMaxPosOff (read_state st) = m_iMaxPosOff st - 1 /\
  m_iBytesCount (read_state st) = m_iBytesCount st /\ m_iPktsCount (read_state st) = m_iPktsCount st /\
  packetAt st (m_iStartPos st) = packet_of (cell_at cs 0) /\ getSeqNo (packet_of (cell_at cs 0)) = seq_of s /\
  CRcvBuffer.has_unit st (m_iStartPos st) = true.
Proof.
  intros [Hc Hn] Hpk. pose proof (core_length _ _ _ _ Hc) as Hl. pose proof (c_size _ _ _ _ Hc).
  destruct cs as [|e cs]; [cbn in Hl; lia|]. change (cell_at (e :: cs) 0) with e in *.
  assert (He : (e :: cs) !! Z.to_nat 0 = Some e) by done.
  destruct (unit_at_cell _ _ _ _ _ _ Hc He ltac:(lia)) as [Hu _]. rewrite (pos_of_0 _ _ _ _ Hc) in Hu.
  assert (Hp : packetAt st (m_iStartPos st) = packet_of e) by (unfold packetAt, packet_of; by rewrite Hu).
  assert (Hh : CRcvBuffer.has_unit st (m_iStartPos st) = true) by (unfold CRcvBuffer.has_unit; by rewrite Hu).
  pose proof (c_ok _ _ _ _ Hc O e eq_refl) as Hok. unfold has_packet in Hpk. apply bool_decide_eq_true in Hpk as [u Eu].
  assert (Hseq : getSeqNo (packet_of e) = seq_of s).
  { unfold cell_ok in Hok. unfold packet_of. rewrite Eu in *. destruct Hok as [_ Hok]. by rewrite Z.add_0_r in Hok. }
  assert (Hooo : negb (getMsgOrderFlag (packet_of e)) = is_ooo e) by (unfold is_ooo, packet_of; by rewrite Eu).
  pose proof (num_dec _ _ _ Hn) as Hd. unfold read_state. rewrite Hp, Hooo.
  set (st1 := if isTsbPd st then _ else st).
  assert (Hst1 : core st1 s (e :: cs) o /\ frame st st1 /\ m_numOutOfOrderPackets st1 = m_numOutOfOrderPackets st /\
    m_iBytesCount st1 = m_iBytesCount st /\ m_iPktsCount st1 = m_iPktsCount st).
  { unfold st1. destruct (isTsbPd st) eqn:Et; [|by split_and!]. split_and!; try done; [by eapply core_ext|].
    split; try done. unfold isTsbPd in *. cbn [m_tsbpd updateTsbPdTimeBase set_tsbpd]. apply updateBaseTime_mode. }
  destruct Hst1 as (Hc1 & Hf1 & Hn1 & Hb1 & Hk1). rewrite Hn1.
  set (st2 := if _ && is_ooo e then _ else st1).
  assert (Hst2 : core st2 s (e :: cs) o /\ frame st st2 /\ m_numOutOfOrderPackets st2 = (if ooo_mode st then count_ooo cs else 0) /\
    m_iBytesCount st2 = m_iBytesCount st /\ m_iPktsCount st2 = m_iPktsCount st).
  { unfold st2. rewrite <- Hd. destruct (_ && is_ooo e); [|by split_and!]. split_and!; try done; [by eapply core_ext|].
    etrans; [exact Hf1|]. by split. }
  destruct Hst2 as (Hc2 & Hf2 & Hn2 & Hb2 & Hk2).
  pose proof (core_release _ _ _ _ _ _ Hc2 He ltac:(lia)) as Hc3. pose proof (frame_release st2 0) as Hf3.
  rewrite (pos_of_0 _ _ _ _ Hc2), (f_pos _ _ Hf2) in Hc3, Hf3. change (Z.to_nat 0) with O in Hc3. cbn [insert list_insert] in Hc3.
  set (st3 := releaseUnitInPos (m_iStartPos st) st2) in *.
  assert (Hf : frame st st3) by (by etrans).
  assert (Hrep3 : rep st3 s (no_entry :: cs) o).
  { split; [done|]. unfold num_ok. rewrite (frame_mode _ _ Hf). cbn [count_ooo is_ooo pUnit no_entry]. exact Hn2. }
  assert (Hinc : incPos st3 (m_iStartPos st) 1 = pos_of st3 1) by (unfold incPos, pos_of; by rewrite (f_pos _ _ Hf)).
  rewrite Hinc, shift_1, Hseq, incseq_seq_of. split_and!; try done.
  - by apply (rep_advance st3 s no_entry).
  - etrans; [apply frame_stable, Hf|]. by split.
  - cbn [m_iStartPos set_start]. by apply frame_pos_of.
  - cbn [m_iMaxPosOff set_start]. by rewrite (f_off _ _ Hf).
Qed.

(** The control data after a packet. *)
Definition read_ctrl st (msgctrl : option SRT_MSGCTRL) : option SRT_MSGCTRL :=
  let packet := packetAt st (m_iStartPos st) in
  let st1 := if isTsbPd st then updateTsbPdTimeBase (getMsgTimeStamp packet) st else st in
  c ← msgctrl;
  Some (mkCtrl (if is_first packet then getMsgSeq (m_bPeerRexmitFlag st) packet else msgno c)
          (if is_last packet then getPktTsbPdTime (getMsgTimeStamp packet) st1 else srctime c) (getSeqNo packet)).

Lemma read_step_eq len readPos st data n b ctrl : CRcvBuffer.has_unit st (m_iStartPos st) = true ->
  let p := packetAt st (m_iStartPos st) in
  let data' := data ++ take (Z.to_nat (Z.min (len - zlen data) (getLength p))) (m_pcData p) in
  read_step len readPos true (st, data, n, b, ctrl, m_iStartPos st) =
    if is_last p then
      inr (if readPos =? m_iFirstReadableOutOfOrder st then set_iFirstReadableOutOfOrder (-1) (read_state st) else read_state st,
           data', n + 1, b + getLength p, read_ctrl st ctrl)
    else inl (read_state st, data', n + 1, b + getLength p, read_ctrl st ctrl, m_iStartPos (read_state st)).
Proof.
  intros Hu p data'. unfold read_step. rewrite Hu. cbn [negb]. fold p. fold data'.
  assert (E1 : forall st1, m_iFirstReadableOutOfOrder (releaseUnitInPos (m_iStartPos st) st1) = m_iFirstReadableOutOfOrder st1) by done.
  unfold read_state, read_ctrl. fold p.
  destruct (isTsbPd st); destruct (is_last p); destruct (_ && _); reflexivity.
Qed.

Lemma msg_end_app api l x k : msg_end api l = Some k -> msg_end api (l ++ x) = Some k.
Proof.
  intros H. destruct (msg_end_range _ _ _ H). apply (msg_end_take_inv _ _ (length l)).
  by rewrite take_app_length.
Qed.

Lemma read_loop_ok m st s cs o (k : nat) D n b ctrl len readPos : rep st s cs o -> msg_end true cs = Some k ->
  (k <= m)%nat -> 0 <= len -> m_iStartSeqNo st = seq_of s ->
  exists st' ctrl', loop m (read_step len readPos true) (st, take (Z.to_nat len) D, n, b, ctrl, m_iStartPos st) =
      Some (st', take (Z.to_nat len) (D ++ payload (take k cs)), n + Z.of_nat k, b + zlen (payload (take k cs)), ctrl') /\
    rep st' (s + Z.of_nat k) (shift k cs) o /\ stable st st' /\ m_iStartPos st' = pos_of st (Z.of_nat k) /\
    m_iStartSeqNo st' = seq_of (s + Z.of_nat k) /\ m_iMaxPosOff st' = m_iMaxPosOff st - Z.of_nat k /\
    m_iBytesCount st' = m_iBytesCount st /\ m_iPktsCount st' = m_iPktsCount st /\
    pktseq <$> ctrl' = (fun _ => seq_of (s + Z.of_nat k - 1)) <$> ctrl.
Proof.
  revert st s cs k D n b ctrl. induction m as [|m IH]; intros st s cs k D n b ctrl Hrep Hend Hm Hlen Hseq.
  { destruct (msg_end_range _ _ _ Hend). lia. }
  destruct cs as [|e cs]; [done|]. cbn [msg_end] in Hend. cbn [loop].
  destruct (has_packet e) eqn:Ep; [|done]. cbn [negb orb] in Hend.
  destruct (read_state_ok st s (e :: cs) o Hrep Ep) as (Hrep1 & Hs1 & Hp1 & Hq1 & Ho1 & Hb1 & Hk1 & Hpk & Hsq & Hu).
  change (cell_at (e :: cs) 0) with e in *.
  rewrite (read_step_eq _ _ _ _ _ _ _ Hu), Hpk. unfold getLength at 1 3. rewrite take_payload by done.
  assert (Hctrl : pktseq <$> read_ctrl st ctrl = (fun _ => seq_of s) <$> ctrl).
  { unfold read_ctrl. rewrite Hpk, Hsq. by destruct ctrl. }
  destruct (is_last (packet_of e)).
  - injection Hend as <-. cbn [take]. rewrite take_0.
    assert (Epl : payload [e] = m_pcData (packet_of e)) by (unfold payload; cbn; apply app_nil_r). rewrite Epl.
    assert (Hset : forall st1, rep st1 (s + 1) (shift 1 (e :: cs)) o ->
      rep (set_iFirstReadableOutOfOrder (-1) st1) (s + 1) (shift 1 (e :: cs)) o) by (intros; by eapply rep_ext).
    eexists _, _. split; [reflexivity|]. destruct (readPos =? _).
    + split_and!; try done; [by apply Hset|by destruct Hs1|]. rewrite Hctrl. by replace (s + Z.of_nat 1 - 1) with s by lia.
    + split_and!; try done. rewrite Hctrl. by replace (s + Z.of_nat 1 - 1) with s by lia.
  - destruct (msg_end true cs) as [k'|] eqn:Ek; [|done]. injection Hend as <-.
    destruct (msg_end_range _ _ _ Ek) as [_ Hk']. rewrite shift_1 in Hrep1.
    destruct (IH (read_state st) (s + 1) (cs ++ [no_entry]) k' (D ++ m_pcData (packet_of e)) (n + 1)
      (b + getLength (packet_of e)) (read_ctrl st ctrl) Hrep1 (msg_end_app _ _ _ _ Ek) ltac:(lia) Hlen Hq1)
      as (st' & ctrl' & E & Hrep' & Hs' & Hp' & Hq' & Ho' & Hb' & Hc' & Hx').
    rewrite (take_app_le cs) in E by done. rewrite E. exists st', ctrl'. split.
    { cbn [take]. change (e :: take k' cs) with ([e] ++ take k' cs). rewrite payload_app, length_app.
      assert (Epl : payload [e] = m_pcData (packet_of e)) by (unfold payload; cbn; apply app_nil_r). rewrite Epl, app_assoc.
      unfold getLength.
      rewrite Nat2Z.inj_add, Nat2Z.inj_succ, <- Z.add_1_l, !Z.add_assoc. reflexivity. }
    replace (s + Z.of_nat (S k')) with (s + 1 + Z.of_nat k') by lia.
    rewrite <- (shift_1 e cs), shift_shift in Hrep'. change (1 + k')%nat with (S k') in Hrep'. split_and!; try done.
    + by etrans.
    + rewrite Hp', (pos_of_moved _ _ _ _ Hs1 Hp1). f_equal. lia.
    + lia.
    + congruence.
    + congruence.
    + rewrite Hx'. destruct ctrl; [|done]. cbn. done.
Qed.
Lemma messages_head api cs nr : messages api cs nr -> (0 < nr)%nat ->
  exists k, head_message api cs = Some k /\ (1 <= k <= nr)%nat /\ messages api (drop k cs) (nr - k).
Proof.
  intros Hm Hnr. destruct Hm as [|l k n Hk Hm]; [lia|]. exists k. unfold head_message in Hk.
  destruct (msg_starts api l) eqn:Es; [|done]. pose proof (msg_end_range _ _ _ Hk).
  unfold head_message. rewrite Es. split; [done|]. split; [lia|]. by replace (k + n - k)%nat with n by lia.
Qed.

Lemma inorder_ok st s cs nr o : inv st s cs nr o -> hasReadableInorderPkts st = negb (nr =? 0)%nat.
Proof.
  intros Hinv. pose proof (proj1 (i_rep _ _ _ _ _ Hinv)) as Hc. pose proof (i_off _ _ _ _ _ Hinv). pose proof (i_nr _ _ _ _ _ Hinv).
  unfold hasReadableInorderPkts. rewrite (i_nonread _ _ _ _ _ Hinv), <- (pos_of_0 _ _ _ _ Hc).
  rewrite (pos_of_eqb _ _ _ _ _ _ Hc) by lia. f_equal. destruct (Z.eqb_spec (Z.of_nat nr) 0), (Nat.eqb_spec nr 0); lia.
Qed.

(** The end of a read: the position of the first packet that cannot be read
    and the message that can be read out of order are brought up to date. *)
Lemma read_end_ok st s cs nr o n st4 : moved st s cs nr o n st4 ->
  let st5 := if negb (isInRange (m_iStartPos st4) (m_iMaxPosOff st4) (m_szSize st4) (m_iFirstNonreadPos st4))
             then set_iFirstNonreadPos (m_iStartPos st4) st4 else st4 in
  exists v, (if negb (isTsbPd st5) then updateFirstReadableOutOfOrder st5 else Some st5) = Some (set_iFirstReadableOutOfOrder v st5) /\
    inv (set_iFirstReadableOutOfOrder v st5) (s + Z.of_nat n) (shift n cs) (nr - n) o.
Proof.
  intros Hm st5. assert (Hinv : inv st5 (s + Z.of_nat n) (shift n cs) (nr - n) o).
  { unfold moved in Hm. unfold st5. destruct (isInRange _ _ _ _); cbn [negb]; [by destruct Hm|].
    destruct Hm as [Hlt Hm]. by replace (nr - n)%nat with O by lia. }
  destruct (negb (isTsbPd st5)).
  - destruct (ooo_update_ok _ _ _ _ (i_rep _ _ _ _ _ Hinv)) as [v E]. exists v. split; [done|by apply inv_set_first].
  - exists (m_iFirstReadableOutOfOrder st5). by rewrite set_first_id.
Qed.

Lemma read_message_ok st s cs nr o len ctrl (Hinv : inv st s cs nr o) (Hnr : (0 < nr)%nat) (Hlen : 0 <= len)
  (Hapi : m_bMessageAPI st = true) :
  exists k st' f ctrl', head_message true cs = Some k /\ (1 <= k <= nr)%nat /\
    let msg := payload (take k cs) in
    readMessage len ctrl st = Some (st', take (Z.to_nat len) msg, ctrl', Z.min len (zlen msg)) /\
    inv st' (s + Z.of_nat (k + f)) (shift (k + f) cs) (nr - (k + f)) o /\
    (forall i, (k <= i < k + f)%nat -> filler (status (cell_at cs i)) = true) /\
    filler (status (cell_at cs (k + f))) = false /\
    m_iPktsCount st' = m_iPktsCount st - Z.of_nat k /\ m_iBytesCount st' = m_iBytesCount st - zlen msg /\
    pktseq <$> ctrl' = (fun _ => seq_of (s + Z.of_nat k - 1)) <$> ctrl.
Proof.
  pose proof Hinv as [Hrep Hseq Hoff Hbey Hnon Hle Hms]. pose proof (proj1 Hrep) as Hc. pose proof (core_length _ _ _ _ Hc) as Hl.
  rewrite Hapi in Hms. destruct (messages_head _ _ _ Hms Hnr) as (k & Hk & Hkr & Hrest).
  assert (Hend : msg_end true cs = Some k) by (unfold head_message in Hk; by destruct (msg_starts _ _)).
  destruct (read_loop_ok (fuel st) st s cs o k [] 0 0 ctrl len (m_iStartPos st) Hrep Hend ltac:(unfold fuel, m_szSize in *; lia) Hlen Hseq)
    as (st1 & ctrl1 & E1 & Hrep1 & Hs1 & Hp1 & Hq1 & Ho1 & Hb1 & Hk1 & Hx1).
  rewrite take_nil in E1. set (msg := payload (take k cs)) in *.
  set (st3 := countBytes (- (0 + Z.of_nat k)) (- (0 + zlen msg)) st1).
  destruct (settle_ok st s cs nr o k st3 Hinv) as (st4 & f & E4 & Hst & Hfill & Hstop & Hmoved); try done.
  { by eapply rep_ext. }
  { destruct Hs1. by split. }
  { cbn [m_iMaxPosOff st3 countBytes set_counts]. lia. }
  { by rewrite Hapi. }
  destruct (release_counts _ _ E4) as [Hb4 Hk4].
  destruct (read_end_ok _ _ _ _ _ _ _ Hmoved) as (v & E5 & Hinv5).
  exists k. eexists _, f, ctrl1. split; [done|]. split; [done|]. cbv zeta. fold msg. split; [|split; [exact Hinv5|]].
  - unfold readMessage. rewrite (inorder_ok _ _ _ _ _ Hinv). rewrite (proj2 (Nat.eqb_neq nr 0)) by lia. cbn [negb andb].
    rewrite Z.eqb_refl, E1. cbn [mbind option_bind]. fold st3. rewrite E4. cbn [mbind option_bind]. rewrite E5.
    cbn [mbind option_bind app].
    assert (Hz : zlen (take (Z.to_nat len) msg) = Z.min len (zlen msg)) by (rewrite length_take; lia). rewrite Hz. reflexivity.
  - split_and!; try done; destruct (negb (isInRange _ _ _ _)); cbn [m_iPktsCount m_iBytesCount set_iFirstReadableOutOfOrder set_outOfOrder set_iFirstNonreadPos];
      rewrite ?Hb4, ?Hk4; unfold st3; cbn [m_iPktsCount m_iBytesCount countBytes set_counts]; rewrite ?Hk1, ?Hb1; lia.
Qed.

(** C10. With readable packets at the start, [readMessage] always returns
    and takes exactly the first message: the bytes copied are the payloads of
    its packets in order, cut at the length of the destination, and their
    number is returned; the message leaves the buffer with its units, the
    packets read or dropped that follow it at once go too, and the messages
    behind it stay readable.  The packet and byte counts go down by the
    message, cut or not, and the control data has its last packet. *)
Theorem rcvbuf_readMessage st s cs nr o len ctrl (Hinv : inv st s cs nr o) (Hnr : (0 < nr)%nat) (Hlen : 0 <= len)
  (Hapi : m_bMessageAPI st = true) :
  exists k st' f ctrl', head_message true cs = Some k /\ (1 <= k <= nr)%nat /\
    let msg := payload (take k cs) in
    readMessage len ctrl st = Some (st', take (Z.to_nat len) msg, ctrl', Z.min len (zlen msg)) /\
    inv st' (s + Z.of_nat (k + f)) (shift (k + f) cs) (nr - (k + f)) o /\
    (forall i, (k <= i < k + f)%nat -> filler (status (cell_at cs i)) = true) /\
    filler (status (cell_at cs (k + f))) = false /\
    m_iPktsCount st' = m_iPktsCount st - Z.of_nat k /\ m_iBytesCount st' = m_iBytesCount st - zlen msg /\
    pktseq <$> ctrl' = (fun _ => seq_of (s + Z.of_nat k - 1)) <$> ctrl.
Proof. by apply read_message_ok. Qed.

(** ** Reading the byte stream *)

Lemma messages_stream l n : (forall k, (k < n)%nat -> has_packet (cell_at l k) = true) -> messages false l n.
Proof.
  revert l. induction n as [|n IH]; intros l H; [constructor|].
  destruct l as [|e l]; [by specialize (H O ltac:(lia))|]. pose proof (H O ltac:(lia)) as He. change (cell_at (e :: l) 0) with e in He.
  apply (messages_cons _ _ 1).
  - unfold head_message, msg_starts, msg_end. by rewrite He.
  - apply IH. intros k Hk. exact (H (S k) ltac:(lia)).
Qed.

(** The bytes that can be read: the payloads up to the first packet that
    cannot be read, without those of the first packet already read. *)
Definition stream st cs (nr : nat) : list Z := drop (Z.to_nat (m_iNotch st)) (payload (take nr cs)).

Definition notch_ok st cs (nr : nat) : Prop :=
  m_iNotch st = 0 \/ (0 < nr)%nat /\ 0 <= m_iNotch st < zlen (m_pcData (packet_of (cell_at cs 0))).

(** The buffer after a packet at the start has been read to its end. *)
Definition pass_state st : t (Q := Q) :=
  let st1 := set_iNotch 0 (releaseUnitInPos (m_iStartPos st) st) in
  set_start (incseq (m_iStartSeqNo st1)) (incPos st1 (m_iStartPos st) 1) (m_iMaxPosOff st1 - 1) st1.

Lemma pass_state_ok st s e cs o : rep st s (e :: cs) o -> ooo_mode st = false -> m_iStartSeqNo st = seq_of s ->
  rep (pass_state st) (s + 1) (cs ++ [no_entry]) o /\ stable st (pass_state st) /\
  m_iStartPos (pass_state st) = pos_of st 1 /\ m_iStartSeqNo (pass_state st) = seq_of (s + 1) /\
  m_iMaxPosOff (pass_state st) = m_iMaxPosOff st - 1 /\ m_iNotch (pass_state st) = 0.
Proof.
  intros [Hc Hn] Hmode Hseq. assert (He : (e :: cs) !! Z.to_nat 0 = Some e) by done.
  pose proof (core_release _ _ _ _ _ _ Hc He ltac:(lia)) as Hc1. pose proof (frame_release st 0) as Hf.
  rewrite (pos_of_0 _ _ _ _ Hc) in Hc1, Hf. change (Z.to_nat 0) with O in Hc1. cbn [insert list_insert] in Hc1.
  unfold pass_state. set (st0 := releaseUnitInPos (m_iStartPos st) st) in *. set (st1 := set_iNotch 0 st0).
  assert (Hf1 : frame st st1) by (etrans; [exact Hf|by split]).
  assert (Hrep1 : rep st1 s (no_entry :: cs) o).
  { split; [by eapply core_ext|]. unfold num_ok in *. rewrite (frame_mode _ _ Hf1), Hmode in *. done. }
  assert (Hp : incPos st1 (m_iStartPos st) 1 = pos_of st1 1) by (unfold incPos, pos_of; by rewrite (f_pos _ _ Hf1)).
  rewrite Hp, (f_seq _ _ Hf1), Hseq, incseq_seq_of. split_and!; try done.
  - by apply (rep_advance st1 s no_entry).
  - etrans; [apply frame_stable, Hf1|by split].
  - cbn [m_iStartPos set_start]. by apply frame_pos_of.
Qed.

Lemma buffer_step_eq now len end_pos st dst rs e s cs o : rep st s (e :: cs) o -> has_packet e = true -> isTsbPd st = false ->
  m_iStartPos st <> end_pos -> 0 < rs ->
  let L := zlen (m_pcData (packet_of e)) - m_iNotch st in
  let bytes := take (Z.to_nat (Z.min L rs)) (drop (Z.to_nat (m_iNotch st)) (m_pcData (packet_of e))) in
  let dst' := (copyBytesToBuf bytes (len - rs) dst).1 in
  buffer_step copyBytesToBuf now len end_pos (st, dst, rs, m_iStartPos st) =
    inl (if rs >=? L then (pass_state st, dst', rs - Z.min L rs, m_iStartPos (pass_state st))
         else (set_iNotch (m_iNotch st + rs) st, dst', rs - Z.min L rs, m_iStartPos st)).
Proof.
  intros [Hc _] Hp Htb Hend Hrs L bytes dst'. assert (He : (e :: cs) !! Z.to_nat 0 = Some e) by done.
  destruct (unit_at_cell _ _ _ _ _ _ Hc He ltac:(lia)) as [Hu _]. rewrite (pos_of_0 _ _ _ _ Hc) in Hu.
  unfold buffer_step. rewrite (proj2 (Z.eqb_neq _ _) Hend), (proj2 (Z.leb_gt _ _) Hrs). cbn [orb].
  unfold CRcvBuffer.has_unit, packetAt. rewrite Hu. unfold has_packet in Hp. rewrite Hp, Htb. cbn [negb andb].
  change (from_option m_Packet no_packet (pUnit e)) with (packet_of e). unfold getLength.
  fold L. fold bytes. unfold dst', copyBytesToBuf. cbn [fst negb]. by destruct (rs >=? L).
Qed.

(** What [copyBytesToBuf] does to the bytes behind those copied before. *)
Lemma copy_next (A bytes dst : list Z) len rs : zlen A = len - rs -> 0 <= len - rs -> zlen bytes <= rs -> len <= zlen dst ->
  (copyBytesToBuf bytes (len - rs) (A ++ drop (Z.to_nat (len - rs)) dst)).1 =
  (A ++ bytes) ++ drop (Z.to_nat (len - rs) + length bytes) dst.
Proof.
  intros HA Hl Hb Hd. unfold copyBytesToBuf. cbn [fst].
  rewrite take_app_length' by lia. rewrite <- app_assoc. do 2 f_equal.
  rewrite drop_app_ge by lia. rewrite drop_drop. f_equal. lia.
Qed.

Lemma stream_cons st e cs nr : m_iNotch st <= zlen (m_pcData (packet_of e)) ->
  stream st (e :: cs) (S nr) = drop (Z.to_nat (m_iNotch st)) (m_pcData (packet_of e)) ++ payload (take nr cs).
Proof.
  intros Hn. unfold stream. cbn [take]. change (e :: take nr cs) with ([e] ++ take nr cs). rewrite payload_app.
  assert (payload [e] = m_pcData (packet_of e)) as -> by (unfold payload; cbn; apply app_nil_r).
  by rewrite drop_app_le by lia.
Qed.

(** What the loop of [readBufferTo] has done when [n] packets have been read
    to their end. *)
Definition read_bytes st s cs (nr : nat) o (rs : Z) st' (n : nat) : Prop :=
  (n <= nr)%nat /\ rep st' (s + Z.of_nat n) (shift n cs) o /\ stable st st' /\ m_iStartPos st' = pos_of st (Z.of_nat n) /\
  m_iStartSeqNo st' = seq_of (s + Z.of_nat n) /\ m_iMaxPosOff st' = m_iMaxPosOff st - Z.of_nat n /\
  stream st' (shift n cs) (nr - n) = drop (Z.to_nat rs) (stream st cs nr) /\ notch_ok st' (shift n cs) (nr - n) /\
  m_iBytesCount st' = m_iBytesCount st /\ m_iPktsCount st' = m_iPktsCount st.

Lemma read_bytes_none st s cs nr o rs : rep st s cs o -> m_iStartSeqNo st = seq_of s -> notch_ok st cs nr ->
  drop (Z.to_nat rs) (stream st cs nr) = stream st cs nr -> read_bytes st s cs nr o rs st 0.
Proof.
  intros Hrep Hseq Hn Hd. unfold read_bytes. rewrite shift_0, Hd, Nat.sub_0_r, Z.add_0_r, Z.sub_0_r.
  split_and!; try done; [lia|]. symmetry. exact (pos_of_0 _ _ _ _ (proj1 Hrep)).
Qed.

(** One packet read to its end, and then the rest. *)
Lemma read_bytes_pass st s e cs nr o rs st' n : rep st s (e :: cs) o -> ooo_mode st = false -> m_iStartSeqNo st = seq_of s ->
  m_iNotch st <= zlen (m_pcData (packet_of e)) -> zlen (m_pcData (packet_of e)) - m_iNotch st <= rs ->
  0 <= m_iNotch st -> (nr <= length cs)%nat ->
  read_bytes (pass_state st) (s + 1) (cs ++ [no_entry]) nr o (rs - (zlen (m_pcData (packet_of e)) - m_iNotch st)) st' n ->
  read_bytes st s (e :: cs) (S nr) o rs st' (S n).
Proof.
  intros Hrep Hmode Hseq HnL HL Hn0 Hl (Hn & Hr & Hs & Hp & Hq & Ho & Hstr & Hnt & Hb & Hk).
  destruct (pass_state_ok st s e cs o Hrep Hmode Hseq) as (_ & Hs1 & Hp1 & _ & Ho1 & Hnt1).
  unfold read_bytes. rewrite <- (shift_1 e cs), shift_shift in Hr, Hstr, Hnt. change (1 + n)%nat with (S n) in *.
  replace (s + Z.of_nat (S n)) with (s + 1 + Z.of_nat n) by lia. split_and!; try done.
  - lia.
  - by etrans.
  - rewrite Hp, (pos_of_moved _ _ _ _ Hs1 Hp1). f_equal. lia.
  - lia.
  - cbn [Nat.sub]. rewrite Hstr. rewrite stream_cons by lia. unfold stream. rewrite Hnt1, shift_1, take_app_le by done.
    change (drop (Z.to_nat 0) ?l) with l. rewrite drop_app_ge by (rewrite length_drop; lia). f_equal. rewrite length_drop. lia.
Qed.

Lemma buffer_loop_ok now len end_pos dst0 nr : forall m st s cs o A rs,
  rep st s cs o -> isTsbPd st = false -> m_bMessageAPI st = false -> m_iStartSeqNo st = seq_of s ->
  (forall k, (k < nr)%nat -> has_packet (cell_at cs k) = true) -> notch_ok st cs nr ->
  Z.of_nat nr < m_szSize st -> end_pos = pos_of st (Z.of_nat nr) -> (S nr < m)%nat ->
  0 <= rs <= len -> len <= zlen dst0 -> zlen A = len - rs ->
  exists st' n, loop m (buffer_step copyBytesToBuf now len end_pos) (st, A ++ drop (Z.to_nat (len - rs)) dst0, rs, m_iStartPos st) =
      Some (st', (A ++ take (Z.to_nat rs) (stream st cs nr)) ++ drop (Z.to_nat (len - Z.max 0 (rs - zlen (stream st cs nr)))) dst0,
        Z.max 0 (rs - zlen (stream st cs nr)), Stop) /\
    read_bytes st s cs nr o rs st' n.
Proof.
  induction nr as [|nr IH]; intros m st s cs o A rs Hrep Htb Hapi Hseq Hpk Hnotch Hsz Hend Hm Hrs Hdst HA.
  - pose proof (pos_of_0 _ _ _ _ (proj1 Hrep)) as Hp0. change (Z.of_nat 0) with 0 in Hend. rewrite Hp0 in Hend.
    assert (stream st cs 0 = []) as Es by (apply drop_nil).
    destruct m as [|m]; [lia|]. exists st, O. cbn [loop]. unfold buffer_step. rewrite Hend, Z.eqb_refl. cbn [orb].
    rewrite Es, take_nil, app_nil_r. cbn [length]. split.
    + replace (Z.max 0 (rs - Z.of_nat 0)) with rs by lia. done.
    + unfold read_bytes. rewrite shift_0, Es, drop_nil, Z.add_0_r. cbn [Nat.sub Z.of_nat]. split_and!; try done; lia.
  - pose proof (core_length _ _ _ _ (proj1 Hrep)) as Hl. destruct cs as [|e cs]; [cbn [length] in Hl; lia|]. cbn [length] in Hl.
    pose proof (Hpk O ltac:(lia)) as He. change (cell_at (e :: cs) 0) with e in He.
    assert (Hnt : 0 <= m_iNotch st <= zlen (m_pcData (packet_of e))) by (destruct Hnotch as [->|[_ ?]]; [|change (cell_at (e :: cs) 0) with e in *]; lia).
    assert (Hmode : ooo_mode st = false) by (unfold ooo_mode; by rewrite Hapi, andb_false_r).
    destruct m as [|m]; [lia|]. cbn [loop]. destruct (Z.eq_dec rs 0) as [->|Hrs0].
    { exists st, O. unfold buffer_step. rewrite orb_true_r. cbn [take]. rewrite app_nil_r.
      replace (Z.max 0 (0 - _)) with 0 by lia. split; [done|]. by apply read_bytes_none. }
    assert (Hne : m_iStartPos st <> end_pos).
    { rewrite Hend, <- (pos_of_0 _ _ _ _ (proj1 Hrep)). intros E. apply (pos_of_inj _ _ _ _ _ _ (proj1 Hrep)) in E; lia. }
    rewrite (buffer_step_eq now len end_pos st _ rs e s cs o) by (done || lia).
    pose proof (stream_cons st e cs nr ltac:(lia)) as Estr. set (q := drop _ _) in *.
    assert (HqL : zlen (m_pcData (packet_of e)) - m_iNotch st = zlen q) by (unfold q; rewrite length_drop; lia).
    rewrite HqL, copy_next by (rewrite ?length_take; lia).
    rewrite Z.geb_leb. destruct (Z.leb_spec (zlen q) rs) as [HL|HL].
    + rewrite Z.min_l, Nat2Z.id, take_ge by lia.
      destruct (pass_state_ok st s e cs o Hrep Hmode Hseq) as (Hrep1 & Hs1 & Hp1 & Hq1 & _ & Hn1).
      assert (Es1 : stream (pass_state st) (cs ++ [no_entry]) nr = payload (take nr cs)).
      { unfold stream. rewrite Hn1, take_app_le by lia. done. }
      destruct (IH m (pass_state st) (s + 1) (cs ++ [no_entry]) o (A ++ q) (rs - zlen q)) as (st' & n & E & Hr);
        rewrite ?(t_tsbpd _ _ Hs1), ?(t_api _ _ Hs1), ?(t_size _ _ Hs1), ?length_app; try done; try lia.
      { intros k Hk. rewrite <- (shift_1 e cs), cell_at_shift. apply (Hpk (S k)). lia. }
      { by left. }
      { rewrite Hend, (pos_of_moved _ _ _ _ Hs1 Hp1). f_equal. lia. }
      exists st', (S n). split.
      * replace (Z.to_nat (len - rs) + length q)%nat with (Z.to_nat (len - (rs - zlen q))) by lia. rewrite E, Es1, Estr.
        rewrite length_app, (take_app_ge q) by lia. rewrite <- !app_assoc. replace (Z.to_nat (rs - zlen q)) with (Z.to_nat rs - length q)%nat by lia.
        rewrite Nat2Z.inj_add, Z.sub_add_distr. done.
      * apply read_bytes_pass; rewrite ?HqL; try done; lia.
    + rewrite Z.min_r by lia. destruct m as [|m]; [lia|]. cbn [loop]. exists (set_iNotch (m_iNotch st + rs) st), O.
      unfold buffer_step. rewrite Z.sub_diag, orb_true_r, Estr, length_take, length_app.
      replace (Z.max 0 _) with 0 by lia. rewrite (take_app_le q) by lia.
      replace (Z.to_nat (len - rs) + _)%nat with (Z.to_nat (len - 0)) by lia. split; [done|].
      unfold read_bytes. rewrite shift_0, Nat.sub_0_r, Z.add_0_r. split_and!; try done; try lia.
      * by eapply rep_ext.
      * symmetry. exact (pos_of_0 _ _ _ _ (proj1 Hrep)).
      * cbn [m_iMaxPosOff set_iNotch]. lia.
      * unfold stream. cbn [m_iNotch set_iNotch]. rewrite drop_drop. f_equal. lia.
      * right. change (cell_at (e :: cs) 0) with e. cbn [m_iNotch set_iNotch]. lia.
Qed.

(** C27. In stream mode without delivery times, [readBuffer] always returns
    and is a read from the head of the byte stream: it writes the first
    [len] readable bytes, or all of them, to the destination and nothing
    behind them, returns their number, and what remains readable is the
    stream without them; packets read to their end leave the buffer with
    their units.  The packet count goes down by exactly one, whatever the
    number of packets read. *)
Theorem rcvbuf_readBuffer st s cs nr o now len dst (Hinv : inv st s cs nr o) (Htb : isTsbPd st = false)
  (Hapi : m_bMessageAPI st = false) (Hnotch : notch_ok st cs nr) (Hlen : 0 <= len <= zlen dst) :
  let avail := stream st cs nr in
  let got := Z.min len (zlen avail) in
  exists st' n, readBuffer now len dst st = Some (st', take (Z.to_nat len) avail ++ drop (Z.to_nat got) dst, got) /\
    (n <= nr)%nat /\ inv st' (s + Z.of_nat n) (shift n cs) (nr - n) o /\ notch_ok st' (shift n cs) (nr - n) /\
    stream st' (shift n cs) (nr - n) = drop (Z.to_nat len) avail /\
    m_iBytesCount st' = m_iBytesCount st - got /\ m_iPktsCount st' = m_iPktsCount st - 1.
Proof.
  intros avail got. pose proof Hinv as [Hrep Hseq Hoff Hbey Hnon Hnr Hms]. pose proof (proj1 Hrep) as Hc.
  pose proof (core_length _ _ _ _ Hc) as Hl. rewrite Hapi in Hms. pose proof (messages_packets _ _ _ Hms) as Hpk.
  destruct (buffer_loop_ok now len (m_iFirstNonreadPos st) dst nr (fuel st) st s cs o [] len)
    as (st1 & n & E1 & Hn & Hrep1 & Hs1 & Hp1 & Hq1 & Ho1 & Hstr & Hnt & Hb & Hk); try done; try lia.
  { unfold fuel, m_szSize in *. lia. }
  { cbn. lia. }
  rewrite Z.sub_diag in E1. fold avail in E1. cbn [app] in E1. rewrite drop_0 in E1.
  set (rs := Z.max 0 (len - zlen avail)) in *. replace (len - rs) with got in E1 by (unfold got, rs; lia).
  set (st2 := countBytes (-1) (- got) st1).
  assert (Hmoved : moved st s cs nr o n st2).
  { apply moved_ok; try done; [by eapply rep_ext|by destruct Hs1; split|cbn [m_iMaxPosOff st2 countBytes set_counts]; lia|].
    intros _. rewrite Hapi. apply messages_stream. intros k Hkn. unfold cell_at. rewrite lookup_drop. apply Hpk. lia. }
  unfold moved in Hmoved.
  assert (E : readBuffer now len dst st = Some (if negb (isInRange (m_iStartPos st2) (m_iMaxPosOff st2) (m_szSize st2) (m_iFirstNonreadPos st2))
    then set_iFirstNonreadPos (m_iStartPos st2) st2 else st2, take (Z.to_nat len) avail ++ drop (Z.to_nat got) dst, got)).
  { unfold readBuffer, readBufferTo. rewrite E1. cbn [mbind option_bind].
    replace (len - rs) with got by (unfold got, rs; lia). reflexivity. }
  rewrite E. destruct (isInRange _ _ _ _); cbn [negb]; [|lia].
  exists st2, n. split_and!; try done; [by destruct Hmoved| |]; unfold st2; cbn [m_iBytesCount m_iPktsCount countBytes set_counts]; lia.
Qed.
End Facts.

(** ** Examples *)

(** A message of two packets, or two packets of the stream. *)
Definition two (api : bool) : t (Q := CUnitQueue.t) :=
  put (unit 1 (pkt 11 PB_LAST 1 [4; 5])) (put (unit 0 (pkt 10 PB_FIRST 1 [1; 2; 3])) (buffer api)).
Definition two_cells : list Entry :=
  <[1%nat := mkEntry (Some (unit 1 (pkt 11 PB_LAST 1 [4; 5]))) EntryState_Avail]>
    (<[0%nat := mkEntry (Some (unit 0 (pkt 10 PB_FIRST 1 [1; 2; 3]))) EntryState_Avail]> (replicate 8 no_entry)).

Lemma two_inv api : exists n, inv (two api) 10 two_cells n ∅ /\ head_message (m_bMessageAPI (two api)) (drop n two_cells) = None.
Proof.
  destruct (free_unit_ok (CUnitQueue.init 8) 0 ltac:(done) eq_refl) as [Hh Hf].
  destruct (put_inv (buffer api) _ 0 0 0 (pkt 10 PB_FIRST 1 [1; 2; 3]) (buffer_inv api) eq_refl eq_refl eq_refl Hh Hf) as (n & H1 & _).
  set (st1 := put (unit 0 (pkt 10 PB_FIRST 1 [1; 2; 3])) (buffer api)) in *.
  destruct (free_unit_ok (m_pUnitQueue st1) 1) as [Hh1 Hf1]; [by destruct api|by destruct api|].
  destruct (put_inv st1 _ n 1 1 (pkt 11 PB_LAST 1 [4; 5]) H1) as (n' & H2 & H3); try done; [by destruct api|].
  exists n'. split; [exact H2|]. by destruct api.
Qed.

Lemma rcvbuf_readMessage_witness :
  exists st' ctrl', readMessage 4 (Some (mkCtrl 0 0 0)) (two true) = Some (st', [1; 2; 3; 4], ctrl', 4) /\
    m_iPktsCount st' = 0 /\ m_iBytesCount st' = 0 /\ m_iStartSeqNo st' = 12.
Proof.
  destruct (two_inv true) as (n & Hinv & Hn). destruct n as [|n]; [vm_compute in Hn; discriminate|].
  destruct (rcvbuf_readMessage (two true) 10 two_cells (S n) ∅ 4 (Some (mkCtrl 0 0 0)) Hinv) as (k & st' & f & ctrl' & Hk & _ & E & _); [lia|lia|vm_compute; reflexivity|].
  vm_compute in Hk. injection Hk as <-. exists st', ctrl'. split; [exact E|].
  vm_compute in E. injection E as <- <-. done.
Defined.

Lemma rcvbuf_readBuffer_witness :
  exists st' , readBuffer 0 4 [0; 0; 0; 0; 0; 0] (two false) = Some (st', [1; 2; 3; 4; 0; 0], 4) /\ m_iNotch st' = 1 /\
    m_iPktsCount st' = 1 /\ m_iStartSeqNo st' = 11.
Proof.
  destruct (two_inv false) as (n & Hinv & Hn). assert (n = 2)%nat as ->.
  { pose proof (messages_packets _ _ _ (i_msgs _ _ _ _ _ Hinv)) as Hp.
    destruct n as [|[|[|n]]]; [vm_compute in Hn; discriminate|vm_compute in Hn; discriminate|done|].
    specialize (Hp 2%nat ltac:(lia)). vm_compute in Hp. discriminate. }
  destruct (rcvbuf_readBuffer (two false) 10 two_cells 2 ∅ 0 4 [0; 0; 0; 0; 0; 0] Hinv) as (st' & n & E & _).
  1-2: vm_compute; reflexivity.
  { left. vm_compute. reflexivity. }
  { cbn [length]. lia. }
  vm_compute in E. exists st'. split; [vm_compute; exact E|]. injection E as <-. done.
Defined.

(** The run of the next theorem: the buffer with messages at 10 and 12, after
    the sender's request to drop 11, after a read, and when [updateNonreadPos]
    is called then. *)
Definition run_put : t (Q := CUnitQueue.t) :=
  put (unit 1 (pkt 12 PB_SOLO 3 [7])) (put (unit 0 (pkt 10 PB_SOLO 1 [5])) (buffer true)).
Definition run_drop := default run_put (fst <$> dropMessage 11 11 2 DROP_EXISTING run_put).
Definition run_read := default run_put ((fun r => r.1.1.1) <$> readMessage 100 None run_drop).
Definition run_update := default run_put (updateNonreadPos run_read).

(** A message that is complete stays out of reach of the reader: the
    packet between two messages has been dropped at the request of the
    sender, the first message is read, the start moves over the dropped
    packet to the second message, but the position of the first packet that
    cannot be read is only set to the start, since the call that would move it
    on is commented out.  The buffer reports nothing to read and [readMessage]
    gives nothing; that call would have made the message readable, and so does
    the next insertion. *)
Theorem rcvbuf_hidden_message :
  dropMessage 11 11 2 DROP_EXISTING run_put = Some (run_drop, 1) /\
  readMessage 100 None run_drop = Some (run_read, [5], None, 1) /\
  (getSeqNo (packetAt run_read (m_iStartPos run_read)) = 12 /\ getMsgBoundary (packetAt run_read (m_iStartPos run_read)) = PB_SOLO /\
    m_iStartSeqNo run_read = 12) /\
  hasAvailablePackets run_read = false /\ isRcvDataReady 0 run_read = Some false /\
  readMessage 100 None run_read = Some (run_read, [], None, 0) /\
  updateNonreadPos run_read = Some run_update /\
  (fun r => (r.1.1.2, r.2)) <$> readMessage 100 None run_update = Some ([7], 1).
Proof. split_and!; vm_compute; reflexivity. Qed.
