(* ===== verification/SndBuffer.v ===== *)
(** [CSndBuffer] of buffer_snd.h and buffer_snd.cpp: the circular list of
    blocks that holds the packets from their submission to their
    acknowledgement.  A block is named by its index among all the blocks ever
    allocated, [m_pNext] is such an index, and the physical memory that a block
    points to is a field of it, since no two blocks share memory.  Times are
    microseconds; the clock, the input file and the success of [new] are
    arguments.  The moving averages and the rate estimator, which nothing here
    reads, are left out. *)
From S2P Require Import Prelude SeqNo Packet.
Import CSeqNo CPacket.

Module CSndBuffer.
Record Block := mkBlock {
  m_pcData : list Z;
  m_iLength : Z;
  m_iMsgNoBitset : Z;
  m_iSeqNo : Z;
  m_tsOriginTime : Z;
  m_tsRexmitTime : Z;
  m_iTTL : Z;
  m_pNext : Z;
}.

Record t := mk {
  blocks : list Block;
  m_pFirstBlock : Z;
  m_pCurrBlock : Z;
  m_pLastBlock : Z;
  m_pBuffer_m_iSize : Z;   (** the size of the first physical buffer *)
  m_iNextMsgNo : Z;
  m_iSize : Z;
  m_iBlockLen : Z;
  m_iAuthTagSize : Z;
  m_iCount : Z;
  m_iBytesCount : Z;
  m_tsLastOriginTime : Z;
}.

(** The fields of [SRT_MSGCTRL] that the buffer uses. *)
Record SRT_MSGCTRL := mkCtrl { msgno : Z; pktseq : Z; srctime : Z; msgttl : Z; inorder : bool }.

Record DropRange := mkDrop { seqno_begin : Z; seqno_end : Z; drop_msgno : Z }.

Definition SRT_MSGNO_NONE : Z := -1.
Definition SRT_MSGNO_CONTROL : Z := 0.
Definition SRT_MSGTTL_INF : Z := -1.
Definition READ_NONE : Z := 0.
Definition READ_DROP : Z := -1.

(** [++MsgNo(n)]. *)
Definition next_MsgNo (n : Z) : Z := RollNumber.incr 25 1 n.

(** A block as [new] leaves it; the fields that the code sets before it
    reads them have no meaning yet. *)
Definition new_block (iBlockLen next : Z) : Block :=
  mkBlock (replicate (Z.to_nat iBlockLen) 0) 0 0 0 0 0 0 next.
#[export] Instance Block_inhabited : Inhabited Block := populate (new_block 0 0).

Definition set_next (next : Z) (b : Block) : Block :=
  mkBlock (m_pcData b) (m_iLength b) (m_iMsgNoBitset b) (m_iSeqNo b) (m_tsOriginTime b) (m_tsRexmitTime b) (m_iTTL b) next.
Definition set_bitset (bits : Z) (b : Block) : Block :=
  mkBlock (m_pcData b) (m_iLength b) bits (m_iSeqNo b) (m_tsOriginTime b) (m_tsRexmitTime b) (m_iTTL b) (m_pNext b).
Definition set_rexmit (ts : Z) (b : Block) : Block :=
  mkBlock (m_pcData b) (m_iLength b) (m_iMsgNoBitset b) (m_iSeqNo b) (m_tsOriginTime b) ts (m_iTTL b) (m_pNext b).

Definition set_blocks (bs : list Block) (st : t) : t :=
  mk bs (m_pFirstBlock st) (m_pCurrBlock st) (m_pLastBlock st) (m_pBuffer_m_iSize st) (m_iNextMsgNo st) (m_iSize st)
    (m_iBlockLen st) (m_iAuthTagSize st) (m_iCount st) (m_iBytesCount st) (m_tsLastOriginTime st).
Definition set_pos (first curr last : Z) (st : t) : t :=
  mk (blocks st) first curr last (m_pBuffer_m_iSize st) (m_iNextMsgNo st) (m_iSize st)
    (m_iBlockLen st) (m_iAuthTagSize st) (m_iCount st) (m_iBytesCount st) (m_tsLastOriginTime st).
Definition set_counts (count bytes : Z) (st : t) : t :=
  mk (blocks st) (m_pFirstBlock st) (m_pCurrBlock st) (m_pLastBlock st) (m_pBuffer_m_iSize st) (m_iNextMsgNo st) (m_iSize st)
    (m_iBlockLen st) (m_iAuthTagSize st) count bytes (m_tsLastOriginTime st).
Definition set_iNextMsgNo (n : Z) (st : t) : t :=
  mk (blocks st) (m_pFirstBlock st) (m_pCurrBlock st) (m_pLastBlock st) (m_pBuffer_m_iSize st) n (m_iSize st)
    (m_iBlockLen st) (m_iAuthTagSize st) (m_iCount st) (m_iBytesCount st) (m_tsLastOriginTime st).
Definition set_tsLastOriginTime (ts : Z) (st : t) : t :=
  mk (blocks st) (m_pFirstBlock st) (m_pCurrBlock st) (m_pLastBlock st) (m_pBuffer_m_iSize st) (m_iNextMsgNo st) (m_iSize st)
    (m_iBlockLen st) (m_iAuthTagSize st) (m_iCount st) (m_iBytesCount st) ts.

Definition block (st : t) (p : Z) : Block := (blocks st).[p].
Definition next (st : t) (p : Z) : Z := m_pNext (block st p).
Definition upd_block (p : Z) (f : Block -> Block) (st : t) : t := set_blocks (aupd (blocks st) p f) st.

Definition getMsgSeq (b : Block) : Z := Z.land (u32 (m_iMsgNoBitset b)) MSGNO_SEQ_mask.

(** A chain of [n] new blocks from index [a] on, the last one with the
    pointer [last]. *)
Definition new_chain (iBlockLen a : Z) (n : nat) (last : Z) : list Block :=
  map (fun i => new_block iBlockLen (if (S i =? n)%nat then last else a + Z.of_nat i + 1)) (seq 0 n).

Definition init (size : nat) (maxpld authtag : Z) : t :=
  mk (new_chain maxpld 0 size 0) 0 0 0 (Z.of_nat size) 1 (Z.of_nat size) maxpld authtag 0 0 0.

Definition getMaxPacketLen (st : t) : Z := m_iBlockLen st - m_iAuthTagSize st.
Definition countNumPacketsRequired (iPldLen iPktLen : Z) : Z := Z.quot (iPldLen + iPktLen - 1) iPktLen.

Definition increase (st : t) : t :=
  let unitsize := m_pBuffer_m_iSize st in
  let nblk := zlen (blocks st) in
  let chain := new_chain (m_iBlockLen st) nblk (Z.to_nat unitsize) (next st (m_pLastBlock st)) in
  let bs := aupd (blocks st) (m_pLastBlock st) (set_next nblk) ++ chain in
  mk bs (m_pFirstBlock st) (m_pCurrBlock st) (m_pLastBlock st) (m_pBuffer_m_iSize st) (m_iNextMsgNo st)
    (m_iSize st + unitsize) (m_iBlockLen st) (m_iAuthTagSize st) (m_iCount st) (m_iBytesCount st) (m_tsLastOriginTime st).

(** The loop that makes room: the buffer, and whether the memory sufficed;
    [alloc k] says whether the allocation number [k] succeeds. *)
Definition increase_step (alloc : nat -> bool) (iNumBlocks : Z) (s : t * nat) : (t * nat) + (t * bool) :=
  let '(st, k) := s in
  if iNumBlocks + m_iCount st >=? m_iSize st then
    if alloc k then inl (increase st, S k) else inr (st, false)
  else inr (st, true).

Definition make_room (alloc : nat -> bool) (iNumBlocks : Z) (st : t) : option (t * bool) :=
  loop (S (Z.to_nat (iNumBlocks + m_iCount st))) (increase_step alloc iNumBlocks) (st, O).

(** [bits |= o] for an [int32_t] and a [uint32_t]. *)
Definition or32 (bits o : Z) : Z := i32 (Z.lor (u32 bits) o).

(** The message bits of packet [i] of [iNumBlocks]. *)
Definition boundary_bits (bits : Z) (i iNumBlocks : Z) : Z :=
  let bits := if i =? 0 then or32 bits (PacketBoundaryBits PB_FIRST) else bits in
  if i =? iNumBlocks - 1 then or32 bits (PacketBoundaryBits PB_LAST) else bits.

(** [memcpy] to the start of the memory of a block. *)
Definition memcpy (dst src : list Z) : list Z := src ++ drop (length src) dst.

(** One iteration of the loop of [addBuffer]: packet [i] goes into block [s]. *)
Definition add_block (data : list Z) (iPktLen iNumBlocks ttl inorder_bit : Z) (i s w_seqno : Z) (st : t) : t :=
  let len := zlen data in
  let pktlen := len - i * iPktLen in
  let pktlen := if pktlen >? iPktLen then iPktLen else pktlen in
  upd_block s (fun b =>
    mkBlock (memcpy (m_pcData b) (take (Z.to_nat pktlen) (drop (Z.to_nat (i * iPktLen)) data)))
      pktlen (boundary_bits (Z.lor (m_iNextMsgNo st) inorder_bit) i iNumBlocks) w_seqno
      (m_tsLastOriginTime st) 0 ttl (m_pNext b)) st.

Fixpoint add_blocks (data : list Z) (iPktLen iNumBlocks ttl inorder_bit : Z) (n : nat) (i s w_seqno : Z) (st : t) :
    t * Z * Z :=
  match n with
  | O => (st, s, w_seqno)
  | S n =>
      let st := add_block data iPktLen iNumBlocks ttl inorder_bit i s w_seqno st in
      add_blocks data iPktLen iNumBlocks ttl inorder_bit n (i + 1) (next st s) (incseq w_seqno) st
  end.

(** [addBuffer]: the control data as it is returned, or [None] where [increase]
    throws. *)
Definition addBuffer (alloc : nat -> bool) (tnow : Z) (data : list Z) (w_mctrl : SRT_MSGCTRL) (st : t) :
    option (t * option SRT_MSGCTRL) :=
  let iPktLen := getMaxPacketLen st in
  let iNumBlocks := countNumPacketsRequired (zlen data) iPktLen in
  '(st, room) ← make_room alloc iNumBlocks st;
  if negb room then Some (st, None) else
  let inorder_bit := if inorder w_mctrl then MSGNO_PACKET_INORDER_mask else 0 in
  let st := set_tsLastOriginTime (if negb (srctime w_mctrl =? 0) then srctime w_mctrl else tnow) st in
  let w_srctime := m_tsLastOriginTime st in
  let '(w_msgno, st) := if msgno w_mctrl =? SRT_MSGNO_NONE then (m_iNextMsgNo st, st)
                        else (msgno w_mctrl, set_iNextMsgNo (msgno w_mctrl) st) in
  let '(st, s, w_seqno) :=
    add_blocks data iPktLen iNumBlocks (msgttl w_mctrl) inorder_bit (Z.to_nat iNumBlocks) 0 (m_pLastBlock st) (pktseq w_mctrl) st in
  let st := set_pos (m_pFirstBlock st) (m_pCurrBlock st) s st in
  let st := set_counts (m_iCount st + iNumBlocks) (m_iBytesCount st + zlen data) st in
  Some (set_iNextMsgNo (next_MsgNo (m_iNextMsgNo st)) st,
        Some (mkCtrl w_msgno w_seqno w_srctime (msgttl w_mctrl) (inorder w_mctrl))).

(** An input file: the bytes still to come, and whether one of the states
    bad, fail or eof is set; [read] sets it when the file has too few. *)
Record ifstream := mkStream { rest : list Z; stopped : bool }.
Definition ifs_read (n : Z) (ifs : ifstream) : list Z * ifstream :=
  (take (Z.to_nat n) (rest ifs), mkStream (drop (Z.to_nat n) (rest ifs)) (stopped ifs || (zlen (rest ifs) <? n))).

(** The loop of [addBufferFromFile], with the count [n] of iterations left. *)
Fixpoint add_from_file (len iPktLen iNumBlocks : Z) (n : nat) (i s total : Z) (ifs : ifstream) (st : t) :
    t * Z * Z * ifstream :=
  match n with
  | O => (st, s, total, ifs)
  | S n =>
      if stopped ifs then (st, s, total, ifs) else
      let pktlen := len - i * iPktLen in
      let pktlen := if pktlen >? iPktLen then iPktLen else pktlen in
      let '(bytes, ifs) := ifs_read pktlen ifs in
      let gcount := zlen bytes in
      let st := upd_block s (fun b => mkBlock (memcpy (m_pcData b) bytes) (m_iLength b) (m_iMsgNoBitset b) (m_iSeqNo b)
                  (m_tsOriginTime b) (m_tsRexmitTime b) (m_iTTL b) (m_pNext b)) st in
      if gcount <=? 0 then (st, s, total, ifs) else
      let st := upd_block s (fun b => mkBlock (m_pcData b) gcount
                  (boundary_bits (Z.lor (m_iNextMsgNo st) MSGNO_PACKET_INORDER_mask) i iNumBlocks) (m_iSeqNo b)
                  (m_tsOriginTime b) (m_tsRexmitTime b) SRT_MSGTTL_INF (m_pNext b)) st in
      add_from_file len iPktLen iNumBlocks n (i + 1) (next st s) (total + gcount) ifs st
  end.

(** The buffer, the rest of the file, and the number of bytes added, or [None]
    where [increase] throws. *)
Definition addBufferFromFile (alloc : nat -> bool) (ifs : ifstream) (len : Z) (st : t) : option (t * ifstream * option Z) :=
  let iPktLen := getMaxPacketLen st in
  let iNumBlocks := countNumPacketsRequired len iPktLen in
  '(st, room) ← make_room alloc iNumBlocks st;
  if negb room then Some (st, ifs, None) else
  let '(st, s, total, ifs) := add_from_file len iPktLen iNumBlocks (Z.to_nat iNumBlocks) 0 (m_pLastBlock st) 0 ifs st in
  let st := set_pos (m_pFirstBlock st) (m_pCurrBlock st) s st in
  let st := set_counts (m_iCount st + iNumBlocks) (m_iBytesCount st + total) st in
  let nextmsgno := m_iNextMsgNo st + 1 in
  Some (set_iNextMsgNo (if nextmsgno =? MSGNO_SEQ_mask then 1 else nextmsgno) st, ifs, Some total).

(** [count_milliseconds(now - origin) > ttl], for a packet with a limit. *)
Definition expired (now : Z) (b : Block) : bool :=
  (m_iTTL b >=? 0) && (Z.quot (now - m_tsOriginTime b) 1000 >? m_iTTL b).

(** The packet of a block: its first [len] bytes and its number. *)
Definition fill_packet (len : Z) (b : Block) (seqno bits : Z) (p : CPacket.t) : CPacket.t :=
  CPacket.mk (u32 seqno) (u32 bits) (SRT_PH_TIMESTAMP p) (SRT_PH_ID p) (take (Z.to_nat len) (m_pcData b)).

(** One iteration of [readData] for a new packet; the state has the packet, the
    time, the length and the number of packets skipped. *)
Definition read_step (clock : nat -> Z) (kflgs : Z) (s : t * CPacket.t * Z * Z * nat) :
    (t * CPacket.t * Z * Z * nat) + (t * CPacket.t * Z * Z * nat) :=
  let '(st, w_packet, w_srctime, readlen, w_seqnoinc) := s in
  if m_pCurrBlock st =? m_pLastBlock st then inr s else
  let p := m_pCurrBlock st in
  let readlen := m_iLength (block st p) in
  let '(st, readlen) :=
    if kflgs =? -1 then (st, 0)
    else (upd_block p (fun b => set_bitset (or32 (m_iMsgNoBitset b) (EncryptionKeyBits (u32 kflgs))) b) st, readlen) in
  let b := block st p in
  let w_packet := fill_packet (m_iLength b) b (m_iSeqNo b) (m_iMsgNoBitset b) w_packet in
  let w_srctime := m_tsOriginTime b in
  let st := set_pos (m_pFirstBlock st) (next st p) (m_pLastBlock st) st in
  if expired (clock w_seqnoinc) b then inl (st, w_packet, w_srctime, 0, S w_seqnoinc)
  else inr (st, w_packet, w_srctime, readlen, w_seqnoinc).

(** Every loop over the blocks passes each one at most once. *)
Definition fuel (st : t) : nat := S (length (blocks st)).

Definition readData (clock : nat -> Z) (kflgs : Z) (w_packet : CPacket.t) (w_srctime : Z) (st : t) :
    option (t * CPacket.t * Z * Z * nat) :=
  loop (fuel st) (read_step clock kflgs) (st, w_packet, w_srctime, 0, O).

Definition peekNextOriginal (st : t) : Z :=
  if m_pCurrBlock st =? m_pLastBlock st then 0 else m_tsOriginTime (block st (m_pCurrBlock st)).

(** [n] steps along the list. *)
Fixpoint advance (st : t) (n : nat) (p : Z) : Z :=
  match n with O => p | S n => advance st n (next st p) end.

Definition getMsgNoAt (offset : Z) (st : t) : Z :=
  if offset >=? m_iCount st then SRT_MSGNO_CONTROL
  else getMsgSeq (block st (advance st (Z.to_nat offset) (m_pFirstBlock st))).

(** The walk of [readData] for a retransmission, which stops at the last block. *)
Fixpoint advance_to_last (st : t) (n : nat) (p : Z) : Z :=
  match n with
  | O => p
  | S n => if p =? m_pLastBlock st then p else advance_to_last st n (next st p)
  end.

(** One iteration over the packets of an expired message: the position,
    [m_pCurrBlock], [msglen] and [move]. *)
Definition drop_step (st : t) (msgno : Z) (s : Z * Z * Z * bool) : (Z * Z * Z * bool) + (Z * Z * Z) :=
  let '(p, curr, msglen, move) := s in
  if negb (p =? m_pLastBlock st) && (msgno =? getMsgSeq (block st p)) then
    let move := if p =? curr then true else move in
    let p := next st p in
    inl (p, if move then p else curr, msglen + 1, move)
  else inr (p, curr, msglen).

Inductive rexmit_result :=
  | Rexmit_None
  | Rexmit_Drop (range : DropRange)
  | Rexmit_Data (packet : CPacket.t) (srctime : Z) (readlen : Z).

(** [readData] for the packet at [offset]; [tnow] and [trexmit] are the two
    readings of the clock. *)
Definition readData_rexmit (tnow trexmit offset : Z) (w_packet : CPacket.t) (st : t) : option (t * rexmit_result) :=
  let p := advance_to_last st (Z.to_nat offset) (m_pFirstBlock st) in
  if p =? m_pLastBlock st then Some (st, Rexmit_None) else
  let b := block st p in
  if expired tnow b then
    let msgno := getMsgSeq b in
    '(_, curr, msglen) ← loop (fuel st) (drop_step st msgno) (next st p, m_pCurrBlock st, 1, false);
    let seqno := getSeqNo w_packet in
    Some (set_pos (m_pFirstBlock st) curr (m_pLastBlock st) st,
          Rexmit_Drop (mkDrop seqno (incseq_by seqno (msglen - 1)) msgno))
  else
    let packet := CPacket.mk (SRT_PH_SEQNO w_packet) (u32 (m_iMsgNoBitset b)) (SRT_PH_TIMESTAMP w_packet) (SRT_PH_ID w_packet)
                    (take (Z.to_nat (m_iLength b)) (m_pcData b)) in
    Some (upd_block p (set_rexmit trexmit) st, Rexmit_Data packet (m_tsOriginTime b) (m_iLength b)).

Definition getPacketRexmitTime (offset : Z) (st : t) : Z :=
  m_tsRexmitTime (block st (advance st (Z.to_nat offset) (m_pFirstBlock st))).

(** The loop of [ackData]: the first block, the byte count and [move]. *)
Fixpoint ack_loop (st : t) (n : nat) (first bytes : Z) (move : bool) : Z * Z * bool :=
  match n with
  | O => (first, bytes, move)
  | S n => ack_loop st n (next st first) (bytes - m_iLength (block st first))
             (if first =? m_pCurrBlock st then true else move)
  end.

Definition ackData (offset : Z) (st : t) : t :=
  let '(first, bytes, move) := ack_loop st (Z.to_nat offset) (m_pFirstBlock st) (m_iBytesCount st) false in
  set_counts (m_iCount st - offset) bytes
    (set_pos first (if move : bool then first else m_pCurrBlock st) (m_pLastBlock st) st).

(** The loop of [dropLateData]: the first block, [dpkts], [dbytes], [msgno] and
    [move]. *)
Fixpoint drop_late_loop (st : t) (too_late_time : Z) (n : nat) (first dpkts dbytes msgno : Z) (move : bool) :
    Z * Z * Z * Z * bool :=
  match n with
  | O => (first, dpkts, dbytes, msgno, move)
  | S n =>
      if m_tsOriginTime (block st first) <? too_late_time then
        drop_late_loop st too_late_time n (next st first) (dpkts + 1) (dbytes + m_iLength (block st first))
          (getMsgSeq (block st first)) (if first =? m_pCurrBlock st then true else move)
      else (first, dpkts, dbytes, msgno, move)
  end.

(** The buffer, [w_bytes], [w_first_msgno] and the number of packets dropped. *)
Definition dropLateData (too_late_time : Z) (st : t) : t * (Z * Z * Z) :=
  let '(first, dpkts, dbytes, msgno, move) :=
    drop_late_loop st too_late_time (Z.to_nat (m_iCount st)) (m_pFirstBlock st) 0 0 0 false in
  (set_counts (m_iCount st - dpkts) (m_iBytesCount st - dbytes)
     (set_pos first (if move : bool then first else m_pCurrBlock st) (m_pLastBlock st) st),
   (dbytes, next_MsgNo msgno, dpkts)).

Definition getCurrBufSize (st : t) : Z * Z * Z :=
  (m_iCount st, m_iBytesCount st,
   if 0 <? m_iCount st then i32 (Z.quot (m_tsLastOriginTime st - m_tsOriginTime (block st (m_pFirstBlock st))) 1000) + 1 else 0).

Definition getBufferingDelay (tnow : Z) (st : t) : Z :=
  if m_iCount st =? 0 then 0 else tnow - m_tsOriginTime (block st (m_pFirstBlock st)).
End CSndBuffer.
Import CSndBuffer.

(** ** Chains of blocks *)

Section Path.
Implicit Types (nx : Z -> Z) (l : list Z).

(** From [p] the pointers lead over the blocks of [l] to [q]. *)
Fixpoint path nx (p : Z) l (q : Z) : Prop :=
  match l with
  | [] => p = q
  | x :: l => p = x /\ path nx (nx x) l q
  end.

Lemma path_app nx p l1 l2 q : path nx p (l1 ++ l2) q <-> exists m, path nx p l1 m /\ path nx m l2 q.
Proof.
  revert p. induction l1 as [|x l1 IH]; intros p; cbn [app path].
  - split; [by eauto|]. by intros (m & -> & H).
  - rewrite IH. naive_solver.
Qed.

Lemma path_ext nx nx' p l q : (forall x, x ∈ l -> nx x = nx' x) -> path nx p l q -> path nx' p l q.
Proof.
  revert p. induction l as [|x l IH]; intros p Hx; cbn [path]; [done|].
  intros [-> H]. split; [done|]. rewrite <- Hx by set_solver. apply IH; [set_solver|done].
Qed.

Lemma path_head nx p x l q : path nx p (x :: l) q -> p = x.
Proof. by intros []. Qed.

Lemma path_seqZ nx q (n : nat) : forall a, (0 < n)%nat ->
  (forall i, (i < n)%nat -> nx (a + Z.of_nat i) = if (S i =? n)%nat then q else a + Z.of_nat i + 1) ->
  path nx a (seqZ a (Z.of_nat n)) q.
Proof.
  induction n as [|n IH]; intros a Hn H; [lia|]. rewrite seqZ_cons by lia. cbn [path]. split; [done|].
  pose proof (H O ltac:(lia)) as H0. rewrite Z.add_0_r in H0. rewrite H0.
  destruct n as [|n]; [by rewrite seqZ_nil by lia|]. cbn [Nat.eqb].
  replace (Z.pred (Z.of_nat (S (S n)))) with (Z.of_nat (S n)) by lia. change (Z.succ a) with (a + 1). apply IH; [lia|].
  intros i Hi. replace (a + 1 + Z.of_nat i) with (a + Z.of_nat (S i)) by lia. rewrite H by lia. cbn [Nat.eqb]. done.
Qed.
End Path.

Lemma advance_path st p l q : path (next st) p l q -> forall k, (k <= length l)%nat -> (l ++ [q]) !! k = Some (advance st k p).
Proof.
  revert p. induction l as [|x l IH]; intros p; cbn [path].
  - intros <- k Hk. cbn in Hk. by replace k with O by lia.
  - intros [-> H] [|k] Hk; [done|]. cbn [app lookup list_lookup advance]. apply IH; [done|cbn in Hk; lia].
Qed.

Lemma block_upd st p f x : 0 <= p < zlen (blocks st) -> block (upd_block p f st) x = if x =? p then f (block st p) else block st x.
Proof.
  intros Hp. unfold block, upd_block. cbn [blocks set_blocks]. destruct (Z.eqb_spec x p) as [->|Hne].
  - by rewrite aget_aupd_eq.
  - by apply aget_aupd_ne.
Qed.

Lemma NoDup_Z_bound (l : list Z) n : NoDup l -> (forall x, x ∈ l -> 0 <= x < n) -> zlen l <= Z.max 0 n.
Proof.
  intros Hn Hx. assert (l ⊆+ seqZ 0 n) as H.
  { apply list.NoDup_submseteq; [done|]. intros x Hin. apply elem_of_seqZ. specialize (Hx x Hin). lia. }
  apply submseteq_length in H. rewrite length_seqZ in H. lia.
Qed.

(** ** The buffer as a queue of packets *)

Record pkt := mkPkt { k_data : list Z; k_bits : Z; k_seq : Z; k_origin : Z; k_rexmit : Z; k_ttl : Z }.

Definition contents (b : Block) : pkt :=
  mkPkt (take (Z.to_nat (m_iLength b)) (m_pcData b)) (m_iMsgNoBitset b) (m_iSeqNo b) (m_tsOriginTime b) (m_tsRexmitTime b) (m_iTTL b).

Definition bytes (q : list pkt) : Z := zlen (concat (map k_data q)).

(** The used blocks and the free ones, from [m_pLastBlock] on. *)
Record ring (st : t) (used free : list Z) : Prop := {
  r_used : path (next st) (m_pFirstBlock st) used (m_pLastBlock st);
  r_free : path (next st) (m_pLastBlock st) free (m_pFirstBlock st);
  r_room : free <> [];
  r_nodup : NoDup (used ++ free);
  r_in : forall p, p ∈ used ++ free -> 0 <= p < zlen (blocks st);
  r_mem : forall p, p ∈ used ++ free -> zlen (m_pcData (block st p)) = m_iBlockLen st;
  r_len : forall p, p ∈ used -> 0 <= m_iLength (block st p) <= m_iBlockLen st;
  r_size : m_iSize st = zlen (used ++ free);
  r_count : m_iCount st = zlen used
}.

Record wf (st : t) : Prop := {
  w_lens : 0 <= m_iAuthTagSize st < m_iBlockLen st;
  w_unit : 0 < m_pBuffer_m_iSize st
}.

(** The buffer holds the packets [q], of which the first [c] have been read. *)
Definition holds (st : t) (q : list pkt) (c : nat) : Prop :=
  wf st /\ exists used free, ring st used free /\ q = map (fun p => contents (block st p)) used /\
    (used ++ [m_pLastBlock st]) !! c = Some (m_pCurrBlock st) /\ m_iBytesCount st = bytes q.

Lemma bytes_app q1 q2 : bytes (q1 ++ q2) = bytes q1 + bytes q2.
Proof. unfold bytes. rewrite map_app, concat_app, length_app. lia. Qed.

Lemma bytes_cons x q : bytes (x :: q) = zlen (k_data x) + bytes q.
Proof. unfold bytes. cbn [map concat]. rewrite length_app. lia. Qed.

Lemma contents_length st used free p : ring st used free -> p ∈ used ->
  zlen (k_data (contents (block st p))) = m_iLength (block st p).
Proof.
  intros Hr Hp. cbn [contents k_data]. rewrite length_take.
  pose proof (r_mem _ _ _ Hr p ltac:(set_solver)). pose proof (r_len _ _ _ Hr p Hp). lia.
Qed.

Lemma ring_free_head st used free : ring st used free -> exists free', free = m_pLastBlock st :: free'.
Proof.
  intros Hr. pose proof (r_room _ _ _ Hr). pose proof (r_free _ _ _ Hr) as Hf. destruct free as [|x free]; [done|].
  apply path_head in Hf as ->. by exists free.
Qed.

Lemma ring_last st used free : ring st used free -> NoDup (used ++ [m_pLastBlock st]) /\ m_pLastBlock st ∉ used.
Proof.
  intros Hr. destruct (ring_free_head _ _ _ Hr) as [free' ->]. pose proof (r_nodup _ _ _ Hr) as Hn.
  change (m_pLastBlock st :: free') with ([m_pLastBlock st] ++ free') in Hn.
  rewrite (assoc (++)) in Hn. apply list.NoDup_app in Hn as [Hn _]. split; [done|].
  apply list.NoDup_app in Hn as (_ & Hd & _). intros Hin. apply (Hd _ Hin). set_solver.
Qed.

Lemma ring_blocks st used free : ring st used free -> (length used < length (blocks st))%nat.
Proof.
  intros Hr. pose proof (NoDup_Z_bound _ _ (r_nodup _ _ _ Hr) (r_in _ _ _ Hr)) as H. rewrite length_app in H.
  pose proof (r_room _ _ _ Hr). destruct free; [done|]. cbn in H. lia.
Qed.

(** ** Growing *)

Lemma new_chain_at blen a (n : nat) last i : (i < n)%nat ->
  new_chain blen a n last !! i = Some (new_block blen (if (S i =? n)%nat then last else a + Z.of_nat i + 1)).
Proof. intros Hi. unfold new_chain. rewrite list_lookup_fmap, lookup_seq_lt by done. done. Qed.

Lemma length_new_chain blen a n last : length (new_chain blen a n last) = n.
Proof. unfold new_chain. by rewrite length_map, length_seq. Qed.

Lemma block_new_chain st blen n last i : blocks st = new_chain blen 0 n last -> 0 <= i < Z.of_nat n ->
  block st i = new_block blen (if (S (Z.to_nat i) =? n)%nat then last else i + 1).
Proof.
  intros Hb Hi. unfold block. rewrite Hb. apply aget_lookup; [lia|].
  rewrite new_chain_at by lia. by rewrite Z.add_0_l, Z2Nat.id by lia.
Qed.

Lemma init_holds_snd size maxpld authtag : (0 < size)%nat -> 0 <= authtag < maxpld -> holds (init size maxpld authtag) [] 0.
Proof.
  intros Hs Hl. set (st := init size maxpld authtag).
  assert (Hb : forall i, 0 <= i < Z.of_nat size -> block st i = new_block maxpld (if (S (Z.to_nat i) =? size)%nat then 0 else i + 1))
    by (intros i Hi; by apply block_new_chain).
  split; [split; cbn; lia|]. exists [], (seqZ 0 (Z.of_nat size)). split; [|done]. split; try done.
  - apply path_seqZ; [done|]. intros i Hi. unfold next. rewrite Hb by lia. cbn [m_pNext new_block].
    rewrite Z.add_0_l, Nat2Z.id. done.
  - rewrite seqZ_cons by lia. done.
  - apply NoDup_seqZ.
  - intros p Hp%elem_of_seqZ. cbn [blocks init st]. rewrite length_new_chain. lia.
  - intros p Hp%elem_of_seqZ. rewrite Hb by lia. cbn [m_pcData new_block]. rewrite length_replicate. cbn [m_iBlockLen init st]. lia.
  - intros p Hp. set_solver.
  - cbn [app]. rewrite length_seqZ. cbn [m_iSize init st]. lia.
Qed.

(** The blocks of the buffer after [increase]. *)
Lemma block_increase st p : 0 <= m_pLastBlock st < zlen (blocks st) -> 0 < m_pBuffer_m_iSize st ->
  0 <= p < zlen (blocks st) + m_pBuffer_m_iSize st ->
  block (increase st) p =
    if p =? m_pLastBlock st then set_next (zlen (blocks st)) (block st p)
    else if p <? zlen (blocks st) then block st p
    else new_block (m_iBlockLen st)
           (if p =? zlen (blocks st) + m_pBuffer_m_iSize st - 1 then next st (m_pLastBlock st) else p + 1).
Proof.
  intros Hl Hu Hp. unfold block, increase. cbn [blocks]. destruct (Z.ltb_spec p (zlen (blocks st))) as [Hlt|Hge].
  - rewrite aget_app_l by (rewrite length_aupd; lia). destruct (Z.eqb_spec p (m_pLastBlock st)) as [->|Hne].
    + by rewrite aget_aupd_eq.
    + by rewrite aget_aupd_ne.
  - rewrite (proj2 (Z.eqb_neq _ _)) by lia. apply aget_lookup; [lia|].
    rewrite lookup_app_r by (rewrite length_aupd; lia). rewrite length_aupd. rewrite new_chain_at by lia.
    do 2 f_equal. destruct (Z.eqb_spec p (zlen (blocks st) + m_pBuffer_m_iSize st - 1)).
    + by rewrite (proj2 (Nat.eqb_eq _ _)) by lia.
    + rewrite (proj2 (Nat.eqb_neq _ _)) by lia. lia.
Qed.

(** What growing does not change. *)
Record grown (st st' : t) : Prop := {
  g_next : m_iNextMsgNo st' = m_iNextMsgNo st;
  g_blen : m_iBlockLen st' = m_iBlockLen st;
  g_auth : m_iAuthTagSize st' = m_iAuthTagSize st;
  g_count : m_iCount st' = m_iCount st;
  g_bytes : m_iBytesCount st' = m_iBytesCount st;
  g_time : m_tsLastOriginTime st' = m_tsLastOriginTime st;
  g_unit : m_pBuffer_m_iSize st' = m_pBuffer_m_iSize st
}.

#[export] Instance grown_preorder : PreOrder grown.
Proof. split; [by intros st|]. intros x y z [] []. split; congruence. Qed.

Lemma increase_ring st used free : wf st -> ring st used free ->
  exists free', ring (increase st) used free' /\ forall p, p ∈ used -> contents (block (increase st) p) = contents (block st p).
Proof.
  intros [_ Hu] Hr. destruct (ring_free_head _ _ _ Hr) as [free0 ->]. pose proof (ring_last _ _ _ Hr) as [_ Hnl].
  set (n := zlen (blocks st)). set (u := m_pBuffer_m_iSize st) in *. set (last := m_pLastBlock st) in *.
  pose proof (r_in _ _ _ Hr) as Hin. assert (Hl : 0 <= last < n) by (apply Hin; set_solver).
  pose proof (fun p => block_increase st p Hl Hu) as Hb. fold last n u in Hb.
  assert (Hne : forall p, p ∈ used ++ free0 -> 0 <= p < n /\ p <> last).
  { intros p Hp. split; [apply Hin; set_solver|]. intros ->. pose proof (r_nodup _ _ _ Hr) as Hn.
    rewrite <- Permutation_middle in Hn. apply list.NoDup_cons in Hn as [? _]. done. }
  assert (Hold : forall p, p ∈ used ++ free0 -> block (increase st) p = block st p).
  { intros p Hp. destruct (Hne p Hp). rewrite Hb by lia. rewrite (proj2 (Z.eqb_neq _ _)) by done. by rewrite (proj2 (Z.ltb_lt _ _)) by lia. }
  assert (Hlb : block (increase st) last = set_next n (block st last)) by (rewrite Hb by lia; by rewrite Z.eqb_refl).
  assert (Hnew : forall p, p ∈ seqZ n u -> block (increase st) p = new_block (m_iBlockLen st) (if p =? n + u - 1 then next st last else p + 1)).
  { intros p Hp%elem_of_seqZ. rewrite Hb by lia. rewrite (proj2 (Z.eqb_neq _ _)) by lia. by rewrite (proj2 (Z.ltb_ge _ _)) by lia. }
  assert (Hlen : zlen (blocks (increase st)) = n + u).
  { cbn [blocks increase]. rewrite length_app, length_aupd, length_new_chain. fold u n. lia. }
  exists (last :: seqZ n u ++ free0). split; [|intros p Hp; by rewrite Hold by set_solver]. split; try done.
  - eapply path_ext; [|exact (r_used _ _ _ Hr)]. intros p Hp. unfold next. by rewrite Hold by set_solver.
  - cbn [path]. split; [done|]. unfold next at 2. rewrite Hlb. cbn [m_pNext set_next]. apply path_app. exists (next st last). split.
    + assert (Z.of_nat (Z.to_nat u) = u) as <- by lia. apply path_seqZ; [lia|]. intros i Hi. unfold next at 1. rewrite Hnew by (apply elem_of_seqZ; lia).
      cbn [m_pNext new_block]. destruct (Z.eqb_spec (n + Z.of_nat i) (n + u - 1)).
      * by rewrite (proj2 (Nat.eqb_eq _ _)) by lia.
      * by rewrite (proj2 (Nat.eqb_neq _ _)) by lia.
    + pose proof (r_free _ _ _ Hr) as [_ Hf]. eapply path_ext; [|exact Hf]. intros p Hp. unfold next. by rewrite Hold by set_solver.
  - pose proof (r_nodup _ _ _ Hr) as Hn.
    assert (used ++ last :: seqZ n u ++ free0 ≡ₚ seqZ n u ++ (used ++ last :: free0)) as -> by solve_Permutation.
    apply list.NoDup_app. split; [apply NoDup_seqZ|]. split; [|done]. intros p Hp%elem_of_seqZ Hp2%Hin. lia.
  - intros p Hp. rewrite Hlen. assert (p ∈ seqZ n u \/ p ∈ used ++ last :: free0) as [Hs%elem_of_seqZ|Ho%Hin] by set_solver; lia.
  - intros p Hp. cbn [m_iBlockLen increase]. assert (p ∈ seqZ n u \/ p = last \/ p ∈ used ++ free0) as [Hs|[->|Ho]] by set_solver.
    + rewrite Hnew by done. cbn [m_pcData new_block]. rewrite length_replicate.
      pose proof (r_mem _ _ _ Hr last ltac:(set_solver)). lia.
    + rewrite Hlb. cbn [m_pcData set_next]. apply (r_mem _ _ _ Hr). set_solver.
    + rewrite Hold by done. apply (r_mem _ _ _ Hr). set_solver.
  - intros p Hp. rewrite Hold by set_solver. by apply (r_len _ _ _ Hr).
  - cbn [m_iSize increase]. rewrite (r_size _ _ _ Hr). fold u. rewrite !length_app. cbn [length]. rewrite length_app, length_seqZ. lia.
  - exact (r_count _ _ _ Hr).
Qed.

Lemma increase_holds st q c : holds st q c -> holds (increase st) q c /\ grown st (increase st) /\
  m_iSize (increase st) = m_iSize st + m_pBuffer_m_iSize st.
Proof.
  intros (Hw & used & free & Hr & -> & Hc & Hb). destruct (increase_ring _ _ _ Hw Hr) as (free' & Hr' & Hcon).
  split; [|done]. split; [by destruct Hw; split|]. exists used, free'. split; [done|]. split; [|done].
  apply map_ext_in. intros p Hp%list_elem_of_In. by rewrite Hcon.
Qed.

Lemma holds_size st q c : holds st q c -> m_iCount st = zlen q /\ m_iCount st < m_iSize st.
Proof.
  intros (_ & used & free & Hr & -> & _). rewrite length_map. rewrite (r_count _ _ _ Hr), (r_size _ _ _ Hr), length_app.
  pose proof (r_room _ _ _ Hr). destruct free; [done|]. cbn. lia.
Qed.

Lemma make_room_ok alloc n st q c : holds st q c -> 0 <= n ->
  exists st' ok, make_room alloc n st = Some (st', ok) /\ holds st' q c /\ grown st st' /\
    if ok : bool then n + zlen q < m_iSize st' else exists k, alloc k = false.
Proof.
  intros Hh Hn. unfold make_room. destruct (holds_size _ _ _ Hh) as [Hcnt Hlt].
  destruct (loop_total (increase_step alloc n) (fun s => holds s.1 q c /\ grown st s.1)
    (fun r => holds r.1 q c /\ grown st r.1 /\ if r.2 : bool then n + zlen q < m_iSize r.1 else exists k, alloc k = false)
    (fun s => Z.to_nat (n + m_iCount s.1 + 1 - m_iSize s.1))) with (fuel := S (Z.to_nat (n + m_iCount st))) (s := (st, O))
    as ([st' ok] & E & H1 & H2 & H3).
  - intros [st1 k] [H1 H2]. cbn [fst] in *. destruct (holds_size _ _ _ H1) as [Hc1 _]. unfold increase_step.
    rewrite Z.geb_leb. destruct (Z.leb_spec (m_iSize st1) (n + m_iCount st1)).
    + destruct (alloc k) eqn:Ea; [|split; [done|]; split; [done|by exists k]]. destruct (increase_holds _ _ _ H1) as (H1' & G & Es). cbn [fst].
      pose proof (w_unit _ (proj1 H1)). pose proof (g_count _ _ G). split; [split; [done|by etrans]|]. lia.
    + cbn [fst snd]. split; [done|]. split; [done|]. lia.
  - done.
  - cbn [fst]. pose proof (g_count st st). lia.
  - exists st', ok. done.
Qed.

(** ** Adding a message *)

(** The length of packet [i] of a message of [len] bytes. *)
Definition pktlen (len L i : Z) : Z := Z.min L (len - i * L).

(** The packets of a message, the first one with sequence number [seq_of x]. *)
Definition msg_pkt (data : list Z) (L N ttl bits origin x i : Z) : pkt :=
  mkPkt (take (Z.to_nat (pktlen (zlen data) L i)) (drop (Z.to_nat (i * L)) data)) (boundary_bits bits i N)
    (seq_of (x + i)) origin 0 ttl.

Definition msg_pkts (data : list Z) (L N ttl bits origin x : Z) : list pkt :=
  map (msg_pkt data L N ttl bits origin x) (seqZ 0 N).

Lemma packets_count len L : 0 <= len -> 0 < L ->
  let N := countNumPacketsRequired len L in 0 <= N /\ (0 < N -> (N - 1) * L < len) /\ len <= N * L.
Proof.
  intros Hl HL N. unfold N, countNumPacketsRequired. rewrite Z.quot_div_nonneg by lia.
  pose proof (Z.div_mod (len + L - 1) L ltac:(lia)). pose proof (Z.mod_pos_bound (len + L - 1) L HL). split_and!; nia.
Qed.

(** The data cut into packets and put together again. *)
Lemma cut_data (data : list Z) L (n : nat) : 0 < L -> forall i, 0 <= i ->
  concat (map (fun i => take (Z.to_nat (pktlen (zlen data) L i)) (drop (Z.to_nat (i * L)) data)) (seqZ i (Z.of_nat n))) =
  take (n * Z.to_nat L) (drop (Z.to_nat (i * L)) data).
Proof.
  intros HL. induction n as [|n IH]; intros i Hi; [by rewrite seqZ_nil by lia|].
  rewrite seqZ_cons by lia. replace (Z.pred (Z.of_nat (S n))) with (Z.of_nat n) by lia. change (Z.succ i) with (i + 1).
  cbn [map concat]. rewrite IH by lia. cbn [Nat.mul]. rewrite <- (take_take_drop _ (Z.to_nat L)), drop_drop. f_equal.
  - unfold pktlen. destruct (Z.min_spec L (zlen data - i * L)) as [[? ->]|[? ->]]; [done|].
    rewrite !take_ge; [done|rewrite length_drop; lia|rewrite length_drop; lia].
  - do 2 f_equal. lia.
Qed.

Lemma add_block_ok st data L N ttl bit i s x : 0 <= s < zlen (blocks st) -> 0 < L <= m_iBlockLen st ->
  zlen (m_pcData (block st s)) = m_iBlockLen st -> 0 <= i -> i * L < zlen data ->
  let st' := add_block data L N ttl bit i s (seq_of x) st in
  contents (block st' s) = msg_pkt data L N ttl (Z.lor (m_iNextMsgNo st) bit) (m_tsLastOriginTime st) (x - i) i /\
  0 <= m_iLength (block st' s) <= m_iBlockLen st /\ zlen (m_pcData (block st' s)) = m_iBlockLen st /\
  next st' s = next st s /\ forall p, p <> s -> block st' p = block st p.
Proof.
  intros Hs HL Hm Hi Hlt st'.
  assert (Epl : (if zlen data - i * L >? L then L else zlen data - i * L) = pktlen (zlen data) L i) by (unfold pktlen; bdestr).
  assert (Hpl : 0 <= pktlen (zlen data) L i <= L) by (unfold pktlen; lia).
  assert (Hlen : zlen (take (Z.to_nat (pktlen (zlen data) L i)) (drop (Z.to_nat (i * L)) data)) = pktlen (zlen data) L i).
  { rewrite length_take, length_drop. unfold pktlen in *. lia. }
  assert (Hb : forall p, block st' p = if p =? s then block st' s else block st p).
  { intros p. unfold st', add_block. rewrite !block_upd by done. by rewrite Z.eqb_refl. }
  assert (Hbs : block st' s = mkBlock (memcpy (m_pcData (block st s)) (take (Z.to_nat (pktlen (zlen data) L i)) (drop (Z.to_nat (i * L)) data)))
    (pktlen (zlen data) L i) (boundary_bits (Z.lor (m_iNextMsgNo st) bit) i N) (seq_of x) (m_tsLastOriginTime st) 0 ttl (m_pNext (block st s))).
  { unfold st', add_block. rewrite block_upd, Z.eqb_refl, Epl by done. done. }
  unfold next. rewrite Hbs. cbn [m_iLength m_pcData m_pNext]. split_and!; try lia; try done.
  - unfold contents, msg_pkt. cbn [m_iLength m_pcData m_iMsgNoBitset m_iSeqNo m_tsOriginTime m_tsRexmitTime m_iTTL].
    unfold memcpy. rewrite take_app_length' by lia. by replace (x - i + i) with x by lia.
  - unfold memcpy. rewrite length_app, length_drop. lia.
  - intros p Hp. rewrite Hb. by rewrite (proj2 (Z.eqb_neq _ _)).
Qed.

Lemma set_blocks_twice b1 b2 st : set_blocks b1 (set_blocks b2 st) = set_blocks b1 st.
Proof. done. Qed.

(** The blocks that the loop of [addBuffer] has filled, and the others. *)
Definition filled st data L N ttl bit (l : list Z) i x st' : Prop :=
  st' = set_blocks (blocks st') st /\ length (blocks st') = length (blocks st) /\
  (forall p, next st' p = next st p) /\ (forall p, p ∉ l -> block st' p = block st p) /\
  (forall p, p ∈ l -> 0 <= m_iLength (block st' p) <= m_iBlockLen st /\ zlen (m_pcData (block st' p)) = m_iBlockLen st) /\
  map (fun p => contents (block st' p)) l =
    map (msg_pkt data L N ttl (Z.lor (m_iNextMsgNo st) bit) (m_tsLastOriginTime st) (x - i)) (seqZ i (zlen l)).

Lemma add_blocks_ok data L N ttl bit l : forall i s x st l2 first,
  path (next st) s (l ++ l2) first -> NoDup l ->
  (forall p, p ∈ l -> 0 <= p < zlen (blocks st) /\ zlen (m_pcData (block st p)) = m_iBlockLen st) ->
  0 < L <= m_iBlockLen st -> 0 <= i -> ((0 < length l)%nat -> (i + zlen l - 1) * L < zlen data) ->
  exists st' s', add_blocks data L N ttl bit (length l) i s (seq_of x) st = (st', s', seq_of (x + zlen l)) /\
    path (next st) s l s' /\ path (next st) s' l2 first /\ filled st data L N ttl bit l i x st'.
Proof.
  induction l as [|y l IH]; intros i s x st l2 first Hp Hn Hin HL Hi Hd.
  { exists st, s. cbn [length add_blocks]. rewrite Z.add_0_r. split; [done|]. split; [done|]. split; [done|].
    unfold filled. split_and!; try done; [by destruct st|]. intros p Hp'. set_solver. }
  cbn [app path] in Hp. destruct Hp as [-> Hp]. apply list.NoDup_cons in Hn as [Hy Hn].
  destruct (Hin y ltac:(set_solver)) as [Hyb Hym]. cbn [length] in Hd.
  destruct (add_block_ok st data L N ttl bit i y x Hyb HL Hym Hi ltac:(nia)) as (Hc & Hl1 & Hm1 & Hnx & Hoth).
  set (st1 := add_block data L N ttl bit i y (seq_of x) st) in *.
  assert (Hlen1 : length (blocks st1) = length (blocks st)) by (unfold st1, add_block, upd_block; cbn; by rewrite length_aupd).
  assert (Hnext1 : forall p, next st1 p = next st p).
  { intros p. destruct (decide (p = y)) as [->|]; [done|]. unfold next. by rewrite Hoth. }
  destruct (IH (i + 1) (next st y) (x + 1) st1 l2 first) as (st' & s' & E & Hp1 & Hp2 & (Est & Hlen & Hnext & Hout & Hsz & Hmap)).
  { eapply path_ext; [|exact Hp]. done. }
  { done. }
  { intros p Hpl. rewrite Hlen1, Hoth by (intros ->; done). apply Hin. set_solver. }
  { done. }
  { lia. }
  { intros Hlt. specialize (Hd ltac:(lia)). lia. }
  exists st', s'. cbn [length add_blocks]. fold st1. rewrite Hnext1, incseq_seq_of, E.
  assert (Hmap1 : map (fun p => contents (block st' p)) (y :: l) =
    map (msg_pkt data L N ttl (Z.lor (m_iNextMsgNo st) bit) (m_tsLastOriginTime st) (x - i)) (seqZ i (zlen (y :: l)))).
  { cbn [map length]. rewrite seqZ_cons by lia. cbn [map]. rewrite Hout, Hc by done. f_equal. rewrite Hmap.
    replace (x + 1 - (i + 1)) with (x - i) by lia. do 2 f_equal; lia. }
  split; [do 2 f_equal; lia|]. split; [split; [done|]; eapply path_ext; [|exact Hp1]; done|].
  split; [eapply path_ext; [|exact Hp2]; done|]. unfold filled. split_and!.
  - rewrite Est. done.
  - congruence.
  - intros p. by rewrite Hnext.
  - intros p Hpl. rewrite Hout by set_solver. apply Hoth. set_solver.
  - intros p [->|Hpl]%elem_of_cons; [by rewrite Hout|by apply Hsz].
  - exact Hmap1.
Qed.

(** ** The message bits *)

(** The boundary of packet [i] of [N]. *)
Definition boundary (i N : Z) : Z := (if i =? 0 then PB_FIRST else 0) + (if i =? N - 1 then PB_LAST else 0).

Lemma u32_i32 z : u32 (i32 z) = u32 z.
Proof.
  unfold u32, i32. rewrite Zminus_mod, Zmod_mod, <- Zminus_mod. f_equal. lia.
Qed.

Lemma in_u32_lor a b : in_u32 a -> in_u32 b -> in_u32 (Z.lor a b).
Proof.
  unfold in_u32. intros Ha Hb. assert (0 <= Z.lor a b) by (apply Z.lor_nonneg; lia). split; [done|].
  destruct (Z.eq_dec (Z.lor a b) 0) as [->|]; [lia|]. apply Z.log2_lt_pow2; [lia|].
  rewrite Z.log2_lor by lia. apply Z.max_lub_lt.
  - destruct (Z.eq_dec a 0) as [->|]; [done|]. apply Z.log2_lt_pow2; lia.
  - destruct (Z.eq_dec b 0) as [->|]; [done|]. apply Z.log2_lt_pow2; lia.
Qed.

Lemma u32_or32 b o : in_u32 o -> u32 (or32 b o) = Z.lor (u32 b) o.
Proof. intros Ho. unfold or32. rewrite u32_i32. apply u32_id, in_u32_lor; [apply u32_range|done]. Qed.

Lemma boundary_bits_word m (ord : bool) i N : 0 <= m <= MSGNO_SEQ_mask ->
  u32 (boundary_bits (Z.lor m (if ord then MSGNO_PACKET_INORDER_mask else 0)) i N) = message_word m ord (boundary i N).
Proof.
  intros Hm. set (b := Z.lor m _).
  assert (Hb : u32 b = b).
  { apply u32_id, in_u32_lor; [change MSGNO_SEQ_mask with (2 ^ 26 - 1) in Hm; unfold in_u32; lia|]. destruct ord; vm_compute; split; congruence. }
  unfold boundary_bits, boundary, message_word. fold b.
  destruct (i =? 0), (i =? N - 1); rewrite ?u32_or32, ?Hb by (vm_compute; split; congruence).
  - by rewrite <- Z.lor_assoc.
  - done.
  - done.
  - change (PacketBoundaryBits (0 + 0)) with 0. by rewrite Z.lor_0_r.
Qed.

(** ** Adding a message to the queue *)

Definition msg_number (w : SRT_MSGCTRL) (st : t) : Z := if msgno w =? SRT_MSGNO_NONE then m_iNextMsgNo st else msgno w.
Definition origin_time (w : SRT_MSGCTRL) (tnow : Z) : Z := if srctime w =? 0 then tnow else srctime w.
Definition order_bit (w : SRT_MSGCTRL) : Z := if inorder w then MSGNO_PACKET_INORDER_mask else 0.

Lemma concat_msg data L N ttl bits origin x : 0 < L -> 0 <= N -> zlen data <= N * L ->
  concat (map k_data (msg_pkts data L N ttl bits origin x)) = data.
Proof.
  intros HL HN Hd. unfold msg_pkts. rewrite map_map. cbn [k_data msg_pkt].
  pose proof (cut_data data L (Z.to_nat N) HL 0 ltac:(lia)) as E. rewrite Z2Nat.id in E by done. rewrite E.
  cbn. rewrite drop_0. apply take_ge. nia.
Qed.

Lemma holds_msgno st q c n : holds st q c -> holds (set_iNextMsgNo n st) q c.
Proof.
  intros (Hw & used & free & Hr & H). split; [by destruct Hw; split|]. exists used, free. split; [by destruct Hr; split|done].
Qed.

(** The end of [addBuffer]: the filled blocks join the used ones. *)
Lemma filled_holds st q c data L N ttl bit x st1 l s' used free2 :
  holds st q c -> ring st used (l ++ free2) -> q = map (fun p => contents (block st p)) used ->
  (used ++ [m_pLastBlock st]) !! c = Some (m_pCurrBlock st) -> m_iBytesCount st = bytes q -> free2 <> [] ->
  path (next st) (m_pLastBlock st) l s' -> path (next st) s' free2 (m_pFirstBlock st) ->
  filled st data L N ttl bit l 0 x st1 -> zlen l = N ->
  concat (map k_data (msg_pkts data L N ttl (Z.lor (m_iNextMsgNo st) bit) (m_tsLastOriginTime st) x)) = data ->
  holds (set_counts (m_iCount st + N) (m_iBytesCount st + zlen data) (set_pos (m_pFirstBlock st) (m_pCurrBlock st) s' st1))
    (q ++ msg_pkts data L N ttl (Z.lor (m_iNextMsgNo st) bit) (m_tsLastOriginTime st) x) c.
Proof.
  intros (Hw & _) Hr -> Hc Hb Hne Hp1 Hp2 (Est & Hlen & Hnext & Hout & Hsz & Hmap) HN Hcat.
  assert (Hf : forall p, next (set_counts (m_iCount st + N) (m_iBytesCount st + zlen data) (set_pos (m_pFirstBlock st) (m_pCurrBlock st) s' st1)) p = next st p)
    by exact Hnext.
  assert (Hnd := r_nodup _ _ _ Hr). rewrite (assoc (++)) in Hnd.
  assert (Hul : forall p, p ∈ used -> p ∉ l).
  { intros p Hpu. apply list.NoDup_app in Hnd as (Hnd & _ & _). apply list.NoDup_app in Hnd as (_ & Hd & _). by apply Hd. }
  split; [rewrite Est; by destruct Hw; split|]. exists (used ++ l), free2. split; [split|split; [|split]].
  - rewrite Est. cbn [m_pFirstBlock m_pLastBlock set_counts set_pos set_blocks]. apply (path_ext (next st)); [intros; symmetry; by rewrite <- Hf, Est|].
    apply path_app. exists (m_pLastBlock st). split; [exact (r_used _ _ _ Hr)|done].
  - cbn [m_pFirstBlock m_pLastBlock set_counts set_pos]. eapply path_ext; [|exact Hp2]. intros; symmetry; apply Hf.
  - done.
  - by rewrite <- (assoc (++)) in *.
  - intros p Hp. cbn [blocks set_counts set_pos]. rewrite Hlen. apply (r_in _ _ _ Hr). rewrite <- (assoc (++)) in Hp. done.
  - intros p Hp. cbn [m_iBlockLen set_counts set_pos]. rewrite Est. cbn [m_iBlockLen set_blocks]. rewrite <- Est.
    destruct (decide (p ∈ l)) as [Hl|Hl]; [by apply Hsz|]. change (zlen (m_pcData (block st1 p)) = m_iBlockLen st).
    rewrite Hout by done. apply (r_mem _ _ _ Hr). by rewrite <- (assoc (++)) in Hp.
  - intros p [Hp|Hp]%elem_of_app; cbn [m_iBlockLen set_counts set_pos]; rewrite Est; cbn [m_iBlockLen set_blocks]; rewrite <- Est.
    + change (0 <= m_iLength (block st1 p) <= m_iBlockLen st). rewrite Hout by by apply Hul. by apply (r_len _ _ _ Hr).
    + by apply Hsz.
  - cbn [m_iSize set_counts set_pos]. rewrite Est. cbn [m_iSize set_blocks]. rewrite (r_size _ _ _ Hr). by rewrite (assoc (++)).
  - cbn [m_iCount set_counts]. rewrite (r_count _ _ _ Hr), length_app. lia.
  - rewrite map_app. f_equal.
    + apply map_ext_in. intros p Hp%list_elem_of_In. change (contents (block st p) = contents (block st1 p)). by rewrite Hout by by apply Hul.
    + change (msg_pkts data L N ttl (Z.lor (m_iNextMsgNo st) bit) (m_tsLastOriginTime st) x = map (fun p => contents (block st1 p)) l).
      rewrite Hmap, HN. unfold msg_pkts. by replace (x - 0) with x by lia.
  - cbn [m_pCurrBlock m_pLastBlock set_counts set_pos]. apply lookup_app_Some in Hc. destruct Hc as [Hc|[Hc1 Hc2]].
    + rewrite <- (assoc (++)). by apply lookup_app_l_Some.
    + apply list_lookup_singleton_Some in Hc2 as [Hc2 <-]. rewrite <- (assoc (++)), lookup_app_r by done. rewrite Hc2.
      destruct l as [|y l]; [by rewrite <- Hp1|]. by apply path_head in Hp1 as <-.
  - cbn [m_iBytesCount set_counts]. rewrite bytes_app, Hb. unfold bytes at 3. by rewrite Hcat.
Qed.

Lemma add_buffer_ok (alloc : nat -> bool) (tnow : Z) (data : list Z) (w : SRT_MSGCTRL) (st : t) (q : list pkt) (c : nat) (x : Z)
  (Hh : holds st q c) (Hx : pktseq w = seq_of x) :
  let L := getMaxPacketLen st in
  let N := countNumPacketsRequired (zlen data) L in
  let m := msg_number w st in
  let msg := msg_pkts data L N (msgttl w) (Z.lor m (order_bit w)) (origin_time w tnow) x in
  exists st' r, addBuffer alloc tnow data w st = Some (st', r) /\
    match r with
    | None => holds st' q c /\ exists k, alloc k = false
    | Some w' =>
        holds st' (q ++ msg) c /\ concat (map k_data msg) = data /\ zlen msg = N /\
        w' = mkCtrl m (seq_of (x + N)) (origin_time w tnow) (msgttl w) (inorder w) /\
        m_iNextMsgNo st' = next_MsgNo m /\
        (0 <= m <= MSGNO_SEQ_mask -> forall i, 0 <= i < N ->
           u32 (boundary_bits (Z.lor m (order_bit w)) i N) = message_word m (inorder w) (boundary i N))
    end.
Proof.
  intros L N m msg. pose proof (proj1 Hh) as [Hlens _].
  assert (HL : 0 < L) by (unfold L, getMaxPacketLen; lia).
  destruct (packets_count (zlen data) L ltac:(lia) HL) as (HN0 & HN1 & HN2). fold N in HN0, HN1, HN2.
  destruct (make_room_ok alloc N st q c Hh HN0) as (st1 & ok & E & Hh1 & G & Hok).
  unfold addBuffer. fold L N. rewrite E. cbn [mbind option_bind]. destruct ok; cbn [negb]; [|by exists st1, None].
  set (st2 := set_tsLastOriginTime _ st1).
  assert (Et : m_tsLastOriginTime st2 = origin_time w tnow) by (cbn; unfold origin_time; by destruct (srctime w =? 0)).
  assert (Em : (if msgno w =? SRT_MSGNO_NONE then (m_iNextMsgNo st2, st2) else (msgno w, set_iNextMsgNo (msgno w) st2)) = (m, set_iNextMsgNo m st2)).
  { unfold m, msg_number. rewrite <- (g_next _ _ G). change (m_iNextMsgNo st2) with (m_iNextMsgNo st1).
    destruct (msgno w =? SRT_MSGNO_NONE); [|reflexivity]. unfold st2. by destruct st1. }
  rewrite Em. set (st3 := set_iNextMsgNo m st2). destruct Hh1 as (Hw1 & used & free & Hr1 & Hq & Hc & Hb).
  assert (Hr3 : ring st3 used free) by (destruct Hr1; by split).
  assert (Hh3 : holds st3 q c) by (split; [by destruct Hw1; split|]; by exists used, free).
  pose proof (r_size _ _ _ Hr1) as Hsz. rewrite Hq, length_map, Hsz, length_app in Hok.
  rewrite <- (take_drop (Z.to_nat N) free) in Hr3. set (l := take (Z.to_nat N) free) in *. set (free2 := drop (Z.to_nat N) free) in *.
  assert (Hll : zlen l = N) by (unfold l; rewrite length_take; lia).
  assert (Hne : free2 <> []) by (intros E2; apply (f_equal length) in E2; unfold free2 in E2; rewrite length_drop in E2; cbn in E2; lia).
  destruct (add_blocks_ok data L N (msgttl w) (order_bit w) l 0 (m_pLastBlock st3) x st3 free2 (m_pFirstBlock st3))
    as (st4 & s' & E4 & Hp1 & Hp2 & Hf).
  { exact (r_free _ _ _ Hr3). }
  { pose proof (r_nodup _ _ _ Hr3) as Hn. apply list.NoDup_app in Hn as (_ & _ & Hn). by apply list.NoDup_app in Hn as (Hn & _). }
  { intros p Hp. split; [apply (r_in _ _ _ Hr3)|apply (r_mem _ _ _ Hr3)]; set_solver. }
  { unfold L, getMaxPacketLen. rewrite <- (g_blen _ _ G), <- (g_auth _ _ G) in *. cbn [m_iBlockLen st3 st2 set_iNextMsgNo set_tsLastOriginTime]. lia. }
  { lia. }
  { intros Hlt. rewrite Hll, Z.add_0_l. apply HN1. lia. }
  rewrite <- Hx in E4. fold (order_bit w). assert (Hn : Z.to_nat N = length l) by lia. rewrite Hn. change (m_pLastBlock st3) with (m_pLastBlock st1) in *. rewrite E4, Hll.
  eexists _, _. split; [reflexivity|]. cbv beta iota.
  pose proof (concat_msg data L N (msgttl w) (Z.lor m (order_bit w)) (origin_time w tnow) x HL HN0 HN2) as Hcat. fold msg in Hcat.
  assert (Emsg : msg_pkts data L N (msgttl w) (Z.lor (m_iNextMsgNo st3) (order_bit w)) (m_tsLastOriginTime st3) x = msg).
  { cbn [m_iNextMsgNo m_tsLastOriginTime st3 set_iNextMsgNo]. by rewrite Et. }
  pose proof (filled_holds st3 q c data L N (msgttl w) (order_bit w) x st4 l s' used free2 Hh3 Hr3 Hq Hc Hb Hne Hp1 Hp2 Hf Hll) as Hnew.
  rewrite Emsg in Hnew. specialize (Hnew Hcat). destruct Hf as (Est4 & _).
  pose proof (f_equal m_pFirstBlock Est4) as F1. pose proof (f_equal m_pCurrBlock Est4) as F2.
  pose proof (f_equal m_iCount Est4) as F3. pose proof (f_equal m_iBytesCount Est4) as F4. pose proof (f_equal m_iNextMsgNo Est4) as F5.
  cbn in F1, F2, F3, F4, F5. split_and!; try done.
  - apply holds_msgno. cbn [m_iCount m_iBytesCount set_pos]. by rewrite F1, F2, F3, F4.
  - unfold msg, msg_pkts. rewrite length_map, length_seqZ. lia.
  - by rewrite Et.
  - cbn [m_iNextMsgNo set_iNextMsgNo set_counts set_pos]. by rewrite F5.
  - intros Hm i Hi. by apply boundary_bits_word.
Qed.

(** C16. [addBuffer] cuts the data into packets of the maximal payload, the last
    one with the rest, numbers them on from the given sequence number, gives
    them the message number, the order flag, the origin time and the time to
    live, and marks the first and the last one; it appends them behind
    everything that is in the buffer, growing the buffer before that when they
    do not fit, and returns the next sequence number and the message number.
    Put together the payloads are the data.  Where growing fails the buffer
    holds what it held. *)
Theorem sndbuf_addBuffer (alloc : nat -> bool) (tnow : Z) (data : list Z) (w : SRT_MSGCTRL) (st : t) (q : list pkt) (c : nat) (x : Z)
  (Hh : holds st q c) (Hx : pktseq w = seq_of x) :
  let L := getMaxPacketLen st in
  let N := countNumPacketsRequired (zlen data) L in
  let m := msg_number w st in
  let msg := msg_pkts data L N (msgttl w) (Z.lor m (order_bit w)) (origin_time w tnow) x in
  exists st' r, addBuffer alloc tnow data w st = Some (st', r) /\
    match r with
    | None => holds st' q c /\ exists k, alloc k = false
    | Some w' =>
        holds st' (q ++ msg) c /\ concat (map k_data msg) = data /\ zlen msg = N /\
        w' = mkCtrl m (seq_of (x + N)) (origin_time w tnow) (msgttl w) (inorder w) /\
        m_iNextMsgNo st' = next_MsgNo m /\
        (0 <= m <= MSGNO_SEQ_mask -> forall i, 0 <= i < N ->
           u32 (boundary_bits (Z.lor m (order_bit w)) i N) = message_word m (inorder w) (boundary i N))
    end.
Proof. by apply add_buffer_ok. Qed.

(** ** Releasing packets *)

Definition lens st (l : list Z) : Z := foldr (fun p a => m_iLength (block st p) + a) 0 l.

Lemma lens_bytes st used free l : ring st used free -> (forall p, p ∈ l -> p ∈ used) ->
  lens st l = bytes (map (fun p => contents (block st p)) l).
Proof.
  intros Hr. induction l as [|p l IH]; intros Hl; [done|]. cbn [lens foldr map]. rewrite bytes_cons.
  rewrite (contents_length st used free) by (done || apply Hl; left). f_equal. apply IH. intros. apply Hl. by right.
Qed.

Lemma ack_loop_ok st l2 last l1 : forall p b mv, path (next st) p (l1 ++ l2) last ->
  exists p', ack_loop st (length l1) p b mv = (p', b - lens st l1, mv || bool_decide (m_pCurrBlock st ∈ l1)) /\
    path (next st) p l1 p' /\ path (next st) p' l2 last.
Proof.
  induction l1 as [|x l1 IH]; intros p b mv Hp.
  - exists p. cbn [app length ack_loop lens foldr]. rewrite bool_decide_false by set_solver. rewrite orb_false_r, Z.sub_0_r. done.
  - cbn [app path] in Hp. destruct Hp as [-> Hp]. cbn [length ack_loop].
    destruct (IH (next st x) (b - m_iLength (block st x)) (if x =? m_pCurrBlock st then true else mv) Hp) as (p' & E & H1 & H2).
    exists p'. rewrite E. split; [|done]. cbn [lens foldr]. fold (lens st l1). f_equal; [f_equal; lia|].
    destruct (Z.eqb_spec x (m_pCurrBlock st)) as [->|Hne].
    + rewrite (bool_decide_true (_ ∈ _ :: _)) by set_solver. by rewrite orb_true_r.
    + f_equal. apply bool_decide_ext. set_solver.
Qed.

Lemma curr_in_prefix st used free c n : ring st used free -> (used ++ [m_pLastBlock st]) !! c = Some (m_pCurrBlock st) ->
  (n <= length used)%nat -> bool_decide (m_pCurrBlock st ∈ take n used) = (c <? n)%nat.
Proof.
  intros Hr Hc Hn. destruct (ring_last _ _ _ Hr) as [Hnd _]. destruct (Nat.ltb_spec c n).
  - apply bool_decide_eq_true. apply (list_elem_of_lookup_2 _ c). rewrite lookup_take_lt by done. by rewrite lookup_app_l in Hc by lia.
  - apply bool_decide_eq_false. intros [i Hi]%list_elem_of_lookup. apply lookup_take_Some in Hi as [Hi Hlt].
    assert (i = c); [|lia]. eapply NoDup_lookup; [exact Hnd| |exact Hc]. by apply lookup_app_l_Some.
Qed.

(** The first [n] packets leave the buffer. *)
Lemma release_holds st used free c n p' : wf st -> ring st used free ->
  (used ++ [m_pLastBlock st]) !! c = Some (m_pCurrBlock st) ->
  m_iBytesCount st = bytes (map (fun p => contents (block st p)) used) -> (n <= length used)%nat ->
  path (next st) (m_pFirstBlock st) (take n used) p' -> path (next st) p' (drop n used) (m_pLastBlock st) ->
  holds (set_counts (m_iCount st - Z.of_nat n) (m_iBytesCount st - lens st (take n used))
     (set_pos p' (if (c <? n)%nat then p' else m_pCurrBlock st) (m_pLastBlock st) st))
    (drop n (map (fun p => contents (block st p)) used)) (c - n).
Proof.
  intros Hw Hr Hc Hb Hn Hp1 Hp2. split; [by destruct Hw; split|].
  assert (Hperm : drop n used ++ free ++ take n used ≡ₚ used ++ free).
  { rewrite <- (take_drop n used) at 3. solve_Permutation. }
  exists (drop n used), (free ++ take n used). split; [split|split; [|split]].
  - exact Hp2.
  - apply path_app. exists (m_pFirstBlock st). split; [exact (r_free _ _ _ Hr)|exact Hp1].
  - intros [? _]%app_eq_nil. by apply (r_room _ _ _ Hr).
  - rewrite Hperm. exact (r_nodup _ _ _ Hr).
  - intros p Hp. apply (r_in _ _ _ Hr). by rewrite <- Hperm.
  - intros p Hp. apply (r_mem _ _ _ Hr). by rewrite <- Hperm.
  - intros p Hp. apply (r_len _ _ _ Hr). by apply (subseteq_drop n used).
  - cbn [m_iSize set_counts set_pos]. rewrite (r_size _ _ _ Hr). by rewrite Hperm.
  - cbn [m_iCount set_counts]. rewrite (r_count _ _ _ Hr), length_drop. lia.
  - by rewrite skipn_map.
  - cbn [m_pCurrBlock m_pLastBlock set_counts set_pos]. destruct (Nat.ltb_spec c n).
    + replace (c - n)%nat with O by lia. destruct (drop n used) as [|y l]; [by rewrite <- Hp2|]. by apply path_head in Hp2 as <-.
    + rewrite <- drop_app_le by done. rewrite lookup_drop. by replace (n + (c - n))%nat with c by lia.
  - cbn [m_iBytesCount set_counts]. rewrite Hb, (lens_bytes st used free) by (done || (intros p; apply subseteq_take)).
    rewrite <- (take_drop n used) at 1. rewrite map_app, bytes_app, skipn_map. lia.
Qed.

Lemma ack_holds st q c n : holds st q c -> (n <= length q)%nat -> holds (ackData (Z.of_nat n) st) (drop n q) (c - n).
Proof.
  intros (Hw & used & free & Hr & -> & Hc & Hb) Hn. rewrite length_map in Hn. pose proof (r_used _ _ _ Hr) as Hu.
  rewrite <- (take_drop n used) in Hu. destruct (ack_loop_ok st _ _ _ _ (m_iBytesCount st) false Hu) as (p' & E & H1 & H2).
  rewrite length_take_le in E by done. unfold ackData. rewrite Nat2Z.id, E. cbn [orb].
  rewrite (curr_in_prefix _ _ _ _ _ Hr Hc Hn). by apply (release_holds st used free).
Qed.

Definition k_msgno (x : pkt) : Z := Z.land (u32 (k_bits x)) MSGNO_SEQ_mask.

(** The packets at the head that are older than a time. *)
Fixpoint late (too_late_time : Z) (q : list pkt) : nat :=
  match q with
  | x :: q => if k_origin x <? too_late_time then S (late too_late_time q) else O
  | [] => O
  end.

(** The message number of the last of the first [n] packets. *)
Definition last_msgno (q : list pkt) (n : nat) : Z := match list.last (take n q) with Some x => k_msgno x | None => 0 end.

Lemma late_le tl q : (late tl q <= length q)%nat.
Proof. induction q; cbn [late length]; [lia|]. destruct (_ <? _); lia. Qed.

Lemma drop_late_ok st tl last_p l : forall p dp db m mv, path (next st) p l last_p ->
  let q := map (fun p => contents (block st p)) l in
  let n := late tl q in
  exists p', drop_late_loop st tl (length l) p dp db m mv =
      (p', dp + Z.of_nat n, db + lens st (take n l), from_option k_msgno m (list.last (take n q)), mv || bool_decide (m_pCurrBlock st ∈ take n l)) /\
    path (next st) p (take n l) p' /\ path (next st) p' (drop n l) last_p.
Proof.
  induction l as [|x l IH]; intros p dp db m mv Hp q n.
  - exists p. subst n q. cbn. rewrite bool_decide_false by set_solver. rewrite orb_false_r, !Z.add_0_r. done.
  - destruct Hp as [-> Hp]. subst n q. cbn [map late length drop_late_loop]. change (k_origin (contents (block st x))) with (m_tsOriginTime (block st x)).
    destruct (m_tsOriginTime (block st x) <? tl) eqn:Et.
    + destruct (IH (next st x) (dp + 1) (db + m_iLength (block st x)) (getMsgSeq (block st x)) (if x =? m_pCurrBlock st then true else mv) Hp) as (p' & E & H1 & H2).
      set (n := late tl _) in *. exists p'. rewrite E. split; [|done]. cbn [take lens foldr]. fold (lens st (take n l)).
      rewrite list.last_cons. f_equal; [f_equal; [f_equal; [f_equal; lia|lia]|]|].
      * by destruct (list.last (take n (map _ l))).
      * destruct (Z.eqb_spec x (m_pCurrBlock st)) as [->|Hne].
        -- rewrite (bool_decide_true (_ ∈ _ :: _)) by set_solver. by rewrite orb_true_r.
        -- f_equal. apply bool_decide_ext. set_solver.
    + exists x. cbn. rewrite bool_decide_false by set_solver. rewrite orb_false_r, !Z.add_0_r. done.
Qed.

Lemma drop_late_holds st q c tl : holds st q c ->
  let k := late tl q in
  exists st', dropLateData tl st = (st', (bytes (take k q), next_MsgNo (last_msgno q k), Z.of_nat k)) /\
    holds st' (drop k q) (c - k).
Proof.
  intros (Hw & used & free & Hr & -> & Hc & Hb) k.
  destruct (drop_late_ok st tl _ used (m_pFirstBlock st) 0 0 0 false (r_used _ _ _ Hr)) as (p' & E & H1 & H2).
  pose proof (late_le tl (map (fun p => contents (block st p)) used)) as Hk. fold k in E, H1, H2, Hk. rewrite length_map in Hk.
  unfold dropLateData. rewrite (r_count _ _ _ Hr), Nat2Z.id, E. cbn [orb]. rewrite !Z.add_0_l.
  rewrite (curr_in_prefix _ _ _ _ _ Hr Hc Hk). eexists. split; [apply f_equal2; [reflexivity|]|].
  - rewrite firstn_map, <- (lens_bytes st used free) by (done || (intros p; apply subseteq_take)).
    unfold last_msgno. rewrite firstn_map. by destruct (list.last _).
  - rewrite <- (r_count _ _ _ Hr). by apply (release_holds st used free).
Qed.

(** Packets leave the buffer from its head.  [ackData] takes away as
    many as were acknowledged, [dropLateData] exactly those at the head that
    are older than the given time, and it returns their bytes, their number
    and the message number behind the last one of them.  The others stay in
    order, those read already stay read, and when unread packets go the next
    packet to read is the new first one. *)
Theorem sndbuf_release (st : t) (q : list pkt) (c n : nat) (tl : Z) (Hh : holds st q c) (Hn : (n <= length q)%nat) :
  holds (ackData (Z.of_nat n) st) (drop n q) (c - n) /\
  let k := late tl q in
  exists st', dropLateData tl st = (st', (bytes (take k q), next_MsgNo (last_msgno q k), Z.of_nat k)) /\
    holds st' (drop k q) (c - k).
Proof. split; [by apply ack_holds|by apply drop_late_holds]. Qed.

(** ** Reading a new packet *)

Lemma path_next nx p l q i x : path nx p l q -> l !! i = Some x -> (l ++ [q]) !! S i = Some (nx x).
Proof.
  revert p i. induction l as [|y l IH]; intros p i Hp Hi; [done|]. cbn [path] in Hp. destruct Hp as [-> Hp].
  destruct i as [|i]; cbn [lookup list_lookup app] in *.
  - injection Hi as ->. destruct l as [|z l]; [by rewrite <- Hp|]. by apply path_head in Hp as <-.
  - by apply (IH (nx y)).
Qed.

(** An update of a block that leaves its memory, its length and its pointer
    alone changes one packet of the queue. *)
Lemma upd_holds st used free c i p f : wf st -> ring st used free -> used !! i = Some p ->
  (used ++ [m_pLastBlock st]) !! c = Some (m_pCurrBlock st) ->
  m_iBytesCount st = bytes (map (fun p => contents (block st p)) used) ->
  m_pNext (f (block st p)) = m_pNext (block st p) -> m_pcData (f (block st p)) = m_pcData (block st p) ->
  m_iLength (f (block st p)) = m_iLength (block st p) ->
  ring (upd_block p f st) used free /\
  map (fun p' => contents (block (upd_block p f st) p')) used = <[i := contents (f (block st p))]> (map (fun p => contents (block st p)) used) /\
  holds (upd_block p f st) (<[i := contents (f (block st p))]> (map (fun p => contents (block st p)) used)) c.
Proof.
  intros Hw Hr Hi Hc Hb En Ed El. set (st' := upd_block p f st). assert (Hpu : p ∈ used) by by eapply list_elem_of_lookup_2.
  assert (Hpb : 0 <= p < zlen (blocks st)) by (apply (r_in _ _ _ Hr); set_solver).
  assert (Hblk : forall x, block st' x = if x =? p then f (block st p) else block st x) by (intros; by apply block_upd).
  assert (Hlen : length (blocks st') = length (blocks st)) by (cbn; by rewrite length_aupd).
  assert (Hnx : forall x, next st' x = next st x) by (intros x; unfold next; rewrite Hblk; by destruct (Z.eqb_spec x p) as [->|]).
  assert (Hr' : ring st' used free).
  { destruct Hr as [H1 H2 H3 H4 H5 H6 H7 H8 H9]. split; try done.
    - eapply path_ext; [|exact H1]. done.
    - eapply path_ext; [|exact H2]. done.
    - intros x Hx. rewrite Hlen. by apply H5.
    - intros x Hx. rewrite Hblk. destruct (Z.eqb_spec x p) as [->|]; [rewrite Ed; by apply H6|by apply H6].
    - intros x Hx. rewrite Hblk. destruct (Z.eqb_spec x p) as [->|]; [rewrite El; by apply H7|by apply H7]. }
  assert (Hmap : map (fun x => contents (block st' x)) used = <[i := contents (f (block st p))]> (map (fun x => contents (block st x)) used)).
  { assert (Hn : NoDup used) by (pose proof (r_nodup _ _ _ Hr) as Hn; by apply list.NoDup_app in Hn as (Hn & _)).
    apply list_eq. intros j. rewrite list_lookup_fmap. destruct (decide (j = i)) as [->|Hne].
    - rewrite Hi. cbn. rewrite Hblk, Z.eqb_refl. symmetry. apply list_lookup_insert_eq. rewrite length_map. by eapply lookup_lt_Some.
    - rewrite list_lookup_insert_ne, list_lookup_fmap by done. destruct (used !! j) as [x|] eqn:Ej; [|done]. cbn. f_equal. f_equal.
      rewrite Hblk. rewrite (proj2 (Z.eqb_neq _ _)); [done|]. intros ->. apply Hne. by eapply NoDup_lookup. }
  split; [done|]. split; [done|]. split; [by destruct Hw; split|]. exists used, free. split; [done|]. split; [done|]. split; [done|].
  change (m_iBytesCount st') with (m_iBytesCount st). rewrite Hb, <- Hmap. unfold bytes. rewrite !map_map.
  do 3 f_equal. apply map_ext_in. intros x _. rewrite Hblk. destruct (Z.eqb_spec x p) as [->|]; [|done].
  cbn [contents k_data]. by rewrite El, Ed.
Qed.

Definition k_expired (now : Z) (x : pkt) : bool := (k_ttl x >=? 0) && (Z.quot (now - k_origin x) 1000 >? k_ttl x).

(** The packets from the head that have expired; the clock is read for each. *)
Fixpoint skipped (clock : nat -> Z) (j : nat) (q : list pkt) : nat :=
  match q with
  | x :: q => if k_expired (clock j) x then S (skipped clock (S j) q) else O
  | [] => O
  end.

(** The key flags in the message bits of a packet. *)
Definition enc (kflgs : Z) (x : pkt) : pkt :=
  if kflgs =? -1 then x
  else mkPkt (k_data x) (or32 (k_bits x) (EncryptionKeyBits (u32 kflgs))) (k_seq x) (k_origin x) (k_rexmit x) (k_ttl x).

(** [f] for the [n] packets from position [c] on. *)
Definition mark (f : pkt -> pkt) (c n : nat) (q : list pkt) : list pkt :=
  imap (fun i x => if (c <=? i)%nat && (i <? c + n)%nat then f x else x) q.

Definition pkt_packet (x : pkt) (p : CPacket.t) : CPacket.t :=
  CPacket.mk (u32 (k_seq x)) (u32 (k_bits x)) (SRT_PH_TIMESTAMP p) (SRT_PH_ID p) (k_data x).

Lemma mark_none f c q : mark f c 0 q = q.
Proof.
  apply list_eq. intros i. unfold mark. rewrite list_lookup_imap. destruct (q !! i); [|done]. cbn. f_equal.
  case_match eqn:E; [|done]. apply andb_true_iff in E as [?%Nat.leb_le ?%Nat.ltb_lt]. lia.
Qed.

Lemma mark_step f c n q x : q !! c = Some x -> mark f (S c) n (<[c := f x]> q) = mark f c (S n) q.
Proof.
  intros Hx. apply list_eq. intros i. unfold mark. rewrite !list_lookup_imap. destruct (decide (i = c)) as [->|Hne].
  - rewrite list_lookup_insert_eq by by eapply lookup_lt_Some. rewrite Hx. cbn -[Nat.leb Nat.ltb Nat.add]. f_equal.
    rewrite (proj2 (Nat.leb_gt (S c) c)), (proj2 (Nat.leb_le c c)), (proj2 (Nat.ltb_lt c (c + S n))) by lia. done.
  - rewrite list_lookup_insert_ne by done. destruct (q !! i); [|done]. cbn -[Nat.leb Nat.ltb Nat.add]. f_equal.
    replace (S c <=? i)%nat with (c <=? i)%nat by (destruct (Nat.leb_spec c i), (Nat.leb_spec (S c) i); (done || lia)).
    by replace (c + S n)%nat with (S c + n)%nat by lia.
Qed.

Lemma curr_at_end st q c : holds st q c -> (m_pCurrBlock st =? m_pLastBlock st) = (c =? length q)%nat /\ (c <= length q)%nat.
Proof.
  intros (_ & used & free & Hr & -> & Hc & _). rewrite length_map. destruct (ring_last _ _ _ Hr) as [Hnd _].
  pose proof (lookup_lt_Some _ _ _ Hc) as Hlt. rewrite length_app in Hlt. cbn in Hlt. split; [|lia].
  assert (Hl : (used ++ [m_pLastBlock st]) !! length used = Some (m_pLastBlock st)) by by rewrite lookup_app_r, Nat.sub_diag.
  destruct (Nat.eqb_spec c (length used)) as [->|Hne].
  - rewrite Hl in Hc. injection Hc as <-. apply Z.eqb_refl.
  - apply Z.eqb_neq. intros E. apply Hne. rewrite E in Hc. by eapply NoDup_lookup.
Qed.

Lemma read_step_ok clock kflgs st q c p ts rl j x : holds st q c -> q !! c = Some x ->
  exists st', holds st' (<[c := enc kflgs x]> q) (S c) /\
    read_step clock kflgs (st, p, ts, rl, j) =
      if k_expired (clock j) x then inl (st', pkt_packet (enc kflgs x) p, k_origin x, 0, S j)
      else inr (st', pkt_packet (enc kflgs x) p, k_origin x, if kflgs =? -1 then 0 else zlen (k_data x), j).
Proof.
  intros Hh Hx. destruct (curr_at_end _ _ _ Hh) as [Hend _]. pose proof (lookup_lt_Some _ _ _ Hx) as Hlt.
  rewrite (proj2 (Nat.eqb_neq _ _)) in Hend by lia. destruct Hh as (Hw & used & free & Hr & -> & Hc & Hb).
  rewrite length_map in Hlt. rewrite list_lookup_fmap in Hx. rewrite lookup_app_l in Hc by done. rewrite Hc in Hx. cbn in Hx.
  injection Hx as <-. set (b := m_pCurrBlock st) in *. pose proof (path_next _ _ _ _ _ _ (r_used _ _ _ Hr) Hc) as Hnx.
  set (f := fun blk => if kflgs =? -1 then blk else set_bitset (or32 (m_iMsgNoBitset blk) (EncryptionKeyBits (u32 kflgs))) blk).
  assert (Hc1 : (used ++ [m_pLastBlock st]) !! c = Some b) by by apply lookup_app_l_Some.
  destruct (upd_holds st used free c c b f Hw Hr Hc Hc1 Hb) as (Hr1 & Hmap & Hh1); [unfold f; by destruct (kflgs =? -1)..|].
  assert (Hf : contents (f (block st b)) = enc kflgs (contents (block st b))) by (unfold f, enc; by destruct (kflgs =? -1)).
  rewrite Hf in Hmap, Hh1. set (st1 := upd_block b f st) in *.
  assert (Hblk : block st1 b = f (block st b)).
  { unfold st1. rewrite block_upd, Z.eqb_refl; [done|]. apply (r_in _ _ _ Hr). apply elem_of_app. left. by eapply list_elem_of_lookup_2. }
  assert (Hnx1 : next st1 b = next st b) by (unfold next; rewrite Hblk; unfold f; by destruct (kflgs =? -1)).
  pose proof (contents_length st used free b Hr ltac:(by eapply list_elem_of_lookup_2)) as Hlen.
  exists (set_pos (m_pFirstBlock st1) (next st1 b) (m_pLastBlock st1) st1). split.
  - destruct Hh1 as (Hw1 & _). split; [by destruct Hw1; split|]. exists used, free. split; [by destruct Hr1; split|].
    split; [by rewrite <- Hmap|]. split; [cbn [m_pCurrBlock m_pLastBlock set_pos]; rewrite Hnx1; exact Hnx|]. rewrite <- Hmap.
    change (m_iBytesCount st = bytes (map (fun p' => contents (block st1 p')) used)). rewrite Hmap, Hb. unfold bytes.
    rewrite <- Hmap, !map_map. do 3 f_equal. apply map_ext_in. intros y _.
    destruct (decide (y = b)) as [->|]; [rewrite Hblk, Hf; unfold enc; by destruct (kflgs =? -1)|].
    unfold st1. rewrite block_upd, (proj2 (Z.eqb_neq _ _)) by (done || apply (r_in _ _ _ Hr), elem_of_app; left; by eapply list_elem_of_lookup_2). done.
  - unfold read_step. fold b. rewrite Hend. fold st1.
    assert (E1 : (if kflgs =? -1 then (st, 0)
      else (upd_block b (fun b => set_bitset (or32 (m_iMsgNoBitset b) (EncryptionKeyBits (u32 kflgs))) b) st, m_iLength (block st b))) =
      (st1, if kflgs =? -1 then 0 else m_iLength (block st b))).
    { unfold st1, f. destruct (kflgs =? -1); [|done]. f_equal. unfold upd_block. rewrite aupd_same by done || (apply (r_in _ _ _ Hr), elem_of_app; left; by eapply list_elem_of_lookup_2).
      by destruct st. }
    rewrite E1, Hblk.
    assert (Hfill : fill_packet (m_iLength (f (block st b))) (f (block st b)) (m_iSeqNo (f (block st b))) (m_iMsgNoBitset (f (block st b))) p =
      pkt_packet (enc kflgs (contents (block st b))) p) by (rewrite <- Hf; done).
    rewrite Hfill. assert (Hexp : expired (clock j) (f (block st b)) = k_expired (clock j) (contents (block st b)))
      by (unfold f; by destruct (kflgs =? -1)).
    assert (Hor : m_tsOriginTime (f (block st b)) = k_origin (contents (block st b))) by (unfold f; by destruct (kflgs =? -1)).
    rewrite Hexp, Hor, Hlen. done.
Qed.

Lemma mark_beyond f n q : mark f (length q) n q = q.
Proof.
  apply list_eq. intros i. unfold mark. rewrite list_lookup_imap. destruct (q !! i) eqn:Ei; [|done]. apply lookup_lt_Some in Ei.
  cbn -[Nat.leb Nat.ltb]. by rewrite (proj2 (Nat.leb_gt _ _)) by lia.
Qed.

Lemma read_loop_snd clock kflgs m : forall st q c p ts rl j, holds st q c -> (length q - c < m)%nat ->
  let k := skipped clock j (drop c q) in
  exists st' p' ts' rl', loop m (read_step clock kflgs) (st, p, ts, rl, j) = Some (st', p', ts', rl', (j + k)%nat) /\
    holds st' (mark (enc kflgs) c (S k) q) (Nat.min (length q) (c + k + 1)) /\
    match q !! (c + k)%nat with
    | Some x => p' = pkt_packet (enc kflgs x) p /\ ts' = k_origin x /\ rl' = if kflgs =? -1 then 0 else zlen (k_data x)
    | None => rl' = rl \/ rl' = 0
    end.
Proof.
  induction m as [|m IH]; intros st q c p ts rl j Hh Hm; [lia|]. cbn [loop]. destruct (curr_at_end _ _ _ Hh) as [Hend Hle].
  destruct (q !! c) as [x|] eqn:Ex.
  - destruct (read_step_ok clock kflgs st q c p ts rl j x Hh Ex) as (st1 & Hh1 & E1). rewrite E1.
    pose proof (lookup_lt_Some _ _ _ Ex) as Hlt. rewrite (drop_S _ _ _ Ex). cbn [skipped].
    destruct (k_expired (clock j) x).
    + destruct (IH st1 (<[c:=enc kflgs x]> q) (S c) (pkt_packet (enc kflgs x) p) (k_origin x) 0 (S j) Hh1) as (st' & p' & ts' & rl' & E & Hh' & Hr).
      { rewrite length_insert. lia. }
      rewrite drop_insert_lt in E, Hh', Hr by lia. rewrite length_insert in Hh'. set (k := skipped clock (S j) (drop (S c) q)) in *.
      exists st', p', ts', rl'. rewrite E. split; [do 2 f_equal; lia|]. rewrite (mark_step _ _ _ _ _ Ex) in Hh'.
      replace (c + S k + 1)%nat with (S c + k + 1)%nat by lia. split; [done|].
      rewrite list_lookup_insert_ne in Hr by lia. replace (c + S k)%nat with (S c + k)%nat by lia.
      destruct (q !! (S c + k)%nat) as [y|]; [exact Hr|]. right. by destruct Hr.
    + exists st1, (pkt_packet (enc kflgs x) p), (k_origin x), (if kflgs =? -1 then 0 else zlen (k_data x)).
      rewrite !Nat.add_0_r, Ex. split; [done|]. split; [|done]. rewrite <- (mark_step _ _ _ _ _ Ex), mark_none.
      by replace (length q `min` (c + 1))%nat with (S c) by lia.
  - apply lookup_ge_None in Ex. assert (c = length q) as -> by lia. exists st, p, ts, rl. unfold read_step.
    rewrite Hend, Nat.eqb_refl, drop_all. cbn [skipped]. rewrite !Nat.add_0_r. split; [done|]. split.
    + replace (length q `min` (length q + 1))%nat with (length q) by lia. by rewrite mark_beyond.
    + rewrite lookup_ge_None_2 by lia. by left.
Qed.

Lemma holds_blocks st q c : holds st q c -> (length q < length (blocks st))%nat.
Proof. intros (_ & used & free & Hr & -> & _). rewrite length_map. by apply (ring_blocks st used free). Qed.

Lemma read_data_ok (clock : nat -> Z) (kflgs : Z) (p : CPacket.t) (ts : Z) (st : t) (q : list pkt) (c : nat)
  (Hh : holds st q c) :
  let k := skipped clock 0 (drop c q) in
  exists st' p' ts' len, readData clock kflgs p ts st = Some (st', p', ts', len, k) /\
    holds st' (mark (enc kflgs) c (S k) q) (Nat.min (length q) (c + k + 1)) /\
    match q !! (c + k)%nat with
    | Some x => p' = pkt_packet (enc kflgs x) p /\ ts' = k_origin x /\ len = if kflgs =? -1 then 0 else zlen (k_data x)
    | None => len = 0
    end.
Proof.
  intros k. destruct (read_loop_snd clock kflgs (fuel st) st q c p ts 0 0 Hh) as (st' & p' & ts' & rl' & E & Hh' & Hr).
  { pose proof (holds_blocks _ _ _ Hh). unfold fuel. lia. }
  exists st', p', ts', rl'. split; [exact E|]. split; [exact Hh'|]. fold k in Hr. destruct (q !! (c + k)%nat); [done|by destruct Hr].
Qed.

(** [readData] for new packets always returns: it skips the packets at
    the reading point whose time to live is over at the clock's reading for
    each, counts them, and gives the first one that is still valid, with its
    data, number, origin time and message bits, the key flags added for good
    to those of all the packets passed; without a key to encrypt with the
    length is 0.  When none is left the length is 0 and everything is passed. *)
Theorem sndbuf_readData (clock : nat -> Z) (kflgs : Z) (p : CPacket.t) (ts : Z) (st : t) (q : list pkt) (c : nat)
  (Hh : holds st q c) :
  let k := skipped clock 0 (drop c q) in
  exists st' p' ts' len, readData clock kflgs p ts st = Some (st', p', ts', len, k) /\
    holds st' (mark (enc kflgs) c (S k) q) (Nat.min (length q) (c + k + 1)) /\
    match q !! (c + k)%nat with
    | Some x => p' = pkt_packet (enc kflgs x) p /\ ts' = k_origin x /\ len = if kflgs =? -1 then 0 else zlen (k_data x)
    | None => len = 0
    end.
Proof. by apply read_data_ok. Qed.

(** ** Reading a packet again *)

Fixpoint same_msg (m : Z) (q : list pkt) : nat :=
  match q with
  | x :: q => if m =? k_msgno x then S (same_msg m q) else O
  | [] => O
  end.

Lemma advance_to_last_ok st l : forall p n, path (next st) p l (m_pLastBlock st) -> m_pLastBlock st ∉ l ->
  (l ++ [m_pLastBlock st]) !! Nat.min n (length l) = Some (advance_to_last st n p).
Proof.
  induction l as [|x l IH]; intros p n Hp Hl.
  - cbn [path] in Hp. subst p. rewrite Nat.min_0_r. destruct n; [done|]. cbn [advance_to_last]. by rewrite Z.eqb_refl.
  - destruct Hp as [-> Hp]. destruct n as [|n]; [done|]. cbn [length advance_to_last].
    rewrite (proj2 (Z.eqb_neq _ _)) by (intros ->; set_solver). apply IH; [done|set_solver].
Qed.

Section Rexmit.
Context (st : t) (used free : list Z) (Hr : ring st used free).
Let at_ (i : nat) : option Z := (used ++ [m_pLastBlock st]) !! i.
Let q : list pkt := map (fun p => contents (block st p)) used.

Lemma at_inj i j p : at_ i = Some p -> at_ j = Some p -> i = j.
Proof. intros Hi Hj. eapply NoDup_lookup; [apply (ring_last _ _ _ Hr)|exact Hi|exact Hj]. Qed.

Lemma at_end i p : at_ i = Some p -> (p =? m_pLastBlock st) = (i =? length used)%nat.
Proof.
  intros Hi. assert (Hl : at_ (length used) = Some (m_pLastBlock st)) by (unfold at_; by rewrite lookup_app_r, Nat.sub_diag).
  destruct (Nat.eqb_spec i (length used)) as [->|Hne].
  - rewrite Hl in Hi. injection Hi as <-. apply Z.eqb_refl.
  - apply Z.eqb_neq. intros ->. apply Hne. by eapply at_inj.
Qed.

Lemma at_used i p : at_ i = Some p -> i <> length used -> used !! i = Some p /\ at_ (S i) = Some (next st p) /\ q !! i = Some (contents (block st p)).
Proof.
  intros Hi Hne. pose proof (lookup_lt_Some _ _ _ Hi) as Hlt. rewrite length_app in Hlt. cbn in Hlt.
  assert (Hu : used !! i = Some p) by (unfold at_ in Hi; by rewrite lookup_app_l in Hi by lia). split; [done|]. split.
  - by apply (path_next _ _ _ _ _ _ (r_used _ _ _ Hr)).
  - unfold q. by rewrite list_lookup_fmap, Hu.
Qed.

Lemma drop_msg_loop m : forall n i cc p curr len (mv : bool),
  at_ i = Some p -> at_ cc = Some curr -> (mv = true -> cc = i) -> (length used - i < n)%nat ->
  let r := same_msg m (drop i q) in
  let cc' := if (i <=? cc)%nat && (cc <? i + r)%nat then (i + r)%nat else cc in
  exists p' curr', loop n (drop_step st m) (p, curr, len, mv) = Some (p', curr', len + Z.of_nat r) /\
    at_ cc' = Some curr'.
Proof.
  induction n as [|n IH]; intros i cc p curr len mv Hp Hc Hmv Hf; [lia|]. cbn [loop].
  unfold drop_step at 1. rewrite (at_end i p Hp). destruct (Nat.eqb_spec i (length used)) as [->|Hne]; cbn [negb andb].
  - unfold q. rewrite drop_ge by (rewrite length_map; lia). cbn [same_msg]. exists p, curr. rewrite Z.add_0_r. split; [done|].
    rewrite Nat.add_0_r. case_match eqn:E; [|done]. apply andb_true_iff in E as [?%Nat.leb_le ?%Nat.ltb_lt]. lia.
  - destruct (at_used i p Hp Hne) as (Hu & Hnx & Hq). rewrite (drop_S _ _ _ Hq). cbn [same_msg].
    change (k_msgno (contents (block st p))) with (getMsgSeq (block st p)). destruct (m =? getMsgSeq (block st p)).
    + pose proof (lookup_lt_Some _ _ _ Hu). set (r := same_msg m (drop (S i) q)).
      assert (Emv : (if p =? curr then true else mv) = (cc =? i)%nat).
      { destruct (Nat.eqb_spec cc i) as [->|Hn].
        - rewrite Hp in Hc. injection Hc as <-. by rewrite Z.eqb_refl.
        - destruct (Z.eqb_spec p curr) as [<-|]; [exfalso; exact (Hn (at_inj _ _ _ Hc Hp))|]. destruct mv; [|done]. exfalso. exact (Hn (Hmv eq_refl)). }
      rewrite Emv.
      destruct (IH (S i) (if cc =? i then S i else cc)%nat (next st p) (if (cc =? i)%nat then next st p else curr) (len + 1) (cc =? i)%nat)
        as (p' & curr' & E & Hcc); try lia.
      * done.
      * by destruct (cc =? i)%nat.
      * by intros ->.
      * fold r in E, Hcc. exists p', curr'. rewrite E. split; [do 2 f_equal; lia|]. rewrite <- Hcc. f_equal.
        destruct (Nat.eqb_spec cc i); repeat match goal with
          | |- context [(?a <=? ?b)%nat] => destruct (Nat.leb_spec a b)
          | |- context [(?a <? ?b)%nat] => destruct (Nat.ltb_spec a b) end; cbn [andb]; lia.
    + exists p, curr. rewrite Z.add_0_r, Nat.add_0_r. split; [done|].
      case_match eqn:E; [|done]. apply andb_true_iff in E as [?%Nat.leb_le ?%Nat.ltb_lt]. lia.
Qed.
End Rexmit.

Definition rexmitted (ts : Z) (x : pkt) : pkt := mkPkt (k_data x) (k_bits x) (k_seq x) (k_origin x) ts (k_ttl x).

Lemma set_curr_holds st used free c p : wf st -> ring st used free -> (used ++ [m_pLastBlock st]) !! c = Some p ->
  m_iBytesCount st = bytes (map (fun p => contents (block st p)) used) ->
  holds (set_pos (m_pFirstBlock st) p (m_pLastBlock st) st) (map (fun p => contents (block st p)) used) c.
Proof. intros Hw Hr Hc Hb. split; [by destruct Hw; split|]. exists used, free. split; [by destruct Hr; split|done]. Qed.

(** The block at an offset, or the last one. *)
Lemma at_offset st used free n : ring st used free ->
  let b := advance_to_last st n (m_pFirstBlock st) in
  (b =? m_pLastBlock st) = (length used <=? n)%nat /\
  forall p, used !! n = Some p -> b = p.
Proof.
  intros Hr b. pose proof (ring_last _ _ _ Hr) as [_ Hnl].
  pose proof (advance_to_last_ok st used (m_pFirstBlock st) n (r_used _ _ _ Hr) Hnl) as Hadv. fold b in Hadv. split.
  - rewrite (at_end st used free Hr _ b Hadv).
    destruct (Nat.leb_spec (length used) n); [apply Nat.eqb_eq|apply Nat.eqb_neq]; lia.
  - intros p Hp. pose proof (lookup_lt_Some _ _ _ Hp). rewrite Nat.min_l, lookup_app_l, Hp in Hadv by lia. by injection Hadv.
Qed.

(** A packet whose time to live is over takes its message away. *)
Lemma rexmit_drop_ok tnow trexmit p st q c n x : holds st q c -> q !! n = Some x -> k_expired tnow x = true ->
  let len := S (same_msg (k_msgno x) (drop (S n) q)) in
  exists st', readData_rexmit tnow trexmit (Z.of_nat n) p st =
      Some (st', Rexmit_Drop (mkDrop (getSeqNo p) (incseq_by (getSeqNo p) (Z.of_nat len - 1)) (k_msgno x))) /\
    holds st' q (if (n <? c)%nat && (c <? n + len)%nat then (n + len)%nat else c).
Proof.
  intros (Hw & used & free & Hr & -> & Hc & Hb) Hx Hexp len. destruct (at_offset st used free n Hr) as [Hend Hat].
  rewrite list_lookup_fmap in Hx. destruct (used !! n) as [b|] eqn:Eu; [|done]. injection Hx as <-. pose proof (lookup_lt_Some _ _ _ Eu) as Hlt.
  unfold readData_rexmit. rewrite Nat2Z.id, Hend. rewrite (Hat b eq_refl). rewrite (proj2 (Nat.leb_gt _ _)) by done.
  change (expired tnow (block st b) = true) in Hexp. rewrite Hexp.
  assert (Hb0 : (used ++ [m_pLastBlock st]) !! n = Some b) by by apply lookup_app_l_Some.
  destruct (at_used st used free Hr n b Hb0 ltac:(lia)) as (_ & Hnx & _).
  destruct (drop_msg_loop st used free Hr (getMsgSeq (block st b)) (fuel st) (S n) c (next st b) (m_pCurrBlock st) 1 false Hnx Hc)
    as (p' & curr' & E & Hcc); [done|pose proof (ring_blocks _ _ _ Hr); unfold fuel; lia|].
  rewrite E. cbn [mbind option_bind]. subst len. change (k_msgno (contents (block st b))) with (getMsgSeq (block st b)).
  set (r := same_msg _ _) in *. replace (1 + Z.of_nat r) with (Z.of_nat (S r)) by lia. eexists. split; [reflexivity|].
  apply (set_curr_holds st used free); try done. rewrite <- Hcc. f_equal.
  replace (S n + r)%nat with (n + S r)%nat by lia. done.
Qed.

Lemma rexmit_data_ok tnow trexmit p st q c n x : holds st q c -> q !! n = Some x -> k_expired tnow x = false ->
  exists st', readData_rexmit tnow trexmit (Z.of_nat n) p st =
      Some (st', Rexmit_Data (CPacket.mk (SRT_PH_SEQNO p) (u32 (k_bits x)) (SRT_PH_TIMESTAMP p) (SRT_PH_ID p) (k_data x)) (k_origin x) (zlen (k_data x))) /\
    holds st' (<[n := rexmitted trexmit x]> q) c.
Proof.
  intros Hh Ex Hexp. destruct Hh as (Hw & used & free & Hr & -> & Hc & Hb). destruct (at_offset st used free n Hr) as [Hend Hat].
  rewrite list_lookup_fmap in Ex. destruct (used !! n) as [b|] eqn:Eu; [|done]. injection Ex as <-. pose proof (lookup_lt_Some _ _ _ Eu).
  unfold readData_rexmit. rewrite Nat2Z.id, Hend. rewrite (Hat b eq_refl), (proj2 (Nat.leb_gt _ _)) by done.
  change (expired tnow (block st b) = false) in Hexp. rewrite Hexp.
  pose proof (contents_length st used free b Hr ltac:(by eapply list_elem_of_lookup_2)) as Hlen. rewrite Hlen.
  destruct (upd_holds st used free c n b (set_rexmit trexmit) Hw Hr Eu Hc Hb) as (_ & _ & Hh'); try done.
  eexists. split; [reflexivity|]. exact Hh'.
Qed.

(** [readData] for the packet at an offset: beyond the packets that are
    held there is nothing; a packet whose time to live is over takes its whole
    message away from its position on: the range to drop are the sequence
    numbers from that of the request, as many as packets of the same message
    follow, and the reading point moves behind them when it was among them; any
    other packet is given with the bits it was sent with, and only the time of
    its retransmission changes. *)
Theorem sndbuf_rexmit (tnow trexmit : Z) (p : CPacket.t) (st : t) (q : list pkt) (c n : nat) (Hh : holds st q c) :
  match q !! n with
  | None => readData_rexmit tnow trexmit (Z.of_nat n) p st = Some (st, Rexmit_None)
  | Some x =>
      if k_expired tnow x then
        let len := S (same_msg (k_msgno x) (drop (S n) q)) in
        let range := mkDrop (getSeqNo p) (incseq_by (getSeqNo p) (Z.of_nat len - 1)) (k_msgno x) in
        exists st', readData_rexmit tnow trexmit (Z.of_nat n) p st = Some (st', Rexmit_Drop range) /\
          holds st' q (if (n <? c)%nat && (c <? n + len)%nat then (n + len)%nat else c)
      else
        let packet := CPacket.mk (SRT_PH_SEQNO p) (u32 (k_bits x)) (SRT_PH_TIMESTAMP p) (SRT_PH_ID p) (k_data x) in
        exists st', readData_rexmit tnow trexmit (Z.of_nat n) p st = Some (st', Rexmit_Data packet (k_origin x) (zlen (k_data x))) /\
          holds st' (<[n := rexmitted trexmit x]> q) c
  end.
Proof.
  destruct (q !! n) as [x|] eqn:Ex; [destruct (k_expired tnow x) eqn:Hexp; [by apply rexmit_drop_ok|by apply rexmit_data_ok]|].
  destruct Hh as (Hw & used & free & Hr & -> & Hc & Hb). apply lookup_ge_None in Ex. rewrite length_map in Ex.
  destruct (at_offset st used free n Hr) as [Hend _]. unfold readData_rexmit. rewrite Nat2Z.id, Hend. by rewrite (proj2 (Nat.leb_le _ _)).
Qed.

(** ** Examples: a message of five bytes in packets of three *)

Definition example_ctrl : SRT_MSGCTRL := mkCtrl SRT_MSGNO_NONE 0x7FFFFFFF 0 10 true.
Definition example_add := addBuffer (fun _ => true) 1000 [1; 2; 3; 4; 5] example_ctrl (init 2 3 0).
Definition example_buffer : t := from_option fst (init 2 3 0) example_add.
Definition example_queue : list pkt :=
  msg_pkts [1; 2; 3; 4; 5] 3 2 10 (Z.lor 1 MSGNO_PACKET_INORDER_mask) 1000 0x7FFFFFFF.

Lemma example_ring : wf example_buffer /\ ring example_buffer [0; 2] [3; 1].
Proof.
  split; [split; vm_compute; [split; congruence|done]|]. split.
  1-2: vm_compute; done.
  - done.
  - apply (bool_decide_unpack _). vm_compute. exact I.
  - intros p Hp. assert (Forall (fun p => 0 <= p < zlen (blocks example_buffer)) ([0; 2] ++ [3; 1])) as Hf; [|by eapply list.Forall_forall in Hf].
    repeat constructor; vm_compute; congruence.
  - intros p Hp. assert (Forall (fun p => zlen (m_pcData (block example_buffer p)) = m_iBlockLen example_buffer) ([0; 2] ++ [3; 1])) as Hf; [|by eapply list.Forall_forall in Hf].
    repeat constructor.
  - intros p Hp. assert (Forall (fun p => 0 <= m_iLength (block example_buffer p) <= m_iBlockLen example_buffer) [0; 2]) as Hf; [|by eapply list.Forall_forall in Hf].
    repeat constructor; vm_compute; congruence.
  - vm_compute. done.
  - vm_compute. done.
Qed.

(** The same with the reading point at a given place. *)
Definition example_sent (curr : Z) : t := set_pos (m_pFirstBlock example_buffer) curr (m_pLastBlock example_buffer) example_buffer.

Lemma example_holds_at c p : [0; 2; 3] !! c = Some p -> holds (example_sent p) example_queue c.
Proof.
  intros Hc. destruct example_ring as [Hw Hr].
  assert (example_queue = map (fun p => contents (block example_buffer p)) [0; 2]) as -> by (vm_compute; reflexivity).
  apply (set_curr_holds example_buffer [0; 2] [3; 1]); [done|done|exact Hc|vm_compute; reflexivity].
Qed.

Lemma example_holds : holds example_buffer example_queue 0.
Proof. exact (example_holds_at 0 0 eq_refl). Qed.

Lemma sndbuf_addBuffer_witness :
  exists st' w', addBuffer (fun _ => true) 1000 [1; 2; 3; 4; 5] example_ctrl (init 2 3 0) = Some (st', Some w') /\
    pktseq w' = 1 /\ holds st' ([] ++ example_queue) 0.
Proof.
  destruct (sndbuf_addBuffer (fun _ => true) 1000 [1; 2; 3; 4; 5] example_ctrl (init 2 3 0) [] 0 0x7FFFFFFF
    (init_holds_snd 2 3 0 ltac:(lia) ltac:(lia)) eq_refl) as (st' & r & E & H).
  destruct r as [w'|]; [|destruct H as (_ & k & Hk); discriminate].
  destruct H as (Hh & _ & _ & -> & _). eexists st', _. split; [exact E|]. split; [vm_compute; reflexivity|exact Hh].
Defined.

Lemma sndbuf_readData_witness :
  exists st' p' ts', readData (fun j => 1000 + 11000 * (1 - Z.of_nat j)) 1 (CPacket.mk 0 0 0 0 []) 0 example_buffer = Some (st', p', ts', 2, 1%nat) /\
    CPacket.m_pcData p' = [4; 5] /\ getSeqNo p' = 0 /\ getMsgCryptoFlags p' = 1.
Proof.
  destruct (sndbuf_readData (fun j => 1000 + 11000 * (1 - Z.of_nat j)) 1 (CPacket.mk 0 0 0 0 []) 0 example_buffer example_queue 0 example_holds)
    as (st' & p' & ts' & len & E & _ & H).
  change (skipped _ _ _) with 1%nat in *. vm_compute in H. destruct H as (-> & -> & ->).
  eexists st', _, _. split; [exact E|]. vm_compute. done.
Defined.

Lemma sndbuf_rexmit_witness :
  exists st', readData_rexmit 12000 0 0 (CPacket.mk 0 0 0 0 []) example_buffer = Some (st', Rexmit_Drop (mkDrop 0 1 1)) /\ holds st' example_queue 0.
Proof.
  pose proof (sndbuf_rexmit 12000 0 (CPacket.mk 0 0 0 0 []) example_buffer example_queue 0 0 example_holds) as H.
  destruct H as (st' & E & H). exists st'. split; [exact E|exact H].
Defined.

Lemma sndbuf_release_witness :
  holds (ackData 1 example_buffer) (drop 1 example_queue) 0 /\
  exists st', dropLateData 2000 example_buffer = (st', (5, 2, 2)) /\ holds st' [] 0.
Proof.
  destruct (sndbuf_release example_buffer example_queue 0 1 2000 example_holds ltac:(vm_compute; lia)) as (H1 & st' & E & H2).
  split; [exact H1|]. exists st'. split; [exact E|exact H2].
Defined.
