(* ===== verification/SndRexmit.v ===== *)
(** The sender's side of retransmission and acknowledgement in core.cpp: how
    the loss list of SndLossList.v and the buffer of SndBuffer.v are used
    together, under the lock [m_RecvAckLock] that every function here holds. *)
From S2P Require Import Prelude SeqNo Slots Packet.
From S2P Require SndLossList SndBuffer.
Import CSeqNo.

Module CUDTSnd.
Record t := mk {
  m_pSndBuffer : SndBuffer.CSndBuffer.t;
  m_pSndLossList : SndLossList.CSndLossList.t;
  m_iSndLastDataAck : Z;
  m_iSndLastAck : Z;
  m_iSndCurrSeqNo : Z;
  m_iFlowWindowSize : Z;
  (** the UMSG_DROPREQ messages sent, in order: message number, first and last
      sequence number *)
  dropreq_sent : list (Z * Z * Z);
}.

(** The configuration and the measurements that the functions read. *)
Record config := mkConfig {
  m_bPeerNakReport : bool;
  iRetransmitAlgo : Z;
  m_iSRTT : Z;
  m_iRTTVar : Z;
  m_bPeerTLPktDrop : bool;
  bMessageAPI : bool;
  iSndDropDelay : Z;
  m_iPeerTsbPdDelay_ms : Z;
}.

Definition set_losslist (l : SndLossList.CSndLossList.t) (st : t) : t :=
  mk (m_pSndBuffer st) l (m_iSndLastDataAck st) (m_iSndLastAck st) (m_iSndCurrSeqNo st) (m_iFlowWindowSize st) (dropreq_sent st).
Definition set_buffer (b : SndBuffer.CSndBuffer.t) (st : t) : t :=
  mk b (m_pSndLossList st) (m_iSndLastDataAck st) (m_iSndLastAck st) (m_iSndCurrSeqNo st) (m_iFlowWindowSize st) (dropreq_sent st).
Definition set_iSndCurrSeqNo (s : Z) (st : t) : t :=
  mk (m_pSndBuffer st) (m_pSndLossList st) (m_iSndLastDataAck st) (m_iSndLastAck st) s (m_iFlowWindowSize st) (dropreq_sent st).
Definition set_acks (dataack ack window : Z) (st : t) : t :=
  mk (m_pSndBuffer st) (m_pSndLossList st) dataack ack (m_iSndCurrSeqNo st) window (dropreq_sent st).
Definition sendDropReq (msgno lo hi : Z) (st : t) : t :=
  mk (m_pSndBuffer st) (m_pSndLossList st) (m_iSndLastDataAck st) (m_iSndLastAck st) (m_iSndCurrSeqNo st) (m_iFlowWindowSize st)
    (dropreq_sent st ++ [(msgno, lo, hi)]).

Definition checkRexmitRightTime (cfg : config) (offset current_time : Z) (st : t) : bool :=
  if negb (m_bPeerNakReport cfg) || (iRetransmitAlgo cfg =? 0) then true else
  let time_nak := current_time - (m_iSRTT cfg - 4 * m_iRTTVar cfg) in
  negb (SndBuffer.CSndBuffer.getPacketRexmitTime offset (m_pSndBuffer st) >=? time_nak).

(** The inner loop of [getCleanRexmitOffset]: it drops the numbers before
    [m_iSndLastDataAck] and stops at the first one that is not. *)
Definition outdated_step (st : t) : t + (t * Z * Z) :=
  let '(l, seq) := SndLossList.CSndLossList.popLostSeq (m_pSndLossList st) in
  let st := set_losslist l st in
  if seq =? SRT_SEQNO_NONE then inr (st, seq, -1) else
  let offset := seqoff (m_iSndLastDataAck st) seq in
  if offset >=? 0 then inr (st, seq, offset) else inl st.

(** Every iteration takes a number from the loss list. *)
Definition loss_fuel (st : t) : nat := S (Z.to_nat (SndLossList.CSndLossList.getLossLength (m_pSndLossList st))).

(** One iteration of the outer loop, [k] counts them for the clock. *)
Definition clean_step (cfg : config) (clock : nat -> Z) (s : t * nat) : (t * nat) + option (t * Z * Z) :=
  let '(st, k) := s in
  let '(l, seq) := SndLossList.CSndLossList.popLostSeq (m_pSndLossList st) in
  let st := set_losslist l st in
  if seq =? SRT_SEQNO_NONE then inr (Some (st, SRT_SEQNO_NONE, -1)) else
  let offset := seqoff (m_iSndLastDataAck st) seq in
  let r := if offset <? 0 then
             '(st, seq', offset) ← loop (loss_fuel st) outdated_step st;
             Some (sendDropReq 0 seq (decseq (m_iSndLastDataAck st)) st, seq', offset)
           else Some (st, seq, offset) in
  match r with
  | None => inr None
  | Some (st, seq, offset) =>
      if seq =? SRT_SEQNO_NONE then inr (Some (st, SRT_SEQNO_NONE, -1))
      else if negb (checkRexmitRightTime cfg offset (clock k) st) then inl (st, S k)
      else inr (Some (st, seq, offset))
  end.

Definition getCleanRexmitOffset (cfg : config) (clock : nat -> Z) (st : t) : option (t * Z * Z) :=
  r ← loop (loss_fuel st) (clean_step cfg clock) (st, O); r.

(** One iteration of [extractCleanRexmitPacket]; [clock k] are the readings of
    the clock in iteration [k]. *)
Definition extract_step (clock : nat -> Z * Z) (seqno offset : Z) (s : t * CPacket.t * Z * nat) :
    (t * CPacket.t * Z * nat) + option (t * CPacket.t * Z * Z) :=
  let '(st, w_packet, w_tsOrigin, k) := s in
  let w_packet := CPacket.set_seqno (u32 seqno) w_packet in
  match SndBuffer.CSndBuffer.readData_rexmit (clock k).1 (clock k).2 offset w_packet (m_pSndBuffer st) with
  | None => inr None
  | Some (b, SndBuffer.CSndBuffer.Rexmit_None) => inr (Some (set_buffer b st, w_packet, w_tsOrigin, 0))
  | Some (b, SndBuffer.CSndBuffer.Rexmit_Data packet srctime readlen) => inr (Some (set_buffer b st, packet, srctime, readlen))
  | Some (b, SndBuffer.CSndBuffer.Rexmit_Drop d) =>
      let st := set_buffer b st in
      let lo := SndBuffer.CSndBuffer.seqno_begin d in
      let hi := SndBuffer.CSndBuffer.seqno_end d in
      let st := sendDropReq (SndBuffer.CSndBuffer.drop_msgno d) lo hi st in
      match SndLossList.CSndLossList.removeUpTo hi (m_pSndLossList st) with
      | None => inr None
      | Some l => inl (set_iSndCurrSeqNo (maxseq (m_iSndCurrSeqNo st) hi) (set_losslist l st), w_packet, w_tsOrigin, S k)
      end
  end.

(** [extractCleanRexmitPacket] with a bound on the number of iterations, for
    which the code has none. *)
Definition extractCleanRexmitPacket (fuel : nat) (clock : nat -> Z * Z) (seqno offset : Z) (w_packet : CPacket.t) (w_tsOrigin : Z) (st : t) :
    option (t * CPacket.t * Z * Z) :=
  r ← loop fuel (extract_step clock seqno offset) (st, w_packet, w_tsOrigin, O); r.

(** [updateSndLossListOnACK], without the group. *)
Definition updateSndLossListOnACK (ackdata_seqno : Z) (st : t) : option t :=
  let offset := seqoff (m_iSndLastDataAck st) ackdata_seqno in
  if offset <=? 0 then Some st else
  let st := set_acks ackdata_seqno (m_iSndLastAck st) (m_iFlowWindowSize st) st in
  l ← SndLossList.CSndLossList.removeUpTo (decseq (m_iSndLastDataAck st)) (m_pSndLossList st);
  Some (set_buffer (SndBuffer.CSndBuffer.ackData offset (m_pSndBuffer st)) (set_losslist l st)).

Definition SRT_TLPKTDROP_MINTHRESHOLD_MS : Z := 1000.
Definition COMM_SYN_INTERVAL_US : Z := 10000.

Definition drop_threshold_ms (cfg : config) : Z :=
  if iSndDropDelay cfg >=? 0
  then Z.max (m_iPeerTsbPdDelay_ms cfg + iSndDropDelay cfg) SRT_TLPKTDROP_MINTHRESHOLD_MS + 2 * COMM_SYN_INTERVAL_US / 1000
  else 0.

(** [sndDropTooLate]: the number of packets dropped; [None] as the result where
    the function throws. *)
Definition sndDropTooLate (cfg : config) (tnow : Z) (st : t) : option (t * option Z) :=
  if negb (m_bPeerTLPktDrop cfg) then Some (st, Some 0)
  else if negb (bMessageAPI cfg) then Some (st, None) else
  let buffdelay_ms := i32 (Z.quot (SndBuffer.CSndBuffer.getBufferingDelay tnow (m_pSndBuffer st)) 1000) in
  let threshold_ms := drop_threshold_ms cfg in
  if (threshold_ms =? 0) || (buffdelay_ms <=? threshold_ms) then Some (st, Some 0) else
  let '(b, (_, _, dpkts)) := SndBuffer.CSndBuffer.dropLateData (tnow - threshold_ms * 1000) (m_pSndBuffer st) in
  let st := set_buffer b st in
  if dpkts <=? 0 then Some (st, Some 0) else
  let fakeack := incseq_by (m_iSndLastDataAck st) dpkts in
  let st := set_acks fakeack fakeack (m_iFlowWindowSize st + dpkts) st in
  let minlastack := decseq (m_iSndLastDataAck st) in
  l ← SndLossList.CSndLossList.removeUpTo minlastack (m_pSndLossList st);
  let st := set_losslist l st in
  let st := if seqcmp (m_iSndCurrSeqNo st) minlastack <? 0 then set_iSndCurrSeqNo minlastack st else st in
  Some (st, Some dpkts).
End CUDTSnd.
Import CUDTSnd.

(** ** The sender's invariant

    [a] is the position of the first packet in the buffer; the buffer holds the
    packets [q], of which [c] have been sent; the losses are among those. *)
Record sender (st : t) (a : Z) (q : list SndBuffer.pkt) (c : nat) (S : gset Z) : Prop := {
  s_buf : SndBuffer.holds (m_pSndBuffer st) q c;
  s_loss : SndLossList.holds (m_pSndLossList st) S;
  s_size : SndLossList.CSndLossList.m_iSize (m_pSndLossList st) <= m_iSeqNoTH;
  s_ack : m_iSndLastDataAck st = seq_of a;
  s_seq : forall i x, q !! i = Some x -> SndBuffer.k_seq x = seq_of (a + Z.of_nat i);
  s_window : zlen q < SndLossList.CSndLossList.m_iSize (m_pSndLossList st);
  s_sent : forall x, x ∈ S -> a <= x < a + Z.of_nat c
}.

Lemma sender_fits st a q c S : sender st a q c S -> fits a (SndLossList.CSndLossList.m_iSize (m_pSndLossList st)) S.
Proof.
  intros Hs x Hx. apply (s_sent _ _ _ _ _ Hs) in Hx. pose proof (s_window _ _ _ _ _ Hs).
  destruct (SndBuffer.curr_at_end _ _ _ (s_buf _ _ _ _ _ Hs)). simpl. lia.
Qed.

Lemma sender_seq_drop (q : list SndBuffer.pkt) a n : (forall i x, q !! i = Some x -> SndBuffer.k_seq x = seq_of (a + Z.of_nat i)) ->
  forall i x, drop n q !! i = Some x -> SndBuffer.k_seq x = seq_of (a + Z.of_nat n + Z.of_nat i).
Proof. intros H i x Hi. rewrite lookup_drop in Hi. rewrite (H _ _ Hi). f_equal. lia. Qed.

(** The losses before a position go. *)
Lemma losses_from st a q c S n : sender st a q c S -> (n <= length q)%nat -> (0 < n)%nat ->
  exists l, SndLossList.CSndLossList.removeUpTo (decseq (seq_of (a + Z.of_nat n))) (m_pSndLossList st) = Some l /\
    SndLossList.holds l (filter (fun x => a + Z.of_nat n <= x) S) /\
    SndLossList.CSndLossList.m_iSize l = SndLossList.CSndLossList.m_iSize (m_pSndLossList st).
Proof.
  intros Hs Hn H0. pose proof (s_window _ _ _ _ _ Hs). rewrite decseq_seq_of.
  destruct (SndLossList.removeUpTo_holds _ S (a + Z.of_nat n - 1) a (s_loss _ _ _ _ _ Hs)) as (l & E & Hl & Hsz);
    [lia|by eapply sender_fits|].
  exists l. split; [done|]. split; [|done].
  assert (filter (fun x => a + Z.of_nat n <= x) S = filter (fun x => a + Z.of_nat n - 1 < x) S) as ->; [|done].
  apply set_eq. intros x. rewrite !elem_of_filter. split; intros [? ?]; (split; [lia|done]).
Qed.

(** After the first [n] packets have gone. *)
Lemma sender_moved st st' a q c S n b : sender st a q c S ->
  SndBuffer.holds b (drop n q) (c - n) -> m_pSndBuffer st' = b ->
  SndLossList.holds (m_pSndLossList st') (filter (fun x => a + Z.of_nat n <= x) S) ->
  SndLossList.CSndLossList.m_iSize (m_pSndLossList st') = SndLossList.CSndLossList.m_iSize (m_pSndLossList st) ->
  m_iSndLastDataAck st' = seq_of (a + Z.of_nat n) ->
  sender st' (a + Z.of_nat n) (drop n q) (c - n) (filter (fun x => a + Z.of_nat n <= x) S).
Proof.
  intros Hs Hb <- Hl Hls Hq. split; rewrite ?Hls; try done; try apply Hs.
  - apply sender_seq_drop, Hs.
  - rewrite length_drop. pose proof (s_window _ _ _ _ _ Hs). lia.
  - intros x [Hx HxS]%elem_of_filter. apply (s_sent _ _ _ _ _ Hs) in HxS. lia.
Qed.

Lemma sender_unmoved st a q c S : sender st a q c S -> sender st (a + 0) (drop 0 q) (c - 0) (filter (fun x => a + 0 <= x) S).
Proof.
  intros Hs. rewrite Z.add_0_r, drop_0, Nat.sub_0_r.
  assert (filter (fun x => a <= x) S = S) as ->; [|done]. apply set_eq. intros x. rewrite elem_of_filter. split; [by intros []|].
  intros Hx. split; [|done]. apply (s_sent _ _ _ _ _ Hs) in Hx. lia.
Qed.

(** The age of the first packet. *)
Definition delay (tnow : Z) (q : list SndBuffer.pkt) : Z :=
  match q with [] => 0 | x :: _ => tnow - SndBuffer.k_origin x end.

Lemma buffering_delay st q c tnow : SndBuffer.holds st q c -> SndBuffer.CSndBuffer.getBufferingDelay tnow st = delay tnow q.
Proof.
  intros Hh. destruct (SndBuffer.holds_size _ _ _ Hh) as [Hn _]. unfold SndBuffer.CSndBuffer.getBufferingDelay. rewrite Hn.
  destruct Hh as (_ & used & free & Hr & -> & _). destruct used as [|p used]; [done|]. cbn [map delay length]. rewrite (proj2 (Z.eqb_neq _ _)) by lia.
  by pose proof (SndBuffer.path_head _ _ _ _ _ (SndBuffer.r_used _ _ _ Hr)) as ->.
Qed.

Lemma ack_list_ok st a q c S b : sender st a q c S -> a - m_iSeqNoTH < b <= a + zlen q ->
  exists st', updateSndLossListOnACK (seq_of b) st = Some st' /\
    (if b <=? a then st' = st
     else sender st' b (drop (Z.to_nat (b - a)) q) (c - Z.to_nat (b - a)) (filter (fun x => b <= x) S)) /\
    m_iSndLastAck st' = m_iSndLastAck st /\ m_iSndCurrSeqNo st' = m_iSndCurrSeqNo st /\ m_iFlowWindowSize st' = m_iFlowWindowSize st /\
    dropreq_sent st' = dropreq_sent st.
Proof.
  intros Hs Hb. pose proof (s_window _ _ _ _ _ Hs) as Hw. pose proof (s_size _ _ _ _ _ Hs) as Hsz. unfold m_iSeqNoTH in *.
  unfold updateSndLossListOnACK. rewrite (s_ack _ _ _ _ _ Hs), seqoff_seq_of by (unfold m_iSeqNoTH; lia).
  destruct (Z.leb_spec b a) as [Hle|Hgt].
  - rewrite (proj2 (Z.leb_le _ _)) by lia. by exists st.
  - rewrite (proj2 (Z.leb_gt _ _)) by lia. set (n := Z.to_nat (b - a)). cbn [m_iSndLastDataAck set_acks].
    replace (seq_of b) with (seq_of (a + Z.of_nat n)) by (f_equal; lia).
    destruct (losses_from st a q c S n Hs) as (l & E & Hl & Hls); [lia|lia|].
    change (m_pSndLossList (set_acks _ _ _ st)) with (m_pSndLossList st). rewrite E. cbn [mbind option_bind].
    eexists. split; [reflexivity|]. split; [|done]. replace (b - a) with (Z.of_nat n) by lia. replace b with (a + Z.of_nat n) by lia.
    eapply (sender_moved st); try done. apply SndBuffer.ack_holds; [apply Hs|lia].
Qed.

(** C17. An acknowledgement of the first [n] packets takes them out of the
    buffer and their numbers out of the loss list, and an old or repeated one
    changes nothing; a drop of the packets that are too late does the same for
    them, with every later loss kept, opens the flow window by as many, and
    moves the last sent number on when packets that were never sent went.  In
    both cases the number of the first packet in the buffer, the losses and the
    reading point fit together again. *)
Theorem snd_ack_and_drop (cfg : config) (tnow : Z) (st : t) (a : Z) (q : list SndBuffer.pkt) (c : nat) (S : gset Z) (b : Z)
  (Hs : sender st a q c S) (Hcur : m_iSndCurrSeqNo st = seq_of (a + Z.of_nat c - 1))
  (Hb : a - m_iSeqNoTH < b <= a + zlen q) :
  (exists st', updateSndLossListOnACK (seq_of b) st = Some st' /\
    if b <=? a then st' = st
    else sender st' b (drop (Z.to_nat (b - a)) q) (c - Z.to_nat (b - a)) (filter (fun x => b <= x) S)) /\
  exists st' r, sndDropTooLate cfg tnow st = Some (st', r) /\
    match r with
    | None => st' = st /\ m_bPeerTLPktDrop cfg = true /\ bMessageAPI cfg = false
    | Some n =>
        let T := drop_threshold_ms cfg in
        let k := if negb (m_bPeerTLPktDrop cfg) || (T =? 0) || (i32 (Z.quot (delay tnow q) 1000) <=? T) then O
                 else SndBuffer.late (tnow - T * 1000) q in
        n = Z.of_nat k /\ sender st' (a + n) (drop k q) (c - k) (filter (fun x => a + n <= x) S) /\
        m_iFlowWindowSize st' = m_iFlowWindowSize st + n /\
        m_iSndCurrSeqNo st' = seq_of (a + n + Z.of_nat (c - k) - 1)
    end.
Proof.
  pose proof (s_window _ _ _ _ _ Hs) as Hw. pose proof (s_size _ _ _ _ _ Hs) as Hsz. unfold m_iSeqNoTH in *.
  destruct (SndBuffer.curr_at_end _ _ _ (s_buf _ _ _ _ _ Hs)) as [_ Hc]. split.
  - destruct (ack_list_ok st a q c S b Hs Hb) as (st' & E & H & _). by exists st'.
  - unfold sndDropTooLate. destruct (m_bPeerTLPktDrop cfg); cbn [negb orb].
    2:{ exists st, (Some 0). split; [done|]. cbv zeta. split; [done|]. split; [by apply sender_unmoved|]. split; [lia|]. rewrite Hcur. f_equal. lia. }
    destruct (bMessageAPI cfg); cbn [negb]; [|by exists st, None].
    rewrite (buffering_delay _ q c) by apply Hs. set (T := drop_threshold_ms cfg).
    destruct ((T =? 0) || _).
    { exists st, (Some 0). split; [done|]. cbv zeta. split; [done|]. split; [by apply sender_unmoved|]. split; [lia|]. rewrite Hcur. f_equal. lia. }
    destruct (SndBuffer.drop_late_holds _ _ _ (tnow - T * 1000) (s_buf _ _ _ _ _ Hs)) as (bf & E & Hbf). rewrite E.
    pose proof (SndBuffer.late_le (tnow - T * 1000) q) as Hk. set (k := SndBuffer.late (tnow - T * 1000) q) in *.
    destruct (Z.leb_spec (Z.of_nat k) 0) as [H0|H0].
    + assert (Hk0 : k = O) by lia. rewrite Hk0 in *. rewrite drop_0, Nat.sub_0_r in Hbf.
      exists (set_buffer bf st), (Some 0). split; [done|]. cbv zeta. split; [done|].
      split; [apply sender_unmoved; by destruct Hs; split|]. split; [cbn [m_iFlowWindowSize set_buffer]; lia|].
      cbn [m_iSndCurrSeqNo set_buffer]. rewrite Hcur. f_equal. lia.
    + cbn [m_iSndLastDataAck m_iFlowWindowSize set_buffer set_acks]. rewrite (s_ack _ _ _ _ _ Hs), incseq_by_seq_of by lia.
      cbn [m_pSndLossList set_buffer set_acks]. destruct (losses_from st a q c S k Hs) as (l & El & Hl & Hls); [lia|lia|].
      rewrite El. cbn [mbind option_bind]. cbn [m_iSndCurrSeqNo set_losslist set_buffer set_acks]. rewrite Hcur, decseq_seq_of.
      rewrite seqcmp_ltb by (unfold m_iSeqNoTH; lia). eexists _, (Some (Z.of_nat k)). split; [reflexivity|]. cbv zeta. split; [done|].
      destruct (Z.ltb_spec (a + Z.of_nat c - 1) (a + Z.of_nat k - 1)); (split; [by eapply (sender_moved st)|]); (split; [done|]);
        cbn [m_iSndCurrSeqNo set_iSndCurrSeqNo set_losslist set_buffer set_acks]; rewrite ?Hcur; f_equal; lia.
Qed.

(** ** The packet that is sent again *)

Lemma expired_later now now' x : now <= now' -> SndBuffer.k_expired now x = true -> SndBuffer.k_expired now' x = true.
Proof.
  intros Hle. unfold SndBuffer.k_expired. intros [H1 H2]%andb_true_iff. apply andb_true_iff. split; [done|].
  pose proof (Z.quot_le_mono (now - SndBuffer.k_origin x) (now' - SndBuffer.k_origin x) 1000 ltac:(lia) ltac:(lia)).
  rewrite Z.gtb_ltb in *. lia.
Qed.

(** One iteration for a packet whose time to live is over. *)
Lemma extract_step_drop clock st a q c S n x p ts k : sender st a q c S -> q !! n = Some x ->
  SndBuffer.k_expired (clock k).1 x = true ->
  let last := a + Z.of_nat (n + SndBuffer.same_msg (SndBuffer.k_msgno x) (drop (Datatypes.S n) q)) in
  exists st' p' c' S', extract_step clock (seq_of (a + Z.of_nat n)) (Z.of_nat n) (st, p, ts, k) = inl (st', p', ts, Datatypes.S k) /\
    sender st' a q c' S' /\
    dropreq_sent st' = dropreq_sent st ++ [(SndBuffer.k_msgno x, seq_of (a + Z.of_nat n), seq_of last)].
Proof.
  intros Hs Hx Hexp last. unfold extract_step. set (r := SndBuffer.same_msg _ _) in *.
  set (p1 := CPacket.set_seqno (u32 (seq_of (a + Z.of_nat n))) p).
  destruct (SndBuffer.rexmit_drop_ok (clock k).1 (clock k).2 p1 (m_pSndBuffer st) q c n x (s_buf _ _ _ _ _ Hs) Hx Hexp) as (b & E & Hb).
  fold r in E, Hb. rewrite E. pose proof (lookup_lt_Some _ _ _ Hx) as Hlt.
  pose proof (s_window _ _ _ _ _ Hs) as Hw. pose proof (s_size _ _ _ _ _ Hs) as Hsz. unfold m_iSeqNoTH in Hsz.
  assert (Hr : (n + r < length q)%nat).
  { assert (r <= length (drop (Datatypes.S n) q))%nat as Hr; [|rewrite length_drop in Hr; lia].
    unfold r. generalize (drop (Datatypes.S n) q). intros l. induction l as [|y l IH]; cbn [SndBuffer.same_msg length]; [lia|]. destruct (_ =? _); lia. }
  assert (Hg : CPacket.getSeqNo p1 = seq_of (a + Z.of_nat n)).
  { unfold CPacket.getSeqNo, p1. cbn. pose proof (seq_of_valid (a + Z.of_nat n)) as Hv. unfold valid, m_iMaxSeqNo in Hv.
    rewrite u32_id by (unfold in_u32; lia). apply i32_id. unfold in_i32. lia. }
  rewrite Hg, incseq_by_seq_of by lia. replace (a + Z.of_nat n + (Z.of_nat (Datatypes.S r) - 1)) with last by (unfold last; lia).
  cbn [SndBuffer.CSndBuffer.seqno_begin SndBuffer.CSndBuffer.seqno_end SndBuffer.CSndBuffer.drop_msgno m_pSndLossList sendDropReq set_buffer].
  destruct (SndLossList.removeUpTo_holds _ S last a (s_loss _ _ _ _ _ Hs)) as (l & El & Hl & Hls); [unfold last; lia|by eapply sender_fits|].
  rewrite El. set (c' := if _ && _ then _ else _) in Hb. eexists _, p1, c', (filter (fun y => last < y) S). split; [reflexivity|]. split; [|done].
  split; cbn [m_pSndBuffer m_pSndLossList m_iSndLastDataAck set_iSndCurrSeqNo set_losslist sendDropReq set_buffer]; rewrite ?Hls; try done; try apply Hs.
  intros y [Hy HyS]%elem_of_filter. apply (s_sent _ _ _ _ _ Hs) in HyS. assert (Hc : (c <= c')%nat); [|lia].
  unfold c'. case_match eqn:Ec; [|lia]. apply andb_true_iff in Ec as [?%Nat.ltb_lt ?%Nat.ltb_lt]. lia.
Qed.

Lemma rexmit_running (clock : nat -> Z * Z) (st : t) (a : Z) (q : list SndBuffer.pkt) (c n : nat) (S : gset Z)
  (x : SndBuffer.pkt) (p : CPacket.t) (ts : Z) (Hs : sender st a q c S) (Hx : q !! n = Some x)
  (Hexp : SndBuffer.k_expired (clock O).1 x = true) (Hclock : forall j k, (j <= k)%nat -> (clock j).1 <= (clock k).1) (k : nat) :
  let last := a + Z.of_nat (n + SndBuffer.same_msg (SndBuffer.k_msgno x) (drop (Datatypes.S n) q)) in
  extractCleanRexmitPacket k clock (seq_of (a + Z.of_nat n)) (Z.of_nat n) p ts st = None /\
  exists st' p', iterations (extract_step clock (seq_of (a + Z.of_nat n)) (Z.of_nat n)) k (st, p, ts, O) = Some (st', p', ts, k) /\
    dropreq_sent st' = dropreq_sent st ++ replicate k (SndBuffer.k_msgno x, seq_of (a + Z.of_nat n), seq_of last).
Proof.
  intros last. set (seqno := seq_of (a + Z.of_nat n)).
  assert (H : forall k j st c S p, sender st a q c S -> exists st' p',
    iterations (extract_step clock seqno (Z.of_nat n)) k (st, p, ts, j) = Some (st', p', ts, (j + k)%nat) /\
    dropreq_sent st' = dropreq_sent st ++ replicate k (SndBuffer.k_msgno x, seqno, seq_of last)).
  { clear -Hx Hexp Hclock. intros k. induction k as [|k IH]; intros j st c S p Hs.
    - exists st, p. rewrite Nat.add_0_r, app_nil_r. done.
    - destruct (extract_step_drop clock st a q c S n x p ts j Hs Hx) as (st1 & p1 & c1 & S1 & E & Hs1 & Hd).
      { apply (expired_later (clock O).1); [apply Hclock; lia|done]. }
      destruct (IH (Datatypes.S j) st1 c1 S1 p1 Hs1) as (st' & p' & E' & Hd'). exists st', p'.
      cbn [iterations]. fold seqno in E. rewrite E, E'. split; [do 2 f_equal; lia|]. rewrite Hd', Hd, <- app_assoc. done. }
  destruct (H k O st c S p Hs) as (st' & p' & E & Hd). split; [|by exists st', p'].
  unfold extractCleanRexmitPacket. by rewrite (loop_running _ _ _ _ E).
Qed.

(** C13. A packet whose time to live is over and whose retransmission is
    asked for is never let go: [extractCleanRexmitPacket] reads the same
    offset of the buffer again after each drop, the packet is still there and
    still too old, so the loop has no end.  After any number of iterations it is
    still running, and has sent as many drop requests for the same range. *)
Theorem rexmit_never_ends (clock : nat -> Z * Z) (st : t) (a : Z) (q : list SndBuffer.pkt) (c n : nat) (S : gset Z)
  (x : SndBuffer.pkt) (p : CPacket.t) (ts : Z) (Hs : sender st a q c S) (Hx : q !! n = Some x)
  (Hexp : SndBuffer.k_expired (clock O).1 x = true) (Hclock : forall j k, (j <= k)%nat -> (clock j).1 <= (clock k).1) (k : nat) :
  let last := a + Z.of_nat (n + SndBuffer.same_msg (SndBuffer.k_msgno x) (drop (Datatypes.S n) q)) in
  extractCleanRexmitPacket k clock (seq_of (a + Z.of_nat n)) (Z.of_nat n) p ts st = None /\
  exists st' p', iterations (extract_step clock (seq_of (a + Z.of_nat n)) (Z.of_nat n)) k (st, p, ts, O) = Some (st', p', ts, k) /\
    dropreq_sent st' = dropreq_sent st ++ replicate k (SndBuffer.k_msgno x, seq_of (a + Z.of_nat n), seq_of last).
Proof. by apply (rexmit_running clock st a q c n S x p ts). Qed.

(** ** Which packet is sent again *)

(** The losses that are still in the buffer, and the message about the others. *)
Definition valid_losses (a : Z) (S : gset Z) : gset Z := filter (fun x => a <= x) S.
Definition outdated_msg (a : Z) (S : gset Z) : list (Z * Z * Z) :=
  match first_of S with Some m => if m <? a then [(0, seq_of m, seq_of (a - 1))] else [] | None => [] end.

(** Only the loss list and the messages sent have changed. *)
Definition picked (st st' : t) (S : gset Z) (msgs : list (Z * Z * Z)) : Prop :=
  SndLossList.holds (m_pSndLossList st') S /\ dropreq_sent st' = dropreq_sent st ++ msgs /\
  m_pSndBuffer st' = m_pSndBuffer st /\ m_iSndLastDataAck st' = m_iSndLastDataAck st /\
  m_iSndLastAck st' = m_iSndLastAck st /\ m_iSndCurrSeqNo st' = m_iSndCurrSeqNo st /\
  m_iFlowWindowSize st' = m_iFlowWindowSize st /\
  SndLossList.CSndLossList.m_iSize (m_pSndLossList st') = SndLossList.CSndLossList.m_iSize (m_pSndLossList st).

Lemma picked_pop st l S : SndLossList.holds l S ->
  SndLossList.CSndLossList.m_iSize l = SndLossList.CSndLossList.m_iSize (m_pSndLossList st) -> picked st (set_losslist l st) S [].
Proof. intros Hl Hsz. unfold picked. by rewrite app_nil_r. Qed.

Lemma picked_trans st st1 st2 S1 S2 m1 m2 : picked st st1 S1 m1 -> picked st1 st2 S2 m2 -> picked st st2 S2 (m1 ++ m2).
Proof.
  intros (H1 & H2 & H3 & H4 & H5 & H6 & H7 & H8) (K1 & K2 & K3 & K4 & K5 & K6 & K7 & K8). unfold picked.
  split_and!; try congruence. by rewrite K2, H2, (assoc (++)).
Qed.

Lemma picked_drop st S lo hi : SndLossList.holds (m_pSndLossList st) S -> picked st (sendDropReq 0 lo hi st) S [(0, lo, hi)].
Proof. done. Qed.

Definition near (a : Z) (S : gset Z) : Prop := forall x, x ∈ S -> - m_iSeqNoTH < x - a < m_iSeqNoTH.

Lemma valid_first a S m : first_of S = Some m -> a <= m -> valid_losses a S = S.
Proof.
  intros [Hm Hmin]%first_of_Some Ha. apply set_eq. intros x. unfold valid_losses. rewrite elem_of_filter.
  split; [by intros []|]. intros Hx. split; [|done]. specialize (Hmin x Hx). lia.
Qed.

Lemma valid_pop a S m : first_of S = Some m -> m < a -> valid_losses a (S ∖ {[m]}) = valid_losses a S.
Proof.
  intros _ Ha. apply set_eq. intros x. unfold valid_losses. rewrite !elem_of_filter, elem_of_difference, elem_of_singleton.
  split; [by intros (? & ? & ?)|]. intros [? ?]. split; [done|]. split; [done|]. intros ->. lia.
Qed.

Lemma near_sub a S S' : S' ⊆ S -> near a S -> near a S'.
Proof. intros Hsub Hn x Hx. apply Hn. by apply Hsub. Qed.

Lemma outdated_loop a : forall n st S, SndLossList.holds (m_pSndLossList st) S -> m_iSndLastDataAck st = seq_of a -> near a S ->
  (size S < n)%nat ->
  exists st' seq off, loop n outdated_step st = Some (st', seq, off) /\
    match first_of (valid_losses a S) with
    | Some m => seq = seq_of m /\ off = m - a /\ picked st st' (valid_losses a S ∖ {[m]}) []
    | None => seq = SRT_SEQNO_NONE /\ off = -1 /\ picked st st' ∅ []
    end.
Proof.
  induction n as [|n IH]; intros st S Hl Ha Hn Hsz; [lia|]. cbn [loop]. unfold outdated_step at 1.
  destruct (SndLossList.pop_holds _ _ Hl) as (l & E & Hl' & Hlsz). rewrite E. destruct (first_of S) as [m|] eqn:Em.
  - rewrite (proj2 (Z.eqb_neq _ _)) by apply seq_of_not_none. pose proof Em as [Hm Hmin]%first_of_Some.
    cbn [m_iSndLastDataAck set_losslist]. rewrite Ha, seqoff_seq_of by by apply Hn. rewrite Z.geb_leb. destruct (Z.leb_spec 0 (m - a)).
    + rewrite (valid_first a S m) by (done || lia). rewrite Em. eexists _, _, _. split; [reflexivity|]. split; [done|]. split; [done|].
      by apply picked_pop.
    + destruct (IH (set_losslist l st) (S ∖ {[m]}) Hl' Ha) as (st' & seq & off & E' & H'); [eapply near_sub; [|done]; set_solver| |].
      { rewrite size_difference by set_solver. rewrite size_singleton. pose proof (subseteq_size {[m]} S ltac:(set_solver)) as Hs. rewrite size_singleton in Hs. lia. }
      rewrite (valid_pop a S m) in H' by (done || lia). exists st', seq, off. split; [exact E'|].
      pose proof (picked_pop st l _ Hl' Hlsz) as Hp. destruct (first_of (valid_losses a S)); destruct H' as (-> & -> & H'); (split; [done|split; [done|]]); exact (picked_trans _ _ _ _ _ _ _ Hp H').
  - rewrite Z.eqb_refl. eexists _, _, _. split; [reflexivity|]. apply first_of_None in Em. subst S.
    assert (first_of (valid_losses a ∅) = None) as -> by (apply first_of_None; unfold valid_losses; set_solver).
    split; [done|]. split; [done|]. by apply picked_pop.
Qed.

Lemma clean_step_ok cfg clock st a S k : SndLossList.holds (m_pSndLossList st) S -> m_iSndLastDataAck st = seq_of a -> near a S ->
  match first_of (valid_losses a S) with
  | Some m => exists st', picked st st' (valid_losses a S ∖ {[m]}) (outdated_msg a S) /\
      clean_step cfg clock (st, k) = if checkRexmitRightTime cfg (m - a) (clock k) st then inr (Some (st', seq_of m, m - a)) else inl (st', Datatypes.S k)
  | None => exists st', picked st st' ∅ (outdated_msg a S) /\ clean_step cfg clock (st, k) = inr (Some (st', SRT_SEQNO_NONE, -1))
  end.
Proof.
  intros Hl Ha Hn. unfold clean_step. destruct (SndLossList.pop_holds _ _ Hl) as (l & E & Hl' & Hlsz). rewrite E.
  unfold outdated_msg. destruct (first_of S) as [m|] eqn:Em.
  - rewrite (proj2 (Z.eqb_neq _ _)) by apply seq_of_not_none. pose proof Em as [Hm Hmin]%first_of_Some.
    cbn [m_iSndLastDataAck set_losslist]. rewrite Ha, seqoff_seq_of by by apply Hn. destruct (Z.ltb_spec (m - a) 0).
    + rewrite (proj2 (Z.ltb_lt m a)) by lia.
      destruct (outdated_loop a (loss_fuel (set_losslist l st)) (set_losslist l st) (S ∖ {[m]}) Hl' Ha) as (st' & seq & off & E' & H').
      { eapply near_sub; [|done]. set_solver. }
      { unfold loss_fuel. cbn [m_pSndLossList set_losslist]. rewrite (SndLossList.snd_holds_length _ _ Hl'). lia. }
      rewrite (valid_pop a S m) in H' by (done || lia). rewrite E'. cbn [mbind option_bind].
      assert (Hp : forall S', picked (set_losslist l st) st' S' [] ->
        picked st (sendDropReq 0 (seq_of m) (decseq (m_iSndLastDataAck st')) st') S' [(0, seq_of m, seq_of (a - 1))]).
      { intros S' Hp. pose proof (picked_trans _ _ _ _ _ _ _ (picked_pop st l _ Hl' Hlsz) Hp) as Hp'. pose proof (proj1 Hp').
        assert (Ea : m_iSndLastDataAck st' = seq_of a) by (destruct Hp as (_ & _ & _ & Hp & _); by rewrite Hp).
        rewrite Ea, decseq_seq_of. by apply (picked_trans _ _ _ _ _ _ _ Hp'), picked_drop. }
      destruct (first_of (valid_losses a S)) as [m'|]; destruct H' as (-> & -> & H'); specialize (Hp _ H'); eexists; (split; [exact Hp|]).
      * rewrite (proj2 (Z.eqb_neq _ _)) by apply seq_of_not_none. unfold checkRexmitRightTime.
        cbn [m_pSndBuffer sendDropReq]. destruct H' as (_ & _ & -> & _). cbn [m_pSndBuffer set_losslist].
        destruct (if negb (m_bPeerNakReport cfg) || (iRetransmitAlgo cfg =? 0) then true else _); done.
      * by rewrite Z.eqb_refl.
    + rewrite (proj2 (Z.ltb_ge m a)) by lia. rewrite (valid_first a S m) by (done || lia). rewrite Em.
      exists (set_losslist l st). split; [by apply picked_pop|].
      rewrite (proj2 (Z.eqb_neq _ _)) by apply seq_of_not_none. change (checkRexmitRightTime cfg (m - a) (clock k) (set_losslist l st)) with (checkRexmitRightTime cfg (m - a) (clock k) st).
      by destruct (checkRexmitRightTime _ _ _ _).
  - apply first_of_None in Em. subst S. assert (first_of (valid_losses a ∅) = None) as -> by (apply first_of_None; unfold valid_losses; set_solver).
    exists (set_losslist l st). split; [by apply picked_pop|]. by rewrite Z.eqb_refl.
Qed.

(** The outcome of the choice among the losses [S]: the lowest one that is
    still in the buffer and that the time is right for, or none. *)
Definition chosen (cfg : config) (clock : nat -> Z) (st : t) (a : Z) (S : gset Z) (st' : t) (seq off : Z) : Prop :=
  let right m k := checkRexmitRightTime cfg (m - a) (clock k) st in
  (exists m k, seq = seq_of m /\ off = m - a /\ m ∈ S /\ a <= m /\ right m k = true /\
    (forall y, y ∈ S -> a <= y < m -> exists j, right y j = false) /\
    picked st st' (filter (fun x => m < x) S) (outdated_msg a S)) \/
  (seq = SRT_SEQNO_NONE /\ off = -1 /\ (forall y, y ∈ S -> a <= y -> exists j, right y j = false) /\
    picked st st' ∅ (outdated_msg a S)).

Lemma valid_min a S m : first_of (valid_losses a S) = Some m ->
  m ∈ S /\ a <= m /\ (forall y, y ∈ S -> a <= y -> m <= y) /\ valid_losses a S ∖ {[m]} = filter (fun x => m < x) S.
Proof.
  intros [Hm Hmin]%first_of_Some. unfold valid_losses in *. apply elem_of_filter in Hm as [Ha Hm].
  assert (Hmin' : forall y, y ∈ S -> a <= y -> m <= y) by (intros y Hy Hay; apply Hmin, elem_of_filter; done).
  split_and!; try done. apply set_eq. intros x. rewrite elem_of_difference, !elem_of_filter, elem_of_singleton. split.
  - intros [[Hx HxS] Hne]. split; [|done]. specialize (Hmin' x HxS Hx). lia.
  - intros [Hx HxS]. split; [split; [lia|done]|]. lia.
Qed.

Lemma choice_loop cfg clock a : forall n st S k, SndLossList.holds (m_pSndLossList st) S -> m_iSndLastDataAck st = seq_of a ->
  near a S -> (size S < n)%nat ->
  exists st' seq off, loop n (clean_step cfg clock) (st, k) = Some (Some (st', seq, off)) /\ chosen cfg clock st a S st' seq off.
Proof.
  induction n as [|n IH]; intros st S k Hl Ha Hn Hsz; [lia|]. cbn [loop].
  pose proof (clean_step_ok cfg clock st a S k Hl Ha Hn) as Hstep. destruct (first_of (valid_losses a S)) as [m|] eqn:Em.
  - destruct Hstep as (st1 & Hp & E). rewrite E. destruct (valid_min _ _ _ Em) as (Hm & Ham & Hmin & Hrest). rewrite Hrest in Hp.
    destruct (checkRexmitRightTime cfg (m - a) (clock k) st) eqn:Er.
    + eexists _, _, _. split; [reflexivity|]. left. exists m, k. split_and!; try done. intros y Hy Hyr. specialize (Hmin y Hy). lia.
    + pose proof Hp as (H1 & _ & H3 & H4 & _). set (S1 := filter (fun x => m < x) S) in *.
      destruct (IH st1 S1 (Datatypes.S k) H1) as (st' & seq & off & E' & Hc'); [by rewrite H4|eapply near_sub; [|done]; unfold S1; set_solver| |].
      { assert (size S1 < size S)%nat; [|lia]. apply subset_size. unfold S1. split; [set_solver|]. intros Hsub. specialize (Hsub m Hm). apply elem_of_filter in Hsub. lia. }
      exists st', seq, off. split; [done|].
      assert (Hno : outdated_msg a S1 = []).
      { unfold outdated_msg. destruct (first_of S1) as [m1|] eqn:E1; [|done]. apply first_of_Some in E1 as [E1 _]. apply elem_of_filter in E1 as [? _].
        by rewrite (proj2 (Z.ltb_ge _ _)) by lia. }
      assert (Hright : forall y j, checkRexmitRightTime cfg (y - a) (clock j) st1 = checkRexmitRightTime cfg (y - a) (clock j) st)
        by (intros; unfold checkRexmitRightTime; by rewrite H3).
      assert (Hrej : forall y, y ∈ S -> a <= y -> y ∈ S1 \/ exists j, checkRexmitRightTime cfg (y - a) (clock j) st = false).
      { intros y Hy Hay. destruct (decide (y = m)) as [->|Hne]; [right; by exists k|left]. apply elem_of_filter. specialize (Hmin y Hy Hay). split; [lia|done]. }
      unfold chosen in *. rewrite Hno in Hc'. destruct Hc' as [(m1 & k1 & -> & -> & Hm1 & Ham1 & Hr1 & Hlow & Hpk)|(-> & -> & Hall & Hpk)]; [left|right].
      * pose proof Hm1 as [Hmm Hm1S]%elem_of_filter. exists m1, k1. rewrite Hright in Hr1. split_and!; try done.
        -- intros y Hy Hyr. destruct (Hrej y Hy ltac:(lia)) as [Hy1|Hj]; [|done]. destruct (Hlow y Hy1 Hyr) as [j Hj]. rewrite Hright in Hj. by exists j.
        -- assert (filter (fun x => m1 < x) S1 = filter (fun x => m1 < x) S) as <-.
           { apply set_eq. intros x. unfold S1. rewrite !elem_of_filter. split; [by intros (? & ? & ?)|]. intros [? ?]. split_and!; [done|lia|done]. }
           pose proof (picked_trans _ _ _ _ _ _ _ Hp Hpk) as Hpp. by rewrite app_nil_r in Hpp.
      * split_and!; try done.
        -- intros y Hy Hay. destruct (Hrej y Hy Hay) as [Hy1|Hj]; [|done]. destruct (Hall y Hy1 Hay) as [j Hj]. rewrite Hright in Hj. by exists j.
        -- pose proof (picked_trans _ _ _ _ _ _ _ Hp Hpk) as Hpp. by rewrite app_nil_r in Hpp.
  - destruct Hstep as (st1 & Hp & E). rewrite E. eexists _, _, _. split; [reflexivity|]. right. split_and!; try done.
    intros y Hy Hay. apply first_of_None in Em. exfalso. apply (not_elem_of_empty (C := gset Z) y). rewrite <- Em. by apply elem_of_filter.
Qed.

Lemma choice_ok (cfg : config) (clock : nat -> Z) (st : t) (a : Z) (S : gset Z)
  (Hl : SndLossList.holds (m_pSndLossList st) S) (Ha : m_iSndLastDataAck st = seq_of a) (Hn : near a S) :
  exists st' seq off, getCleanRexmitOffset cfg clock st = Some (st', seq, off) /\ chosen cfg clock st a S st' seq off.
Proof.
  destruct (choice_loop cfg clock a (loss_fuel st) st S O Hl Ha Hn) as (st' & seq & off & E & Hc).
  { unfold loss_fuel. rewrite (SndLossList.snd_holds_length _ _ Hl). lia. }
  exists st', seq, off. split; [|done]. unfold getCleanRexmitOffset. by rewrite E.
Qed.

(** C18. [getCleanRexmitOffset] always returns the lowest loss that is still in
    the buffer and that the time is right for, with its offset there; each lower
    one that is still there has been rejected by the time check at some reading
    of the clock.  It takes the loss and all the lower ones out of the list, and
    when some of them had left the buffer it sends one drop request, from the
    lowest one up to the last number before the buffer. *)
Theorem rexmit_choice (cfg : config) (clock : nat -> Z) (st : t) (a : Z) (S : gset Z)
  (Hl : SndLossList.holds (m_pSndLossList st) S) (Ha : m_iSndLastDataAck st = seq_of a) (Hn : near a S) :
  exists st' seq off, getCleanRexmitOffset cfg clock st = Some (st', seq, off) /\ chosen cfg clock st a S st' seq off.
Proof. by apply choice_ok. Qed.

(** ** Examples: two packets sent, numbers 0x7FFFFFFF and 0 *)

Definition example_state (curr : Z) (l : SndLossList.CSndLossList.t) : t :=
  mk (SndBuffer.example_sent curr) l 0x7FFFFFFF 0x7FFFFFFF 0 100 [].
Definition example_list : SndLossList.CSndLossList.t := SndLossList.CSndLossList.init 10 (fun _ => 0).
(** both packets lost *)
Definition example_losses : SndLossList.CSndLossList.t :=
  from_option fst example_list (SndLossList.CSndLossList.insert 0x7FFFFFFF 0 example_list).

Lemma example_list_holds : SndLossList.holds example_list ∅.
Proof. apply SndLossList.snd_init_holds. vm_compute. split; [reflexivity|discriminate]. Qed.

Lemma example_losses_holds : SndLossList.holds example_losses (∅ ∪ range 0x7FFFFFFF 0x80000000).
Proof.
  destruct (SndLossList.snd_insert_holds example_list ∅ 0x7FFFFFFF 0x80000000 0x7FFFFFFA example_list_holds) as (l & E & Hl & _).
  - lia.
  - reflexivity.
  - apply (bool_decide_unpack _). vm_compute. exact I.
  - unfold example_losses. change (seq_of 0x7FFFFFFF) with 0x7FFFFFFF in E. change (seq_of 0x80000000) with 0 in E.
    rewrite E. exact Hl.
Qed.

Lemma example_sender : sender (example_state 3 example_losses) 0x7FFFFFFF SndBuffer.example_queue 2 (∅ ∪ range 0x7FFFFFFF 0x80000000).
Proof.
  split.
  - exact (SndBuffer.example_holds_at 2 3 eq_refl).
  - exact example_losses_holds.
  - vm_compute. discriminate.
  - reflexivity.
  - intros [|[|i]] x Hx; [injection Hx as <-; reflexivity|injection Hx as <-; reflexivity|discriminate].
  - reflexivity.
  - intros x Hx. rewrite (left_id_L ∅ (∪)) in Hx. apply elem_of_range in Hx. lia.
Qed.

(** An acknowledgement of the first packet, and a drop 1.4 seconds after. *)
Lemma snd_ack_and_drop_witness :
  let st := example_state 3 example_losses in
  let cfg := mkConfig true 1 100000 1000 true true 0 120 in
  (exists st', updateSndLossListOnACK 0 st = Some st' /\ SndLossList.CSndLossList.getLossLength (m_pSndLossList st') = 1) /\
  exists st', sndDropTooLate cfg 1400000 st = Some (st', Some 2) /\ m_iFlowWindowSize st' = 102.
Proof.
  intros st cfg.
  destruct (snd_ack_and_drop cfg 1400000 st 0x7FFFFFFF SndBuffer.example_queue 2 _ 0x80000000 example_sender eq_refl
    ltac:(split; [vm_compute; reflexivity|vm_compute; discriminate])) as [(st1 & E1 & _) (st2 & r & E2 & H2)].
  split.
  - exists st1. split; [exact E1|].
    change (seq_of 0x80000000) with 0 in E1. clear -E1. vm_compute in E1. injection E1 as <-. reflexivity.
  - destruct r as [n|]; [|destruct H2 as (_ & _ & H2); discriminate].
    destruct H2 as (Hn & _ & Hw & _). vm_compute in Hn. subst n. exists st2. split; [exact E2|exact Hw].
Defined.

(** Eleven milliseconds after they were added, the packets are expired. *)
Lemma rexmit_never_ends_witness :
  let clock := fun k => (12000 + Z.of_nat k, 0) in
  extractCleanRexmitPacket 100 clock 0x7FFFFFFF 0 (CPacket.mk 0 0 0 0 []) 0 (example_state 3 example_losses) = None.
Proof.
  intros clock.
  destruct (rexmit_never_ends clock (example_state 3 example_losses) 0x7FFFFFFF SndBuffer.example_queue 2 0 _
    _ (CPacket.mk 0 0 0 0 []) 0 example_sender eq_refl eq_refl ltac:(intros i j ?; simpl; lia) 100) as [E _].
  exact E.
Defined.

Lemma rexmit_choice_witness :
  let cfg := mkConfig true 0 100000 1000 true true 0 120 in
  exists st', getCleanRexmitOffset cfg (fun _ => 12000) (example_state 3 example_losses) = Some (st', 0x7FFFFFFF, 0).
Proof.
  intros cfg.
  destruct (rexmit_choice cfg (fun _ => 12000) (example_state 3 example_losses) 0x7FFFFFFF _ example_losses_holds eq_refl)
    as (st' & seq & off & E & _).
  - intros x Hx. rewrite (left_id_L ∅ (∪)) in Hx. apply elem_of_range in Hx. unfold m_iSeqNoTH. lia.
  - exists st'. rewrite E. vm_compute in E. injection E as _ <- <-. reflexivity.
Defined.
