(* ===== verification/SndPack.v ===== *)
(** Sending: the functions of core.cpp by which the sender's worker takes the
    next packet of a connection, with the packets of SndBuffer.v, the
    retransmission of SndRexmit.v and the pace of sending.  The connection is
    in no group, it has no packet filter and it is not encrypted; the build
    is the default one, without a bandwidth limit for retransmissions. *)
From S2P Require Import Prelude SeqNo Slots Packet.
From S2P Require SndLossList SndBuffer.
From S2P Require Import SndRexmit.
Import CSeqNo CUDTSnd.

Module CUDTPack.
(** What the functions read besides [config]. *)
Record env := mkEnv {
  cfg : config;
  m_iCongestionWindow : Z;
  m_bPeerTsbPd : bool;
  tsStartTime : Z;
  m_PeerID : Z;
  m_bPeerRexmitFlag : bool;
  m_bOpened : bool;
}.

Definition EK_NOENC : Z := 0.
Definition PACKET_SND_REXMIT : Z := CPacket.MSGNO_REXMIT_mask.
Definition PUMASK_SEQNO_PROBE : Z := 0xF.

Definition getFlightSpan (st : t) : Z := seqlen (m_iSndLastAck st) (incseq (m_iSndCurrSeqNo st)) - 1.

Definition makeTS (from_time start : Z) : Z := i32 (from_time - start).

(** [setDataPacketTS]; [now] is the clock where it is read. *)
Definition setDataPacketTS (e : env) (now ts : Z) (p : CPacket.t) : CPacket.t :=
  if negb (m_bPeerTsbPd e) then CPacket.set_timestamp (u32 (makeTS now (tsStartTime e))) p
  else if ts <? tsStartTime e then CPacket.set_timestamp (u32 (makeTS now (tsStartTime e))) p
  else CPacket.set_timestamp (u32 (makeTS ts (tsStartTime e))) p.

Definition isRegularSendingPriority (e : env) (st : t) : bool :=
  if negb (m_bPeerTLPktDrop (cfg e)) || negb (bMessageAPI (cfg e)) then false
  else negb (SndBuffer.CSndBuffer.peekNextOriginal (m_pSndBuffer st) =? 0).

(** [packUniqueData]; [clock] are the times read for the packets that may have
    expired. *)
Definition packUniqueData (e : env) (clock : nat -> Z) (now : Z) (w_packet : CPacket.t) (st : t) : option (t * CPacket.t * bool) :=
  let cwnd := Z.min (m_iFlowWindowSize st) (m_iCongestionWindow e) in
  let flightspan := getFlightSpan st in
  if cwnd <=? flightspan then Some (st, w_packet, false) else
  '(b, w_packet, tsOrigin, pld_size, pktskipseqno) ← SndBuffer.CSndBuffer.readData clock EK_NOENC w_packet 0 (m_pSndBuffer st);
  let st := set_buffer b st in
  let st := if (pktskipseqno =? 0)%nat then st
            else set_iSndCurrSeqNo (incseq_by (m_iSndCurrSeqNo st) (Z.of_nat pktskipseqno)) st in
  if pld_size =? 0 then Some (st, w_packet, false) else
  let st := set_iSndCurrSeqNo (incseq (m_iSndCurrSeqNo st)) st in
  let w_packet := CPacket.set_seqno (u32 (m_iSndCurrSeqNo st)) w_packet in
  let w_packet := CPacket.set_id (u32 (m_PeerID e)) w_packet in
  Some (st, setDataPacketTS e now tsOrigin w_packet, true).

(** [packLostData]; [fuel] bounds [extractCleanRexmitPacket], [clockc] and
    [clockx] are the readings of the clock in its two parts. *)
Definition packLostData (fuel : nat) (e : env) (clockc : nat -> Z) (clockx : nat -> Z * Z) (now : Z) (w_packet : CPacket.t) (st : t) :
    option (t * CPacket.t * Z) :=
  '(st, seqno, offset) ← getCleanRexmitOffset (cfg e) clockc st;
  if seqno =? SRT_SEQNO_NONE then Some (st, w_packet, 0) else
  '(st, w_packet, tsOrigin, payload) ← extractCleanRexmitPacket fuel clockx seqno offset w_packet 0 st;
  if payload <=? 0 then Some (st, w_packet, 0) else
  let w_packet := if m_bPeerRexmitFlag e
                  then CPacket.set_msgflags (Z.lor (CPacket.SRT_PH_MSGNO w_packet) PACKET_SND_REXMIT) w_packet else w_packet in
  let w_packet := setDataPacketTS e now tsOrigin w_packet in
  Some (st, w_packet, CPacket.getLength w_packet).

(** The pace of sending; 0 stands for a time that is not set. *)
Record pace := mkPace { m_tsNextSendTime : Z; m_tdSendTimeDiff : Z }.

(** [packData] up to the connection test. *)
Definition pace_enter (enter_time : Z) (pc : pace) : pace :=
  if negb (m_tsNextSendTime pc =? 0) && (enter_time >? m_tsNextSendTime pc)
  then mkPace (m_tsNextSendTime pc) (m_tdSendTimeDiff pc + (enter_time - m_tsNextSendTime pc)) else pc.

(** Its end: the time of the next packet. *)
Definition pace_next (enter_time sendint : Z) (probe : bool) (pc : pace) : pace :=
  if probe then mkPace enter_time (m_tdSendTimeDiff pc - sendint)
  else let sendbrw := m_tdSendTimeDiff pc in
    if sendbrw >=? sendint then mkPace enter_time (sendbrw - sendint)
    else mkPace (enter_time + (sendint - sendbrw)) 0.

(** The readings of the clock in one call: on entry, in [packLostData] and in
    [packUniqueData]. *)
Record clocks := mkClocks {
  enter_time : Z;
  clock_choice : nat -> Z;
  clock_rexmit : nat -> Z * Z;
  clock_unique : nat -> Z;
  clock_stamp : Z;
}.

(** [packData]: the packet and whether there is one; [sendint] is the interval
    between packets as the congestion control has left it. *)
Definition packData (fuel : nat) (e : env) (c : clocks) (sendint : Z) (w_packet : CPacket.t) (pc : pace) (st : t) :
    option (t * pace * CPacket.t * bool) :=
  let pc := pace_enter (enter_time c) pc in
  if negb (m_bOpened e) then Some (st, pc, w_packet, false) else
  '(st, w_packet, payload) ←
    (if negb (isRegularSendingPriority e st)
     then packLostData fuel e (clock_choice c) (clock_rexmit c) (clock_stamp c) w_packet st
     else Some (st, w_packet, 0));
  '(st, w_packet, packed, new_packet) ←
    (if payload >? 0 then Some (st, w_packet, true, false)
     else '(st, w_packet, packed) ← packUniqueData e (clock_unique c) (clock_stamp c) w_packet st; Some (st, w_packet, packed, true));
  if negb packed then Some (st, mkPace 0 0, w_packet, false) else
  let probe := new_packet && (Z.land (CPacket.getSeqNo w_packet) PUMASK_SEQNO_PROBE =? 0) in
  let w_packet := CPacket.set_id (u32 (m_PeerID e)) w_packet in
  Some (st, pace_next (enter_time c) sendint probe pc, w_packet, true).
End CUDTPack.
Import CUDTPack.

(** ** A new packet *)

Lemma seqlen_succ a b : a <= b -> b - a < 2 ^ 31 -> seqlen (seq_of a) (seq_of b) - 1 = b - a.
Proof. intros H1 H2. rewrite seqlen_seq_of by lia. lia. Qed.

Lemma mark_lookup f c n (q : list SndBuffer.pkt) i : SndBuffer.mark f c n q !! i =
  (fun x => if (c <=? i)%nat && (i <? c + n)%nat then f x else x) <$> q !! i.
Proof. unfold SndBuffer.mark. by rewrite list_lookup_imap. Qed.

Lemma enc_seq k x : SndBuffer.k_seq (SndBuffer.enc k x) = SndBuffer.k_seq x.
Proof. unfold SndBuffer.enc. by destruct (k =? -1). Qed.

Lemma mark_seq k c n q i x : SndBuffer.mark (SndBuffer.enc k) c n q !! i = Some x ->
  exists y, q !! i = Some y /\ SndBuffer.k_seq x = SndBuffer.k_seq y.
Proof.
  rewrite mark_lookup. destruct (q !! i) as [y|]; [|done]. intros [= <-]. exists y. split; [done|].
  case_match; [apply enc_seq|done].
Qed.

Lemma skipped_le clock : forall q j, (SndBuffer.skipped clock j q <= length q)%nat.
Proof. induction q as [|x q IH]; intros j; cbn; [done|]. case_match; [specialize (IH (S j)); lia|lia]. Qed.

(** The sender after a read: the same packets, more of them sent. *)
Lemma sender_read st st' a q c S b n c' : sender st a q c S ->
  SndBuffer.holds b (SndBuffer.mark (SndBuffer.enc EK_NOENC) c n q) c' -> (c <= c')%nat ->
  m_pSndBuffer st' = b -> m_pSndLossList st' = m_pSndLossList st -> m_iSndLastDataAck st' = m_iSndLastDataAck st ->
  sender st' a (SndBuffer.mark (SndBuffer.enc EK_NOENC) c n q) c' S.
Proof.
  intros Hs Hb Hc <- El Ea. split; rewrite ?El, ?Ea; try apply Hs; try done.
  - intros i x Hx. apply mark_seq in Hx as (y & Hy & ->). by apply (s_seq _ _ _ _ _ Hs).
  - unfold SndBuffer.mark. rewrite length_imap. apply (s_window _ _ _ _ _ Hs).
  - intros x Hx. apply (s_sent _ _ _ _ _ Hs) in Hx. lia.
Qed.

(** The packet that is sent for a packet of the buffer. *)
Definition sent_packet (e : env) (now : Z) (seqno : Z) (x : SndBuffer.pkt) (w : CPacket.t) : CPacket.t :=
  setDataPacketTS e now (SndBuffer.k_origin x)
    (CPacket.mk (u32 seqno) (u32 (SndBuffer.k_bits (SndBuffer.enc EK_NOENC x))) (CPacket.SRT_PH_TIMESTAMP w) (u32 (m_PeerID e)) (SndBuffer.k_data x)).

Lemma pack_unique_ok e clock now w st a q c S l : sender st a q c S -> m_iSndCurrSeqNo st = seq_of (a + Z.of_nat c - 1) ->
  m_iSndLastAck st = seq_of l -> l <= a + Z.of_nat c -> a + Z.of_nat c - l < 2 ^ 31 ->
  (forall x, x ∈ q -> SndBuffer.k_data x <> []) ->
  if Z.min (m_iFlowWindowSize st) (m_iCongestionWindow e) <=? a + Z.of_nat c - l
  then packUniqueData e clock now w st = Some (st, w, false)
  else
    let k := SndBuffer.skipped clock 0 (drop c q) in
    let c' := Nat.min (length q) (c + k + 1) in
    exists st' w' ok, packUniqueData e clock now w st = Some (st', w', ok) /\
      sender st' a (SndBuffer.mark (SndBuffer.enc EK_NOENC) c (Datatypes.S k) q) c' S /\
      m_iSndCurrSeqNo st' = seq_of (a + Z.of_nat c' - 1) /\ m_iSndLastAck st' = seq_of l /\ m_iFlowWindowSize st' = m_iFlowWindowSize st /\
      match q !! (c + k)%nat with
      | Some x => ok = true /\ w' = sent_packet e now (SndBuffer.k_seq x) x w
      | None => ok = false
      end.
Proof.
  intros Hs Hcur Hl Hl1 Hl2 Hne. unfold packUniqueData, getFlightSpan. rewrite Hl, Hcur, incseq_seq_of.
  replace (a + Z.of_nat c - 1 + 1) with (a + Z.of_nat c) by lia. rewrite seqlen_succ by lia. cbv zeta.
  destruct (Z.min _ _ <=? a + Z.of_nat c - l); [done|].
  set (k := SndBuffer.skipped clock 0 (drop c q)). set (c' := Nat.min (length q) (c + k + 1)).
  destruct (SndBuffer.read_data_ok clock EK_NOENC w 0 _ _ _ (s_buf _ _ _ _ _ Hs)) as (b & p' & ts' & len & E & Hb & Hr).
  fold k in E, Hb, Hr. rewrite E. cbn [mbind option_bind]. destruct (SndBuffer.curr_at_end _ _ _ (s_buf _ _ _ _ _ Hs)) as [_ Hc].
  pose proof (skipped_le clock (drop c q) 0) as Hk. fold k in Hk. rewrite length_drop in Hk.
  set (st1 := if (k =? 0)%nat then set_buffer b st else _).
  assert (E1 : m_pSndBuffer st1 = b /\ m_pSndLossList st1 = m_pSndLossList st /\ m_iSndLastDataAck st1 = m_iSndLastDataAck st /\
    m_iSndLastAck st1 = m_iSndLastAck st /\ m_iSndCurrSeqNo st1 = seq_of (a + Z.of_nat (c + k) - 1) /\
    m_iFlowWindowSize st1 = m_iFlowWindowSize st).
  { pose proof (s_window _ _ _ _ _ Hs). pose proof (s_size _ _ _ _ _ Hs). unfold m_iSeqNoTH in *. unfold st1.
    destruct (Nat.eqb_spec k 0) as [->|]; cbn; rewrite Hcur; split_and!; try done; [f_equal; lia|].
    rewrite incseq_by_seq_of by lia. f_equal. lia. }
  clearbody st1. destruct E1 as (E1 & E2 & E3 & E4 & E5 & E6). destruct (q !! (c + k)%nat) as [x|] eqn:Ex.
  - destruct Hr as (-> & -> & Hlen). pose proof (lookup_lt_Some _ _ _ Ex). assert (Hlen' : len <> 0).
    { rewrite Hlen. cbn [Z.eqb]. pose proof (Hne x (list_elem_of_lookup_2 _ _ _ Ex)). change (EK_NOENC =? -1) with false. cbv iota.
      destruct (SndBuffer.k_data x); [done|cbn; lia]. }
    rewrite (proj2 (Z.eqb_neq _ _) Hlen'). eexists _, _, true. split; [reflexivity|].
    assert (Hc' : c' = (c + k + 1)%nat) by (unfold c'; lia). split; [|split; [|split; [cbn; congruence|split; [exact E6|split; [done|]]]]].
    + by eapply sender_read; [..|exact E2|exact E3]; [| |unfold c'; lia|].
    + cbn [m_iSndCurrSeqNo set_iSndCurrSeqNo]. rewrite E5, incseq_seq_of, Hc'. f_equal. lia.
    + cbn [m_iSndCurrSeqNo set_iSndCurrSeqNo]. rewrite E5, incseq_seq_of.
      assert (seq_of (a + Z.of_nat (c + k) - 1 + 1) = SndBuffer.k_seq x) as ->.
      { rewrite (s_seq _ _ _ _ _ Hs _ _ Ex). f_equal. lia. }
      unfold sent_packet, SndBuffer.pkt_packet, CPacket.set_id, CPacket.set_seqno. cbn. done.
  - rewrite Hr. cbn [Z.eqb]. apply lookup_ge_None in Ex. exists st1, p', false. split; [done|].
    assert (Hc' : c' = (c + k)%nat) by (unfold c'; lia). split; [|split; [|split; [congruence|split; [exact E6|done]]]].
    + by eapply sender_read; [..|exact E2|exact E3]; [| |unfold c'; lia|].
    + by rewrite E5, Hc'.
Qed.

(** ** A packet sent again *)

Definition rexmit_packet (e : env) (now : Z) (seqno : Z) (x : SndBuffer.pkt) (w : CPacket.t) : CPacket.t :=
  let bits := u32 (SndBuffer.k_bits x) in
  setDataPacketTS e now (SndBuffer.k_origin x)
    (CPacket.mk (u32 seqno) (if m_bPeerRexmitFlag e then Z.lor bits PACKET_SND_REXMIT else bits) (CPacket.SRT_PH_TIMESTAMP w)
      (CPacket.SRT_PH_ID w) (SndBuffer.k_data x)).

Lemma setDataPacketTS_data e now ts p : CPacket.m_pcData (setDataPacketTS e now ts p) = CPacket.m_pcData p.
Proof. unfold setDataPacketTS. by destruct (m_bPeerTsbPd e); [destruct (ts <? tsStartTime e)|]. Qed.

(** After the choice: only the loss list has changed. *)
Lemma sender_chosen st st' a q c S S' msgs : sender st a q c S -> S' ⊆ S -> picked st st' S' msgs ->
  SndLossList.CSndLossList.m_iSize (m_pSndLossList st') = SndLossList.CSndLossList.m_iSize (m_pSndLossList st) ->
  sender st' a q c S'.
Proof.
  intros Hs Hsub (H1 & _ & H3 & H4 & _ & _) Hsz. split; rewrite ?H3, ?H4, ?Hsz; try done; try apply Hs.
  intros x Hx. by apply (s_sent _ _ _ _ _ Hs), Hsub.
Qed.

Lemma sender_near st a q c S : sender st a q c S -> near a S.
Proof.
  intros Hs x Hx. apply (s_sent _ _ _ _ _ Hs) in Hx. pose proof (s_window _ _ _ _ _ Hs). pose proof (s_size _ _ _ _ _ Hs).
  destruct (SndBuffer.curr_at_end _ _ _ (s_buf _ _ _ _ _ Hs)). lia.
Qed.

Lemma no_outdated st a q c S : sender st a q c S -> outdated_msg a S = [].
Proof.
  intros Hs. unfold outdated_msg. destruct (first_of S) as [m|] eqn:E; [|done]. apply first_of_Some in E as [E _].
  apply (s_sent _ _ _ _ _ Hs) in E. by rewrite (proj2 (Z.ltb_ge _ _)) by lia.
Qed.

(** The buffer after the retransmission of packet [n]. *)
Lemma sender_rexmit st st' a q c S n x ts : sender st a q c S -> q !! n = Some x ->
  SndBuffer.holds (m_pSndBuffer st') (<[n := SndBuffer.rexmitted ts x]> q) c -> m_pSndLossList st' = m_pSndLossList st ->
  m_iSndLastDataAck st' = m_iSndLastDataAck st -> sender st' a (<[n := SndBuffer.rexmitted ts x]> q) c S.
Proof.
  intros Hs Hx Hb El Ea. split; rewrite ?El, ?Ea; try done; try apply Hs.
  - intros i y Hi. destruct (decide (i = n)) as [->|Hne].
    + rewrite list_lookup_insert_eq in Hi by (by eapply lookup_lt_Some). injection Hi as <-. exact (s_seq _ _ _ _ _ Hs _ _ Hx).
    + rewrite list_lookup_insert_ne in Hi by done. exact (s_seq _ _ _ _ _ Hs _ _ Hi).
  - rewrite length_insert. apply (s_window _ _ _ _ _ Hs).
Qed.

(** The choice among the losses [S] of a sender: the lowest one that the time
    is right for, which is a packet [x] of the buffer, or none. *)
Definition right_loss (e : env) (clockc : nat -> Z) (st : t) (a : Z) (S : gset Z) (m : Z) : Prop :=
  (exists k, checkRexmitRightTime (cfg e) (m - a) (clockc k) st = true) /\
  forall y, y ∈ S -> y < m -> exists k, checkRexmitRightTime (cfg e) (y - a) (clockc k) st = false.

Lemma pack_lost_ok fuel e clockc clockx now w st a q c S : sender st a q c S -> (forall x, x ∈ q -> SndBuffer.k_data x <> []) ->
  (forall j k, (j <= k)%nat -> (clockx j).1 <= (clockx k).1) ->
  (exists st', packLostData (Datatypes.S fuel) e clockc clockx now w st = Some (st', w, 0) /\ sender st' a q c ∅ /\
    m_iSndCurrSeqNo st' = m_iSndCurrSeqNo st /\
    forall y, y ∈ S -> exists k, checkRexmitRightTime (cfg e) (y - a) (clockc k) st = false) \/
  exists m x, m ∈ S /\ q !! Z.to_nat (m - a) = Some x /\ right_loss e clockc st a S m /\
    if SndBuffer.k_expired (clockx O).1 x then packLostData (Datatypes.S fuel) e clockc clockx now w st = None
    else exists st', packLostData (Datatypes.S fuel) e clockc clockx now w st =
          Some (st', rexmit_packet e now (seq_of m) x w, zlen (SndBuffer.k_data x)) /\
        sender st' a (<[Z.to_nat (m - a) := SndBuffer.rexmitted (clockx O).2 x]> q) c (filter (fun y => m < y) S) /\
        m_iSndCurrSeqNo st' = m_iSndCurrSeqNo st.
Proof.
  intros Hs Hne Hmono. unfold packLostData.
  destruct (choice_ok (cfg e) clockc st a S (s_loss _ _ _ _ _ Hs) (s_ack _ _ _ _ _ Hs) (sender_near _ _ _ _ _ Hs)) as (st1 & seq & off & E & Hch).
  rewrite E. cbn [mbind option_bind]. unfold chosen in Hch. rewrite (no_outdated _ _ _ _ _ Hs) in Hch.
  assert (Hpick : forall S', S' ⊆ S -> picked st st1 S' [] -> sender st1 a q c S' /\ m_iSndCurrSeqNo st1 = m_iSndCurrSeqNo st).
  { intros S' Hsub Hp. split; [|by destruct Hp as (_ & _ & _ & _ & _ & Hp & _)]. eapply sender_chosen; try done.
    by destruct Hp as (_ & _ & _ & _ & _ & _ & _ & Hp). }
  destruct Hch as [(m & k & -> & -> & Hm & Ham & Hr & Hlow & Hp)|(-> & -> & Hall & Hp)].
  - right. destruct (Hpick (filter (fun x => m < x) S) ltac:(set_solver) Hp) as [Hs1 Hc1]. rewrite (proj2 (Z.eqb_neq _ _)) by apply seq_of_not_none.
    pose proof (s_sent _ _ _ _ _ Hs _ Hm) as Hmr. destruct (SndBuffer.curr_at_end _ _ _ (s_buf _ _ _ _ _ Hs)) as [_ Hc].
    destruct (lookup_lt_is_Some_2 q (Z.to_nat (m - a))) as [x Hx]; [lia|]. exists m, x. split; [done|]. split; [done|]. split.
    { split; [by exists k|]. intros y Hy Hym. apply Hlow; [done|]. apply (s_sent _ _ _ _ _ Hs) in Hy. lia. }
    destruct (SndBuffer.k_expired (clockx O).1 x) eqn:Hexp.
    + destruct (rexmit_running clockx st1 a q c (Z.to_nat (m - a)) _ x w 0 Hs1 Hx Hexp Hmono (Datatypes.S fuel)) as [Er _].
      replace (a + Z.of_nat (Z.to_nat (m - a))) with m in Er by lia. rewrite Z2Nat.id in Er by lia. by rewrite Er.
    + destruct (SndBuffer.rexmit_data_ok (clockx O).1 (clockx O).2 (CPacket.set_seqno (u32 (seq_of m)) w) _ _ _ _ _ (s_buf _ _ _ _ _ Hs1) Hx Hexp)
        as (b & Eb & Hb). rewrite Z2Nat.id in Eb by lia.
      unfold extractCleanRexmitPacket. cbn [loop]. unfold extract_step at 1. rewrite Eb. cbn [mbind option_bind].
      pose proof (Hne x (list_elem_of_lookup_2 _ _ _ Hx)). rewrite (proj2 (Z.leb_gt _ _)) by (destruct (SndBuffer.k_data x); [done|cbn; lia]).
      eexists. split; [apply f_equal, f_equal2; [apply f_equal2; [reflexivity|]|]|split; [|exact Hc1]].
      * unfold rexmit_packet. by destruct (m_bPeerRexmitFlag e).
      * unfold CPacket.getLength. rewrite setDataPacketTS_data. by destruct (m_bPeerRexmitFlag e).
      * by eapply sender_rexmit.
  - left. destruct (Hpick ∅ ltac:(set_solver) Hp) as [Hs1 Hc1]. cbn. exists st1. split_and!; try done.
    intros y Hy. apply Hall; [done|]. apply (s_sent _ _ _ _ _ Hs) in Hy. lia.
Qed.

(** C19. A new packet is sent only while fewer packets are in flight than the
    flow window and the congestion window allow; then it is the first unsent
    one whose time to live is not over, with its own sequence number although
    the number put on it is the counter of the numbers sent.  The counter,
    the reading point of the buffer and the loss list fit together again,
    also when only expired packets were left and nothing is sent. *)
Theorem snd_packUnique (e : env) (clock : nat -> Z) (now : Z) (w : CPacket.t) (st : t) (a : Z) (q : list SndBuffer.pkt) (c : nat) (S : gset Z) (l : Z)
  (Hs : sender st a q c S) (Hcur : m_iSndCurrSeqNo st = seq_of (a + Z.of_nat c - 1))
  (Hack : m_iSndLastAck st = seq_of l) (Hl : l <= a + Z.of_nat c < l + 2 ^ 31)
  (Hne : forall x, x ∈ q -> SndBuffer.k_data x <> []) :
  if Z.min (m_iFlowWindowSize st) (m_iCongestionWindow e) <=? a + Z.of_nat c - l
  then packUniqueData e clock now w st = Some (st, w, false)
  else
    let k := SndBuffer.skipped clock 0 (drop c q) in
    let c' := Nat.min (length q) (c + k + 1) in
    exists st' w' ok, packUniqueData e clock now w st = Some (st', w', ok) /\
      sender st' a (SndBuffer.mark (SndBuffer.enc EK_NOENC) c (Datatypes.S k) q) c' S /\
      m_iSndCurrSeqNo st' = seq_of (a + Z.of_nat c' - 1) /\ m_iSndLastAck st' = seq_of l /\ m_iFlowWindowSize st' = m_iFlowWindowSize st /\
      match q !! (c + k)%nat with
      | Some x => ok = true /\ w' = sent_packet e now (SndBuffer.k_seq x) x w
      | None => ok = false
      end.
Proof. apply pack_unique_ok; try done; lia. Qed.

(** [packLostData] takes the lowest loss that the time is right for,
    rejected lower ones leave the list with it.  When the packet's time to live
    is not over it is sent again with its number, its data, its origin time
    and the retransmission flag, and the sender's invariant holds for the
    later losses; when it is over the call does not return.  When the time is
    right for no loss nothing is sent and the list is empty. *)
Theorem snd_packLost (fuel : nat) (e : env) (clockc : nat -> Z) (clockx : nat -> Z * Z) (now : Z) (w : CPacket.t) (st : t) (a : Z)
  (q : list SndBuffer.pkt) (c : nat) (S : gset Z) (Hs : sender st a q c S) (Hne : forall x, x ∈ q -> SndBuffer.k_data x <> [])
  (Hmono : forall j k, (j <= k)%nat -> (clockx j).1 <= (clockx k).1) :
  (exists st', packLostData (Datatypes.S fuel) e clockc clockx now w st = Some (st', w, 0) /\ sender st' a q c ∅ /\
    m_iSndCurrSeqNo st' = m_iSndCurrSeqNo st /\
    forall y, y ∈ S -> exists k, checkRexmitRightTime (cfg e) (y - a) (clockc k) st = false) \/
  exists m x, m ∈ S /\ q !! Z.to_nat (m - a) = Some x /\ right_loss e clockc st a S m /\
    if SndBuffer.k_expired (clockx O).1 x then packLostData (Datatypes.S fuel) e clockc clockx now w st = None
    else exists st', packLostData (Datatypes.S fuel) e clockc clockx now w st =
          Some (st', rexmit_packet e now (seq_of m) x w, zlen (SndBuffer.k_data x)) /\
        sender st' a (<[Z.to_nat (m - a) := SndBuffer.rexmitted (clockx O).2 x]> q) c (filter (fun y => m < y) S) /\
        m_iSndCurrSeqNo st' = m_iSndCurrSeqNo st.
Proof. by apply pack_lost_ok. Qed.

(** ** The pace *)

(** Calls of [packData] that each give a packet, none before the time that the
    call before has set; the index is the sum of the intervals. *)
Inductive sends (fuel : nat) (e : env) : t -> pace -> Z -> t -> pace -> Prop :=
  | sends_none st pc : sends fuel e st pc 0 st pc
  | sends_one c sendint w st pc st1 pc1 w1 total st2 pc2 :
      0 < enter_time c -> m_tsNextSendTime pc <= enter_time c ->
      packData fuel e c sendint w pc st = Some (st1, pc1, w1, true) ->
      sends fuel e st1 pc1 total st2 pc2 -> sends fuel e st pc (sendint + total) st2 pc2.

Lemma packData_pace fuel e c sendint w pc st st1 pc1 w1 : packData fuel e c sendint w pc st = Some (st1, pc1, w1, true) ->
  exists probe, pc1 = pace_next (enter_time c) sendint probe (pace_enter (enter_time c) pc).
Proof.
  unfold packData. destruct (m_bOpened e); cbn [negb]; [|done]. intros H.
  apply option.bind_Some in H as ([[st0 w0] payload] & _ & H). apply option.bind_Some in H as ([[[st3 w3] packed] new] & _ & H).
  destruct packed; cbn [negb] in H; [|done]. injection H as _ <- _. by eexists.
Qed.

Lemma pace_step now sendint probe pc : 0 < now -> m_tsNextSendTime pc <> 0 -> m_tsNextSendTime pc <= now ->
  let pc' := pace_next now sendint probe (pace_enter now pc) in
  m_tsNextSendTime pc' - m_tdSendTimeDiff pc' = m_tsNextSendTime pc - m_tdSendTimeDiff pc + sendint /\ m_tsNextSendTime pc' <> 0.
Proof.
  intros Hnow Hnz Hle. unfold pace_enter. rewrite (proj2 (Z.eqb_neq _ _) Hnz). cbn [negb andb].
  set (pc1 := if now >? m_tsNextSendTime pc then _ else pc).
  assert (E : now - m_tdSendTimeDiff pc1 = m_tsNextSendTime pc - m_tdSendTimeDiff pc) by (unfold pc1; bdestr; cbn; lia).
  clearbody pc1. unfold pace_next. destruct probe; bdestr; cbn [m_tdSendTimeDiff m_tsNextSendTime]; lia.
Qed.

(** C35. The pace of sending is exact however late the worker calls: with each
    packet the time planned for the next one, less the delay still to be made
    up for, moves on by exactly the interval, for the second packet of a
    probing pair too.  So over any number of packets the schedule has moved by
    the sum of the intervals, and no packet is planned early. *)
Theorem snd_pacing (fuel : nat) (e : env) (st st' : t) (pc pc' : pace) (total : Z)
  (Hrun : sends fuel e st pc total st' pc') (Hset : m_tsNextSendTime pc <> 0) :
  m_tsNextSendTime pc' - m_tdSendTimeDiff pc' = m_tsNextSendTime pc - m_tdSendTimeDiff pc + total.
Proof.
  induction Hrun as [st pc|c sendint w st pc st1 pc1 w1 total st2 pc2 H0 Hle E Hrun IH]; [lia|].
  apply packData_pace in E as [probe ->]. destruct (pace_step (enter_time c) sendint probe pc H0 Hset Hle) as [E1 E2].
  rewrite IH by done. lia.
Qed.

(** ** Examples *)

Definition example_env : env := mkEnv (mkConfig true 0 100000 1000 true true 0 120) 64 true 0 77 true true.
Definition example_unsent : t := mk (SndBuffer.example_sent 0) example_list 0x7FFFFFFF 0x7FFFFFFF 0x7FFFFFFE 100 [].
Definition no_packet : CPacket.t := CPacket.mk 0 0 0 0 [].

Lemma example_unsent_sender : sender example_unsent 0x7FFFFFFF SndBuffer.example_queue 0 ∅.
Proof.
  destruct example_sender as [_ _ Hsz _ Hq Hw _]. split; try done.
  - exact SndBuffer.example_holds.
  - exact example_list_holds.
Qed.

Lemma example_data x : x ∈ SndBuffer.example_queue -> SndBuffer.k_data x <> [].
Proof.
  assert (Forall (fun x => SndBuffer.k_data x <> []) SndBuffer.example_queue) as Hf by (repeat constructor; discriminate).
  intros Hx. by eapply list.Forall_forall in Hf.
Qed.

(** The first packet, 2 ms after the origin time; it would not be sent with 0
    packets allowed in flight. *)
Lemma snd_packUnique_witness :
  exists st' p, packUniqueData example_env (fun _ => 3000) 3000 no_packet example_unsent = Some (st', p, true) /\
    p = CPacket.mk 0x7FFFFFFF (2 ^ 31 + 2 ^ 29 + 1) 1000 77 [1; 2; 3] /\ m_iSndCurrSeqNo st' = 0x7FFFFFFF.
Proof.
  pose proof (snd_packUnique example_env (fun _ => 3000) 3000 no_packet example_unsent 0x7FFFFFFF SndBuffer.example_queue 0 ∅ 0x7FFFFFFF
    example_unsent_sender eq_refl eq_refl ltac:(vm_compute; split; [discriminate|reflexivity]) example_data) as H.
  replace (Z.min (m_iFlowWindowSize example_unsent) (m_iCongestionWindow example_env) <=? 0x7FFFFFFF + Z.of_nat 0 - 0x7FFFFFFF) with false in H by (symmetry; reflexivity). destruct H as (st' & p & ok & E & _ & Hcur & _ & _ & Hp).
  vm_compute in Hp. destruct Hp as [-> ->]. eexists _, _. split; [exact E|]. split; [reflexivity|]. rewrite Hcur. reflexivity.
Defined.

(** The first of the two lost packets, with the retransmission flag. *)
Lemma snd_packLost_witness :
  exists st', packLostData 1 example_env (fun _ => 3000) (fun _ => (3000, 3000)) 3000 no_packet (example_state 3 example_losses) =
      Some (st', CPacket.mk 0x7FFFFFFF (2 ^ 31 + 2 ^ 29 + 2 ^ 26 + 1) 1000 0 [1; 2; 3], 3).
Proof.
  destruct (snd_packLost 0 example_env (fun _ => 3000) (fun _ => (3000, 3000)) 3000 no_packet _ _ _ _ _ example_sender example_data
    ltac:(done)) as [(st' & E & _ & _ & H)|(m & x & Hm & Hx & _ & H)].
  - exfalso. destruct (H 0x7FFFFFFF) as [k Hk]; [|vm_compute in Hk; discriminate].
    apply elem_of_union_r, elem_of_range. lia.
  - rewrite (left_id_L ∅ (∪)) in Hm. apply elem_of_range in Hm.
    destruct (decide (m = 0x7FFFFFFF)) as [->|]; [|assert (m = 0x80000000) as -> by lia].
    + injection Hx as <-. vm_compute in H.
      destruct H as (st' & E & _). exists st'. exact E.
    + injection Hx as <-. vm_compute in H. destruct H as (st' & E & _). discriminate.
Defined.

(** Two packets, the second one the start of a probing pair. *)
Definition clocks_at (t : Z) : clocks := mkClocks t (fun _ => t) (fun _ => (t, t)) (fun _ => t) t.
Definition first_send := packData 1 example_env (clocks_at 2000) 700 no_packet (mkPace 1500 0) example_unsent.
Definition sent_state (r : option (t * pace * CPacket.t * bool)) : t := from_option (fun r => r.1.1.1) example_unsent r.
Definition sent_pace (r : option (t * pace * CPacket.t * bool)) : pace := from_option (fun r => r.1.1.2) (mkPace 0 0) r.
Definition second_send := packData 1 example_env (clocks_at 2900) 700 no_packet (sent_pace first_send) (sent_state first_send).

Lemma snd_pacing_witness : sent_pace second_send = mkPace 2900 0 /\ 2900 - 0 = 1500 - 0 + (700 + (700 + 0)).
Proof.
  assert (Hp : sent_pace second_send = mkPace 2900 0) by (vm_compute; reflexivity). split; [exact Hp|].
  assert (Hrun : sends 1 example_env example_unsent (mkPace 1500 0) (700 + (700 + 0)) (sent_state second_send) (sent_pace second_send)).
  { eapply (sends_one _ _ (clocks_at 2000) 700 no_packet _ _ (sent_state first_send) (sent_pace first_send)); [reflexivity|vm_compute; discriminate|vm_compute; reflexivity|].
    eapply (sends_one _ _ (clocks_at 2900) 700 no_packet _ _ (sent_state second_send) (sent_pace second_send)); [reflexivity|vm_compute; discriminate|vm_compute; reflexivity|].
    apply sends_none. }
  pose proof (snd_pacing _ _ _ _ _ _ _ Hrun ltac:(discriminate)) as H. rewrite Hp in H. exact H.
Defined.
