(* ===== verification/Transfer.v ===== *)
(** From end to end: a message that one side's application adds to its sender
    buffer, the packets that the functions of SndPack.v make of it, in whatever
    order and however often they arrive, and the receiver buffer from which
    the other side's application reads the message. *)
From stdpp Require Import gmap.
From S2P Require Import Prelude Ring SeqNo Packet TsbPd UnitQueue RcvBuffer RcvBufferInv RcvBufferRead.
From S2P Require SndBuffer SndRexmit SndPack.
Import CSeqNo CPacket CRcvBuffer.
Import SndRexmit.CUDTSnd(m_pSndBuffer, m_iSndCurrSeqNo, m_iSndLastAck, m_iFlowWindowSize, set_buffer).
Import SndPack.CUDTPack(env, m_iCongestionWindow, packUniqueData).

(** ** The packets of a message *)

(** The packets [ms] of one message, the first one at position [s]. *)
Definition is_message (s : Z) (ms : list SndBuffer.pkt) : Prop :=
  forall i x, ms !! i = Some x -> SndBuffer.k_seq x = seq_of (s + Z.of_nat i) /\
    Bits.unwrap 31 30 (u32 (SndBuffer.k_bits x)) = SndBuffer.boundary (Z.of_nat i) (zlen ms).

(** [p] brings packet [i] of the message. *)
Definition carries (s : Z) (ms : list SndBuffer.pkt) (i : nat) (p : CPacket.t) : Prop :=
  exists x, ms !! i = Some x /\ getSeqNo p = seq_of (s + Z.of_nat i) /\
    getMsgBoundary p = SndBuffer.boundary (Z.of_nat i) (zlen ms) /\ CPacket.m_pcData p = SndBuffer.k_data x.

Lemma getSeqNo_seq_of x p : SRT_PH_SEQNO p = u32 (seq_of x) -> getSeqNo p = seq_of x.
Proof.
  intros H. unfold getSeqNo. rewrite H. pose proof (seq_of_valid x) as Hv. unfold valid, m_iMaxSeqNo in Hv.
  rewrite u32_id by (unfold in_u32; lia). apply i32_id. unfold in_i32. lia.
Qed.

Lemma boundary_rexmit w : Bits.unwrap 31 30 (Z.lor w MSGNO_REXMIT_mask) = Bits.unwrap 31 30 w.
Proof.
  apply Z.bits_inj'. intros i Hi. rewrite !unwrap_testbit, Z.lor_spec by lia. unfold MSGNO_REXMIT_mask, Bits.mask.
  rewrite mask_testbit by lia. destruct (Z.leb_spec (i + Z.of_nat 30) (Z.of_nat 26)); [lia|]. by rewrite andb_false_r, orb_false_r.
Qed.

Lemma setDataPacketTS_header e now ts p :
  SRT_PH_SEQNO (SndPack.CUDTPack.setDataPacketTS e now ts p) = SRT_PH_SEQNO p /\
  SRT_PH_MSGNO (SndPack.CUDTPack.setDataPacketTS e now ts p) = SRT_PH_MSGNO p /\
  CPacket.m_pcData (SndPack.CUDTPack.setDataPacketTS e now ts p) = CPacket.m_pcData p.
Proof. unfold SndPack.CUDTPack.setDataPacketTS. by destruct (negb _); [|destruct (_ <? _)]. Qed.

Lemma carries_header s ms i x p w : is_message s ms -> ms !! i = Some x -> SRT_PH_SEQNO p = u32 (SndBuffer.k_seq x) ->
  SRT_PH_MSGNO p = w -> Bits.unwrap 31 30 w = Bits.unwrap 31 30 (u32 (SndBuffer.k_bits x)) ->
  CPacket.m_pcData p = SndBuffer.k_data x -> carries s ms i p.
Proof.
  intros Hms Hx Hseq Hw Hb Hd. destruct (Hms i x Hx) as [H1 H2]. exists x. split_and!; try done.
  - apply getSeqNo_seq_of. by rewrite Hseq, H1.
  - unfold getMsgBoundary. by rewrite Hw, Hb.
Qed.

Lemma sent_carries s ms i x e now w : is_message s ms -> ms !! i = Some x ->
  carries s ms i (SndPack.sent_packet e now (SndBuffer.k_seq x) x w).
Proof.
  intros Hms Hx. unfold SndPack.sent_packet. set (p := CPacket.mk _ _ _ _ _).
  destruct (setDataPacketTS_header e now (SndBuffer.k_origin x) p) as (H1 & H2 & H3).
  apply (carries_header _ _ _ x _ _ Hms Hx H1 H2); [|done]. f_equal. cbn [p SRT_PH_MSGNO SndBuffer.k_bits SndBuffer.enc].
  unfold SndBuffer.enc. cbn. rewrite SndBuffer.u32_or32 by done. apply Z.lor_0_r.
Qed.

Lemma rexmit_carries s ms i x e now w : is_message s ms -> ms !! i = Some x ->
  carries s ms i (SndPack.rexmit_packet e now (SndBuffer.k_seq x) x w).
Proof.
  intros Hms Hx. unfold SndPack.rexmit_packet. set (p := CPacket.mk _ _ _ _ _).
  destruct (setDataPacketTS_header e now (SndBuffer.k_origin x) p) as (H1 & H2 & H3).
  apply (carries_header _ _ _ x _ _ Hms Hx H1 H2); [|done]. cbn [p SRT_PH_MSGNO].
  destruct (SndPack.CUDTPack.m_bPeerRexmitFlag e); [apply boundary_rexmit|done].
Qed.

(** ** Arrival *)

Lemma is_first_boundary p i N : getMsgBoundary p = SndBuffer.boundary i N -> is_first p = (i =? 0) /\ is_last p = (i =? N - 1).
Proof.
  unfold is_first, is_last. intros ->. unfold SndBuffer.boundary. by destruct (i =? 0), (i =? N - 1).
Qed.

Section Receiver.
Context {Q : Type} `{HQ : !UnitPool Q}.
Implicit Types (st : t (Q := Q)) (cs : list Entry) (us : list CUnit).

(** The packets of [us] as they come in. *)
Fixpoint arrive us st : option (t (Q := Q)) :=
  match us with
  | [] => Some st
  | u :: us => '(st, _) ← insert u st; arrive us st
  end.

Context (s : Z) (ms : list SndBuffer.pkt).

(** Every cell is free or has its packet of the message. *)
Definition partial cs : Prop := forall k, cell_at cs k = no_entry \/
  exists u, cell_at cs k = mkEntry (Some u) EntryState_Avail /\ carries s ms k (m_Packet u).

Definition arrived cs (k : nat) : Prop := has_packet (cell_at cs k) = true.

(** A receiver that has some packets of the message and nothing else. *)
Record receiving st cs (nr : nat) o : Prop := {
  v_inv : inv st s cs nr o;
  v_stuck : head_message true (drop nr cs) = None;
  v_api : m_bMessageAPI st = true;
  v_partial : partial cs;
  v_room : zlen ms < zlen cs
}.

Lemma carries_lt i p : carries s ms i p -> (i < length ms)%nat.
Proof. intros (x & Hx & _). by eapply lookup_lt_Some. Qed.

Lemma carries_fun i j p : carries s ms i p -> carries s ms j p -> zlen ms <= m_iSeqNoTH -> i = j.
Proof.
  intros Hi Hj Hl. pose proof (carries_lt _ _ Hi). pose proof (carries_lt _ _ Hj).
  destruct Hi as (x & _ & Hx & _), Hj as (y & _ & Hy & _). rewrite Hx in Hy. unfold m_iSeqNoTH in Hl.
  apply seq_of_inj in Hy; lia.
Qed.

Lemma cell_at_insert cs (k j : nat) e : (k < length cs)%nat -> cell_at (<[k := e]> cs) j = if decide (j = k) then e else cell_at cs j.
Proof.
  intros Hk. unfold cell_at. case_decide as Hj.
  - subst j. by rewrite list_lookup_insert_eq.
  - by rewrite list_lookup_insert_ne by done.
Qed.

Lemma arrive_one st cs nr o u i : receiving st cs nr o -> carries s ms i (m_Packet u) ->
  pool_has (m_pUnitQueue st) (unit_id u) -> unit_id u ∉ pool_taken (m_pUnitQueue st) ->
  exists st' r cs' nr', insert u st = Some (st', r) /\ receiving st' cs' nr' o /\
    arrived cs' i /\ (forall k, arrived cs k -> arrived cs' k) /\
    (forall v, pool_has (m_pUnitQueue st') v <-> pool_has (m_pUnitQueue st) v) /\
    pool_taken (m_pUnitQueue st') ⊆ {[unit_id u]} ∪ pool_taken (m_pUnitQueue st).
Proof.
  intros [Hinv Hstuck Hapi Hpart Hroom] Hu Hhas Hfree. pose proof (carries_lt _ _ Hu) as Hi. pose proof Hu as (x & Hx & Hseq & _).
  pose proof (core_length _ _ _ _ (proj1 (i_rep _ _ _ _ _ Hinv))) as Hl. pose proof (c_size _ _ _ _ (proj1 (i_rep _ _ _ _ _ Hinv))) as Hsz.
  destruct (Hpart i) as [Hc|(v & Hc & Hv)].
  - destruct (insert_free st s cs nr o i u Hinv) as (st' & n & E & Hinv' & Hstuck' & _ & Hapi' & Ht & Hp); try done; [lia|by rewrite Hc|].
    set (cs' := <[i := mkEntry (Some u) EntryState_Avail]> cs) in *.
    assert (Hcell : forall k, cell_at cs' k = if decide (k = i) then mkEntry (Some u) EntryState_Avail else cell_at cs k)
      by (intros k; apply cell_at_insert; lia).
    exists st', 0, cs', (nr + n)%nat. split; [done|]. split; [split; try done|split; [|split; [|split; [done|by rewrite Ht]]]].
    + by rewrite Hapi in Hstuck'.
    + by rewrite Hapi'.
    + intros k. rewrite Hcell. case_decide as Hk; [subst k; right; by exists u|apply Hpart].
    + unfold cs'. by rewrite length_insert.
    + unfold arrived. by rewrite Hcell, decide_True.
    + intros k Hk. unfold arrived in *. rewrite Hcell. by case_decide.
  - exists st, (-1), cs, nr. split; [|split; [by split|split; [unfold arrived; by rewrite Hc|split_and!; try done; set_solver]]].
    assert (Hcode : insert_code s (m_szSize st) cs (s + Z.of_nat i) = -1).
    { unfold insert_code. rewrite (proj2 (Z.ltb_ge _ _)) by lia. replace (s + Z.of_nat i - s) with (Z.of_nat i) by lia.
      rewrite Z.geb_leb, (proj2 (Z.leb_gt _ _)), Nat2Z.id, Hc by lia. done. }
    rewrite <- Hcode. apply (insert_rejected st s cs nr o); [done|done|lia|by rewrite Hcode].
Qed.

Lemma arrive_ok us : forall st cs nr o, receiving st cs nr o ->
  (forall u, u ∈ us -> exists i, carries s ms i (m_Packet u)) -> NoDup (map unit_id us) ->
  (forall u, u ∈ us -> pool_has (m_pUnitQueue st) (unit_id u) /\ unit_id u ∉ pool_taken (m_pUnitQueue st)) ->
  exists st' cs' nr', arrive us st = Some st' /\ receiving st' cs' nr' o /\ (forall k, arrived cs k -> arrived cs' k) /\
    forall u i, u ∈ us -> carries s ms i (m_Packet u) -> arrived cs' i.
Proof.
  induction us as [|u us IH]; intros st cs nr o Hr Hus Hnd Hfree.
  - exists st, cs, nr. cbn [arrive]. split_and!; try done. intros u i Hu. by apply not_elem_of_nil in Hu.
  - cbn [map] in Hnd. apply list.NoDup_cons in Hnd as [Hnu Hnd]. destruct (Hus u ltac:(set_solver)) as [i Hi].
    destruct (Hfree u ltac:(set_solver)) as [Hh Hf].
    destruct (arrive_one st cs nr o u i Hr Hi Hh Hf) as (st1 & r & cs1 & nr1 & E & Hr1 & Hi1 & Hmono & Hhas & Ht).
    destruct (IH st1 cs1 nr1 o Hr1) as (st' & cs' & nr' & E' & Hr' & Hmono' & Hall); [intros; apply Hus; set_solver|done| |].
    + intros v Hv. destruct (Hfree v ltac:(set_solver)) as [H1 H2]. split; [by apply Hhas|].
      assert (unit_id v <> unit_id u) by (intros Ev; apply Hnu; rewrite <- Ev; apply list_elem_of_In, in_map, list_elem_of_In, Hv). set_solver.
    + exists st', cs', nr'. cbn [arrive]. rewrite E. split; [exact E'|]. split; [done|]. split; [by auto|].
      intros v j [->|Hv]%elem_of_cons Hj; [|by eapply Hall]. apply Hmono'.
      rewrite (carries_fun j i (m_Packet u)); [done|done|done|].
      pose proof (v_room _ _ _ _ Hr). pose proof (proj1 (i_rep _ _ _ _ _ (v_inv _ _ _ _ Hr))) as Hc.
      pose proof (core_length _ _ _ _ Hc). pose proof (c_size _ _ _ _ Hc). lia.
Qed.
(** ** The complete message *)

Lemma complete_cell cs k : partial cs -> arrived cs k -> exists x, ms !! k = Some x /\
  has_packet (cell_at cs k) = true /\ CPacket.m_pcData (packet_of (cell_at cs k)) = SndBuffer.k_data x /\
  is_first (packet_of (cell_at cs k)) = (k =? 0)%nat /\ is_last (packet_of (cell_at cs k)) = (S k =? length ms)%nat.
Proof.
  intros Hp Ha. destruct (Hp k) as [E|(u & E & x & Hx & _ & Hb & Hd)]; [unfold arrived in Ha; by rewrite E in Ha|].
  exists x. rewrite E. unfold packet_of, has_packet. cbn [pUnit from_option]. rewrite bool_decide_true by eauto.
  destruct (is_first_boundary _ _ _ Hb) as [-> ->]. split_and!; try done.
  - destruct (Z.eqb_spec (Z.of_nat k) 0), (Nat.eqb_spec k 0); done || lia.
  - destruct (Z.eqb_spec (Z.of_nat k) (zlen ms - 1)), (Nat.eqb_spec (S k) (length ms)); done || lia.
Qed.

Lemma complete_end cs : partial cs -> (length ms < length cs)%nat -> (forall k, (k < length ms)%nat -> arrived cs k) ->
  forall n, (0 < n <= length ms)%nat -> msg_end true (drop (length ms - n) cs) = Some n.
Proof.
  intros Hp Hl Ha. induction n as [|n IH]; [lia|]. intros Hn. set (k := (length ms - S n)%nat).
  destruct (complete_cell cs k Hp (Ha k ltac:(lia))) as (x & _ & Hh & _ & _ & Hlast).
  rewrite (drop_cons_at cs k) by lia. cbn [msg_end]. rewrite Hh, Hlast. cbn [negb orb].
  destruct (Nat.eqb_spec (S k) (length ms)) as [He|He].
  - replace n with O by lia. done.
  - replace (S k) with (length ms - n)%nat by lia. rewrite IH by lia. done.
Qed.

Lemma complete_payload cs : partial cs -> (length ms < length cs)%nat -> (forall k, (k < length ms)%nat -> arrived cs k) ->
  payload (take (length ms) cs) = concat (map SndBuffer.k_data ms).
Proof.
  intros Hp Hl Ha. unfold payload. f_equal. apply list_eq. intros k. rewrite !list_lookup_fmap.
  destruct (decide (k < length ms)%nat) as [Hk|Hk].
  - rewrite lookup_take_lt, (cell_at_lookup cs k) by lia. destruct (complete_cell cs k Hp (Ha k Hk)) as (x & -> & _ & Hd & _). cbn. by rewrite Hd.
  - rewrite !lookup_ge_None_2; [done|lia|rewrite length_take; lia].
Qed.

Lemma complete_read st cs nr o len ctrl : receiving st cs nr o -> (0 < length ms)%nat -> (forall k, (k < length ms)%nat -> arrived cs k) ->
  0 <= len ->
  exists st' ctrl', readMessage len ctrl st =
      Some (st', take (Z.to_nat len) (concat (map SndBuffer.k_data ms)), ctrl', Z.min len (zlen (concat (map SndBuffer.k_data ms)))) /\
    m_iStartSeqNo st' = seq_of (s + zlen ms) /\ exists nr', inv st' (s + zlen ms) (shift (length ms) cs) nr' o.
Proof.
  intros [Hinv Hstuck Hapi Hpart Hroom] H0 Ha Hlen. pose proof (complete_end cs Hpart ltac:(lia) Ha (length ms) ltac:(lia)) as Hend.
  rewrite Nat.sub_diag, drop_0 in Hend. destruct (complete_cell cs 0 Hpart (Ha 0%nat H0)) as (x0 & _ & Hh0 & _ & Hf0 & _).
  assert (Hhead : head_message true cs = Some (length ms)).
  { unfold head_message, msg_starts. destruct cs as [|e cs]; [cbn in Hroom; lia|]. change (cell_at (e :: cs) 0) with e in *.
    rewrite Hh0, Hf0. cbn [negb orb andb Nat.eqb]. exact Hend. }
  assert (Hnr : (0 < nr)%nat).
  { destruct nr; [|lia]. rewrite drop_0, Hhead in Hstuck. discriminate. }
  destruct (read_message_ok st s cs nr o len ctrl Hinv Hnr Hlen Hapi) as (k & st' & f & ctrl' & Hk & _ & E & Hinv' & Hfill & _).
  rewrite Hhead in Hk. injection Hk as <-. rewrite (complete_payload cs Hpart ltac:(lia) Ha) in E.
  assert (f = 0)%nat as ->.
  { destruct f; [done|]. specialize (Hfill (length ms) ltac:(lia)). destruct (Hpart (length ms)) as [Hc|(u & _ & Hc)].
    - by rewrite Hc in Hfill.
    - apply carries_lt in Hc. lia. }
  rewrite Nat.add_0_r in Hinv'. exists st', ctrl'. split; [exact E|]. split; [apply (i_seq _ _ _ _ _ Hinv')|]. by eexists.
Qed.

(** An empty receiver that waits for the first packet of the message. *)
Lemma receiving_empty st size o : inv st s (replicate size no_entry) 0 o -> m_bMessageAPI st = true -> zlen ms < Z.of_nat size ->
  receiving st (replicate size no_entry) 0 o.
Proof.
  intros Hinv Hapi Hl. split; try done.
  - by destruct size.
  - intros k. left. unfold cell_at. destruct (decide (k < size)%nat); [by rewrite lookup_replicate_2|].
    by rewrite lookup_ge_None_2 by (rewrite length_replicate; lia).
  - by rewrite length_replicate.
Qed.
End Receiver.

(** ** Departure *)

Section Sender.
Context (e : env) (a : Z) (S : gset Z) (l : Z) (w : CPacket.t).
Implicit Types (st : SndRexmit.CUDTSnd.t) (q : list SndBuffer.pkt).

(** [n] calls of [packUniqueData] that each give a packet; call [j] reads the
    clocks [clock j] and [now j]. *)
Fixpoint send_all (clock : nat -> nat -> Z) (now : nat -> Z) (j n : nat) st : option (SndRexmit.CUDTSnd.t * list CPacket.t) :=
  match n with
  | O => Some (st, [])
  | Datatypes.S n =>
      '(st, p, ok) ← packUniqueData e (clock j) (now j) w st;
      if ok : bool then '(st, ps) ← send_all clock now (Datatypes.S j) n st; Some (st, p :: ps) else None
  end.

Lemma mark_beyond_drop f c n q : drop (c + n) (SndBuffer.mark f c n q) = drop (c + n) q.
Proof.
  apply list_eq. intros i. rewrite !lookup_drop, SndPack.mark_lookup. destruct (q !! (c + n + i)%nat); [|done]. cbn [fmap option_fmap option_map].
  by rewrite (proj2 (Nat.ltb_ge _ _)), andb_false_r by lia.
Qed.

Lemma not_skipped clock j x q : SndBuffer.k_ttl x < 0 -> SndBuffer.skipped clock j (x :: q) = 0%nat.
Proof.
  intros Ht. cbn [SndBuffer.skipped]. unfold SndBuffer.k_expired. rewrite Z.geb_leb, (proj2 (Z.leb_gt _ _)) by lia. done.
Qed.

Lemma send_all_ok clock now : forall n j st q c, SndRexmit.sender st a q c S -> m_iSndCurrSeqNo st = seq_of (a + Z.of_nat c - 1) ->
  m_iSndLastAck st = seq_of l -> l <= a + Z.of_nat c -> a + Z.of_nat (c + n) - l < 2 ^ 31 ->
  a + Z.of_nat (c + n) - l <= Z.min (m_iFlowWindowSize st) (m_iCongestionWindow e) -> length q = (c + n)%nat ->
  (forall x, x ∈ q -> SndBuffer.k_data x <> []) -> (forall x, x ∈ drop c q -> SndBuffer.k_ttl x < 0) ->
  exists st' q' ps, send_all clock now j n st = Some (st', ps) /\ SndRexmit.sender st' a q' (c + n) S /\
    m_iSndCurrSeqNo st' = seq_of (a + Z.of_nat (c + n) - 1) /\
    Forall2 (fun x p => exists now, p = SndPack.sent_packet e now (SndBuffer.k_seq x) x w) (drop c q) ps.
Proof.
  induction n as [|n IH]; intros j st q c Hs Hcur Hl Hl1 Hl2 Hw Hq Hne Httl.
  - rewrite Nat.add_0_r in *. exists st, q, []. cbn [send_all]. split_and!; try done. by rewrite drop_ge by lia.
  - destruct (lookup_lt_is_Some_2 q c ltac:(lia)) as [x Hx]. pose proof (drop_S _ _ _ Hx) as Hd.
    pose proof (SndPack.pack_unique_ok e (clock j) (now j) w st a q c S l Hs Hcur Hl Hl1 ltac:(lia) Hne) as H.
    rewrite (proj2 (Z.leb_gt _ _)) in H by lia. cbv zeta in H. rewrite Hd, not_skipped in H by (apply Httl; rewrite Hd; set_solver).
    replace (Nat.min (length q) (c + 0 + 1)) with (Datatypes.S c) in H by lia. rewrite Nat.add_0_r, Hx in H.
    destruct H as (st1 & p & ok & E & Hs1 & Hcur1 & Hl' & Hw1 & -> & ->). set (q1 := SndBuffer.mark _ c 1 q) in *.
    assert (Hd1 : drop (Datatypes.S c) q1 = drop (Datatypes.S c) q).
    { replace (Datatypes.S c) with (c + 1)%nat by lia. apply mark_beyond_drop. }
    destruct (IH (Datatypes.S j) st1 q1 (Datatypes.S c) Hs1) as (st' & q' & ps & E' & Hs' & Hcur' & Hps).
    + rewrite Hcur1. f_equal; lia.
    + done.
    + lia.
    + lia.
    + rewrite Hw1. lia.
    + unfold q1, SndBuffer.mark. rewrite length_imap. lia.
    + intros y Hy. apply list_elem_of_lookup in Hy as [i Hy]. unfold q1 in Hy. rewrite SndPack.mark_lookup in Hy.
      destruct (q !! i) as [z|] eqn:Ez; [|done]. pose proof (Hne z (list_elem_of_lookup_2 _ _ _ Ez)).
      injection Hy as <-. by case_match.
    + intros y Hy. rewrite Hd1 in Hy. apply Httl. rewrite Hd. set_solver.
    + exists st', q', (SndPack.sent_packet e (now j) (SndBuffer.k_seq x) x w :: ps). cbn [send_all]. rewrite E. cbn [mbind option_bind]. rewrite E'.
      split; [done|]. replace (c + Datatypes.S n)%nat with (Datatypes.S c + n)%nat by lia. split; [done|]. split; [done|].
      rewrite Hd. constructor; [by exists (now j)|]. by rewrite <- Hd1.
Qed.
End Sender.

(** ** Both sides *)

(** A retransmission of one of the packets [ms]. *)
Definition again (e : env) (ms : list SndBuffer.pkt) (p : CPacket.t) : Prop :=
  exists now x w, x ∈ ms /\ p = SndPack.rexmit_packet e now (SndBuffer.k_seq x) x w.

Lemma msg_pkts_lookup data L N ttl bits origin s i x : SndBuffer.msg_pkts data L N ttl bits origin s !! i = Some x ->
  x = SndBuffer.msg_pkt data L N ttl bits origin s (Z.of_nat i) /\ Z.of_nat i < N.
Proof.
  unfold SndBuffer.msg_pkts. intros H. pose proof (lookup_lt_Some _ _ _ H) as Hl. rewrite length_map, length_seqZ in Hl.
  rewrite list_lookup_fmap, lookup_seqZ_lt in H by lia. injection H as <-. split; [done|lia].
Qed.

Lemma msg_pkts_nonempty data L N ttl bits origin s x : 0 < L -> (0 < N -> (N - 1) * L < zlen data) ->
  x ∈ SndBuffer.msg_pkts data L N ttl bits origin s -> SndBuffer.k_data x <> [].
Proof.
  intros HL HN [i Hi]%list_elem_of_lookup. apply msg_pkts_lookup in Hi as [-> Hi]. cbn [SndBuffer.msg_pkt SndBuffer.k_data].
  intros E. apply (f_equal length) in E. rewrite length_take, length_drop in E. unfold SndBuffer.pktlen in E. cbn in E. nia.
Qed.

Lemma msg_is_message data L N ttl m ord bit origin s : 0 <= m <= MSGNO_SEQ_mask -> zlen (SndBuffer.msg_pkts data L N ttl (Z.lor m bit) origin s) = N ->
  (forall i, 0 <= i < N -> u32 (SndBuffer.CSndBuffer.boundary_bits (Z.lor m bit) i N) = message_word m ord (SndBuffer.boundary i N)) ->
  is_message s (SndBuffer.msg_pkts data L N ttl (Z.lor m bit) origin s).
Proof.
  intros Hm HN Hw i x Hi. apply msg_pkts_lookup in Hi as [-> Hi]. rewrite HN. split; [done|]. cbn [SndBuffer.msg_pkt SndBuffer.k_bits].
  rewrite Hw by lia. set (p := CPacket.mk 0 (message_word m ord (SndBuffer.boundary (Z.of_nat i) N)) 0 0 []).
  destruct (message_word_fields p m ord (SndBuffer.boundary (Z.of_nat i) N) Hm) as (_ & _ & Hb & _); [|done|exact Hb].
  unfold SndBuffer.boundary. by destruct (_ =? 0), (_ =? N - 1).
Qed.

(** The arrival of a message: every packet is one of the message, and each is
    there at least once. *)
Lemma message_arrives {Q} `{!UnitPool Q} (s : Z) (ms : list SndBuffer.pkt) (rst : t (Q := Q)) (size : nat) o (us : list CUnit) :
  inv rst s (replicate size no_entry) 0 o -> m_bMessageAPI rst = true -> zlen ms < Z.of_nat size -> ms <> [] ->
  NoDup (map unit_id us) ->
  (forall u, u ∈ us -> pool_has (m_pUnitQueue rst) (unit_id u) /\ unit_id u ∉ pool_taken (m_pUnitQueue rst)) ->
  (forall u, u ∈ us -> exists i, carries s ms i (m_Packet u)) ->
  (forall i, (i < length ms)%nat -> exists u, u ∈ us /\ getSeqNo (m_Packet u) = seq_of (s + Z.of_nat i)) ->
  exists rst', arrive us rst = Some rst' /\
    forall len ctrl, zlen (concat (map SndBuffer.k_data ms)) <= len -> exists rst'' ctrl',
      readMessage len ctrl rst' = Some (rst'', concat (map SndBuffer.k_data ms), ctrl', zlen (concat (map SndBuffer.k_data ms))) /\
      m_iStartSeqNo rst'' = seq_of (s + zlen ms).
Proof.
  intros Hinv Hapi Hsz Hne Hnd Hfree Hus Hall.
  pose proof (c_size _ _ _ _ (proj1 (i_rep _ _ _ _ _ Hinv))) as Hth. pose proof (core_length _ _ _ _ (proj1 (i_rep _ _ _ _ _ Hinv))) as Hlen.
  rewrite length_replicate in Hlen. unfold m_iSeqNoTH in Hth.
  destruct (arrive_ok s ms us rst (replicate size no_entry) 0 o) as (rst' & cs & nr & E & Hr & _ & Harr); try done.
  { by apply receiving_empty. }
  exists rst'. split; [done|]. intros len ctrl Hl.
  destruct (complete_read s ms rst' cs nr o len ctrl Hr) as (rst'' & ctrl' & Er & Hseq & _); [destruct ms; [done|cbn; lia]| |lia|].
  - intros k Hk. destruct (Hall k Hk) as (u & Hu & Hsq). destruct (Hus u Hu) as [i Hi]. pose proof (carries_lt _ _ _ _ Hi).
    pose proof Hi as (x & _ & Hi' & _). rewrite Hsq in Hi'. apply seq_of_inj in Hi'; [|lia]. assert (i = k) as -> by lia. by apply (Harr u).
  - exists rst'', ctrl'. split; [|done]. rewrite Er, Z.min_r, take_ge by lia. done.
Qed.

(** The sender with a message added. *)
Lemma sender_added st a q S b ms : SndRexmit.sender st a q (length q) S -> SndBuffer.holds b (q ++ ms) (length q) ->
  is_message (a + zlen q) ms -> zlen q + zlen ms < SndLossList.CSndLossList.m_iSize (SndRexmit.CUDTSnd.m_pSndLossList st) ->
  SndRexmit.sender (set_buffer b st) a (q ++ ms) (length q) S.
Proof.
  intros Hs Hb Hms Hw. split; try done; try apply Hs.
  - intros i x Hx. apply lookup_app_Some in Hx as [Hx|[Hi Hx]]; [exact (SndRexmit.s_seq _ _ _ _ _ Hs _ _ Hx)|].
    destruct (Hms _ _ Hx) as [-> _]. f_equal. lia.
  - rewrite length_app. cbn. lia.
Qed.

Lemma packets_carry e s ms w ps : is_message s ms ->
  Forall2 (fun x p => exists now, p = SndPack.sent_packet e now (SndBuffer.k_seq x) x w) ms ps ->
  zlen ps = zlen ms /\ (forall p, p ∈ ps -> exists i, carries s ms i p) /\
  forall i, (i < length ms)%nat -> exists p, p ∈ ps /\ getSeqNo p = seq_of (s + Z.of_nat i).
Proof.
  intros Hms Hf. split; [by rewrite (Forall2_length Hf)|]. split.
  - intros p [i Hi]%list_elem_of_lookup. destruct (Forall2_lookup_r _ _ _ _ _ Hf Hi) as (x & Hx & now & ->). exists i. by apply sent_carries.
  - intros i Hi. destruct (lookup_lt_is_Some_2 ms i Hi) as [x Hx]. destruct (Forall2_lookup_l _ _ _ _ _ Hf Hx) as (p & Hp & now & ->).
    eexists. split; [by eapply list_elem_of_lookup_2|]. destruct (sent_carries s ms i x e now w Hms Hx) as (y & _ & H & _). exact H.
Qed.

Section Message.
Context (alloc : nat -> bool) (tnow : Z) (data : list Z) (ctrl : SndBuffer.CSndBuffer.SRT_MSGCTRL) (st : SndRexmit.CUDTSnd.t) (s : Z).

(** The number of packets that [addBuffer] makes of the data, and the packets. *)
Definition packets_of : Z := SndBuffer.CSndBuffer.countNumPacketsRequired (zlen data) (SndBuffer.CSndBuffer.getMaxPacketLen (m_pSndBuffer st)).
Definition message_of : list SndBuffer.pkt :=
  SndBuffer.msg_pkts data (SndBuffer.CSndBuffer.getMaxPacketLen (m_pSndBuffer st)) packets_of (SndBuffer.CSndBuffer.msgttl ctrl)
    (Z.lor (SndBuffer.msg_number ctrl (m_pSndBuffer st)) (SndBuffer.order_bit ctrl)) (SndBuffer.origin_time ctrl tnow) s.
End Message.

(** C1. A message reaches the other side.  The sender, with everything so far
    sent, adds a message that never expires to its buffer; when the windows
    allow that many packets, as many calls of [packUniqueData] each give one
    packet.  Let these packets, and retransmissions of them, arrive in any
    order and any number of times, each at least once, at a receiver that is
    empty and waits for the first of them.  Then [readMessage] with enough room
    gives exactly the data of the message, and the receiver waits for the
    number behind it. *)
Theorem message_transfer {Q} `{!UnitPool Q} (e : env) (alloc : nat -> bool) (tnow : Z) (data : list Z)
  (ctrl ctrl' : SndBuffer.CSndBuffer.SRT_MSGCTRL) (st : SndRexmit.CUDTSnd.t) (a l : Z) (q : list SndBuffer.pkt) (S : gset Z)
  (b : SndBuffer.CSndBuffer.t) (clock : nat -> nat -> Z) (now : nat -> Z) (w : CPacket.t)
  (Hs : SndRexmit.sender st a q (length q) S) (Hcur : m_iSndCurrSeqNo st = seq_of (a + zlen q - 1))
  (Hq : forall x, x ∈ q -> SndBuffer.k_data x <> [])
  (Hadd : SndBuffer.CSndBuffer.addBuffer alloc tnow data ctrl (m_pSndBuffer st) = Some (b, Some ctrl'))
  (Hseq : SndBuffer.CSndBuffer.pktseq ctrl = seq_of (a + zlen q)) (Httl : SndBuffer.CSndBuffer.msgttl ctrl < 0)
  (Hno : 0 <= SndBuffer.msg_number ctrl (m_pSndBuffer st) <= MSGNO_SEQ_mask) (Hdata : data <> [])
  (Hack : m_iSndLastAck st = seq_of l) (Hl : l <= a + zlen q)
  (Hfit : zlen q + packets_of data st < SndLossList.CSndLossList.m_iSize (SndRexmit.CUDTSnd.m_pSndLossList st))
  (Hwin : a + zlen q + packets_of data st - l <= Z.min (m_iFlowWindowSize st) (m_iCongestionWindow e))
  (Hspan : a + zlen q + packets_of data st - l < 2 ^ 31) :
  let s := a + zlen q in
  let N := packets_of data st in
  exists st' q' ps, send_all e w clock now 0 (Z.to_nat N) (set_buffer b st) = Some (st', ps) /\ zlen ps = N /\
    SndRexmit.sender st' a q' (length q + Z.to_nat N) S /\ m_iSndCurrSeqNo st' = seq_of (s + N - 1) /\
    forall (rst : t (Q := Q)) (size : nat) o (us : list CUnit),
      inv rst s (replicate size no_entry) 0 o -> m_bMessageAPI rst = true -> N < Z.of_nat size -> NoDup (map unit_id us) ->
      (forall u, u ∈ us -> pool_has (m_pUnitQueue rst) (unit_id u) /\ unit_id u ∉ pool_taken (m_pUnitQueue rst)) ->
      (forall u, u ∈ us -> m_Packet u ∈ ps \/ again e (message_of tnow data ctrl st s) (m_Packet u)) ->
      (forall p, p ∈ ps -> exists u, u ∈ us /\ getSeqNo (m_Packet u) = getSeqNo p) ->
      exists rst', arrive us rst = Some rst' /\
        forall len ctrl0, zlen data <= len -> exists rst'' ctrl1,
          readMessage len ctrl0 rst' = Some (rst'', data, ctrl1, zlen data) /\ m_iStartSeqNo rst'' = seq_of (s + N).
Proof.
  intros s N. pose proof (SndRexmit.s_buf _ _ _ _ _ Hs) as Hb. pose proof (proj1 Hb) as [HL _].
  set (L := SndBuffer.CSndBuffer.getMaxPacketLen (m_pSndBuffer st)). assert (HL0 : 0 < L) by (unfold L, SndBuffer.CSndBuffer.getMaxPacketLen; lia).
  destruct (SndBuffer.packets_count (zlen data) L ltac:(lia) HL0) as (HN0 & HN1 & HN2). fold (packets_of data st) N in HN0, HN1, HN2.
  destruct (SndBuffer.add_buffer_ok alloc tnow data ctrl _ q (length q) s Hb Hseq) as (b' & r & E & Hr).
  rewrite Hadd in E. injection E as <- <-. destruct Hr as (Hb' & Hcat & HlenN & _ & _ & Hbits). specialize (Hbits Hno).
  set (ms := message_of tnow data ctrl st s). change (SndBuffer.holds b (q ++ ms) (length q)) in Hb'.
  change (concat (map SndBuffer.k_data ms) = data) in Hcat. change (zlen ms = N) in HlenN.
  assert (Hms : is_message s ms) by (by apply (msg_is_message _ _ _ _ _ (SndBuffer.CSndBuffer.inorder ctrl))).
  assert (Hms0 : ms <> []) by (intros E; rewrite E in Hcat; cbn in Hcat; congruence).
  destruct (send_all_ok e a S l w clock now (Z.to_nat N) 0 (set_buffer b st) (q ++ ms) (length q)) as (st' & q' & ps & E & Hs' & Hcur' & Hps); try done; try lia.
  - apply sender_added; try done. rewrite HlenN. exact Hfit.
  - cbn. lia.
  - rewrite length_app. lia.
  - intros x [Hx|Hx]%elem_of_app; [by apply Hq|]. by eapply msg_pkts_nonempty.
  - intros x Hx. rewrite drop_app_length in Hx. apply list_elem_of_lookup in Hx as [i Hx]. apply msg_pkts_lookup in Hx as [-> _]. done.
  - rewrite drop_app_length in Hps. destruct (packets_carry e s ms w ps Hms Hps) as (Hlen & Hcarry & Hevery).
    exists st', q', ps. split; [done|]. split; [by rewrite Hlen|]. split; [done|]. split; [rewrite Hcur'; f_equal; lia|].
    intros rst size o us Hinv Hapi Hsize Hnd Hfree Hus Hall.
    destruct (message_arrives s ms rst size o us Hinv Hapi) as (rst' & Ea & Hread); try done; [by rewrite HlenN|..].
    + intros u Hu. destruct (Hus u Hu) as [Hin|(t0 & x & w0 & [i Hx]%list_elem_of_lookup & ->)]; [by apply Hcarry|]. exists i. by apply rexmit_carries.
    + intros i Hi. destruct (Hevery i Hi) as (p & Hp & Hsq). destruct (Hall p Hp) as (u & Hu & Hsu). exists u. by rewrite Hsu.
    + exists rst'. split; [done|]. rewrite Hcat, HlenN in Hread. exact Hread.
Qed.

(** ** Example: five bytes in two packets over the wrap of the numbers, the
    second packet first, the first one three times *)

Definition example_ctrl : SndBuffer.CSndBuffer.SRT_MSGCTRL := SndBuffer.CSndBuffer.mkCtrl SndBuffer.CSndBuffer.SRT_MSGNO_NONE 0x7FFFFFFF 0 (-1) false.
Definition example_start : SndRexmit.CUDTSnd.t :=
  SndRexmit.CUDTSnd.mk (SndBuffer.CSndBuffer.init 2 3 0) SndRexmit.example_list 0x7FFFFFFF 0x7FFFFFFF 0x7FFFFFFE 100 [].
Definition example_added := SndBuffer.CSndBuffer.addBuffer (fun _ => true) 1000 [1; 2; 3; 4; 5] example_ctrl (m_pSndBuffer example_start).
Definition example_receiver : t (Q := CUnitQueue.t) := init 0x7FFFFFFF 8 (CUnitQueue.init 8) true (CTsbpdTime.init 0).

Lemma example_start_sender : SndRexmit.sender example_start 0x7FFFFFFF [] 0 ∅.
Proof.
  split; try done.
  - apply SndBuffer.init_holds_snd; lia.
  - exact SndRexmit.example_list_holds.
Qed.

Lemma example_receiver_inv : inv example_receiver 0x7FFFFFFF (replicate 8 no_entry) 0 ∅.
Proof.
  destruct (init_wf 8 ltac:(lia)) as [Hw Ht]. pose proof (init_inv 0x7FFFFFFF 8 (CUnitQueue.init 8) true (CTsbpdTime.init 0)) as H.
  change (pool_taken (CUnitQueue.init 8)) with (taken_units (CUnitQueue.init 8)) in H. rewrite Ht in H. apply H; [|exact Hw].
  vm_compute. split; discriminate.
Qed.

Definition example_second : CPacket.t := CPacket.mk 0 (2 ^ 30 + 1) 1000 77 [4; 5].
Definition example_first : CPacket.t := CPacket.mk 0x7FFFFFFF (2 ^ 31 + 1) 1000 77 [1; 2; 3].
Definition example_again : CPacket.t := CPacket.mk 0x7FFFFFFF (2 ^ 31 + 2 ^ 26 + 1) 1000 0 [1; 2; 3].
Definition example_units : list CUnit :=
  [mkUnit (O, 0%nat) example_second; mkUnit (O, 1%nat) example_again; mkUnit (O, 2%nat) example_first; mkUnit (O, 3%nat) example_again].

Lemma message_transfer_witness :
  exists rst' rst'', arrive example_units example_receiver = Some rst' /\
    readMessage 100 None rst' = Some (rst'', [1; 2; 3; 4; 5], None, 5) /\ m_iStartSeqNo rst'' = 1.
Proof.
  destruct example_added as [[b [c|]]|] eqn:Ea; [|vm_compute in Ea; discriminate|vm_compute in Ea; discriminate].
  destruct (message_transfer (Q := CUnitQueue.t) SndPack.example_env (fun _ => true) 1000 [1; 2; 3; 4; 5] example_ctrl c example_start
    0x7FFFFFFF 0x7FFFFFFF [] ∅ b (fun _ _ => 3000) (fun _ => 3000) SndPack.no_packet example_start_sender eq_refl
    ltac:(intros x Hx; by apply not_elem_of_nil in Hx) Ea eq_refl eq_refl ltac:(vm_compute; split; discriminate) ltac:(discriminate) eq_refl
    ltac:(vm_compute; discriminate) eq_refl ltac:(vm_compute; discriminate) eq_refl) as (st' & q' & ps & E & _ & _ & _ & H).
  assert (ps = [example_first; example_second]) as ->.
  { vm_compute in Ea. injection Ea as <- <-. vm_compute in E. injection E as _ <-. reflexivity. }
  destruct (H example_receiver 8%nat ∅ example_units example_receiver_inv eq_refl eq_refl) as (rst' & E' & Hread).
  - apply (bool_decide_unpack _). vm_compute. exact I.
  - assert (Forall (fun u => pool_has (m_pUnitQueue example_receiver) (unit_id u) /\ unit_id u ∉ pool_taken (m_pUnitQueue example_receiver)) example_units) as Hf
      by (repeat constructor; by apply RcvExample.free_unit_ok).
    intros u Hu. by eapply list.Forall_forall in Hf.
  - assert (again SndPack.example_env (message_of 1000 [1; 2; 3; 4; 5] example_ctrl example_start (0x7FFFFFFF + 0)) example_again) as Hag.
    { eexists 3000, _, SndPack.no_packet. split; [left|vm_compute; reflexivity]. }
    intros u Hu. repeat (apply elem_of_cons in Hu as [->|Hu]); [left|by right|left|by right|by apply not_elem_of_nil in Hu]; cbn [m_Packet]; set_solver.
  - intros p Hp. repeat (apply elem_of_cons in Hp as [->|Hp]); [| |by apply not_elem_of_nil in Hp].
    + exists (mkUnit (O, 2%nat) example_first). split; [do 2 right; left|reflexivity].
    + exists (mkUnit (O, 0%nat) example_second). split; [left|reflexivity].
  - destruct (Hread 100 None ltac:(vm_compute; discriminate)) as (rst'' & ctrl1 & Er & Hseq). exists rst', rst''. split; [exact E'|].
    clear -E' Er Hseq. vm_compute in E'. injection E' as <-. split; [|exact Hseq]. rewrite Er. vm_compute in Er. by injection Er as _ <-.
Defined.
