(* ===== verification/SndUList.v ===== *)
(** [CSndUList] of queue.h and queue.cpp: the sockets that have something to
    send, in a binary heap by the time of their next turn.  A socket and its
    [CSNode] are named by the index of the node among all nodes; the timer and
    the condition variable are the log of the wake-ups.  Every operation runs
    under [m_ListLock]. *)
From S2P Require Import Prelude.

Module CSndUList.
Inductive EReschedule := DONT_RESCHEDULE | DO_RESCHEDULE.

Record CSNode := mkNode { m_tsTimeStamp : Z; m_iHeapLoc : Z }.
#[export] Instance CSNode_inhabited : Inhabited CSNode := populate (mkNode 0 (-1)).

(** [m_pTimer->interrupt()] and [m_ListCond.notify_one()]. *)
Inductive wakeup := Interrupt | Notify.

Record t := mk {
  m_pHeap : list Z;
  m_iArrayLength : Z;
  m_iLastEntry : Z;
  snodes : list CSNode;
  wakeups : list wakeup;
}.

Definition node (st : t) (n : Z) : CSNode := (snodes st).[n].
(** The time of the node at a place of the heap. *)
Definition time_at (st : t) (i : Z) : Z := m_tsTimeStamp (node st (m_pHeap st).[i]).

Definition set_heap (h : list Z) (st : t) : t := mk h (m_iArrayLength st) (m_iLastEntry st) (snodes st) (wakeups st).
Definition set_iLastEntry (l : Z) (st : t) : t := mk (m_pHeap st) (m_iArrayLength st) l (snodes st) (wakeups st).
Definition upd_node (n : Z) (f : CSNode -> CSNode) (st : t) : t :=
  mk (m_pHeap st) (m_iArrayLength st) (m_iLastEntry st) (aupd (snodes st) n f) (wakeups st).
Definition wake (w : wakeup) (st : t) : t :=
  mk (m_pHeap st) (m_iArrayLength st) (m_iLastEntry st) (snodes st) (wakeups st ++ [w]).
Definition set_iHeapLoc (n loc : Z) (st : t) : t := upd_node n (fun x => mkNode (m_tsTimeStamp x) loc) st.
Definition set_tsTimeStamp (n ts : Z) (st : t) : t := upd_node n (fun x => mkNode ts (m_iHeapLoc x)) st.

(** [swap(m_pHeap[p], m_pHeap[q])]. *)
Definition swap (p q : Z) (st : t) : t :=
  let h := m_pHeap st in set_heap ((h.[p <- h.[q]]).[q <- h.[p]]) st.

(** The constructor; the sockets are not on the list, the array's memory is
    not initialised. *)
Definition init (memory : nat -> Z) (sockets : nat) : t :=
  mk (map memory (seq 0 512)) 512 (-1) (replicate sockets (mkNode 0 (-1))) [].

(** [realloc_], where [new] succeeds; [memory] is what it finds in the second
    half. *)
Definition realloc_ (memory : nat -> Z) (st : t) : t :=
  mk (take (Z.to_nat (m_iArrayLength st)) (m_pHeap st) ++ map memory (seq 0 (Z.to_nat (m_iArrayLength st)))) (2 * m_iArrayLength st)
    (m_iLastEntry st) (snodes st) (wakeups st).

(** One iteration of the loop of [insert_norealloc_]; at its head [p] is [q]. *)
Definition up_step (s : t * Z) : (t * Z) + (t * Z) :=
  let '(st, q) := s in
  if q =? 0 then inr (st, q) else
  let p := Z.shiftr (q - 1) 1 in
  if time_at st p <=? time_at st q then inr (st, q) else
  let st := swap p q st in
  inl (set_iHeapLoc (m_pHeap st).[q] q st, p).

Definition fuel (st : t) : nat := S (Z.to_nat (m_iLastEntry st + 1)).

Definition insert_norealloc_ (ts u : Z) (st : t) : option t :=
  if m_iHeapLoc (node st u) >=? 0 then Some st else
  let st := set_iLastEntry (m_iLastEntry st + 1) st in
  let st := set_heap ((m_pHeap st).[m_iLastEntry st <- u]) st in
  let st := set_tsTimeStamp u ts st in
  '(st, q) ← loop (fuel st) up_step (st, m_iLastEntry st);
  let st := set_iHeapLoc u q st in
  let st := if m_iHeapLoc (node st u) =? 0 then wake Interrupt st else st in
  Some (if 0 =? m_iLastEntry st then wake Notify st else st).

(** The memory that [new] gives, or [None] where it throws; the result says
    whether it did not. *)
Definition insert_ (alloc : option (nat -> Z)) (ts u : Z) (st : t) : option (t * bool) :=
  if m_iLastEntry st =? m_iArrayLength st - 1 then
    match alloc with
    | None => Some (st, false)
    | Some memory => st ← insert_norealloc_ ts u (realloc_ memory st); Some (st, true)
    end
  else st ← insert_norealloc_ ts u st; Some (st, true).

(** One iteration of the loop of [remove_]. *)
Definition down_step (s : t * Z) : (t * Z) + (t * Z) :=
  let '(st, q) := s in
  let p := q * 2 + 1 in
  if p <=? m_iLastEntry st then
    let p := if (p + 1 <=? m_iLastEntry st) && (time_at st p >? time_at st (p + 1)) then p + 1 else p in
    if time_at st q >? time_at st p then
      let st := swap p q st in
      inl (set_iHeapLoc (m_pHeap st).[q] q (set_iHeapLoc (m_pHeap st).[p] p st), p)
    else inr (st, q)
  else inr (st, q).

Definition remove_ (u : Z) (st : t) : option t :=
  st ← (if m_iHeapLoc (node st u) >=? 0 then
          let loc := m_iHeapLoc (node st u) in
          let st := set_heap ((m_pHeap st).[loc <- (m_pHeap st).[m_iLastEntry st]]) st in
          let st := set_iLastEntry (m_iLastEntry st - 1) st in
          let st := set_iHeapLoc (m_pHeap st).[loc] loc st in
          '(st, _) ← loop (fuel st) down_step (st, m_iHeapLoc (node st u));
          Some (set_iHeapLoc u (-1) st)
        else Some st);
  Some (if 0 =? m_iLastEntry st then wake Interrupt st else st).

Definition update (alloc : option (nat -> Z)) (u : Z) (reschedule : EReschedule) (ts : Z) (st : t) : option (t * bool) :=
  let n := node st u in
  if m_iHeapLoc n >=? 0 then
    match reschedule with
    | DONT_RESCHEDULE => Some (st, true)
    | DO_RESCHEDULE =>
        if m_tsTimeStamp n <=? ts then Some (st, true)
        else if m_iHeapLoc n =? 0 then Some (wake Interrupt (set_tsTimeStamp u ts st), true)
        else st ← remove_ u st; st ← insert_norealloc_ ts u st; Some (st, true)
    end
  else insert_ alloc ts u st.

(** [pop] at the time [now]: the socket, or [None] for the null pointer. *)
Definition pop (now : Z) (st : t) : option (t * option Z) :=
  if -1 =? m_iLastEntry st then Some (st, None)
  else if time_at st 0 >? now then Some (st, None)
  else let u := (m_pHeap st).[0] in st ← remove_ u st; Some (st, Some u).

Definition remove (u : Z) (st : t) : option t := remove_ u st.

(** 0 stands for the time that is not set. *)
Definition getNextProcTime (st : t) : Z := if -1 =? m_iLastEntry st then 0 else time_at st 0.
End CSndUList.
Import CSndUList.

(** ** Heap order *)

Section Order.
Implicit Types (f : Z -> Z) (q i last : Z).

Definition par i : Z := (i - 1) / 2.

Lemma par_spec i : 2 * par i + 1 <= i <= 2 * par i + 2.
Proof. unfold par. pose proof (Z.div_mod (i - 1) 2 ltac:(lia)). pose proof (Z.mod_pos_bound (i - 1) 2 ltac:(lia)). lia. Qed.

Lemma shiftr_par i : Z.shiftr (i - 1) 1 = par i.
Proof. by rewrite Z.shiftr_div_pow2 by lia. Qed.

Definition ordered f last : Prop := forall i, 1 <= i <= last -> f (par i) <= f i.

(** Ordered but for place [q], which may be too early for its parent. *)
Definition up_ordered f q last : Prop :=
  (forall i, 1 <= i <= last -> i <> q -> f (par i) <= f i) /\
  (0 < q -> forall i, 1 <= i <= last -> par i = q -> f (par q) <= f i).

(** Ordered but for place [q], which may be too late for its children. *)
Definition down_ordered f q last : Prop :=
  (forall i, 1 <= i <= last -> par i <> q -> f (par i) <= f i) /\
  (0 < q -> forall i, 1 <= i <= last -> par i = q -> f (par q) <= f i).

Definition swapped f (p q i : Z) : Z := if i =? p then f q else if i =? q then f p else f i.

Lemma swapped_l f p q : swapped f p q p = f q.
Proof. unfold swapped. by rewrite Z.eqb_refl. Qed.
Lemma swapped_r f p q : swapped f p q q = f p.
Proof. unfold swapped. bdestr. by subst. Qed.
Lemma swapped_other f p q i : i <> p -> i <> q -> swapped f p q i = f i.
Proof. intros. unfold swapped. by rewrite !(proj2 (Z.eqb_neq _ _)). Qed.

Lemma up_swap f q last : up_ordered f q last -> 0 < q <= last -> f q < f (par q) ->
  up_ordered (swapped f (par q) q) (par q) last.
Proof.
  intros [H1 H2] Hq Hlt. pose proof (par_spec q) as Hp. split.
  - intros i Hi Hne. pose proof (par_spec i). destruct (Z.eq_dec i q) as [->|Hiq]; [rewrite swapped_l, swapped_r; lia|].
    rewrite (swapped_other _ _ _ i) by done. pose proof (H1 i Hi Hiq). destruct (Z.eq_dec (par i) q) as [E|].
    + rewrite E, swapped_r. by apply H2; [lia| |].
    + destruct (Z.eq_dec (par i) (par q)) as [E'|]; [rewrite E' in *; rewrite swapped_l; lia|by rewrite swapped_other].
  - intros H0 i Hi E. pose proof (par_spec (par q)). pose proof (H1 (par q) ltac:(lia) ltac:(lia)).
    rewrite (swapped_other _ _ _ (par (par q))) by lia. destruct (Z.eq_dec i q) as [->|Hiq]; [by rewrite swapped_r|].
    pose proof (par_spec i). rewrite swapped_other by lia. pose proof (H1 i Hi Hiq) as Hi'. rewrite E in Hi'. lia.
Qed.

Lemma up_done f q last : up_ordered f q last -> q = 0 \/ f (par q) <= f q -> ordered f last.
Proof. intros [H1 _] Hq i Hi. destruct (Z.eq_dec i q) as [->|]; [destruct Hq; [lia|done]|by apply H1]. Qed.

Lemma down_swap f q p last : down_ordered f q last -> 0 <= q -> 1 <= p <= last -> par p = q -> f p < f q ->
  (forall i, 1 <= i <= last -> par i = q -> f p <= f i) -> down_ordered (swapped f p q) p last.
Proof.
  intros [H1 H2] Hq Hp Epq Hlt Hmin. pose proof (par_spec p). split.
  - intros i Hi Hne. pose proof (par_spec i). destruct (Z.eq_dec i p) as [->|Hip]; [rewrite Epq, swapped_l, swapped_r; lia|].
    destruct (Z.eq_dec i q) as [->|Hiq].
    + rewrite swapped_r, swapped_other by lia. apply (H2 ltac:(lia) p Hp Epq).
    + rewrite (swapped_other _ _ _ i) by done. destruct (Z.eq_dec (par i) q) as [E|Hne2]; [rewrite E, swapped_r; by apply Hmin|].
      rewrite swapped_other by done. by apply H1.
  - intros _ i Hi E. pose proof (par_spec i). rewrite Epq, swapped_r, swapped_other by lia. rewrite <- E. apply H1; [done|lia].
Qed.

Lemma down_done f q last : down_ordered f q last -> (forall i, 1 <= i <= last -> par i = q -> f q <= f i) -> ordered f last.
Proof. intros [H1 _] Hq i Hi. destruct (Z.eq_dec (par i) q) as [E|]; [rewrite E; by apply Hq|by apply H1]. Qed.

Lemma ordered_root f last i : ordered f last -> 0 <= i <= last -> f 0 <= f i.
Proof.
  intros Ho. remember (Z.to_nat i) as n eqn:En. revert i En. induction n as [n IH] using lt_wf_ind. intros i En Hi.
  destruct (Z.eq_dec i 0) as [->|]; [done|]. pose proof (par_spec i).
  etrans; [apply (IH (Z.to_nat (par i)) ltac:(lia) (par i) eq_refl ltac:(lia))|]. apply Ho. lia.
Qed.

Lemma ordered_up f q last : ordered f (last - 1) -> q = last -> up_ordered f q last.
Proof.
  intros Ho ->. split; [intros i Hi Hne; apply Ho; lia|]. intros H0 i Hi E. pose proof (par_spec i). lia.
Qed.
End Order.

(** ** Places of the nodes *)

Definition on_list (st : t) (m : Z) : bool := m_iHeapLoc (node st m) >=? 0.

(** Node [n] is on its way at place [q], and [r] is on its way out of the
    list; all other nodes are where they say. *)
Record places (st : t) (q n r : Z) : Prop := {
  p_len : zlen (m_pHeap st) = m_iArrayLength st;
  p_last : -1 <= m_iLastEntry st < m_iArrayLength st;
  p_node : forall i, 0 <= i <= m_iLastEntry st -> 0 <= (m_pHeap st).[i] < zlen (snodes st);
  p_heap : forall i, 0 <= i <= m_iLastEntry st -> i <> q ->
    m_iHeapLoc (node st (m_pHeap st).[i]) = i /\ (m_pHeap st).[i] <> n /\ (m_pHeap st).[i] <> r;
  p_loc : forall m, 0 <= m < zlen (snodes st) -> m <> n -> m <> r ->
    m_iHeapLoc (node st m) = -1 \/
    0 <= m_iHeapLoc (node st m) <= m_iLastEntry st /\ m_iHeapLoc (node st m) <> q /\ (m_pHeap st).[m_iHeapLoc (node st m)] = m;
  p_q : 0 <= q <= m_iLastEntry st -> (m_pHeap st).[q] = n
}.

(** Every node is where it says. *)
Record wf (st : t) : Prop := {
  w_len : zlen (m_pHeap st) = m_iArrayLength st;
  w_last : -1 <= m_iLastEntry st < m_iArrayLength st;
  w_heap : forall i, 0 <= i <= m_iLastEntry st ->
    0 <= (m_pHeap st).[i] < zlen (snodes st) /\ m_iHeapLoc (node st (m_pHeap st).[i]) = i;
  w_loc : forall m, 0 <= m < zlen (snodes st) -> m_iHeapLoc (node st m) = -1 \/
    0 <= m_iHeapLoc (node st m) <= m_iLastEntry st /\ (m_pHeap st).[m_iHeapLoc (node st m)] = m
}.

(** What the moves in the heap leave alone: everything but the places. *)
Record moved (st st' : t) (n : Z) : Prop := {
  v_len : m_iArrayLength st' = m_iArrayLength st;
  v_last : m_iLastEntry st' = m_iLastEntry st;
  v_nodes : length (snodes st') = length (snodes st);
  v_time : forall m, m_tsTimeStamp (node st' m) = m_tsTimeStamp (node st m);
  v_on : forall m, m <> n -> on_list st' m = on_list st m;
  v_wake : wakeups st' = wakeups st
}.

Lemma moved_refl st n : moved st st n.
Proof. by split. Qed.
Lemma moved_trans st1 st2 st3 n : moved st1 st2 n -> moved st2 st3 n -> moved st1 st3 n.
Proof.
  intros [] []. split; try congruence. intros m Hm. rewrite v_on1, v_on0 by done. done.
Qed.

Lemma node_upd st n f m : 0 <= n < zlen (snodes st) -> node (upd_node n f st) m = if m =? n then f (node st n) else node st m.
Proof.
  intros Hn. unfold node, upd_node. cbn [snodes]. destruct (Z.eqb_spec m n) as [->|]; [by rewrite aget_aupd_eq|by rewrite aget_aupd_ne].
Qed.

Lemma node_loc st n x m : 0 <= n < zlen (snodes st) ->
  m_iHeapLoc (node (set_iHeapLoc n x st) m) = (if m =? n then x else m_iHeapLoc (node st m)) /\
  m_tsTimeStamp (node (set_iHeapLoc n x st) m) = m_tsTimeStamp (node st m).
Proof. intros Hn. unfold set_iHeapLoc. rewrite node_upd by done. by destruct (Z.eqb_spec m n) as [->|]. Qed.

Lemma moved_set_loc st n x : 0 <= n < zlen (snodes st) -> moved st (set_iHeapLoc n x st) n.
Proof.
  intros Hn. split; try done.
  - cbn. by rewrite length_aupd.
  - intros m. by apply node_loc.
  - intros m Hm. unfold on_list. rewrite (proj1 (node_loc st n x m Hn)). by rewrite (proj2 (Z.eqb_neq _ _)).
Qed.

Lemma places_set_loc st q n r x : places st q n r -> 0 <= q <= m_iLastEntry st -> places (set_iHeapLoc n x st) q n r.
Proof.
  intros [Hl Hla Hn Hh Hlo Hq] Hqr. specialize (Hq Hqr). pose proof (Hn q Hqr) as Hnr. rewrite Hq in Hnr.
  assert (Hx : forall m, m <> n -> m_iHeapLoc (node (set_iHeapLoc n x st) m) = m_iHeapLoc (node st m)).
  { intros m Hm. rewrite (proj1 (node_loc st n x m Hnr)). by rewrite (proj2 (Z.eqb_neq _ _)). }
  split; cbn [m_pHeap m_iArrayLength m_iLastEntry snodes set_iHeapLoc upd_node]; rewrite ?length_aupd; try done.
  - intros i Hi Hne. destruct (Hh i Hi Hne) as (H1 & H2 & H3). by rewrite Hx.
  - intros m Hm H1 H2. rewrite Hx by done. by apply Hlo.
Qed.

(** Node [n] changes places with its parent or child. *)
Lemma places_swap st q n r p : places st q n r -> 0 <= q <= m_iLastEntry st -> 0 <= p <= m_iLastEntry st -> p <> q ->
  let st' := set_iHeapLoc (m_pHeap st).[p] q (swap p q st) in
  places st' p n r /\ moved st st' n /\ forall i, time_at st' i = swapped (time_at st) p q i.
Proof.
  intros [Hl Hla Hn Hh Hlo Hqn] Hq Hp Hpq st'. specialize (Hqn Hq). destruct (Hh p Hp Hpq) as (Hp1 & Hp2 & Hp3).
  set (k := (m_pHeap st).[p]) in *. assert (Hk : 0 <= k < zlen (snodes st)) by apply (Hn p Hp).
  assert (Hheap : forall i, (m_pHeap st').[i] = if i =? p then n else if i =? q then k else (m_pHeap st).[i]).
  { intros i. unfold st', swap. cbn [m_pHeap set_iHeapLoc upd_node set_heap]. fold k. rewrite Hqn.
    destruct (Z.eqb_spec i p) as [->|]; [by arr|]. destruct (Z.eqb_spec i q) as [->|]; by arr. }
  assert (Hlen : length (m_pHeap st') = length (m_pHeap st)) by (unfold st', swap; cbn; by rewrite !length_aset).
  assert (Hlenn : length (snodes st') = length (snodes st)) by (unfold st'; cbn; by rewrite length_aupd).
  assert (Hloc : forall m, m_iHeapLoc (node st' m) = if m =? k then q else m_iHeapLoc (node st m)) by (intros m; apply (node_loc (swap p q st) k q m Hk)).
  assert (Hts : forall m, m_tsTimeStamp (node st' m) = m_tsTimeStamp (node st m)) by (intros m; apply (node_loc (swap p q st) k q m Hk)).
  split; [|split].
  - split; cbn [m_iArrayLength m_iLastEntry st' set_iHeapLoc upd_node swap set_heap]; rewrite ?Hlen, ?Hlenn; try done.
    + intros i Hi. rewrite Hheap. destruct (i =? p); [rewrite <- Hqn; by apply Hn|]. destruct (i =? q); [done|by apply Hn].
    + intros i Hi Hne. rewrite Hheap, (proj2 (Z.eqb_neq _ _) Hne). destruct (Z.eqb_spec i q) as [->|Hiq].
      * by rewrite Hloc, Z.eqb_refl.
      * destruct (Hh i Hi Hiq) as (H1 & H2 & H3). rewrite Hloc. destruct (Z.eqb_spec (m_pHeap st).[i] k) as [E|]; [|done].
        rewrite E in H1. congruence.
    + intros m Hm H1 H2. rewrite Hloc. destruct (Z.eqb_spec m k) as [->|Hmk].
      * right. split; [done|]. split; [done|]. rewrite Hheap. rewrite (proj2 (Z.eqb_neq q p)) by done. by rewrite Z.eqb_refl.
      * destruct (Hlo m Hm H1 H2) as [?|(H3 & H4 & H5)]; [by left|right]. split; [done|].
        assert (m_iHeapLoc (node st m) <> p) by (intros E; rewrite E in H5; by apply Hmk).
        split; [done|]. by rewrite Hheap, !(proj2 (Z.eqb_neq _ _)).
    + intros _. by rewrite Hheap, Z.eqb_refl.
  - split; try done. intros m Hm. unfold on_list. rewrite Hloc. destruct (Z.eqb_spec m k) as [->|]; [|done]. rewrite Hp1.
    rewrite !Z.geb_leb, !(proj2 (Z.leb_le 0 _)) by lia. done.
  - intros i. unfold time_at, swapped. rewrite Hts, Hheap, Hqn. destruct (i =? p); [done|]. by destruct (i =? q).
Qed.

Lemma time_at_set_loc st n x i : 0 <= n < zlen (snodes st) -> time_at (set_iHeapLoc n x st) i = time_at st i.
Proof. intros Hn. unfold time_at. apply (node_loc st n x _ Hn). Qed.

(** The moving node has found its place; the other one, if any, is off the
    list. *)
Lemma places_wf st q n r : places st q n r -> 0 <= r < zlen (snodes st) -> 0 <= n < zlen (snodes st) ->
  (0 <= q <= m_iLastEntry st /\ n <> r /\ m_iHeapLoc (node st n) = q) \/ (m_iLastEntry st < q /\ n = r) ->
  wf (set_iHeapLoc r (-1) st).
Proof.
  intros [Hl Hla Hn Hh Hlo Hq] Hr Hnr Hcase.
  assert (Hloc : forall m, m_iHeapLoc (node (set_iHeapLoc r (-1) st) m) = if m =? r then -1 else m_iHeapLoc (node st m)) by (intros m; by apply node_loc).
  split; cbn [m_pHeap m_iArrayLength m_iLastEntry snodes set_iHeapLoc upd_node]; rewrite ?length_aupd; try done.
  - intros i Hi. split; [by apply Hn|]. rewrite Hloc. destruct (Z.eq_dec i q) as [->|Hne].
    + destruct Hcase as [(_ & Hnr' & E)|[? _]]; [|lia]. rewrite Hq, (proj2 (Z.eqb_neq _ _)) by done. done.
    + destruct (Hh i Hi Hne) as (H1 & _ & H3). by rewrite (proj2 (Z.eqb_neq _ _)).
  - intros m Hm. rewrite Hloc. destruct (Z.eqb_spec m r) as [->|Hmr]; [by left|]. destruct (Z.eq_dec m n) as [->|Hmn].
    + destruct Hcase as [(Hqr & _ & E)|[_ E]]; [|done]. right. rewrite E. split; [done|]. by apply Hq.
    + destruct (Hlo m Hm Hmn Hmr) as [?|(? & _ & ?)]; [by left|by right].
Qed.

Lemma places_landed st q n : places st q n n -> 0 <= n < zlen (snodes st) -> 0 <= q <= m_iLastEntry st -> wf (set_iHeapLoc n q st).
Proof.
  intros [Hl Hla Hn Hh Hlo Hq] Hnr Hqr.
  assert (Hloc : forall m, m_iHeapLoc (node (set_iHeapLoc n q st) m) = if m =? n then q else m_iHeapLoc (node st m)) by (intros m; by apply node_loc).
  split; cbn [m_pHeap m_iArrayLength m_iLastEntry snodes set_iHeapLoc upd_node]; rewrite ?length_aupd; try done.
  - intros i Hi. split; [by apply Hn|]. rewrite Hloc. destruct (Z.eq_dec i q) as [->|Hne].
    + by rewrite Hq, Z.eqb_refl.
    + destruct (Hh i Hi Hne) as (H1 & H2 & _). by rewrite (proj2 (Z.eqb_neq _ _)).
  - intros m Hm. rewrite Hloc. destruct (Z.eqb_spec m n) as [->|Hmn]; [right; split; [done|by apply Hq]|].
    destruct (Hlo m Hm Hmn Hmn) as [?|(? & _ & ?)]; [by left|by right].
Qed.

(** ** The way up *)

Lemma up_loop st n : 0 <= n < zlen (snodes st) -> forall k s q, places s q n n -> moved st s n -> 0 <= q <= m_iLastEntry s ->
  (Z.to_nat q < k)%nat ->
  exists s' q', loop k up_step (s, q) = Some (s', q') /\ places s' q' n n /\ moved st s' n /\ 0 <= q' <= m_iLastEntry s' /\
    (up_ordered (time_at s) q (m_iLastEntry s) -> ordered (time_at s') (m_iLastEntry s')).
Proof.
  intros Hn. induction k as [|k IH]; intros s q Hp Hm Hq Hf; [lia|]. cbn [loop]. unfold up_step at 1. rewrite shiftr_par.
  destruct (Z.eqb_spec q 0) as [->|Hq0].
  { exists s, 0. do 4 (split; [done|]). intros Ho. apply (up_done _ _ _ Ho); by left. }
  pose proof (par_spec q). destruct (Z.leb_spec (time_at s (par q)) (time_at s q)) as [Hle|Hlt].
  { exists s, q. do 4 (split; [done|]). intros Ho. apply (up_done _ _ _ Ho); by right. }
  destruct (places_swap s q n n (par q) Hp Hq ltac:(lia) ltac:(lia)) as (Hp1 & Hm1 & Ht1).
  assert (Eq : (m_pHeap (swap (par q) q s)).[q] = (m_pHeap s).[par q]).
  { pose proof (p_len _ _ _ _ Hp). pose proof (p_last _ _ _ _ Hp). unfold swap. cbn [m_pHeap set_heap]. by arr. }
  rewrite Eq. set (s1 := set_iHeapLoc _ q _) in *. pose proof (v_last _ _ _ Hm1) as Hlast.
  destruct (IH s1 (par q) Hp1 (moved_trans _ _ _ _ Hm Hm1)) as (s' & q' & E & Hp' & Hm' & Hq' & Ho'); [rewrite Hlast; lia|lia|].
  exists s', q'. do 4 (split; [done|]). intros Ho. apply Ho'. rewrite Hlast. apply (up_swap _ _ _ Ho) in Hlt; [|lia].
  destruct Hlt as [H1 H2]. split; intros; rewrite !Ht1; auto.
Qed.

(** When a socket is to send next, if it is on the list. *)
Definition due (st : t) (m : Z) : option Z := if on_list st m then Some (m_tsTimeStamp (node st m)) else None.
Definition heap_ordered (st : t) : Prop := ordered (time_at st) (m_iLastEntry st).

Lemma due_moved st st' n m : moved st st' n -> m <> n -> due st' m = due st m.
Proof. intros [] Hm. unfold due. by rewrite v_on0, v_time0. Qed.

Lemma wf_off st m : wf st -> 0 <= m < zlen (snodes st) -> on_list st m = false -> m_iHeapLoc (node st m) = -1.
Proof. intros Hw Hm Ho. unfold on_list in Ho. rewrite Z.geb_leb in Ho. apply Z.leb_gt in Ho. destruct (w_loc _ Hw m Hm); lia. Qed.

Lemma wf_on st m : wf st -> 0 <= m < zlen (snodes st) -> on_list st m = true ->
  0 <= m_iHeapLoc (node st m) <= m_iLastEntry st /\ (m_pHeap st).[m_iHeapLoc (node st m)] = m.
Proof. intros Hw Hm Ho. unfold on_list in Ho. rewrite Z.geb_leb in Ho. apply Z.leb_le in Ho. destruct (w_loc _ Hw m Hm); [lia|done]. Qed.

(** The new node at the end of the array. *)
Definition appended (ts u : Z) (st : t) : t :=
  let st := set_iLastEntry (m_iLastEntry st + 1) st in
  let st := set_heap ((m_pHeap st).[m_iLastEntry st <- u]) st in
  set_tsTimeStamp u ts st.

Lemma appended_ok ts u st : wf st -> 0 <= u < zlen (snodes st) -> on_list st u = false -> m_iLastEntry st < m_iArrayLength st - 1 ->
  let st1 := appended ts u st in
  places st1 (m_iLastEntry st1) u u /\ m_iLastEntry st1 = m_iLastEntry st + 1 /\
  (heap_ordered st -> up_ordered (time_at st1) (m_iLastEntry st1) (m_iLastEntry st1)) /\
  (forall m, node st1 m = if m =? u then mkNode ts (m_iHeapLoc (node st u)) else node st m) /\
  length (snodes st1) = length (snodes st).
Proof.
  intros Hw Hu Hoff Hroom st1. pose proof (w_last _ Hw). pose proof (w_len _ Hw). set (l := m_iLastEntry st) in *.
  assert (Hn : forall m, node st1 m = if m =? u then mkNode ts (m_iHeapLoc (node st u)) else node st m).
  { intros m. unfold st1, appended, set_tsTimeStamp. by rewrite node_upd. }
  assert (Hlen : length (snodes st1) = length (snodes st)) by (unfold st1; cbn; by rewrite length_aupd).
  assert (Hh : forall i, 0 <= i <= l + 1 -> (m_pHeap st1).[i] = if i =? l + 1 then u else (m_pHeap st).[i]).
  { intros i Hi. unfold st1, appended. cbn [m_pHeap set_tsTimeStamp upd_node set_heap m_iLastEntry set_iLastEntry]. fold l.
    destruct (Z.eqb_spec i (l + 1)) as [->|]; by arr. }
  assert (Hold : forall i, 0 <= i <= l -> (m_pHeap st).[i] <> u).
  { intros i Hi E. destruct (w_heap _ Hw i Hi) as [_ Hl]. rewrite E in Hl. rewrite (wf_off _ _ Hw Hu Hoff) in Hl. lia. }
  split; [split|split; [done|split; [|done]]]; cbn [m_iArrayLength m_iLastEntry st1 appended set_tsTimeStamp upd_node set_heap set_iLastEntry]; fold l.
  - cbn. by rewrite length_aset.
  - lia.
  - intros i Hi. rewrite Hh, Hlen by lia. destruct (Z.eqb_spec i (l + 1)); [done|]. apply (w_heap _ Hw). lia.
  - intros i Hi Hne. rewrite Hh, Hn, (proj2 (Z.eqb_neq i _)) by lia. destruct (w_heap _ Hw i ltac:(lia)) as [_ Hl].
    rewrite (proj2 (Z.eqb_neq _ u)) by (apply Hold; lia). split; [done|]. split; apply Hold; lia.
  - intros m Hm Hmu _. rewrite Hlen in Hm. rewrite Hn, (proj2 (Z.eqb_neq m u)) by done. destruct (w_loc _ Hw m Hm) as [?|[H1 H2]]; [by left|right].
    split; [lia|]. split; [lia|]. rewrite Hh, (proj2 (Z.eqb_neq _ _)) by lia. done.
  - intros _. by rewrite Hh, Z.eqb_refl by lia.
  - intros Ho. apply ordered_up; [|done]. replace (l + 1 - 1) with l by lia. intros i Hi. pose proof (par_spec i).
    unfold time_at. rewrite !Hn, !Hh, !(proj2 (Z.eqb_neq _ (l + 1))), !(proj2 (Z.eqb_neq _ u)) by (lia || (apply Hold; lia)). by apply Ho.
Qed.

(** [st'] has the list of [st], and more wake-ups. *)
Record same_list (st st' : t) (ws : list wakeup) : Prop := {
  l_heap : m_pHeap st' = m_pHeap st;
  l_len : m_iArrayLength st' = m_iArrayLength st;
  l_last : m_iLastEntry st' = m_iLastEntry st;
  l_nodes : snodes st' = snodes st;
  l_wake : wakeups st' = wakeups st ++ ws
}.

Lemma wake_if (b : bool) w st : same_list st (if b then wake w st else st) (if b then [w] else []).
Proof. destruct b; split; try done. cbn. by rewrite app_nil_r. Qed.

Lemma same_list_trans st1 st2 st3 w1 w2 : same_list st1 st2 w1 -> same_list st2 st3 w2 -> same_list st1 st3 (w1 ++ w2).
Proof. intros [] []. split; try congruence. rewrite l_wake1, l_wake0. by rewrite (assoc (++)). Qed.

Lemma same_list_facts st st' ws : same_list st st' ws -> (wf st -> wf st') /\ (forall m, due st' m = due st m) /\
  (heap_ordered st -> heap_ordered st') /\ forall m, node st' m = node st m.
Proof.
  intros [E1 E2 E3 E4 _]. assert (Hn : forall m, node st' m = node st m) by (intros m; unfold node; by rewrite E4).
  split; [|split; [|split; [|done]]].
  - intros []. split; rewrite ?E1, ?E2, ?E3, ?E4; try done; intros; rewrite Hn; auto.
  - intros m. unfold due, on_list. by rewrite Hn.
  - intros Ho i Hi. rewrite E3 in Hi. unfold time_at. rewrite !Hn, E1. by apply Ho.
Qed.

(** Socket [u] has joined the list. *)
Record joined (st : t) (ts u : Z) (st' : t) : Prop := {
  j_wf : wf st';
  j_due : forall m, due st' m = if m =? u then Some ts else due st m;
  j_last : m_iLastEntry st' = m_iLastEntry st + 1;
  j_nodes : length (snodes st') = length (snodes st);
  j_order : heap_ordered st -> heap_ordered st';
  j_wake : wakeups st' = wakeups st ++ (if (m_pHeap st').[0] =? u then [Interrupt] else []) ++
    (if m_iLastEntry st =? -1 then [Notify] else [])
}.

Lemma joined_ext st ts u s s' : wf s -> (forall m, due s m = if m =? u then Some ts else due st m) ->
  m_iLastEntry s = m_iLastEntry st + 1 -> length (snodes s) = length (snodes st) -> (heap_ordered st -> heap_ordered s) ->
  wakeups s = wakeups st ->
  same_list s s' ((if (m_pHeap s).[0] =? u then [Interrupt] else []) ++ (if m_iLastEntry st =? -1 then [Notify] else [])) ->
  joined st ts u s'.
Proof.
  intros Hw Hd Hl Hn Ho Hk Hs. pose proof (same_list_facts _ _ _ Hs) as (F1 & F2 & F3 & _). destruct Hs as [E1 _ E3 E4 E5].
  split; try auto; try congruence.
  - intros m. by rewrite F2.
  - by rewrite E5, Hk, E1.
Qed.

Lemma insert_norealloc_ok ts u st : wf st -> 0 <= u < zlen (snodes st) -> on_list st u = false -> m_iLastEntry st < m_iArrayLength st - 1 ->
  exists st', insert_norealloc_ ts u st = Some st' /\ joined st ts u st' /\ m_iArrayLength st' = m_iArrayLength st.
Proof.
  intros Hw Hu Hoff Hroom. destruct (appended_ok ts u st Hw Hu Hoff Hroom) as (Hp & Hl & Ho & Hn & Hlen).
  unfold insert_norealloc_. pose proof Hoff as Hoff'. unfold on_list in Hoff'. rewrite Hoff'. fold (appended ts u st). set (st1 := appended ts u st) in *.
  pose proof (w_last _ Hw). assert (Hu1 : 0 <= u < zlen (snodes st1)) by (rewrite Hlen; done).
  destruct (up_loop st1 u Hu1 (fuel st1) st1 (m_iLastEntry st1) Hp (moved_refl _ _)) as (s & q & E & Hps & Hm & Hq & Ho'); [lia|unfold fuel; lia|].
  match goal with |- context [loop (fuel ?x)] => change x with st1 end.
  rewrite E. cbn [mbind option_bind]. clear E.
  pose proof (v_nodes _ _ _ Hm) as Hmn. assert (Hus : 0 <= u < zlen (snodes s)) by (rewrite Hmn; done).
  pose proof (places_landed s q u Hps Hus Hq) as Hw'. set (s1 := set_iHeapLoc u q s) in *.
  assert (Hloc : m_iHeapLoc (node s1 u) = q) by (unfold s1; rewrite (proj1 (node_loc s u q u Hus)); by rewrite Z.eqb_refl).
  assert (Hmv : moved st1 s1 u) by (eapply moved_trans; [exact Hm|by apply moved_set_loc]).
  rewrite Hloc. eexists. split; [reflexivity|].
  pose proof (same_list_trans _ _ _ _ _ (wake_if (q =? 0) Interrupt s1) (wake_if (0 =? m_iLastEntry (if q =? 0 then wake Interrupt s1 else s1)) Notify _)) as Hs.
  assert (Hl1 : m_iLastEntry s1 = m_iLastEntry st + 1) by (rewrite (v_last _ _ _ Hmv); exact Hl).
  split; [|rewrite (l_len _ _ _ Hs), (v_len _ _ _ Hmv); done].
  apply (joined_ext st ts u s1).
  - done.
  - intros m. destruct (Z.eqb_spec m u) as [->|Hmu].
    + unfold due, on_list. rewrite Hloc, Z.geb_leb, (proj2 (Z.leb_le 0 q)) by lia. f_equal. rewrite (v_time _ _ _ Hmv), Hn, Z.eqb_refl. done.
    + rewrite (due_moved _ _ _ _ Hmv Hmu). unfold due, on_list. rewrite Hn. by rewrite (proj2 (Z.eqb_neq _ _)).
  - done.
  - rewrite (v_nodes _ _ _ Hmv). exact Hlen.
  - intros H0 i Hi. unfold s1. rewrite !time_at_set_loc by done. apply (Ho' (Ho H0)). rewrite (v_last _ _ _ Hm). rewrite (v_last _ _ _ Hmv) in Hi. exact Hi.
  - rewrite (v_wake _ _ _ Hmv). done.
  - replace (if (m_pHeap s1).[0] =? u then [Interrupt] else []) with (if q =? 0 then [Interrupt] else []).
    + replace (if m_iLastEntry st =? -1 then [Notify] else []) with (if 0 =? m_iLastEntry (if q =? 0 then wake Interrupt s1 else s1) then [Notify] else []); [exact Hs|].
      rewrite (l_last _ _ _ (wake_if _ _ _)), Hl1. destruct (Z.eqb_spec (m_iLastEntry st) (-1)), (Z.eqb_spec 0 (m_iLastEntry st + 1)); done || lia.
    + destruct (Z.eqb_spec q 0) as [->|Hq0].
      * assert ((m_pHeap s1).[0] = u) as -> by (apply (p_q _ _ _ _ Hps); lia). by rewrite Z.eqb_refl.
      * rewrite (proj2 (Z.eqb_neq _ u)); [done|]. intros E. destruct (w_heap _ Hw' 0 ltac:(lia)) as [_ H0]. rewrite E, Hloc in H0. done.
Qed.

(** ** The way down *)

(** The child with the earlier time. *)
Definition min_child (st : t) (q : Z) : Z :=
  let p := q * 2 + 1 in if (p + 1 <=? m_iLastEntry st) && (time_at st p >? time_at st (p + 1)) then p + 1 else p.

Lemma min_child_ok st q : 0 <= q -> q * 2 + 1 <= m_iLastEntry st ->
  let p := min_child st q in 1 <= p <= m_iLastEntry st /\ par p = q /\ q < p /\
  forall i, 1 <= i <= m_iLastEntry st -> par i = q -> time_at st p <= time_at st i.
Proof.
  intros Hq Hl p. pose proof (par_spec p). assert (Hp : (p = q * 2 + 1 \/ p = q * 2 + 2 /\ p <= m_iLastEntry st /\ time_at st p <= time_at st (q * 2 + 1)) /\
    (p = q * 2 + 1 -> q * 2 + 2 <= m_iLastEntry st -> time_at st p <= time_at st (q * 2 + 2))).
  { unfold p, min_child. replace (q * 2 + 1 + 1) with (q * 2 + 2) by lia. bdestr; split; try lia; intros; lia. }
  destruct Hp as [Hp Hp2]. split; [lia|]. split; [lia|]. split; [lia|]. intros i Hi E. pose proof (par_spec i).
  assert (i = q * 2 + 1 \/ i = q * 2 + 2) as [->| ->] by lia.
  - destruct Hp as [->|(_ & _ & Hle)]; [done|exact Hle].
  - destruct Hp as [Hp|(-> & _)]; [apply Hp2; lia|done].
Qed.

Lemma down_loop st n r : 0 <= n < zlen (snodes st) -> forall k s q, places s q n r -> moved st s n -> 0 <= q <= m_iLastEntry s ->
  m_iHeapLoc (node s n) = q -> (Z.to_nat (m_iLastEntry s - q) < k)%nat ->
  exists s' q', loop k down_step (s, q) = Some (s', q') /\ places s' q' n r /\ moved st s' n /\ 0 <= q' <= m_iLastEntry s' /\
    m_iHeapLoc (node s' n) = q' /\ (down_ordered (time_at s) q (m_iLastEntry s) -> ordered (time_at s') (m_iLastEntry s')).
Proof.
  intros Hn. induction k as [|k IH]; intros s q Hp Hm Hq Hloc Hf; [lia|]. cbn [loop]. unfold down_step at 1.
  destruct (Z.leb_spec (q * 2 + 1) (m_iLastEntry s)) as [Hle|Hgt].
  2: { exists s, q. do 5 (split; [done|]). intros Ho. apply (down_done _ _ _ Ho). intros i Hi E. pose proof (par_spec i). lia. }
  fold (min_child s q). destruct (min_child_ok s q ltac:(lia) Hle) as (Hp1 & Hpar & Hqp & Hmin). set (p := min_child s q) in *.
  destruct (Z.gtb_spec (time_at s q) (time_at s p)) as [Hlt|Hge].
  2: { exists s, q. do 5 (split; [done|]). intros Ho. apply (down_done _ _ _ Ho). intros i Hi E. specialize (Hmin i Hi E). lia. }
  pose proof (p_len _ _ _ _ Hp) as Hlen. pose proof (p_last _ _ _ _ Hp) as Hlast. pose proof (p_q _ _ _ _ Hp Hq) as Hqn.
  assert (Hns : 0 <= n < zlen (snodes s)) by (rewrite (v_nodes _ _ _ Hm); done).
  assert (E1 : (m_pHeap (swap p q s)).[p] = n) by (unfold swap; cbn [m_pHeap set_heap]; by arr).
  rewrite E1. assert (E2 : (m_pHeap (swap p q s)).[q] = (m_pHeap s).[p]) by (unfold swap; cbn [m_pHeap set_heap]; by arr).
  rewrite E2.
  set (s0 := set_iHeapLoc n p s). change (set_iHeapLoc n p (swap p q s)) with (swap p q s0). change (m_pHeap s) with (m_pHeap s0).
  pose proof (places_set_loc s q n r p Hp Hq) as Hp0. fold s0 in Hp0.
  destruct (places_swap s0 q n r p Hp0 Hq ltac:(cbn; lia) ltac:(lia)) as (Hps & Hms & Hts). set (s1 := set_iHeapLoc _ q _) in *.
  assert (Hm1 : moved st s1 n) by (eapply moved_trans; [exact Hm|eapply moved_trans; [by apply moved_set_loc|exact Hms]]).
  assert (Hl1 : m_iLastEntry s1 = m_iLastEntry s) by exact (v_last _ _ _ Hms).
  assert (Hloc1 : m_iHeapLoc (node s1 n) = p).
  { destruct (p_heap _ _ _ _ Hp0 p ltac:(cbn; lia) ltac:(lia)) as (_ & Hne & _).
    unfold s1. rewrite (proj1 (node_loc (swap p q s0) _ q n (p_node _ _ _ _ Hp0 p ltac:(cbn; lia)))), (proj2 (Z.eqb_neq _ _)) by done.
    change (node (swap p q s0) n) with (node s0 n). unfold s0. rewrite (proj1 (node_loc s n p n Hns)). by rewrite Z.eqb_refl. }
  destruct (IH s1 p Hps Hm1 ltac:(rewrite Hl1; lia) Hloc1 ltac:(lia)) as (s' & q' & E' & Hp' & Hm' & Hq' & Hloc' & Ho').
  exists s', q'. do 5 (split; [done|]). intros Ho. apply Ho'. rewrite Hl1.
  pose proof (down_swap _ q p _ Ho ltac:(lia) Hp1 Hpar Hlt Hmin) as [D1 D2].
  assert (Ht : forall i, time_at s1 i = swapped (time_at s) p q i).
  { intros i. rewrite Hts. unfold swapped. unfold s0. by rewrite !time_at_set_loc. }
  split; intros; rewrite !Ht; auto.
Qed.

(** Socket [u] has left the list. *)
Record departed (st : t) (u : Z) (st' : t) : Prop := {
  d_wf : wf st';
  d_due : forall m, due st' m = if m =? u then None else due st m;
  d_last : m_iLastEntry st' = m_iLastEntry st - 1;
  d_len : m_iArrayLength st' = m_iArrayLength st;
  d_nodes : length (snodes st') = length (snodes st);
  d_wake : wakeups st' = wakeups st ++ (if m_iLastEntry st =? 1 then [Interrupt] else [])
}.

(** The last entry in the place of the removed one. *)
Definition replaced (u : Z) (st : t) : t :=
  let loc := m_iHeapLoc (node st u) in
  let st := set_heap ((m_pHeap st).[loc <- (m_pHeap st).[m_iLastEntry st]]) st in
  let st := set_iLastEntry (m_iLastEntry st - 1) st in
  set_iHeapLoc (m_pHeap st).[loc] loc st.

Lemma replaced_ok u st : wf st -> 0 <= u < zlen (snodes st) -> on_list st u = true ->
  let loc := m_iHeapLoc (node st u) in
  let n := (m_pHeap st).[m_iLastEntry st] in
  let st1 := replaced u st in
  places st1 loc n u /\ m_iHeapLoc (node st1 n) = loc /\ m_iHeapLoc (node st1 u) = loc /\ m_iLastEntry st1 = m_iLastEntry st - 1 /\
  0 <= n < zlen (snodes st) /\ (n = u <-> loc = m_iLastEntry st) /\ 0 <= loc <= m_iLastEntry st /\
  (forall m, m_tsTimeStamp (node st1 m) = m_tsTimeStamp (node st m)) /\ (forall m, on_list st1 m = on_list st m) /\
  length (snodes st1) = length (snodes st) /\
  (forall i, 0 <= i < m_iLastEntry st -> time_at st1 i = if i =? loc then time_at st (m_iLastEntry st) else time_at st i).
Proof.
  intros Hw Hu Hon loc n st1. pose proof (w_last _ Hw). pose proof (w_len _ Hw) as Hlen. set (l := m_iLastEntry st) in *.
  destruct (wf_on _ _ Hw Hu Hon) as [Hloc Hhu]. fold loc l in Hloc, Hhu. destruct (w_heap _ Hw l ltac:(lia)) as [Hn Hnl]. fold n in Hn, Hnl.
  assert (Hnu : n = u <-> loc = l) by (split; [intros E; rewrite E in Hnl; exact Hnl|intros E; unfold n; by rewrite <- E]).
  assert (Hh : forall i, (m_pHeap st1).[i] = if i =? loc then n else (m_pHeap st).[i]).
  { intros i. unfold st1, replaced. cbn [m_pHeap set_iHeapLoc upd_node set_heap m_iLastEntry set_iLastEntry]. fold loc l n.
    destruct (Z.eqb_spec i loc) as [->|]; by arr. }
  assert (Hheap : (m_pHeap st).[loc <- n].[loc] = n) by (by arr).
  assert (Hnode : forall m, m_iHeapLoc (node st1 m) = (if m =? n then loc else m_iHeapLoc (node st m)) /\ m_tsTimeStamp (node st1 m) = m_tsTimeStamp (node st m)).
  { intros m. unfold st1, replaced. cbn [m_pHeap set_heap set_iLastEntry m_iLastEntry]. fold loc l n. rewrite Hheap.
    exact (node_loc (set_iLastEntry (l - 1) (set_heap (m_pHeap st).[loc <- n] st)) n loc m Hn). }
  assert (Hlenn : length (snodes st1) = length (snodes st)) by (unfold st1; cbn; by rewrite length_aupd).
  split; [|split; [by rewrite (proj1 (Hnode n)), Z.eqb_refl|split; [|split; [done|split; [done|split; [done|split; [done|split; [apply Hnode|split; [|split; [done|]]]]]]]]]].
  - split; cbn [m_iArrayLength m_iLastEntry st1 replaced set_iHeapLoc upd_node set_heap set_iLastEntry]; fold l; rewrite ?Hlenn.
    + cbn. by rewrite length_aset.
    + lia.
    + intros i Hi. rewrite Hh. destruct (i =? loc); [done|]. apply (w_heap _ Hw). lia.
    + intros i Hi Hne. rewrite Hh, (proj2 (Z.eqb_neq _ _) Hne). destruct (w_heap _ Hw i ltac:(lia)) as [_ Hi'].
      assert (Hin : (m_pHeap st).[i] <> n) by (intros E; rewrite E, Hnl in Hi'; lia).
      rewrite (proj1 (Hnode _)), (proj2 (Z.eqb_neq _ _) Hin). split; [done|]. split; [done|]. intros E. rewrite E in Hi'. by apply Hne.
    + intros m Hm Hmn Hmu. rewrite (proj1 (Hnode m)), (proj2 (Z.eqb_neq _ _) Hmn). destruct (w_loc _ Hw m Hm) as [?|[H1 H2]]; [by left|right].
      assert (m_iHeapLoc (node st m) <> l) by (intros E; rewrite E in H2; by apply Hmn).
      assert (m_iHeapLoc (node st m) <> loc) by (intros E; rewrite E in H2; congruence).
      split; [lia|]. split; [done|]. by rewrite Hh, (proj2 (Z.eqb_neq _ _)).
    + intros _. by rewrite Hh, Z.eqb_refl.
  - rewrite (proj1 (Hnode u)). by destruct (u =? n).
  - intros m. unfold on_list. rewrite (proj1 (Hnode m)). destruct (Z.eqb_spec m n) as [->|]; [|done]. rewrite Hnl, !Z.geb_leb, !(proj2 (Z.leb_le _ _)) by lia. done.
  - intros i Hi. unfold time_at. rewrite (proj2 (Hnode _)), Hh. by destruct (i =? loc).
Qed.

(** Removal of a socket keeps the order when the last entry is not earlier than
    the parent of the removed one. *)
Definition last_fits (st : t) (u : Z) : Prop :=
  let loc := m_iHeapLoc (node st u) in loc = 0 \/ time_at st (par loc) <= time_at st (m_iLastEntry st).

Lemma replaced_order u st : wf st -> 0 <= u < zlen (snodes st) -> on_list st u = true -> heap_ordered st -> last_fits st u ->
  down_ordered (time_at (replaced u st)) (m_iHeapLoc (node st u)) (m_iLastEntry st - 1).
Proof.
  intros Hw Hu Hon Ho Hf. destruct (replaced_ok u st Hw Hu Hon) as (_ & _ & _ & _ & _ & _ & Hloc & _ & _ & _ & Ht).
  unfold last_fits in Hf. set (loc := m_iHeapLoc (node st u)) in *. split.
  - intros i Hi Hne. pose proof (par_spec i). rewrite !Ht by lia. rewrite (proj2 (Z.eqb_neq (par i) loc)) by done.
    destruct (Z.eqb_spec i loc) as [->|]; [destruct Hf; [lia|done]|apply Ho; lia].
  - intros H0 i Hi E. pose proof (par_spec i). pose proof (par_spec loc). rewrite !Ht by lia. rewrite !(proj2 (Z.eqb_neq _ loc)) by lia.
    etrans; [apply Ho; lia|]. rewrite <- E. apply Ho. lia.
Qed.

Lemma remove_ok u st : wf st -> 0 <= u < zlen (snodes st) -> on_list st u = true ->
  exists st', remove_ u st = Some st' /\ departed st u st' /\ (heap_ordered st -> last_fits st u -> heap_ordered st').
Proof.
  intros Hw Hu Hon. pose proof (replaced_order u st Hw Hu Hon) as Hord.
  destruct (replaced_ok u st Hw Hu Hon) as (Hp & Hln & Hlu & Hl1 & Hn & Hnu & Hloc & Hts & Hons & Hlen & _).
  unfold remove_. pose proof Hon as Hon'. unfold on_list in Hon'. rewrite Hon'. fold (replaced u st). set (st1 := replaced u st) in *.
  set (n := (m_pHeap st).[m_iLastEntry st]) in *. set (loc := m_iHeapLoc (node st u)) in *. pose proof (w_last _ Hw).
  match goal with |- context [loop (fuel ?x)] => change x with st1 end. rewrite Hlu.
  assert (Hloop : exists s q, loop (fuel st1) down_step (st1, loc) = Some (s, q) /\ wf (set_iHeapLoc u (-1) s) /\ moved st1 s n /\
    (loc <> m_iLastEntry st -> on_list s n = true) /\
    (down_ordered (time_at st1) loc (m_iLastEntry st1) -> ordered (time_at s) (m_iLastEntry s))).
  { destruct (Z.eq_dec loc (m_iLastEntry st)) as [El|Hne].
    - exists st1, loc. unfold fuel. cbn [loop]. unfold down_step at 1. rewrite (proj2 (Z.leb_gt _ _)) by (rewrite Hl1; lia).
      split; [done|]. split; [|split; [apply moved_refl|split; [done|]]].
      + apply (places_wf _ _ _ _ Hp); rewrite ?Hlen; try done. right. split; [lia|by apply Hnu].
      + intros D i Hi. apply D; [done|]. pose proof (par_spec i). lia.
    - destruct (down_loop st1 n u ltac:(by rewrite Hlen) (fuel st1) st1 loc Hp (moved_refl _ _)) as (s & q & E & Hps & Hm & Hq & Hlq & Ho); [lia|done|unfold fuel; lia|].
      exists s, q. split; [done|]. split; [|split; [done|split; [|done]]].
      2: { intros _. unfold on_list. rewrite Hlq, Z.geb_leb. apply Z.leb_le. lia. }
      pose proof (v_nodes _ _ _ Hm).
      apply (places_wf _ _ _ _ Hps); [lia|lia|]. left. split; [done|]. split; [|done]. intros E'. apply Hne, Hnu, E'. }
  destruct Hloop as (s & q & E & Hws & Hm & Hmon & Ho). rewrite E. cbn [mbind option_bind]. set (s1 := set_iHeapLoc u (-1) s) in *.
  pose proof (v_nodes _ _ _ Hm) as Hmn. assert (Hus : 0 <= u < zlen (snodes s)) by lia.
  assert (Hl2 : m_iLastEntry s1 = m_iLastEntry st - 1) by (change (m_iLastEntry s = m_iLastEntry st - 1); rewrite (v_last _ _ _ Hm); exact Hl1).
  eexists. split; [reflexivity|]. pose proof (wake_if (0 =? m_iLastEntry s1) Interrupt s1) as Hs.
  destruct (same_list_facts _ _ _ Hs) as (F1 & F2 & F3 & _). split; [split|].
  - by apply F1.
  - intros m. rewrite F2. unfold due, on_list, s1. destruct (node_loc s u (-1) m Hus) as [-> ->]. destruct (Z.eqb_spec m u) as [->|Hmu]; [done|].
    rewrite (v_time _ _ _ Hm), Hts. destruct (Z.eq_dec m n) as [->|Hmn'].
    + assert (Hneq : loc <> m_iLastEntry st) by (intros E'; by apply Hmu, Hnu).
      specialize (Hmon Hneq). unfold on_list in Hmon. rewrite Hmon.
      assert (Ho2 : on_list st n = true) by (pose proof (proj2 (w_heap _ Hw (m_iLastEntry st) ltac:(lia))) as Hx; fold n in Hx; unfold on_list; rewrite Hx, Z.geb_leb; apply Z.leb_le; lia).
      unfold on_list in Ho2. by rewrite Ho2.
    + pose proof (v_on _ _ _ Hm m Hmn') as Hv. unfold on_list in Hv. rewrite Hv. specialize (Hons m). unfold on_list in Hons. by rewrite Hons.
  - by rewrite (l_last _ _ _ Hs).
  - rewrite (l_len _ _ _ Hs). exact (v_len _ _ _ Hm).
  - rewrite (l_nodes _ _ _ Hs). unfold s1. cbn. rewrite length_aupd. lia.
  - rewrite (l_wake _ _ _ Hs), Hl2. unfold s1. cbn [wakeups set_iHeapLoc upd_node]. rewrite (v_wake _ _ _ Hm). f_equal.
    destruct (Z.eqb_spec 0 (m_iLastEntry st - 1)), (Z.eqb_spec (m_iLastEntry st) 1); done || lia.
  - intros H0 Hf. apply F3. intros i Hi. unfold s1. rewrite !time_at_set_loc by done. apply Ho; [|exact Hi]. rewrite Hl1. by apply Hord.
Qed.

(** ** The operations *)

(** The list as a schedule: the sockets on it, each with the time of its turn. *)
Definition upd_due (D : Z -> option Z) (u : Z) (x : option Z) (m : Z) : option Z := if m =? u then x else D m.

Inductive op :=
  | Update (alloc : option (nat -> Z)) (u : Z) (reschedule : EReschedule) (ts : Z)
  | Pop (now : Z)
  | Remove (u : Z).

(** An operation; the socket it returns, if any. *)
Definition exec (o : op) (st : t) : option (t * option Z) :=
  match o with
  | Update alloc u r ts => '(st, _) ← update alloc u r ts st; Some (st, None)
  | Pop now => pop now st
  | Remove u => st ← remove u st; Some (st, None)
  end.

Definition op_socket (o : op) (n : Z) : Prop :=
  match o with Update _ u _ _ | Remove u => 0 <= u < n | Pop _ => True end.

(** What an operation does to the schedule; [new] may fail. *)
Inductive sched_step (D : Z -> option Z) : op -> option Z -> (Z -> option Z) -> Prop :=
  | step_add alloc u r ts : D u = None -> sched_step D (Update alloc u r ts) None (upd_due D u (Some ts))
  | step_memory u r ts : D u = None -> sched_step D (Update None u r ts) None D
  | step_keep alloc u r ts t0 : D u = Some t0 -> r = DONT_RESCHEDULE \/ t0 <= ts -> sched_step D (Update alloc u r ts) None D
  | step_earlier alloc u ts t0 : D u = Some t0 -> ts < t0 -> sched_step D (Update alloc u DO_RESCHEDULE ts) None (upd_due D u (Some ts))
  | step_wait now : sched_step D (Pop now) None D
  | step_pop now u t0 : D u = Some t0 -> t0 <= now -> sched_step D (Pop now) (Some u) (upd_due D u None)
  | step_remove u : sched_step D (Remove u) None (upd_due D u None).

Lemma due_on st m : due st m = None <-> on_list st m = false.
Proof. unfold due. by destruct (on_list st m). Qed.

Lemma due_first st : wf st -> 0 <= m_iLastEntry st -> due st (m_pHeap st).[0] = Some (time_at st 0) /\ 0 <= (m_pHeap st).[0] < zlen (snodes st).
Proof.
  intros Hw Hl. destruct (w_heap _ Hw 0 ltac:(lia)) as [Hn H0]. split; [|done]. unfold due, on_list. by rewrite H0.
Qed.

(** Every socket on the list is at some place. *)
Lemma due_place st m t0 : wf st -> 0 <= m < zlen (snodes st) -> due st m = Some t0 ->
  exists i, 0 <= i <= m_iLastEntry st /\ time_at st i = t0.
Proof.
  intros Hw Hm. unfold due. destruct (on_list st m) eqn:Eo; [|done]. intros [= <-]. destruct (wf_on _ _ Hw Hm Eo) as [H1 H2].
  exists (m_iHeapLoc (node st m)). split; [done|]. unfold time_at. by rewrite H2.
Qed.

Lemma remove_due u st : wf st -> 0 <= u < zlen (snodes st) ->
  exists st', remove_ u st = Some st' /\ wf st' /\ (forall m, due st' m = upd_due (due st) u None m) /\
    length (snodes st') = length (snodes st) /\ m_iArrayLength st' = m_iArrayLength st.
Proof.
  intros Hw Hu. destruct (on_list st u) eqn:Eo.
  - destruct (remove_ok u st Hw Hu Eo) as (st' & E & [] & _). by exists st'.
  - unfold remove_. pose proof Eo as Eo'. unfold on_list in Eo'. rewrite Eo'. cbn [mbind option_bind]. eexists. split; [reflexivity|].
    pose proof (wake_if (0 =? m_iLastEntry st) Interrupt st) as Hs. destruct (same_list_facts _ _ _ Hs) as (F1 & F2 & _). split; [by apply F1|].
    split; [|by rewrite (l_nodes _ _ _ Hs), (l_len _ _ _ Hs)]. intros m. rewrite F2. unfold upd_due. destruct (Z.eqb_spec m u) as [->|]; [|done]. by apply due_on.
Qed.

Lemma realloc_ok memory st : wf st -> 0 < m_iArrayLength st -> wf (realloc_ memory st) /\
  (forall i, 0 <= i < m_iArrayLength st -> (m_pHeap (realloc_ memory st)).[i] = (m_pHeap st).[i]).
Proof.
  intros Hw Hlen. pose proof (w_len _ Hw) as Hl. pose proof (w_last _ Hw).
  assert (Hh : forall i, 0 <= i < m_iArrayLength st -> (m_pHeap (realloc_ memory st)).[i] = (m_pHeap st).[i]).
  { intros i Hi. unfold realloc_. cbn [m_pHeap]. rewrite take_ge by lia. unfold aget. rewrite (proj2 (Z.ltb_ge i 0)) by lia.
    rewrite !list_lookup_total_alt, lookup_app_l by lia. done. }
  split; [|done]. split; cbn [m_pHeap m_iArrayLength m_iLastEntry snodes realloc_].
  - rewrite length_app, length_take, length_map, length_seq. lia.
  - lia.
  - intros i Hi. change (0 <= (m_pHeap (realloc_ memory st)).[i] < zlen (snodes st) /\ m_iHeapLoc (node st (m_pHeap (realloc_ memory st)).[i]) = i).
    rewrite Hh by lia. by apply (w_heap _ Hw).
  - intros m Hm. destruct (w_loc _ Hw m Hm) as [?|[H1 H2]]; [by left|right]. split; [done|].
    change ((m_pHeap (realloc_ memory st)).[m_iHeapLoc (node st m)] = m). rewrite Hh by lia. done.
Qed.

(** A socket that is not on the list is put there, or there is no memory. *)
Lemma insert_due alloc ts u st : wf st -> 0 < m_iArrayLength st -> 0 <= u < zlen (snodes st) -> on_list st u = false ->
  exists st' ok, insert_ alloc ts u st = Some (st', ok) /\
    if ok : bool then joined st ts u st' /\ 0 < m_iArrayLength st'
    else st' = st /\ alloc = None /\ m_iLastEntry st = m_iArrayLength st - 1.
Proof.
  intros Hw H0 Hu Hoff. unfold insert_. pose proof (w_last _ Hw). destruct (Z.eqb_spec (m_iLastEntry st) (m_iArrayLength st - 1)) as [El|Hne].
  - destruct alloc as [memory|]; [|by exists st, false]. destruct (realloc_ok memory st Hw H0) as [Hw' Hh].
    destruct (insert_norealloc_ok ts u (realloc_ memory st) Hw' Hu Hoff) as (st' & E & [] & Hl); [cbn; lia|].
    exists st', true. rewrite E. split; [done|]. split; [|rewrite Hl; cbn; lia]. split; try done.
    intros Ho. apply j_order0. intros i Hi. pose proof (par_spec i). unfold time_at. cbn [m_iLastEntry realloc_] in Hi.
    rewrite !Hh by lia. by apply Ho.
  - destruct (insert_norealloc_ok ts u st Hw Hu Hoff) as (st' & E & Hj & Hl); [lia|]. exists st', true. rewrite E. split; [done|]. split; [done|]. lia.
Qed.

(** A list for [n] sockets. *)
Definition ulist (n : nat) (st : t) : Prop := wf st /\ 0 < m_iArrayLength st /\ length (snodes st) = n.

(** Only sockets that move forward in time change places with others. *)
Definition moves (u : Z) (r : EReschedule) (ts : Z) (st : t) : Prop :=
  r = DO_RESCHEDULE /\ exists t0, due st u = Some t0 /\ ts < t0 /\ m_iHeapLoc (node st u) <> 0.

Lemma update_due alloc u r ts st n : ulist n st -> 0 <= u < Z.of_nat n ->
  exists st' ok D', update alloc u r ts st = Some (st', ok) /\ ulist n st' /\ sched_step (due st) (Update alloc u r ts) None D' /\
    (forall m, due st' m = D' m) /\ (heap_ordered st -> (moves u r ts st -> last_fits st u) -> heap_ordered st').
Proof.
  intros (Hw & H0 & Hn) Hu. rewrite <- Hn in Hu. unfold update. fold (on_list st u). destruct (on_list st u) eqn:Eo.
  2: { destruct (insert_due alloc ts u st Hw H0 Hu Eo) as (st' & ok & E & H). apply due_on in Eo. destruct ok.
    - destruct H as [[] Hl]. exists st', true, (upd_due (due st) u (Some ts)). split; [done|]. split; [split_and!; [done|done|lia]|].
      split; [by constructor|]. split; [done|]. auto.
    - destruct H as (-> & -> & _). exists st, false, (due st). split; [done|]. split; [done|]. split; [by constructor|done]. }
  assert (Hd : due st u = Some (m_tsTimeStamp (node st u))) by (unfold due; by rewrite Eo).
  destruct r; [exists st, true, (due st); split; [done|]; split; [done|]; split; [by eapply step_keep; [done|left]|done]|].
  destruct (Z.leb_spec (m_tsTimeStamp (node st u)) ts); [exists st, true, (due st); split; [done|]; split; [done|]; split; [by eapply step_keep; [done|right]|done]|].
  exists (match update alloc u DO_RESCHEDULE ts st with Some (s, _) => s | None => st end), true, (upd_due (due st) u (Some ts)).
  assert (Hstep : sched_step (due st) (Update alloc u DO_RESCHEDULE ts) None (upd_due (due st) u (Some ts))) by (by eapply step_earlier).
  unfold update. fold (on_list st u). rewrite Eo, (proj2 (Z.leb_gt _ _)) by done.
  destruct (Z.eqb_spec (m_iHeapLoc (node st u)) 0) as [El|Hne].
  - set (st1 := wake Interrupt (set_tsTimeStamp u ts st)).
    assert (Hnode : forall m, node st1 m = if m =? u then mkNode ts (m_iHeapLoc (node st u)) else node st m).
    { intros m. unfold st1. change (node (wake Interrupt (set_tsTimeStamp u ts st)) m) with (node (set_tsTimeStamp u ts st) m). unfold set_tsTimeStamp. by rewrite node_upd. }
    assert (Hloc : forall m, m_iHeapLoc (node st1 m) = m_iHeapLoc (node st m)) by (intros m; rewrite Hnode; by destruct (Z.eqb_spec m u) as [->|]).
    assert (Hlen : length (snodes st1) = length (snodes st)) by (unfold st1; cbn; by rewrite length_aupd).
    split; [done|]. split; [split_and!; [|done|by rewrite Hlen]|split; [done|split]].
    + destruct Hw. split; rewrite ?Hlen; try done.
      * intros i Hi. rewrite Hloc. by apply w_heap0.
      * intros m Hm. rewrite Hloc. by apply w_loc0.
    + intros m. unfold due, on_list, upd_due. rewrite Hloc, Hnode. destruct (Z.eqb_spec m u) as [->|]; [|done]. fold (on_list st u). by rewrite Eo.
    + intros Ho _ i Hi. pose proof (par_spec i). pose proof (Ho i Hi) as Hoi. destruct (wf_on _ _ Hw Hu Eo) as [_ Hh]. rewrite El in Hh.
      unfold time_at in *. change (m_pHeap st1) with (m_pHeap st). rewrite !Hnode. change (m_iLastEntry st1) with (m_iLastEntry st) in Hi.
      assert ((m_pHeap st).[i] <> u) by (intros E; destruct (w_heap _ Hw i ltac:(lia)) as [_ Hx]; rewrite E, El in Hx; lia).
      rewrite (proj2 (Z.eqb_neq (m_pHeap st).[i] u)) by done. destruct (Z.eqb_spec (m_pHeap st).[par i] u) as [E|]; [|done].
      rewrite E in Hoi. cbn [m_tsTimeStamp]. lia.
  - destruct (remove_ok u st Hw Hu Eo) as (st1 & E1 & [] & Ho1). rewrite E1. cbn [mbind option_bind].
    assert (Hoff : on_list st1 u = false) by (apply due_on; rewrite d_due0; by rewrite Z.eqb_refl).
    destruct (insert_norealloc_ok ts u st1 d_wf0) as (st2 & E2 & [] & Hl2); [lia|done|pose proof (w_last _ Hw); lia|].
    rewrite E2. cbn [mbind option_bind]. split; [done|]. split; [split_and!; [done|lia|lia]|split; [done|split]].
    + intros m. rewrite j_due0, d_due0. unfold upd_due. by destruct (m =? u).
    + intros Ho Hf. apply j_order0, Ho1; [done|]. apply Hf. split; [done|]. eexists. split; [exact Hd|]. done.
Qed.

Lemma pop_ok now st n : ulist n st ->
  exists st' r D', pop now st = Some (st', r) /\ ulist n st' /\ sched_step (due st) (Pop now) r D' /\ (forall m, due st' m = D' m) /\
    (heap_ordered st -> heap_ordered st' /\
      match r with
      | None => forall m t0, 0 <= m < Z.of_nat n -> due st m = Some t0 -> now < t0
      | Some u => exists t0, due st u = Some t0 /\ forall m t1, 0 <= m < Z.of_nat n -> due st m = Some t1 -> t0 <= t1
      end).
Proof.
  intros (Hw & H0 & Hn). unfold pop. destruct (Z.eqb_spec (-1) (m_iLastEntry st)) as [El|Hne].
  { exists st, None, (due st). split; [done|]. split; [done|]. split; [constructor|]. split; [done|]. intros Ho. split; [done|].
    intros m t0 Hm Hd. rewrite <- Hn in Hm. destruct (due_place st m t0 Hw Hm Hd) as (i & Hi & _). lia. }
  pose proof (w_last _ Hw). destruct (due_first st Hw ltac:(lia)) as [Hd Hu].
  assert (Hmin : heap_ordered st -> forall m t1, 0 <= m < Z.of_nat n -> due st m = Some t1 -> time_at st 0 <= t1).
  { intros Ho m t1 Hm Hdm. rewrite <- Hn in Hm. destruct (due_place st m t1 Hw Hm Hdm) as (i & Hi & <-). by apply (ordered_root _ _ _ Ho). }
  destruct (Z.gtb_spec (time_at st 0) now) as [Hlt|Hle].
  - exists st, None, (due st). split; [done|]. split; [done|]. split; [constructor|]. split; [done|]. intros Ho. split; [done|].
    intros m t0 Hm Hdm. specialize (Hmin Ho m t0 Hm Hdm). lia.
  - set (u := (m_pHeap st).[0]) in *. assert (Eo : on_list st u = true) by (unfold due in Hd; by destruct (on_list st u)).
    destruct (remove_ok u st Hw Hu Eo) as (st' & E & [] & Ho'). exists st', (Some u), (upd_due (due st) u None). rewrite E. split; [done|].
    split; [split_and!; [done|lia|lia]|]. split; [by apply (step_pop _ _ _ (time_at st 0)); [|lia]|]. split; [done|].
    intros Ho. split; [|exists (time_at st 0); by split; [|apply Hmin]]. apply Ho'; [done|]. left. apply (w_heap _ Hw 0). lia.
Qed.

Lemma init_ulist memory n : ulist n (init memory n) /\ heap_ordered (init memory n) /\ forall m, due (init memory n) m = None.
Proof.
  assert (Hnode : forall m, m_iHeapLoc (node (init memory n) m) = -1).
  { intros m. unfold node, aget. cbn [snodes init]. destruct (m <? 0); [done|]. rewrite list_lookup_total_alt.
    destruct (replicate n (mkNode 0 (-1)) !! Z.to_nat m) as [x|] eqn:E; [|done]. apply lookup_replicate in E as [-> _]. done. }
  split; [split_and!; [|done|by cbn; rewrite length_replicate]|split].
  - split; cbn [m_pHeap m_iArrayLength m_iLastEntry init]; [by rewrite length_map, length_seq|lia|lia|]. intros m _. left. apply Hnode.
  - intros i Hi. cbn in Hi. lia.
  - intros m. unfold due, on_list. by rewrite Hnode.
Qed.

Lemma exec_ok o st n : ulist n st -> op_socket o (Z.of_nat n) ->
  exists st' r D', exec o st = Some (st', r) /\ ulist n st' /\ sched_step (due st) o r D' /\ forall m, due st' m = D' m.
Proof.
  intros Hu Ho. destruct o as [alloc u r ts|now|u]; cbn [exec].
  - destruct (update_due alloc u r ts st n Hu Ho) as (st' & ok & D' & E & Hu' & Hs & Hd & _). exists st', None, D'. by rewrite E.
  - destruct (pop_ok now st n Hu) as (st' & r & D' & E & Hu' & Hs & Hd & _). by exists st', r, D'.
  - destruct Hu as (Hw & H0 & Hn). cbn in Ho. destruct (remove_due u st Hw ltac:(lia)) as (st' & E & Hw' & Hd & Hl & Ha).
    exists st', None, (upd_due (due st) u None). unfold remove. rewrite E. split; [done|]. split; [split_and!; [done|lia|lia]|]. split; [constructor|done].
Qed.

(** A sequence of operations, with the sockets they return. *)
Fixpoint run (ops : list op) (st : t) : option (t * list (option Z)) :=
  match ops with
  | [] => Some (st, [])
  | o :: ops => '(st, r) ← exec o st; '(st, rs) ← run ops st; Some (st, r :: rs)
  end.

Inductive sched_run : (Z -> option Z) -> list op -> list (option Z) -> (Z -> option Z) -> Prop :=
  | run_nil D D' : (forall m, D' m = D m) -> sched_run D [] [] D'
  | run_cons D o r D1 D1' ops rs D2 : sched_step D o r D1 -> (forall m, D1' m = D1 m) -> sched_run D1' ops rs D2 ->
      sched_run D (o :: ops) (r :: rs) D2.

(** C36. Whatever sequence of [update], [pop] and [remove] is called, every call
    returns, the places noted in the nodes are those in the heap, no socket is
    lost or on the list twice, and each call changes the schedule as it should:
    [update] adds a socket, leaves it alone or moves it forward, [pop] takes out
    a socket whose time has come, and [remove] the given one. *)
Theorem ulist_refines_schedule (n : nat) (ops : list op) (st : t) (Hst : ulist n st)
  (Hops : Forall (fun o => op_socket o (Z.of_nat n)) ops) :
  exists st' rs, run ops st = Some (st', rs) /\ ulist n st' /\ sched_run (due st) ops rs (due st').
Proof.
  revert st Hst. induction Hops as [|o ops Ho Hops IH]; intros st Hst.
  - exists st, []. split; [done|]. split; [done|]. by constructor.
  - destruct (exec_ok o st n Hst Ho) as (st1 & r & D1 & E & Hst1 & Hs & Hd). destruct (IH st1 Hst1) as (st' & rs & E' & Hst' & Hr).
    exists st', (r :: rs). cbn [run]. rewrite E. cbn [mbind option_bind]. rewrite E'. split; [done|]. split; [done|]. by econstructor.
Qed.

(** C37. As long as the heap is ordered, [pop] gives a socket with the earliest
    time of all on the list, and nothing only when all are still to come.  The
    heap stays ordered through [pop] and through every [update] that does not
    move a socket forward; where a socket is moved forward or removed it does
    so when the last entry of the heap is not earlier than the parent of the
    place that becomes free. *)
Theorem ulist_earliest (n : nat) (st : t) (Hst : ulist n st) (Ho : heap_ordered st) :
  (forall now, exists st' r, pop now st = Some (st', r) /\ heap_ordered st' /\
    match r with
    | None => forall m t0, 0 <= m < Z.of_nat n -> due st m = Some t0 -> now < t0
    | Some u => exists t0, due st u = Some t0 /\ forall m t1, 0 <= m < Z.of_nat n -> due st m = Some t1 -> t0 <= t1
    end) /\
  (forall alloc u r ts, 0 <= u < Z.of_nat n -> (moves u r ts st -> last_fits st u) ->
    exists st' ok, update alloc u r ts st = Some (st', ok) /\ heap_ordered st') /\
  (forall u, 0 <= u < Z.of_nat n -> on_list st u = true -> last_fits st u -> exists st', remove u st = Some st' /\ heap_ordered st').
Proof.
  split; [|split].
  - intros now. destruct (pop_ok now st n Hst) as (st' & r & D' & E & _ & _ & _ & H). exists st', r. split; [done|]. by apply H.
  - intros alloc u r ts Hu Hf. destruct (update_due alloc u r ts st n Hst Hu) as (st' & ok & D' & E & _ & _ & _ & H). exists st', ok. by auto.
  - intros u Hu Hon Hf. destruct Hst as (Hw & _ & Hn). destruct (remove_ok u st Hw ltac:(lia) Hon) as (st' & E & _ & H). exists st'. by auto.
Qed.

(** ** Example: seven sockets *)

Definition add (u ts : Z) : op := Update None u DONT_RESCHEDULE ts.
Definition seven : list op := [add 0 16; add 1 12; add 2 15; add 3 14; add 4 13; add 5 11; add 6 10].
Definition start : t := init (fun _ => 0) 7.
Definition after (ops : list op) : t := from_option fst start (run ops start).

(** The condition on a socket that is moved forward is needed: with these seven,
    rescheduling socket 0 from 16 to 15 leaves a heap that is not ordered. *)
Lemma ulist_update_misplaces : heap_ordered (after seven) /\ ~ heap_ordered (after (seven ++ [Update None 0 DO_RESCHEDULE 15])).
Proof.
  assert (El : m_iLastEntry (after seven) = 6) by (vm_compute; reflexivity).
  assert (El' : m_iLastEntry (after (seven ++ [Update None 0 DO_RESCHEDULE 15])) = 6) by (vm_compute; reflexivity). split.
  - intros i Hi. rewrite El in Hi. assert (i = 1 \/ i = 2 \/ i = 3 \/ i = 4 \/ i = 5 \/ i = 6) as Hc by lia.
    repeat (destruct Hc as [->|Hc]; [vm_compute; discriminate|]). subst i. vm_compute. discriminate.
  - intros Ho. specialize (Ho 3). rewrite El' in Ho. specialize (Ho ltac:(lia)). revert Ho. vm_compute. congruence.
Qed.

(** [remove_] puts the last entry of the heap where the removed one was and
    moves it down only, although it may belong further up.  Here socket 0 is
    removed from a list of seven; two sockets are then taken out in order,
    but the third one is scheduled for 13 while socket 1 is scheduled for 12
    and still waits: the list reports 13 as its next time, and at the time 12
    it gives nothing. *)
Theorem ulist_remove_misplaces :
  heap_ordered (after seven) /\
  run (seven ++ [Remove 0; Pop 20; Pop 20]) start =
    Some (after (seven ++ [Remove 0; Pop 20; Pop 20]), replicate 8 None ++ [Some 6; Some 5]) /\
  let st := after (seven ++ [Remove 0; Pop 20; Pop 20]) in
  due st 1 = Some 12 /\ getNextProcTime st = 13 /\ pop 12 st = Some (st, None) /\
  (exists st', pop 20 st = Some (st', Some 4)) /\ due st 4 = Some 13.
Proof.
  split; [|split; [vm_compute; reflexivity|]].
  - assert (El : m_iLastEntry (after seven) = 6) by (vm_compute; reflexivity). intros i Hi. rewrite El in Hi.
    assert (i = 1 \/ i = 2 \/ i = 3 \/ i = 4 \/ i = 5 \/ i = 6) as Hc by lia.
    repeat (destruct Hc as [->|Hc]; [vm_compute; discriminate|]). subst i. vm_compute. discriminate.
  - intros st. split; [vm_compute; reflexivity|]. split; [vm_compute; reflexivity|]. split; [vm_compute; reflexivity|].
    split; [|vm_compute; reflexivity]. eexists. vm_compute. reflexivity.
Qed.

Ltac ops_ok := repeat (apply Forall_cons_2; [cbn; first [exact I|lia]|]); apply Forall_nil_2.

Lemma ulist_refines_schedule_witness :
  exists st' rs, run (seven ++ [Remove 0; Update None 2 DO_RESCHEDULE 9; Pop 20]) start = Some (st', rs) /\ list.last rs = Some (Some 2).
Proof.
  destruct (init_ulist (fun _ => 0) 7) as (Hst & _ & _).
  destruct (ulist_refines_schedule 7 (seven ++ [Remove 0; Update None 2 DO_RESCHEDULE 9; Pop 20]) start Hst) as (st' & rs & E & _).
  { ops_ok. }
  exists st', rs. split; [exact E|]. vm_compute in E. injection E as _ <-. reflexivity.
Defined.

Lemma ulist_earliest_witness : exists st', pop 20 (after [add 0 16; add 1 12]) = Some (st', Some 1) /\ heap_ordered st'.
Proof.
  destruct (init_ulist (fun _ => 0) 7) as (H0 & Ho0 & _).
  destruct (ulist_refines_schedule 7 [add 0 16] start H0) as (st1 & rs1 & E1 & H1 & _); [ops_ok|].
  destruct (ulist_earliest 7 start H0 Ho0) as (_ & Hup & _).
  destruct (Hup None 0 DONT_RESCHEDULE 16 ltac:(lia) ltac:(intros [? _]; discriminate)) as (st1' & ok1 & E1' & Ho1).
  assert (st1' = st1) as -> by (cbn [run exec add] in E1; rewrite E1' in E1; cbn in E1; by injection E1).
  destruct (ulist_earliest 7 st1 H1 Ho1) as (_ & Hup2 & _).
  destruct (Hup2 None 1 DONT_RESCHEDULE 12 ltac:(lia) ltac:(intros [? _]; discriminate)) as (st2 & ok2 & E2 & Ho2).
  destruct (ulist_refines_schedule 7 [add 1 12] st1 H1) as (st2' & rs2 & E2' & H2 & _); [ops_ok|].
  assert (st2' = st2) as -> by (cbn [run exec add] in E2'; rewrite E2 in E2'; cbn in E2'; by injection E2').
  assert (after [add 0 16; add 1 12] = st2) as ->.
  { unfold after. cbn [run exec add]. rewrite E1'. cbn [mbind option_bind]. rewrite E2. done. }
  destruct (ulist_earliest 7 st2 H2 Ho2) as (Hpop & _). destruct (Hpop 20) as (st' & r & E & Ho' & Hr). exists st'. split; [|exact Ho'].
  clear -E E1' E2. vm_compute in E1'. injection E1' as <- <-. vm_compute in E2. injection E2 as <- <-. vm_compute in E. injection E as <- <-. vm_compute. reflexivity.
Defined.
