(* ===== verification/FecGroup.v ===== *)
(** Groups of the forward error correction of fec.h and fec.cpp
    ([FECFilterBuiltin]): a group is the exclusive or ("clip") of the lengths,
    flags, timestamps and payloads of its packets.  The file holds the
    configuration, the operations on one group, the control packet made of it
    and the packet rebuilt from it, and shows that a group that lacks one
    packet gives that packet.  Bytes are 0 to 255; the host is little-endian.
    [SrtPacket] has the header words and the bytes of a [CPacket] and is
    modelled by the same record. *)
From S2P Require Import Prelude Packet SeqNo.
Import CPacket CSeqNo.

Module FECFilterBuiltin.
Inductive SRT_ARQLevel := SRT_ARQ_NEVER | SRT_ARQ_ONREQ | SRT_ARQ_ALWAYS.

(** What the constructor takes from the parsed configuration and from
    [SrtFilterInitializer]. *)
Record config := mkConfig {
  m_number_cols : Z;
  m_number_rows : Z;
  m_fallback_level : SRT_ARQLevel;
  m_cols_only : bool;
  m_arrangement_staircase : bool;
  payloadSize : Z;
  rcvBufferSize : Z;
  socketID : Z;
}.

Definition numberCols (c : config) : Z := m_number_cols c.
Definition numberRows (c : config) : Z := m_number_rows c.
Definition sizeCol (c : config) : Z := m_number_rows c.
Definition sizeRow (c : config) : Z := m_number_cols c.

Record Group := mkGroup {
  base : Z;
  step : Z;
  drop : Z;
  collected : Z;
  length_clip : Z;
  flag_clip : Z;
  timestamp_clip : Z;
  payload_clip : list Z;
}.
#[export] Instance Group_inhabited : Inhabited Group := populate (mkGroup (-1) 0 0 0 0 0 0 []).

Inductive GroupType := HORIZ | VERT | SINGLE.

Definition u16 (z : Z) : Z := z mod 2 ^ 16.
Definition u8 (z : Z) : Z := z mod 2 ^ 8.
Definition u64 (z : Z) : Z := z mod 2 ^ 64.
Definition i8 (z : Z) : Z := (z + 2 ^ 7) mod 2 ^ 8 - 2 ^ 7.

(** [htons] and [ntohs]. *)
Definition bswap16 (w : Z) : Z := Z.lor (Z.shiftl (Z.land w 0xFF) 8) (Z.land (Z.shiftr w 8) 0xFF).

(** A group that was just made, its payload clip empty, is configured. *)
Definition ConfigureGroup (c : config) (seqno gstep gdrop : Z) : Group :=
  mkGroup seqno gstep gdrop 0 0 0 0 (replicate (Z.to_nat (payloadSize c)) 0).

Definition ResetGroup (g : Group) : Group :=
  mkGroup (incseq_by (base g) (drop g)) (step g) (drop g) 0 0 0 0 (replicate (length (payload_clip g)) 0).

(** The loop over the payload; behind it the clip is combined with zeros. *)
Fixpoint clip_bytes (clip payload : list Z) : list Z :=
  match clip, payload with
  | c :: clip, b :: payload => Z.lxor c b :: clip_bytes clip payload
  | _, _ => clip
  end.

Definition ClipData (length_net kflg timestamp_hw : Z) (payload : list Z) (g : Group) : Group :=
  mkGroup (base g) (step g) (drop g) (collected g) (Z.lxor (length_clip g) length_net) (Z.lxor (flag_clip g) kflg)
    (Z.lxor (timestamp_clip g) timestamp_hw) (clip_bytes (payload_clip g) payload).

Definition ClipPacket (pkt : t) (g : Group) : Group :=
  ClipData (bswap16 (u16 (getLength pkt))) (u8 (getMsgCryptoFlags pkt)) (getMsgTimeStamp pkt) (m_pcData pkt) g.

Definition ClipControlPacket (pkt : t) (g : Group) : Group :=
  let fec_header := m_pcData pkt in
  let flag_clip := fec_header.[1] in
  let length_clip := fec_header.[2] + Z.shiftl (fec_header.[3]) 8 in
  ClipData length_clip flag_clip (getMsgTimeStamp pkt) (list.drop 4 fec_header) g.

Definition ClipRebuiltPacket (pkt : t) (g : Group) : Group :=
  ClipData (bswap16 (u16 (getLength pkt))) (u8 (Bits.unwrap 28 27 (SRT_PH_MSGNO pkt))) (SRT_PH_TIMESTAMP pkt) (m_pcData pkt) g.

Definition add_collected (g : Group) : Group :=
  mkGroup (base g) (step g) (drop g) (collected g + 1) (length_clip g) (flag_clip g) (timestamp_clip g) (payload_clip g).

(** [PackControl]: the control packet of the group, over what [pkt] held. *)
Definition PackControl (g : Group) (index : Z) (pkt : t) (seq : Z) : t :=
  mk seq (SRT_PH_MSGNO pkt) (timestamp_clip g) (SRT_PH_ID pkt)
    ([u8 index; flag_clip g; Z.land (length_clip g) 0xFF; Z.land (Z.shiftr (length_clip g) 8) 0xFF] ++ payload_clip g).

(** [RcvRebuild], the packet pushed to [rebuilt]; [None] where the length does
    not fit. *)
Definition rebuilt_packet (c : config) (order_required : bool) (g : Group) (seqno : Z) : option t :=
  let length_hw := bswap16 (length_clip g) in
  if length_hw >? payloadSize c then None else
  Some (mk seqno
    (Z.lor (Z.lor (Z.lor (Z.lor 1 (Bits.wrap 31 30 PB_SOLO)) (Bits.wrap 29 29 (if order_required then 1 else 0)))
      (Bits.wrap 28 27 (flag_clip g))) (Bits.wrap 26 26 1))
    (timestamp_clip g) (socketID c) (take (Z.to_nat length_hw) (payload_clip g))).
End FECFilterBuiltin.
Import FECFilterBuiltin.

(** ** Exclusive or of a list *)

Section Xor.
Context {A : Type}.
Implicit Types (f g : A -> Z) (l : list A).

Fixpoint xor_all f l : Z := match l with [] => 0 | a :: l => Z.lxor (f a) (xor_all f l) end.

Lemma xor_all_app f l1 l2 : xor_all f (l1 ++ l2) = Z.lxor (xor_all f l1) (xor_all f l2).
Proof. induction l1 as [|a l1 IH]; [done|]. cbn. by rewrite IH, Z.lxor_assoc. Qed.

#[export] Instance xor_all_perm f : Proper ((≡ₚ) ==> eq) (xor_all f).
Proof.
  intros l1 l2 Hp. induction Hp as [|a l1 l2 _ IH|a b l|l1 l2 l3 _ IH1 _ IH2]; cbn; [done|by rewrite IH| |congruence].
  by rewrite <- !Z.lxor_assoc, (Z.lxor_comm (f b)).
Qed.

(** Everything that is there twice goes away. *)
Lemma xor_all_missing f l p all : all ≡ₚ p :: l -> Z.lxor (xor_all f l) (xor_all f all) = f p.
Proof. intros ->. cbn. by rewrite (Z.lxor_comm (f p)), <- Z.lxor_assoc, Z.lxor_nilpotent, Z.lxor_0_l. Qed.

Lemma xor_all_bound f l w : 0 <= w -> (forall a, a ∈ l -> 0 <= f a < 2 ^ w) -> 0 <= xor_all f l < 2 ^ w.
Proof.
  intros Hw. induction l as [|a l IH]; intros Hf; cbn; [lia|].
  pose proof (Hf a ltac:(left)) as Ha. specialize (IH ltac:(intros b Hb; apply Hf; by right)).
  assert (E : Z.lxor (f a) (xor_all f l) = Z.lxor (f a) (xor_all f l) mod 2 ^ w); [|rewrite E; apply Z.mod_pos_bound; lia].
  apply Z.bits_inj'. intros i Hi. destruct (Z.lt_ge_cases i w).
  - by rewrite Z.mod_pow2_bits_low by lia.
  - rewrite Z.mod_pow2_bits_high, Z.lxor_spec by lia.
    rewrite <- (Z.mod_small (f a) (2 ^ w)), <- (Z.mod_small (xor_all f l) (2 ^ w)) by lia. by rewrite !Z.mod_pow2_bits_high by lia.
Qed.
End Xor.

(** ** What a group holds *)

Definition len_net (p : t) : Z := bswap16 (u16 (getLength p)).
Definition key_flags (p : t) : Z := u8 (getMsgCryptoFlags p).
Definition byte_at (i : nat) (p : t) : Z := default 0 (m_pcData p !! i).

(** The clip is the exclusive or of the packets [ps]. *)
Record holds (P : Z) (g : Group) (ps : list t) : Prop := {
  h_size : zlen (payload_clip g) = P;
  h_len : length_clip g = xor_all len_net ps;
  h_flag : flag_clip g = xor_all key_flags ps;
  h_time : timestamp_clip g = xor_all getMsgTimeStamp ps;
  h_data : forall i, Z.of_nat i < P -> payload_clip g !! i = Some (xor_all (byte_at i) ps)
}.

(** A packet that the configured payload size admits. *)
Record source_packet (P : Z) (p : t) : Prop := {
  s_len : getLength p <= P;
  s_size : P < 2 ^ 16;
  s_time : in_u32 (SRT_PH_TIMESTAMP p)
}.

Lemma length_clip_bytes clip d : length (clip_bytes clip d) = length clip.
Proof. revert d. induction clip as [|c clip IH]; intros [|b d]; cbn; auto. Qed.

Lemma lookup_clip_bytes clip d i : clip_bytes clip d !! i = (fun c => Z.lxor c (default 0 (d !! i))) <$> clip !! i.
Proof.
  revert d i. induction clip as [|c clip IH]; intros [|b d] [|i]; cbn; try done; try apply IH; [by rewrite Z.lxor_0_r|].
  destruct (clip !! i); cbn; by rewrite ?Z.lxor_0_r.
Qed.

(** Clipping what adds [x] to every exclusive or. *)
Lemma holds_clip P g ps p L K T d :
  holds P g ps -> L = len_net p -> K = key_flags p -> T = getMsgTimeStamp p -> (forall i, default 0 (d !! i) = byte_at i p) ->
  holds P (ClipData L K T d g) (p :: ps).
Proof.
  intros [H1 H2 H3 H4 H5] -> -> -> Hd. split; cbn [ClipData payload_clip length_clip flag_clip timestamp_clip xor_all].
  - by rewrite length_clip_bytes.
  - by rewrite H2, Z.lxor_comm.
  - by rewrite H3, Z.lxor_comm.
  - by rewrite H4, Z.lxor_comm.
  - intros i Hi. by rewrite lookup_clip_bytes, H5, Hd, Z.lxor_comm by done.
Qed.

Lemma holds_ClipPacket P g ps p : holds P g ps -> holds P (ClipPacket p g) (p :: ps).
Proof. intros H. by apply holds_clip. Qed.

Lemma holds_ClipPackets P g ps l : holds P g ps -> holds P (foldl (fun g p => ClipPacket p g) g l) (rev l ++ ps).
Proof.
  revert g ps. induction l as [|p l IH]; intros g ps H; [done|]. cbn. rewrite <- app_assoc. apply IH. by apply holds_ClipPacket.
Qed.

Lemma holds_perm P g ps ps' : ps ≡ₚ ps' -> holds P g ps -> holds P g ps'.
Proof. intros E []. split; try done; intros; rewrite <- E; auto. Qed.

Lemma holds_ext P g g' ps : length_clip g' = length_clip g -> flag_clip g' = flag_clip g -> timestamp_clip g' = timestamp_clip g ->
  payload_clip g' = payload_clip g -> holds P g ps -> holds P g' ps.
Proof. intros E1 E2 E3 E4 []. split; rewrite ?E1, ?E2, ?E3, ?E4; done. Qed.

Lemma holds_none P b s d n L : P = Z.of_nat L -> holds P (mkGroup b s d n 0 0 0 (replicate L 0)) [].
Proof.
  intros ->. split; cbn [length_clip flag_clip timestamp_clip payload_clip xor_all]; try done; [by rewrite length_replicate|].
  intros i Hi. rewrite lookup_replicate. split; [done|lia].
Qed.

Lemma bswap16_testbit w i : 0 <= i ->
  Z.testbit (bswap16 w) i = if i <? 8 then Z.testbit w (i + 8) else if i <? 16 then Z.testbit w (i - 8) else false.
Proof.
  intros Hi. unfold bswap16. change 0xFF with (Z.ones 8). rewrite Z.lor_spec, Z.shiftl_spec, !Z.land_spec, Z.shiftr_spec by lia.
  destruct (Z.ltb_spec i 8); [|destruct (Z.ltb_spec i 16)].
  - rewrite (Z.testbit_neg_r _ (i - 8)) by lia. by rewrite (Z.ones_spec_low 8 i), andb_true_r by lia.
  - rewrite (Z.ones_spec_low 8 (i - 8)), (Z.ones_spec_high 8 i) by lia. by rewrite andb_false_r, andb_true_r, orb_false_r.
  - by rewrite !Z.ones_spec_high, !andb_false_r by lia.
Qed.

Lemma testbits_bound w x : 0 <= w -> (forall i, w <= i -> Z.testbit x i = false) -> 0 <= x < 2 ^ w.
Proof.
  intros Hw Hx. assert (E : x = x mod 2 ^ w); [|rewrite E; apply Z.mod_pos_bound; lia]. apply Z.bits_inj'. intros i Hi.
  destruct (Z.lt_ge_cases i w); [by rewrite Z.mod_pow2_bits_low by lia|by rewrite Z.mod_pow2_bits_high, Hx by lia].
Qed.

Lemma bound_testbits w x i : 0 <= x < 2 ^ w -> 0 <= w <= i -> Z.testbit x i = false.
Proof. intros Hx Hi. rewrite <- (Z.mod_small x (2 ^ w)) by lia. by apply Z.mod_pow2_bits_high. Qed.

Lemma len_net_bound p : 0 <= len_net p < 2 ^ 16.
Proof. apply testbits_bound; [lia|]. intros i Hi. unfold len_net. rewrite bswap16_testbit by lia. bdestr. Qed.

Lemma bswap16_involutive w : 0 <= w < 2 ^ 16 -> bswap16 (bswap16 w) = w.
Proof.
  intros Hw. apply Z.bits_inj'. intros i Hi. rewrite bswap16_testbit by lia.
  destruct (Z.ltb_spec i 8); [|destruct (Z.ltb_spec i 16)]; rewrite ?bswap16_testbit by lia; bdestr; try (f_equal; lia).
  symmetry. apply (bound_testbits 16); lia.
Qed.

Lemma crypto_flags_bound p : 0 <= getMsgCryptoFlags p < 4.
Proof.
  apply (testbits_bound 2); [lia|]. intros i Hi. unfold getMsgCryptoFlags. rewrite unwrap_testbit by lia.
  by rewrite (proj2 (Z.leb_gt _ _)), andb_false_r by lia.
Qed.

Lemma key_flags_id p : key_flags p = getMsgCryptoFlags p.
Proof. pose proof (crypto_flags_bound p). unfold key_flags, u8. rewrite Z.mod_small; lia. Qed.

(** ** Control packets *)

(** The payload and timestamp of a control packet over [ps]. *)
Definition control_of (P : Z) (ps : list t) (ctl : t) : Prop :=
  exists g index, holds P g ps /\ m_pcData ctl = m_pcData (PackControl g index ctl 0) /\ SRT_PH_TIMESTAMP ctl = timestamp_clip g.

Lemma getMsgTimeStamp_id p : in_u32 (SRT_PH_TIMESTAMP p) -> getMsgTimeStamp p = SRT_PH_TIMESTAMP p.
Proof. intros Hp. unfold getMsgTimeStamp. change 0xFFFFFFFF with (Z.ones 32). rewrite Z.land_ones by lia. by apply Z.mod_small. Qed.

Lemma getMsgTimeStamp_bound p : 0 <= getMsgTimeStamp p < 2 ^ 32.
Proof. unfold getMsgTimeStamp. change 0xFFFFFFFF with (Z.ones 32). rewrite Z.land_ones by lia. apply Z.mod_pos_bound. lia. Qed.

Lemma two_bytes x : 0 <= x < 2 ^ 16 -> Z.land x 0xFF + Z.shiftl (Z.land (Z.shiftr x 8) 0xFF) 8 = x.
Proof.
  intros Hx. change 0xFF with (Z.ones 8). rewrite !Z.land_ones, Z.shiftl_mul_pow2, Z.shiftr_div_pow2 by lia.
  rewrite (Z.mod_small (x / 2 ^ 8)).
  - pose proof (Z.div_mod x (2 ^ 8)). lia.
  - pose proof (Z.div_pos x (2 ^ 8)). pose proof (Z.div_lt_upper_bound x (2 ^ 8) (2 ^ 8)). lia.
Qed.

(** A control packet clips all packets it was made of. *)
Lemma holds_ClipControlPacket P g ps all ctl : holds P g ps -> control_of P all ctl -> holds P (ClipControlPacket ctl g) (ps ++ all).
Proof.
  intros [H1 H2 H3 H4 H5] (gc & index & [C1 C2 C3 C4 C5] & Hd & Ht). unfold ClipControlPacket. rewrite Hd.
  assert (El : Z.land (length_clip gc) 0xFF + Z.shiftl (Z.land (Z.shiftr (length_clip gc) 8) 0xFF) 8 = xor_all len_net all).
  { rewrite two_bytes; [done|]. rewrite C2. apply xor_all_bound; [lia|]. intros p _. apply len_net_bound. }
  assert (Et : getMsgTimeStamp ctl = xor_all getMsgTimeStamp all).
  { rewrite <- C4, <- Ht. apply getMsgTimeStamp_id. rewrite Ht, C4. apply xor_all_bound; [lia|]. intros p _. apply getMsgTimeStamp_bound. }
  cbn [PackControl m_pcData app]. change (aget (?a :: ?b :: ?l) 1) with b. change (aget (?a :: ?b :: ?c :: ?l) 2) with c.
  change (aget (?a :: ?b :: ?c :: ?d :: ?l) 3) with d. rewrite El. cbn [list.drop].
  split; cbn [ClipData payload_clip length_clip flag_clip timestamp_clip].
  - by rewrite length_clip_bytes.
  - by rewrite H2, xor_all_app.
  - by rewrite H3, C3, xor_all_app.
  - by rewrite H4, Et, xor_all_app.
  - intros i Hi. rewrite lookup_clip_bytes, H5, C5, xor_all_app by done. done.
Qed.

Lemma control_of_PackControl P g ps index pkt seq : holds P g ps -> control_of P ps (PackControl g index pkt seq).
Proof. intros H. by exists g, index. Qed.

(** What the filter's control packet keeps on its way through
    [PacketFilter::packControlPacket]. *)
Lemma control_of_ext P ps c c' : m_pcData c' = m_pcData c -> SRT_PH_TIMESTAMP c' = SRT_PH_TIMESTAMP c -> control_of P ps c -> control_of P ps c'.
Proof. intros E1 E2 (g & ix & H & Hd & Ht). exists g, ix. rewrite E1, E2. done. Qed.

(** ** The missing packet *)

(** The rebuilt packet [q] carries what [p] carried: the payload, the time,
    the key flags; the sequence number and the other fields are filled in. *)
Record carries (c : config) (order_required : bool) (seqno : Z) (p q : t) : Prop := {
  r_data : m_pcData q = m_pcData p;
  r_time : getMsgTimeStamp q = getMsgTimeStamp p;
  r_time' : SRT_PH_TIMESTAMP q = getMsgTimeStamp p;
  r_flags : getMsgCryptoFlags q = getMsgCryptoFlags p;
  r_seqno : SRT_PH_SEQNO q = seqno;
  r_id : SRT_PH_ID q = socketID c;
  r_boundary : getMsgBoundary q = PB_SOLO;
  r_order : getMsgOrderFlag q = order_required;
  r_rexmit : getRexmitFlag q = true;
  r_msgno : getMsgSeq true q = 1
}.

Lemma getLength_nonneg p : 0 <= getLength p.
Proof. unfold getLength. lia. Qed.

Lemma len_net_back P p : source_packet P p -> bswap16 (len_net p) = getLength p.
Proof.
  intros [H1 H2 _]. pose proof (getLength_nonneg p). unfold len_net. rewrite bswap16_involutive; unfold u16; rewrite Z.mod_small; lia.
Qed.

(** The clip that holds exactly one packet, counted twice or not. *)
Lemma holds_one P g p : source_packet P p -> holds P g [p] ->
  bswap16 (length_clip g) = getLength p /\ flag_clip g = getMsgCryptoFlags p /\ timestamp_clip g = getMsgTimeStamp p /\
  take (Z.to_nat (getLength p)) (payload_clip g) = m_pcData p.
Proof.
  intros Hp [H1 H2 H3 H4 H5]. cbn [xor_all] in *. rewrite Z.lxor_0_r in H2, H3, H4. rewrite H2, H3, H4.
  split; [by apply (len_net_back P)|]. split; [apply key_flags_id|]. split; [done|].
  apply list_eq. intros i. rewrite lookup_take. pose proof (s_len _ _ Hp) as Hl. unfold getLength in *. case_decide as Hi.
  - rewrite H5 by lia. cbn [xor_all]. rewrite Z.lxor_0_r. unfold byte_at.
    destruct (lookup_lt_is_Some_2 (m_pcData p) i ltac:(lia)) as [b Eb]. by rewrite Eb.
  - symmetry. apply lookup_ge_None. lia.
Qed.

Lemma holds_missing P g ps all p : holds P g (ps ++ all) -> all ≡ₚ p :: ps -> holds P g [p].
Proof.
  intros [H1 H2 H3 H4 H5] Ha. cbn [xor_all] in *.
  assert (E : forall f, xor_all f (ps ++ all) = xor_all f [p]).
  { intros f. rewrite xor_all_app, (xor_all_missing f ps p all Ha). cbn. by rewrite Z.lxor_0_r. }
  split; rewrite <- ?E; try done. intros i Hi. rewrite <- E. by apply H5.
Qed.

(** The key flags in the message word of a rebuilt packet. *)
Lemma rebuilt_fields p q f b : 0 <= f < 4 -> SRT_PH_MSGNO q =
    Z.lor (Z.lor (Z.lor (Z.lor 1 (Bits.wrap 31 30 PB_SOLO)) (Bits.wrap 29 29 (if b : bool then 1 else 0))) (Bits.wrap 28 27 f)) (Bits.wrap 26 26 1) ->
  f = getMsgCryptoFlags p ->
  getMsgCryptoFlags q = getMsgCryptoFlags p /\ getMsgBoundary q = PB_SOLO /\ getMsgOrderFlag q = b /\ getRexmitFlag q = true /\ getMsgSeq true q = 1.
Proof.
  intros Hf Hq <-. unfold getMsgCryptoFlags, getMsgBoundary, getMsgOrderFlag, getRexmitFlag, getMsgSeq. rewrite Hq. clear Hq.
  assert (f = 0 \/ f = 1 \/ f = 2 \/ f = 3) as [->|[->|[->| ->]]] by lia; destruct b; vm_compute; done.
Qed.

Lemma rebuilt_packet_ok c P b g seqno p : P = payloadSize c -> source_packet P p -> holds P g [p] ->
  exists q, rebuilt_packet c b g seqno = Some q /\ carries c b seqno p q.
Proof.
  intros EP Hp Hg. destruct (holds_one P g p Hp Hg) as (E1 & E2 & E3 & E4). pose proof (s_len _ _ Hp). unfold rebuilt_packet. rewrite E1.
  rewrite Z.gtb_ltb, (proj2 (Z.ltb_ge _ _)) by lia. eexists. split; [done|]. rewrite E2, E3, E4.
  match goal with |- carries _ _ _ _ ?q => destruct (rebuilt_fields p q _ b (crypto_flags_bound p) eq_refl eq_refl) as (F1 & F2 & F3 & F4 & F5) end.
  split; try done. unfold getMsgTimeStamp. cbn [SRT_PH_TIMESTAMP]. change 0xFFFFFFFF with (Z.ones 32). by rewrite !Z.land_ones, Zmod_mod by lia.
Qed.

(** A rebuilt packet is clipped into the crossing group like the original. *)
Lemma ClipRebuiltPacket_carries c b seqno p q g : carries c b seqno p q -> ClipRebuiltPacket q g = ClipPacket p g.
Proof.
  intros []. unfold ClipRebuiltPacket, ClipPacket, getLength. change (Bits.unwrap 28 27 (SRT_PH_MSGNO q)) with (getMsgCryptoFlags q).
  rewrite r_data0, r_flags0, r_time'0. done.
Qed.

Definition clip_all (l : list t) (g : Group) : Group := foldl (fun g p => ClipPacket p g) g l.

Lemma clip_all_holds P l g ps : holds P g ps -> holds P (clip_all l g) (l ++ ps).
Proof. intros H. eapply holds_perm; [|by apply holds_ClipPackets]. apply Permutation_app_tail. symmetry. apply Permutation_rev. Qed.

Lemma ConfigureGroup_holds c P seqno gstep gdrop : P = payloadSize c -> 0 <= P -> holds P (ConfigureGroup c seqno gstep gdrop) [].
Proof. intros -> H. apply holds_none. lia. Qed.

Lemma clip_configured c P l seqno gstep gdrop : P = payloadSize c -> 0 <= P -> holds P (clip_all l (ConfigureGroup c seqno gstep gdrop)) l.
Proof. intros HP H. rewrite <- (app_nil_r l) at 2. by apply clip_all_holds, ConfigureGroup_holds. Qed.

(** C15. One packet of a group may be lost: the sender clips all packets of a
    group and makes the control packet; the receiver clips all of them but [p]
    and the control packet, in any order.  The packet that it rebuilds then
    is [p]: it has the payload of [p], its length, its timestamp and its key
    flags, the number asked for, and it is a single message marked as sent
    again. *)
Theorem fec_group_recovers (c : config) (all l1 l2 : list t) (p pkt : t) (b1 s1 d1 b2 s2 d2 index seq seqno : Z) (order : bool)
  (Hall : all ≡ₚ p :: l1 ++ l2) (Hp : source_packet (payloadSize c) p) :
  let ctl := PackControl (clip_all all (ConfigureGroup c b1 s1 d1)) index pkt seq in
  let received := clip_all l2 (ClipControlPacket ctl (clip_all l1 (ConfigureGroup c b2 s2 d2))) in
  exists q, rebuilt_packet c order received seqno = Some q /\ carries c order seqno p q.
Proof.
  intros ctl received. set (P := payloadSize c) in *. pose proof (s_len _ _ Hp). pose proof (getLength_nonneg p).
  assert (Hr : holds P received (l2 ++ (l1 ++ all))).
  { apply clip_all_holds, holds_ClipControlPacket.
    - apply clip_configured; [done|lia].
    - apply control_of_PackControl, clip_configured; [done|lia]. }
  rewrite app_assoc in Hr. apply (rebuilt_packet_ok c P); [done|done|]. apply (holds_missing P _ (l2 ++ l1) all); [done|].
  by rewrite Hall, (Permutation_app_comm l1).
Qed.

(** Three packets, the second one lost. *)
Definition example_fec : config := mkConfig 3 1 SRT_ARQ_ONREQ false true 6 100 77.
Definition example_packet (seqno ts : Z) (d : list Z) : t := mk seqno (Z.lor (Bits.wrap 31 30 PB_SOLO) 5) ts 5 d.
Definition example_row : list t :=
  [example_packet 10 1000 [1; 2; 3]; example_packet 11 1050 [200; 255]; example_packet 12 1100 [9; 8; 7; 6; 5; 4]].

Lemma fec_group_recovers_witness :
  exists q, rebuilt_packet example_fec false (clip_all [example_packet 10 1000 [1; 2; 3]]
    (ClipControlPacket (PackControl (clip_all example_row (ConfigureGroup example_fec 10 1 3)) (-1) (mk 0 0 0 0 []) 12)
      (clip_all [example_packet 12 1100 [9; 8; 7; 6; 5; 4]] (ConfigureGroup example_fec 10 1 3)))) 11 = Some q /\
    m_pcData q = [200; 255] /\ SRT_PH_TIMESTAMP q = 1050.
Proof.
  destruct (fec_group_recovers example_fec example_row [example_packet 12 1100 [9; 8; 7; 6; 5; 4]] [example_packet 10 1000 [1; 2; 3]]
    (example_packet 11 1050 [200; 255]) (mk 0 0 0 0 []) 10 1 3 10 1 3 (-1) 12 11 false) as (q & E & Hq).
  - unfold example_row. rewrite Permutation_swap. apply perm_skip. apply Permutation_swap.
  - split; vm_compute; first [reflexivity|discriminate|split; first [reflexivity|discriminate]].
  - exists q. split; [exact E|]. split; [rewrite (r_data _ _ _ _ _ Hq)|rewrite (r_time' _ _ _ _ _ Hq)]; reflexivity.
Defined.
