(* ===== verification/FecSend.v ===== *)
(** The sender's side of the forward error correction: [FECFilterBuiltin] of
    fec.cpp as it feeds on the packets being sent and makes a control packet
    of every complete row and column, and [PacketFilter::packControlPacket] of
    packetfilter.cpp. *)
From S2P Require Import Prelude Packet SeqNo FecGroup.
Import CPacket CSeqNo FECFilterBuiltin.

Module FecSender.
(** The struct [Send]. *)
Record Send := mkSend { row : Group; cols : list Group }.

Definition set_row (g : Group) (st : Send) : Send := mkSend g (cols st).
Definition set_col (i : Z) (g : Group) (st : Send) : Send := mkSend (row st) ((cols st).[i <- g]).

(** [ConfigureColumns]: the columns that it adds to the container. *)
Fixpoint even_columns (c : config) (n : nat) (seqno : Z) : list Group :=
  match n with
  | O => []
  | S n => ConfigureGroup c seqno (sizeRow c) (sizeCol c * numberCols c) :: even_columns c n (incseq seqno)
  end.

Fixpoint staircase_columns (c : config) (n : nat) (isn col offset : Z) : list Group :=
  match n with
  | O => []
  | S n =>
      ConfigureGroup c (incseq_by isn offset) (sizeRow c) (sizeCol c * numberCols c) ::
      staircase_columns c n isn (col + 1)
        (if col mod numberRows c =? numberRows c - 1 then col + 1 else offset + (1 + sizeRow c))
  end.

Definition ConfigureColumns (c : config) (isn : Z) : list Group :=
  if m_arrangement_staircase c then staircase_columns c (Z.to_nat (numberCols c)) isn 0 0
  else even_columns c (Z.to_nat (numberCols c)) isn.

(** The constructor, the sender's part. *)
Definition init (c : config) (sndISN : Z) : Send :=
  let snd_isn := incseq sndISN in
  mkSend (ConfigureGroup c snd_isn 1 (sizeRow c)) (if sizeCol c >? 1 then ConfigureColumns c snd_isn else []).

Definition CheckGroupClose (g : Group) (pos size : Z) : Group := if u64 pos <? size then g else ResetGroup g.

Definition feedSource (c : config) (packet : t) (st : Send) : Send :=
  let base_ := base (row st) in
  let baseoff := seqoff base_ (getSeqNo packet) in
  let st := set_row (add_collected (ClipPacket packet (CheckGroupClose (row st) baseoff (sizeRow c)))) st in
  if sizeCol c <? 2 then st else
  let vert_gx := u64 baseoff mod sizeRow c in
  let vert_base := base ((cols st).[vert_gx]) in
  let vert_off := seqoff vert_base (getSeqNo packet) in
  if vert_off >=? 0 then
    if negb (vert_off mod sizeRow c =? 0) then st else
    let vert_pos := vert_off / sizeRow c in
    set_col vert_gx (add_collected (ClipPacket packet (CheckGroupClose ((cols st).[vert_gx]) vert_pos (sizeCol c)))) st
  else st.

(** [packControlPacket]; the packet [rpkt] is filled in when the result is
    true. *)
Definition packControlPacket (c : config) (rpkt : t) (seq : Z) (st : Send) : Send * t * bool :=
  let horizontal :=
    if collected (row st) >=? m_number_cols c then
      let rpkt := if m_cols_only c then rpkt else PackControl (row st) (-1) rpkt seq in
      (set_row (ResetGroup (row st)) st, rpkt, negb (m_cols_only c))
    else (st, rpkt, false) in
  if m_number_rows c <=? 1 then horizontal else
  let offset_to_row_base := seqoff (base (row st)) seq in
  let vert_gx := Z.rem (offset_to_row_base + m_number_cols c) (m_number_cols c) in
  if offset_to_row_base <? 0 then horizontal
  else if collected ((cols st).[vert_gx]) >=? m_number_rows c then
    (set_col vert_gx (ResetGroup ((cols st).[vert_gx])) st, PackControl ((cols st).[vert_gx]) vert_gx rpkt seq, true)
  else horizontal.
End FecSender.

Module PacketFilterSend.
Import FecSender.
(** [PacketFilter::packControlPacket] with its member [m_sndctlpkt]; the
    packet to be sent is the third component. *)
Definition packControlPacket (c : config) (m_sndctlpkt : t) (seq kflg : Z) (st : Send) : Send * t * option t :=
  let '(st, m_sndctlpkt, have) := FecSender.packControlPacket c m_sndctlpkt seq st in
  if have : bool then
    (st, m_sndctlpkt, Some (setMsgCryptoFlags kflg (set_msgflags (Bits.wrap 31 30 PB_SOLO) m_sndctlpkt)))
  else (st, m_sndctlpkt, None).
End PacketFilterSend.
Import FecSender.

(** ** The columns' places *)

Section Sender.
Context (c : config) (a : Z) (f : Z -> t).
Notation N := (m_number_cols c).
Notation M := (m_number_rows c).

(** How many packets behind the start column [g] begins. *)
Definition column_offset (g : Z) : Z := if m_arrangement_staircase c then g + N * (g mod M) else g.

Definition configured : Prop := 1 < N /\ 0 < M /\ 4 * (M + 1) * N < m_iSeqNoTH /\ 0 <= payloadSize c.

Lemma even_columns_lookup n s i : (i < n)%nat ->
  even_columns c n (seq_of s) !! i = Some (ConfigureGroup c (seq_of (s + Z.of_nat i)) N (M * N)).
Proof.
  revert s i. induction n as [|n IH]; intros s [|i] Hi; [lia..| |]; cbn [even_columns lookup list_lookup].
  - by rewrite Z.add_0_r.
  - rewrite incseq_seq_of, IH by lia. do 3 f_equal. lia.
Qed.

Lemma staircase_lookup n col off i : configured -> 0 <= col -> off = col + N * (col mod M) -> (i < n)%nat -> col + Z.of_nat n <= N ->
  let g := col + Z.of_nat i in
  staircase_columns c n (seq_of a) col off !! i = Some (ConfigureGroup c (seq_of (a + (g + N * (g mod M)))) N (M * N)).
Proof.
  intros Hc. pose proof Hc as (HN & HM & Hb & _). revert col off i. induction n as [|n IH]; intros col off [|i] Hcol Hoff Hi Hn g; [lia..| |];
    cbn [staircase_columns lookup list_lookup].
  - assert (0 <= col mod M < M) by (apply Z.mod_pos_bound; lia). subst g. rewrite Z.add_0_r, <- Hoff.
    rewrite incseq_by_seq_of; [done|]. unfold m_iSeqNoTH in Hb. nia.
  - rewrite (IH (col + 1)); [| lia| |lia|lia].
    + subst g. by replace (col + 1 + Z.of_nat i) with (col + Z.of_nat (S i)) by lia.
    + unfold numberRows, sizeRow. pose proof (Z.div_mod col M ltac:(lia)) as Hd. pose proof (Z.mod_pos_bound col M ltac:(lia)).
      destruct (Z.eqb_spec (col mod M) (M - 1)) as [E|E].
      * assert ((col + 1) mod M = 0) as -> by (symmetry; apply (Z.mod_unique _ _ (col / M + 1)); lia). lia.
      * assert ((col + 1) mod M = col mod M + 1) as -> by (symmetry; apply (Z.mod_unique _ _ (col / M)); lia). lia.
Qed.

Lemma columns_lookup g : configured -> 0 <= g < N ->
  (ConfigureColumns c (seq_of a)).[g] = ConfigureGroup c (seq_of (a + column_offset g)) N (M * N).
Proof.
  intros Hc Hg. unfold ConfigureColumns, column_offset, aget. rewrite (proj2 (Z.ltb_ge _ _)) by lia. apply list_lookup_total_correct.
  destruct (m_arrangement_staircase c).
  - rewrite (staircase_lookup _ 0 0 (Z.to_nat g) Hc); unfold numberCols; try lia; [|by rewrite Zmod_0_l; lia]. by rewrite Z.add_0_l, Z2Nat.id by lia.
  - rewrite even_columns_lookup by (unfold numberCols; lia). by rewrite Z2Nat.id by lia.
Qed.

Lemma length_columns isn : length (ConfigureColumns c isn) = Z.to_nat N.
Proof.
  unfold ConfigureColumns, numberCols. destruct (m_arrangement_staircase c).
  - generalize 0 at 1 as col. generalize 0 as off. induction (Z.to_nat N) as [|n IH]; intros off col; cbn; auto.
  - revert isn. induction (Z.to_nat N) as [|n IH]; intros isn; cbn; auto.
Qed.

Lemma column_offset_bound g : configured -> 0 <= g < N -> 0 <= column_offset g < (M + 1) * N /\ column_offset g mod N = g.
Proof.
  intros (HN & HM & _) Hg. unfold column_offset. destruct (m_arrangement_staircase c).
  - pose proof (Z.mod_pos_bound g M ltac:(lia)). split; [nia|]. rewrite Z.mul_comm, Z_mod_plus_full. apply Z.mod_small. lia.
  - split; [nia|]. apply Z.mod_small. lia.
Qed.

(** ** Sending a stream *)

(** The worker asks for control packets until there is none, before it sends
    the next packet ([CUDT::packData]). *)
Fixpoint drain (fuel : nat) (kflg : Z) (ctl : t) (seq : Z) (st : Send) : option (Send * t * list t) :=
  match fuel with
  | O => None
  | S fuel =>
      match PacketFilterSend.packControlPacket c ctl seq kflg st with
      | (st, ctl, None) => Some (st, ctl, [])
      | (st, ctl, Some w) => '(st, ctl, ws) ← drain fuel kflg ctl seq st; Some (st, ctl, w :: ws)
      end
  end.

(** The control packets behind each packet. *)
Fixpoint send_stream (kflg : Z) (ctl : t) (pkts : list t) (st : Send) : option (Send * t * list (list t)) :=
  match pkts with
  | [] => Some (st, ctl, [])
  | p :: pkts =>
      '(st, ctl, ws) ← drain 3 kflg ctl (getSeqNo p) (feedSource c p st);
      '(st, ctl, outs) ← send_stream kflg ctl pkts st;
      Some (st, ctl, ws :: outs)
  end.

(** The packets [n] of a group that begins at [b], [step] apart. *)
Definition group_packets (b step : Z) (n : nat) : list t := map (fun i => f (b + Z.of_nat i * step)) (seq 0 n).

Lemma group_packets_S b step n : group_packets b step (S n) = group_packets b step n ++ [f (b + Z.of_nat n * step)].
Proof. unfold group_packets. by rewrite seq_S, map_app. Qed.

Definition row_due (k : Z) : bool := negb (m_cols_only c) && (k mod N =? N - 1).
Definition col_due (k : Z) : bool :=
  (1 <? M) && (column_offset (k mod N) <=? k) && (((k - column_offset (k mod N)) / N) mod M =? M - 1).

(** A control packet over [ps], sent behind packet [k]. *)
Record is_control (index : Z) (ps : list t) (k : Z) (w : t) : Prop := {
  ic_clip : control_of (payloadSize c) ps w;
  ic_index : (m_pcData w).[0] = u8 index;
  ic_msgno : getMsgSeq true w = 0;
  ic_seqno : SRT_PH_SEQNO w = seq_of (a + k)
}.

(** What is sent behind packet [k]: the control packet of the column that
    ends with it, and that of the row. *)
Definition controls_of (k : Z) (ws : list t) : Prop :=
  exists w1 w2 : list t, ws = w1 ++ w2 /\
    (if col_due k then exists w : t, w1 = [w] /\ is_control (k mod N) (group_packets (k - (M - 1) * N) N (Z.to_nat M)) k w
     else w1 = []) /\
    (if row_due k then exists w : t, w2 = [w] /\ is_control (-1) (group_packets (k - (N - 1)) 1 (Z.to_nat N)) k w else w2 = []).

Record row_at (k : Z) (g : Group) : Prop := {
  ra_base : base g = seq_of (a + N * (k / N));
  ra_drop : drop g = N;
  ra_collected : collected g = k mod N;
  ra_holds : holds (payloadSize c) g (group_packets (N * (k / N)) 1 (Z.to_nat (k mod N)))
}.

(** The column has [j] packets of its series [s]. *)
Record col_at (k gx s j : Z) (g : Group) : Prop := {
  ca_base : base g = seq_of (a + (column_offset gx + s * (M * N)));
  ca_drop : drop g = M * N;
  ca_collected : collected g = j;
  ca_j : 0 <= s /\ 0 <= j;
  ca_next : k <= column_offset gx + s * (M * N) + j * N <= k + (M + 1) * N;
  ca_series : s = 0 \/ column_offset gx + s * (M * N) + j * N < k + N;
  ca_last : j = 0 \/ column_offset gx + s * (M * N) + (j - 1) * N < k;
  ca_holds : holds (payloadSize c) g (group_packets (column_offset gx + s * (M * N)) N (Z.to_nat j))
}.

Record snd_at (k : Z) (st : Send) : Prop := {
  sa_row : row_at k (row st);
  sa_cols : 1 < M -> zlen (cols st) = N /\ forall gx, 0 <= gx < N -> exists s j, j < M /\ col_at k gx s j ((cols st).[gx])
}.

Lemma holds_more g ps p : holds (payloadSize c) g ps -> holds (payloadSize c) (add_collected (ClipPacket p g)) (ps ++ [p]).
Proof.
  intros H. eapply holds_perm; [apply Permutation_cons_append|]. apply (holds_ext _ (ClipPacket p g)); try done. by apply holds_ClipPacket.
Qed.

Lemma holds_reset g ps : holds (payloadSize c) g ps -> holds (payloadSize c) (ResetGroup g) [].
Proof. intros H. apply holds_none. symmetry. apply (h_size _ _ _ H). Qed.

Lemma init_at isn : configured -> a = isn + 1 -> snd_at 0 (init c (seq_of isn)).
Proof.
  intros Hc Ha. pose proof Hc as (HN & HM & Hb & HP). unfold init. rewrite incseq_seq_of, <- Ha.
  assert (Hz : holds (payloadSize c) (ConfigureGroup c (seq_of a) 1 (sizeRow c)) []) by (by apply ConfigureGroup_holds).
  split; cbn [row cols].
  - split; rewrite ?Zdiv_0_l, ?Zmod_0_l, ?Z.mul_0_r, ?Z.add_0_r; done.
  - intros HM1. rewrite Z.gtb_ltb. unfold sizeCol. rewrite (proj2 (Z.ltb_lt _ _)) by lia. rewrite length_columns. split; [lia|].
    intros gx Hg. exists 0, 0. split; [lia|]. rewrite columns_lookup by done. pose proof (column_offset_bound gx Hc Hg) as [Ho _].
    split; try done; try lia; rewrite Z.mul_0_l, ?Z.add_0_r; [done|by apply ConfigureGroup_holds].
Qed.

Context (Hc : configured) (Hf : forall k, 0 <= k -> getSeqNo (f k) = seq_of (a + k)).

Lemma row_bounds k : 0 <= k -> 0 <= k mod N < N /\ k = N * (k / N) + k mod N /\ 0 <= k / N.
Proof.
  intros Hk. destruct Hc as (HN & _). pose proof (Z.mod_pos_bound k N ltac:(lia)). pose proof (Z.div_mod k N ltac:(lia)).
  pose proof (Z.div_pos k N Hk ltac:(lia)). lia.
Qed.

Lemma u64_small x : 0 <= x < 2 ^ 63 -> u64 x = x.
Proof. intros Hx. apply Z.mod_small. lia. Qed.

(** [feedSource] on the row. *)
Lemma feed_row k g : 0 <= k -> row_at k g ->
  let off := seqoff (base g) (getSeqNo (f k)) in
  let g' := add_collected (ClipPacket (f k) (CheckGroupClose g off (sizeRow c))) in
  off = k mod N /\ base g' = base g /\ drop g' = N /\ collected g' = k mod N + 1 /\
  holds (payloadSize c) g' (group_packets (N * (k / N)) 1 (Z.to_nat (k mod N + 1))).
Proof.
  intros Hk [H1 H2 H3 H4] off g'. destruct (row_bounds k Hk) as (B1 & B2 & B3). destruct Hc as (HN & HM & Hb & HP).
  assert (Eo : off = k mod N).
  { subst off. rewrite H1, Hf by done. rewrite seqoff_seq_of; unfold m_iSeqNoTH in *; [lia|nia]. }
  split; [done|]. subst g'. rewrite Eo. unfold CheckGroupClose. unfold m_iSeqNoTH in Hb. rewrite u64_small by nia.
  unfold sizeRow. rewrite (proj2 (Z.ltb_lt _ _)) by lia. cbn [base drop collected add_collected ClipPacket ClipData].
  split; [done|]. split; [done|]. split; [lia|]. rewrite Z2Nat.inj_add, Nat.add_1_r, group_packets_S by lia.
  replace (N * (k / N) + Z.of_nat (Z.to_nat (k mod N)) * 1) with k by lia. by apply holds_more.
Qed.

(** The column of packet [k], fed on it where it takes it. *)
Definition column_fed (k : Z) (st : Send) : Group :=
  let g := (cols st).[k mod N] in
  if base g =? seq_of (a + k) then add_collected (ClipPacket (f k) g) else
  if seqoff (base g) (seq_of (a + k)) >=? 0 then add_collected (ClipPacket (f k) g) else g.

Lemma same_column k gx s j : 0 <= gx < N -> k mod N = gx -> exists q, k - (column_offset gx + s * (M * N) + j * N) = q * N.
Proof.
  intros Hg Hk. destruct (column_offset_bound gx Hc Hg) as [_ Ho]. destruct Hc as (HN & _).
  pose proof (Z.div_mod k N ltac:(lia)). pose proof (Z.div_mod (column_offset gx) N ltac:(lia)).
  exists (k / N - column_offset gx / N - s * M - j). nia.
Qed.

(** [feedSource] on the column, which then has the packets before [k + 1], and
    is full when a control packet is due. *)
Lemma feed_col k s j g : 0 <= k -> 1 < M -> j < M -> col_at k (k mod N) s j g ->
  let off := seqoff (base g) (getSeqNo (f k)) in
  exists j', col_at (k + 1) (k mod N) s j' (if off >=? 0 then add_collected (ClipPacket (f k) (CheckGroupClose g (off / N) M)) else g) /\
    (0 <= off -> off mod N = 0) /\ j' <= M /\ (j' =? M) = col_due k /\
    (j' = M -> column_offset (k mod N) + s * (M * N) = k - (M - 1) * N).
Proof.
  intros Hk HM1 HjM Hcol off. pose proof Hc as (HN & _ & Hb & _). destruct (row_bounds k Hk) as (Bk & _ & _).
  destruct (column_offset_bound (k mod N) Hc Bk) as [Ho Ho']. destruct (same_column k (k mod N) s j Bk eq_refl) as [q Hq].
  pose proof Hcol as [C1 C2 C3 C4 C5 C8 C6 C7]. set (o := column_offset (k mod N)) in *. set (b := o + s * (M * N)) in *.
  assert (Eo : off = k - b).
  { subst off. rewrite C1, Hf by done. rewrite seqoff_seq_of; unfold m_iSeqNoTH in *; [lia|]. destruct C6 as [->|C6]; nia. }
  assert (Hdue : forall i, k = b + i * N -> 0 <= i < M -> col_due k = (i =? M - 1)).
  { intros i Ei Hi. unfold col_due. fold o. rewrite (proj2 (Z.ltb_lt 1 M)), (proj2 (Z.leb_le o k)) by nia. cbn [andb].
    replace (k - o) with ((i + s * M) * N) by nia. by rewrite Z.div_mul, Z_mod_plus_full, (Z.mod_small i) by lia. }
  rewrite Z.geb_leb. destruct (Z.leb_spec 0 off) as [H0|H0].
  - assert (E : k = b + j * N).
    { destruct C6 as [->|C6]; [lia|]. assert (-1 < q) by (apply (Z.mul_lt_mono_pos_r N); lia).
      assert (q < 1) by (apply (Z.mul_lt_mono_pos_r N); lia). assert (q = 0) by lia. subst q. lia. }
    assert (Ej : off = j * N) by lia. rewrite Ej.
    rewrite Z.div_mul, Z_mod_mult by lia. exists (j + 1). unfold CheckGroupClose. unfold m_iSeqNoTH in Hb.
    rewrite u64_small, (proj2 (Z.ltb_lt j M)) by nia. split; [|split; [done|split; [lia|split; [rewrite (Hdue j) by lia; bdestr|nia]]]].
    split; cbn [base drop collected add_collected ClipPacket ClipData]; fold o b; try done; try lia.
    rewrite Z2Nat.inj_add, Nat.add_1_r, group_packets_S by lia.
    replace (b + Z.of_nat (Z.to_nat j) * N) with k by lia. by apply holds_more.
  - assert (Hj : j = 0) by (destruct C6 as [Hj|C6]; [done|nia]). rewrite Hj in C3, C4, C5, C6, C7, C8, Hq. exists 0. split; [|split; [lia|split; [lia|]]].
    + split; fold o b; try done; lia.
    + rewrite (proj2 (Z.eqb_neq 0 M)) by lia. split; [|lia]. assert (s = 0).
      { destruct C8 as [->|C8]; [done|]. assert (-1 < q) by (apply (Z.mul_lt_mono_pos_r N); lia). nia. }
      unfold col_due. fold o. by rewrite (proj2 (Z.leb_gt o k)), andb_false_r by lia.
Qed.

(** The other columns do not change. *)
Lemma col_other k gx s j g : 0 <= gx < N -> k mod N <> gx -> col_at k gx s j g -> col_at (k + 1) gx s j g.
Proof.
  intros Hg Hne [C1 C2 C3 C4 C5 C6 C7 C8]. destruct (column_offset_bound gx Hc Hg) as [_ Ho]. pose proof Hc as (HN & _).
  assert (k <> column_offset gx + s * (M * N) + j * N).
  { intros E. apply Hne. rewrite E. replace (column_offset gx + s * (M * N) + j * N) with (column_offset gx + (s * M + j) * N) by lia.
    by rewrite Z_mod_plus_full. }
  split; try done; lia.
Qed.

(** A row that has all packets up to [k]. *)
Record row_fed (k : Z) (g : Group) : Prop := {
  rf_base : base g = seq_of (a + N * (k / N));
  rf_drop : drop g = N;
  rf_collected : collected g = k mod N + 1;
  rf_holds : holds (payloadSize c) g (group_packets (N * (k / N)) 1 (Z.to_nat (k mod N + 1)))
}.

Record fed (k : Z) (st : Send) : Prop := {
  fd_row : row_fed k (row st);
  fd_cols : 1 < M -> zlen (cols st) = N /\
    (forall gx, 0 <= gx < N -> gx <> k mod N -> exists s j, j < M /\ col_at (k + 1) gx s j ((cols st).[gx])) /\
    exists s j, col_at (k + 1) (k mod N) s j ((cols st).[k mod N]) /\ j <= M /\ (j =? M) = col_due k /\
      (j = M -> column_offset (k mod N) + s * (M * N) = k - (M - 1) * N)
}.

Lemma feedSource_ok k st : 0 <= k -> snd_at k st -> fed k (feedSource c (f k) st).
Proof.
  intros Hk [Hrow Hcols]. destruct (feed_row k (row st) Hk Hrow) as (Eo & R1 & R2 & R3 & R4). destruct (row_bounds k Hk) as (Bk & _ & _).
  pose proof Hc as (HN & _ & Hb & _). unfold feedSource. rewrite Eo in *. set (r := add_collected _) in *.
  assert (Hr : row_fed k r) by (split; try done; rewrite R1; apply (ra_base _ _ Hrow)). unfold sizeCol.
  destruct (Z.ltb_spec M 2) as [HM|HM]; [split; [done|lia]|]. destruct (Hcols ltac:(lia)) as (Hlen & Hall).
  unfold m_iSeqNoTH in Hb. rewrite u64_small by nia. unfold sizeRow. rewrite (Z.mod_small (k mod N) N) by lia. cbn [set_row cols].
  destruct (Hall (k mod N) Bk) as (s & j & Hj & Hcol). destruct (feed_col k s j _ Hk ltac:(lia) Hj Hcol) as (j' & Hcol' & Hdiv & Hj' & Hdue & Hend).
  set (off := seqoff (base ((cols st).[k mod N])) (getSeqNo (f k))) in *.
  assert (Hothers : forall gx, 0 <= gx < N -> gx <> k mod N -> exists s j, j < M /\ col_at (k + 1) gx s j ((cols st).[gx])).
  { intros gx Hg Hne. destruct (Hall gx Hg) as (s1 & j1 & Hj1 & H1). exists s1, j1. split; [done|]. by apply col_other; [|congruence|]. }
  rewrite Z.geb_leb in Hcol' |- *. destruct (Z.leb_spec 0 off) as [H0|H0].
  - rewrite (proj2 (Z.eqb_eq _ _) (Hdiv H0)). cbn [negb]. split; [done|]. intros _. cbn [set_col set_row cols row]. split; [by arr|].
    split; [|exists s, j'; by arr]. intros gx Hg Hne. rewrite aget_aset_ne by done. by apply Hothers.
  - split; [done|]. intros _. cbn [set_row cols]. split; [done|]. split; [done|]. by exists s, j'.
Qed.

(** ** Draining *)

Lemma wrapped_control g ps index ctl kflg k : holds (payloadSize c) g ps ->
  is_control index ps k (setMsgCryptoFlags kflg (set_msgflags (Bits.wrap 31 30 PB_SOLO) (PackControl g index ctl (seq_of (a + k))))).
Proof.
  intros H. split; try done.
  - eapply control_of_ext; [| |by apply (control_of_PackControl _ g ps index ctl (seq_of (a + k)))]; done.
  - unfold getMsgSeq. change (SRT_PH_MSGNO (setMsgCryptoFlags kflg ?p)) with (replace_bits 28 27 kflg (SRT_PH_MSGNO p)).
    by rewrite replace_bits_other by lia.
Qed.

(** The call that finds no column to send. *)
Lemma pack_horizontal ctl seq st : (1 < M -> 0 <= seqoff (base (row st)) seq ->
    collected ((cols st).[Z.rem (seqoff (base (row st)) seq + N) N]) < M) ->
  FecSender.packControlPacket c ctl seq st =
    if collected (row st) >=? N then
      (set_row (ResetGroup (row st)) st, (if m_cols_only c then ctl else PackControl (row st) (-1) ctl seq), negb (m_cols_only c))
    else (st, ctl, false).
Proof.
  intros H. unfold FecSender.packControlPacket. destruct (Z.leb_spec M 1); [done|]. destruct (Z.ltb_spec (seqoff (base (row st)) seq) 0); [done|].
  rewrite (Z.geb_leb (collected _) M), (proj2 (Z.leb_gt _ _)) by (apply H; lia). done.
Qed.

Lemma row_next k st : 0 <= k -> row_fed k (row st) -> k mod N <> N - 1 -> row_at (k + 1) (row st).
Proof.
  intros Hk [R1 R2 R3 R4] Hne. destruct (row_bounds k Hk) as (B1 & B2 & _).
  assert (E : (k + 1) / N = k / N) by (symmetry; apply (Z.div_unique _ _ _ (k mod N + 1)); lia).
  assert (E' : (k + 1) mod N = k mod N + 1) by (symmetry; apply (Z.mod_unique _ _ (k / N)); lia).
  split; rewrite ?E, ?E'; done.
Qed.

Lemma row_closed k g : 0 <= k -> row_fed k g -> k mod N = N - 1 -> row_at (k + 1) (ResetGroup g).
Proof.
  intros Hk [R1 R2 R3 R4] Hend. destruct (row_bounds k Hk) as (B1 & B2 & B3). pose proof Hc as (HN & HM & Hb & _). unfold m_iSeqNoTH in Hb.
  assert (E : (k + 1) / N = k / N + 1) by (symmetry; apply (Z.div_unique _ _ _ 0); lia).
  assert (E' : (k + 1) mod N = 0) by (symmetry; apply (Z.mod_unique _ _ (k / N + 1)); lia).
  split; rewrite ?E, ?E'; cbn [ResetGroup base drop collected]; try done.
  - rewrite R1, R2, incseq_by_seq_of by nia. f_equal. lia.
  - by eapply holds_reset.
Qed.

Lemma col_closed k gx s g : 1 < M -> 0 <= k -> 0 <= gx < N -> col_at (k + 1) gx s M g -> column_offset gx + s * (M * N) = k - (M - 1) * N ->
  col_at (k + 1) gx (s + 1) 0 (ResetGroup g).
Proof.
  intros HM1 Hk Hg [C1 C2 C3 C4 C5 C6 C7 C8] E. pose proof Hc as (HN & HM & Hb & _). unfold m_iSeqNoTH in Hb.
  split; cbn [ResetGroup base drop collected]; try done; try nia; try lia.
  - rewrite C1, C2, incseq_by_seq_of by nia. f_equal. lia.
  - by eapply holds_reset.
Qed.

Lemma row_offset k st : 0 <= k -> base (row st) = seq_of (a + N * (k / N)) -> seqoff (base (row st)) (seq_of (a + k)) = k mod N.
Proof.
  intros Hk ->. destruct (row_bounds k Hk) as (B1 & B2 & B3). pose proof Hc as (HN & HM & Hb & _).
  rewrite seqoff_seq_of; unfold m_iSeqNoTH in *; [lia|nia].
Qed.

Definition cols_at (k : Z) (st : Send) : Prop :=
  1 < M -> zlen (cols st) = N /\ forall gx, 0 <= gx < N -> exists s j, j < M /\ col_at k gx s j ((cols st).[gx]).

(** The row's control packet, when no column is due. *)
Lemma drain_row k kflg ctl st n : 0 <= k -> row_fed k (row st) -> cols_at (k + 1) st ->
  exists st' ctl' ws, drain (S (S n)) kflg ctl (seq_of (a + k)) st = Some (st', ctl', ws) /\ snd_at (k + 1) st' /\
    if row_due k then exists w, ws = [w] /\ is_control (-1) (group_packets (k - (N - 1)) 1 (Z.to_nat N)) k w else ws = [].
Proof.
  intros Hk Hrow Hcols. pose proof Hc as (HN & HM & Hb & _). destruct (row_bounds k Hk) as (B1 & B2 & B3).
  pose proof (row_offset k st Hk (rf_base _ _ Hrow)) as Eo. cbn [drain]. unfold PacketFilterSend.packControlPacket.
  rewrite pack_horizontal.
  2: { intros HM1 _. rewrite Eo. destruct (Hcols HM1) as [_ Hall]. destruct (Hall (k mod N) B1) as (s & j & Hj & Hcol).
       rewrite Z.rem_mod_nonneg, Z.add_mod, Z_mod_same_full, Z.add_0_r, !Zmod_mod by lia. by rewrite (ca_collected _ _ _ _ _ Hcol). }
  rewrite (rf_collected _ _ Hrow), Z.geb_leb. unfold row_due. destruct (Z.leb_spec N (k mod N + 1)) as [Hend|Hend].
  - assert (Ek : k mod N = N - 1) by lia. rewrite (proj2 (Z.eqb_eq _ _) Ek), andb_true_r.
    assert (Hst : snd_at (k + 1) (set_row (ResetGroup (row st)) st)) by (split; [by apply row_closed|done]).
    destruct (m_cols_only c); cbn [negb]; [by exists (set_row (ResetGroup (row st)) st), ctl, []|].
    rewrite pack_horizontal.
    2: { intros _ Hoff. exfalso. revert Hoff. cbn [set_row row ResetGroup base]. rewrite (rf_base _ _ Hrow), (rf_drop _ _ Hrow).
         unfold m_iSeqNoTH in Hb. rewrite incseq_by_seq_of, seqoff_seq_of by (unfold m_iSeqNoTH; nia). lia. }
    cbn [set_row row collected ResetGroup]. rewrite Z.geb_leb, (proj2 (Z.leb_gt N 0)) by lia.
    eexists _, _, _. split; [reflexivity|]. split; [done|]. eexists. split; [reflexivity|]. apply wrapped_control.
    pose proof (rf_holds _ _ Hrow) as Hh. rewrite Ek in Hh, B2. replace (N * (k / N)) with (k - (N - 1)) in Hh by lia.
    by replace (N - 1 + 1) with N in Hh by lia.
  - rewrite (proj2 (Z.eqb_neq (k mod N) (N - 1))), andb_false_r by lia. exists st, ctl, []. split; [done|]. split; [|done].
    split; [apply row_next; [done..|lia]|done].
Qed.

Lemma drain_ok k kflg ctl st : 0 <= k -> fed k st ->
  exists st' ctl' ws, drain 3 kflg ctl (seq_of (a + k)) st = Some (st', ctl', ws) /\ snd_at (k + 1) st' /\ controls_of k ws.
Proof.
  intros Hk [Hrow Hcols]. pose proof Hc as (HN & HM & Hb & _). destruct (row_bounds k Hk) as (B1 & B2 & B3).
  destruct (col_due k) eqn:Ed.
  - assert (HM1 : 1 < M) by (unfold col_due in Ed; apply andb_true_iff in Ed as [Ed _]; apply andb_true_iff in Ed as [Ed _]; lia).
    destruct (Hcols HM1) as (Hlen & Hothers & s & j & Hcol & Hj & Hjd & Hend). apply Z.eqb_eq in Hjd. subst j. specialize (Hend eq_refl).
    change (drain 3 kflg ctl (seq_of (a + k)) st) with
      (match PacketFilterSend.packControlPacket c ctl (seq_of (a + k)) kflg st with
       | (st, ctl, None) => Some (st, ctl, [])
       | (st, ctl, Some w) => '(st, ctl, ws) ← drain 2 kflg ctl (seq_of (a + k)) st; Some (st, ctl, w :: ws)
       end).
    unfold PacketFilterSend.packControlPacket, FecSender.packControlPacket. rewrite (proj2 (Z.leb_gt M 1)) by lia.
    rewrite (row_offset k st Hk (rf_base _ _ Hrow)), (proj2 (Z.ltb_ge _ _)) by lia.
    rewrite Z.rem_mod_nonneg, Z.add_mod, Z_mod_same_full, Z.add_0_r, !Zmod_mod by lia.
    rewrite (ca_collected _ _ _ _ _ Hcol), Z.geb_leb, (proj2 (Z.leb_le M M)) by lia.
    set (st1 := set_col _ _ st). assert (Hcols1 : cols_at (k + 1) st1).
    { intros _. cbn [st1 set_col cols]. split; [by arr|]. intros gx Hg. destruct (Z.eq_dec gx (k mod N)) as [->|Hne].
      - exists (s + 1), 0. split; [lia|]. arr. by apply col_closed.
      - rewrite aget_aset_ne by done. by apply Hothers. }
    match goal with |- context [drain 2 kflg ?x _ st1] => destruct (drain_row k kflg x st1 0 Hk Hrow Hcols1) as (st' & ctl' & ws & E & Hst & Hws) end.
    rewrite E. cbn [mbind option_bind].
    eexists _, _, _. split; [reflexivity|]. split; [done|]. unfold controls_of. rewrite Ed.
    match goal with |- context [?w :: ws] => exists [w], ws end. split; [reflexivity|]. split; [|done]. eexists. split; [reflexivity|]. apply wrapped_control.
    pose proof (ca_holds _ _ _ _ _ Hcol) as Hh. by rewrite Hend in Hh.
  - destruct (drain_row k kflg ctl st 1 Hk Hrow) as (st' & ctl' & ws & E & Hst & Hws).
    + intros HM1. destruct (Hcols HM1) as (Hlen & Hothers & s & j & Hcol & Hj & Hjd & _). split; [done|]. intros gx Hg.
      destruct (Z.eq_dec gx (k mod N)) as [->|Hne]; [|by apply Hothers]. exists s, j. split; [|done]. apply Z.eqb_neq in Hjd. lia.
    + exists st', ctl', ws. split; [done|]. split; [done|]. exists [], ws. by rewrite Ed.
Qed.

Lemma send_stream_ok kflg n : forall k ctl st, 0 <= k -> snd_at k st ->
  exists st' ctl' outs, send_stream kflg ctl (group_packets k 1 n) st = Some (st', ctl', outs) /\ snd_at (k + Z.of_nat n) st' /\
    length outs = n /\ forall i ws, outs !! i = Some ws -> controls_of (k + Z.of_nat i) ws.
Proof.
  induction n as [|n IH]; intros k ctl st Hk Hst.
  - exists st, ctl, []. rewrite Z.add_0_r. done.
  - assert (E : group_packets k 1 (S n) = f k :: group_packets (k + 1) 1 n).
    { unfold group_packets. cbn [seq map]. f_equal; [f_equal; lia|]. rewrite <- seq_shift, map_map. apply map_ext. intros i. f_equal. lia. }
    rewrite E. cbn [send_stream]. rewrite Hf by done.
    destruct (drain_ok k kflg ctl _ Hk (feedSource_ok k st Hk Hst)) as (st1 & ctl1 & ws & -> & Hst1 & Hws). cbn [mbind option_bind].
    destruct (IH (k + 1) ctl1 st1 ltac:(lia) Hst1) as (st' & ctl' & outs & -> & Hst' & Hlen & Houts). cbn [mbind option_bind].
    eexists _, _, _. split; [reflexivity|]. split; [by replace (k + Z.of_nat (S n)) with (k + 1 + Z.of_nat n) by lia|]. split; [cbn; lia|].
    intros [|i] ws' Hi; cbn in Hi; [injection Hi as <-; by rewrite Z.add_0_r|]. replace (k + Z.of_nat (S i)) with (k + 1 + Z.of_nat i) by lia. by apply Houts.
Qed.
End Sender.

(** C14. The sender's filter, asked for control packets behind each packet of a
    stream until it has none, returns every time and makes exactly one control
    packet behind the last packet of every row, over the packets of that row,
    and one behind the last packet of every column, over the packets of that
    column (one in each row, in the staircase or in the even layout); a filter
    for columns only makes none for rows.  Each has the number of the packet it
    follows and the message number of a control packet.  This holds through
    any number of wraps of the sequence numbers. *)
Theorem fec_controls (c : config) (isn : Z) (f : Z -> t) (n : nat) (kflg : Z) (ctl : t) (Hc : configured c)
  (Hf : forall k, 0 <= k -> getSeqNo (f k) = seq_of (isn + 1 + k)) :
  exists st ctl' outs, send_stream c kflg ctl (group_packets f 0 1 n) (init c (seq_of isn)) = Some (st, ctl', outs) /\
    length outs = n /\ forall k ws, outs !! k = Some ws -> controls_of c (isn + 1) f (Z.of_nat k) ws.
Proof.
  destruct (send_stream_ok c (isn + 1) f Hc Hf kflg n 0 ctl (init c (seq_of isn)) ltac:(lia)) as (st & ctl' & outs & E & _ & Hlen & Hall).
  - by apply init_at.
  - by exists st, ctl', outs.
Qed.

(** Three columns of two packets, in staircase layout, across the wrap. *)
Definition example_matrix : config := mkConfig 3 2 SRT_ARQ_ONREQ false true 4 100 77.
Definition example_stream (k : Z) : t := example_packet (seq_of (0x7FFFFFFD + k)) (1000 + 50 * k) [k; 2 * k; 255].

Lemma fec_controls_witness :
  exists st ctl outs, send_stream example_matrix 0 (mk 0 0 0 0 []) (group_packets example_stream 0 1 11) (init example_matrix 0x7FFFFFFC) =
      Some (st, ctl, outs) /\ map length outs = [0; 0; 1; 1; 0; 2; 0; 1; 1; 1; 0]%nat.
Proof.
  destruct (fec_controls example_matrix 0x7FFFFFFC example_stream 11 0 (mk 0 0 0 0 [])) as (st & ctl & outs & E & _).
  - split; [reflexivity|]. split; [reflexivity|]. split; [reflexivity|discriminate].
  - intros k Hk. unfold example_stream, example_packet, getSeqNo. cbn [SRT_PH_SEQNO].
    pose proof (seq_of_valid (0x7FFFFFFC + 1 + k)) as Hv. unfold valid, m_iMaxSeqNo in Hv. apply i32_id. split; [|change (2 ^ 31) with 2147483648]; lia.
  - exists st, ctl, outs. split; [exact E|]. vm_compute in E. injection E as <- <- <-. reflexivity.
Defined.
