(* ===== verification/FecRecv.v ===== *)
(** The receiver's side of the forward error correction:
    [FECFilterBuiltin::receive] of fec.cpp with all it calls, and
    [PacketFilter::receive] of packetfilter.cpp.  A group that the code holds
    by reference is read where the reference is taken and written back.
    [RcvRebuild] calls itself and has fuel; [None] is the fuel used up. *)
From S2P Require Import Prelude Packet SeqNo FecGroup FecSend.
Import CPacket CSeqNo FECFilterBuiltin.

Module FecReceiver.
Definition SRT_FEC_MAX_RCV_HISTORY : Z := 10.
Definition SRT_MSGNO_CONTROL : Z := 0.

Record RcvGroup := mkRcvGroup { grp : Group; fec : bool; dismissed : bool }.
#[export] Instance RcvGroup_inhabited : Inhabited RcvGroup := populate (mkRcvGroup inhabitant false false).

Definition set_grp (g : Group) (r : RcvGroup) : RcvGroup := mkRcvGroup g (fec r) (dismissed r).
Definition set_fec (b : bool) (r : RcvGroup) : RcvGroup := mkRcvGroup (grp r) b (dismissed r).
Definition set_dismissed (b : bool) (r : RcvGroup) : RcvGroup := mkRcvGroup (grp r) (fec r) b.
Definition fresh (g : Group) : RcvGroup := mkRcvGroup g false false.

Record Receive := mkReceive {
  rowq : list RcvGroup;
  colq : list RcvGroup;
  cell_base : Z;
  cells : list bool;
  order_required : bool;
  rebuilt : list t;
}.

Definition set_rowq (q : list RcvGroup) (st : Receive) : Receive :=
  mkReceive q (colq st) (cell_base st) (cells st) (order_required st) (rebuilt st).
Definition set_colq (q : list RcvGroup) (st : Receive) : Receive :=
  mkReceive (rowq st) q (cell_base st) (cells st) (order_required st) (rebuilt st).
Definition set_cells (b : Z) (l : list bool) (st : Receive) : Receive :=
  mkReceive (rowq st) (colq st) b l (order_required st) (rebuilt st).
Definition set_order_required (b : bool) (st : Receive) : Receive :=
  mkReceive (rowq st) (colq st) (cell_base st) (cells st) b (rebuilt st).
Definition push_rebuilt (p : t) (st : Receive) : Receive :=
  mkReceive (rowq st) (colq st) (cell_base st) (cells st) (order_required st) (rebuilt st ++ [p]).
Definition put_row (i : Z) (g : RcvGroup) (st : Receive) : Receive := set_rowq ((rowq st).[i <- g]) st.
Definition put_col (i : Z) (g : RcvGroup) (st : Receive) : Receive := set_colq ((colq st).[i <- g]) st.

Inductive EHangStatus := HANG_NOTDONE | HANG_SUCCESS | HANG_PAST | HANG_CRAZY.
Inductive ECellReceived := CELL_RECEIVED | CELL_EXTEND | CELL_REMOVE.

Definition configure_columns (c : config) (isn : Z) : list RcvGroup := map fresh (FecSender.ConfigureColumns c isn).
Definition first_row (c : config) (seqno : Z) : RcvGroup := fresh (ConfigureGroup c seqno 1 (sizeRow c)).

(** The constructor, the receiver's part. *)
Definition init (c : config) (rcvISN : Z) : Receive :=
  let rcv_isn := incseq rcvISN in
  mkReceive [first_row c rcv_isn] (if sizeCol c >? 1 then configure_columns c rcv_isn else [])
    rcv_isn (replicate (Z.to_nat (sizeCol c * sizeRow c)) false) false [].

(** [Receive::CellAt]. *)
Definition CellAt (index : Z) (st : Receive) : Receive * bool :=
  if index >=? zlen (cells st) then
    (set_cells (cell_base st) (cells st ++ replicate (Z.to_nat (index + 1 - zlen (cells st))) false) st, false)
  else (st, (cells st).[index]).

Definition MarkCellReceived (seq : Z) (is_received : ECellReceived) (st : Receive) : Receive :=
  let cellsize := zlen (cells st) in
  let cell_offset := seqoff (cell_base st) seq in
  let resized := cell_offset >=? cellsize in
  let l := if resized then cells st ++ replicate (Z.to_nat (cell_offset + 1 - cellsize)) false else cells st in
  let write := resized || match is_received with CELL_EXTEND => false | _ => true end in
  set_cells (cell_base st)
    (if write then l.[cell_offset <- match is_received with CELL_RECEIVED => true | _ => false end] else l) st.

(** What [IsLost] returns. *)
Definition IsLost (seq : Z) (st : Receive) : bool :=
  let offset := seqoff (cell_base st) seq in
  if offset <? 0 then true
  else if offset >=? zlen (cells st) then false
  else (cells st).[offset].

Definition CheckLargeDrop (c : config) (seqno : Z) (st : Receive) : Receive :=
  let rowbase := base (grp (rowq st).[0]) in
  let offset := seqoff rowbase seqno in
  if offset <? 0 then st else
  if m_number_rows c =? 1 then
    if offset >? 5 * sizeRow c then
      let rowdist := offset / sizeRow c in
      let newbase := incseq_by rowbase (rowdist * sizeRow c) in
      set_rowq [first_row c newbase] (set_cells (cell_base st) [] st)
    else st
  else
    let reset_anyway := negb (offset =? seqoff (base (grp (colq st).[0])) seqno) in
    let colx := offset mod numberCols c in
    let coloff := seqoff (base (grp (colq st).[colx])) seqno in
    if coloff <? 0 then st else
    let size_in_packets := colx * numberRows c in
    let matrix := numberRows c * numberCols c in
    let colseries := coloff / matrix in
    if (size_in_packets >? rcvBufferSize c / 2) || (colseries >? SRT_FEC_MAX_RCV_HISTORY) || reset_anyway then
      let newbase := incseq_by (base (grp (colq st).[0])) ((colseries - 1) * matrix) in
      set_cells newbase [] (set_colq (configure_columns c newbase) (set_rowq [first_row c newbase] st))
    else st.

(** [CheckEmergencyShrink]; the result says whether it has shrunk. *)
Definition CheckEmergencyShrink (c : config) (n_series size_in_packets : Z) (st : Receive) : Receive * bool :=
  let min_series_history := if m_arrangement_staircase c then 4 else 2 in
  if n_series <=? min_series_history then (st, false) else
  if (size_in_packets <? rcvBufferSize c) && (n_series <? SRT_FEC_MAX_RCV_HISTORY) then (st, false) else
  let oldbase := base (grp (colq st).[0]) in
  let shift_series := n_series - 1 in
  let shift := shift_series * numberCols c * numberRows c in
  let newbase := incseq_by oldbase shift in
  let shift_rows := shift_series * numberRows c in
  let need_reset := (zlen (rowq st) <? shift_rows) || negb (base (grp (rowq st).[numberRows c]) =? newbase) in
  let st := set_rowq (if need_reset then [first_row c newbase] else list.drop (Z.to_nat shift_rows) (rowq st)) st in
  let shift_cols := shift_series * numberCols c in
  let need_reset := (zlen (colq st) <? shift_cols) || negb (base (grp (colq st).[numberCols c]) =? newbase) in
  let st := if need_reset then set_colq (configure_columns c newbase) st else st in
  (set_cells newbase (if zlen (cells st) >? shift then list.drop (Z.to_nat shift) (cells st) else [false]) st, true).

Definition new_rows (c : config) (base0 old n : Z) : list RcvGroup :=
  map (fun i => fresh (ConfigureGroup c (incseq_by base0 ((old + Z.of_nat i) * m_number_cols c)) 1 (m_number_cols c)))
    (seq 0 (Z.to_nat (n - old))).

Definition ExtendRows (c : config) (rowx : Z) (st : Receive) : Receive :=
  let size_in_packets := rowx * numberCols c in
  let n_series := rowx / numberRows c in
  let (st, _) := CheckEmergencyShrink c n_series size_in_packets st in
  let old := zlen (rowq st) in
  if old <=? rowx + 1 then set_rowq (rowq st ++ new_rows c (base (grp (rowq st).[0])) old (rowx + 1)) st
  else set_rowq (take (Z.to_nat (rowx + 1)) (rowq st)) st.

(** The index of the row, or -1, and the status. *)
Definition RcvGetRowGroupIndex (c : config) (seq : Z) (st : Receive) : Receive * Z * EHangStatus :=
  let offset := seqoff (base (grp (rowq st).[0])) seq in
  if offset <? 0 then (st, -1, HANG_PAST) else
  let rowx := offset / m_number_cols c in
  let st := if rowx >=? zlen (rowq st) then ExtendRows c rowx st else st in
  (st, rowx, HANG_SUCCESS).

Fixpoint add_series (c : config) (n : nat) (base0 s : Z) (q : list RcvGroup) : list RcvGroup :=
  match n with
  | O => q
  | S n => add_series c n base0 (s + 1) (q ++ configure_columns c (incseq_by base0 (numberCols c * numberRows c * s)))
  end.

Definition ExtendColumns (c : config) (colgx : Z) (st : Receive) : Receive :=
  let size_in_packets := colgx * numberRows c in
  let n_series := colgx / numberCols c in
  let (st, _) := CheckEmergencyShrink c n_series size_in_packets st in
  let series := colgx / numberCols c in
  let old_series := zlen (colq st) / numberCols c in
  set_colq (add_series c (Z.to_nat (series + 1 - old_series)) (base (grp (colq st).[0])) old_series (colq st)) st.

Definition RcvGetColumnGroupIndex (c : config) (seqno : Z) (st : Receive) : Receive * Z * EHangStatus :=
  let offset := seqoff (base (grp (colq st).[0])) seqno in
  if offset <? 0 then (st, -1, HANG_PAST) else
  if offset >? m_iSeqNoTH / 2 then (st, -1, HANG_CRAZY) else
  let colx := offset mod m_number_cols c in
  let coloff := seqoff (base (grp (colq st).[colx])) seqno in
  if coloff <? 0 then (st, -1, HANG_PAST) else
  let colseries := coloff / (m_number_cols c * m_number_rows c) in
  let colgx := colx + colseries * m_number_cols c in
  if colgx >? m_number_rows c * m_number_cols c * SRT_FEC_MAX_RCV_HISTORY then (st, -1, HANG_CRAZY) else
  let st := if colgx >=? zlen (colq st) then ExtendColumns c colgx st else st in
  (st, colgx, HANG_SUCCESS).

(** The loops of [RcvGetLossSeqHoriz] and [RcvGetLossSeqVert] over the cells of
    a group: the first one that is missing, or -1. *)
Fixpoint find_missing (n : nat) (cix step_ : Z) (st : Receive) : Receive * Z :=
  match n with
  | O => (st, -1)
  | S n => let (st, received) := CellAt cix st in if received : bool then find_missing n (cix + step_) step_ st else (st, cix)
  end.

Definition RcvGetLossSeqHoriz (c : config) (g : Group) (st : Receive) : Receive * Z :=
  let baseoff := seqoff (cell_base st) (base g) in
  if baseoff <? 0 then (st, -1) else
  let (st, offset) := find_missing (Z.to_nat (m_number_cols c)) baseoff 1 st in
  if offset =? -1 then (st, -1) else (st, incseq_by (cell_base st) offset).

Definition RcvGetLossSeqVert (c : config) (g : Group) (st : Receive) : Receive * Z :=
  let baseoff := seqoff (cell_base st) (base g) in
  if baseoff <? 0 then (st, -1) else
  let (st, offset) := find_missing (Z.to_nat (sizeCol c)) baseoff (sizeRow c) st in
  if offset =? -1 then (st, -1) else (st, incseq_by (cell_base st) offset).

Fixpoint RcvRebuild (fuel : nat) (c : config) (g : Group) (seqno : Z) (tp : GroupType) (st : Receive) : option Receive :=
  match fuel with
  | O => None
  | S fuel =>
  if seqno =? -1 then Some st else
  match rebuilt_packet c (order_required st) g seqno with
  | None => Some st
  | Some p =>
    let st := MarkCellReceived seqno CELL_RECEIVED (push_rebuilt p st) in
    match tp with
    | SINGLE => Some st
    | VERT =>
        let '(st, rowx, _) := RcvGetRowGroupIndex c seqno st in
        if rowx =? -1 then Some st else
        let rowg := (rowq st).[rowx] in
        if collected (grp rowg) >? m_number_cols c - 1 then Some st else
        let rowg := set_grp (add_collected (ClipRebuiltPacket p (grp rowg))) rowg in
        let st := put_row rowx rowg st in
        if fec rowg && (collected (grp rowg) =? m_number_cols c - 1) then
          let (st, lost) := RcvGetLossSeqHoriz c (grp rowg) st in RcvRebuild fuel c (grp rowg) lost HORIZ st
        else Some st
    | HORIZ =>
        let '(st, colx, _) := RcvGetColumnGroupIndex c seqno st in
        if colx =? -1 then Some st else
        let colg := (colq st).[colx] in
        if collected (grp colg) >? m_number_rows c - 1 then Some st else
        let colg := set_grp (add_collected (ClipRebuiltPacket p (grp colg))) colg in
        let st := put_col colx colg st in
        if fec colg && (collected (grp colg) =? m_number_rows c - 1) then
          let (st, lost) := RcvGetLossSeqVert c (grp colg) st in RcvRebuild fuel c (grp colg) lost VERT st
        else Some st
    end
  end
  end.

(** [loss_seqs_t]. *)
Definition losses := list (Z * Z).

(** The loop of [CollectIrrecoverRow]; [val] is first value-initialised. *)
Fixpoint collect_losses (n : nat) (i base_ : Z) (l : list bool) (last : bool) (val : Z * Z) (irrecover : losses) : bool * (Z * Z) * losses :=
  match n with
  | O => (last, val, irrecover)
  | S n =>
      let gone := last in
      let last := l.[i] in
      if gone && negb last then collect_losses n (i + 1) base_ l last (incseq_by base_ i, incseq_by base_ i) irrecover
      else if last && negb gone then
        let val := (val.1, incseq_by base_ i) in collect_losses n (i + 1) base_ l last val (irrecover ++ [val])
      else collect_losses n (i + 1) base_ l last val irrecover
  end.

(** [CollectIrrecoverRow] on the row [ix] of the queue. *)
Definition CollectIrrecoverRow (c : config) (ix : Z) (irrecover : losses) (st : Receive) : Receive * losses :=
  let g := (rowq st).[ix] in
  if dismissed g then (st, irrecover) else
  let base_ := cell_base st in
  let offset := seqoff base_ (base (grp g)) in
  if offset <? 0 then (st, irrecover) else
  let maxoff := offset + m_number_cols c in
  if maxoff >? zlen (cells st) then (st, irrecover) else
  let '(last, val, irrecover) := collect_losses (Z.to_nat (m_number_cols c)) offset base_ (cells st) true (0, 0) irrecover in
  let irrecover := if negb last then irrecover ++ [(val.1, incseq_by base_ (maxoff - 1))] else irrecover in
  (put_row ix (set_dismissed true g) st, irrecover).

Fixpoint collect_rows (c : config) (n : nat) (ix : Z) (irrecover : losses) (st : Receive) : Receive * losses :=
  match n with
  | O => (st, irrecover)
  | S n => let (st, irrecover) := CollectIrrecoverRow c ix irrecover st in collect_rows c n (ix + 1) irrecover st
  end.

(** The end of [HangHorizontal]: losses of older rows, and their removal. *)
Definition sweep_rows (c : config) (seq : Z) (st : Receive) : Receive * losses :=
  let more := zlen (rowq st) >? 1 in
  let want_remove_cells := more && (m_number_rows c =? 1) in
  let want_collect_irrecover := more && ((m_number_rows c =? 1) || match m_fallback_level c with SRT_ARQ_ONREQ => true | _ => false end) in
  if want_collect_irrecover then
    let current := zlen (rowq st) - 2 in
    let past := current - 1 in
    let past :=
      if past >? 0 then past - 1
      else if seqoff (base (grp (rowq st).[1])) seq <=? m_number_cols c / 3 then past - 1 else past in
    if past >=? 0 then
      let nrowremove := 1 + past in
      let (st, irrecover) := collect_rows c (Z.to_nat nrowremove) 0 [] st in
      if want_remove_cells && (zlen (rowq st) >? nrowremove) then
        let npktremove := sizeRow c * nrowremove in
        let ersize := Z.min npktremove (zlen (cells st)) in
        let st := set_rowq (list.drop (Z.to_nat nrowremove) (rowq st)) st in
        (set_cells (base (grp (rowq st).[0])) (list.drop (Z.to_nat ersize) (cells st)) st, irrecover)
      else (st, irrecover)
    else (st, [])
  else (st, []).

Definition hang_row (isfec : bool) (rpkt : t) (rowg : RcvGroup) : RcvGroup :=
  if isfec then if fec rowg then rowg else set_fec true (set_grp (ClipControlPacket rpkt (grp rowg)) rowg)
  else set_grp (add_collected (ClipPacket rpkt (grp rowg))) rowg.

Definition HangHorizontal (fuel : nat) (c : config) (rpkt : t) (isfec : bool) (st : Receive) : option (Receive * EHangStatus * losses) :=
  let seq := getSeqNo rpkt in
  let '(st, rowx, stat) := RcvGetRowGroupIndex c seq st in
  if rowx =? -1 then Some (st, stat, []) else
  let rowg := hang_row isfec rpkt ((rowq st).[rowx]) in
  let st := put_row rowx rowg st in
  st ← (if fec rowg && (collected (grp rowg) =? m_number_cols c - 1) then
          let (st, lost) := RcvGetLossSeqHoriz c (grp rowg) st in
          RcvRebuild fuel c (grp rowg) lost (if m_number_rows c =? 1 then SINGLE else HORIZ) st
        else Some st);
  let (st, irrecover) := sweep_rows c seq st in
  Some (st, HANG_SUCCESS, irrecover).

(** [std::set<int32_t>], in ascending order. *)
Fixpoint set_insert (x : Z) (s : list Z) : list Z :=
  match s with
  | [] => [x]
  | y :: s' => if x <? y then x :: s else if x =? y then s else y :: set_insert x s'
  end.

Fixpoint translate (fi_start fi_end : Z) (s : list Z) (irrecover : losses) : losses :=
  match s with
  | [] => irrecover ++ [(fi_start, fi_end)]
  | i :: s =>
      if seqoff fi_end i =? 1 then translate fi_start (fi_end + 1) s irrecover
      else translate i i s (irrecover ++ [(fi_start, fi_end)])
  end.

Definition TranslateLossRecords (loss : list Z) (irrecover : losses) : losses :=
  match loss with
  | [] => irrecover
  | i :: s => translate i i s irrecover
  end.

(** The loops of [RcvCheckDismissColumn] that collect losses. *)
Fixpoint column_losses (n : nat) (sof step_ base_ : Z) (st : Receive) (loss : list Z) : list Z :=
  match n with
  | O => loss
  | S n =>
      let lseq := incseq_by base_ sof in
      column_losses n (sof + step_) step_ base_ st (if negb (IsLost lseq st) then set_insert lseq loss else loss)
  end.

Fixpoint dismiss_columns (c : config) (n : nat) (i seq : Z) (st : Receive) (loss : list Z) : Receive * list Z :=
  match n with
  | O => (st, loss)
  | S n =>
      let pg := (colq st).[i] in
      let this_col_offset := seqoff (base (grp pg)) seq in
      let last_seq_offset := this_col_offset - (sizeCol c - 1) * sizeRow c in
      if dismissed pg || (last_seq_offset <? 0) then dismiss_columns c n (i + 1) seq st loss
      else
        let loss := column_losses (Z.to_nat (sizeCol c)) 0 (step (grp pg)) (base (grp pg)) st loss in
        dismiss_columns c n (i + 1) seq (put_col i (set_dismissed true pg) st) loss
  end.

(** The removal of one series of columns and of the rows and cells it covers. *)
Definition remove_series (c : config) (st : Receive) : Receive :=
  let newbase := base (grp (colq st).[numberCols c]) in
  let undercounted := u64 (zlen (rowq st) - 1) <? numberRows c in
  let insane := negb undercounted && negb (base (grp (rowq st).[numberRows c]) =? newbase) in
  let matrix_size := numberCols c * numberRows c in
  let st := set_colq (list.drop (Z.to_nat (numberCols c)) (colq st)) st in
  let st := set_rowq (if insane || undercounted then [first_row c newbase] else list.drop (Z.to_nat (numberRows c)) (rowq st)) st in
  let newbase_cell := incseq_by (cell_base st) matrix_size in
  let l :=
    if negb (newbase =? newbase_cell) then
      let shift := seqoff (cell_base st) newbase in
      if (shift <? 0) || (shift >? zlen (cells st)) then [] else list.drop (Z.to_nat shift) (cells st)
    else if zlen (cells st) <=? matrix_size then [] else list.drop (Z.to_nat matrix_size) (cells st) in
  set_cells newbase l st.

Definition RcvCheckDismissColumn (c : config) (seq colgx : Z) (st : Receive) : Receive * losses :=
  let series := colgx / numberCols c in
  if series =? 0 then (st, []) else
  let (st, loss) := dismiss_columns c (Z.to_nat (numberCols c)) 0 seq st [] in
  let this_off := seqoff (base (grp (colq st).[0])) seq in
  let mindist := if m_arrangement_staircase c then numberCols c * numberRows c * 2 else numberCols c * numberRows c in
  let st :=
    if this_off <? mindist then st
    else if u64 (zlen (colq st) - 1) <? numberCols c then st
    else remove_series c st in
  (st, TranslateLossRecords loss []).

Definition HangVertical (fuel : nat) (c : config) (rpkt : t) (fec_col : Z) (st : Receive) : option (Receive * EHangStatus * losses) :=
  let fec_ctl := negb (fec_col =? -1) in
  let seq := getSeqNo rpkt in
  let '(st, colgx, stat) := RcvGetColumnGroupIndex c seq st in
  if colgx =? -1 then Some (st, stat, []) else
  let colg := hang_row fec_ctl rpkt ((colq st).[colgx]) in
  let st := put_col colgx colg st in
  st ← (if fec colg && (collected (grp colg) =? m_number_rows c - 1) then
          let (st, lost) := RcvGetLossSeqVert c (grp colg) st in RcvRebuild fuel c (grp colg) lost VERT st
        else Some st);
  let (st, irrecover) := RcvCheckDismissColumn c seq colgx st in
  Some (st, HANG_SUCCESS, irrecover).

Definition is_crazy (s : EHangStatus) : bool := match s with HANG_CRAZY => true | _ => false end.

(** Both groups, the cell of a rejected packet, and the losses to report. *)
Definition hang (fuel : nat) (c : config) (rpkt : t) (row_ctl col_ctl : bool) (colx : Z) (st : Receive) : option (Receive * losses) :=
  '(st, okh, irrecover_row) ← (if col_ctl then Some (st, HANG_NOTDONE, []) else HangHorizontal fuel c rpkt row_ctl st);
  '(st, okv, irrecover_col) ← (if negb row_ctl && (m_number_rows c >? 1) then HangVertical fuel c rpkt colx st else Some (st, HANG_NOTDONE, []));
  let st := if is_crazy okv || is_crazy okh then MarkCellReceived (getSeqNo rpkt) CELL_REMOVE st else st in
  Some (st, match m_fallback_level c with SRT_ARQ_ONREQ => if m_number_rows c =? 1 then irrecover_row else irrecover_col | _ => [] end).

(** [receive]: whether the packet is wanted, and the losses to report. *)
Definition receive (fuel : nat) (c : config) (rpkt : t) (st : Receive) : option (Receive * bool * losses) :=
  let st := CheckLargeDrop c (getSeqNo rpkt) st in
  if getMsgSeq true rpkt =? SRT_MSGNO_CONTROL then
    let colx := i8 ((m_pcData rpkt).[0]) in
    let st := MarkCellReceived (getSeqNo rpkt) CELL_EXTEND st in
    '(st, loss_seqs) ← hang fuel c rpkt (colx =? -1) (negb (colx =? -1)) colx st;
    Some (st, false, loss_seqs)
  else
    let celloff := seqoff (cell_base st) (getSeqNo rpkt) in
    let past := celloff <? 0 in
    let exists_ := (celloff <? zlen (cells st)) && negb past && (cells st).[celloff] in
    if past || exists_ then Some (st, true, []) else
    let st := set_order_required (getMsgOrderFlag rpkt) (MarkCellReceived (getSeqNo rpkt) CELL_RECEIVED st) in
    '(st, loss_seqs) ← hang fuel c rpkt false false (-1) st;
    Some (st, true, loss_seqs).
End FecReceiver.
Import FecReceiver.

Module PacketFilterRecv.
(** [std::sort] by [SortBySequence]. *)
Fixpoint insert_by_seq (u : t) (l : list t) : list t :=
  match l with
  | [] => [u]
  | v :: l' => if seqcmp (getSeqNo u) (getSeqNo v) <? 0 then u :: l else v :: insert_by_seq u l'
  end.
Fixpoint sort_by_seq (l : list t) : list t :=
  match l with
  | [] => []
  | u :: l => insert_by_seq u (sort_by_seq l)
  end.

(** [InsertRebuilt]; the unit queue has [units] free units. *)
Definition InsertRebuilt (units : nat) (incoming : list t) (st : Receive) : Receive * list t :=
  (mkReceive (rowq st) (colq st) (cell_base st) (cells st) (order_required st) [], incoming ++ take units (rebuilt st)).

(** [PacketFilter::receive]: the packets handed on, and the losses to
    report. *)
Definition receive (fuel : nat) (c : config) (units : nat) (rpkt : t) (st : Receive) : option (Receive * list t * losses) :=
  '(st, want, loss_seqs) ← FecReceiver.receive fuel c rpkt st;
  let (st, incoming) := InsertRebuilt units (if want : bool then [rpkt] else []) st in
  Some (st, sort_by_seq incoming, loss_seqs).
End PacketFilterRecv.
