(* ===== verification/FecRows.v ===== *)
(** The receiver's filter with rows only ([m_number_rows] is 1): whatever the
    order in which the packets of a stream and the control packets of its rows
    arrive, a row that lacks one packet gives that packet. *)
From S2P Require Import Prelude Packet SeqNo FecGroup FecSend FecRecv.
Import CPacket CSeqNo FECFilterBuiltin FecReceiver.

Section Rows.
Context (c : config) (a : Z) (f : Z -> t).
Notation N := (m_number_cols c).
Notation P := (payloadSize c).

(** Rows only, with room for the rows that may be open together. *)
Definition rows_only : Prop :=
  m_number_rows c = 1 /\ 1 < N /\ 100 * N < m_iSeqNoTH /\ 0 <= P /\
  (m_arrangement_staircase c = true \/ 4 * N < rcvBufferSize c).

Context (Hc : rows_only).

Definition row_packets (r : Z) : list t := group_packets f (r * N) 1 (Z.to_nat N).

(** A packet of the stream, and the control packet of a row. *)
Inductive arrival := AData (x : Z) | ACtl (r : Z).
#[local] Instance arrival_eq_dec : EqDecision arrival.
Proof. solve_decision. Defined.
Definition row_of (e : arrival) : Z := match e with AData x => x / N | ACtl r => r end.

Definition cell (st : Receive) (i : Z) : bool := default false (cells st !! Z.to_nat i).

(** Row [r] of the queue, with the data packets at the positions [D] and, after
    [arr], its control packet. *)
Record row_ok (arr : list arrival) (r : Z) (g : RcvGroup) (D : list Z) : Prop := {
  ro_base : base (grp g) = seq_of (a + r * N);
  ro_collected : collected (grp g) = zlen D;
  ro_nodup : NoDup D;
  ro_in : forall x, x ∈ D -> r * N <= x < r * N + N;
  ro_fec : fec g = true <-> ACtl r ∈ arr;
  ro_holds : holds P (grp g) (map f D ++ if fec g then row_packets r else [])
}.

Definition complete (g : RcvGroup) (D : list Z) : Prop := fec g = true /\ N - 1 <= zlen D.

(** The row's cells: received or rebuilt, and all that arrived. *)
Definition cells_ok (arr : list arrival) (h r : Z) (g : RcvGroup) (D : list Z) (st : Receive) : Prop :=
  forall x, r * N <= x < r * N + N ->
    (cell st (x - h * N) = true <-> x ∈ D \/ complete g D) /\ (AData x ∈ arr -> cell st (x - h * N) = true).

(** The state with the rows from [h] on, and the rebuilt packets [rb]. *)
Record filter_at (arr : list arrival) (h : Z) (rb : list t) (st : Receive) : Prop := {
  fa_h : 0 <= h;
  fa_rows : 1 <= zlen (rowq st);
  fa_base : cell_base st = seq_of (a + h * N);
  fa_rebuilt : rebuilt st = rb;
  fa_row : forall i, 0 <= i < zlen (rowq st) -> exists D, row_ok arr (h + i) ((rowq st).[i]) D /\ cells_ok arr h (h + i) ((rowq st).[i]) D st;
  fa_beyond : forall x, (h + zlen (rowq st)) * N <= x -> cell st (x - h * N) = false /\ AData x ∉ arr;
  fa_ctl_beyond : forall r, h + zlen (rowq st) <= r -> ACtl r ∉ arr
}.

(** ** Cells *)

Lemma cell_extended st l b i : 0 <= i -> cell (set_cells b (cells st ++ replicate l false) st) i = cell st i.
Proof.
  intros Hi. unfold cell. cbn [set_cells cells]. destruct (decide (Z.to_nat i < length (cells st))%nat) as [Hlt|Hge].
  - by rewrite lookup_app_l.
  - rewrite lookup_app_r, (lookup_ge_None_2 (cells st)) by lia.
    destruct (replicate l false !! _) as [x|] eqn:E; [|done]. apply lookup_replicate in E as [-> _]. done.
Qed.

Lemma CellAt_ok i st : 0 <= i -> (CellAt i st).2 = cell st i /\ rowq (CellAt i st).1 = rowq st /\ cell_base (CellAt i st).1 = cell_base st /\
  rebuilt (CellAt i st).1 = rebuilt st /\ order_required (CellAt i st).1 = order_required st /\
  forall j, 0 <= j -> cell (CellAt i st).1 j = cell st j.
Proof.
  intros Hi. unfold CellAt. rewrite Z.geb_leb. destruct (Z.leb_spec (zlen (cells st)) i) as [Hge|Hlt]; cbn [fst snd].
  - split; [unfold cell; by rewrite lookup_ge_None_2 by lia|]. do 4 (split; [done|]). intros j Hj. by apply cell_extended.
  - split; [|done]. unfold cell, aget. rewrite (proj2 (Z.ltb_ge i 0)) by lia.
    destruct (lookup_lt_is_Some_2 (cells st) (Z.to_nat i) ltac:(lia)) as [b E]. by rewrite E, (list_lookup_total_correct _ _ _ E).
Qed.

Lemma MarkCell_ok seq kind st i : seqoff (cell_base st) seq = i -> 0 <= i ->
  let st' := MarkCellReceived seq kind st in
  rowq st' = rowq st /\ cell_base st' = cell_base st /\ rebuilt st' = rebuilt st /\ order_required st' = order_required st /\
  (forall j, 0 <= j -> cell st' j = match kind with CELL_EXTEND => cell st j | _ => if j =? i then match kind with CELL_RECEIVED => true | _ => false end else cell st j end).
Proof.
  intros Ei Hi st'. do 4 (split; [done|]). intros j Hj. unfold st', MarkCellReceived, cell. rewrite Ei. cbn [set_cells cells].
  rewrite Z.geb_leb. set (l := if zlen (cells st) <=? i then _ else _).
  assert (Hl : default false (l !! Z.to_nat j) = default false (cells st !! Z.to_nat j)).
  { unfold l. destruct (zlen (cells st) <=? i); [|done]. exact (cell_extended st _ (cell_base st) j Hj). }
  assert (Hlen : (Z.to_nat i < length l)%nat).
  { unfold l. destruct (Z.leb_spec (zlen (cells st)) i); [rewrite length_app, length_replicate; lia|lia]. }
  assert (Hset : forall b, default false (l.[i <- b] !! Z.to_nat j) = if j =? i then b else default false (cells st !! Z.to_nat j)).
  { intros b. unfold aset. rewrite (proj2 (Z.ltb_ge i 0)) by lia. destruct (Z.eqb_spec j i) as [->|Hne]; [by rewrite list_lookup_insert_eq|].
    rewrite list_lookup_insert_ne by lia. exact Hl. }
  destruct kind; [by rewrite orb_true_r, Hset| |by rewrite orb_true_r, Hset].
  rewrite orb_false_r. destruct (Z.leb_spec (zlen (cells st)) i) as [Hge|]; [|exact Hl].
  rewrite Hset. destruct (Z.eqb_spec j i) as [->|]; [|done]. by rewrite lookup_ge_None_2 by lia.
Qed.

(** The same rows, cells and packets; there may be more cells. *)
Record same_cells (st st' : Receive) : Prop := {
  sc_rowq : rowq st' = rowq st;
  sc_base : cell_base st' = cell_base st;
  sc_rebuilt : rebuilt st' = rebuilt st;
  sc_order : order_required st' = order_required st;
  sc_cell : forall j, 0 <= j -> cell st' j = cell st j
}.

Lemma same_cells_refl st : same_cells st st.
Proof. by split. Qed.
Lemma same_cells_trans st1 st2 st3 : same_cells st1 st2 -> same_cells st2 st3 -> same_cells st1 st3.
Proof. intros [] []. split; try congruence. intros j Hj. by rewrite sc_cell1, sc_cell0. Qed.

Lemma find_missing_ok n : forall cix st, 0 <= cix -> exists st' off, find_missing n cix 1 st = (st', off) /\ same_cells st st' /\
  ((off = -1 /\ forall j, cix <= j < cix + Z.of_nat n -> cell st j = true) \/
   (cix <= off < cix + Z.of_nat n /\ cell st off = false)).
Proof.
  induction n as [|n IH]; intros cix st Hcix; cbn [find_missing].
  - exists st, (-1). split; [done|]. split; [apply same_cells_refl|]. left. split; [done|]. intros j Hj. lia.
  - destruct (CellAt_ok cix st Hcix) as (Eb & E1 & E2 & E3 & E4 & E5). destruct (CellAt cix st) as [st1 b]. cbn [fst snd] in *.
    assert (Hs : same_cells st st1) by (by split). destruct b.
    + destruct (IH (cix + 1) st1 ltac:(lia)) as (st' & off & E & Hs' & Hcase). exists st', off. split; [done|].
      split; [by eapply same_cells_trans|]. destruct Hcase as [[-> Hall]|[Hoff Hcell]].
      * left. split; [done|]. intros j Hj. destruct (Z.eq_dec j cix) as [->|Hne]; [done|]. rewrite <- E5 by lia. apply Hall. lia.
      * right. split; [lia|]. rewrite <- E5 by lia. done.
    + exists st1, cix. split; [done|]. split; [done|]. right. split; [lia|done].
Qed.

Lemma row_offset_pos h x : - m_iSeqNoTH < x - h * N < m_iSeqNoTH -> seqoff (seq_of (a + h * N)) (seq_of (a + x)) = x - h * N.
Proof. intros Hx. rewrite seqoff_seq_of by lia. lia. Qed.

(** The lost packet of a row: the first cell that is missing, if any. *)
Lemma loss_seq_ok st g h r : cell_base st = seq_of (a + h * N) -> base g = seq_of (a + r * N) -> h <= r -> (r - h) * N + N < m_iSeqNoTH ->
  exists st' s, RcvGetLossSeqHoriz c g st = (st', s) /\ same_cells st st' /\
    ((s = -1 /\ forall x, r * N <= x < r * N + N -> cell st (x - h * N) = true) \/
     exists x, r * N <= x < r * N + N /\ cell st (x - h * N) = false /\ s = seq_of (a + x)).
Proof.
  intros Eb Eg Hr Hw. destruct Hc as (_ & HN & Hb & _). assert (0 <= r * N - h * N) by nia. unfold RcvGetLossSeqHoriz. rewrite Eb, Eg, row_offset_pos by nia.
  rewrite (proj2 (Z.ltb_ge _ _)) by nia. destruct (find_missing_ok (Z.to_nat N) (r * N - h * N) st ltac:(nia)) as (st' & off & E & Hs & Hcase).
  rewrite E. destruct Hcase as [[-> Hall]|[Hoff Hcell]].
  - exists st', (-1). split; [done|]. split; [done|]. left. split; [done|]. intros x Hx. apply Hall. lia.
  - rewrite (proj2 (Z.eqb_neq off (-1))) by lia. exists st', (incseq_by (cell_base st') off). split; [done|]. split; [done|]. right.
    exists (off + h * N). split; [lia|]. split; [by replace (off + h * N - h * N) with off by lia|].
    rewrite (sc_base _ _ Hs), Eb. unfold m_iSeqNoTH in Hw. rewrite incseq_by_seq_of by nia. f_equal. lia.
Qed.

(** ** Rows *)

Lemma large_drop_none st seq h x : base (grp (rowq st).[0]) = seq_of (a + h * N) -> seq = seq_of (a + x) ->
  - m_iSeqNoTH < x - h * N -> x - h * N <= 5 * N -> CheckLargeDrop c seq st = st.
Proof.
  intros Eb -> H1 H2. destruct Hc as (HM & HN & Hb & _). unfold CheckLargeDrop. rewrite Eb, row_offset_pos by lia.
  destruct (Z.ltb_spec (x - h * N) 0); [done|]. rewrite HM, Z.eqb_refl, Z.gtb_ltb, (proj2 (Z.ltb_ge _ _)) by (unfold sizeRow; lia). done.
Qed.

Lemma row_number x : x / N * N <= x < x / N * N + N.
Proof. destruct Hc as (_ & HN & _). pose proof (Z.div_mod x N ltac:(lia)). pose proof (Z.mod_pos_bound x N ltac:(lia)). lia. Qed.

Lemma row_unique x r : r * N <= x < r * N + N -> x / N = r.
Proof. intros Hx. destruct Hc as (_ & HN & _). symmetry. apply (Z.div_unique _ _ _ (x - r * N)); lia. Qed.

(** The row queue with the rows up to the given index. *)
Definition extended (rowx : Z) (st : Receive) : Receive :=
  if rowx >=? zlen (rowq st) then set_rowq (rowq st ++ new_rows c (base (grp (rowq st).[0])) (zlen (rowq st)) (rowx + 1)) st else st.

Lemma row_index_ok st seq h x : base (grp (rowq st).[0]) = seq_of (a + h * N) -> seq = seq_of (a + x) -> 0 <= x - h * N < 5 * N ->
  RcvGetRowGroupIndex c seq st = (extended (x / N - h) st, x / N - h, HANG_SUCCESS).
Proof.
  intros Eb -> Hx. destruct Hc as (HM & HN & Hb & _ & Hroom). unfold RcvGetRowGroupIndex. rewrite Eb, row_offset_pos by (unfold m_iSeqNoTH in *; lia).
  rewrite (proj2 (Z.ltb_ge _ _)) by lia. assert (E : (x - h * N) / N = x / N - h).
  { replace (x - h * N) with (x + (- h) * N) by lia. rewrite Z.div_add by lia. lia. }
  rewrite E. unfold extended. pose proof (row_number x). assert (Hi : 0 <= x / N - h <= 4) by nia. destruct (Z.geb (x / N - h) (zlen (rowq st))) eqn:Eg; [|done].
  do 2 f_equal. unfold ExtendRows, CheckEmergencyShrink, numberRows. rewrite HM, Z.div_1_r.
  assert (Es : (if x / N - h <=? (if m_arrangement_staircase c then 4 else 2) then true else
    (((x / N - h) * numberCols c <? rcvBufferSize c) && (x / N - h <? SRT_FEC_MAX_RCV_HISTORY))) = true).
  { destruct (Z.leb_spec (x / N - h) (if m_arrangement_staircase c then 4 else 2)) as [|Hgt]; [done|]. unfold numberCols, SRT_FEC_MAX_RCV_HISTORY.
    destruct Hroom as [Hr|Hr]; [rewrite Hr in Hgt; lia|]. rewrite (proj2 (Z.ltb_lt _ (rcvBufferSize c))), (proj2 (Z.ltb_lt _ 10)) by nia. done. }
  rewrite Z.geb_leb in Eg. apply Z.leb_le in Eg.
  destruct (x / N - h <=? (if m_arrangement_staircase c then 4 else 2)); [|rewrite Es];
    rewrite (proj2 (Z.leb_le (zlen (rowq st)) _)) by lia; done.
Qed.

Lemma row_index_past st seq h x : base (grp (rowq st).[0]) = seq_of (a + h * N) -> seq = seq_of (a + x) -> - m_iSeqNoTH < x - h * N < 0 ->
  RcvGetRowGroupIndex c seq st = (st, -1, HANG_PAST).
Proof.
  intros Eb -> Hx. unfold RcvGetRowGroupIndex. rewrite Eb, row_offset_pos by lia. by rewrite (proj2 (Z.ltb_lt _ _)) by lia.
Qed.

Lemma filter_first arr h rb st : filter_at arr h rb st -> base (grp (rowq st).[0]) = seq_of (a + h * N).
Proof.
  intros H. destruct (fa_row _ _ _ _ H 0) as (D & Hr & _); [pose proof (fa_rows _ _ _ _ H); lia|]. rewrite (ro_base _ _ _ _ Hr). do 2 f_equal. lia.
Qed.

Lemma lookup_new_rows st rowx i : zlen (rowq st) <= i <= rowx ->
  (rowq st ++ new_rows c (base (grp (rowq st).[0])) (zlen (rowq st)) (rowx + 1)).[i] =
    fresh (ConfigureGroup c (incseq_by (base (grp (rowq st).[0])) (i * N)) 1 N).
Proof.
  intros Hi. unfold aget at 1. rewrite (proj2 (Z.ltb_ge i 0)) by lia. apply list_lookup_total_correct. rewrite lookup_app_r by lia.
  unfold new_rows. rewrite list_lookup_fmap, lookup_seq_lt by lia. cbn.
  by replace (zlen (rowq st) + Z.of_nat (Z.to_nat i - length (rowq st))) with i by lia.
Qed.

Lemma filter_ext arr h rb st st' : filter_at arr h rb st -> rowq st' = rowq st -> cell_base st' = cell_base st -> rebuilt st' = rebuilt st ->
  (forall j, 0 <= j -> cell st' j = cell st j) -> filter_at arr h rb st'.
Proof.
  intros [H1 H2 H3 H4 H5 H6 H7] E1 E2 E3 E4. destruct Hc as (_ & HN & _). split; rewrite ?E1, ?E2, ?E3; try done.
  - intros i Hi. destruct (H5 i Hi) as (D & Hr & Hcell). exists D. split; [done|]. intros x Hx. rewrite E4 by nia. by apply Hcell.
  - intros x Hx. rewrite E4 by nia. by apply H6.
Qed.

Lemma extended_ok arr h rb rowx st : filter_at arr h rb st -> 0 <= rowx <= 4 ->
  filter_at arr h rb (extended rowx st) /\ zlen (rowq (extended rowx st)) = Z.max (zlen (rowq st)) (rowx + 1).
Proof.
  intros H Hx. pose proof (filter_first _ _ _ _ H) as Hb0. pose proof H as [H1 H2 H3 H4 H5 H6 H7]. pose proof Hc as (_ & HN & Hb & HP & _). unfold extended.
  destruct (Z.geb rowx (zlen (rowq st))) eqn:Eg; rewrite Z.geb_leb in Eg; [apply Z.leb_le in Eg|apply Z.leb_gt in Eg; split; [done|lia]].
  assert (Hlen : zlen (rowq st ++ new_rows c (base (grp (rowq st).[0])) (zlen (rowq st)) (rowx + 1)) = rowx + 1).
  { rewrite length_app. unfold new_rows. rewrite length_map, length_seq. lia. }
  split; [|cbn [rowq set_rowq]; lia]. split; cbn [rowq set_rowq cell_base rebuilt]; rewrite ?Hlen; try done; try lia.
  - intros i Hi. destruct (Z.lt_ge_cases i (zlen (rowq st))) as [Hlt|Hge].
    + rewrite aget_app_l by done. destruct (H5 i ltac:(lia)) as (D & Hr & Hcell). by exists D.
    + rewrite lookup_new_rows by lia. rewrite Hb0. unfold m_iSeqNoTH in Hb. rewrite incseq_by_seq_of by nia. exists []. split.
      * split; cbn [fresh grp fec ConfigureGroup base collected]; try done; [f_equal; lia|constructor|set_solver| |].
        -- split; [done|]. intros Hin. by destruct (H7 (h + i) ltac:(lia)).
        -- by apply ConfigureGroup_holds.
      * intros x Hxr. destruct (H6 x ltac:(nia)) as [Hf1 Hf2]. unfold cell in *. cbn [cells set_rowq]. split; [|done].
        rewrite Hf1. split; [done|]. intros [Hin|[Hfec _]]; [set_solver|done].
  - intros x Hxr. destruct (H6 x ltac:(nia)) as [Hf1 Hf2]. done.
  - intros r Hr. apply H7. lia.
Qed.

(** ** One row in the making *)

(** As [filter_at], but row [i] may lack a rebuilt packet. *)
Record filter_half (arr : list arrival) (h : Z) (rb : list t) (i : Z) (D : list Z) (st : Receive) : Prop := {
  fh_h : 0 <= h;
  fh_rows : 0 <= i < zlen (rowq st) /\ i <= 4;
  fh_base : cell_base st = seq_of (a + h * N);
  fh_rebuilt : rebuilt st = rb;
  fh_row : forall i', 0 <= i' < zlen (rowq st) -> i' <> i ->
    exists D, row_ok arr (h + i') ((rowq st).[i']) D /\ cells_ok arr h (h + i') ((rowq st).[i']) D st;
  fh_this : row_ok arr (h + i) ((rowq st).[i]) D;
  fh_cells : forall x, (h + i) * N <= x < (h + i) * N + N ->
    (x ∈ D -> cell st (x - h * N) = true) /\ (cell st (x - h * N) = true -> x ∈ D \/ complete ((rowq st).[i]) D) /\
    (AData x ∈ arr -> cell st (x - h * N) = true);
  fh_beyond : forall x, (h + zlen (rowq st)) * N <= x -> cell st (x - h * N) = false /\ AData x ∉ arr;
  fh_ctl_beyond : forall r, h + zlen (rowq st) <= r -> ACtl r ∉ arr
}.

Definition positions (r : Z) : list Z := map (fun i => r * N + Z.of_nat i * 1) (seq 0 (Z.to_nat N)).

Lemma elem_of_positions r x : x ∈ positions r <-> r * N <= x < r * N + N.
Proof.
  unfold positions. rewrite list_elem_of_fmap. split.
  - intros (i & -> & Hi). apply elem_of_seq in Hi. lia.
  - intros Hx. exists (Z.to_nat (x - r * N)). split; [lia|]. apply elem_of_seq. lia.
Qed.

Lemma row_packets_map r : row_packets r = map f (positions r).
Proof. unfold row_packets, group_packets, positions. by rewrite map_map. Qed.

(** What a row lacks. *)
Lemma row_rest arr r g D : row_ok arr r g D -> exists rest, positions r ≡ₚ D ++ rest /\ zlen D + zlen rest = N.
Proof.
  intros H. destruct Hc as (_ & HN & _).
  assert (Hsub : D ⊆+ positions r).
  { apply NoDup_submseteq; [apply (ro_nodup _ _ _ _ H)|]. intros x Hx. apply elem_of_positions. by apply (ro_in _ _ _ _ H). }
  apply submseteq_Permutation in Hsub as [rest Hp]. exists rest. split; [done|]. apply Permutation_length in Hp.
  rewrite length_app in Hp. unfold positions in Hp. rewrite length_map, length_seq in Hp. lia.
Qed.

Context (Hsrc : forall x, 0 <= x -> source_packet P (f x)).

Lemma half_full arr h rb i D st : filter_half arr h rb i D st -> (complete ((rowq st).[i]) D -> forall x, (h + i) * N <= x < (h + i) * N + N -> cell st (x - h * N) = true) ->
  filter_at arr h rb st.
Proof.
  intros [H1 [H2 H2'] H3 H4 H5 H6 H7 H8 H9] Hfull. split; try done; [lia|]. intros i' Hi'. destruct (Z.eq_dec i' i) as [->|Hne]; [|by apply H5].
  exists D. split; [done|]. intros x Hx. destruct (H7 x Hx) as (A1 & A2 & A3). split; [|done]. split; [by apply A2|].
  intros [Hin|Hcomp]; [by apply A1|by apply Hfull].
Qed.

(** A row with all but one of its packets and with its control packet. *)
Lemma row_missing arr r g D x : row_ok arr r g D -> fec g = true -> zlen D = N - 1 -> (r * N <= x < r * N + N) -> x ∉ D -> 0 <= r ->
  forall b seqno, exists q, rebuilt_packet c b (grp g) seqno = Some q /\ carries c b seqno (f x) q.
Proof.
  intros Hr Hf HD Hx Hnin Hr0 b seqno. pose proof Hc as (_ & HN & _). destruct (row_rest arr r g D Hr) as (rest & Hp & Hlen).
  assert (rest = [x]) as ->.
  { destruct rest as [|y [|z rest]]; cbn in Hlen; [lia| |lia].
    assert (Hin : x ∈ D ++ [y]) by (rewrite <- Hp; by apply elem_of_positions). set_solver. }
  apply (rebuilt_packet_ok c P); [done|apply Hsrc; nia|]. apply (holds_missing P _ (map f D) (row_packets r)).
  - pose proof (ro_holds _ _ _ _ Hr) as Hh. by rewrite Hf in Hh.
  - rewrite row_packets_map, Hp, map_app. cbn. by rewrite Permutation_app_comm.
Qed.

(** After the packet is hung: the row is rebuilt where it can be. *)
Definition try_rebuild (fuel : nat) (i : Z) (st : Receive) : option Receive :=
  if fec ((rowq st).[i]) && (collected (grp ((rowq st).[i])) =? N - 1) then
    let (st', lost) := RcvGetLossSeqHoriz c (grp ((rowq st).[i])) st in RcvRebuild fuel c (grp ((rowq st).[i])) lost SINGLE st'
  else Some st.

Lemma try_rebuild_ok n arr h rb i D st : filter_half arr h rb i D st ->
  exists st' new, try_rebuild (S n) i st = Some st' /\ filter_at arr h (rb ++ new) st' /\ rowq st' = rowq st /\
    (new = [] /\ (forall j, 0 <= j -> cell st' j = cell st j) \/
     exists x q b, new = [q] /\ ((h + i) * N <= x < (h + i) * N + N) /\ (AData x ∉ arr) /\ cell st (x - h * N) = false /\
       carries c b (seq_of (a + x)) (f x) q /\
       forall j, 0 <= j -> cell st' j = if j =? x - h * N then true else cell st j).
Proof.
  intros H. pose proof H as [H1 [H2 H2'] H3 H4 H5 H6 H7 H8 H9]. pose proof Hc as (_ & HN & Hb & _). unfold try_rebuild.
  assert (Hnone : complete ((rowq st).[i]) D -> zlen D <> N - 1 -> forall x, (h + i) * N <= x < (h + i) * N + N -> cell st (x - h * N) = true).
  { intros [_ HD] Hne x Hx. destruct (row_rest _ _ _ _ H6) as (rest & Hp & Hlen). destruct rest; [|cbn in Hlen; lia].
    rewrite app_nil_r in Hp. destruct (H7 x Hx) as (A1 & _). apply A1. rewrite <- Hp. by apply elem_of_positions. }
  rewrite (ro_collected _ _ _ _ H6). destruct (fec ((rowq st).[i])) eqn:Ef; cbn [andb].
  2: { exists st, []. split; [done|]. rewrite app_nil_r. split; [|split; [done|by left]]. apply (half_full _ _ _ i D); [done|]. intros [E _]. congruence. }
  destruct (Z.eqb_spec (zlen D) (N - 1)) as [HD|HD].
  2: { exists st, []. split; [done|]. rewrite app_nil_r. split; [|split; [done|by left]]. apply (half_full _ _ _ i D); [done|]. intros Hcomp. by apply Hnone. }
  destruct (loss_seq_ok st (grp ((rowq st).[i])) h (h + i) H3 (ro_base _ _ _ _ H6) ltac:(lia) ltac:(nia)) as (st1 & s & E & Hs & Hcase). rewrite E. cbn [RcvRebuild].
  destruct Hcase as [[-> Hall]|(x & Hx & Hcell & ->)].
  - exists st1, []. rewrite Z.eqb_refl. split; [done|]. rewrite app_nil_r. pose proof Hs as [E1 E2 E3 _ E5].
    split; [|split; [done|by left]]. apply (filter_ext _ _ _ st); try done. apply (half_full _ _ _ i D); [done|]. intros _. done.
  - rewrite (proj2 (Z.eqb_neq (seq_of (a + x)) (-1))) by apply seq_of_not_none.
    assert (Hnin : x ∉ D) by (intros Hin; destruct (H7 x Hx) as (A1 & _); rewrite (A1 Hin) in Hcell; done).
    assert (Hnarr : AData x ∉ arr) by (intros Hin; destruct (H7 x Hx) as (_ & _ & A3); rewrite (A3 Hin) in Hcell; done).
    destruct (row_missing _ _ _ _ x H6 Ef HD Hx Hnin ltac:(lia) (order_required st1) (seq_of (a + x))) as (q & -> & Hq).
    set (st2 := push_rebuilt q st1). pose proof Hs as [E1 E2 E3 _ E5].
    destruct (MarkCell_ok (seq_of (a + x)) CELL_RECEIVED st2 (x - h * N)) as (M1 & M2 & M3 & _ & M5).
    + cbn [st2 push_rebuilt cell_base]. rewrite E2, H3. apply row_offset_pos. nia.
    + nia.
    + set (st3 := MarkCellReceived _ _ st2) in *. exists st3, [q].
      assert (Hcells : forall j, 0 <= j -> cell st3 j = if j =? x - h * N then true else cell st j).
      { intros j Hj. rewrite M5 by done. change (cell st2 j) with (cell st1 j). by rewrite E5. }
      assert (Hrows : rowq st3 = rowq st) by (rewrite M1; exact E1).
      split; [done|]. split; [|split; [done|right; exists x, q, (order_required st1); do 5 (split; [done|]); done]].
      split; rewrite ?Hrows; try done; [lia|by rewrite M2; cbn; rewrite E2|by rewrite M3; cbn; rewrite E3, H4| |].
      * intros i' Hi'. destruct (Z.eq_dec i' i) as [->|Hne].
        -- exists D. split; [done|]. intros y Hy. rewrite Hcells by nia. destruct (H7 y Hy) as (A1 & A2 & A3).
           assert (Hy' : y ∈ D \/ y = x).
           { destruct (row_rest _ _ _ _ H6) as (rest & Hp & Hlen). destruct rest as [|z [|z' rest]]; cbn in Hlen; [lia| |lia].
             assert (y ∈ D ++ [z]) by (rewrite <- Hp; by apply elem_of_positions).
             assert (x ∈ D ++ [z]) by (rewrite <- Hp; by apply elem_of_positions). set_solver. }
           assert (Et : (if y - h * N =? x - h * N then true else cell st (y - h * N)) = true).
           { destruct (Z.eqb_spec (y - h * N) (x - h * N)); [done|]. destruct Hy' as [Hy'| ->]; [by apply A1|done]. }
           rewrite Et. split; [|done]. split; [|done]. intros _. right. split; [done|lia].
        -- destruct (H5 i' Hi' Hne) as (D' & Hr & Hc'). exists D'. split; [done|]. intros y Hy. rewrite Hcells by nia.
           rewrite (proj2 (Z.eqb_neq _ _)) by nia. by apply Hc'.
      * intros y Hy. rewrite Hcells by nia. rewrite (proj2 (Z.eqb_neq _ _)) by nia. by apply H8.
Qed.

(** ** Hanging a packet *)

Lemma row_ok_mono arr e r g D : row_of e <> r -> row_ok arr r g D -> row_ok (arr ++ [e]) r g D.
Proof.
  intros Hne [H1 H2 H3 H4 H5 H6]. split; try done. rewrite H5, elem_of_app, list_elem_of_singleton. split; [by left|].
  intros [?|E]; [done|]. rewrite <- E in Hne. done.
Qed.

Lemma cells_ok_mono arr e h r g D st st' : row_of e <> r -> cells_ok arr h r g D st ->
  (forall x, r * N <= x < r * N + N -> cell st' (x - h * N) = cell st (x - h * N)) -> cells_ok (arr ++ [e]) h r g D st'.
Proof.
  intros Hne H Heq x Hx. rewrite (Heq x Hx). destruct (H x Hx) as [A1 A2]. split; [done|]. rewrite elem_of_app, list_elem_of_singleton.
  intros [?|E]; [by apply A2|]. rewrite <- E in Hne. exfalso. apply Hne. cbn. by apply row_unique.
Qed.

(** Row [i] is changed by the arrival [e], the others are not. *)
Lemma half_of arr e h i D st st' : filter_at arr h [] st -> row_of e = h + i -> 0 <= i < zlen (rowq st) -> i <= 4 ->
  zlen (rowq st') = zlen (rowq st) -> (forall i', i' <> i -> (rowq st').[i'] = (rowq st).[i']) ->
  cell_base st' = cell_base st -> rebuilt st' = [] ->
  (forall x, h * N <= x -> x / N <> h + i -> cell st' (x - h * N) = cell st (x - h * N)) ->
  row_ok (arr ++ [e]) (h + i) ((rowq st').[i]) D ->
  (forall x, (h + i) * N <= x < (h + i) * N + N ->
    (x ∈ D -> cell st' (x - h * N) = true) /\ (cell st' (x - h * N) = true -> x ∈ D \/ complete ((rowq st').[i]) D) /\
    (AData x ∈ arr ++ [e] -> cell st' (x - h * N) = true)) ->
  filter_half (arr ++ [e]) h [] i D st'.
Proof.
  intros [H1 H2 H3 H4 H5 H6 H7] He Hi Hi4 Elen Erow Eb Er Ecell Hrow Hcells. pose proof Hc as (_ & HN & _).
  split; rewrite ?Elen; try done; [by rewrite Eb| | |].
  - intros i' Hi' Hne. rewrite Erow by done. destruct (H5 i' Hi') as (D' & Hr & Hcs). exists D'. split; [apply row_ok_mono; [lia|done]|].
    eapply cells_ok_mono; [lia|exact Hcs|]. intros x Hx. apply Ecell; [nia|]. rewrite (row_unique _ _ Hx). lia.
  - intros x Hx. pose proof (row_number x). destruct (H6 x Hx) as [A1 A2]. rewrite Ecell by nia. split; [done|].
    rewrite elem_of_app, list_elem_of_singleton. intros [?|E]; [done|]. rewrite <- E in He. cbn in He. nia.
  - intros r Hr. rewrite elem_of_app, list_elem_of_singleton. intros [Hin|E]; [by apply (H7 r Hr)|]. rewrite <- E in He. cbn in He. lia.
Qed.

Lemma hang_eq n p isfec st h x : m_number_rows c = 1 -> base (grp (rowq st).[0]) = seq_of (a + h * N) -> getSeqNo p = seq_of (a + x) -> 0 <= x - h * N < 5 * N ->
  let i := x / N - h in
  HangHorizontal n c p isfec st =
    st' ← try_rebuild n i (put_row i (hang_row isfec p ((rowq (extended i st)).[i])) (extended i st));
    let (st', irrecover) := sweep_rows c (getSeqNo p) st' in Some (st', HANG_SUCCESS, irrecover).
Proof.
  intros HM Hb0 Hs Hx i. unfold HangHorizontal. rewrite (row_index_ok st (getSeqNo p) h x Hb0 Hs Hx). fold i. pose proof (row_number x).
  pose proof Hc as (_ & HN & _).
  assert (0 <= i) by (subst i; nia). rewrite (proj2 (Z.eqb_neq i (-1))) by lia. unfold try_rebuild. rewrite HM.
  assert (Hlen : i < zlen (rowq (extended i st))).
  { unfold extended. rewrite Z.geb_leb. destruct (Z.leb_spec (zlen (rowq st)) i); [|done]. cbn [rowq set_rowq]. rewrite length_app. unfold new_rows.
    rewrite length_map, length_seq. lia. }
  cbn [put_row rowq set_rowq]. arr. done.
Qed.

(** A data packet that is new. *)
Lemma data_half arr h st x b : filter_at arr h [] st -> h * N <= x -> x - h * N < 5 * N -> cell st (x - h * N) = false ->
  let i := x / N - h in
  let st1 := set_order_required b (MarkCellReceived (seq_of (a + x)) CELL_RECEIVED st) in
  exists D, filter_half (arr ++ [AData x]) h [] i D (put_row i (hang_row false (f x) ((rowq (extended i st1)).[i])) (extended i st1)) /\
    (forall j, 0 <= j -> cell st1 j = if j =? x - h * N then true else cell st j).
Proof.
  intros H Hx Hx5 Hcell i st1. pose proof Hc as (_ & HN & Hb & _). pose proof (row_number x) as Hrn. assert (Hi : 0 <= i <= 4) by (subst i; nia).
  destruct (extended_ok _ _ _ i st H Hi) as [Hext Hlen]. destruct (fa_row _ _ _ _ Hext i ltac:(lia)) as (D & Hrow & Hcs).
  destruct (MarkCell_ok (seq_of (a + x)) CELL_RECEIVED st (x - h * N)) as (M1 & M2 & M3 & _ & M5); [rewrite (fa_base _ _ _ _ H); apply row_offset_pos; lia|lia|].
  assert (Hcells1 : forall j, 0 <= j -> cell st1 j = if j =? x - h * N then true else cell st j) by exact M5.
  assert (Erows : rowq (extended i st1) = rowq (extended i st)).
  { unfold extended. change (rowq st1) with (rowq st). by destruct (Z.geb i (zlen (rowq st))). }
  assert (Ecells : forall j, cell (extended i st) j = cell st j) by (intros j; unfold extended; by destruct (Z.geb i (zlen (rowq st)))).
  assert (Hnin : (x ∉ D) /\ ~ complete ((rowq (extended i st)).[i]) D).
  { destruct (Hcs x ltac:(subst i; lia)) as [A1 _]. rewrite Ecells, Hcell in A1. split; intros ?; assert (false = true) by (apply A1; auto); done. }
  destruct Hnin as [Hnin Hncomp]. exists (x :: D). split; [|done].
  set (st3 := put_row i _ _). assert (Hrow3 : (rowq st3).[i] = hang_row false (f x) ((rowq (extended i st)).[i])).
  { subst st3. cbn [put_row rowq set_rowq]. rewrite Erows. arr. done. }
  assert (Hcell3 : forall j, 0 <= j -> cell st3 j = if j =? x - h * N then true else cell st j).
  { intros j Hj. rewrite <- Hcells1 by done. unfold st3, cell, put_row, extended. cbn [cells set_rowq]. by destruct (Z.geb i (zlen (rowq st1))). }
  assert (Eb3 : cell_base st3 = cell_base (extended i st) /\ rebuilt st3 = rebuilt (extended i st)).
  { unfold st3, put_row, extended. change (rowq st1) with (rowq st). cbn [cell_base rebuilt set_rowq]. by destruct (Z.geb i (zlen (rowq st))). }
  destruct Eb3 as [Eb3 Er3]. apply (half_of _ _ _ _ _ (extended i st)); try done; [cbn [row_of]; lia|lia|lia| | | | | |].
  - subst st3. cbn [put_row rowq set_rowq]. by rewrite Erows, length_aset.
  - intros i' Hne. subst st3. cbn [put_row rowq set_rowq]. rewrite Erows. by arr.
  - rewrite Er3. apply (fa_rebuilt _ _ _ _ Hext).
  - intros y Hy Hne. rewrite Hcell3, Ecells by lia. rewrite (proj2 (Z.eqb_neq _ _)); [done|]. intros E. apply Hne. assert (y = x) as -> by lia. subst i. lia.
  - rewrite Hrow3. destruct Hrow as [R1 R2 R3 R4 R5 R6]. split; cbn [hang_row set_grp grp fec add_collected ClipPacket ClipData base collected]; try done.
    + rewrite R2. cbn [length]. lia.
    + by apply NoDup_cons_2.
    + intros y Hy. apply list_elem_of_In in Hy. destruct Hy as [<-|Hy]; [subst i; lia|]. apply R4. by apply list_elem_of_In.
    + rewrite R5, elem_of_app, list_elem_of_singleton. split; [by left|]. by intros [?|?].
    + cbn [map app]. apply (holds_ext _ (ClipPacket (f x) (grp ((rowq (extended i st)).[i])))); try done. by apply holds_ClipPacket.
  - intros y Hy. destruct (Hcs y Hy) as [A1 A2]. rewrite Ecells in A1, A2. rewrite Hcell3 by nia. rewrite elem_of_cons, elem_of_app, list_elem_of_singleton.
    destruct (Z.eqb_spec (y - h * N) (x - h * N)) as [E|Hne].
    + assert (y = x) as -> by lia. split; [done|]. split; [by left; left|done].
    + split; [|split].
      * intros [->|Hin]; [lia|]. apply A1. by left.
      * intros E. apply A1 in E as [Hin|Hcomp]; [by left; right|]. done.
      * intros [Hin|E]; [by apply A2|]. injection E as ->. lia.
Qed.

(** The control packet of a row that is not yet removed. *)
Lemma ctl_half arr h st r w : filter_at arr h [] st -> h <= r -> r - h <= 4 -> control_of P (row_packets r) w ->
  let i := r - h in
  let x := r * N + (N - 1) in
  let st1 := MarkCellReceived (seq_of (a + x)) CELL_EXTEND st in
  exists D, filter_half (arr ++ [ACtl r]) h [] i D (put_row i (hang_row true w ((rowq (extended i st1)).[i])) (extended i st1)) /\
    (forall j, 0 <= j -> cell st1 j = cell st j).
Proof.
  intros H Hr Hr4 Hw i x st1. pose proof Hc as (_ & HN & Hb & _). assert (Hi : 0 <= i <= 4) by (subst i; lia).
  assert (Hxw : 0 <= x - h * N < 5 * N) by (subst x; replace (r * N + (N - 1) - h * N) with (i * N + (N - 1)) by (subst i; lia); nia).
  destruct (extended_ok _ _ _ i st H Hi) as [Hext Hlen]. destruct (fa_row _ _ _ _ Hext i ltac:(lia)) as (D & Hrow & Hcs).
  destruct (MarkCell_ok (seq_of (a + x)) CELL_EXTEND st (x - h * N)) as (M1 & M2 & M3 & _ & M5); [rewrite (fa_base _ _ _ _ H); apply row_offset_pos; lia|lia|].
  fold st1 in M1, M2, M3, M5. exists D. split; [|done].
  assert (Erows : rowq (extended i st1) = rowq (extended i st)).
  { unfold extended. change (rowq st1) with (rowq st). by destruct (Z.geb i (zlen (rowq st))). }
  assert (Ecells : forall j, 0 <= j -> cell (extended i st1) j = cell (extended i st) j).
  { intros j Hj. transitivity (cell st1 j); [unfold extended; by destruct (Z.geb i (zlen (rowq st1)))|]. rewrite M5 by done. unfold extended. by destruct (Z.geb i (zlen (rowq st))). }
  set (st3 := put_row i _ _). assert (Hrow3 : (rowq st3).[i] = hang_row true w ((rowq (extended i st)).[i])).
  { subst st3. cbn [put_row rowq set_rowq]. rewrite Erows. arr. done. }
  assert (Hcell3 : forall j, 0 <= j -> cell st3 j = cell (extended i st) j) by (intros j Hj; rewrite <- Ecells by done; done).
  assert (Eb3 : cell_base st3 = cell_base (extended i st) /\ rebuilt st3 = rebuilt (extended i st)).
  { unfold st3, put_row, extended. change (rowq st1) with (rowq st). cbn [cell_base rebuilt set_rowq]. by destruct (Z.geb i (zlen (rowq st))). }
  destruct Eb3 as [Eb3 Er3]. apply (half_of _ _ _ _ _ (extended i st)); try done; [cbn [row_of]; lia|lia| | | | | |].
  - subst st3. cbn [put_row rowq set_rowq]. by rewrite Erows, length_aset.
  - intros i' Hne. subst st3. cbn [put_row rowq set_rowq]. rewrite Erows. by arr.
  - rewrite Er3. apply (fa_rebuilt _ _ _ _ Hext).
  - intros y Hy _. by rewrite Hcell3 by lia.
  - rewrite Hrow3. replace (h + i) with r in * by (subst i; lia). destruct Hrow as [R1 R2 R3 R4 R5 R6]. unfold hang_row.
    destruct (fec ((rowq (extended i st)).[i])) eqn:Ef; split; cbn [set_fec set_grp grp fec ClipControlPacket ClipData base collected]; try done.
    + rewrite Ef, elem_of_app. split; [by right; left|done].
    + by rewrite Ef.
    + rewrite elem_of_app. split; [by right; left|done].
    + rewrite app_nil_r in R6. apply (holds_ClipControlPacket _ _ (map f D) (row_packets r)); done.
  - intros y Hy. destruct (Hcs y Hy) as [A1 A2]. rewrite Hcell3 by nia. rewrite Hrow3, elem_of_app, list_elem_of_singleton. split; [|split].
    + intros Hin. apply A1. by left.
    + intros E. apply A1 in E as [Hin|[Hcf Hcn]]; [by left|]. right. unfold hang_row. by rewrite Hcf.
    + intros [Hin|E]; [by apply A2|done].
Qed.

(** ** Removal of old rows *)

(** Equal but for the rows whose losses are collected. *)
Record same_groups (st st' : Receive) : Prop := {
  sg_len : length (rowq st') = length (rowq st);
  sg_grp : forall i, grp ((rowq st').[i]) = grp ((rowq st).[i]) /\ fec ((rowq st').[i]) = fec ((rowq st).[i]);
  sg_base : cell_base st' = cell_base st;
  sg_cells : cells st' = cells st;
  sg_rebuilt : rebuilt st' = rebuilt st
}.

Lemma same_groups_trans st1 st2 st3 : same_groups st1 st2 -> same_groups st2 st3 -> same_groups st1 st3.
Proof. intros [] []. split; try congruence. intros i. destruct (sg_grp0 i), (sg_grp1 i). split; congruence. Qed.

Lemma collect_row_ok ix irr st : 0 <= ix < zlen (rowq st) -> exists st' irr', CollectIrrecoverRow c ix irr st = (st', irr') /\ same_groups st st'.
Proof.
  intros Hix. assert (Hrefl : same_groups st st) by (by split). unfold CollectIrrecoverRow. destruct (dismissed _); [by exists st, irr|].
  destruct (seqoff _ _ <? 0); [by exists st, irr|]. destruct (_ >? _); [by exists st, irr|].
  destruct (collect_losses _ _ _ _ _ _ _) as [[last val] irr']. eexists _, _. split; [reflexivity|]. split; try done.
  - cbn. by rewrite length_aset.
  - intros i. cbn [put_row rowq set_rowq]. destruct (Z.eq_dec i ix) as [->|Hne]; by arr.
Qed.

Lemma collect_rows_ok n : forall ix irr st, 0 <= ix -> ix + Z.of_nat n <= zlen (rowq st) ->
  exists st' irr', collect_rows c n ix irr st = (st', irr') /\ same_groups st st'.
Proof.
  induction n as [|n IH]; intros ix irr st H0 Hn; [exists st, irr; split; [done|by split]|]. cbn [collect_rows].
  destruct (collect_row_ok ix irr st ltac:(lia)) as (st1 & irr1 & E & Hs). rewrite E.
  destruct (IH (ix + 1) irr1 st1 ltac:(lia) ltac:(rewrite (sg_len _ _ Hs); lia)) as (st' & irr' & E' & Hs'). exists st', irr'.
  split; [done|]. by eapply same_groups_trans.
Qed.

Lemma filter_groups arr h rb st st' : filter_at arr h rb st -> same_groups st st' -> filter_at arr h rb st'.
Proof.
  intros [H1 H2 H3 H4 H5 H6 H7] [E1 E2 E3 E4 E5]. split; rewrite ?E1, ?E3, ?E5; try done.
  - intros i Hi. destruct (H5 i Hi) as (D & [R1 R2 R3 R4 R5 R6] & Hcs). destruct (E2 i) as [Eg Ef]. exists D. split.
    + split; rewrite ?Eg, ?Ef; done.
    + intros x Hx. unfold cell, complete in *. rewrite E4, Ef. by apply Hcs.
  - intros x Hx. unfold cell. rewrite E4. by apply H6.
Qed.

(** The first [k] rows and their cells are removed. *)
Lemma filter_drop arr h rb st k : filter_at arr h rb st -> 0 <= k < zlen (rowq st) ->
  let st1 := set_rowq (list.drop (Z.to_nat k) (rowq st)) st in
  let st' := set_cells (base (grp (rowq st1).[0])) (list.drop (Z.to_nat (Z.min (N * k) (zlen (cells st)))) (cells st)) st1 in
  filter_at arr (h + k) rb st' /\ zlen (rowq st') = zlen (rowq st) - k /\
  forall x, (h + k) * N <= x -> cell st' (x - (h + k) * N) = cell st (x - h * N).
Proof.
  intros [H1 H2 H3 H4 H5 H6 H7] Hk st1 st'. pose proof Hc as (_ & HN & _).
  assert (Hlen : zlen (rowq st') = zlen (rowq st) - k) by (cbn; rewrite length_drop; lia).
  assert (Hrows : forall i, 0 <= i -> (rowq st').[i] = (rowq st).[k + i]).
  { intros i Hi. cbn [st' st1 set_cells set_rowq rowq]. rewrite aget_drop by done. by rewrite Z2Nat.id by lia. }
  assert (Hcells : forall x, (h + k) * N <= x -> cell st' (x - (h + k) * N) = cell st (x - h * N)).
  { intros x Hx. unfold cell. cbn [st' set_cells cells]. rewrite lookup_drop. assert (0 <= N * k) by nia.
    destruct (Z.le_gt_cases (N * k) (zlen (cells st))).
    - rewrite Z.min_l by lia. do 2 f_equal. lia.
    - rewrite Z.min_r by lia. rewrite !lookup_ge_None_2 by lia. done. }
  split; [|done]. split; rewrite ?Hlen; try done; try lia.
  - cbn [st' set_cells cell_base]. change (rowq st1) with (rowq st'). rewrite Hrows, Z.add_0_r by lia. destruct (H5 k ltac:(lia)) as (D & Hr & _).
    apply (ro_base _ _ _ _ Hr).
  - intros i Hi. rewrite Hrows by lia. destruct (H5 (k + i) ltac:(lia)) as (D & Hr & Hcs). rewrite Z.add_assoc in Hr, Hcs. exists D. split; [done|].
    intros x Hx. rewrite Hcells by nia. by apply Hcs.
  - intros x Hx. rewrite Hcells by nia. apply H6. by replace (h + zlen (rowq st)) with (h + k + (zlen (rowq st) - k)) by lia.
  - intros r Hr. apply H7. lia.
Qed.

Lemma sweep_ok arr h rb st seq : m_number_rows c = 1 -> filter_at arr h rb st -> zlen (rowq st) <= 5 ->
  exists st' irr k, sweep_rows c seq st = (st', irr) /\ 0 <= k /\ filter_at arr (h + k) rb st' /\ zlen (rowq st') = zlen (rowq st) - k /\
    zlen (rowq st') <= 3 /\ (0 < k -> 2 <= zlen (rowq st')) /\
    forall x, (h + k) * N <= x -> cell st' (x - (h + k) * N) = cell st (x - h * N).
Proof.
  intros HM H H5. pose proof (fa_rows _ _ _ _ H) as Hn. unfold sweep_rows. rewrite HM, Z.eqb_refl. cbn [orb]. rewrite !andb_true_r.
  assert (Hsame : zlen (rowq st) <= 3 -> forall irr : losses, exists st' (irr' : losses) k, (st, irr) = (st', irr') /\ 0 <= k /\ filter_at arr (h + k) rb st' /\
    zlen (rowq st') = zlen (rowq st) - k /\ zlen (rowq st') <= 3 /\ (0 < k -> 2 <= zlen (rowq st')) /\
    forall x, (h + k) * N <= x -> cell st' (x - (h + k) * N) = cell st (x - h * N)).
  { intros H3 irr. exists st, irr, 0. rewrite Z.add_0_r, Z.sub_0_r. do 5 (split; [done|]). split; [lia|done]. }
  rewrite Z.gtb_ltb. destruct (Z.ltb_spec 1 (zlen (rowq st))) as [H1|H1]; [|apply Hsame; lia]. set (past := if _ >? 0 then _ else _).
  assert (Hpast : past = zlen (rowq st) - 4 /\ 4 <= zlen (rowq st) \/ zlen (rowq st) <= 3 /\ (past < 0 \/ past = 0 /\ zlen (rowq st) = 3)).
  { subst past. rewrite Z.gtb_ltb. destruct (Z.ltb_spec 0 (zlen (rowq st) - 2 - 1)); [lia|]. right. destruct (_ <=? _); lia. }
  clearbody past. rewrite Z.geb_leb. destruct (Z.leb_spec 0 past) as [Hp|Hp]; [|apply Hsame; lia].
  destruct (collect_rows_ok (Z.to_nat (1 + past)) 0 [] st ltac:(lia) ltac:(lia)) as (st1 & irr & E & Hs). rewrite E, Z.gtb_ltb, (sg_len _ _ Hs).
  rewrite (proj2 (Z.ltb_lt _ (zlen (rowq st)))) by lia. cbn [andb].
  destruct (filter_drop arr h rb st1 (1 + past) (filter_groups _ _ _ _ _ H Hs)) as (F1 & F2 & F3); [rewrite (sg_len _ _ Hs); lia|].
  eexists _, irr, (1 + past). split; [reflexivity|]. split; [lia|]. split; [exact F1|]. rewrite (sg_len _ _ Hs) in F2.
  split; [exact F2|]. split; [etrans; [apply Z.eq_le_incl; exact F2|lia]|].
  split; [intros _; etrans; [|apply Z.eq_le_incl; symmetry; exact F2]; lia|]. intros x Hx. etrans; [exact (F3 x Hx)|]. unfold cell. by rewrite (sg_cells _ _ Hs).
Qed.

(** ** One arrival *)

Lemma filter_past arr h rb st e : filter_at arr h rb st -> row_of e < h -> filter_at (arr ++ [e]) h rb st.
Proof.
  intros [H1 H2 H3 H4 H5 H6 H7] He. pose proof Hc as (_ & HN & _). split; try done.
  - intros i Hi. destruct (H5 i Hi) as (D & Hr & Hcs). exists D. split; [apply row_ok_mono; [lia|done]|]. by eapply cells_ok_mono; [lia|exact Hcs|].
  - intros x Hx. destruct (H6 x Hx) as [A1 A2]. split; [done|]. rewrite elem_of_app, list_elem_of_singleton. intros [?|E]; [done|].
    rewrite <- E in He. cbn in He. pose proof (row_number x). nia.
  - intros r Hr. rewrite elem_of_app, list_elem_of_singleton. intros [Hin|E]; [by apply (H7 r Hr)|]. rewrite <- E in He. cbn in He. lia.
Qed.

Lemma filter_known arr h rb st x : filter_at arr h rb st -> h * N <= x -> cell st (x - h * N) = true -> filter_at (arr ++ [AData x]) h rb st.
Proof.
  intros [H1 H2 H3 H4 H5 H6 H7] Hx Hcell. pose proof Hc as (_ & HN & _). split; try done.
  - intros i Hi. destruct (H5 i Hi) as (D & [R1 R2 R3 R4 R5 R6] & Hcs). exists D. split.
    + split; try done. rewrite R5, elem_of_app, list_elem_of_singleton. split; [by left|]. by intros [?|?].
    + intros y Hy. destruct (Hcs y Hy) as [A1 A2]. split; [done|]. rewrite elem_of_app, list_elem_of_singleton. intros [?|E]; [by apply A2|]. by injection E as ->.
  - intros y Hy. destruct (H6 y Hy) as [A1 A2]. split; [done|]. rewrite elem_of_app, list_elem_of_singleton. intros [?|E]; [done|]. injection E as ->. congruence.
  - intros r Hr. rewrite elem_of_app, list_elem_of_singleton. intros [Hin|E]; [by apply (H7 r Hr)|done].
Qed.

Lemma filter_clear arr h rb st incoming n : filter_at arr h rb st -> filter_at arr h [] (PacketFilterRecv.InsertRebuilt n incoming st).1.
Proof.
  intros [H1 H2 H3 H4 H5 H6 H7]. by split.
Qed.

Lemma insert_by_seq_perm u l : PacketFilterRecv.insert_by_seq u l ≡ₚ u :: l.
Proof. induction l as [|v l IH]; [done|]. cbn. destruct (_ <? 0); [done|]. rewrite IH. apply perm_swap. Qed.
Lemma sort_by_seq_perm l : PacketFilterRecv.sort_by_seq l ≡ₚ l.
Proof. induction l as [|u l IH]; [done|]. cbn. by rewrite insert_by_seq_perm, IH. Qed.

(** [p] is packet [x] of the stream, or was rebuilt as it. *)
Definition stands_for (x : Z) (p : t) : Prop := p = f x \/ exists b, carries c b (seq_of (a + x)) (f x) p.

(** The filter between two arrivals; [outs] are the packets handed on. *)
Record rx (arr : list arrival) (h : Z) (st : Receive) (outs : list t) : Prop := {
  rx_filter : filter_at arr h [] st;
  rx_len : zlen (rowq st) <= 3;
  rx_two : h = 0 \/ 2 <= zlen (rowq st);
  rx_handed : forall x, h * N <= x -> cell st (x - h * N) = true -> exists p, p ∈ outs /\ stands_for x p
}.

Definition newest (h : Z) (st : Receive) : Z := h + zlen (rowq st) - 1.

(** The packets handed on by an arrival: itself, and rebuilt packets that have
    not arrived. *)
Definition sound (arr : list arrival) (e : arrival) (ps : list t) : Prop :=
  (forall x, e = AData x -> f x ∈ ps) /\
  forall p, p ∈ ps -> (exists x, e = AData x /\ p = f x) \/ exists x, 0 <= x /\ (AData x ∉ arr) /\ stands_for x p.

(** After the packet is hung: rebuilding, removal, handing on. *)
Lemma finish_hang n u arr e h i D st st1 st2 seq outs own : m_number_rows c = 1 ->
  filter_half (arr ++ [e]) h [] i D st1 -> h = 0 \/ 2 <= zlen (rowq st) -> zlen (rowq st) <= zlen (rowq st1) <= 5 ->
  (forall x, h * N <= x -> cell st1 (x - h * N) = true -> exists p, p ∈ outs ++ own /\ stands_for x p) ->
  sound arr e own -> try_rebuild (S n) i st1 = Some st2 ->
  exists st3 irr h', sweep_rows c seq st2 = (st3, irr) /\
    let (st', incoming) := PacketFilterRecv.InsertRebuilt (S u) own st3 in
    let ps := PacketFilterRecv.sort_by_seq incoming in
    rx (arr ++ [e]) h' st' (outs ++ ps) /\ h <= h' /\ newest h' st' = newest h st1 /\ sound arr e ps.
Proof.
  intros HM Hhalf Htwo Hlen Hhanded Hsound Htry. pose proof Hc as (_ & HN & _).
  destruct (try_rebuild_ok n _ _ _ _ _ _ Hhalf) as (st2' & new & Htry' & Hf & Hrows & Hnew). rewrite Htry in Htry'. injection Htry' as <-. cbn [app] in Hf.
  destruct (sweep_ok _ _ _ _ seq HM Hf) as (st3 & irr & k & E & Hk & Hf3 & Hl3 & Hl3' & Htwo3 & Hcells3); [rewrite Hrows; lia|].
  exists st3, irr, (h + k). split; [done|]. destruct (PacketFilterRecv.InsertRebuilt (S u) own st3) as [st' incoming] eqn:Ei.
  injection Ei as <- <-. rewrite (fa_rebuilt _ _ _ _ Hf3).
  assert (Hnew1 : take (S u) new = new) by (destruct Hnew as [[-> _]|(x & q & b & -> & _)]; cbn; rewrite ?take_nil; done). rewrite Hnew1. intros ps.
  assert (Hps : forall p, p ∈ ps <-> p ∈ own \/ p ∈ new) by (intros p; unfold ps; by rewrite sort_by_seq_perm, elem_of_app).
  split; [|split; [lia|split; [unfold newest; cbn [rowq]; rewrite Hl3, Hrows; lia|]]].
  - split.
    + apply (filter_clear _ _ _ st3 own (S u) Hf3).
    + exact Hl3'.
    + destruct (Z.eq_dec k 0) as [->|]; [|right; apply Htwo3; lia]. rewrite Z.add_0_r. destruct Htwo as [->|]; [by left|right]. cbn [rowq]. rewrite Hl3, Hrows. lia.
    + intros x Hx Hcell. change (cell st3 (x - (h + k) * N) = true) in Hcell. rewrite Hcells3 in Hcell by lia. assert (Hx0 : h * N <= x) by nia.
      assert (Hold : cell st1 (x - h * N) = true -> exists p, p ∈ outs ++ ps /\ stands_for x p).
      { intros Hc1. destruct (Hhanded x Hx0 Hc1) as (p & Hp & Hs). exists p. split; [|done]. apply elem_of_app in Hp as [Hp|Hp]; apply elem_of_app; [by left|].
        right. apply Hps. by left. }
      destruct Hnew as [[-> Heq]|(y & q & b & -> & Hy & _ & _ & Hq & Heq)]; rewrite Heq in Hcell by lia; [by apply Hold|].
      destruct (Z.eqb_spec (x - h * N) (y - h * N)) as [Exy|]; [|by apply Hold]. assert (x = y) as -> by lia.
      exists q. split; [apply elem_of_app; right; apply Hps; right; by left|]. right. by exists b.
  - split; [intros x He; apply Hps; left; by apply (proj1 Hsound)|].
    intros p Hp. apply Hps in Hp as [Hp|Hp]; [by apply Hsound|]. destruct Hnew as [[-> _]|(y & q & b & -> & Hy & Hnin & _ & Hq & _)]; [set_solver|].
    apply list_elem_of_singleton in Hp as ->. right. exists y. split; [|split].
    + destruct Hhalf as [Hh [Hi _] _]. nia.
    + rewrite elem_of_app in Hnin. tauto.
    + right. by exists b.
Qed.

Context (ctl : Z -> t) (Hf : forall x, 0 <= x -> getSeqNo (f x) = seq_of (a + x)) (Hdata : forall x, 0 <= x -> getMsgSeq true (f x) <> 0)
  (Hctl : forall r, 0 <= r -> is_control c a (-1) (row_packets r) (r * N + (N - 1)) (ctl r)).

Definition packet_of (e : arrival) : t := match e with AData x => f x | ACtl r => ctl r end.

Lemma ctl_fields r : 0 <= r -> getSeqNo (ctl r) = seq_of (a + (r * N + (N - 1))) /\ getMsgSeq true (ctl r) = 0 /\
  i8 ((m_pcData (ctl r)).[0]) = -1 /\ control_of P (row_packets r) (ctl r).
Proof.
  intros Hr. destruct (Hctl r Hr) as [H1 H2 H3 H4]. split; [|split; [done|split; [|done]]].
  - unfold getSeqNo. rewrite H4. pose proof (seq_of_valid (a + (r * N + (N - 1)))) as Hv. unfold valid, m_iMaxSeqNo in Hv.
    apply i32_id. split; [|change (2 ^ 31) with 2147483648]; lia.
  - by rewrite H2.
Qed.

Lemma hang_rows fuel p row_ctl st : m_number_rows c = 1 -> forall st' stat irr, HangHorizontal fuel c p row_ctl st = Some (st', stat, irr) -> is_crazy stat = false ->
  exists loss, hang fuel c p row_ctl false (-1) st = Some (st', loss).
Proof.
  intros HM st' stat irr E Hs. unfold hang. rewrite E. cbn [mbind option_bind]. rewrite HM. cbn [Z.gtb Z.compare Pos.compare Pos.compare_cont].
  rewrite andb_false_r. cbn [mbind option_bind is_crazy orb]. rewrite Hs. eexists. reflexivity.
Qed.

Lemma exists_cell st i : 0 <= i -> (i <? zlen (cells st)) && negb (i <? 0) && (cells st).[i] = cell st i.
Proof.
  intros Hi. rewrite (proj2 (Z.ltb_ge i 0)) by lia. cbn [negb]. rewrite andb_true_r. unfold cell, aget. rewrite (proj2 (Z.ltb_ge i 0)) by lia.
  destruct (Z.ltb_spec i (zlen (cells st))); [|by rewrite lookup_ge_None_2 by lia]. cbn [andb].
  destruct (lookup_lt_is_Some_2 (cells st) (Z.to_nat i) ltac:(lia)) as [b E]. by rewrite E, (list_lookup_total_correct _ _ _ E).
Qed.

(** The arrivals that the filter can place: no more than two rows ahead of the
    newest row, and less than half a cycle behind. *)
Definition in_reach (top : Z) (e : arrival) : Prop :=
  0 <= row_of e <= top + 2 /\ (top - row_of e) * N < m_iSeqNoTH.

Definition position_of (e : arrival) : Z := match e with AData x => x | ACtl r => r * N + (N - 1) end.

Lemma position_row e : position_of e / N = row_of e.
Proof. pose proof Hc as (_ & HN & _). destruct e as [x|r]; cbn; [done|]. apply row_unique. lia. Qed.

Lemma packet_seqno e : 0 <= row_of e -> getSeqNo (packet_of e) = seq_of (a + position_of e).
Proof.
  intros He. pose proof Hc as (_ & HN & _). destruct e as [x|r]; cbn in *; [|by apply ctl_fields].
  apply Hf. pose proof (row_number x). nia.
Qed.

(** What a step does. *)
Definition step_ok (arr : list arrival) (e : arrival) (h : Z) (st : Receive) (outs : list t) (res : option (Receive * list t * losses)) : Prop :=
  exists h' st' ps loss, res = Some (st', ps, loss) /\ rx (arr ++ [e]) h' st' (outs ++ ps) /\ h <= h' /\
    newest h' st' = Z.max (newest h st) (row_of e) /\ sound arr e ps.

Lemma step_keeps arr e h st outs own loss : rx arr h st outs -> filter_at (arr ++ [e]) h [] st -> row_of e <= newest h st -> sound arr e own ->
  forall n, step_ok arr e h st outs (let (st', incoming) := PacketFilterRecv.InsertRebuilt n own st in Some (st', PacketFilterRecv.sort_by_seq incoming, loss)).
Proof.
  intros [R1 R2 R3 R4] Hfil Hrow Hs n. cbn [PacketFilterRecv.InsertRebuilt]. rewrite (fa_rebuilt _ _ _ _ R1), take_nil, app_nil_r.
  eexists h, _, _, loss. split; [reflexivity|]. split; [|split; [lia|split; [unfold newest in *; cbn [rowq]; lia|]]].
  - split; [|done|done|].
    + apply (filter_clear _ _ _ st own n Hfil).
    + intros x Hx Hcell. destruct (R4 x Hx Hcell) as (p & Hp & Hst). exists p. split; [|done]. apply elem_of_app. by left.
  - split; [intros x He; rewrite sort_by_seq_perm; by apply (proj1 Hs)|]. intros p Hp. rewrite sort_by_seq_perm in Hp. by apply Hs.
Qed.

(** The window of an arrival. *)
Lemma reach_window arr h st outs e : rx arr h st outs -> in_reach (newest h st) e ->
  - m_iSeqNoTH < position_of e - h * N < 5 * N /\ (h <= row_of e -> 0 <= position_of e - h * N /\ row_of e - h <= 4).
Proof.
  intros [R1 R2 R3 _] [H1 H2]. pose proof Hc as (_ & HN & Hb & _). pose proof (row_number (position_of e)) as Hp. rewrite position_row in Hp.
  unfold newest in *. pose proof (fa_rows _ _ _ _ R1). pose proof (fa_h _ _ _ _ R1). split; [split; nia|]. intros Hr. split; [nia|lia].
Qed.

Lemma length_put_extended i g st : 0 <= i -> zlen (rowq (put_row i g (extended i st))) = Z.max (zlen (rowq st)) (i + 1).
Proof.
  intros Hi. cbn [put_row rowq set_rowq]. rewrite length_aset. unfold extended. rewrite Z.geb_leb. destruct (Z.leb_spec (zlen (rowq st)) i); [|lia].
  cbn [rowq set_rowq]. rewrite length_app. unfold new_rows. rewrite length_map, length_seq. lia.
Qed.

(** The packet is hung into its row and the step is finished. *)
Lemma step_hangs n u arr e h st outs st1 p row_ctl D own : m_number_rows c = 1 -> rx arr h st outs -> in_reach (newest h st) e -> h <= row_of e ->
  rowq st1 = rowq st -> getSeqNo p = seq_of (a + position_of e) ->
  filter_half (arr ++ [e]) h [] (row_of e - h) D
    (put_row (row_of e - h) (hang_row row_ctl p ((rowq (extended (row_of e - h) st1)).[row_of e - h])) (extended (row_of e - h) st1)) ->
  (forall x, h * N <= x -> cell st1 (x - h * N) = true -> exists q, q ∈ outs ++ own /\ stands_for x q) -> sound arr e own ->
  exists st3 loss, hang (S n) c p row_ctl false (-1) st1 = Some (st3, loss) /\
    step_ok arr e h st outs (let (st', incoming) := PacketFilterRecv.InsertRebuilt (S u) own st3 in Some (st', PacketFilterRecv.sort_by_seq incoming, loss)).
Proof.
  intros HM Hrx Hreach Hr Erows Hseq Hhalf Hhanded Hsound. destruct (reach_window _ _ _ _ _ Hrx Hreach) as [Hw1 Hw2]. destruct (Hw2 Hr) as [Hw3 Hw4].
  pose proof (filter_first _ _ _ _ (rx_filter _ _ _ _ Hrx)) as Hb0. rewrite <- Erows in Hb0. set (i := row_of e - h) in *.
  pose proof (hang_eq (S n) p row_ctl st1 h (position_of e) HM Hb0 Hseq ltac:(lia)) as Eh. cbn zeta in Eh. rewrite position_row in Eh. fold i in Eh.
  set (st2 := put_row i _ _) in *. assert (Hl2 : zlen (rowq st2) = Z.max (zlen (rowq st)) (i + 1)) by (rewrite <- Erows; apply length_put_extended; lia).
  destruct (try_rebuild_ok n _ _ _ _ _ _ Hhalf) as (st2' & new & Et & _). rewrite Et in Eh. cbn [mbind option_bind] in Eh.
  assert (Hcells : forall j, cell st2 j = cell st1 j).
  { intros j. unfold st2, cell, put_row, extended. cbn [cells set_rowq]. by destruct (Z.geb i (zlen (rowq st1))). }
  destruct (finish_hang n u arr e h i D st st2 st2' (getSeqNo p) outs own HM Hhalf (rx_two _ _ _ _ Hrx)) as (st3 & irr & h' & Es & Hfin).
  - pose proof (rx_len _ _ _ _ Hrx). lia.
  - intros x Hx. rewrite Hcells. by apply Hhanded.
  - done.
  - done.
  - rewrite Es in Eh. destruct (hang_rows (S n) p row_ctl st1 HM st3 HANG_SUCCESS irr Eh eq_refl) as [loss El]. exists st3, loss. split; [done|].
    destruct (PacketFilterRecv.InsertRebuilt (S u) own st3) as [st' incoming]. destruct Hfin as (F1 & F2 & F3 & F4).
    exists h', st', (PacketFilterRecv.sort_by_seq incoming), loss. split; [done|]. split; [done|]. split; [done|]. split; [|done].
    rewrite F3. unfold newest. rewrite Hl2. lia.
Qed.

Lemma receive_step n u arr e h st outs : m_number_rows c = 1 -> rx arr h st outs -> in_reach (newest h st) e ->
  step_ok arr e h st outs (PacketFilterRecv.receive (S n) c (S u) (packet_of e) st).
Proof.
  intros HM Hrx Hreach. pose proof Hrx as [R1 R2 R3 R4]. destruct (reach_window _ _ _ _ _ Hrx Hreach) as [Hw1 Hw2]. pose proof Hc as (_ & HN & Hb & _).
  pose proof Hreach as [[Hr0 Hrtop] _]. pose proof (packet_seqno e Hr0) as Hseq. pose proof (filter_first _ _ _ _ R1) as Hb0.
  pose proof (row_number (position_of e)) as Hpos. rewrite position_row in Hpos. pose proof (fa_h _ _ _ _ R1) as Hh.
  unfold PacketFilterRecv.receive, FecReceiver.receive. rewrite (large_drop_none st (getSeqNo (packet_of e)) h (position_of e) Hb0 Hseq) by lia.
  assert (Hold : row_of e < h -> row_of e <= newest h st) by (intros; unfold newest; pose proof (fa_rows _ _ _ _ R1); lia).
  destruct e as [x|r]; cbn [packet_of position_of row_of] in *.
  - assert (Hx0 : 0 <= x) by nia. rewrite (proj2 (Z.eqb_neq _ SRT_MSGNO_CONTROL)) by (by apply Hdata).
    rewrite Hseq, (fa_base _ _ _ _ R1), row_offset_pos by lia.
    assert (Hown : sound arr (AData x) [f x]).
    { split; [intros y [= ->]; by left|]. intros p Hp. apply list_elem_of_singleton in Hp as ->. left. by exists x. }
    destruct (Z.ltb_spec (x - h * N) 0) as [Hpast|Hin]; cbn [orb].
    { cbn [mbind option_bind]. assert (x / N < h) by nia. apply step_keeps; [done|by apply filter_past|by apply Hold|done]. }
    rewrite <- (proj2 (Z.ltb_ge (x - h * N) 0) Hin) at 1. rewrite exists_cell by done. destruct (cell st (x - h * N)) eqn:Ecell.
    { cbn [mbind option_bind]. apply step_keeps; [done|apply filter_known; [done|lia|done]| |done].
      cbn [row_of]. unfold newest. destruct (Z.le_gt_cases (h + zlen (rowq st)) (x / N)) as [Hge|]; [|lia].
      destruct (fa_beyond _ _ _ _ R1 x) as [Hno _]; [nia|]. congruence. }
    assert (Hhx : h <= x / N) by nia. destruct (Hw2 Hhx) as [_ Hi4]. set (b := getMsgOrderFlag (f x)).
    destruct (data_half arr h st x b R1 ltac:(lia) ltac:(lia) Ecell) as (D & Hhalf & Hcells).
    destruct (step_hangs n u arr (AData x) h st outs (set_order_required b (MarkCellReceived (seq_of (a + x)) CELL_RECEIVED st)) (f x) false D [f x]
      HM Hrx Hreach Hhx) as (st3 & loss & Ehang & Hok); [| |exact Hhalf| |done|].
    + done.
    + cbn [position_of]. done.
    + intros y Hy Hc1. rewrite Hcells in Hc1 by lia. destruct (Z.eqb_spec (y - h * N) (x - h * N)) as [Exy|Hne].
      * assert (y = x) as -> by lia. exists (f x). split; [apply elem_of_app; right; by left|by left].
      * destruct (R4 y Hy Hc1) as (p & Hp & Hs). exists p. split; [apply elem_of_app; by left|done].
    + rewrite Ehang. cbn [mbind option_bind]. exact Hok.
  - destruct (ctl_fields r Hr0) as (C1 & C2 & C3 & C4). rewrite C2, Z.eqb_refl, C3, Z.eqb_refl. cbn [negb].
    assert (Hown : sound arr (ACtl r) []) by (split; [done|intros p Hp; set_solver]).
    destruct (Z.lt_ge_cases r h) as [Hpast|Hin].
    + assert (Em : MarkCellReceived (getSeqNo (ctl r)) CELL_EXTEND st = st).
      { unfold MarkCellReceived. rewrite Hseq, (fa_base _ _ _ _ R1), row_offset_pos by lia. rewrite Z.geb_leb, (proj2 (Z.leb_gt _ _)) by nia.
        cbn [orb]. rewrite <- (fa_base _ _ _ _ R1). by destruct st. }
      rewrite Em. destruct (hang_rows (S n) (ctl r) true st HM st HANG_PAST []) as [loss El]; [|done|].
      * unfold HangHorizontal. rewrite (row_index_past st (getSeqNo (ctl r)) h (r * N + (N - 1)) Hb0 Hseq) by nia. done.
      * rewrite El. cbn [mbind option_bind]. apply step_keeps; [done|by apply filter_past|by apply Hold|done].
    + destruct (Hw2 Hin) as [_ Hi4]. destruct (ctl_half arr h st r (ctl r) R1 Hin Hi4 C4) as (D & Hhalf & Hcells). rewrite Hseq.
      destruct (step_hangs n u arr (ACtl r) h st outs (MarkCellReceived (seq_of (a + (r * N + (N - 1)))) CELL_EXTEND st) (ctl r) true D []
        HM Hrx Hreach Hin) as (st3 & loss & Ehang & Hok); [| |exact Hhalf| |done|].
      * done.
      * done.
      * intros y Hy Hc1. rewrite Hcells in Hc1 by lia. rewrite app_nil_r. by apply R4.
      * rewrite Ehang. cbn [mbind option_bind]. exact Hok.
Qed.

(** ** A sequence of arrivals *)

(** The newest row so far is [top]. *)
Fixpoint admissible (top : Z) (arr : list arrival) : Prop :=
  match arr with
  | [] => True
  | e :: arr => in_reach top e /\ admissible (Z.max top (row_of e)) arr
  end.

Fixpoint newest_row (top : Z) (arr : list arrival) : Z :=
  match arr with
  | [] => top
  | e :: arr => newest_row (Z.max top (row_of e)) arr
  end.

(** The packets handed on, arrival by arrival. *)
Fixpoint receive_all (fuel units : nat) (pkts : list t) (st : Receive) : option (Receive * list (list t)) :=
  match pkts with
  | [] => Some (st, [])
  | p :: pkts =>
      '(st, ps, _) ← PacketFilterRecv.receive fuel c units p st;
      '(st, outs) ← receive_all fuel units pkts st;
      Some (st, ps :: outs)
  end.

Lemma receive_all_ok n u arr : m_number_rows c = 1 -> forall before h st handed, rx before h st handed -> admissible (newest h st) arr ->
  exists st' outs h', receive_all (S n) (S u) (map packet_of arr) st = Some (st', outs) /\ rx (before ++ arr) h' st' (handed ++ concat outs) /\
    newest h' st' = newest_row (newest h st) arr /\
    forall k e ps, arr !! k = Some e -> outs !! k = Some ps -> sound (before ++ take k arr) e ps.
Proof.
  intros HM. induction arr as [|e arr IH]; intros before h st handed Hrx Hadm.
  - exists st, [], h. split; [done|]. cbn [concat]. rewrite !app_nil_r. done.
  - destruct Hadm as [Hreach Hadm]. destruct (receive_step n u before e h st handed HM Hrx Hreach) as (h1 & st1 & ps & loss & E & Hrx1 & _ & Hnew & Hs).
    rewrite <- Hnew in Hadm. destruct (IH _ _ _ _ Hrx1 Hadm) as (st' & outs & h' & E' & Hrx' & Hnew' & Hs'). exists st', (ps :: outs), h'.
    cbn [receive_all map]. rewrite E. cbn [mbind option_bind]. rewrite E'. split; [done|]. cbn [concat newest_row]. rewrite <- !app_assoc in Hrx'.
    split; [exact Hrx'|]. split; [by rewrite Hnew', Hnew|]. intros [|k] e' ps' Hk Hps; cbn in Hk, Hps.
    + injection Hk as <-. injection Hps as <-. by rewrite take_0, app_nil_r.
    + cbn [take]. specialize (Hs' k e' ps' Hk Hps). by rewrite <- app_assoc in Hs'.
Qed.

(** A row with its control packet and all packets but [x]. *)
Lemma recovered arr h st outs r x : rx arr h st outs -> newest h st <= r + 1 -> ACtl r ∈ arr -> (r * N <= x < r * N + N) -> 0 <= r ->
  (forall y, r * N <= y < r * N + N -> y <> x -> AData y ∈ arr) -> exists p, p ∈ outs /\ stands_for x p.
Proof using Hc.
  clear Hctl Hdata Hf Hsrc ctl.
  intros [R1 R2 R3 R4] Hnew Hct Hx Hr Hall. pose proof Hc as (_ & HN & _). unfold newest in Hnew.
  assert (Hrow : h <= r < h + zlen (rowq st)).
  { split; [lia|]. destruct (Z.le_gt_cases (h + zlen (rowq st)) r); [|lia]. by destruct (fa_ctl_beyond _ _ _ _ R1 r). }
  destruct (fa_row _ _ _ _ R1 (r - h) ltac:(lia)) as (D & Hrow' & Hcs). replace (h + (r - h)) with r in * by lia.
  apply (R4 x); [nia|]. destruct (Hcs x Hx) as [A1 _]. apply A1. destruct (decide (N - 1 <= zlen D)) as [Hge|Hlt]; [right; split; [by apply (ro_fec _ _ _ _ Hrow')|done]|].
  destruct (row_rest _ _ _ _ Hrow') as (rest & Hp & Hlen). destruct rest as [|y1 [|y2 rest]]; cbn in Hlen; [lia|lia|].
  assert (Hnd : NoDup (positions r)).
  { unfold positions. apply NoDup_fmap_2; [intros i j Hij; lia|]. apply NoDup_seq. }
  rewrite Hp in Hnd. apply list.NoDup_app in Hnd as (_ & Hdis & Hnd2). apply list.NoDup_cons in Hnd2 as [Hy12 _].
  assert (Hmiss : forall y, y ∈ y1 :: y2 :: rest -> y <> x -> complete ((rowq st).[r - h]) D).
  { intros y Hy Hne. assert (Hyr : r * N <= y < r * N + N) by (apply elem_of_positions; rewrite Hp; apply elem_of_app; by right).
    destruct (Hcs y Hyr) as [B1 B2]. specialize (B2 (Hall y Hyr Hne)). apply B1 in B2 as [Hin|Hcomp]; [|done]. by destruct (Hdis y Hin). }
  right. destruct (Z.eq_dec y1 x) as [->|Hne]; [|apply (Hmiss y1); [by left|done]].
  apply (Hmiss y2); [right; by left|]. intros ->. apply Hy12. by left.
Qed.

Lemma init_rx isn : a = isn + 1 -> rx [] 0 (init c (seq_of isn)) [].
Proof using Hc.
  clear Hctl Hdata Hf Hsrc ctl.
  intros Ha. pose proof Hc as (HM & HN & _ & HP & _). unfold init. rewrite incseq_seq_of, <- Ha. unfold sizeCol, sizeRow. rewrite HM. cbn [Z.gtb Z.compare].
  assert (Hcell : forall st j, cells st = replicate (Z.to_nat (1 * N)) false -> cell st j = false).
  { intros st j E. unfold cell. rewrite E. destruct (replicate _ false !! _) as [b|] eqn:Eb; [|done]. by apply lookup_replicate in Eb as [-> _]. }
  split; cbn [rowq length]; [|lia|by left|intros x _; by rewrite Hcell].
  split; cbn [rowq length cell_base rebuilt]; try done; [by rewrite Z.add_0_r| | |].
  - intros i Hi. assert (i = 0) as -> by lia. exists []. split.
    + split; cbn; try done; [by rewrite Z.add_0_r|constructor|set_solver|split; [done|set_solver]|]. by apply ConfigureGroup_holds.
    + intros x Hx. rewrite Hcell by done. split; [|set_solver]. split; [done|]. intros [Hin|[Hcf _]]; [set_solver|done].
  - intros x _. split; [by rewrite Hcell|set_solver].
  - set_solver.
Qed.
End Rows.

(** A stream of data packets behind the initial number [isn]. *)
Record stream (c : config) (isn : Z) (f : Z -> t) : Prop := {
  st_source : forall x, 0 <= x -> source_packet (payloadSize c) (f x);
  st_seqno : forall x, 0 <= x -> getSeqNo (f x) = seq_of (isn + 1 + x);
  st_data : forall x, 0 <= x -> getMsgSeq true (f x) <> 0
}.

#[export] Instance CPacket_inhabited : Inhabited t := populate (mk 0 0 0 0 []).

(** The control packet that the sender's filter makes of row [r]: the one
    behind the row's last packet, when the stream is sent up to it. *)
Definition sent_control (c : config) (kflg isn : Z) (ctl : t) (f : Z -> t) (r : Z) : t :=
  let last := r * m_number_cols c + (m_number_cols c - 1) in
  match send_stream c kflg ctl (group_packets f 0 1 (Z.to_nat (last + 1))) (FecSender.init c (seq_of isn)) with
  | Some (_, _, outs) => (outs.[last]).[0]
  | None => ctl
  end.

Lemma sent_control_ok c kflg isn ctl f r : rows_only c -> m_cols_only c = false -> stream c isn f -> 0 <= r ->
  is_control c (isn + 1) (-1) (row_packets c f r) (r * m_number_cols c + (m_number_cols c - 1)) (sent_control c kflg isn ctl f r).
Proof.
  intros (HM & HN & Hb & HP & _) Hco Hs Hr. unfold sent_control. set (N := m_number_cols c) in *. set (last := r * N + (N - 1)). assert (Hlast : 0 <= last) by (subst last; nia).
  assert (Hconf : configured c) by (split; [done|]; rewrite HM; fold N; split_and!; lia).
  destruct (send_stream_ok c (isn + 1) f Hconf (st_seqno _ _ _ Hs) kflg (Z.to_nat (last + 1)) 0 ctl (FecSender.init c (seq_of isn)) ltac:(lia)) as (st & ctl' & outs & E & _ & Hlen & Hall);
    [by apply init_at|]. rewrite E.
  destruct (lookup_lt_is_Some_2 outs (Z.to_nat last) ltac:(lia)) as [ws Ews]. destruct (Hall _ _ Ews) as (w1 & w2 & -> & H1 & H2).
  replace (0 + Z.of_nat (Z.to_nat last)) with last in * by lia.
  assert (Ec : col_due c last = false) by (unfold col_due; by rewrite HM). rewrite Ec in H1. subst w1.
  assert (Er : row_due c last = true).
  { unfold row_due. rewrite Hco. fold N. cbn [negb andb]. apply Z.eqb_eq. symmetry. apply (Z.mod_unique _ _ r); subst last; lia. }
  rewrite Er in H2. destruct H2 as (w & -> & Hw). cbn [app] in Ews.
  assert (outs.[last] = [w]) as ->.
  { unfold aget. rewrite (proj2 (Z.ltb_ge last 0)) by lia. by apply list_lookup_total_correct. }
  change ([w].[0]) with w. fold N in Hw. replace (last - (N - 1)) with (r * N) in Hw by (subst last; lia). exact Hw.
Qed.

(** C8. Rows only: the packets of a stream and the control packets that the
    sender's filter makes of its rows arrive in any order, repeated or not at
    all, none more than two rows ahead of the newest row so far.  The filter
    always returns; it hands on every data packet, and besides them only
    rebuilt packets, each the packet of the stream with a number that has not
    arrived before.  A row whose control packet and packets but one have
    arrived, before a packet of the second row behind it has, is handed on
    completely. *)
Theorem fec_rows_recover (c : config) (isn kflg : Z) (ctl : t) (f : Z -> t) (n u : nat) (arr : list arrival)
  (Hc : rows_only c) (Hco : m_cols_only c = false) (Hs : stream c isn f) (Harr : admissible c 0 arr) :
  exists st outs,
    receive_all c (S n) (S u) (map (packet_of f (sent_control c kflg isn ctl f)) arr) (init c (seq_of isn)) = Some (st, outs) /\
    (forall k e ps, arr !! k = Some e -> outs !! k = Some ps -> sound c (isn + 1) f (take k arr) e ps) /\
    forall r x, 0 <= r -> ACtl r ∈ arr -> r * m_number_cols c <= x < r * m_number_cols c + m_number_cols c ->
      (forall y, r * m_number_cols c <= y < r * m_number_cols c + m_number_cols c -> y <> x -> AData y ∈ arr) ->
      newest_row c 0 arr <= r + 1 -> exists p, p ∈ concat outs /\ stands_for c (isn + 1) f x p.
Proof.
  pose proof Hc as (HM & _). pose proof (init_rx c (isn + 1) f Hc isn eq_refl) as Hrx.
  assert (Hn : newest 0 (init c (seq_of isn)) = 0) by done.
  destruct (receive_all_ok c (isn + 1) f Hc (st_source _ _ _ Hs) (sent_control c kflg isn ctl f) (st_seqno _ _ _ Hs) (st_data _ _ _ Hs)
    (fun r => sent_control_ok c kflg isn ctl f r Hc Hco Hs) n u arr HM [] 0 _ [] Hrx) as (st & outs & h & E & Hrx' & Hnew & Hsound); [by rewrite Hn|].
  exists st, outs. split; [done|]. split; [done|]. intros r x Hr Hct Hx Hall Htop. rewrite Hn in Hnew.
  eapply (recovered c (isn + 1) f Hc _ h st); [exact Hrx'|rewrite Hnew; exact Htop|done..].
Qed.

(** Rows of three packets: the second row begins before the first is complete,
    and packet 1 never arrives. *)
Definition example_flow (k : Z) : t := example_packet (seq_of (0x7FFFFFFC + 1 + k)) ((1000 + 50 * k) mod 2 ^ 32) [k; 2 * k; 255].
Definition example_arrivals : list arrival := [AData 0; ACtl 0; AData 4; AData 0; AData 2; AData 3].

Lemma fec_rows_recover_witness :
  exists st outs,
    receive_all example_fec 1 1 (map (packet_of example_flow (sent_control example_fec 0 0x7FFFFFFC (mk 0 0 0 0 []) example_flow)) example_arrivals)
      (init example_fec (seq_of 0x7FFFFFFC)) = Some (st, outs) /\
    map (map m_pcData) outs = [[[0; 0; 255]]; []; [[4; 8; 255]]; [[0; 0; 255]]; [[1; 2; 255]; [2; 4; 255]]; [[3; 6; 255]]].
Proof.
  destruct (fec_rows_recover example_fec 0x7FFFFFFC 0 (mk 0 0 0 0 []) example_flow 0 0 example_arrivals) as (st & outs & E & _).
  - split; [reflexivity|]. split_and!; first [reflexivity|discriminate|by left].
  - reflexivity.
  - split; intros x Hx.
    + split; [discriminate|reflexivity|]. apply Z.mod_pos_bound. reflexivity.
    + unfold example_flow, example_packet, getSeqNo. cbn [SRT_PH_SEQNO].
      pose proof (seq_of_valid (0x7FFFFFFC + 1 + x)) as Hv. unfold valid, m_iMaxSeqNo in Hv. apply i32_id. split; [|change (2 ^ 31) with 2147483648]; lia.
    + discriminate.
  - cbn. repeat split; discriminate.
  - exists st, outs. split; [exact E|]. vm_compute in E. injection E as <- <-. reflexivity.
Defined.
