(* ===== verification/FecLoss.v ===== *)
(** What the receiver's filter reports as lost: the loss records of a row, and
    what a large gap in the stream does to the cells. *)
From S2P Require Import Prelude Packet SeqNo FecGroup FecSend FecRecv FecRows.
Import CPacket CSeqNo FECFilterBuiltin FecReceiver.

Section RowLosses.
Context (b : Z) (l : list bool).

(** The ranges [R] of cells as the records name them. *)
Definition records (R : list (Z * Z)) : losses := map (fun r => (seq_of (b + r.1), seq_of (b + r.2))) R.

Definition covers (R : list (Z * Z)) (x : Z) : Prop := exists r, r ∈ R /\ r.1 <= x <= r.2.

Lemma covers_nil x : ~ covers [] x.
Proof. intros (r & Hr & _). set_solver. Qed.

Lemma covers_cons lo hi R x : covers ((lo, hi) :: R) x <-> lo <= x <= hi \/ covers R x.
Proof.
  unfold covers. split.
  - intros (r & Hr & Hx). apply elem_of_cons in Hr as [->|Hr]; [by left|right; by exists r].
  - intros [Hx|(r & Hr & Hx)]; [exists (lo, hi)|exists r]; (split; [set_solver|done]).
Qed.

(** The loop and the record after it. *)
Definition collected (n : nat) (i : Z) (last : bool) (val : Z * Z) (irr : losses) : losses :=
  let '(last, val, irr) := collect_losses n i (seq_of b) l last val irr in
  if negb last then irr ++ [(val.1, incseq_by (seq_of b) (i + Z.of_nat n - 1))] else irr.

(** A gap reaches to the cell behind it, if the row has one. *)
Definition named (i : Z) (last : bool) (x : Z) : Prop :=
  l.[x] = false \/ (if x =? i then last else l.[x - 1]) = false.

Lemma collected_ok n : forall i lo last val irr, 0 <= i -> i + Z.of_nat n < 2 ^ 31 ->
  (last = false -> val.1 = seq_of (b + lo) /\ 0 <= lo < i) ->
  exists R, collected n i last val irr = irr ++ records R /\
    forall x, covers R x <-> (last = false /\ lo <= x < i) \/ (i <= x < i + Z.of_nat n /\ named i last x).
Proof.
  induction n as [|n IH]; intros i lo last val irr Hi Hn Hlast.
  - unfold collected. cbn [collect_losses]. destruct last; cbn [negb].
    + exists []. cbn. rewrite app_nil_r. split; [done|]. intros x. split; [by intros ?%covers_nil|]. intros [[? _]|]; [done|lia].
    + destruct Hlast as [Hv Hlo]; [done|]. exists [(lo, i - 1)]. unfold records. cbn [map fst snd].
      rewrite incseq_by_seq_of, Hv by lia. split; [by replace (i + Z.of_nat 0 - 1) with (i - 1) by lia|].
      intros x. rewrite covers_cons. split; [intros [Hx|[]%covers_nil]; left; split; [done|lia]|intros [[_ Hx]|]; [left|]; lia].
  - assert (Hnext : forall x, i <= x < i + Z.of_nat (S n) -> (named i last x <-> (x = i /\ (l.[i] = false \/ last = false)) \/ (i < x /\ named (i + 1) l.[i] x))).
    { intros x Hx. unfold named. destruct (Z.eqb_spec x i) as [->|Hne]; [split; [by left|intros [[_ ?]|]; [done|lia]]|].
      destruct (Z.eqb_spec x (i + 1)) as [->|]; [replace (i + 1 - 1) with i by lia|]; (split; [intros; right; split; [lia|done]|intros [[]|[_ ?]]; done]). }
    unfold collected. cbn [collect_losses]. destruct (l.[i]) eqn:El; destruct last; cbn [negb andb]; replace (i + Z.of_nat (S n) - 1) with ((i + 1) + Z.of_nat n - 1) by lia.
    + destruct (IH (i + 1) 0 true val irr ltac:(lia) ltac:(lia) ltac:(done)) as (R & E & HR). exists R. split; [exact E|].
      intros x. rewrite HR. split; [intros [[? _]|[Hx Hnm]]; [done|]; right; split; [lia|]; apply Hnext; [lia|]; right; split; [lia|done]|].
      intros [[? _]|[Hx Hnm]]; [done|]. apply Hnext in Hnm as [[_ [|]]|[Hxi Hnm]]; [done|done| |lia]. right. split; [lia|done].
    + destruct Hlast as [Hv Hlo]; [done|]. rewrite incseq_by_seq_of by lia.
      destruct (IH (i + 1) 0 true (val.1, seq_of (b + i)) (irr ++ [(val.1, seq_of (b + i))]) ltac:(lia) ltac:(lia) ltac:(done)) as (R & E & HR).
      exists ((lo, i) :: R). split; [etransitivity; [exact E|]; unfold records; cbn [map fst snd]; by rewrite <- app_assoc, Hv|].
      intros x. rewrite covers_cons, HR. split.
      * intros [Hx|[[? _]|[Hx Hnm]]]; [|done|].
        -- destruct (Z.eq_dec x i) as [->|]; [right; split; [lia|]; apply Hnext; [lia|]; left; split; [done|by right]|left; split; [done|lia]].
        -- right. split; [lia|]. apply Hnext; [lia|]. right. split; [lia|done].
      * intros [[_ Hx]|[Hx Hnm]]; [left; lia|]. apply Hnext in Hnm as [[-> _]|[Hxi Hnm]]; [left; lia| |lia]. right. right. split; [lia|done].
    + rewrite incseq_by_seq_of by lia.
      destruct (IH (i + 1) i false (seq_of (b + i), seq_of (b + i)) irr ltac:(lia) ltac:(lia)) as (R & E & HR); [intros _; split; [done|lia]|]. exists R. split; [exact E|].
      intros x. rewrite HR. split.
      * intros [[_ Hx]|[Hx Hnm]]; right; (split; [lia|]); apply Hnext; [lia| |lia|]; [left; split; [lia|by left]|right; split; [lia|done]].
      * intros [[? _]|[Hx Hnm]]; [done|]. apply Hnext in Hnm as [[-> _]|[Hxi Hnm]]; [left; split; [done|lia]| |lia]. right. split; [lia|done].
    + destruct Hlast as [Hv Hlo]; [done|].
      destruct (IH (i + 1) lo false val irr ltac:(lia) ltac:(lia)) as (R & E & HR); [intros _; split; [done|lia]|]. exists R. split; [exact E|].
      intros x. rewrite HR. split.
      * intros [[_ Hx]|[Hx Hnm]].
        -- destruct (Z.eq_dec x i) as [->|]; [right; split; [lia|]; apply Hnext; [lia|]; left; split; [done|by left]|left; split; [done|lia]].
        -- right. split; [lia|]. apply Hnext; [lia|]. right. split; [lia|done].
      * intros [[_ Hx]|[Hx Hnm]]; [left; split; [done|lia]|]. apply Hnext in Hnm as [[-> _]|[Hxi Hnm]]; [left; split; [done|lia]| |lia]. right. split; [lia|done].
Qed.
End RowLosses.

(** The first time a row of the receiver's queue is given up, the records
    made for it name exactly the packets of the row that are missing and, for
    each gap that ends within the row, the packet behind the gap, which has
    been received; the row gives no records a second time. *)
Theorem fec_row_losses (c : config) (b o ix : Z) (st : Receive) (irr : losses)
  (Hix : 0 <= ix < zlen (rowq st)) (Hg : dismissed (rowq st).[ix] = false) (Hb : cell_base st = seq_of b)
  (Hbase : base (grp (rowq st).[ix]) = seq_of (b + o)) (Ho : 0 <= o) (HN : 0 < m_number_cols c)
  (Hcells : o + m_number_cols c <= zlen (cells st) < m_iSeqNoTH) :
  exists st' R, CollectIrrecoverRow c ix irr st = (st', irr ++ records b R) /\
    (forall x, covers R x <-> o <= x < o + m_number_cols c /\ ((cells st).[x] = false \/ (o < x /\ (cells st).[x - 1] = false))) /\
    cells st' = cells st /\ (forall irr', CollectIrrecoverRow c ix irr' st' = (st', irr')).
Proof.
  unfold CollectIrrecoverRow at 1. rewrite Hg, Hb, Hbase, seqoff_seq_of by lia. replace (b + o - b) with o by lia.
  rewrite (proj2 (Z.ltb_ge _ _)), Z.gtb_ltb, (proj2 (Z.ltb_ge _ _)) by lia.
  destruct (collected_ok b (cells st) (Z.to_nat (m_number_cols c)) o 0 true (0, 0) irr Ho) as (R & E & HR); [unfold m_iSeqNoTH in *; lia|done|].
  unfold collected in E. rewrite Z2Nat.id in * by lia. cbv zeta. destruct (collect_losses _ _ _ _ _ _ _) as [[last val] irr1].
  eexists _, R. split; [f_equal; exact E|]. split; [|split; [done|]].
  - intros x. rewrite HR. unfold named. split.
    + intros [[? _]|[Hx Hnm]]; [done|]. split; [done|]. destruct Hnm as [|Hnm]; [by left|]. destruct (Z.eqb_spec x o); [done|]. right. split; [lia|done].
    + intros [Hx [|[Hox Hnm]]]; right; (split; [done|]); [by left|right]. destruct (Z.eqb_spec x o); [lia|done].
  - intros irr'. unfold CollectIrrecoverRow. cbn [put_row set_rowq rowq]. rewrite aget_aset_eq by done. done.
Qed.

(** A row of six with a gap of two in it and its last packet missing. *)
Definition example_wide : config := mkConfig 6 1 SRT_ARQ_ONREQ false true 6 100 77.
Definition example_received : Receive :=
  set_cells (seq_of 40) [true; false; false; true; true; false] (init example_wide (seq_of 39)).

Lemma fec_row_losses_witness :
  exists st' R, CollectIrrecoverRow example_wide 0 [] example_received = (st', records 40 R) /\ records 40 R = [(41, 43); (45, 45)].
Proof.
  destruct (fec_row_losses example_wide 40 0 0 example_received []) as (st' & R & E & _).
  1-7: vm_compute; first [reflexivity|split; first [reflexivity|discriminate]|discriminate].
  exists st', R. split; [exact E|]. change (records 40 R) with (st', [] ++ records 40 R).2. rewrite <- E. reflexivity.
Defined.

(** The arrivals of the packets at the positions [from], [from + 1], ... *)
Definition in_order (from n : nat) : list arrival := map (fun x => AData (Z.of_nat x)) (seq from n).

(** The positions of the packets that the last arrival makes the filter hand on. *)
Definition last_handed_on (arr : list arrival) : option (list Z) :=
  '(_, outs) ← receive_all example_fec 1 1 (map (packet_of example_flow (sent_control example_fec 0 0x7FFFFFFC (mk 0 0 0 0 []) example_flow)) arr)
      (init example_fec (seq_of 0x7FFFFFFC));
  map (fun p => seqoff (seq_of 0x7FFFFFFD) (getSeqNo p)) <$> outs !! (length arr - 1)%nat.

(** Rows of three packets, rows only.  After a gap whose first packet
    behind it is more than five rows ahead of the oldest row, the filter starts
    its rows anew, but not the number of its first cell: with the removal of the
    first old row the cells are those of other packets, packets of later rows
    are taken for known ones although they have never arrived before, and the
    packet that row 12 lacks is not rebuilt when its control packet comes.
    Without the gap, and with one whose end is five rows ahead, it is. *)
Theorem fec_large_gap :
  last_handed_on (in_order 0 3 ++ in_order 18 20 ++ [ACtl 12]) = Some [] /\
  last_handed_on (in_order 0 38 ++ [ACtl 12]) = Some [38] /\
  last_handed_on (in_order 0 2 ++ in_order 15 23 ++ [ACtl 12]) = Some [38].
Proof. vm_compute. split; [|split]; reflexivity. Qed.
