(* ===== verification/RateWindow.v ===== *)
(** Rate estimation at the receiver: [CPktTimeWindow] and its tools of
    window.h and window.cpp, with the peak filter of utilities.h.  The clock is
    an argument; the double arithmetic of [ceilPerMega] is that of IEEE 754. *)
From Stdlib Require Import SpecFloat.
From stdpp Require Import sorting.
From S2P Require Import Prelude Ring SeqNo Packet.
Import CSeqNo.

Module CPktTimeWindowTools.
(** [PassFilter<int>]. *)
Record PassFilter := mkFilter { lower : Z; median : Z; upper : Z }.

Definition encloses (f : PassFilter) (value : Z) : bool := (value >? lower f) && (value <? upper f).

(** [GetPeakRange]; [std::nth_element] puts at its position the element that
    sorting would put there.  The shift to the left has no value where it
    leaves the type. *)
Definition GetPeakRange (window : list Z) : option PassFilter :=
  let m := (merge_sort Z.le window).[Z.of_nat (length window / 2)] in
  up ← int_op (Z.shiftl m 3);
  Some (mkFilter (Z.shiftr m 3) m up).

(** [AccumulatePassFilter]: the sum and the number of the elements. *)
Definition AccumulatePassFilter (p : list Z) (f : PassFilter) : option (Z * Z) :=
  foldl (fun acc v => '(sum, count) ← acc;
    if negb (encloses f v) then Some (sum, count) else sum ← int_op (sum + v); Some (sum, count + 1)) (Some (0, 0)) p.

Definition u64 (z : Z) : Z := z mod 2 ^ 64.

(** [AccumulatePassFilterParallel<unsigned, unsigned long>]. *)
Definition AccumulatePassFilterParallel (p para : list Z) (f : PassFilter) : option (Z * Z * Z) :=
  foldl (fun acc vp => '(sum, count, parasum) ← acc;
    if negb (encloses f vp.1) then Some (sum, count, parasum)
    else sum ← int_op (sum + vp.1); Some (sum, u32 (count + 1), u64 (parasum + vp.2))) (Some (0, 0, 0)) (zip p para).

(** *** The double type *)
Definition double_of (z : Z) : spec_float := binary_normalize 53 1024 z 0 false.
Definition double_div (x y : spec_float) : spec_float := SFdiv 53 1024 x y.

(** [int(::ceil(x))]; the conversion has no value outside the type. *)
Definition int_ceil (x : spec_float) : option Z :=
  match x with
  | S754_zero _ => Some 0
  | S754_finite s m e =>
      let z := if s then Zneg m else Zpos m in
      int_op (if 0 <=? e then z * 2 ^ e else - ((- z) / 2 ^ (- e)))
  | _ => None
  end.

Definition MEGA : spec_float := SFmul 53 1024 (double_of 1000) (double_of 1000).

Definition ceilPerMega (value count : Z) : option Z := int_ceil (double_div MEGA (double_div (double_of value) (double_of count))).

(** The packets and the bytes per second. *)
Definition getPktRcvSpeed_in (window abytes : list Z) (hdr_size : Z) : option (Z * Z) :=
  filter ← GetPeakRange window;
  '(sum, count, bytes) ← AccumulatePassFilterParallel window abytes filter;
  if count <=? zlen window / 2 then Some (0, 0) else
  let bytes := u64 (bytes + u64 (hdr_size * count)) in
  bytesps ← ceilPerMega sum bytes;
  pktps ← ceilPerMega sum count;
  Some (pktps, bytesps).

Definition getBandwidth_in (window : list Z) : option Z :=
  filter ← GetPeakRange window;
  '(sum, count) ← AccumulatePassFilter window filter;
  sum ← int_op (sum + median filter);
  ceilPerMega sum (count + 1).
End CPktTimeWindowTools.

Module CPktTimeWindow.
Import CPktTimeWindowTools.

Record t := mk {
  m_aPktWindow : list Z;
  m_aBytesWindow : list Z;
  m_iPktWindowPtr : Z;
  m_aProbeWindow : list Z;
  m_iProbeWindowPtr : Z;
  m_iLastSentTime : Z;
  m_iMinPktSndInt : Z;
  m_tsLastArrTime : Z;
  m_tsCurrArrTime : Z;
  m_tsProbeTime : Z;
  m_Probe1Sequence : Z;
  m_zPayloadSize : Z;
  m_zHeaderSize : Z;
}.

Definition PUMASK_SEQNO_PROBE : Z := 0xF.

(** The constructor, with [initialize]: [h] bytes of header, [s] of payload. *)
Definition init (ASIZE PSIZE : nat) (now h s : Z) : t :=
  mk (replicate ASIZE 1000000) (replicate ASIZE (i32 s)) 0 (replicate PSIZE 1000) 0 0 1000000 now 0 0 SRT_SEQNO_NONE s h.

Definition getPktRcvSpeed (st : t) : option (Z * Z) := getPktRcvSpeed_in (m_aPktWindow st) (m_aBytesWindow st) (m_zHeaderSize st).
Definition getBandwidth (st : t) : option Z := getBandwidth_in (m_aProbeWindow st).

Definition onPktSent (currtime : Z) (st : t) : t :=
  let interval := i32 (currtime - m_iLastSentTime st) in
  mk (m_aPktWindow st) (m_aBytesWindow st) (m_iPktWindowPtr st) (m_aProbeWindow st) (m_iProbeWindowPtr st) currtime
    (if (interval <? m_iMinPktSndInt st) && (interval >? 0) then interval else m_iMinPktSndInt st)
    (m_tsLastArrTime st) (m_tsCurrArrTime st) (m_tsProbeTime st) (m_Probe1Sequence st) (m_zPayloadSize st) (m_zHeaderSize st).

(** A pointer of a window of size [size] moves on. *)
Definition next_ptr (size ptr : Z) : Z := if ptr + 1 =? size then 0 else ptr + 1.

Definition onPktArrival (now pktsz : Z) (st : t) : t :=
  mk ((m_aPktWindow st).[m_iPktWindowPtr st <- i32 (now - m_tsLastArrTime st)])
    ((m_aBytesWindow st).[m_iPktWindowPtr st <- pktsz]) (next_ptr (zlen (m_aPktWindow st)) (m_iPktWindowPtr st))
    (m_aProbeWindow st) (m_iProbeWindowPtr st) (m_iLastSentTime st) (m_iMinPktSndInt st)
    now now (m_tsProbeTime st) (m_Probe1Sequence st) (m_zPayloadSize st) (m_zHeaderSize st).

Definition set_probe1 (time seq : Z) (st : t) : t :=
  mk (m_aPktWindow st) (m_aBytesWindow st) (m_iPktWindowPtr st) (m_aProbeWindow st) (m_iProbeWindowPtr st) (m_iLastSentTime st)
    (m_iMinPktSndInt st) (m_tsLastArrTime st) (m_tsCurrArrTime st) time seq (m_zPayloadSize st) (m_zHeaderSize st).

Definition probe1Arrival (now : Z) (pkt : CPacket.t) (unordered : bool) (st : t) : t :=
  if unordered && (CPacket.getSeqNo pkt =? m_Probe1Sequence st) then set_probe1 (m_tsProbeTime st) SRT_SEQNO_NONE st
  else set_probe1 now (CPacket.getSeqNo pkt) st.

(** The interval of a pair, for a full packet: a signed 64-bit quotient when
    the times are in order. *)
Definition probe_interval (timediff payload pktsz : Z) : Z :=
  if pktsz =? 0 then i32 timediff else i32 (u64 (timediff * payload) / pktsz).

Definition probe2Arrival (now : Z) (pkt : CPacket.t) (st : t) : t :=
  if (m_Probe1Sequence st =? SRT_SEQNO_NONE) || negb (incseq (m_Probe1Sequence st) =? CPacket.getSeqNo pkt) then st else
  mk (m_aPktWindow st) (m_aBytesWindow st) (m_iPktWindowPtr st)
    ((m_aProbeWindow st).[m_iProbeWindowPtr st <- probe_interval (now - m_tsProbeTime st) (m_zPayloadSize st) (CPacket.getLength pkt)])
    (next_ptr (zlen (m_aProbeWindow st)) (m_iProbeWindowPtr st)) (m_iLastSentTime st) (m_iMinPktSndInt st)
    (m_tsLastArrTime st) now (m_tsProbeTime st) SRT_SEQNO_NONE (m_zPayloadSize st) (m_zHeaderSize st).

Definition probeArrival (now : Z) (pkt : CPacket.t) (unordered : bool) (st : t) : t :=
  let inorder16 := Z.land (CPacket.getSeqNo pkt) PUMASK_SEQNO_PROBE in
  let st := if inorder16 =? 0 then probe1Arrival now pkt unordered st else st in
  if unordered then st
  else if inorder16 =? 1 then probe2Arrival now pkt st else st.
End CPktTimeWindow.
Import CPktTimeWindowTools CPktTimeWindow.

(** ** The peak filter *)

Definition zsum (l : list Z) : Z := foldr Z.add 0 l.

(** The elements that pass. *)
Definition good (f : PassFilter) (l : list Z) : list Z := List.filter (encloses f) l.

Lemma zsum_perm l l' : l ≡ₚ l' -> zsum l = zsum l'.
Proof. unfold zsum. induction 1; cbn [foldr]; lia. Qed.

Lemma good_perm f l l' : l ≡ₚ l' -> good f l ≡ₚ good f l'.
Proof.
  induction 1; cbn; repeat case_match; try done; [by constructor|by constructor|by etransitivity].
Qed.

Lemma zsum_bounds a b l : Forall (fun v => a < v < b) l -> zlen l * a <= zsum l <= zlen l * b /\ (l <> [] -> zlen l * a < zsum l < zlen l * b).
Proof.
  induction 1 as [|v l Hv _ [IH _]]; cbn [zsum foldr length]; [by split|]. change (foldr Z.add 0 l) with (zsum l).
  rewrite Nat2Z.inj_succ, !Z.mul_succ_l. split; [|intros _]; lia.
Qed.

Lemma good_values f l : Forall (fun v => lower f < v < upper f) (good f l).
Proof.
  apply Forall_forall. intros v Hv. apply filter_In in Hv as [_ Hv]. unfold encloses in Hv.
  apply andb_true_iff in Hv as [H1 H2]. rewrite Z.gtb_ltb in H1. lia.
Qed.

(** A sum of positive numbers that is formed step by step overflows exactly
    when the whole sum does. *)
Lemma accumulate_from f l s c : 0 <= lower f -> 0 <= s < 2 ^ 31 ->
  foldl (fun acc v => '(sum, count) ← acc;
    if negb (encloses f v) then Some (sum, count) else sum ← int_op (sum + v); Some (sum, count + 1)) (Some (s, c)) l =
  if s + zsum (good f l) <? 2 ^ 31 then Some (s + zsum (good f l), c + zlen (good f l)) else None.
Proof.
  intros Hlow. assert (Hpos : forall l, 0 <= zsum (good f l)).
  { intros k. pose proof (good_values f k) as Hg. induction Hg as [|v k' Hv _ IH]; cbn; [lia|]. change (foldr Z.add 0 k') with (zsum k'). lia. }
  assert (Hfail : forall k, foldl (fun acc v => '(sum, count) ← acc;
    if negb (encloses f v) then Some (sum, count) else sum ← int_op (sum + v); Some (sum, count + 1)) None k = None) by (by induction k).
  revert s c. induction l as [|v l IH]; intros s c Hs.
  - cbn. rewrite Z.add_0_r, (proj2 (Z.ltb_lt _ _)) by lia. do 2 f_equal. lia.
  - cbn [foldl mbind option_bind]. pose proof (good_values f (v :: l)) as Hg. pose proof (Hpos l) as Hl. cbn [good List.filter] in *.
    destruct (encloses f v) eqn:Hv; cbn [negb]; [|by apply IH]. apply Forall_inv in Hg as Hgv. cbn [zsum foldr length].
    change (foldr Z.add 0 (List.filter (encloses f) l)) with (zsum (good f l)).
    destruct (decide (in_i32 (s + v))) as [Hi|Hi].
    + rewrite int_op_Some by done. unfold in_i32 in Hi. cbn [mbind option_bind]. rewrite IH by lia. rewrite !Z.add_assoc. destruct (_ <? _); [|done]. do 2 f_equal. fold (good f l). lia.
    + rewrite int_op_None by done. cbn [mbind option_bind]. rewrite Hfail. unfold in_i32 in Hi. rewrite (proj2 (Z.ltb_ge _ _)) by lia. done.
Qed.

Lemma accumulate_ok f l : 0 <= lower f ->
  AccumulatePassFilter l f = if zsum (good f l) <? 2 ^ 31 then Some (zsum (good f l), zlen (good f l)) else None.
Proof. intros Hf. unfold AccumulatePassFilter. by rewrite (accumulate_from f l 0 0) by lia. Qed.

(** The median that the filter is built around. *)
Definition middle (window : list Z) : Z := (merge_sort Z.le window).[Z.of_nat (length window / 2)].

Definition peak (m : Z) : PassFilter := mkFilter (m / 8) m (m * 8).

Lemma range_ok w : GetPeakRange w = (up ← int_op (middle w * 8); Some (peak (middle w))).
Proof.
  unfold GetPeakRange, peak. change (merge_sort Z.le w).[Z.of_nat (length w / 2)] with (middle w). rewrite Z.shiftl_mul_pow2, Z.shiftr_div_pow2 by lia. change (2 ^ 3) with 8.
  unfold int_op. by case_decide.
Qed.

Lemma middle_perm w w' : w ≡ₚ w' -> middle w = middle w'.
Proof.
  intros Hp. unfold middle. rewrite (Permutation_length Hp).
  assert (merge_sort Z.le w = merge_sort Z.le w') as ->; [|done].
  apply (StronglySorted_unique Z.le); try apply StronglySorted_merge_sort; try apply _.
  by rewrite !merge_sort_Permutation.
Qed.

Lemma middle_in w : w <> [] -> middle w ∈ w.
Proof.
  intros Hw. enough (middle w ∈ merge_sort Z.le w) as Hin by (by rewrite (merge_sort_Permutation Z.le w) in Hin). unfold middle.
  destruct (lookup_lt_is_Some_2 (merge_sort Z.le w) (length w / 2)) as [v Hv].
  { rewrite (Permutation_length (merge_sort_Permutation Z.le w)). destruct w; [done|]. apply Nat.div_lt; cbn; lia. }
  rewrite (aget_lookup _ _ v) by (try lia; by rewrite Nat2Z.id). by eapply list_elem_of_lookup_2.
Qed.

Lemma good_positive m l : Forall (fun v => 0 < v) (good (peak m) l) /\ (m <= 0 -> good (peak m) l = []).
Proof.
  pose proof (good_values (peak m) l) as Hg. cbn [lower upper peak] in Hg.
  assert (Hd : m <= 0 -> m / 8 >= m) by (intros Hm; pose proof (Z.mul_div_le m 8 ltac:(lia)); pose proof (Z.mul_succ_div_gt m 8 ltac:(lia)); lia).
  assert (Hd' : 0 < m -> 0 <= m / 8) by (intros; apply Z.div_pos; lia).
  split.
  - revert Hg. apply List.Forall_impl. intros v Hv. destruct (Z.le_gt_cases m 0); lia.
  - intros Hm. destruct (good (peak m) l) as [|v k]; [done|]. apply Forall_inv in Hg. lia.
Qed.

(** The bandwidth estimate from a window of packet-pair intervals is a
    mega divided by the mean of the median and of all intervals strictly
    between an eighth and eight times the median - whatever the order in which
    the intervals stand in the window; that mean lies within the same bounds.
    When the median is zero the filter keeps nothing, and the division of the
    mega by zero is converted to an integer, for which the code has no value. *)
Theorem rate_bandwidth (w : list Z) (Hw : w <> []) (Hpos : Forall (fun v => 0 <= v) w)
  (Hbig : middle w * 8 * (zlen w + 1) < 2 ^ 31) :
  let m := middle w in let kept := good (peak m) w in
  m ∈ w /\
  (forall w', w' ≡ₚ w -> getBandwidth_in w' = getBandwidth_in w) /\
  getBandwidth_in w = ceilPerMega (m + zsum kept) (1 + zlen kept) /\
  (m = 0 -> getBandwidth_in w = None) /\
  (0 < m -> (1 + zlen kept) * (m / 8) < m + zsum kept < (1 + zlen kept) * (m * 8)).
Proof.
  intros m kept. pose proof (middle_in w Hw) as Hm. fold m in Hm. assert (H0 : 0 <= m) by (by eapply Forall_forall in Hpos; [|apply list_elem_of_In, Hm]).
  assert (Hd : 0 <= m / 8 <= m) by (split; [apply Z.div_pos; lia|apply Z.div_le_upper_bound; lia]).
  pose proof (zsum_bounds (m / 8) (m * 8) kept (good_values (peak m) w)) as [Hs Hs']. fold m in Hbig.
  assert (Hlen : zlen kept <= zlen w) by (unfold kept, good; pose proof (List.filter_length_le (encloses (peak m)) w); lia).
  assert (Hsum : zsum kept <= zlen w * (m * 8)) by nia.
  assert (E : getBandwidth_in w = ceilPerMega (m + zsum kept) (1 + zlen kept)).
  { unfold getBandwidth_in. rewrite range_ok. fold m. rewrite int_op_Some by (unfold in_i32; nia). cbn [mbind option_bind].
    rewrite accumulate_ok by (cbn; lia). fold kept. rewrite (proj2 (Z.ltb_lt _ _)) by lia. cbn [mbind option_bind]. cbn [median peak].
    rewrite int_op_Some by (unfold in_i32; nia). cbn [mbind option_bind]. f_equal; lia. }
  split; [done|]. split; [|split; [done|split]].
  - intros w' Hp. unfold getBandwidth_in. rewrite !range_ok, (middle_perm _ _ Hp). fold m. destruct (int_op (m * 8)); [|done]. cbn [mbind option_bind].
    rewrite !accumulate_ok by (cbn; lia). rewrite (zsum_perm _ _ (good_perm (peak m) _ _ Hp)), (Permutation_length (good_perm (peak m) _ _ Hp)). done.
  - intros Hz. rewrite E. destruct (good_positive m w) as [_ Hn]. unfold kept. rewrite Hn, Hz by lia. reflexivity.
  - intros Hp. assert (Hlow : m / 8 < m) by (apply Z.div_lt; lia). destruct (decide (kept = [])) as [Hk|Hk].
    + rewrite Hk. cbn. lia.
    + specialize (Hs' Hk). lia.
Qed.

Lemma rate_bandwidth_witness :
  let w := [90; 50; 51; 100; 55; 80; 1000; 600; 1500; 1200; 10] in
  middle w = 90 /\ getBandwidth_in w = Some 7169 /\ getBandwidth_in (rev w) = Some 7169.
Proof.
  intros w. destruct (rate_bandwidth w ltac:(done)) as (_ & Hp & E & _).
  - repeat constructor; lia.
  - reflexivity.
  - split; [reflexivity|]. split; [rewrite E; reflexivity|]. rewrite Hp, E; [reflexivity|]. apply Permutation_sym, Permutation_rev.
Defined.

(** ** The arrival speed *)

(** The pairs of interval and size whose interval passes. *)
Definition good2 (f : PassFilter) (l : list (Z * Z)) : list (Z * Z) := List.filter (fun vp => encloses f vp.1) l.

Lemma good2_fst f w b : length b = length w -> map fst (good2 f (zip w b)) = good f w.
Proof.
  unfold good2, good. revert b. induction w as [|v w IH]; intros [|p b] Hl; try done. cbn. injection Hl as Hl. destruct (encloses f v); cbn; by rewrite IH.
Qed.

Definition sizes_ok (l : list (Z * Z)) : Prop := Forall (fun vp => 0 <= vp.2 < 2 ^ 31) l.

Lemma accumulate2_from f l s c p : 0 <= lower f -> 0 <= s < 2 ^ 31 -> 0 <= c -> c + zlen l < 2 ^ 32 -> 0 <= p -> sizes_ok l -> p + zlen l * 2 ^ 31 < 2 ^ 64 ->
  foldl (fun acc vp => '(sum, count, parasum) ← acc;
    if negb (encloses f vp.1) then Some (sum, count, parasum)
    else sum ← int_op (sum + vp.1); Some (sum, u32 (count + 1), u64 (parasum + vp.2))) (Some (s, c, p)) l =
  if s + zsum (map fst (good2 f l)) <? 2 ^ 31
  then Some (s + zsum (map fst (good2 f l)), c + zlen (good2 f l), p + zsum (map snd (good2 f l))) else None.
Proof.
  intros Hlow. assert (Hpos : forall l, 0 <= zsum (map fst (good2 f l))).
  { unfold good2. intros k. induction k as [|[v q] k IH]; cbn; [done|]. destruct (encloses f v) eqn:Hv; [|done]. cbn. unfold encloses in Hv.
    apply andb_true_iff in Hv as [Hv _]. rewrite Z.gtb_ltb in Hv. unfold zsum in IH. lia. }
  set (step := fun (acc : option (Z * Z * Z)) (vp : Z * Z) => _).
  assert (Hfail : forall k, foldl step None k = None) by (by induction k).
  revert s c p. induction l as [|[v q] l IH]; intros s c p Hs Hc Hcl Hp Hb Hpl.
  - cbn. rewrite !Z.add_0_r, (proj2 (Z.ltb_lt _ _)) by lia. done.
  - apply Forall_cons_iff in Hb as [Hq Hb]. cbn [snd length] in *. pose proof (Hpos l) as Hl. cbn [foldl]. unfold step at 2. cbn [mbind option_bind fst snd].
    assert (Eg : good2 f ((v, q) :: l) = if encloses f v then (v, q) :: good2 f l else good2 f l) by done. rewrite Eg.
    destruct (encloses f v) eqn:Hv; cbn [negb]; [|by apply IH; try done; lia]. unfold encloses in Hv. apply andb_true_iff in Hv as [Hv _]. rewrite Z.gtb_ltb in Hv.
    cbn [map fst snd length zsum foldr]. change (foldr Z.add 0 ?x) with (zsum x). destruct (decide (in_i32 (s + v))) as [Hi|Hi].
    + rewrite int_op_Some by done. unfold in_i32 in Hi. cbn [mbind option_bind]. rewrite u32_id by (unfold in_u32; lia).
      unfold u64. rewrite Z.mod_small by lia. rewrite IH by (try done; lia). rewrite !Z.add_assoc. destruct (s + v + _ <? _); [|done]. do 3 f_equal. lia.
    + rewrite int_op_None by done. cbn [mbind option_bind]. rewrite Hfail. unfold in_i32 in Hi. rewrite (proj2 (Z.ltb_ge _ _)) by lia. done.
Qed.

(** The arrival speed is reported only when more than half of the
    intervals in the window lie strictly between an eighth and eight times
    their median; then it is a mega over their mean for packets, and the same
    with the bytes of those packets, headers included, for bytes; otherwise
    both are zero. *)
Theorem rate_speed (w bytes : list Z) (hdr : Z) (Hw : w <> []) (Hpos : Forall (fun v => 0 <= v) w) (Hlen : length bytes = length w)
  (Hb : Forall (fun p => 0 <= p < 2 ^ 31) bytes) (Hh : 0 <= hdr < 2 ^ 16) (Hsize : zlen w < 2 ^ 16) (Hbig : middle w * 8 * zlen w < 2 ^ 31) :
  let kept := good2 (peak (middle w)) (zip w bytes) in
  map fst kept = good (peak (middle w)) w /\
  getPktRcvSpeed_in w bytes hdr =
    (if zlen kept <=? zlen w / 2 then Some (0, 0)
     else bytesps ← ceilPerMega (zsum (map fst kept)) (zsum (map snd kept) + hdr * zlen kept);
          pktps ← ceilPerMega (zsum (map fst kept)) (zlen kept);
          Some (pktps, bytesps)).
Proof.
  intros kept. set (m := middle w) in *. pose proof (good2_fst (peak m) w bytes Hlen) as Hk. fold kept in Hk. split; [done|].
  pose proof (middle_in w Hw) as Hm. fold m in Hm. assert (H0 : 0 <= m) by (by eapply Forall_forall in Hpos; [|apply list_elem_of_In, Hm]).
  assert (Hl1 : 1 <= zlen w) by (destruct w; cbn; lia || done). assert (Hd : 0 <= m / 8) by (apply Z.div_pos; lia).
  assert (Hz : zlen (zip w bytes) = zlen w) by (rewrite length_zip_with, Hlen, Nat.min_id; done).
  assert (Hkl : zlen kept <= zlen w) by (pose proof (List.filter_length_le (fun vp => encloses (peak m) vp.1) (zip w bytes)); unfold kept, good2; lia).
  pose proof (zsum_bounds (m / 8) (m * 8) _ (good_values (peak m) w)) as [Hs _]. rewrite <- Hk, length_map in Hs.
  assert (Hzb : sizes_ok (zip w bytes)).
  { apply Forall_forall. intros [v p] Hvp. apply in_combine_r in Hvp. by apply (proj1 (List.Forall_forall _ _) Hb). }
  assert (Hbs : 0 <= zsum (map snd kept) <= zlen kept * 2 ^ 31).
  { assert (Hkb : Forall (fun p => -1 < p < 2 ^ 31) (map snd kept)).
    { apply Forall_forall. intros p Hp. apply in_map_iff in Hp as ([v q] & <- & Hq). apply filter_In in Hq as [Hq _].
      apply (proj1 (List.Forall_forall _ _) Hzb) in Hq. cbn in *. lia. }
    rewrite <- (length_map snd kept). generalize dependent (map snd kept). clear. intros k Hk.
    induction Hk as [|p k Hp _ IH]; cbn [zsum foldr length]; [lia|]. change (foldr Z.add 0 k) with (zsum k). lia. }
  unfold getPktRcvSpeed_in. rewrite range_ok. fold m. rewrite int_op_Some by (unfold in_i32; nia). cbn [mbind option_bind].
  unfold AccumulatePassFilterParallel. rewrite accumulate2_from by (try done; cbn [lower peak]; lia). fold kept.
  rewrite (proj2 (Z.ltb_lt _ _)) by nia. cbn [mbind option_bind]. rewrite !Z.add_0_l.
  destruct (_ <=? _); [done|]. unfold u64. rewrite (Z.mod_small (hdr * _)) by nia. by rewrite Z.mod_small by nia.
Qed.

Lemma rate_speed_witness : getPktRcvSpeed_in [1000; 1200; 900; 50000] [1316; 1316; 1316; 1316] 44 = Some (968, 1316130).
Proof.
  destruct (rate_speed [1000; 1200; 900; 50000] [1316; 1316; 1316; 1316] 44 ltac:(done)) as [_ E].
  - repeat constructor; lia.
  - reflexivity.
  - repeat constructor; lia.
  - lia.
  - cbn. lia.
  - reflexivity.
  - rewrite E. reflexivity.
Defined.

(** ** Packet pairs *)

(** A packet, when it arrived and was probed, and whether it was out of order
    or retransmitted. *)
Record arrival := mkArrival { a_packet : CPacket.t; a_time : Z; a_probed : Z; a_unordered : bool }.

(** What [processData] does with the window for a packet. *)
Definition on_packet (e : arrival) (st : t) : t :=
  probeArrival (a_probed e) (a_packet e) (a_unordered e) (onPktArrival (a_time e) (CPacket.getLength (a_packet e)) st).

Definition run (es : list arrival) (st : t) : t := foldl (fun st e => on_packet e st) st es.

Definition a_seq (e : arrival) : Z := CPacket.getSeqNo (a_packet e).
Definition starts_pair (e : arrival) : Prop := Z.land (a_seq e) PUMASK_SEQNO_PROBE = 0.

(** [e0] is the latest packet that can start a pair, and the packet after it
    has not come in order yet. *)
Definition open_pair (es : list arrival) (e0 : arrival) : Prop :=
  exists pre mid, es = pre ++ e0 :: mid /\ starts_pair e0 /\
    Forall (fun e => ~ starts_pair e /\ ~ (a_unordered e = false /\ a_seq e = incseq (a_seq e0))) mid.

Definition pair_state (es : list arrival) (st : t) : Prop :=
  m_Probe1Sequence st = SRT_SEQNO_NONE \/
  exists e0, open_pair es e0 /\ m_Probe1Sequence st = a_seq e0 /\ m_tsProbeTime st = a_probed e0.

Lemma open_snoc es e0 e : open_pair es e0 -> ~ starts_pair e -> ~ (a_unordered e = false /\ a_seq e = incseq (a_seq e0)) -> open_pair (es ++ [e]) e0.
Proof.
  intros (pre & mid & -> & H0 & Hm) H1 H2. exists pre, (mid ++ [e]). split; [by rewrite <- app_assoc|]. split; [done|].
  apply Forall_app. split; [done|]. by constructor.
Qed.

Lemma open_new es e : starts_pair e -> open_pair (es ++ [e]) e.
Proof. intros H. by exists es, []. Qed.

Lemma next_probe x : Z.land x PUMASK_SEQNO_PROBE = 0 -> Z.land (incseq x) PUMASK_SEQNO_PROBE = 1.
Proof.
  change PUMASK_SEQNO_PROBE with (Z.ones 4). rewrite !Z.land_ones by lia. change (2 ^ 4) with 16. unfold incseq. intros Hx.
  destruct (Z.eqb_spec x m_iMaxSeqNo) as [->|_]; [done|]. rewrite <- Zplus_mod_idemp_l, Hx. done.
Qed.

(** The window of the pairs after a packet, and where its probe is. *)
Lemma on_packet_pair es e st : pair_state es st ->
  pair_state (es ++ [e]) (on_packet e st) /\ m_zPayloadSize (on_packet e st) = m_zPayloadSize st /\
  (m_aProbeWindow (on_packet e st) = m_aProbeWindow st \/
   exists e0, a_unordered e = false /\ open_pair es e0 /\ a_seq e = incseq (a_seq e0) /\
     m_aProbeWindow (on_packet e st) =
       (m_aProbeWindow st).[m_iProbeWindowPtr st <- probe_interval (a_probed e - a_probed e0) (m_zPayloadSize st) (CPacket.getLength (a_packet e))]).
Proof.
  intros Hst. unfold on_packet. set (st1 := onPktArrival _ _ st).
  assert (E : m_Probe1Sequence st1 = m_Probe1Sequence st /\ m_tsProbeTime st1 = m_tsProbeTime st /\ m_aProbeWindow st1 = m_aProbeWindow st /\
    m_iProbeWindowPtr st1 = m_iProbeWindowPtr st /\ m_zPayloadSize st1 = m_zPayloadSize st) by done.
  destruct E as (E1 & E2 & E3 & E4 & E5). rewrite <- E3, <- E4, <- E5. unfold pair_state in Hst. rewrite <- E1, <- E2 in Hst. clearbody st1. clear st E1 E2 E3 E4 E5.
  unfold probeArrival. fold (a_seq e). destruct (Z.eqb_spec (Z.land (a_seq e) PUMASK_SEQNO_PROBE) 0) as [H0|H0].
  - rewrite H0. change (0 =? 1) with false. assert (Hp : forall st2 : t, (if a_unordered e then st2 else st2) = st2) by (by destruct (a_unordered e)). rewrite Hp.
    unfold probe1Arrival. fold (a_seq e). destruct (a_unordered e && _); (split; [|split; [done|by left]]); [by left|right].
    exists e. split; [by apply open_new|done].
  - destruct (a_unordered e) eqn:Hu.
    + split; [|split; [done|by left]]. destruct Hst as [?|(e0 & Ho & Hs & Ht)]; [by left|right]. exists e0. split; [|done]. apply open_snoc; [done|done|]. rewrite Hu. by intros [].
    + assert (Hkeep : forall e0, open_pair es e0 -> a_seq e <> incseq (a_seq e0) -> open_pair (es ++ [e]) e0).
      { intros e0 Ho Hne. apply open_snoc; [done|done|]. by intros []. }
      destruct (Z.eqb_spec (Z.land (a_seq e) PUMASK_SEQNO_PROBE) 1) as [H1|H1].
      * unfold probe2Arrival. fold (a_seq e). destruct (Z.eqb_spec (m_Probe1Sequence st1) SRT_SEQNO_NONE) as [Hn|Hn]; cbn [orb].
        { split; [by left|]. split; [done|by left]. }
        destruct Hst as [?|(e0 & Ho & Hs & Ht)]; [done|]. rewrite Hs. destruct (Z.eqb_spec (incseq (a_seq e0)) (a_seq e)) as [Hi|Hi]; cbn [negb].
        -- split; [by left|]. split; [done|]. right. exists e0. rewrite <- Ht. done.
        -- split; [|split; [done|by left]]. right. exists e0. split; [|done]. apply Hkeep; [done|congruence].
      * split; [|split; [done|by left]]. destruct Hst as [?|(e0 & Ho & Hs & Ht)]; [by left|right]. exists e0. split; [|done]. apply open_snoc; [done|done|].
        intros [_ Hi]. destruct Ho as (pre & mid & _ & Hp & _). apply H1. rewrite Hi. by apply next_probe.
Qed.

Lemma run_pair es st : pair_state [] st -> pair_state es (run es st) /\ m_zPayloadSize (run es st) = m_zPayloadSize st.
Proof.
  intros H0. unfold run. induction es as [|e es IH] using rev_ind; [done|]. rewrite foldl_app. cbn [foldl]. destruct IH as [IH Hp].
  destruct (on_packet_pair es e _ IH) as (H1 & H2 & _). by rewrite H2.
Qed.

(** Whatever packets arrive, an interval enters the window of the packet
    pairs only for a packet in order that directly follows, in its number, the
    latest packet whose number is a multiple of 16, and it is the time between
    the two, scaled to a full payload; and a pair that arrives back to back and
    in order always enters it. *)
Theorem rate_pairs (ASIZE PSIZE : nat) (now h s : Z) (es : list arrival) (e : arrival) :
  let st := run es (init ASIZE PSIZE now h s) in
  (m_aProbeWindow (on_packet e st) = m_aProbeWindow st \/
   exists pre e0 mid, es = pre ++ e0 :: mid /\ a_unordered e = false /\ starts_pair e0 /\ a_seq e = incseq (a_seq e0) /\
     Forall (fun e1 => ~ starts_pair e1 /\ ~ (a_unordered e1 = false /\ a_seq e1 = a_seq e)) mid /\
     m_aProbeWindow (on_packet e st) =
       (m_aProbeWindow st).[m_iProbeWindowPtr st <- probe_interval (a_probed e - a_probed e0) s (CPacket.getLength (a_packet e))]) /\
  (starts_pair e -> a_unordered e = false -> valid (a_seq e) -> forall e', a_unordered e' = false -> a_seq e' = incseq (a_seq e) ->
   m_aProbeWindow (on_packet e' (on_packet e st)) =
     (m_aProbeWindow st).[m_iProbeWindowPtr st <- probe_interval (a_probed e' - a_probed e) s (CPacket.getLength (a_packet e'))]).
Proof.
  intros st. destruct (run_pair es (init ASIZE PSIZE now h s) ltac:(by left)) as [Hst Hs]. fold st in Hst, Hs. change (m_zPayloadSize (init _ _ _ _ s)) with s in Hs.
  split.
  - destruct (on_packet_pair es e st Hst) as (_ & _ & [Hw|(e0 & Hu & (pre & mid & -> & H0 & Hm) & Hi & Hw)]); [by left|right].
    exists pre, e0, mid. rewrite Hi, <- Hs. done.
  - intros H0 Hu Hv e' Hu' Hi. unfold on_packet, probeArrival. fold (a_seq e) (a_seq e'). rewrite Hu, Hu', H0. change (0 =? 0) with true. change (0 =? 1) with false.
    cbv iota. rewrite Hi, next_probe by done. change (1 =? 0) with false. change (1 =? 1) with true. cbv iota.
    unfold probe1Arrival, probe2Arrival. cbn [andb]. fold (a_seq e) (a_seq e'). cbn [m_Probe1Sequence set_probe1 onPktArrival].
    rewrite (proj2 (Z.eqb_neq _ _)) by (unfold valid, SRT_SEQNO_NONE in *; lia). rewrite Hi, Z.eqb_refl. cbn [orb negb]. cbn. by rewrite Hs.
Qed.

Definition probe_at (seq time : Z) : arrival := mkArrival (CPacket.mk seq 0 0 0 (replicate 728 0)) time time false.

Lemma rate_pairs_witness :
  m_aProbeWindow (run [probe_at 32 500; probe_at 33 620] (init 2 4 0 44 1456)) = [240; 1000; 1000; 1000].
Proof.
  destruct (rate_pairs 2 4 0 44 1456 [] (probe_at 32 500)) as [_ H].
  assert (Hv : valid (a_seq (probe_at 32 500))) by (vm_compute; split; discriminate).
  exact (H eq_refl eq_refl Hv (probe_at 33 620) eq_refl eq_refl).
Defined.
