(* ===== verification/Reception.v ===== *)
(** Arrival of data packets: [CUDT::handleSocketPacketReception] and
    [CUDT::processData] of core.cpp, over the receiver's buffer, its loss list
    and its fresh losses; the drops that keep them together,
    [rcvDropTooLateUpTo] and [processCtrlDropReq].  The statistics, the
    congestion control, the rate estimation and the group are left out. *)
From S2P Require Import Prelude Ring SeqNo Packet UnitQueue RcvBuffer.
From S2P Require FreshLoss LossReport.
Import CSeqNo CPacket CRcvBuffer.

Module CUDTRcv.
Definition EK_NOENC : Z := 0.
Definition SRT_MSGNO_NONE : Z := -1.
Definition SRT_MSGNO_CONTROL : Z := 0.

(** [m_pCryptoControl]: [decrypt], whether it gives [ENCS_CLEAR] and what it
    leaves in the packet, and whether [m_RcvKmState] is [SRT_KM_S_UNSECURED].
    The cipher is the haicrypt library's. *)
Record crypto := mkCrypto { decrypt : CPacket.t -> CPacket.t * bool; unsecured : bool }.

(** What the functions only read. *)
Record config := mkConfig {
  m_bPeerRexmitFlag : bool;
  iMaxReorderTolerance : Z;
  m_bTsbPd : bool;
  m_bTLPktDrop : bool;
  m_pCryptoControl : option crypto;
}.

Section Reception.
Context {Q : Type} `{!UnitPool Q}.

Record t := mk {
  m_pRcvBuffer : CRcvBuffer.t (Q := Q);
  losses : LossReport.CUDT.rcv_t;
  m_iRcvCurrSeqNo : Z;
  m_iRcvCurrPhySeqNo : Z;
  m_iRcvLastAck : Z;
  m_CurrentKey : Z;
  m_iEXPCount : Z;
  m_tsLastRspTime : Z;
  m_tsNextACKTime : Z;
  m_bClosed : bool;
  (** the loss reports sent, in order *)
  reports : list (list Z);
}.

Definition set_buffer (b : CRcvBuffer.t (Q := Q)) (st : t) : t :=
  mk b (losses st) (m_iRcvCurrSeqNo st) (m_iRcvCurrPhySeqNo st) (m_iRcvLastAck st) (m_CurrentKey st) (m_iEXPCount st)
    (m_tsLastRspTime st) (m_tsNextACKTime st) (m_bClosed st) (reports st).
Definition set_losses (l : LossReport.CUDT.rcv_t) (st : t) : t :=
  mk (m_pRcvBuffer st) l (m_iRcvCurrSeqNo st) (m_iRcvCurrPhySeqNo st) (m_iRcvLastAck st) (m_CurrentKey st) (m_iEXPCount st)
    (m_tsLastRspTime st) (m_tsNextACKTime st) (m_bClosed st) (reports st).
Definition set_curr (seq key : Z) (st : t) : t :=
  mk (m_pRcvBuffer st) (losses st) seq (m_iRcvCurrPhySeqNo st) (m_iRcvLastAck st) key (m_iEXPCount st)
    (m_tsLastRspTime st) (m_tsNextACKTime st) (m_bClosed st) (reports st).
Definition set_phy (seq : Z) (st : t) : t :=
  mk (m_pRcvBuffer st) (losses st) (m_iRcvCurrSeqNo st) seq (m_iRcvLastAck st) (m_CurrentKey st) (m_iEXPCount st)
    (m_tsLastRspTime st) (m_tsNextACKTime st) (m_bClosed st) (reports st).
Definition set_iRcvLastAck (seq : Z) (st : t) : t :=
  mk (m_pRcvBuffer st) (losses st) (m_iRcvCurrSeqNo st) (m_iRcvCurrPhySeqNo st) seq (m_CurrentKey st) (m_iEXPCount st)
    (m_tsLastRspTime st) (m_tsNextACKTime st) (m_bClosed st) (reports st).
Definition set_times (count rsp ack : Z) (st : t) : t :=
  mk (m_pRcvBuffer st) (losses st) (m_iRcvCurrSeqNo st) (m_iRcvCurrPhySeqNo st) (m_iRcvLastAck st) (m_CurrentKey st) count
    rsp ack (m_bClosed st) (reports st).
Definition processClose (st : t) : t :=
  mk (m_pRcvBuffer st) (losses st) (m_iRcvCurrSeqNo st) (m_iRcvCurrPhySeqNo st) (m_iRcvLastAck st) (m_CurrentKey st) (m_iEXPCount st)
    (m_tsLastRspTime st) (m_tsNextACKTime st) true (reports st).
Definition report (words : list Z) (st : t) : t :=
  mk (m_pRcvBuffer st) (losses st) (m_iRcvCurrSeqNo st) (m_iRcvCurrPhySeqNo st) (m_iRcvLastAck st) (m_CurrentKey st) (m_iEXPCount st)
    (m_tsLastRspTime st) (m_tsNextACKTime st) (m_bClosed st) (reports st ++ [words]).

(** The packet of a unit is written in place; the cell that holds the unit
    shares it. *)
Definition write_packet (u : CUnit) (p : CPacket.t) (b : CRcvBuffer.t (Q := Q)) : CRcvBuffer.t (Q := Q) :=
  set_entries (map (fun e => match pUnit e with
    | Some v => if decide (unit_id v = unit_id u) then mkEntry (Some (mkUnit (unit_id v) p)) (status e) else e
    | None => e end) (m_entries b)) (m_pUnitQueue b) b.

(** Decryption of the packet just inserted: the buffer, the packet, and
    [adding_successful] and [decrypt_successful]. *)
Definition decrypt_inserted (cfg : config) (u : CUnit) (b : CRcvBuffer.t (Q := Q)) : option (CRcvBuffer.t (Q := Q) * CPacket.t * bool * bool) :=
  let p := m_Packet u in
  if negb (getMsgCryptoFlags p =? EK_NOENC) then
    let retransmitted := m_bPeerRexmitFlag cfg && getRexmitFlag p in
    let p := setRexmitFlag false p in
    let (p, clear) := match m_pCryptoControl cfg with Some c => decrypt c p | None => (p, false) end in
    let p := setRexmitFlag retransmitted p in
    let b := write_packet u p b in
    if clear then Some (b, p, true, true)
    else r ← dropMessage (getSeqNo p) (getSeqNo p) SRT_MSGNO_NONE DROP_EXISTING b; Some (r.1, p, false, false)
  else match m_pCryptoControl cfg with
  | Some c =>
      if negb (unsecured c) then
        r ← dropMessage (getSeqNo p) (getSeqNo p) SRT_MSGNO_NONE DROP_EXISTING b; Some (r.1, p, true, false)
      else Some (b, p, true, false)
  | None => Some (b, p, true, false)
  end.

(** [w_new_inserted], [w_was_sent_in_order] and [w_srt_loss_seqs]. *)
Record flags := mkFlags { new_inserted : bool; was_sent_in_order : bool; srt_loss_seqs : list (Z * Z) }.

(** The end of the loop body: loss detection and the largest number. *)
Definition note_arrival (cfg : config) (now : Z) (rpkt : CPacket.t) (adding_successful decrypt_successful : bool)
    (st : t) (w : flags) : option (t * flags) :=
  let seqno := getSeqNo rpkt in
  let curr := m_iRcvCurrSeqNo st in
  let w := if adding_successful && (seqcmp seqno (incseq curr) >? 0)
           then mkFlags (new_inserted w) (was_sent_in_order w) (srt_loss_seqs w ++ [(incseq curr, decseq seqno)]) else w in
  if seqcmp seqno curr >? 0 then
    let key := match m_pCryptoControl cfg with
               | Some _ => if decrypt_successful then getMsgCryptoFlags rpkt else m_CurrentKey st
               | None => m_CurrentKey st end in
    Some (set_curr seqno key st, w)
  else
    l ← LossReport.CUDT.unlose (m_bPeerRexmitFlag cfg) (iMaxReorderTolerance cfg) curr now seqno (getRexmitFlag rpkt) (losses st);
    Some (set_losses l st,
          mkFlags (new_inserted w) (was_sent_in_order w && (if m_bPeerRexmitFlag cfg then getRexmitFlag rpkt else true)) (srt_loss_seqs w)).

(** One unit of [handleSocketPacketReception]; [inr] is a return. *)
Definition receive_unit (cfg : config) (now bufseq : Z) (u : CUnit) (st : t) (w : flags) : option ((t * flags) + (t * flags * Z)) :=
  let seqno := getSeqNo (m_Packet u) in
  let bufidx := seqoff bufseq seqno in
  if (bufidx <? 0) || (seqcmp seqno (m_iRcvLastAck st) <? 0) then Some (inl (st, w))
  else if bufidx >=? capacity (m_pRcvBuffer st) then
    Some (inr (st, w, if m_bTsbPd cfg && m_bTLPktDrop cfg && empty (m_pRcvBuffer st) then -2 else -1))
  else
    '(b, res) ← insert u (m_pRcvBuffer st);
    if res <? 0 then r ← note_arrival cfg now (m_Packet u) false false (set_buffer b st) w; Some (inl r)
    else
      '(b, p, adding, decrypted) ← decrypt_inserted cfg u b;
      r ← note_arrival cfg now p adding decrypted (set_buffer b st) (mkFlags true (was_sent_in_order w) (srt_loss_seqs w));
      Some (inl r).

Fixpoint receive_units (cfg : config) (now bufseq : Z) (incoming : list CUnit) (st : t) (w : flags) : option (t * flags * Z) :=
  match incoming with
  | [] => Some (st, w, 0)
  | u :: incoming =>
      r ← receive_unit cfg now bufseq u st w;
      match r with
      | inl (st, w) => receive_units cfg now bufseq incoming st w
      | inr r => Some r
      end
  end.

Definition handleSocketPacketReception (cfg : config) (now : Z) (incoming : list CUnit) (st : t) (was_in_order : bool) : option (t * flags * Z) :=
  receive_units cfg now (m_iStartSeqNo (m_pRcvBuffer st)) incoming st (mkFlags false was_in_order []).

(** What the packet filter makes of the unit: the units it hands on and the
    losses it reports, and whether its rexmit level is [SRT_ARQ_ALWAYS]. *)
Record filtered := mkFiltered { f_incoming : list CUnit; f_loss_seqs : list (Z * Z); f_always : bool }.

Definition not_empty {A} (l : list A) : bool := match l with [] => false | _ => true end.

(** The part of [processData] behind the buffer lock: the loss reports and
    the reordering tolerance. *)
Definition report_losses (cfg : config) (initial_loss_ttl : Z) (filter : option filtered) (w : flags) (st : t) : t :=
  let filter_loss_seqs := match filter with Some f => f_loss_seqs f | None => [] end in
  let report_recorded_loss := match filter with Some f => f_always f | None => true end in
  let st := if not_empty (srt_loss_seqs w) && (initial_loss_ttl =? 0) && report_recorded_loss
            then report (LossReport.CUDT.sendLossReport (srt_loss_seqs w)) st else st in
  let st := if not_empty filter_loss_seqs then report (LossReport.CUDT.sendLossReport filter_loss_seqs) st else st in
  let l := losses st in
  let (fresh, lossdata) :=
    if negb (initial_loss_ttl =? 0) && not_empty (LossReport.CUDT.m_FreshLoss l)
    then FreshLoss.CRcvFreshLoss.age_fresh (LossReport.CUDT.m_FreshLoss l) else (LossReport.CUDT.m_FreshLoss l, []) in
  let l := LossReport.CUDT.mk_rcv (LossReport.CUDT.m_pRcvLossList l) fresh (LossReport.CUDT.m_iReorderTolerance l)
             (LossReport.CUDT.m_iConsecEarlyDelivery l) (LossReport.CUDT.m_iConsecOrderedDelivery l)
             (LossReport.CUDT.traceReorderDistance l) in
  let st := if not_empty lossdata then report lossdata st else st in
  set_losses (LossReport.CUDT.ordered_delivery (m_bPeerRexmitFlag cfg) (was_sent_in_order w) l) st.

(** [processData]; [quick_ack] is [needsQuickACK] of the congestion control,
    [closing] the values of [m_bClosing] at its two readings. *)
Definition processData (cfg : config) (now : Z) (quick_ack : bool) (closing : bool * bool) (in_unit : CUnit)
    (filter : option filtered) (st : t) : option (t * Z) :=
  if closing.1 then Some (st, -1) else
  let packet := m_Packet in_unit in
  let st := set_times 1 now (m_tsNextACKTime st) st in
  let initial_loss_ttl := if m_bPeerRexmitFlag cfg then LossReport.CUDT.m_iReorderTolerance (losses st) else 0 in
  let st := if negb (getMsgSeq (m_bPeerRexmitFlag cfg) packet =? SRT_MSGNO_CONTROL) &&
               (seqoff (m_iRcvCurrPhySeqNo st) (getSeqNo packet) >? 0) then set_phy (getSeqNo packet) st else st in
  let incoming := match filter with Some f => f_incoming f | None => [in_unit] end in
  let incoming_belated := seqcmp (getSeqNo packet) (m_iStartSeqNo (m_pRcvBuffer st)) <? 0 in
  '(st, w, res) ← handleSocketPacketReception cfg now incoming st true;
  if res =? -2 then Some (processClose st, -1)
  else if res =? -1 then Some (st, -1) else
  let st := if not_empty (srt_loss_seqs w)
            then set_losses (LossReport.CUDT.record_losses initial_loss_ttl now (srt_loss_seqs w) (losses st)) st else st in
  let st := if negb incoming_belated && was_sent_in_order w && quick_ack then set_times (m_iEXPCount st) (m_tsLastRspTime st) now st else st in
  if negb (new_inserted w) then Some (st, -1)
  else if closing.2 then Some (st, -1)
  else if negb (not_empty incoming) then Some (st, -1)
  else Some (report_losses cfg initial_loss_ttl filter w st, 0).

(** ** Drops *)

(** [rcvDropTooLateUpTo]; the counts of missing and of discarded packets. *)
Definition rcvDropTooLateUpTo (cfg : config) (seqno : Z) (st : t) : option (t * Z) :=
  let seqno := if seqcmp seqno (incseq (m_iRcvCurrSeqNo st)) >? 0 then incseq (m_iRcvCurrSeqNo st) else seqno in
  l ← LossReport.CUDT.dropFromLossLists (m_bPeerRexmitFlag cfg) SRT_SEQNO_NONE (decseq seqno) (losses st);
  '(b, (iDropCnt, iDiscardedCnt)) ← dropUpTo seqno (m_pRcvBuffer st);
  Some (set_buffer b (set_losses l st), iDropCnt + iDiscardedCnt).

(** [processCtrlDropReq] for the numbers and the message number of the
    request. *)
Definition processCtrlDropReq (cfg : config) (lo hi msgno : Z) (st : t) : option t :=
  b ← (if negb (m_bTLPktDrop cfg) || negb (m_bTsbPd cfg)
       then r ← dropMessage lo hi msgno KEEP_EXISTING (m_pRcvBuffer st); Some r.1 else Some (m_pRcvBuffer st));
  let st := set_buffer b st in
  l ← LossReport.CUDT.dropFromLossLists (m_bPeerRexmitFlag cfg) lo hi (losses st);
  let st := set_losses l st in
  Some (if (seqcmp lo (incseq (m_iRcvCurrSeqNo st)) <=? 0) && (seqcmp hi (m_iRcvCurrSeqNo st) >? 0)
        then set_curr hi (m_CurrentKey st) st else st).
End Reception.
End CUDTRcv.
