(* ===== verification/ReceptionInv.v ===== *)
(** Buffer and loss list of the receiver kept together by Reception.v: the
    loss list holds exactly the numbers that are missing in the buffer, and
    nothing that is missing has been acknowledged. *)
From stdpp Require Import gmap.
From S2P Require Import Prelude Ring SeqNo Packet Slots UnitQueue RcvBuffer RcvBufferInv Reception.
From S2P Require RcvLossList FreshLoss LossReport.
Import CSeqNo CPacket CRcvBuffer CUDTRcv.

Notation rcv_list st := (LossReport.CUDT.m_pRcvLossList (losses st)).
Notation list_size l := (RcvLossList.CRcvLossList.m_iSize l).

(** ** The loss list under single losses *)

Lemma unlose_list peer tol cur now x rexmit l S g lo :
  RcvLossList.holds (LossReport.CUDT.m_pRcvLossList l) S g -> RcvLossList.near g x ->
  fits lo (list_size (LossReport.CUDT.m_pRcvLossList l)) (S ∪ {[x]}) ->
  exists l', LossReport.CUDT.unlose peer tol cur now (seq_of x) rexmit l = Some l' /\
    RcvLossList.holds (LossReport.CUDT.m_pRcvLossList l') (S ∖ {[x]}) (RcvLossList.spec_remove S g x).2 /\
    list_size (LossReport.CUDT.m_pRcvLossList l') = list_size (LossReport.CUDT.m_pRcvLossList l).
Proof.
  intros Hh Hn Hf. destruct (RcvLossList.remove_holds _ _ _ _ _ Hh Hn Hf) as (r & E & Hh' & Hs). rewrite RcvLossList.spec_remove_set in Hh'.
  unfold LossReport.CUDT.unlose. rewrite E. cbn [mbind option_bind fst].
  destruct (FreshLoss.CRcvFreshLoss.removeOne now (LossReport.CUDT.m_FreshLoss l) (seq_of x)) as [[fresh b] had].
  destruct (negb peer || _); [by eexists|]. destruct (peer && negb rexmit); [|by eexists].
  destruct (_ >? LossReport.CUDT.m_iReorderTolerance l); [by eexists|].
  destruct (had >? 2); [|by eexists]. destruct (_ >=? 10); [|by eexists]. destruct (_ >? 0); by eexists.
Qed.

Lemma record_range ttl now a b l S g lo : RcvLossList.holds (LossReport.CUDT.m_pRcvLossList l) S g -> a <= b ->
  RcvLossList.near g a -> RcvLossList.near g b -> match g with Some m => m < a | None => True end ->
  fits lo (list_size (LossReport.CUDT.m_pRcvLossList l)) (S ∪ range a b) ->
  let l' := LossReport.CUDT.record_losses ttl now [(seq_of a, seq_of b)] l in
  RcvLossList.holds (LossReport.CUDT.m_pRcvLossList l') (S ∪ range a b) (Some b) /\
  list_size (LossReport.CUDT.m_pRcvLossList l') = list_size (LossReport.CUDT.m_pRcvLossList l).
Proof.
  intros Hh Hab Na Nb Hg Hf. assert (En : RcvLossList.new_from g a = a) by (destruct g; cbn in *; lia).
  pose proof (RcvLossList.rcv_insert_holds _ _ _ _ _ lo Hh Hab Na Nb) as Hi. cbv zeta in Hi. rewrite En in Hi. specialize (Hi Hf).
  rewrite (proj2 (Z.ltb_ge _ _)) in Hi by lia. destruct Hi as (r & E & Hr & Hs).
  cbn [LossReport.CUDT.record_losses foldl fst snd LossReport.CUDT.m_pRcvLossList]. by rewrite E.
Qed.

(** ** What a receiver holds *)

Section Receiver.
Context {Q : Type} `{HQ : !UnitPool Q}.
Implicit Types (st : CUDTRcv.t (Q := Q)) (cs : list Entry).

(** The cell at position [x] of a buffer that starts at [s] has neither a
    packet nor the mark of one that was read or dropped. *)
Definition missing (s : Z) cs (x : Z) : Prop := is_empty (status (cell_at cs (Z.to_nat (x - s)))) = true.

(** The buffer starts at [s], the largest number received is [c], everything
    below [ak] has been acknowledged, and the peer has given up [D]. *)
Record received st (s c ak : Z) cs (nr : nat) o (D S : gset Z) (g : option Z) : Prop := {
  rc_buf : inv (m_pRcvBuffer st) s cs nr o;
  rc_curr : m_iRcvCurrSeqNo st = seq_of c;
  rc_ack : m_iRcvLastAck st = seq_of ak;
  rc_start : s - 1 <= c;
  rc_beyond : forall x, c < x -> s <= x -> cell_at cs (Z.to_nat (x - s)) = no_entry;
  rc_given : forall x, x ∈ D -> x <= c;
  rc_list : RcvLossList.holds (rcv_list st) S g;
  rc_largest : match g with Some m => m <= c | None => True end;
  rc_lost : forall x, x ∈ S <-> (s <= x <= c) /\ missing s cs x /\ (x ∉ D);
  rc_room : forall x, x ∈ S -> x < s + m_szSize (m_pRcvBuffer st);
  rc_acked : forall x, s <= x < ak -> ~ missing s cs x;
  rc_size : m_szSize (m_pRcvBuffer st) <= list_size (rcv_list st)
}.

(** Positions that the receiver can compare with [x]. *)
Definition comparable (x s c ak : Z) (g : option Z) : Prop :=
  - m_iSeqNoTH < x - s < m_iSeqNoTH /\ - m_iSeqNoTH + 1 < x - c < m_iSeqNoTH /\ - m_iSeqNoTH < x - ak < m_iSeqNoTH /\
  forall y, Z.min x (c + 1) <= y <= x -> RcvLossList.near g y.

(** A packet that needs no decryption and is accepted without it. *)
Definition plain (cfg : config) (p : CPacket.t) : Prop :=
  getMsgCryptoFlags p = EK_NOENC /\ match m_pCryptoControl cfg with Some k => unsecured k = true | None => True end.

Lemma plain_decrypted cfg u (b : CRcvBuffer.t (Q := Q)) : plain cfg (m_Packet u) -> decrypt_inserted cfg u b = Some (b, m_Packet u, true, false).
Proof.
  intros [Hp Hk]. unfold decrypt_inserted. rewrite Hp, Z.eqb_refl. cbn [negb]. destruct (m_pCryptoControl cfg); [|done]. by rewrite Hk.
Qed.

Lemma missing_insert s cs x y e : s <= x -> s <= y -> x - s < zlen cs ->
  missing s (<[Z.to_nat (x - s) := e]> cs) y <-> if decide (y = x) then is_empty (status e) = true else missing s cs y.
Proof.
  intros Hx Hy Hl. unfold missing, cell_at. destruct (decide (y = x)) as [->|Hne].
  - by rewrite list_lookup_insert_eq by lia.
  - by rewrite list_lookup_insert_ne by lia.
Qed.

Lemma received_len st s c ak cs nr o D S g : received st s c ak cs nr o D S g -> zlen cs = m_szSize (m_pRcvBuffer st).
Proof. intros Hr. exact (core_length _ _ _ _ (proj1 (i_rep _ _ _ _ _ (rc_buf _ _ _ _ _ _ _ _ _ _ Hr)))). Qed.

(** The cell at [x] is no longer missing, the others are as before. *)
Definition filled (s : Z) cs (x : Z) cs' : Prop :=
  (forall y, s <= y -> (missing s cs' y <-> y <> x /\ missing s cs y)) /\
  forall y, s <= y -> y <> x -> cell_at cs' (Z.to_nat (y - s)) = cell_at cs (Z.to_nat (y - s)).

Lemma filled_same s cs x : ~ missing s cs x -> filled s cs x cs.
Proof. intros Hx. split; [|done]. intros y _. split; [|by intros []]. intros Hy. split; [by intros ->|done]. Qed.

Lemma filled_insert s cs x e : s <= x -> x - s < zlen cs -> is_empty (status e) = false -> filled s cs x (<[Z.to_nat (x - s) := e]> cs).
Proof.
  intros Hx Hl He. split.
  - intros y Hy. rewrite missing_insert by done. case_decide as Hd; [rewrite He|]; split; [done|by intros []|done|by intros []].
  - intros y Hy Hne. unfold cell_at. by rewrite list_lookup_insert_ne by lia.
Qed.

Lemma removed_largest S g x c : match g with Some m => m <= c | None => True end -> x <= c ->
  match (RcvLossList.spec_remove S g x).2 with Some m => m <= c | None => True end.
Proof. unfold RcvLossList.spec_remove. destruct g; repeat case_decide; cbn; lia || done. Qed.

(** A packet at or below the largest number has arrived. *)
Lemma received_old st s c ak cs nr o D S g x b n cs' l : received st s c ak cs nr o D S g -> s <= x <= c -> filled s cs x cs' ->
  inv b s cs' n o -> m_szSize b = m_szSize (m_pRcvBuffer st) ->
  RcvLossList.holds (LossReport.CUDT.m_pRcvLossList l) (S ∖ {[x]}) (RcvLossList.spec_remove S g x).2 ->
  list_size (LossReport.CUDT.m_pRcvLossList l) = list_size (rcv_list st) ->
  received (set_losses l (set_buffer b st)) s c ak cs' n o D (S ∖ {[x]}) (RcvLossList.spec_remove S g x).2.
Proof.
  intros [R1 R2 R3 R4 R5 R6 R7 R8 R9 R10 R11 R12] Hx [F1 F2] Hb Hsz Hl Hs. split; cbn [set_losses set_buffer m_pRcvBuffer losses m_iRcvCurrSeqNo m_iRcvLastAck]; try done.
  - intros y Hy1 Hy2. rewrite F2 by lia. by apply R5.
  - apply removed_largest; [done|lia].
  - intros y. rewrite elem_of_difference, elem_of_singleton, R9. split.
    + intros [[Hy [Hm HD]] Hne]. split; [done|]. split; [|done]. by apply F1; [lia|].
    + intros [Hy [Hm HD]]. apply F1 in Hm as [Hne Hm]; [|lia]. done.
  - intros y Hy. rewrite Hsz. apply R10. set_solver.
  - intros y Hy Hm. apply F1 in Hm as [_ Hm]; [|lia]. by apply (R11 y).
  - rewrite Hsz, Hs. done.
Qed.

(** A packet above the largest number has arrived, and the numbers between
    have been recorded as lost. *)
Lemma received_new st s c ak cs nr o D S g x b n cs' l g' key : received st s c ak cs nr o D S g -> c < x -> s <= x -> x - s < m_szSize (m_pRcvBuffer st) ->
  filled s cs x cs' -> inv b s cs' n o -> m_szSize b = m_szSize (m_pRcvBuffer st) ->
  RcvLossList.holds (LossReport.CUDT.m_pRcvLossList l) (S ∪ range (c + 1) (x - 1)) g' -> match g' with Some m => m <= x | None => True end ->
  list_size (LossReport.CUDT.m_pRcvLossList l) = list_size (rcv_list st) ->
  received (set_losses l (set_curr (seq_of x) key (set_buffer b st))) s x ak cs' n o D (S ∪ range (c + 1) (x - 1)) g'.
Proof.
  intros [R1 R2 R3 R4 R5 R6 R7 R8 R9 R10 R11 R12] Hc Hx Hroom [F1 F2] Hb Hsz Hl Hg Hs.
  split; cbn [set_losses set_buffer set_curr m_pRcvBuffer losses m_iRcvCurrSeqNo m_iRcvLastAck]; try done; [lia|..].
  - intros y Hy1 Hy2. rewrite F2 by lia. apply R5; lia.
  - intros y Hy. specialize (R6 y Hy). lia.
  - intros y. rewrite elem_of_union, elem_of_range, R9. split.
    + intros [(Hy & Hm & HyD)|Hy].
      * split; [lia|]. split; [|done]. apply F1; [lia|]. split; [lia|done].
      * split; [lia|]. split; [|intros HyD; specialize (R6 y HyD); lia]. apply F1; [lia|]. split; [lia|]. unfold missing. by rewrite R5 by lia.
    + intros (Hy & Hm & HyD). apply F1 in Hm as [Hne Hm]; [|lia]. destruct (Z.le_gt_cases y c); [left|right; lia]. split; [lia|done].
  - intros y. rewrite elem_of_union, elem_of_range, Hsz. intros [Hy|Hy]; [by apply R10|lia].
  - intros y Hy Hm. apply F1 in Hm as [_ Hm]; [|lia]. by apply (R11 y).
  - rewrite Hsz, Hs. done.
Qed.

Lemma received_ext st st' s c ak cs nr o D S g : received st s c ak cs nr o D S g -> m_pRcvBuffer st' = m_pRcvBuffer st -> rcv_list st' = rcv_list st ->
  m_iRcvCurrSeqNo st' = m_iRcvCurrSeqNo st -> m_iRcvLastAck st' = m_iRcvLastAck st -> received st' s c ak cs nr o D S g.
Proof. intros [] E1 E2 E3 E4. split; rewrite ?E1, ?E2, ?E3, ?E4; done. Qed.

Lemma received_fits st s c ak cs nr o D S g lo : received st s c ak cs nr o D S g -> (forall x, x ∈ lo -> s <= x < s + m_szSize (m_pRcvBuffer st)) ->
  fits s (list_size (rcv_list st)) (S ∪ lo).
Proof.
  intros Hr Hlo x [Hx|Hx]%elem_of_union; pose proof (rc_size _ _ _ _ _ _ _ _ _ _ Hr).
  - pose proof (rc_room _ _ _ _ _ _ _ _ _ _ Hr x Hx). apply (rc_lost _ _ _ _ _ _ _ _ _ _ Hr) in Hx. lia.
  - specialize (Hlo x Hx). lia.
Qed.

Lemma range_empty a b : b < a -> range a b = ∅.
Proof. intros Hab. apply set_eq. intros x. rewrite elem_of_range. set_solver by lia. Qed.

Lemma note_old cfg now st s c ak cs nr o D S g x p adding dec b w : received st s c ak cs nr o D S g -> getSeqNo p = seq_of x ->
  s <= x <= c -> x - s < m_szSize (m_pRcvBuffer st) -> comparable x s c ak g ->
  exists l, note_arrival cfg now p adding dec (set_buffer b st) w =
      Some (set_losses l (set_buffer b st), mkFlags (new_inserted w) (was_sent_in_order w && (if m_bPeerRexmitFlag cfg then getRexmitFlag p else true)) (srt_loss_seqs w)) /\
    RcvLossList.holds (LossReport.CUDT.m_pRcvLossList l) (S ∖ {[x]}) (RcvLossList.spec_remove S g x).2 /\
    list_size (LossReport.CUDT.m_pRcvLossList l) = list_size (rcv_list st).
Proof.
  intros Hr Hp Hx Hroom (H1 & H2 & H3 & H4). unfold note_arrival. rewrite Hp. change (m_iRcvCurrSeqNo (set_buffer b st)) with (m_iRcvCurrSeqNo st).
  rewrite (rc_curr _ _ _ _ _ _ _ _ _ _ Hr), incseq_seq_of, !seqcmp_gtb by lia. rewrite (Z.gtb_ltb x (c + 1)), (proj2 (Z.ltb_ge (c + 1) x)), andb_false_r by lia.
  rewrite (Z.gtb_ltb x c), (proj2 (Z.ltb_ge c x)) by lia. change (losses (set_buffer b st)) with (losses st).
  destruct (unlose_list (m_bPeerRexmitFlag cfg) (iMaxReorderTolerance cfg) (seq_of c) now x (getRexmitFlag p) (losses st) S g s) as (l & E & Hl & Hs).
  - apply Hr.
  - apply H4. lia.
  - apply (received_fits _ _ _ _ _ _ _ _ _ _ _ Hr). set_solver by lia.
  - rewrite E. cbn [mbind option_bind]. by exists l.
Qed.

Lemma note_new cfg now st s c ak cs nr o D S g x p dec b w : received st s c ak cs nr o D S g -> getSeqNo p = seq_of x -> c < x -> comparable x s c ak g ->
  exists key, note_arrival cfg now p true dec (set_buffer b st) w =
      Some (set_curr (seq_of x) key (set_buffer b st),
            mkFlags (new_inserted w) (was_sent_in_order w) (srt_loss_seqs w ++ if c + 1 <? x then [(seq_of (c + 1), seq_of (x - 1))] else [])).
Proof.
  intros Hr Hp Hx (H1 & H2 & _). unfold note_arrival. rewrite Hp. change (m_iRcvCurrSeqNo (set_buffer b st)) with (m_iRcvCurrSeqNo st).
  rewrite (rc_curr _ _ _ _ _ _ _ _ _ _ Hr), incseq_seq_of, !seqcmp_gtb by lia. rewrite (Z.gtb_ltb x c), (proj2 (Z.ltb_lt c x)) by lia.
  eexists. rewrite Z.gtb_ltb. destruct (c + 1 <? x); cbn [andb]; [by rewrite decseq_seq_of|]. rewrite app_nil_r. by destruct w.
Qed.

(** What a single packet does to the receiver, by the place of its number. *)
Inductive place := Belated | TooFar | Known | Fills.

Definition place_of (s ak size : Z) cs (x : Z) : place :=
  if (x <? s) || (x <? ak) then Belated
  else if x - s >=? size - 1 then TooFar
  else if is_empty (status (cell_at cs (Z.to_nat (x - s)))) then Fills else Known.

Definition gap_before (c x : Z) : list (Z * Z) := if c + 1 <? x then [(seq_of (c + 1), seq_of (x - 1))] else [].

Definition still_in_order (cfg : config) (c x : Z) (p : CPacket.t) : bool :=
  (c <? x) || (if m_bPeerRexmitFlag cfg then getRexmitFlag p else true).

Definition filled_with (s : Z) cs (x : Z) (u : CUnit) : list Entry := <[Z.to_nat (x - s) := mkEntry (Some u) EntryState_Avail]> cs.

Lemma place_cases s ak size cs x : match place_of s ak size cs x with
  | Belated => x < s \/ x < ak
  | TooFar => s <= x /\ ak <= x /\ size - 1 <= x - s
  | Known => s <= x /\ ak <= x /\ x - s < size - 1 /\ ~ missing s cs x
  | Fills => s <= x /\ ak <= x /\ x - s < size - 1 /\ missing s cs x
  end.
Proof.
  unfold place_of, missing. rewrite Z.geb_leb. destruct (Z.ltb_spec x s); [by left|]. destruct (Z.ltb_spec x ak); [by right|]. cbn [orb].
  destruct (Z.leb_spec (size - 1) (x - s)); [done|]. by destruct (is_empty _).
Qed.

Section Unit.
Context (cfg : config) (now : Z) (u : CUnit) st (s c ak : Z) cs (nr : nat) (o : gset CUnitQueue.CUnit) (D S : gset Z) (g : option Z) (x : Z).
Context (Hr : received st s c ak cs nr o D S g) (Hu : getSeqNo (m_Packet u) = seq_of x) (Hp : plain cfg (m_Packet u))
  (Hcmp : comparable x s c ak g) (Hhas : pool_has (m_pUnitQueue (m_pRcvBuffer st)) (unit_id u))
  (Hfree : unit_id u ∉ pool_taken (m_pUnitQueue (m_pRcvBuffer st))).

Lemma unit_insert : ak <= x -> s <= x -> x - s < m_szSize (m_pRcvBuffer st) - 1 -> forall w,
  receive_unit cfg now (seq_of s) u st w =
    ('(b, res) ← insert u (m_pRcvBuffer st);
     r ← note_arrival cfg now (m_Packet u) (negb (res <? 0)) false (set_buffer b st)
       (if res <? 0 then w else mkFlags true (was_sent_in_order w) (srt_loss_seqs w));
     Some (inl r)).
Proof.
  intros Hak Hs Hroom w. destruct Hcmp as (H1 & H2 & H3 & _). unfold receive_unit. rewrite Hu, (rc_ack _ _ _ _ _ _ _ _ _ _ Hr).
  rewrite seqoff_seq_of, seqcmp_ltb by lia. rewrite (proj2 (Z.ltb_ge (x - s) 0)), (proj2 (Z.ltb_ge x ak)) by lia. cbn [orb].
  unfold capacity. rewrite Z.geb_leb, (proj2 (Z.leb_gt _ _)) by lia. destruct (insert u (m_pRcvBuffer st)) as [[b res]|]; [|done].
  cbn [mbind option_bind]. destruct (res <? 0); cbn [negb]; [done|]. by rewrite plain_decrypted.
Qed.

Lemma unit_belated w : x < s \/ x < ak -> receive_unit cfg now (seq_of s) u st w = Some (inl (st, w)).
Proof.
  intros Hx. destruct Hcmp as (H1 & H2 & H3 & _). unfold receive_unit. rewrite Hu, (rc_ack _ _ _ _ _ _ _ _ _ _ Hr).
  rewrite seqoff_seq_of, seqcmp_ltb by lia. by destruct (Z.ltb_spec (x - s) 0), (Z.ltb_spec x ak); try lia.
Qed.

Lemma unit_too_far w : s <= x -> ak <= x -> m_szSize (m_pRcvBuffer st) - 1 <= x - s -> receive_unit cfg now (seq_of s) u st w =
  Some (inr (st, w, if m_bTsbPd cfg && m_bTLPktDrop cfg && empty (m_pRcvBuffer st) then -2 else -1)).
Proof.
  intros Hs Hak Hx. destruct Hcmp as (H1 & H2 & H3 & _). unfold receive_unit. rewrite Hu, (rc_ack _ _ _ _ _ _ _ _ _ _ Hr).
  rewrite seqoff_seq_of, seqcmp_ltb by lia. rewrite (proj2 (Z.ltb_ge (x - s) 0)), (proj2 (Z.ltb_ge x ak)) by lia. cbn [orb].
  unfold capacity. by rewrite Z.geb_leb, (proj2 (Z.leb_le _ _)) by lia.
Qed.

Lemma set_buffer_id : set_buffer (m_pRcvBuffer st) st = st.
Proof. by destruct st. Qed.

Lemma unit_known w : s <= x -> ak <= x -> x - s < m_szSize (m_pRcvBuffer st) - 1 -> ~ missing s cs x ->
  x <= c /\ exists l, receive_unit cfg now (seq_of s) u st w =
      Some (inl (set_losses l st, mkFlags (new_inserted w) (was_sent_in_order w && still_in_order cfg c x (m_Packet u)) (srt_loss_seqs w))) /\
    received (set_losses l st) s c ak cs nr o D (S ∖ {[x]}) (RcvLossList.spec_remove S g x).2.
Proof.
  intros Hs Hak Hroom Hm. pose proof (rc_buf _ _ _ _ _ _ _ _ _ _ Hr) as Hinv. destruct Hcmp as (H1 & _).
  assert (Hxc : x <= c).
  { destruct (Z.le_gt_cases x c); [done|]. destruct Hm. unfold missing. by rewrite (rc_beyond _ _ _ _ _ _ _ _ _ _ Hr) by lia. }
  split; [done|]. rewrite unit_insert by done.
  assert (Hcode : insert_code s (m_szSize (m_pRcvBuffer st)) cs x = -1).
  { unfold insert_code, missing in *. rewrite Z.geb_leb, (proj2 (Z.ltb_ge _ _)), (proj2 (Z.leb_gt _ _)) by lia. by destruct (is_empty _). }
  rewrite (insert_rejected _ _ _ _ _ _ _ Hinv Hu) by (try lia; by rewrite Hcode). rewrite Hcode. cbn [mbind option_bind].
  change (-1 <? 0) with true. cbn [negb].
  destruct (note_old cfg now st s c ak cs nr o D S g x (m_Packet u) false false (m_pRcvBuffer st) w Hr Hu ltac:(lia) ltac:(lia) Hcmp) as (l & E & Hl & Hls).
  exists l. rewrite E. cbn [mbind option_bind]. rewrite set_buffer_id. unfold still_in_order. rewrite (proj2 (Z.ltb_ge c x)) by lia. split; [done|].
  pose proof (received_old st s c ak cs nr o D S g x (m_pRcvBuffer st) nr cs l Hr ltac:(lia) (filled_same _ _ _ Hm) Hinv eq_refl Hl Hls) as Hr'.
  by rewrite set_buffer_id in Hr'.
Qed.

Lemma unit_fills w : s <= x -> ak <= x -> x - s < m_szSize (m_pRcvBuffer st) - 1 -> missing s cs x ->
  exists b n, insert u (m_pRcvBuffer st) = Some (b, 0) /\ inv b s (filled_with s cs x u) n o /\ m_szSize b = m_szSize (m_pRcvBuffer st) /\
    exists st', receive_unit cfg now (seq_of s) u st w =
      Some (inl (st', mkFlags true (was_sent_in_order w && still_in_order cfg c x (m_Packet u)) (srt_loss_seqs w ++ gap_before c x))) /\
    if c <? x then exists key, st' = set_curr (seq_of x) key (set_buffer b st)
    else exists l, st' = set_losses l (set_buffer b st) /\
      RcvLossList.holds (LossReport.CUDT.m_pRcvLossList l) (S ∖ {[x]}) (RcvLossList.spec_remove S g x).2 /\
      list_size (LossReport.CUDT.m_pRcvLossList l) = list_size (rcv_list st).
Proof.
  intros Hs Hak Hroom Hm. pose proof (rc_buf _ _ _ _ _ _ _ _ _ _ Hr) as Hinv. pose proof (received_len _ _ _ _ _ _ _ _ _ _ Hr) as Hlen.
  destruct (insert_free _ s cs nr o (Z.to_nat (x - s)) u Hinv) as (b & n & E & Hb & _); try done; [lia|rewrite Hu; f_equal; lia| |].
  { unfold missing in Hm. by destruct (status _). }
  exists b, (nr + n)%nat. split; [done|]. split; [exact Hb|]. split.
  { rewrite <- (core_length _ _ _ _ (proj1 (i_rep _ _ _ _ _ Hb))), length_insert. exact Hlen. }
  rewrite unit_insert, E by done. cbn [mbind option_bind]. change (0 <? 0) with false. cbn [negb].
  unfold still_in_order, gap_before. destruct (Z.ltb_spec c x) as [Hc|Hc].
  - destruct (note_new cfg now st s c ak cs nr o D S g x (m_Packet u) false b (mkFlags true (was_sent_in_order w) (srt_loss_seqs w)) Hr Hu Hc Hcmp) as (key & En).
    rewrite En. cbn [mbind option_bind new_inserted was_sent_in_order srt_loss_seqs orb]. rewrite andb_true_r. eexists. split; [done|]. by exists key.
  - destruct (note_old cfg now st s c ak cs nr o D S g x (m_Packet u) true false b (mkFlags true (was_sent_in_order w) (srt_loss_seqs w)) Hr Hu ltac:(lia) ltac:(lia) Hcmp)
      as (l & En & Hl & Hls).
    rewrite En. cbn [mbind option_bind new_inserted was_sent_in_order srt_loss_seqs orb]. rewrite (proj2 (Z.ltb_ge (c + 1) x)), app_nil_r by lia.
    eexists. split; [done|]. by exists l.
Qed.
End Unit.

(** The cells after the arrival of [u] at position [x]. *)
Definition cells_after (pl : place) (s : Z) cs (x : Z) (u : CUnit) : list Entry := match pl with Fills => filled_with s cs x u | _ => cs end.

Definition tolerance_of (cfg : config) st : Z := if m_bPeerRexmitFlag cfg then LossReport.CUDT.m_iReorderTolerance (losses st) else 0.

(** The loss report of a gap. *)
Definition gap_report (c x : Z) : list (list Z) :=
  if c + 1 <? x then [LossReport.CUDT.sendLossReport [(seq_of (c + 1), seq_of (x - 1))]] else [].

Lemma heard_ext st s c ak cs nr o D S g count rsp ack : received st s c ak cs nr o D S g -> received (set_times count rsp ack st) s c ak cs nr o D S g.
Proof. intros Hr. by eapply received_ext. Qed.

Lemma phy_ext st s c ak cs nr o D S g (b : bool) y : received st s c ak cs nr o D S g -> received (if b then set_phy y st else st) s c ak cs nr o D S g.
Proof. intros Hr. destruct b; [|done]. by eapply received_ext. Qed.

Lemma report_losses_list cfg ttl f w st : rcv_list (report_losses cfg ttl f w st) = rcv_list st.
Proof.
  unfold report_losses. set (st1 := if not_empty (srt_loss_seqs w) && _ && _ then _ else _).
  set (st2 := if not_empty match f with Some _ => _ | None => _ end then _ else _).
  assert (E2 : losses st2 = losses st) by (unfold st2, st1; by repeat case_match).
  match goal with |- context [let (_, _) := ?r in _] => destruct r as [fresh lossdata] end. unfold LossReport.CUDT.ordered_delivery. rewrite E2.
  destruct (m_bPeerRexmitFlag cfg && was_sent_in_order w); cbn [set_losses losses]; [|done]. by repeat case_match.
Qed.

Lemma report_losses_same cfg ttl f w st : let st' := report_losses cfg ttl f w st in
  m_pRcvBuffer st' = m_pRcvBuffer st /\ m_iRcvCurrSeqNo st' = m_iRcvCurrSeqNo st /\ m_iRcvLastAck st' = m_iRcvLastAck st /\ m_bClosed st' = m_bClosed st.
Proof.
  unfold report_losses. set (st1 := if not_empty (srt_loss_seqs w) && _ && _ then _ else _).
  set (st2 := if not_empty match f with Some _ => _ | None => _ end then _ else _). cbv zeta.
  match goal with |- context [let (_, _) := ?r in _] => destruct r as [fresh lossdata] end.
  cbn [set_losses m_pRcvBuffer m_iRcvCurrSeqNo m_iRcvLastAck m_bClosed]. unfold st2, st1. by repeat case_match.
Qed.

Lemma report_now cfg w st : reports (report_losses cfg 0 None w st) =
  reports st ++ if not_empty (srt_loss_seqs w) then [LossReport.CUDT.sendLossReport (srt_loss_seqs w)] else [].
Proof. unfold report_losses. cbn [negb andb not_empty]. rewrite Z.eqb_refl, !andb_true_r. cbn [negb andb not_empty]. destruct (not_empty _); cbn; by rewrite ?app_nil_r. Qed.

Section Arrival.
Context (cfg : config) (now : Z) (quick : bool) (u : CUnit) (s c ak : Z) cs (nr : nat) (o : gset CUnitQueue.CUnit) (D S : gset Z) (g : option Z) (x : Z).
Context (Hu : getSeqNo (m_Packet u) = seq_of x).

(** What the arrival leaves, by the place [pl] of the packet. *)
Definition arrival_result (st : CUDTRcv.t (Q := Q)) (pl : place) (st' : CUDTRcv.t (Q := Q)) (ret : Z) : Prop :=
  match pl with
  | Belated => received st' s c ak cs nr o D S g /\ ret = -1 /\ reports st' = reports st
  | TooFar => received st' s c ak cs nr o D S g /\ ret = -1 /\ reports st' = reports st /\
      m_bClosed st' = m_bClosed st || (m_bTsbPd cfg && m_bTLPktDrop cfg && empty (m_pRcvBuffer st))
  | Known | Fills =>
      (exists n g', received st' s (Z.max c x) ak (cells_after pl s cs x u) n o D ((S ∪ range (c + 1) (x - 1)) ∖ {[x]}) g' /\
        RcvLossList.largest_from g (Z.min x (c + 1)) x g') /\
      ret = (match pl with Fills => 0 | _ => -1 end) /\
      (tolerance_of cfg st = 0 -> reports st' = reports st ++ gap_report c x)
  end.

(** The rest of [processData] behind the loop, for a single unit. *)
Lemma process_single st :
  exists st1, (forall s' c' ak' cs' nr' o' D' S' g', received st s' c' ak' cs' nr' o' D' S' g' -> received st1 s' c' ak' cs' nr' o' D' S' g') /\
    reports st1 = reports st /\ m_pRcvBuffer st1 = m_pRcvBuffer st /\ rcv_list st1 = rcv_list st /\ losses st1 = losses st /\ m_bClosed st1 = m_bClosed st /\
    (receive_unit cfg now (m_iStartSeqNo (m_pRcvBuffer st)) u st1 (mkFlags false true []) = None -> processData cfg now quick (false, false) u None st = None) /\
    forall r, receive_unit cfg now (m_iStartSeqNo (m_pRcvBuffer st)) u st1 (mkFlags false true []) = Some r ->
    match r with
    | inr (st2, _, code) => processData cfg now quick (false, false) u None st = Some (if code =? -2 then processClose st2 else st2, -1) \/ (code <> -1 /\ code <> -2)
    | inl (st2, w) =>
        let st3 := if not_empty (srt_loss_seqs w)
                   then set_losses (LossReport.CUDT.record_losses (tolerance_of cfg st) now (srt_loss_seqs w) (losses st2)) st2 else st2 in
        exists st4, (st4 = st3 \/ st4 = set_times (m_iEXPCount st3) (m_tsLastRspTime st3) now st3) /\
        processData cfg now quick (false, false) u None st =
          Some (if new_inserted w then (report_losses cfg (tolerance_of cfg st) None w st4, 0) else (st4, -1))
    end.
Proof.
  unfold processData. cbn [fst snd]. set (st0 := set_times 1 now (m_tsNextACKTime st) st).
  set (st1 := if negb _ && _ then set_phy _ st0 else st0). exists st1.
  assert (Hsame : reports st1 = reports st /\ m_pRcvBuffer st1 = m_pRcvBuffer st /\ rcv_list st1 = rcv_list st /\ losses st1 = losses st /\ m_bClosed st1 = m_bClosed st)
    by (unfold st1, st0; by case_match).
  destruct Hsame as (E1 & E2 & E3 & E4 & E5). split; [intros; by apply phy_ext, heard_ext|]. do 5 (split; [done|]).
  unfold handleSocketPacketReception. rewrite E2. cbn [receive_units]. split; [by intros ->|]. intros r Er. rewrite Er. cbn [mbind option_bind].
  change (losses st0) with (losses st).
  destruct r as [[st2 w]|[[st2 w] code]].
  - cbn [receive_units mbind option_bind]. change (0 =? -2) with false. change (0 =? -1) with false. cbv iota zeta. fold (tolerance_of cfg st).
    set (st3 := if not_empty _ then _ else _).
    match goal with |- context [if ?q then set_times _ _ _ st3 else _] => set (quickly := q) end.
    exists (if quickly then set_times (m_iEXPCount st3) (m_tsLastRspTime st3) now st3 else st3).
    split; [destruct quickly; [by right|by left]|]. destruct (new_inserted w); cbn [negb not_empty]; done.
  - cbn [mbind option_bind]. destruct (Z.eqb_spec code (-2)); [by left|]. destruct (Z.eqb_spec code (-1)); [by left|by right].
Qed.

(** The state of the buffer lock section: [st2] is the state behind the loop. *)
Definition looped st1 (b : CRcvBuffer.t (Q := Q)) st2 : Prop :=
  if c <? x then exists key, st2 = set_curr (seq_of x) key (set_buffer b st1)
  else exists l, st2 = set_losses l (set_buffer b st1) /\
    RcvLossList.holds (LossReport.CUDT.m_pRcvLossList l) (S ∖ {[x]}) (RcvLossList.spec_remove S g x).2 /\
    list_size (LossReport.CUDT.m_pRcvLossList l) = list_size (rcv_list st1).

Lemma recorded st1 b n st2 ttl : received st1 s c ak cs nr o D S g -> inv b s (filled_with s cs x u) n o -> m_szSize b = m_szSize (m_pRcvBuffer st1) ->
  s <= x -> x - s < m_szSize (m_pRcvBuffer st1) - 1 -> comparable x s c ak g -> looped st1 b st2 ->
  exists g', RcvLossList.largest_from g (Z.min x (c + 1)) x g' /\ received (if not_empty (gap_before c x) then set_losses (LossReport.CUDT.record_losses ttl now (gap_before c x) (losses st2)) st2 else st2)
    s (Z.max c x) ak (filled_with s cs x u) n o D ((S ∪ range (c + 1) (x - 1)) ∖ {[x]}) g'.
Proof.
  intros Hr Hb Hsz Hs Hroom (H1 & H2 & H3 & H4) Hl. pose proof (received_len _ _ _ _ _ _ _ _ _ _ Hr) as Hlen.
  assert (Hfill : filled s cs x (filled_with s cs x u)) by (apply filled_insert; [done|lia|done]).
  unfold looped in Hl. unfold gap_before. destruct (Z.ltb_spec c x) as [Hc|Hc].
  - destruct Hl as (key & ->). rewrite Z.max_r by lia.
    assert (HxS : (S ∪ range (c + 1) (x - 1)) ∖ {[x]} = S ∪ range (c + 1) (x - 1)).
    { apply set_eq. intros y. rewrite elem_of_difference, elem_of_union, elem_of_range, elem_of_singleton. split; [tauto|]. intros Hy. split; [done|].
      destruct Hy as [Hy|Hy]; [apply (rc_lost _ _ _ _ _ _ _ _ _ _ Hr) in Hy|]; lia. }
    rewrite HxS. pose proof (rc_largest _ _ _ _ _ _ _ _ _ _ Hr) as Hg. destruct (Z.ltb_spec (c + 1) x) as [Hgap|Hgap]; cbn [not_empty].
    + destruct (record_range ttl now (c + 1) (x - 1) (losses st1) S g s) as [Hh Hls].
      * apply Hr.
      * lia.
      * apply H4. lia.
      * apply H4. lia.
      * destruct g; lia.
      * apply (received_fits _ _ _ _ _ _ _ _ _ _ _ Hr). intros y Hy%elem_of_range. pose proof (rc_start _ _ _ _ _ _ _ _ _ _ Hr). lia.
      * exists (Some (x - 1)). split; [right; lia|]. eapply received_new; try done; lia.
    + rewrite range_empty, union_empty_r_L by lia. exists g. split; [destruct g; [by left|done]|].
      pose proof (received_new st1 s c ak cs nr o D S g x b n _ (losses st1) g key Hr Hc Hs ltac:(lia) Hfill Hb Hsz) as Hn.
      rewrite range_empty, union_empty_r_L in Hn by lia. apply Hn; [apply Hr|destruct g; lia|done].
  - destruct Hl as (l & -> & Hh & Hls). rewrite Z.max_l, (proj2 (Z.ltb_ge _ _)), range_empty, union_empty_r_L by lia. cbn [not_empty].
    eexists. split; [|by apply (received_old st1 s c ak cs nr o D S g x b n)]. rewrite Z.min_l by lia. apply RcvLossList.spec_remove_largest.
Qed.

Lemma looped_reports st1 b st2 : looped st1 b st2 -> reports st2 = reports st1.
Proof. unfold looped. destruct (c <? x); [by intros (key & ->)|by intros (l & -> & _)]. Qed.

Lemma arrival_ok st (Hr : received st s c ak cs nr o D S g) (Hp : plain cfg (m_Packet u))
  (Hcmp : comparable x s c ak g) (Hhas : pool_has (m_pUnitQueue (m_pRcvBuffer st)) (unit_id u))
  (Hfree : unit_id u ∉ pool_taken (m_pUnitQueue (m_pRcvBuffer st))) :
  exists st' ret, processData cfg now quick (false, false) u None st = Some (st', ret) /\
    arrival_result st (place_of s ak (m_szSize (m_pRcvBuffer st)) cs x) st' ret.
Proof.
  destruct (process_single st) as (st1 & Hext & E1 & E2 & E3 & E4 & E5 & _ & Hrest). pose proof (Hext _ _ _ _ _ _ _ _ _ Hr) as Hr1.
  rewrite (i_seq _ _ _ _ _ (rc_buf _ _ _ _ _ _ _ _ _ _ Hr)) in Hrest. rewrite <- E2 in Hhas, Hfree. pose proof Hcmp as (H1 & H2 & H3 & H4).
  pose proof (place_cases s ak (m_szSize (m_pRcvBuffer st)) cs x) as Hpl. rewrite <- E2 in Hpl. rewrite <- E2. destruct (place_of _ _ _ _ _).
  - destruct (Hrest _ (unit_belated cfg now u st1 s c ak cs nr o D S g x Hr1 Hu Hcmp _ Hpl)) as (st4 & Hst4 & E). cbn [new_inserted srt_loss_seqs not_empty] in *.
    exists st4, (-1). split; [exact E|]. split; [|split; [done|by destruct Hst4 as [-> | ->]]]. destruct Hst4 as [-> | ->]; [done|by apply heard_ext].
  - destruct Hpl as (P1 & P2 & P3). destruct (Hrest _ (unit_too_far cfg now u st1 s c ak cs nr o D S g x Hr1 Hu Hcmp _ P1 P2 P3)) as [E|[E1' E2']]; [|by destruct (_ && _)].
    eexists _, (-1). split; [exact E|]. cbn [arrival_result]. rewrite <- E1, <- E2, <- E5. destruct (m_bTsbPd cfg && _ && _).
    + split; [by eapply received_ext|]. by rewrite orb_true_r.
    + by rewrite orb_false_r.
  - destruct Hpl as (P1 & P2 & P3 & P4).
    destruct (unit_known cfg now u st1 s c ak cs nr o D S g x Hr1 Hu Hp Hcmp Hhas Hfree (mkFlags false true []) P1 P2 P3 P4) as (Hxc & l & E & Hr').
    destruct (Hrest _ E) as (st4 & Hst4 & E'). cbn [new_inserted srt_loss_seqs not_empty] in *. exists st4, (-1). split; [exact E'|].
    unfold arrival_result. rewrite range_empty, union_empty_r_L, Z.max_l by lia. split; [|split; [done|]].
    + exists nr, (RcvLossList.spec_remove S g x).2. rewrite Z.min_l by lia. split; [|apply RcvLossList.spec_remove_largest].
      destruct Hst4 as [-> | ->]; [done|by apply heard_ext].
    + intros _. unfold gap_report. rewrite (proj2 (Z.ltb_ge _ _)), app_nil_r by lia. by destruct Hst4 as [-> | ->].
  - destruct Hpl as (P1 & P2 & P3 & P4).
    destruct (unit_fills cfg now u st1 s c ak cs nr o D S g x Hr1 Hu Hp Hcmp Hhas Hfree (mkFlags false true []) P1 P2 P3 P4) as (b & n & Ei & Hb & Hsz & st2 & E & Hst2).
    destruct (Hrest _ E) as (st4 & Hst4 & E'). cbn [new_inserted srt_loss_seqs app] in *. exists (report_losses cfg (tolerance_of cfg st) None (mkFlags true (true && still_in_order cfg c x (m_Packet u)) (gap_before c x)) st4), 0.
    split; [exact E'|]. set (st3 := if not_empty (gap_before c x) then _ else st2) in *.
    assert (Hr3 : exists g', RcvLossList.largest_from g (Z.min x (c + 1)) x g' /\ received st3 s (Z.max c x) ak (filled_with s cs x u) n o D ((S ∪ range (c + 1) (x - 1)) ∖ {[x]}) g').
    { by apply (recorded st1 b n st2). }
    destruct Hr3 as (g' & Hg' & Hr3). assert (Hr4 : received st4 s (Z.max c x) ak (filled_with s cs x u) n o D ((S ∪ range (c + 1) (x - 1)) ∖ {[x]}) g') by (destruct Hst4 as [-> | ->]; [done|by apply heard_ext]).
    split; [|split; [done|]].
    + exists n, g'. destruct (report_losses_same cfg (tolerance_of cfg st) None (mkFlags true (true && still_in_order cfg c x (m_Packet u)) (gap_before c x)) st4) as (F1 & F2 & F3 & _).
      split; [|done]. eapply received_ext; [exact Hr4|done|apply report_losses_list|done|done].
    + intros Ht. rewrite Ht, report_now. cbn [srt_loss_seqs].
      assert (Er : reports st4 = reports st) by (rewrite <- E1, <- (looped_reports _ _ _ Hst2); destruct Hst4 as [-> | ->]; unfold st3; by destruct (not_empty _)).
      rewrite Er. f_equal. unfold gap_report, gap_before. by destruct (c + 1 <? x).
Qed.

(** C5. One data packet passed to [processData] (not encrypted, no packet
    filter): the receiver's buffer and loss list stay in step - the loss list
    holds exactly the numbers up to the largest one received that have no
    packet in the buffer and that the peer has not given up.  By the place of
    the packet: a belated one (below the buffer or already acknowledged) and
    one beyond the capacity change nothing - the connection is closed for the
    latter when it is live and its buffer empty; a known one is dropped; a new
    one fills its cell, leaves the loss list if it was there, and every number
    it skipped enters the loss list and, with no reordering tolerance, is
    reported at once. *)
Theorem rcv_arrival st (Hr : received st s c ak cs nr o D S g) (Hp : plain cfg (m_Packet u))
  (Hcmp : comparable x s c ak g) (Hhas : pool_has (m_pUnitQueue (m_pRcvBuffer st)) (unit_id u))
  (Hfree : unit_id u ∉ pool_taken (m_pUnitQueue (m_pRcvBuffer st))) :
  exists st' ret, processData cfg now quick (false, false) u None st = Some (st', ret) /\
    arrival_result st (place_of s ak (m_szSize (m_pRcvBuffer st)) cs x) st' ret.
Proof. by apply arrival_ok. Qed.
End Arrival.
End Receiver.

(** ** A concrete receiver *)

Module ReceiverExample.
Import RcvExample.
Definition cfg (live : bool) : config := mkConfig true 0 live live None.
(** A receiver whose peer starts at 10. *)
Definition start : CUDTRcv.t (Q := CUnitQueue.t) :=
  mk (buffer true) (LossReport.CUDT.mk_rcv (RcvLossList.CRcvLossList.init 16 (fun _ => (0, 0))) [] 0 0 0 0) 9 9 10 0 0 0 0 false [].

Lemma start_received : received start 10 9 10 (replicate 8 no_entry) 0 ∅ ∅ ∅ None.
Proof.
  assert (Hno : forall k, cell_at (replicate 8 no_entry) k = no_entry).
  { intros k. unfold cell_at. destruct (decide (k < 8)%nat); [by rewrite lookup_replicate_2|]. by rewrite lookup_ge_None_2 by (rewrite length_replicate; lia). }
  split; try done; try (set_solver by lia).
  - apply buffer_inv.
  - apply RcvLossList.rcv_init_holds. vm_compute. split; [reflexivity|discriminate].
Qed.
End ReceiverExample.
Import RcvExample ReceiverExample.

Lemma rcv_arrival_witness :
  exists st', processData (cfg false) 7 false (false, false) (unit 0 (pkt 12 PB_SOLO 1 [1; 2])) None start = Some (st', 0) /\
    reports st' = [LossReport.CUDT.sendLossReport [(10, 11)]] /\
    exists n g', received st' 10 12 10 (<[2%nat := mkEntry (Some (unit 0 (pkt 12 PB_SOLO 1 [1; 2]))) EntryState_Avail]> (replicate 8 no_entry)) n ∅ ∅
      ((∅ ∪ range 10 11) ∖ {[12]}) g'.
Proof.
  destruct (free_unit_ok (CUnitQueue.init 8) 0 ltac:(done) eq_refl) as [Hh Hf].
  destruct (rcv_arrival (cfg false) 7 false (unit 0 (pkt 12 PB_SOLO 1 [1; 2])) 10 9 10 _ 0 ∅ ∅ ∅ None 12 eq_refl start start_received)
    as (st' & ret & E & H).
  - split; [vm_compute; reflexivity|exact I].
  - split_and!; try (unfold m_iSeqNoTH; lia). intros y _. exact I.
  - exact Hh.
  - exact Hf.
  - change (place_of _ _ _ _ _) with Fills in H. destruct H as (Hr & -> & Hrep). exists st'. split; [exact E|].
    split; [exact (Hrep eq_refl)|]. destruct Hr as (n & g' & Hr & _). exists n, g'. exact Hr.
Defined.
