(* ===== verification/ReceptionDrop.v ===== *)
(** Drops at the receiver: [rcvDropTooLateUpTo] keeps the buffer and the loss
    list of Reception.v in step; a packet that cannot be decrypted does not. *)
From stdpp Require Import gmap.
From S2P Require Import Prelude Ring SeqNo Packet Slots UnitQueue RcvBuffer RcvBufferInv Reception ReceptionInv.
From S2P Require RcvLossList FreshLoss LossReport.
Import CSeqNo CPacket CRcvBuffer CUDTRcv.

Section Drops.
Context {Q : Type} `{HQ : !UnitPool Q}.
Implicit Types (st : CUDTRcv.t (Q := Q)) (cs : list Entry).

Lemma drop_losses peer last l S g lo : RcvLossList.holds (LossReport.CUDT.m_pRcvLossList l) S g -> (forall x, lo <= x <= last -> RcvLossList.near g x) -> lo <= last ->
  fits lo (list_size (LossReport.CUDT.m_pRcvLossList l)) (S ∪ {[last]}) ->
  exists l' g', LossReport.CUDT.dropFromLossLists peer SRT_SEQNO_NONE (seq_of last) l = Some l' /\
    RcvLossList.holds (LossReport.CUDT.m_pRcvLossList l') (filter (fun x => last < x) S) g' /\ RcvLossList.largest_from g lo last g' /\
    list_size (LossReport.CUDT.m_pRcvLossList l') = list_size (LossReport.CUDT.m_pRcvLossList l).
Proof.
  intros Hh Hn Hlo Hf. destruct (RcvLossList.rcv_removeUpTo_holds _ _ _ _ _ Hh Hn Hlo Hf) as (r & g' & E & Hh' & Hg & Hs).
  unfold LossReport.CUDT.dropFromLossLists. rewrite Z.eqb_refl, E. cbn [mbind option_bind fst]. by eexists _, g'.
Qed.

Lemma missing_shift s n cs x : s + Z.of_nat n <= x -> missing (s + Z.of_nat n) (shift n cs) x <-> missing s cs x.
Proof. intros Hx. unfold missing. rewrite cell_at_shift. replace (n + Z.to_nat (x - (s + Z.of_nat n)))%nat with (Z.to_nat (x - s)) by lia. done. Qed.

(** The receiver after its buffer has moved on to [s + m]. *)
Lemma received_moved st s c ak cs nr o D S g b l z (m nr' : nat) g' : received st s c ak cs nr o D S g ->
  inv b (s + Z.of_nat m) (shift m cs) nr' o -> m_szSize b = m_szSize (m_pRcvBuffer st) -> s + Z.of_nat m - 1 <= c ->
  RcvLossList.holds (LossReport.CUDT.m_pRcvLossList l) (filter (fun x => z < x) S) g' -> match g' with Some y => y <= c | None => True end ->
  list_size (LossReport.CUDT.m_pRcvLossList l) = list_size (rcv_list st) ->
  z < s + Z.of_nat m -> (forall x, z < x < s + Z.of_nat m -> ~ missing s cs x) ->
  received (set_buffer b (set_losses l st)) (s + Z.of_nat m) c ak (shift m cs) nr' o D (filter (fun x => z < x) S) g'.
Proof.
  intros [R1 R2 R3 R4 R5 R6 R7 R8 R9 R10 R11 R12] Hb Hsz Hc Hl Hg Hs Hz Hfill.
  split; cbn [set_losses set_buffer m_pRcvBuffer losses m_iRcvCurrSeqNo m_iRcvLastAck]; try done.
  - intros x Hx1 Hx2. rewrite cell_at_shift. replace (m + Z.to_nat (x - (s + Z.of_nat m)))%nat with (Z.to_nat (x - s)) by lia. apply R5; lia.
  - intros x. rewrite elem_of_filter, R9. split.
    + intros (Hx & Hr & Hm & HD). destruct (Z.lt_ge_cases x (s + Z.of_nat m)) as [Hlt|Hge]; [by destruct (Hfill x)|].
      split; [lia|]. by rewrite missing_shift.
    + intros (Hx & Hm & HD). rewrite missing_shift in Hm by lia. split; [lia|]. split; [lia|done].
  - intros x [_ Hx]%elem_of_filter. specialize (R10 x Hx). rewrite Hsz. lia.
  - intros x Hx. rewrite missing_shift by lia. apply R11. lia.
  - rewrite Hsz, Hs. done.
Qed.

Lemma drop_too_late_ok cfg st s c ak cs nr o D S g y (Hr : received st s c ak cs nr o D S g)
  (Hy : s < y) (Hroom : c - s < m_szSize (m_pRcvBuffer st) - 1) (Hwin : - m_iSeqNoTH < y - (c + 1) < m_iSeqNoTH)
  (Hnear : forall x, s <= x <= c -> RcvLossList.near g x)
  (Hcut : let n := Z.to_nat (Z.min y (c + 1) - s) in (n <= nr)%nat -> messages (m_bMessageAPI (m_pRcvBuffer st)) (drop n cs) (nr - n)) :
  let z := Z.min y (c + 1) in s < z ->
  exists st' s' nr' g', rcvDropTooLateUpTo cfg (seq_of y) st = Some (st', count_cells is_empty cs (Z.to_nat (z - s)) + count_cells is_avail cs (Z.to_nat (z - s))) /\
    z <= s' <= c + 1 /\ (forall x, z <= x < s' -> ~ missing s cs x) /\
    received st' s' c ak (shift (Z.to_nat (s' - s)) cs) nr' o D (filter (fun x => z - 1 < x) S) g' /\
    RcvLossList.largest_from g s (z - 1) g'.
Proof.
  intros z Hz. assert (Hzc : z <= y /\ z <= c + 1) by (unfold z; lia). set (n := Z.to_nat (z - s)) in *. assert (Hn : s + Z.of_nat n = z) by lia. pose proof (rc_buf _ _ _ _ _ _ _ _ _ _ Hr) as Hinv.
  pose proof (c_size _ _ _ _ (proj1 (i_rep _ _ _ _ _ Hinv))) as Hsz. pose proof (rc_size _ _ _ _ _ _ _ _ _ _ Hr) as Hls.
  destruct (drop_losses (m_bPeerRexmitFlag cfg) (z - 1) (losses st) S g s) as (l & g' & El & Hl & Hg & Hsl).
  { apply Hr. } { intros x Hx. apply Hnear. lia. } { lia. }
  { apply (received_fits _ _ _ _ _ _ _ _ _ _ _ Hr). intros x ->%elem_of_singleton. lia. }
  destruct (drop_up_to_ok (m_pRcvBuffer st) s cs nr o n Hinv) as (b & f & nr' & Eb & Hb & Hfill & Hstop & _); [lia|exact Hcut|].
  assert (Hend : (n + f <= Z.to_nat (c + 1 - s))%nat).
  { destruct (Nat.le_gt_cases (n + f) (Z.to_nat (c + 1 - s))) as [|Hlt]; [done|]. specialize (Hfill (Z.to_nat (c + 1 - s)) ltac:(lia)).
    rewrite (rc_beyond _ _ _ _ _ _ _ _ _ _ Hr) in Hfill by lia. done. }
  exists (set_buffer b (set_losses l st)), (s + Z.of_nat (n + f)), nr', g'.
  assert (Ez : (if seqcmp (seq_of y) (incseq (m_iRcvCurrSeqNo st)) >? 0 then incseq (m_iRcvCurrSeqNo st) else seq_of y) = seq_of z).
  { rewrite (rc_curr _ _ _ _ _ _ _ _ _ _ Hr), incseq_seq_of, seqcmp_gtb by lia. rewrite Z.gtb_ltb. unfold z.
    destruct (Z.ltb_spec (c + 1) y); f_equal; lia. }
  split; [|split; [lia|]].
  - unfold rcvDropTooLateUpTo. rewrite Ez, decseq_seq_of, El. cbn [mbind option_bind].
    replace (seq_of z) with (seq_of (s + Z.of_nat n)) by (f_equal; lia). change (m_pRcvBuffer (set_losses l st)) with (m_pRcvBuffer st).
    rewrite Eb. done.
  - assert (Hmiss : forall x, z - 1 < x < s + Z.of_nat (n + f) -> ~ missing s cs x).
    { intros x Hx Hm. specialize (Hfill (Z.to_nat (x - s)) ltac:(lia)). unfold missing in Hm. by destruct (status _). }
    split; [intros x Hx; apply Hmiss; lia|]. split; [|done]. replace (Z.to_nat (s + Z.of_nat (n + f) - s)) with (n + f)%nat by lia.
    eapply received_moved; try done; try lia.
    + rewrite <- (core_length _ _ _ _ (proj1 (i_rep _ _ _ _ _ Hb))), length_shift. by eapply received_len.
    + pose proof (rc_largest _ _ _ _ _ _ _ _ _ _ Hr). destruct g' as [m|]; [|done]. destruct Hg as [->|Hm]; [done|lia].
Qed.

(** A number at or below the start changes nothing. *)
Lemma drop_old_ok cfg st s c ak cs nr o D S g y : received st s c ak cs nr o D S g -> Z.min y (c + 1) <= s -> s - y < m_iSeqNoTH - 1 ->
  - m_iSeqNoTH < y - (c + 1) < m_iSeqNoTH -> c - y < m_iSeqNoTH - 1 ->
  exists l, rcvDropTooLateUpTo cfg (seq_of y) st = Some (set_losses l st, 0) /\ LossReport.CUDT.m_pRcvLossList l = rcv_list st.
Proof.
  intros Hr Hy Hw Hwc Hcy. pose proof (rc_start _ _ _ _ _ _ _ _ _ _ Hr). set (z := Z.min y (c + 1)) in *.
  assert (Ez : (if seqcmp (seq_of y) (incseq (m_iRcvCurrSeqNo st)) >? 0 then incseq (m_iRcvCurrSeqNo st) else seq_of y) = seq_of z).
  { rewrite (rc_curr _ _ _ _ _ _ _ _ _ _ Hr), incseq_seq_of, seqcmp_gtb by lia. rewrite Z.gtb_ltb. unfold z.
    destruct (Z.ltb_spec (c + 1) y); f_equal; lia. }
  assert (Hz : z = y \/ z = c + 1 /\ s = c + 1) by (unfold z in *; lia).
  unfold rcvDropTooLateUpTo. rewrite Ez, decseq_seq_of. unfold LossReport.CUDT.dropFromLossLists. rewrite Z.eqb_refl.
  assert (E : RcvLossList.CRcvLossList.removeUpTo (seq_of (z - 1)) (rcv_list st) = Some (rcv_list st, RcvLossList.CRcvLossList.getFirstLostSeq (rcv_list st))).
  { unfold RcvLossList.CRcvLossList.removeUpTo. rewrite (RcvLossList.first_holds _ _ _ (rc_list _ _ _ _ _ _ _ _ _ _ Hr)).
    destruct (first_of S) as [m|] eqn:Hm; [|by rewrite Z.eqb_refl]. apply first_of_Some in Hm as [Hm _]. apply (rc_lost _ _ _ _ _ _ _ _ _ _ Hr) in Hm.
    rewrite (proj2 (Z.eqb_neq _ SRT_SEQNO_NONE)) by apply seq_of_not_none. by rewrite seqcmp_ltb, (proj2 (Z.ltb_lt _ _)) by lia. }
  rewrite E. cbn [mbind option_bind fst]. match goal with |- context [set_losses ?l st] => exists l end.
  unfold dropUpTo. cbn [m_pRcvBuffer set_losses].
  rewrite (i_seq _ _ _ _ _ (rc_buf _ _ _ _ _ _ _ _ _ _ Hr)), seqoff_seq_of, (proj2 (Z.leb_le _ _)) by lia. split; [|done]. by destruct st.
Qed.

(** C7. Packets that are too late are given up: for a number above the start,
    cut at the first one not yet received, every number below it leaves the
    buffer and the loss list; the buffer then starts at that number or, over
    packets that have been read or dropped already, beyond it; buffer and loss
    list are still in step, and the result counts the packets missing and the
    packets discarded. *)
Theorem rcv_drop_too_late cfg st s c ak cs nr o D S g y (Hr : received st s c ak cs nr o D S g)
  (Hy : s < y) (Hroom : c - s < m_szSize (m_pRcvBuffer st) - 1) (Hwin : - m_iSeqNoTH < y - (c + 1) < m_iSeqNoTH)
  (Hnear : forall x, s <= x <= c -> RcvLossList.near g x)
  (Hcut : let n := Z.to_nat (Z.min y (c + 1) - s) in (n <= nr)%nat -> messages (m_bMessageAPI (m_pRcvBuffer st)) (drop n cs) (nr - n)) :
  let z := Z.min y (c + 1) in s < z ->
  exists st' s' nr' g', rcvDropTooLateUpTo cfg (seq_of y) st = Some (st', count_cells is_empty cs (Z.to_nat (z - s)) + count_cells is_avail cs (Z.to_nat (z - s))) /\
    z <= s' <= c + 1 /\ (forall x, z <= x < s' -> ~ missing s cs x) /\
    received st' s' c ak (shift (Z.to_nat (s' - s)) cs) nr' o D (filter (fun x => z - 1 < x) S) g'.
Proof.
  intros z Hz. destruct (drop_too_late_ok cfg st s c ak cs nr o D S g y Hr Hy Hroom Hwin Hnear Hcut Hz) as (st' & s' & nr' & g' & E & H1 & H2 & H3 & _).
  by exists st', s', nr', g'.
Qed.

(** A packet beyond a gap that cannot be decrypted. *)
Lemma undecrypted_unit cfg now u st s c ak cs nr o D S g x k w st' w' : received st s c ak cs nr o D S g -> getSeqNo (m_Packet u) = seq_of x ->
  ak <= x -> s <= x -> c < x -> x - s < m_szSize (m_pRcvBuffer st) - 1 -> comparable x s c ak g ->
  getMsgCryptoFlags (m_Packet u) <> EK_NOENC -> m_pCryptoControl cfg = Some k ->
  (let q := decrypt k (setRexmitFlag false (m_Packet u)) in q.2 = false /\ getSeqNo q.1 = seq_of x) ->
  pool_has (m_pUnitQueue (m_pRcvBuffer st)) (unit_id u) -> unit_id u ∉ pool_taken (m_pUnitQueue (m_pRcvBuffer st)) ->
  receive_unit cfg now (seq_of s) u st w = Some (inl (st', w')) ->
  m_iRcvCurrSeqNo st' = seq_of x /\ losses st' = losses st /\ reports st' = reports st /\ w' = mkFlags true (was_sent_in_order w) (srt_loss_seqs w).
Proof.
  intros Hr Hu Hak Hs Hx Hroom (H1 & H2 & H3 & _) Henc Hk Hd Hhas Hfree. pose proof (rc_buf _ _ _ _ _ _ _ _ _ _ Hr) as Hinv.
  assert (He : cell_at cs (Z.to_nat (x - s)) = no_entry) by (apply (rc_beyond _ _ _ _ _ _ _ _ _ _ Hr); lia).
  destruct (insert_free _ s cs nr o (Z.to_nat (x - s)) u Hinv) as (b & n & E & _); try done; [lia|rewrite Hu; f_equal; lia|by rewrite He|].
  unfold receive_unit. rewrite Hu, (rc_ack _ _ _ _ _ _ _ _ _ _ Hr), seqoff_seq_of, seqcmp_ltb by lia.
  rewrite (proj2 (Z.ltb_ge (x - s) 0)), (proj2 (Z.ltb_ge x ak)) by lia. cbn [orb]. unfold capacity. rewrite Z.geb_leb, (proj2 (Z.leb_gt _ _)) by lia.
  rewrite E. cbn [mbind option_bind]. change (0 <? 0) with false. cbv iota. unfold decrypt_inserted. rewrite (proj2 (Z.eqb_neq _ _)) by done. cbn [negb].
  rewrite Hk. destruct (decrypt k _) as [q clear]. cbn [fst snd] in Hd. destruct Hd as [-> Hq].
  set (q' := setRexmitFlag _ q). assert (Hq' : getSeqNo q' = seq_of x) by (rewrite <- Hq; done).
  destruct (dropMessage _ _ _ _ _) as [[b' cnt]|]; [|done]. cbn [mbind option_bind fst]. unfold note_arrival. rewrite Hq'.
  change (m_iRcvCurrSeqNo (set_buffer b' st)) with (m_iRcvCurrSeqNo st). rewrite (rc_curr _ _ _ _ _ _ _ _ _ _ Hr), incseq_seq_of, !seqcmp_gtb by lia.
  rewrite (Z.gtb_ltb x c), (proj2 (Z.ltb_lt c x)) by lia. cbn [andb mbind option_bind]. by intros [= <- <-].
Qed.

(** C6. What the comment above the drop of an undecryptable packet asks for
    is not done: when such a packet arrives beyond a gap, the largest number
    received advances to it, but neither it nor any number of the gap enters
    the loss list, and nothing is reported - the peer is never asked for the
    packets between. *)
Theorem rcv_undecrypted_gap cfg now quick u st s c ak cs nr o D S g x k st' ret (Hr : received st s c ak cs nr o D S g) (Hu : getSeqNo (m_Packet u) = seq_of x)
  (Hx : ak <= x /\ s <= x /\ c < x) (Hroom : x - s < m_szSize (m_pRcvBuffer st) - 1) (Hcmp : comparable x s c ak g)
  (Henc : getMsgCryptoFlags (m_Packet u) <> EK_NOENC) (Hk : m_pCryptoControl cfg = Some k)
  (Hd : let q := decrypt k (setRexmitFlag false (m_Packet u)) in q.2 = false /\ getSeqNo q.1 = seq_of x)
  (Hhas : pool_has (m_pUnitQueue (m_pRcvBuffer st)) (unit_id u)) (Hfree : unit_id u ∉ pool_taken (m_pUnitQueue (m_pRcvBuffer st)))
  (Httl : tolerance_of cfg st = 0) (E : processData cfg now quick (false, false) u None st = Some (st', ret)) :
  m_iRcvCurrSeqNo st' = seq_of x /\ reports st' = reports st /\
  RcvLossList.holds (rcv_list st') S g /\ forall y, c < y <= x -> y ∉ S.
Proof.
  destruct Hx as (X1 & X2 & X3). destruct (process_single cfg now quick u st) as (st1 & Hext & E1 & E2 & E3 & E4 & E5 & Hnone & Hrest).
  pose proof (Hext _ _ _ _ _ _ _ _ _ Hr) as Hr1. rewrite <- E2 in Hroom, Hhas, Hfree.
  assert (HS : forall y, c < y <= x -> y ∉ S).
  { intros y Hy HyS. apply (rc_lost _ _ _ _ _ _ _ _ _ _ Hr) in HyS. lia. }
  destruct (receive_unit cfg now (m_iStartSeqNo (m_pRcvBuffer st)) u st1 (mkFlags false true [])) as [r|] eqn:Er.
  - specialize (Hrest _ eq_refl). destruct r as [[st2 w]|[[st2 w] code]].
    + rewrite (i_seq _ _ _ _ _ (rc_buf _ _ _ _ _ _ _ _ _ _ Hr)) in Er. destruct (undecrypted_unit _ _ _ _ _ _ _ _ _ _ _ _ _ _ _ _ _ _ Hr1 Hu X1 X2 X3 Hroom Hcmp Henc Hk Hd Hhas Hfree Er) as (F1 & F2 & F3 & ->).
      cbn [new_inserted srt_loss_seqs not_empty was_sent_in_order] in Hrest. destruct Hrest as (st4 & Hst4 & E'). rewrite E in E'. injection E' as -> _. rewrite Httl.
      destruct (report_losses_same cfg 0 None (mkFlags true true []) st4) as (G1 & G2 & G3 & _).
      rewrite G2, report_now, report_losses_list. cbn [srt_loss_seqs not_empty]. rewrite app_nil_r.
      assert (Hst : m_iRcvCurrSeqNo st4 = m_iRcvCurrSeqNo st2 /\ reports st4 = reports st2 /\ losses st4 = losses st2) by (by destruct Hst4 as [-> | ->]).
      destruct Hst as (-> & -> & ->). rewrite F2, F3, E1, E4. split; [done|]. split; [done|]. split; [apply Hr|done].
    + exfalso. rewrite (i_seq _ _ _ _ _ (rc_buf _ _ _ _ _ _ _ _ _ _ Hr)) in Er. revert Er. clear -Hr1 Hu X1 X2 X3 Hroom Hcmp. destruct Hcmp as (H1 & H2 & H3 & _). unfold receive_unit.
      rewrite Hu, (rc_ack _ _ _ _ _ _ _ _ _ _ Hr1), seqoff_seq_of, seqcmp_ltb by lia.
      rewrite (proj2 (Z.ltb_ge (x - s) 0)), (proj2 (Z.ltb_ge x ak)) by lia. cbn [orb]. unfold capacity. rewrite Z.geb_leb, (proj2 (Z.leb_gt _ _)) by lia.
      destruct (insert _ _) as [[b res]|]; [|done]. cbn [mbind option_bind]. destruct (res <? 0).
      * destruct (note_arrival _ _ _ _ _ _ _); done.
      * destruct (decrypt_inserted _ _ _) as [[[[b' q] add] dec]|]; [|done]. cbn [mbind option_bind]. destruct (note_arrival _ _ _ _ _ _ _); done.
  - by rewrite Hnone in E.
Qed.
End Drops.
Import RcvExample ReceiverExample.

Lemma rcv_drop_too_late_witness :
  exists st st' s' nr' g', processData (cfg true) 7 false (false, false) (unit 0 (pkt 12 PB_SOLO 1 [1; 2])) None start = Some (st, 0) /\
    rcvDropTooLateUpTo (cfg true) 12 st = Some (st', 2) /\ 12 <= s' /\
    received st' s' 12 10 (shift (Z.to_nat (s' - 10)) (<[2%nat := mkEntry (Some (unit 0 (pkt 12 PB_SOLO 1 [1; 2]))) EntryState_Avail]> (replicate 8 no_entry)))
      nr' ∅ ∅ (filter (fun x => 11 < x) ((∅ ∪ range 10 11) ∖ {[12]})) g'.
Proof.
  destruct (free_unit_ok (CUnitQueue.init 8) 0 ltac:(done) eq_refl) as [Hh Hf].
  destruct (arrival_ok (cfg true) 7 false (unit 0 (pkt 12 PB_SOLO 1 [1; 2])) 10 9 10 _ 0 ∅ ∅ ∅ None 12 eq_refl start start_received)
    as (st & ret & E & H).
  - split; [vm_compute; reflexivity|exact I].
  - split_and!; try (unfold m_iSeqNoTH; lia). intros y _. exact I.
  - exact Hh.
  - exact Hf.
  - change (place_of _ _ _ _ _) with Fills in H. destruct H as ((n & g & Hr & _) & -> & _).
    change (Z.max 9 12) with 12 in Hr. change (cells_after Fills 10 _ 12 _) with (<[2%nat := mkEntry (Some (unit 0 (pkt 12 PB_SOLO 1 [1; 2]))) EntryState_Avail]> (replicate 8 no_entry)) in Hr.
    pose proof (inv_empty_head _ _ _ _ _ (rc_buf _ _ _ _ _ _ _ _ _ _ Hr) eq_refl) as ->.
    pose proof (received_len _ _ _ _ _ _ _ _ _ _ Hr) as Hlen. change (zlen _) with 8 in Hlen.
    destruct (rcv_drop_too_late (cfg true) st 10 12 10 _ _ _ _ _ g 12 Hr) as (st' & s' & nr' & g' & E' & Hs' & _ & Hr').
    + lia.
    + lia.
    + unfold m_iSeqNoTH. lia.
    + intros x Hx. pose proof (rc_largest _ _ _ _ _ _ _ _ _ _ Hr) as Hg.
      pose proof (proj2 (rc_list _ _ _ _ _ _ _ _ _ _ Hr)) as Hl. unfold RcvLossList.near, m_iSeqNoTH. destruct g as [m|]; [|done].
      assert (11 <= m) by (apply (proj2 Hl); rewrite elem_of_difference, elem_of_union, elem_of_range, elem_of_singleton; lia). lia.
    + intros n Hn. exfalso. change (2 <= 0)%nat in Hn. lia.
    + lia.
    + exists st, st', s', nr', g'. split; [exact E|]. split; [exact E'|]. split; [lia|exact Hr'].
Defined.

(** A receiver whose cipher never succeeds. *)
Definition locked : config := mkConfig true 0 true true (Some (mkCrypto (fun p => (p, false)) false)).
Definition sealed (seq : Z) : CPacket.t := CPacket.mk seq (PB_SOLO * 2 ^ 30 + 2 ^ 29 + 2 ^ 27 + 1) 0 0 [1; 2].

Lemma rcv_undecrypted_gap_witness :
  exists st', processData locked 7 false (false, false) (unit 0 (sealed 12)) None start = Some (st', 0) /\
    m_iRcvCurrSeqNo st' = 12 /\ reports st' = [] /\ RcvLossList.holds (rcv_list st') ∅ None.
Proof.
  destruct (free_unit_ok (CUnitQueue.init 8) 0 ltac:(done) eq_refl) as [Hh Hf].
  destruct (processData locked 7 false (false, false) (unit 0 (sealed 12)) None start) as [[st' ret]|] eqn:E; [|by vm_compute in E].
  destruct (rcv_undecrypted_gap locked 7 false (unit 0 (sealed 12)) start 10 9 10 _ 0 ∅ ∅ ∅ None 12 (mkCrypto (fun p => (p, false)) false) st' ret start_received eq_refl)
    as (H1 & H2 & H3 & _).
  - lia.
  - vm_compute. reflexivity.
  - split_and!; try (unfold m_iSeqNoTH; lia). intros y _. exact I.
  - vm_compute. discriminate.
  - reflexivity.
  - vm_compute. split; reflexivity.
  - exact Hh.
  - exact Hf.
  - reflexivity.
  - exact E.
  - assert (ret = 0) as -> by (vm_compute in E; congruence). exists st'. split; [reflexivity|]. split; [exact H1|]. split; [exact H2|exact H3].
Defined.
