(* ===== verification/AckSend.v ===== *)
(** Acknowledgement at the receiver: [getFirstNoncontSequence], [sendCtrlAck],
    [processCtrlAckAck] and [checkACKTimer] of core.cpp, over the receiver of
    Reception.v, with the window of sent ACKs and the rates of RateWindow.v.
    Events for the congestion control are listed; the group, the wake-up of
    readers and the statistics are left out. *)
From stdpp Require Import gmap.
From S2P Require Import Prelude Ring SeqNo Packet UnitQueue RcvBuffer Reception RateWindow.
From S2P Require RcvLossList FreshLoss LossReport TsbPd AckWindow.
Import CSeqNo CPacket CRcvBuffer CUDTRcv.

(** [avg_iir<DEPRLEN>] of utilities.h at the type int: the constant has the
    type size_t, so that the arithmetic is unsigned and 64 bits wide. *)
Definition avg_iir (DEPRLEN old_value new_value : Z) : Z :=
  i32 (((old_value * (DEPRLEN - 1)) mod 2 ^ 64 + new_value mod 2 ^ 64) mod 2 ^ 64 / DEPRLEN).

Module CUDTAck.
Definition ACKD_TOTAL_SIZE_SMALL : Z := 4.
Definition ACKD_TOTAL_SIZE_UDTBASE : Z := 6.
Definition INITIAL_RTT : Z := 100000.
Definition INITIAL_RTTVAR : Z := 50000.
Definition ACK_WND_SIZE : Z := 1024.
Definition SELF_CLOCK_INTERVAL : Z := 64.
Definition SrtVersion (major minor patch : Z) : Z := patch + minor * 0x100 + major * 0x10000.

(** UMSG_ACK: a lite one has only the acknowledged number, a full one its own
    number and the fields. *)
Inductive ack_message := LiteAck (ack : Z) | FullAck (ackno : Z) (fields : list Z).

(** What the functions only read; [m_bTsbPd] and the others of the receiver are
    in [rcv_cfg]. *)
Record config := mkConfig {
  rcv_cfg : CUDTRcv.config;
  bTSBPD : bool;
  bMessageAPI : bool;
  m_tdACKInterval : Z;
  m_uPeerSrtVersion : Z;
  m_iMaxSRTPayloadSize : Z;
  bDriftTracer : bool;
  (** of the congestion control *)
  ACKMaxPackets : Z;
  ACKTimeout_us : Z;
}.

Section Ack.
Context {Q : Type} `{!UnitPool Q}.

Record t := mk {
  rcv : CUDTRcv.t (Q := Q);
  m_RcvTimeWindow : CPktTimeWindow.t;
  m_ACKWindow : AckWindow.CACKWindow.t;
  m_iRcvLastAckAck : Z;
  m_iAckSeqNo : Z;
  m_bBufferWasFull : bool;
  m_tsLastAckTime : Z;
  m_iSRTT : Z;
  m_iRTTVar : Z;
  m_bIsFirstRTTReceived : bool;
  m_iPktCount : Z;
  m_iLightACKCount : Z;
  (** the ACKs sent and the TEV_ACKACK events, in order *)
  acks : list ack_message;
  cc_ackacks : list Z;
}.

Definition set_rcv (r : CUDTRcv.t (Q := Q)) (st : t) : t :=
  mk r (m_RcvTimeWindow st) (m_ACKWindow st) (m_iRcvLastAckAck st) (m_iAckSeqNo st) (m_bBufferWasFull st) (m_tsLastAckTime st)
    (m_iSRTT st) (m_iRTTVar st) (m_bIsFirstRTTReceived st) (m_iPktCount st) (m_iLightACKCount st) (acks st) (cc_ackacks st).
Definition set_ACKWindow (w : AckWindow.CACKWindow.t) (st : t) : t :=
  mk (rcv st) (m_RcvTimeWindow st) w (m_iRcvLastAckAck st) (m_iAckSeqNo st) (m_bBufferWasFull st) (m_tsLastAckTime st)
    (m_iSRTT st) (m_iRTTVar st) (m_bIsFirstRTTReceived st) (m_iPktCount st) (m_iLightACKCount st) (acks st) (cc_ackacks st).
Definition set_iRcvLastAckAck (a : Z) (st : t) : t :=
  mk (rcv st) (m_RcvTimeWindow st) (m_ACKWindow st) a (m_iAckSeqNo st) (m_bBufferWasFull st) (m_tsLastAckTime st)
    (m_iSRTT st) (m_iRTTVar st) (m_bIsFirstRTTReceived st) (m_iPktCount st) (m_iLightACKCount st) (acks st) (cc_ackacks st).
Definition set_sent (ackno : Z) (full : bool) (time : Z) (st : t) : t :=
  mk (rcv st) (m_RcvTimeWindow st) (m_ACKWindow st) (m_iRcvLastAckAck st) ackno full time
    (m_iSRTT st) (m_iRTTVar st) (m_bIsFirstRTTReceived st) (m_iPktCount st) (m_iLightACKCount st) (acks st) (cc_ackacks st).
Definition set_rtt (srtt var : Z) (st : t) : t :=
  mk (rcv st) (m_RcvTimeWindow st) (m_ACKWindow st) (m_iRcvLastAckAck st) (m_iAckSeqNo st) (m_bBufferWasFull st) (m_tsLastAckTime st)
    srtt var true (m_iPktCount st) (m_iLightACKCount st) (acks st) (cc_ackacks st).
Definition set_counts (pkts light : Z) (st : t) : t :=
  mk (rcv st) (m_RcvTimeWindow st) (m_ACKWindow st) (m_iRcvLastAckAck st) (m_iAckSeqNo st) (m_bBufferWasFull st) (m_tsLastAckTime st)
    (m_iSRTT st) (m_iRTTVar st) (m_bIsFirstRTTReceived st) pkts light (acks st) (cc_ackacks st).
Definition send_ack (a : ack_message) (st : t) : t :=
  mk (rcv st) (m_RcvTimeWindow st) (m_ACKWindow st) (m_iRcvLastAckAck st) (m_iAckSeqNo st) (m_bBufferWasFull st) (m_tsLastAckTime st)
    (m_iSRTT st) (m_iRTTVar st) (m_bIsFirstRTTReceived st) (m_iPktCount st) (m_iLightACKCount st) (acks st ++ [a]) (cc_ackacks st).
Definition cc_ackack (a : Z) (st : t) : t :=
  mk (rcv st) (m_RcvTimeWindow st) (m_ACKWindow st) (m_iRcvLastAckAck st) (m_iAckSeqNo st) (m_bBufferWasFull st) (m_tsLastAckTime st)
    (m_iSRTT st) (m_iRTTVar st) (m_bIsFirstRTTReceived st) (m_iPktCount st) (m_iLightACKCount st) (acks st) (cc_ackacks st ++ [a]).

Definition getFirstNoncontSequence (cfg : config) (r : CUDTRcv.t (Q := Q)) : Z :=
  let iNextSeqNo := incseq (m_iRcvCurrSeqNo r) in
  if bTSBPD cfg || negb (bMessageAPI cfg) then
    let w_seq := getFirstNonreadSeqNo (m_pRcvBuffer r) in
    if seqcmp w_seq iNextSeqNo >? 0 then iNextSeqNo else w_seq
  else
    let seq := RcvLossList.CRcvLossList.getFirstLostSeq (LossReport.CUDT.m_pRcvLossList (losses r)) in
    if negb (seq =? SRT_SEQNO_NONE) then seq else iNextSeqNo.

Definition getAvailRcvBufferSizeNoLock (r : CUDTRcv.t (Q := Q)) : Z := getAvailSize (m_iRcvLastAck r) (m_pRcvBuffer r).

(** The fields of a full ACK behind the first four. *)
Definition rate_fields (cfg : config) (w : CPktTimeWindow.t) : option (list Z) :=
  '(pktps, rcvRate) ← CPktTimeWindow.getPktRcvSpeed w;
  bandwidth ← CPktTimeWindow.getBandwidth w;
  if m_uPeerSrtVersion cfg =? SrtVersion 1 0 2 then
    xmrate ← int_op (bandwidth * m_iMaxSRTPayloadSize cfg); Some [pktps; bandwidth; rcvRate; xmrate]
  else if m_uPeerSrtVersion cfg >=? SrtVersion 1 0 3 then Some [pktps; bandwidth; rcvRate]
  else Some [pktps; bandwidth].

(** The part of [sendCtrlAck] that builds and sends a full ACK. *)
Definition send_full (cfg : config) (clock : nat -> Z) (st : t) : option t :=
  let ackno := CAckNo.incack (m_iAckSeqNo st) in
  let left := i32 (getAvailRcvBufferSizeNoLock (rcv st)) in
  let fields := [m_iRcvLastAck (rcv st); m_iSRTT st; m_iRTTVar st; left] in
  st ← (if clock 1%nat - m_tsLastAckTime st >? m_tdACKInterval cfg then
          rates ← rate_fields cfg (m_RcvTimeWindow st);
          Some (send_ack (FullAck ackno (fields ++ rates)) (set_sent ackno (left =? 0) (clock 2%nat) st))
        else Some (send_ack (FullAck ackno fields) (set_sent ackno (left =? 0) (m_tsLastAckTime st) st)));
  Some (set_ACKWindow (AckWindow.CACKWindow.store ackno (m_iRcvLastAck (rcv st)) (clock 3%nat) (m_ACKWindow st)) st).

(** [sendCtrlAck], [lite] for the size SEND_LITE_ACK; [clock k] are the readings
    of the clock. *)
Definition sendCtrlAck (cfg : config) (clock : nat -> Z) (lite : bool) (st : t) : option t :=
  let bNeedFullAck := m_bBufferWasFull st && (getAvailRcvBufferSizeNoLock (rcv st) >? 0) in
  let ack := getFirstNoncontSequence cfg (rcv st) in
  if (m_iRcvLastAckAck st =? ack) && negb bNeedFullAck then Some st
  else if lite && negb bNeedFullAck then Some (send_ack (LiteAck ack) st)
  else
    let last := m_iRcvLastAck (rcv st) in
    let newer := seqcmp ack last >? 0 in
    let st := if newer then set_rcv (set_iRcvLastAck ack (rcv st)) st else st in
    if negb newer && (ack =? last) && negb bNeedFullAck && (clock 0%nat - m_tsLastAckTime st <? m_iSRTT st + 4 * m_iRTTVar st) then Some st
    else if negb newer && negb (ack =? last) && negb bNeedFullAck then Some st
    else if (seqcmp (m_iRcvLastAck (rcv st)) (m_iRcvLastAckAck st) >? 0) || bNeedFullAck then send_full cfg clock st
    else Some st.

(** [processCtrlAckAck] for the number, the timestamp and the arrival time of
    the message. *)
Definition processCtrlAckAck (cfg : config) (ackno timestamp tsArrival : Z) (st : t) : t :=
  let '(w, found, rtt) := AckWindow.CACKWindow.acknowledge ackno tsArrival (m_ACKWindow st) in
  let ack := default 0 found in
  let st := set_ACKWindow w st in
  if rtt =? -1 then st
  else if rtt <=? 0 then st
  else
    let st := if m_bIsFirstRTTReceived st
              then set_rtt (avg_iir 8 (m_iSRTT st) rtt) (avg_iir 4 (m_iRTTVar st) (Z.abs (rtt - m_iSRTT st))) st
              else set_rtt rtt (Z.quot rtt 2) st in
    let st := cc_ackack ack st in
    let st := if bDriftTracer cfg then
                let b := m_pRcvBuffer (rcv st) in
                set_rcv (CUDTRcv.set_buffer (set_tsbpd (TsbPd.CTsbpdTime.addDriftSample timestamp tsArrival rtt (m_tsbpd b)).1 b) (rcv st)) st
              else st in
    if seqcmp ack (m_iRcvLastAckAck st) >? 0 then set_iRcvLastAckAck ack st else st.

(** [checkACKTimer]; the result says whether a full, a lite or no ACK was due. *)
Definition checkACKTimer (cfg : config) (clock : nat -> Z) (currtime : Z) (st : t) : option (t * option bool) :=
  if (currtime >? m_tsNextACKTime (rcv st)) || ((ACKMaxPackets cfg >? 0) && (m_iPktCount st >=? ACKMaxPackets cfg)) then
    st ← sendCtrlAck cfg clock false st;
    let ack_interval := if ACKTimeout_us cfg >? 0 then ACKTimeout_us cfg else m_tdACKInterval cfg in
    let r := rcv st in
    let st := set_rcv (set_times (m_iEXPCount r) (m_tsLastRspTime r) (currtime + ack_interval) r) st in
    Some (set_counts 0 1 st, Some false)
  else if m_iPktCount st >=? SELF_CLOCK_INTERVAL * m_iLightACKCount st then
    st ← sendCtrlAck cfg clock true st;
    Some (set_counts (m_iPktCount st) (m_iLightACKCount st + 1) st, Some true)
  else Some (st, None).
End Ack.
End CUDTAck.
