(* ===== verification/AckSendInv.v ===== *)
(** What an acknowledgement of AckSend.v promises: everything below the number
    it carries has arrived or was given up as too late. *)
From stdpp Require Import gmap.
From S2P Require Import Prelude Ring SeqNo Packet Slots UnitQueue RcvBuffer RcvBufferInv RcvBufferRead Reception ReceptionInv ReceptionDrop RateWindow AckSend.
From S2P Require RcvLossList FreshLoss LossReport AckWindow.
Import CSeqNo CPacket CRcvBuffer CUDTRcv CUDTAck.

(** ** The averages *)

(** The filter is the weighted mean, rounded down. *)
Lemma avg_iir_floor n old new : n = 4 \/ n = 8 -> in_i32 old -> in_i32 new -> avg_iir n old new = (old * (n - 1) + new) / n.
Proof.
  intros Hn Ho Hw. unfold in_i32 in *. unfold avg_iir. rewrite <- Zplus_mod. set (T := old * (n - 1) + new).
  assert (HT : - (n * 2 ^ 31) <= T < n * 2 ^ 31) by (unfold T; destruct Hn as [-> | ->]; lia).
  assert (Hq : in_i32 (T / n)).
  { unfold in_i32. split; [apply Z.div_le_lower_bound; lia|apply Z.div_lt_upper_bound; lia]. }
  destruct (Z.le_gt_cases 0 T).
  - rewrite Z.mod_small by (destruct Hn as [-> | ->]; lia). by apply i32_id.
  - replace (T mod 2 ^ 64) with (T + 2 ^ 64).
    + assert (E : (T + 2 ^ 64) / n = T / n + 2 ^ 32 * (2 ^ 32 / n)).
      { destruct Hn as [-> | ->]; rewrite <- Z.div_add by lia; f_equal. }
      rewrite E, <- (i32_id (T / n)) by done. rewrite (i32_id (T / n)) at 1 by done. unfold i32. f_equal.
      rewrite (Z.mul_comm (2 ^ 32)). replace (T / n + 2 ^ 32 / n * 2 ^ 32 + 2 ^ 31) with (T / n + 2 ^ 31 + 2 ^ 32 / n * 2 ^ 32) by lia. apply Z.mod_add. lia.
    + apply (Z.mod_unique _ _ (-1)); [|lia]. left. destruct Hn as [-> | ->]; lia.
Qed.

Lemma avg_iir_between n old new lo hi : n = 4 \/ n = 8 -> in_i32 lo -> in_i32 hi -> lo <= old <= hi -> lo <= new <= hi -> lo <= avg_iir n old new <= hi.
Proof.
  intros Hn Hlo Hhi Ho Hw. unfold in_i32 in *. rewrite avg_iir_floor by (try done; unfold in_i32; lia). destruct Hn as [-> | ->]; split.
  all: try (apply Z.div_le_lower_bound; lia). all: apply Z.lt_succ_r, Z.div_lt_upper_bound; lia.
Qed.

Section AckInv.
Context {Q : Type} `{HQ : !UnitPool Q}.
Implicit Types (st : CUDTAck.t (Q := Q)) (r : CUDTRcv.t (Q := Q)) (cs : list Entry).

(** ** The first number that is not contiguous *)

Lemma offPos_pos_of (b : CRcvBuffer.t (Q := Q)) s cs o k : core b s cs o -> 0 <= k < m_szSize b -> offPos b (m_iStartPos b) (pos_of b k) = k.
Proof.
  intros Hc Hk. pose proof (c_start _ _ _ _ Hc). unfold offPos, pos_of. rewrite Z.geb_leb.
  destruct (Z.lt_ge_cases (m_iStartPos b + k) (m_szSize b)).
  - rewrite Z.mod_small by lia. rewrite (proj2 (Z.leb_le _ _)); lia.
  - rewrite <- (Z.mod_unique (m_iStartPos b + k) (m_szSize b) 1 (m_iStartPos b + k - m_szSize b)) by lia. rewrite (proj2 (Z.leb_gt _ _)); lia.
Qed.

Lemma has_packet_known s (b : CRcvBuffer.t (Q := Q)) cs o k : core b s cs o -> has_packet (cell_at cs k) = true -> ~ missing s cs (s + Z.of_nat k).
Proof.
  intros Hc Hp. unfold missing. replace (Z.to_nat (s + Z.of_nat k - s)) with k by lia. destruct (decide (k < length cs)%nat) as [Hk|Hk].
  - pose proof (c_ok _ _ _ _ Hc _ _ (cell_at_lookup cs k Hk)) as Hok. unfold cell_ok in Hok. unfold has_packet in Hp.
    destruct (pUnit (cell_at cs k)); [|done]. destruct Hok as [-> _]. done.
  - unfold cell_at in Hp. by rewrite lookup_ge_None_2 in Hp by lia.
Qed.

Lemma noncont_ok cfg r s c ak cs nr o D S g : received r s c ak cs nr o D S g -> bTSBPD cfg || negb (bMessageAPI cfg) = true \/ D = ∅ ->
  c - s < m_iSeqNoTH - 1 ->
  exists p, getFirstNoncontSequence cfg r = seq_of p /\ s <= p <= c + 1 /\ forall x, s <= x < p -> ~ missing s cs x.
Proof.
  intros Hr HD Hw. pose proof (rc_buf _ _ _ _ _ _ _ _ _ _ Hr) as Hinv. pose proof (proj1 (i_rep _ _ _ _ _ Hinv)) as Hc. pose proof (c_size _ _ _ _ Hc) as Hsz.
  pose proof (i_off _ _ _ _ _ Hinv). pose proof (i_nr _ _ _ _ _ Hinv). pose proof (rc_start _ _ _ _ _ _ _ _ _ _ Hr).
  assert (Hpk : forall x, s <= x < s + Z.of_nat nr -> ~ missing s cs x).
  { intros x Hx. replace x with (s + Z.of_nat (Z.to_nat (x - s))) by lia. eapply has_packet_known; [exact Hc|].
    apply (messages_packets _ _ _ (i_msgs _ _ _ _ _ Hinv)). lia. }
  assert (Hnr : s + Z.of_nat nr <= c + 1).
  { destruct (Z.le_gt_cases (s + Z.of_nat nr) (c + 1)) as [|Hgt]; [done|]. destruct (Hpk (c + 1)); [lia|]. unfold missing.
    by rewrite (rc_beyond _ _ _ _ _ _ _ _ _ _ Hr) by lia. }
  unfold getFirstNoncontSequence. rewrite (rc_curr _ _ _ _ _ _ _ _ _ _ Hr), incseq_seq_of. destruct (bTSBPD cfg || negb (bMessageAPI cfg)) eqn:Hmode.
  - exists (s + Z.of_nat nr). split; [|split; [lia|done]]. unfold getFirstNonreadSeqNo.
    rewrite (i_seq _ _ _ _ _ Hinv), (i_nonread _ _ _ _ _ Hinv), (offPos_pos_of _ _ _ _ _ Hc), incseq_by_seq_of by (unfold m_iSeqNoTH in *; lia).
    by rewrite seqcmp_gtb, Z.gtb_ltb, (proj2 (Z.ltb_ge _ _)) by lia.
  - destruct HD as [?| ->]; [done|]. rewrite (RcvLossList.first_holds _ _ _ (rc_list _ _ _ _ _ _ _ _ _ _ Hr)). destruct (first_of S) as [m|] eqn:Hm.
    + rewrite (proj2 (Z.eqb_neq _ SRT_SEQNO_NONE)) by apply seq_of_not_none. exists m. apply first_of_Some in Hm as [Hm Hmin].
      split; [done|]. pose proof (proj1 (rc_lost _ _ _ _ _ _ _ _ _ _ Hr m) Hm) as (Hms & _). split; [lia|]. intros x Hx Hmiss.
      assert (HxS : x ∈ S) by (apply (rc_lost _ _ _ _ _ _ _ _ _ _ Hr); split; [lia|]; split; [done|set_solver]). specialize (Hmin x HxS). lia.
    + apply first_of_None in Hm as ->. rewrite Z.eqb_refl. exists (c + 1). split; [done|]. split; [lia|]. intros x Hx Hmiss.
      assert (HxS : x ∈ (∅ : gset Z)) by (apply (rc_lost _ _ _ _ _ _ _ _ _ _ Hr); split; [lia|]; split; [done|set_solver]). set_solver.
Qed.

(** The receiver of the result, the ACKs it sent, and nothing else matters. *)
Definition ack_number (a : ack_message) : Z := match a with LiteAck n => n | FullAck _ fields => nth 0 fields 0 end.

Definition rates_defined (cfg : config) st : Prop := is_Some (rate_fields cfg (m_RcvTimeWindow st)).

Lemma send_full_ok cfg clock st : rates_defined cfg st ->
  exists st' a, send_full cfg clock st = Some st' /\ rcv st' = rcv st /\ m_RcvTimeWindow st' = m_RcvTimeWindow st /\ acks st' = acks st ++ [a] /\
    ack_number a = m_iRcvLastAck (rcv st) /\ m_iRcvLastAckAck st' = m_iRcvLastAckAck st.
Proof.
  intros [rates Hrates]. unfold send_full. rewrite Hrates. cbn [mbind option_bind].
  destruct (_ >? _); eexists _, _; (split; [reflexivity|]); done.
Qed.

Lemma received_acked r s c ak ak' cs nr o D S g : received r s c ak cs nr o D S g -> (forall x, s <= x < ak' -> ~ missing s cs x) ->
  received (set_iRcvLastAck (seq_of ak') r) s c ak' cs nr o D S g.
Proof. intros [] Ha. split; try done. Qed.

Lemma ack_ok cfg clock lite st s c ak cs nr o D S g : received (rcv st) s c ak cs nr o D S g -> bTSBPD cfg || negb (bMessageAPI cfg) = true \/ D = ∅ ->
  c - s < m_iSeqNoTH - 1 -> - m_iSeqNoTH < s - ak -> c + 1 - ak < m_iSeqNoTH -> rates_defined cfg st ->
  exists p st' ak' sent, sendCtrlAck cfg clock lite st = Some st' /\ s <= p <= c + 1 /\ (forall x, s <= x < p -> ~ missing s cs x) /\
    received (rcv st') s c ak' cs nr o D S g /\ (ak' = ak \/ ak < p /\ ak' = p) /\ m_RcvTimeWindow st' = m_RcvTimeWindow st /\
    m_pRcvBuffer (rcv st') = m_pRcvBuffer (rcv st) /\
    acks st' = acks st ++ sent /\ (length sent <= 1)%nat /\ (forall a, a ∈ sent -> ack_number a = seq_of p \/ ack_number a = seq_of ak').
Proof.
  intros Hr HD Hw W1 W2 Hrates. destruct (noncont_ok cfg (rcv st) s c ak cs nr o D S g Hr HD Hw) as (p & Ep & Hp & Hbelow). exists p.
  unfold sendCtrlAck. rewrite Ep. set (full := m_bBufferWasFull st && _). pose proof (rc_ack _ _ _ _ _ _ _ _ _ _ Hr) as Eak.
  destruct ((m_iRcvLastAckAck st =? seq_of p) && negb full).
  { exists st, ak, []. rewrite app_nil_r. split_and!; first [done|lia|by left|cbn; lia|by intros a Ha%elem_of_nil]. }
  destruct (lite && negb full).
  { exists (send_ack (LiteAck (seq_of p)) st), ak, [LiteAck (seq_of p)]. split_and!; first [done|lia|by left|cbn; lia|idtac]. intros a ->%list_elem_of_singleton. by left. }
  rewrite Eak, seqcmp_gtb, Z.gtb_ltb by lia. cbv zeta. set (st1 := if ak <? p then set_rcv _ st else st).
  set (ak' := if ak <? p then p else ak).
  assert (H1 : received (rcv st1) s c ak' cs nr o D S g /\ acks st1 = acks st /\ m_RcvTimeWindow st1 = m_RcvTimeWindow st /\ m_iRcvLastAckAck st1 = m_iRcvLastAckAck st /\
    m_pRcvBuffer (rcv st1) = m_pRcvBuffer (rcv st)).
  { unfold st1, ak'. destruct (Z.ltb_spec ak p); [|done]. split; [|done]. by eapply received_acked. }
  destruct H1 as (H1 & Ea & Ew & Eaa & Eb). assert (Hak' : ak' = ak \/ ak < p /\ ak' = p) by (unfold ak'; destruct (Z.ltb_spec ak p); [by right|by left]).
  assert (Hnone : exists st' ak'' sent, Some st1 = Some st' /\ s <= p <= c + 1 /\ (forall x, s <= x < p -> ~ missing s cs x) /\
    received (rcv st') s c ak'' cs nr o D S g /\ (ak'' = ak \/ ak < p /\ ak'' = p) /\ m_RcvTimeWindow st' = m_RcvTimeWindow st /\
    m_pRcvBuffer (rcv st') = m_pRcvBuffer (rcv st) /\
    acks st' = acks st ++ sent /\ (length sent <= 1)%nat /\ (forall a, a ∈ sent -> ack_number a = seq_of p \/ ack_number a = seq_of ak'')).
  { exists st1, ak', []. rewrite app_nil_r. split_and!; first [done|lia|by left|cbn; lia|by intros a Ha%elem_of_nil]. }
  destruct (negb (ak <? p) && (seq_of p =? seq_of ak) && negb full && _); [done|].
  destruct (negb (ak <? p) && negb _ && negb full); [done|].
  destruct (_ || full); [|done].
  assert (Hrates1 : rates_defined cfg st1) by (unfold rates_defined; by rewrite Ew).
  destruct (send_full_ok cfg clock st1 Hrates1) as (st' & a & E & F1 & F2 & F3 & F4 & _). exists st', ak', [a]. rewrite E, F1, F2, F3, Ea.
  split_and!; first [done|lia|cbn; lia|idtac]. intros a' ->%list_elem_of_singleton. right. by rewrite F4, (rc_ack _ _ _ _ _ _ _ _ _ _ H1).
Qed.

(** A full or lite ACK carries a number below which nothing is missing in
    the receiver's buffer - the first loss, or the number after the largest one
    received; in the live and the stream mode, the first one that cannot be
    read.  The acknowledged position never moves back, nothing that is missing
    is ever acknowledged, and at most one message is sent. *)
Theorem ack_number_holds cfg clock lite st s c ak cs nr o D S g (Hr : received (rcv st) s c ak cs nr o D S g)
  (HD : bTSBPD cfg || negb (bMessageAPI cfg) = true \/ D = ∅) (Hw : c - s < m_iSeqNoTH - 1) (W1 : - m_iSeqNoTH < s - ak) (W2 : c + 1 - ak < m_iSeqNoTH)
  (Hrates : rates_defined cfg st) :
  exists p st' ak' sent, sendCtrlAck cfg clock lite st = Some st' /\ s <= p <= c + 1 /\ (forall x, s <= x < p -> ~ missing s cs x) /\
    received (rcv st') s c ak' cs nr o D S g /\ (ak' = ak \/ ak < p /\ ak' = p) /\
    acks st' = acks st ++ sent /\ (length sent <= 1)%nat /\ (forall a, a ∈ sent -> ack_number a = seq_of p \/ ack_number a = seq_of ak').
Proof.
  destruct (ack_ok cfg clock lite st s c ak cs nr o D S g Hr HD Hw W1 W2 Hrates) as (p & st' & ak' & sent & E & H1 & H2 & H3 & H4 & _ & _ & H5 & H6 & H7).
  by exists p, st', ak', sent.
Qed.

(** ** The round-trip time *)

(** What an ACKACK for the ACK [x] does to the round-trip time. *)
Definition rtt_after (rtt : Z) (first : bool) (srtt var : Z) : Z * Z :=
  if first then ((srtt * 7 + rtt) / 8, (var * 3 + Z.abs (rtt - srtt)) / 4) else (rtt, rtt / 2).

(** C34. An ACKACK finds its ACK in the window and takes it out with all older
    ones; the time between the two is a sample of the round-trip time.  The
    first sample replaces the initial estimate, every later one is averaged
    into it; as long as the samples and the estimate lie between [lo] and [hi]
    so does the next estimate, and its deviation stays below [hi].  The
    position that the sender knows to be acknowledged never moves back.  An
    unknown number, or one whose time is not positive, changes neither. *)
Theorem ackack_rtt cfg st q ackno ts arrival lo hi b a (Hq : AckWindow.holds (m_ACKWindow st) q) (Hlo : 0 < lo) (Hhi : in_i32 hi)
  (Hsrtt : lo <= m_iSRTT st <= hi) (Hvar : 0 <= m_iRTTVar st <= hi) (Hlast : m_iRcvLastAckAck st = seq_of b) :
  let st' := processCtrlAckAck cfg ackno ts arrival st in
  AckWindow.holds (m_ACKWindow st') (AckWindow.spec_acknowledge ackno arrival q).1.1 /\
  match AckWindow.position ackno q with
  | Some k =>
      let x := nth k q (AckWindow.CACKWindow.mkSeq 0 0 0) in
      let rtt := i32 (arrival - AckWindow.CACKWindow.tsTimeStamp x) in
      (rtt <= 0 -> m_iSRTT st' = m_iSRTT st /\ m_iRTTVar st' = m_iRTTVar st /\ m_iRcvLastAckAck st' = m_iRcvLastAckAck st) /\
      (lo <= rtt <= hi -> AckWindow.CACKWindow.iACK x = seq_of a -> - m_iSeqNoTH < a - b < m_iSeqNoTH ->
        (m_iSRTT st', m_iRTTVar st') = rtt_after rtt (m_bIsFirstRTTReceived st) (m_iSRTT st) (m_iRTTVar st) /\
        lo <= m_iSRTT st' <= hi /\ 0 <= m_iRTTVar st' <= hi /\ m_bIsFirstRTTReceived st' = true /\
        m_iRcvLastAckAck st' = seq_of (Z.max a b) /\ cc_ackacks st' = cc_ackacks st ++ [seq_of a])
  | None => m_iSRTT st' = m_iSRTT st /\ m_iRTTVar st' = m_iRTTVar st /\ m_iRcvLastAckAck st' = m_iRcvLastAckAck st
  end.
Proof.
  intros st'. destruct (AckWindow.acknowledge_holds (m_ACKWindow st) q ackno arrival Hq) as (w & E & Hw). subst st'. unfold processCtrlAckAck. rewrite E.
  unfold AckWindow.spec_acknowledge in *. destruct (AckWindow.position ackno q) as [k|]; cbn [fst snd] in *; [|by change (-1 =? -1) with true].
  set (x := nth k q (AckWindow.CACKWindow.mkSeq 0 0 0)) in *. match type of E with context [nth k q ?d] => change (nth k q d) with x in * end.
  set (rtt := i32 _). cbn [from_option id].
  destruct (Z.eqb_spec rtt (-1)) as [Hm|Hm]; [split; [done|]; split; [done|]; lia|].
  destruct (Z.leb_spec rtt 0) as [Hr|Hr]; [split; [done|]; split; [done|]; lia|].
  unfold in_i32 in Hhi. assert (Hrtt : in_i32 rtt) by apply i32_range. change (m_bIsFirstRTTReceived (set_ACKWindow w st)) with (m_bIsFirstRTTReceived st).
  set (st1 := if m_bIsFirstRTTReceived _ then set_rtt _ _ _ else _). set (st2 := if bDriftTracer cfg then _ else _).
  assert (E2 : m_ACKWindow st2 = w /\ m_iSRTT st2 = m_iSRTT st1 /\ m_iRTTVar st2 = m_iRTTVar st1 /\ m_bIsFirstRTTReceived st2 = true /\ m_iRcvLastAckAck st2 = m_iRcvLastAckAck st /\
    cc_ackacks st2 = cc_ackacks st ++ [AckWindow.CACKWindow.iACK x]) by (unfold st2, st1; by destruct (bDriftTracer cfg), (m_bIsFirstRTTReceived st)).
  destruct E2 as (F1 & F2 & F3 & F4 & F5 & F6).
  set (st3 := if _ >? 0 then _ else st2). assert (E3 : m_ACKWindow st3 = w /\ m_iSRTT st3 = m_iSRTT st1 /\ m_iRTTVar st3 = m_iRTTVar st1 /\ m_bIsFirstRTTReceived st3 = true /\
    cc_ackacks st3 = cc_ackacks st ++ [AckWindow.CACKWindow.iACK x]) by (unfold st3; by destruct (_ >? 0)).
  destruct E3 as (G1 & G2 & G3 & G4 & G6). rewrite G1. split; [done|]. split; [lia|]. intros Hs Ha Hab. rewrite G2, G3, G4, G6, Ha.
  assert (Hav : (m_iSRTT st1, m_iRTTVar st1) = rtt_after rtt (m_bIsFirstRTTReceived st) (m_iSRTT st) (m_iRTTVar st) /\ lo <= m_iSRTT st1 <= hi /\ 0 <= m_iRTTVar st1 <= hi).
  { unfold st1, rtt_after. destruct (m_bIsFirstRTTReceived st); cbn [m_iSRTT m_iRTTVar set_rtt set_ACKWindow].
    - split; [|split; [apply avg_iir_between; unfold in_i32; lia || (by right)|apply avg_iir_between; unfold in_i32; lia || (by left)]].
      rewrite !avg_iir_floor by (unfold in_i32; lia || (by left) || (by right)). done.
    - rewrite Z.quot_div_nonneg by lia. split; [done|]. split; [lia|]. split; [apply Z.div_pos; lia|]. apply Z.div_le_upper_bound; lia. }
  destruct Hav as (A1 & A2 & A3). do 4 (split; [done|]). split; [|done].
  unfold st3. rewrite F5, Hlast, Ha, seqcmp_gtb, Z.gtb_ltb by lia. destruct (Z.ltb_spec b a); cbn [m_iRcvLastAckAck set_iRcvLastAckAck]; rewrite ?F5, ?Hlast; f_equal; lia.
Qed.
End AckInv.

Import RcvExample ReceiverExample.
Module AckExample.
Definition cfg : config := mkConfig (ReceiverExample.cfg false) false true 10000 0x010506 1456 false 0 0.
(** The receiver [r], which sent an ACK with number 1 for 10 at the time 20000. *)
Definition at_work (r : CUDTRcv.t (Q := CUnitQueue.t)) : CUDTAck.t (Q := CUnitQueue.t) :=
  CUDTAck.mk r (CPktTimeWindow.init 16 64 0 44 1456)
    (AckWindow.CACKWindow.store 1 10 20000 (AckWindow.CACKWindow.init 8)) 9 1 false 0 100000 50000 false 0 1 [] [].
Definition start : CUDTAck.t (Q := CUnitQueue.t) :=
  CUDTAck.mk ReceiverExample.start (CPktTimeWindow.init 16 64 0 44 1456) (AckWindow.CACKWindow.init 8) 10 0 false 0 100000 50000 false 0 1 [] [].
End AckExample.

Lemma ack_number_holds_witness :
  exists r st' ak' g n, processData (rcv_cfg AckExample.cfg) 7 false (false, false) (unit 0 (pkt 10 PB_SOLO 1 [1; 2])) None ReceiverExample.start = Some (r, 0) /\
    sendCtrlAck AckExample.cfg (fun _ => 30000) false (AckExample.at_work r) = Some st' /\
    map ack_number (acks st') = [11] /\
    received (rcv st') 10 10 ak' (<[O := mkEntry (Some (unit 0 (pkt 10 PB_SOLO 1 [1; 2]))) EntryState_Avail]> (replicate 8 no_entry)) n ∅ ∅ ((∅ ∪ range 10 9) ∖ {[10]}) g.
Proof.
  destruct (free_unit_ok (CUnitQueue.init 8) 0 ltac:(done) eq_refl) as [Hh Hf].
  destruct (arrival_ok (rcv_cfg AckExample.cfg) 7 false (unit 0 (pkt 10 PB_SOLO 1 [1; 2])) 10 9 10 _ 0 ∅ ∅ ∅ None 10 eq_refl ReceiverExample.start start_received)
    as (r & ret & E & H).
  - split; [vm_compute; reflexivity|exact I].
  - split_and!; try (unfold m_iSeqNoTH; lia). intros y _. exact I.
  - exact Hh.
  - exact Hf.
  - change (place_of _ _ _ _ _) with Fills in H. destruct H as ((n & g & Hr & _) & -> & _).
    destruct (ack_number_holds AckExample.cfg (fun _ => 30000) false (AckExample.at_work r) 10 10 10 _ _ _ ∅ _ g Hr) as (p & st' & ak' & sent & E' & _ & _ & Hr' & _).
    + by right.
    + unfold m_iSeqNoTH. lia.
    + unfold m_iSeqNoTH. lia.
    + unfold m_iSeqNoTH. lia.
    + eexists. vm_compute. reflexivity.
    + exists r, st', ak', g, n. split; [exact E|]. split; [exact E'|]. split; [|exact Hr'].
      assert (Em : (fun st => map ack_number (acks st)) <$> (r ← processData (rcv_cfg AckExample.cfg) 7 false (false, false) (unit 0 (pkt 10 PB_SOLO 1 [1; 2])) None ReceiverExample.start;
        sendCtrlAck AckExample.cfg (fun _ => 30000) false (AckExample.at_work r.1)) = Some [11]) by (vm_compute; reflexivity).
      rewrite E in Em. cbn [mbind option_bind fst] in Em. rewrite E' in Em. cbn in Em. congruence.
Defined.

Lemma ackack_rtt_witness :
  let st' := processCtrlAckAck AckExample.cfg 1 0 20120 (AckExample.at_work ReceiverExample.start) in
  m_iSRTT st' = 120 /\ m_iRTTVar st' = 60 /\ m_iRcvLastAckAck st' = 10 /\ cc_ackacks st' = [10].
Proof.
  intros st'. assert (Hq : AckWindow.holds (m_ACKWindow (AckExample.at_work ReceiverExample.start)) [AckWindow.CACKWindow.mkSeq 1 10 20000]).
  { exact (AckWindow.store_holds (AckWindow.CACKWindow.init 8) [] 1 10 20000 (AckWindow.ack_init_holds 8 ltac:(lia))). }
  destruct (ackack_rtt AckExample.cfg (AckExample.at_work ReceiverExample.start) _ 1 0 20120 1 200000 9 10 Hq) as (_ & _ & H).
  - lia.
  - unfold in_i32. lia.
  - cbn. lia.
  - cbn. lia.
  - reflexivity.
  - destruct H as (Hav & _ & _ & _ & Hl & Hc); [vm_compute; split; discriminate|reflexivity|unfold m_iSeqNoTH; lia|].
    fold st' in Hav, Hl, Hc. change (rtt_after _ _ _ _) with (120, 60) in Hav. split; [exact (f_equal fst Hav)|]. split; [exact (f_equal snd Hav)|]. split; [exact Hl|exact Hc].
Defined.
