(* ===== verification/ReceiverRun.v ===== *)
(** A receiver at work: packets arrive, packets that are too late are given
    up, messages are read and ACKs are sent, in any order.  No ACK promises
    more than what has arrived or has been given up. *)
From stdpp Require Import gmap.
From S2P Require Import Prelude Ring SeqNo Packet Slots UnitQueue RcvBuffer RcvBufferInv RcvBufferRead Reception ReceptionInv ReceptionDrop RateWindow AckSend AckSendInv.
From S2P Require RcvLossList FreshLoss LossReport AckWindow TsbPd.
Import CSeqNo CPacket CRcvBuffer CUDTRcv CUDTAck.

Section Run.
Context {Q : Type} `{HQ : !UnitPool Q}.
Implicit Types (st : CUDTAck.t (Q := Q)) (cs : list Entry).

(** What happens to the receiver; [x] and [y] are the positions that the
    sequence numbers stand for. *)
Inductive event :=
  | Arrive (x : Z) (u : CUnit) (now : Z)
  | DropLate (y : Z)
  | Ack (lite : bool) (clock : nat -> Z)
  | Read (len : Z).

Definition step (cfg : config) st (e : event) : option (CUDTAck.t (Q := Q)) :=
  match e with
  | Arrive _ u now => r ← processData (rcv_cfg cfg) now false (false, false) u None (rcv st); Some (set_rcv r.1 st)
  | DropLate y => r ← rcvDropTooLateUpTo (rcv_cfg cfg) (seq_of y) (rcv st); Some (set_rcv r.1 st)
  | Ack lite clock => sendCtrlAck cfg clock lite st
  | Read len => r ← readMessage len None (m_pRcvBuffer (rcv st)); Some (set_rcv (CUDTRcv.set_buffer r.1.1.1 (rcv st)) st)
  end.

Fixpoint run (cfg : config) (es : list event) st : option (CUDTAck.t (Q := Q)) :=
  match es with [] => Some st | e :: es => st ← step cfg st e; run cfg es st end.

(** A packet that is a message of its own. *)
Definition solo (p : CPacket.t) : Prop := is_first p = true /\ is_last p = true.

Definition span : Z := 2 ^ 28.

(** What may happen: all numbers are within a quarter of the sequence space
    from [base] on, packets are plain messages of one packet in free units, the
    rates can be computed, and only what is readable is read. *)
Definition allowed (cfg : config) (base : Z) st (e : event) : Prop :=
  match e with
  | Arrive x u now => base <= x < base + span /\ getSeqNo (m_Packet u) = seq_of x /\ plain (rcv_cfg cfg) (m_Packet u) /\ solo (m_Packet u) /\
      pool_has (m_pUnitQueue (m_pRcvBuffer (rcv st))) (unit_id u) /\ unit_id u ∉ pool_taken (m_pUnitQueue (m_pRcvBuffer (rcv st)))
  | DropLate y => base <= y < base + span
  | Ack _ _ => rates_defined cfg st
  | Read len => 0 <= len /\ CRcvBuffer.m_bMessageAPI (m_pRcvBuffer (rcv st)) = true /\
      m_iFirstNonreadPos (m_pRcvBuffer (rcv st)) <> m_iStartPos (m_pRcvBuffer (rcv st))
  end.

Fixpoint admissible (cfg : config) (base : Z) st (es : list event) : Prop :=
  match es with
  | [] => True
  | e :: es => allowed cfg base st e /\ forall st', step cfg st e = Some st' -> admissible cfg base st' es
  end.

Definition arrived (es : list event) (x : Z) : Prop := exists u now, Arrive x u now ∈ es.
Definition given_up (es : list event) (x : Z) : Prop := exists y, DropLate y ∈ es /\ x < y.

(** Every number from [base] to before [p] is accounted for. *)
Definition settled (base : Z) (es : list event) (p : Z) : Prop := forall x, base <= x < p -> arrived es x \/ given_up es x.

Record tracked (base : Z) (es : list event) st (s c ak : Z) cs (nr : nat) (o : gset CUnitQueue.CUnit) (S : gset Z) (g : option Z) : Prop := {
  t_rcv : received (rcv st) s c ak cs nr o ∅ S g;
  t_pos : base <= s /\ base - 1 <= c < base + span /\ base <= ak <= c + 1;
  t_room : c - s < m_szSize (m_pRcvBuffer (rcv st)) - 1;
  t_largest : match g with Some m => base <= m | None => True end;
  t_solo : forall k, has_packet (cell_at cs k) = true -> solo (packet_of (cell_at cs k));
  t_cells : forall x, s <= x -> ~ missing s cs x -> arrived es x;
  t_below : settled base es s;
  t_ack : settled base es ak;
  t_acks : forall a, a ∈ acks st -> exists q, ack_number a = seq_of q /\ base <= q <= c + 1 /\ settled base es q
}.

Lemma arrived_snoc es e x : arrived es x -> arrived (es ++ [e]) x.
Proof. intros (u & now & H). exists u, now. apply elem_of_app. by left. Qed.

Lemma given_up_snoc es e x : given_up es x -> given_up (es ++ [e]) x.
Proof. intros (y & H & Hx). exists y. split; [|done]. apply elem_of_app. by left. Qed.

Lemma settled_snoc base es e p : settled base es p -> settled base (es ++ [e]) p.
Proof. intros H x Hx. destruct (H x Hx); [left; by apply arrived_snoc|right; by apply given_up_snoc]. Qed.

Lemma messages_solo api l n : (forall k, (k < n)%nat -> has_packet (cell_at l k) = true /\ solo (packet_of (cell_at l k))) -> messages api l n.
Proof.
  revert l. induction n as [|n IH]; intros l H; [constructor|].
  destruct l as [|e l]; [by destruct (H O ltac:(lia)) as [H0 _]|]. destruct (H O ltac:(lia)) as [He [Hf Hl]]. change (cell_at (e :: l) 0) with e in *.
  apply (messages_cons _ _ 1).
  - unfold head_message, msg_starts, msg_end. rewrite He, Hf, Hl. by destruct api.
  - apply IH. intros k Hk. exact (H (Datatypes.S k) ltac:(lia)).
Qed.

Lemma cut_solo api cs nr n : messages api cs nr -> (forall k, has_packet (cell_at cs k) = true -> solo (packet_of (cell_at cs k))) ->
  (n <= nr)%nat -> messages api (drop n cs) (nr - n).
Proof.
  intros Hm Hs Hn. apply messages_solo. intros k Hk. assert (E : cell_at (drop n cs) k = cell_at cs (n + k)) by (unfold cell_at; by rewrite lookup_drop).
  rewrite E. pose proof (messages_packets _ _ _ Hm (n + k)%nat ltac:(lia)). auto.
Qed.

Lemma largest_above base g a b g' : match g with Some m => base <= m | None => True end -> base <= a -> RcvLossList.largest_from g a b g' ->
  match g' with Some m => base <= m | None => True end.
Proof. intros Hg Ha Hf. destruct g' as [m|]; [|done]. destruct Hf as [->|Hf]; [done|lia]. Qed.

(** The parts that an event that sends nothing leaves alone. *)
Lemma tracked_step base es e st st' s c ak cs nr o S g s' c' cs' nr' S' g' : tracked base es st s c ak cs nr o S g ->
  received (rcv st') s' c' ak cs' nr' o ∅ S' g' -> acks st' = acks st -> s <= s' -> c <= c' < base + span -> c' - s' < m_szSize (m_pRcvBuffer (rcv st')) - 1 ->
  match g' with Some m => base <= m | None => True end -> (forall k, has_packet (cell_at cs' k) = true -> solo (packet_of (cell_at cs' k))) ->
  (forall x, s' <= x -> ~ missing s' cs' x -> arrived (es ++ [e]) x) -> (forall x, s <= x < s' -> arrived (es ++ [e]) x \/ given_up (es ++ [e]) x) ->
  tracked base (es ++ [e]) st' s' c' ak cs' nr' o S' g'.
Proof.
  intros [T1 T2 T3 T4 T5 T6 T7 T8 T9] Hr Ha Hs Hc Hroom Hg Hsolo Hcells Hbetween. split; try done; [lia|..].
  - intros x Hx. destruct (Z.lt_ge_cases x s); [apply (settled_snoc base es e s T7); lia|apply Hbetween; lia].
  - by apply settled_snoc.
  - intros a. rewrite Ha. intros Hin. destruct (T9 a Hin) as (q & E & Hq & Hset). exists q. split; [done|]. split; [lia|by apply settled_snoc].
Qed.

Lemma solo_insert cs k e : (forall k, has_packet (cell_at cs k) = true -> solo (packet_of (cell_at cs k))) -> solo (packet_of e) ->
  forall i, has_packet (cell_at (<[k := e]> cs) i) = true -> solo (packet_of (cell_at (<[k := e]> cs) i)).
Proof.
  intros H He i. unfold cell_at. destruct (decide (i = k)) as [->|Hne].
  - destruct (decide (k < length cs)%nat); [by rewrite list_lookup_insert_eq by lia|].
    rewrite lookup_ge_None_2 by (rewrite length_insert; lia). done.
  - rewrite list_lookup_insert_ne by done. apply H.
Qed.

Lemma tracked_arrive cfg base es st s c ak cs nr o S g x u now : tracked base es st s c ak cs nr o S g -> allowed cfg base st (Arrive x u now) ->
  exists st' c' cs' nr' S' g', step cfg st (Arrive x u now) = Some st' /\ tracked base (es ++ [Arrive x u now]) st' s c' ak cs' nr' o S' g'.
Proof.
  intros Ht (Hx & Hu & Hp & Hsolo & Hhas & Hfree). pose proof Ht as [T1 T2 T3 T4 T5 T6 T7 T8 T9]. unfold span in *. pose proof (rc_start _ _ _ _ _ _ _ _ _ _ T1).
  pose proof (rc_largest _ _ _ _ _ _ _ _ _ _ T1) as Hgc. pose proof (received_len _ _ _ _ _ _ _ _ _ _ T1) as Hlen.
  assert (Hcmp : comparable x s c ak g).
  { split_and!; try (unfold m_iSeqNoTH; lia). intros y Hy. unfold RcvLossList.near, m_iSeqNoTH. destruct g; [lia|done]. }
  destruct (arrival_ok (rcv_cfg cfg) now false u s c ak cs nr o ∅ S g x Hu (rcv st) T1 Hp Hcmp Hhas Hfree) as (r & ret & E & Hres).
  set (e := Arrive x u now) in *. assert (Hme : arrived (es ++ [e]) x) by (exists u, now; apply elem_of_app; right; by apply list_elem_of_singleton).
  assert (Hold : forall y, s <= y -> ~ missing s cs y -> arrived (es ++ [e]) y) by (intros; by apply arrived_snoc, T6).
  assert (Es : step cfg st e = Some (set_rcv r st)) by (unfold step, e; by rewrite E). pose proof (place_cases s ak (m_szSize (m_pRcvBuffer (rcv st))) cs x) as Hpl.
  destruct (place_of _ _ _ _ _); cbn [arrival_result] in Hres.
  1,2: destruct Hres as (Hr & _); exists (set_rcv r st), c, cs, nr, S, g; split; [done|];
    pose proof (received_len _ _ _ _ _ _ _ _ _ _ Hr) as Hlen'; apply (tracked_step base es e st (set_rcv r st) s c ak cs nr o S g s c cs nr S g Ht Hr);
    unfold span; cbn [rcv set_rcv]; first [done|lia|intros; lia].
  - destruct Hres as ((n & g' & Hr & Hg') & _). eexists (set_rcv r st), _, _, n, _, g'. split; [done|].
    pose proof (received_len _ _ _ _ _ _ _ _ _ _ Hr) as Hlen'. cbn [cells_after] in Hlen'.
    apply (tracked_step base es e st (set_rcv r st) _ _ _ _ _ _ _ _ _ _ _ _ _ _ Ht Hr); unfold span; cbn [rcv set_rcv]; try done; try lia; try (intros; lia).
    eapply largest_above; [exact T4| |exact Hg']. lia.
  - destruct Hres as ((n & g' & Hr & Hg') & _). eexists (set_rcv r st), _, _, n, _, g'. split; [done|].
    pose proof (received_len _ _ _ _ _ _ _ _ _ _ Hr) as Hlen'. cbn [cells_after] in Hlen'. unfold filled_with in Hlen'. rewrite length_insert in Hlen'.
    apply (tracked_step base es e st (set_rcv r st) _ _ _ _ _ _ _ _ _ _ _ _ _ _ Ht Hr); unfold span; cbn [rcv set_rcv]; try done; try lia; try (intros; lia).
    + eapply largest_above; [exact T4| |exact Hg']. lia.
    + by apply solo_insert.
    + intros y Hy Hm. cbn [cells_after] in Hm. destruct (decide (y = x)) as [->|Hne]; [done|]. apply Hold; [done|]. intros Hmiss. apply Hm.
      apply (filled_insert s cs x (mkEntry (Some u) EntryState_Avail)); try done; lia.
Qed.

(** The receiver's buffer has moved on to [s + m] over cells that arrived. *)
Lemma tracked_moved base es e st r s c ak cs nr o S g s' nr' S' g' : tracked base es st s c ak cs nr o S g -> s <= s' ->
  received r s' c ak (shift (Z.to_nat (s' - s)) cs) nr' o ∅ S' g' -> match g' with Some m => base <= m | None => True end ->
  (forall x, s <= x < s' -> arrived (es ++ [e]) x \/ given_up (es ++ [e]) x) ->
  tracked base (es ++ [e]) (set_rcv r st) s' c ak (shift (Z.to_nat (s' - s)) cs) nr' o S' g'.
Proof.
  intros Ht Hs Hr Hg Hbetween. pose proof Ht as [T1 T2 T3 T4 T5 T6 T7 T8 T9]. pose proof (received_len _ _ _ _ _ _ _ _ _ _ T1) as Hlen.
  pose proof (received_len _ _ _ _ _ _ _ _ _ _ Hr) as Hlen'. rewrite length_shift in Hlen'. set (m := Z.to_nat (s' - s)) in *.
  apply (tracked_step base es e st (set_rcv r st) _ _ _ _ _ _ _ _ _ _ _ _ _ _ Ht Hr); cbn [rcv set_rcv]; try done; try lia.
  - intros k. rewrite cell_at_shift. apply T5.
  - intros x Hx Hm. apply arrived_snoc, T6; [lia|]. intros Hmiss. apply Hm. replace s' with (s + Z.of_nat m) by lia. rewrite missing_shift by lia. done.
Qed.

Lemma tracked_drop cfg base es st s c ak cs nr o S g y : tracked base es st s c ak cs nr o S g -> allowed cfg base st (DropLate y) ->
  exists st' s' cs' nr' S' g', step cfg st (DropLate y) = Some st' /\ tracked base (es ++ [DropLate y]) st' s' c ak cs' nr' o S' g'.
Proof.
  intros Ht Hy. cbn [allowed] in Hy. pose proof Ht as [T1 T2 T3 T4 T5 T6 T7 T8 T9]. unfold span in *. pose proof (rc_start _ _ _ _ _ _ _ _ _ _ T1).
  pose proof (rc_largest _ _ _ _ _ _ _ _ _ _ T1) as Hgc. set (e := DropLate y).
  assert (Hgiven : forall x, x < y -> given_up (es ++ [e]) x) by (intros x Hx; exists y; split; [apply elem_of_app; right; by apply list_elem_of_singleton|done]).
  destruct (Z.le_gt_cases (Z.min y (c + 1)) s) as [Hle|Hgt].
  - destruct (drop_old_ok (rcv_cfg cfg) (rcv st) s c ak cs nr o ∅ S g y T1) as (l & E & El); try (unfold m_iSeqNoTH; lia).
    exists (set_rcv (set_losses l (rcv st)) st), s, (shift (Z.to_nat (s - s)) cs), nr, S, g. split; [unfold step, e; by rewrite E|].
    apply (tracked_moved base es e st (set_losses l (rcv st)) s c ak cs nr o S g s nr S g Ht); try done; try lia.
    rewrite Z.sub_diag, shift_0. by eapply received_ext.
  - destruct (drop_too_late_ok (rcv_cfg cfg) (rcv st) s c ak cs nr o ∅ S g y T1) as (r & s' & nr' & g' & E & Hs' & Hknown & Hr & Hg'); try (unfold m_iSeqNoTH; lia).
    { intros x Hx. unfold RcvLossList.near, m_iSeqNoTH. destruct g; [lia|done]. }
    { intros n Hn. apply cut_solo; [apply (i_msgs _ _ _ _ _ (rc_buf _ _ _ _ _ _ _ _ _ _ T1))|done|done]. }
    exists (set_rcv r st), s', (shift (Z.to_nat (s' - s)) cs), nr', (filter (fun x => Z.min y (c + 1) - 1 < x) S), g'. split; [unfold step, e; by rewrite E|].
    apply (tracked_moved base es e st r s c ak cs nr o S g); try done; try lia.
    + eapply largest_above; [exact T4| |exact Hg']. lia.
    + intros x Hx. destruct (Z.lt_ge_cases x y); [right; by apply Hgiven|]. left. apply arrived_snoc, T6; [lia|]. apply Hknown. lia.
Qed.

Lemma tracked_read cfg base es st s c ak cs nr o S g len : tracked base es st s c ak cs nr o S g -> allowed cfg base st (Read len) ->
  exists st' s' cs' nr', step cfg st (Read len) = Some st' /\ tracked base (es ++ [Read len]) st' s' c ak cs' nr' o S g.
Proof.
  intros Ht (Hlen & Hapi & Hready). pose proof Ht as [T1 T2 T3 T4 T5 T6 T7 T8 T9]. pose proof (rc_buf _ _ _ _ _ _ _ _ _ _ T1) as Hinv.
  pose proof (proj1 (i_rep _ _ _ _ _ Hinv)) as Hc. pose proof (c_start _ _ _ _ Hc) as Hstart.
  assert (Hnr : (0 < nr)%nat).
  { destruct nr as [|n]; [|lia]. destruct Hready. rewrite (i_nonread _ _ _ _ _ Hinv). unfold pos_of. rewrite Z.add_0_r. by apply Z.mod_small. }
  destruct (read_message_ok (m_pRcvBuffer (rcv st)) s cs nr o len None Hinv Hnr Hlen Hapi) as (k & b & f & ctrl' & _ & Hk & E & Hb & Hfill & _).
  set (e := Read len). set (m := (k + f)%nat) in *.
  assert (Hknown : forall x, s <= x < s + Z.of_nat m -> ~ missing s cs x).
  { intros x Hx. destruct (Z.lt_ge_cases x (s + Z.of_nat nr)) as [Hlt|Hge].
    - replace x with (s + Z.of_nat (Z.to_nat (x - s))) by lia. eapply has_packet_known; [exact Hc|].
      apply (messages_packets _ _ _ (i_msgs _ _ _ _ _ Hinv)). lia.
    - intros Hmiss. specialize (Hfill (Z.to_nat (x - s)) ltac:(lia)). unfold missing in Hmiss. by destruct (status _). }
  assert (Hend : s + Z.of_nat m - 1 <= c).
  { destruct (Z.le_gt_cases (s + Z.of_nat m - 1) c) as [|Hgt]; [done|]. destruct (Hknown (c + 1)); [pose proof (rc_start _ _ _ _ _ _ _ _ _ _ T1); lia|].
    unfold missing. by rewrite (rc_beyond _ _ _ _ _ _ _ _ _ _ T1) by (pose proof (rc_start _ _ _ _ _ _ _ _ _ _ T1); lia). }
  pose proof (received_moved (rcv st) s c ak cs nr o ∅ S g b (losses (rcv st)) (s - 1) m (nr - m) g T1 Hb) as Hm.
  assert (HS : filter (fun x => s - 1 < x) S = S).
  { apply set_eq. intros x. rewrite elem_of_filter. split; [tauto|]. intros Hx. split; [|done]. apply (rc_lost _ _ _ _ _ _ _ _ _ _ T1) in Hx. lia. }
  rewrite HS in Hm. assert (El : set_losses (losses (rcv st)) (rcv st) = rcv st) by (by destruct (rcv st)). rewrite El in Hm.
  exists (set_rcv (CUDTRcv.set_buffer b (rcv st)) st), (s + Z.of_nat m), (shift (Z.to_nat (s + Z.of_nat m - s)) cs), (nr - m)%nat.
  split; [unfold step, e; by rewrite E|]. apply (tracked_moved base es e st _ s c ak cs nr o S g); try done; try lia.
  - replace (Z.to_nat (s + Z.of_nat m - s)) with m by lia. apply Hm; try done; try lia; try apply T1.
    + rewrite <- (core_length _ _ _ _ (proj1 (i_rep _ _ _ _ _ Hb))), length_shift. by eapply received_len.
    + intros x Hx. apply Hknown. lia.
  - intros x Hx. left. apply arrived_snoc, T6; [lia|]. by apply Hknown.
Qed.

Lemma tracked_ack cfg base es st s c ak cs nr o S g lite clock : tracked base es st s c ak cs nr o S g -> allowed cfg base st (Ack lite clock) ->
  exists st' ak', step cfg st (Ack lite clock) = Some st' /\ tracked base (es ++ [Ack lite clock]) st' s c ak' cs nr o S g.
Proof.
  intros Ht Hrates. pose proof Ht as [T1 T2 T3 T4 T5 T6 T7 T8 T9]. unfold span in *.
  destruct (ack_ok cfg clock lite st s c ak cs nr o ∅ S g T1) as (p & st' & ak' & sent & E & Hp & Hbelow & Hr & Hak & _ & Hb & Ha & _ & Hsent);
    [by right|unfold m_iSeqNoTH; lia..|done|].
  set (e := Ack lite clock).
  assert (Hset : settled base (es ++ [e]) p).
  { intros x Hx. destruct (Z.lt_ge_cases x s); [apply (settled_snoc base es e s T7); lia|]. left. apply arrived_snoc, T6; [lia|]. apply Hbelow. lia. }
  assert (Hset' : settled base (es ++ [e]) ak') by (destruct Hak as [-> | [_ ->]]; [by apply settled_snoc|done]).
  exists st', ak'. split; [exact E|]. split; try done; try lia.
  - unfold span. lia.
  - by rewrite Hb.
  - intros x Hx Hm. by apply arrived_snoc, T6.
  - by apply settled_snoc.
  - intros a. rewrite Ha, elem_of_app. intros [Hin|Hin].
    + destruct (T9 a Hin) as (q & Eq & Hq & Hs). exists q. split; [done|]. split; [lia|by apply settled_snoc].
    + destruct (Hsent a Hin) as [Eq|Eq]; [exists p|exists ak']; (split; [done|]); (split; [lia|done]).
Qed.

Lemma run_tracked cfg base es' : forall es st s c ak cs nr o S g, tracked base es st s c ak cs nr o S g -> admissible cfg base st es' ->
  exists st' s' c' ak' cs' nr' S' g', run cfg es' st = Some st' /\ tracked base (es ++ es') st' s' c' ak' cs' nr' o S' g'.
Proof.
  induction es' as [|e es' IH]; intros es st s c ak cs nr o S g Ht Hadm.
  - rewrite app_nil_r. exists st, s, c, ak, cs, nr, S, g. done.
  - destruct Hadm as [Hal Hnext]. replace (es ++ e :: es') with ((es ++ [e]) ++ es') by (by rewrite <- app_assoc). cbn [run].
    assert (H : exists st1 s1 c1 ak1 cs1 nr1 S1 g1, step cfg st e = Some st1 /\ tracked base (es ++ [e]) st1 s1 c1 ak1 cs1 nr1 o S1 g1).
    { destruct e as [x u now|y|lite clock|len].
      - destruct (tracked_arrive cfg base es st s c ak cs nr o S g x u now Ht Hal) as (st1 & c1 & cs1 & nr1 & S1 & g1 & E & H). by exists st1, s, c1, ak, cs1, nr1, S1, g1.
      - destruct (tracked_drop cfg base es st s c ak cs nr o S g y Ht Hal) as (st1 & s1 & cs1 & nr1 & S1 & g1 & E & H). by exists st1, s1, c, ak, cs1, nr1, S1, g1.
      - destruct (tracked_ack cfg base es st s c ak cs nr o S g lite clock Ht Hal) as (st1 & ak1 & E & H). by exists st1, s, c, ak1, cs, nr, S, g.
      - destruct (tracked_read cfg base es st s c ak cs nr o S g len Ht Hal) as (st1 & s1 & cs1 & nr1 & E & H). by exists st1, s1, c, ak, cs1, nr1, S, g. }
    destruct H as (st1 & s1 & c1 & ak1 & cs1 & nr1 & S1 & g1 & E & H). rewrite E. cbn [mbind option_bind]. eapply IH; [exact H|by apply Hnext].
Qed.

(** C2. An acknowledgement is true.  Start a receiver whose buffer is empty
    and let packets arrive (lost, repeated and reordered at will), packets be
    given up as too late, messages be read and full and lite ACKs be sent, in
    any order: the receiver never gets stuck, and every number below the one
    that any ACK carries belongs to a packet that has arrived or that the
    receiver has given up. *)
Theorem acks_are_true (cfg : config) (base : Z) st (size : nat) (o : gset CUnitQueue.CUnit) (es : list event)
  (Hstart : received (rcv st) base (base - 1) base (replicate size no_entry) 0 o ∅ ∅ None) (Hacks : acks st = []) (Hadm : admissible cfg base st es) :
  exists st', run cfg es st = Some st' /\
    forall a, a ∈ acks st' -> exists q, ack_number a = seq_of q /\ base <= q < base + span + 1 /\
      forall x, base <= x < q -> arrived es x \/ given_up es x.
Proof.
  assert (Hno : forall k, cell_at (replicate size no_entry) k = no_entry).
  { intros k. unfold cell_at. destruct (decide (k < size)%nat); [by rewrite lookup_replicate_2|]. by rewrite lookup_ge_None_2 by (rewrite length_replicate; lia). }
  assert (Ht : tracked base [] st base (base - 1) base (replicate size no_entry) 0 o ∅ None).
  { pose proof (c_size _ _ _ _ (proj1 (i_rep _ _ _ _ _ (rc_buf _ _ _ _ _ _ _ _ _ _ Hstart)))) as Hsz. split; try done; unfold span; try lia.
    - intros k. by rewrite Hno.
    - intros x Hx Hm. destruct Hm. unfold missing. by rewrite Hno.
    - intros x Hx. lia.
    - intros x Hx. lia.
    - rewrite Hacks. by intros a Ha%elem_of_nil. }
  destruct (run_tracked cfg base es [] st _ _ _ _ _ _ _ _ Ht Hadm) as (st' & s & c & ak & cs & nr & S & g & E & [_ T2 _ _ _ _ _ _ T9]).
  exists st'. split; [done|]. intros a Ha. destruct (T9 a Ha) as (q & Eq & Hq & Hset). exists q. split; [done|]. split; [lia|exact Hset].
Qed.
End Run.

Lemma admissible_cons {Q} `{!UnitPool Q} cfg base (st st1 : CUDTAck.t (Q := Q)) e es :
  step cfg st e = Some st1 -> allowed cfg base st e -> admissible cfg base st1 es -> admissible cfg base st (e :: es).
Proof. intros E Ha Hr. split; [done|]. intros st' E'. rewrite E in E'. by injection E' as <-. Qed.

Import RcvExample ReceiverExample.
Module RunExample.
(** Packet 11 never comes and is given up. *)
Definition story : list event :=
  [Arrive 10 (unit 0 (pkt 10 PB_SOLO 1 [1; 2])) 5; Arrive 12 (unit 1 (pkt 12 PB_SOLO 3 [5])) 6; Ack true (fun _ => 7); Ack false (fun _ => 20000); Read 10;
   DropLate 12; Ack false (fun _ => 40000)].
End RunExample.
Import RunExample.

Lemma acks_are_true_witness : exists st', run AckExample.cfg story AckExample.start = Some st' /\
  map ack_number (acks st') = [11; 11; 13] /\ forall x, 10 <= x < 13 -> arrived story x \/ given_up story x.
Proof.
  destruct (acks_are_true AckExample.cfg 10 AckExample.start 8 ∅ story start_received eq_refl) as (st' & E & H).
  - do 2 (eapply admissible_cons; [vm_compute; reflexivity|cbn [allowed]; refine (conj _ (conj _ (conj _ (conj _ _))));
      [unfold span; lia|vm_compute; reflexivity|split; [vm_compute; reflexivity|exact I]|split; vm_compute; reflexivity|
       apply free_unit_ok; [vm_compute; discriminate|vm_compute; reflexivity]]|]).
    do 2 (eapply admissible_cons; [vm_compute; reflexivity|eexists; vm_compute; reflexivity|]).
    eapply admissible_cons; [vm_compute; reflexivity|refine (conj _ (conj _ _)); [lia|reflexivity|vm_compute; discriminate]|].
    eapply admissible_cons; [vm_compute; reflexivity|cbn [allowed]; unfold span; lia|].
    eapply admissible_cons; [vm_compute; reflexivity|eexists; vm_compute; reflexivity|exact I].
  - exists st'. split; [exact E|]. assert (Ea : map ack_number (acks st') = [11; 11; 13]).
    { assert (Em : (fun st => map ack_number (acks st)) <$> run AckExample.cfg story AckExample.start = Some [11; 11; 13]) by (vm_compute; reflexivity).
      rewrite E in Em. cbn in Em. congruence. }
    split; [exact Ea|]. assert (Hin : In 13 (map ack_number (acks st'))) by (rewrite Ea; cbn; tauto).
    apply in_map_iff in Hin as (a & E13 & Ha%list_elem_of_In).
    destruct (H a Ha) as (q & Eq & Hq & Hset). rewrite E13 in Eq. assert (q = 13) as -> by (unfold span in Hq; symmetry; apply (seq_of_inj 13 q); [lia|exact Eq]).
    exact Hset.
Defined.
