(* ===== verification/AckRecv.v ===== *)
(** Acknowledgement at the sender: [CUDT::processCtrlAck] of core.cpp over the
    sender of SndRexmit.v.  The events for the congestion control and the
    ACKACKs sent are listed; the group, the wake-up of writers, the schedule of
    the sender's worker and the statistics are left out. *)
From stdpp Require Import gmap.
From S2P Require Import Prelude SeqNo Slots Packet.
From S2P Require SndLossList SndBuffer.
From S2P Require Import SndRexmit AckSend AckSendInv.
From S2P Require SndPack.
Import CSeqNo CUDTSnd.

Module CUDTAckSnd.
Definition SEND_LITE_ACK : Z := 4.
Definition ACKD_RCVLASTACK : Z := 0.
Definition ACKD_RTT : Z := 1.
Definition ACKD_RTTVAR : Z := 2.
Definition ACKD_BUFFERLEFT : Z := 3.
Definition ACKD_RCVSPEED : Z := 4.
Definition ACKD_BANDWIDTH : Z := 5.
Definition ACKD_RCVRATE : Z := 6.
Definition ACKD_FIELD_SIZE : Z := 4.

(** An ACK as it arrives: its own number, the length of its payload in bytes,
    and the memory at the payload in 32-bit words - behind the payload, what
    the unit held before. *)
Record ack_packet := mkAck { getAckSeqNo : Z; getLength : Z; ackdata : Z -> Z }.

Record t := mk {
  snd : CUDTSnd.t;
  m_iSndLastFullAck : Z;
  m_iSndLastAck2 : Z;
  m_SndLastAck2Time : Z;
  m_tsLastRspAckTime : Z;
  m_iReXmitCount : Z;
  m_iSRTT : Z;
  m_iRTTVar : Z;
  m_bIsFirstRTTReceived : bool;
  m_iBandwidth : Z;
  m_iDeliveryRate : Z;
  m_iByteDeliveryRate : Z;
  m_bBroken : bool;
  (** the ACKACKs sent and the TEV_ACK events, in order *)
  ackacks : list Z;
  cc_acks : list Z;
}.

Definition set_snd (s : CUDTSnd.t) (st : t) : t :=
  mk s (m_iSndLastFullAck st) (m_iSndLastAck2 st) (m_SndLastAck2Time st) (m_tsLastRspAckTime st) (m_iReXmitCount st) (m_iSRTT st) (m_iRTTVar st)
    (m_bIsFirstRTTReceived st) (m_iBandwidth st) (m_iDeliveryRate st) (m_iByteDeliveryRate st) (m_bBroken st) (ackacks st) (cc_acks st).
Definition set_full (ack : Z) (st : t) : t :=
  mk (snd st) ack (m_iSndLastAck2 st) (m_SndLastAck2Time st) (m_tsLastRspAckTime st) (m_iReXmitCount st) (m_iSRTT st) (m_iRTTVar st)
    (m_bIsFirstRTTReceived st) (m_iBandwidth st) (m_iDeliveryRate st) (m_iByteDeliveryRate st) (m_bBroken st) (ackacks st) (cc_acks st).
Definition sendAckAck (ack_seqno time : Z) (st : t) : t :=
  mk (snd st) (m_iSndLastFullAck st) ack_seqno time (m_tsLastRspAckTime st) (m_iReXmitCount st) (m_iSRTT st) (m_iRTTVar st)
    (m_bIsFirstRTTReceived st) (m_iBandwidth st) (m_iDeliveryRate st) (m_iByteDeliveryRate st) (m_bBroken st) (ackacks st ++ [ack_seqno]) (cc_acks st).
(** The sender has an answer: [m_tsLastRspAckTime] and [m_iReXmitCount]. *)
Definition responded (time : Z) (st : t) : t :=
  mk (snd st) (m_iSndLastFullAck st) (m_iSndLastAck2 st) (m_SndLastAck2Time st) time 1 (m_iSRTT st) (m_iRTTVar st)
    (m_bIsFirstRTTReceived st) (m_iBandwidth st) (m_iDeliveryRate st) (m_iByteDeliveryRate st) (m_bBroken st) (ackacks st) (cc_acks st).
Definition set_rtt (srtt var : Z) (first : bool) (st : t) : t :=
  mk (snd st) (m_iSndLastFullAck st) (m_iSndLastAck2 st) (m_SndLastAck2Time st) (m_tsLastRspAckTime st) (m_iReXmitCount st) srtt var
    first (m_iBandwidth st) (m_iDeliveryRate st) (m_iByteDeliveryRate st) (m_bBroken st) (ackacks st) (cc_acks st).
Definition set_rates (bandwidth pktps bytesps : Z) (st : t) : t :=
  mk (snd st) (m_iSndLastFullAck st) (m_iSndLastAck2 st) (m_SndLastAck2Time st) (m_tsLastRspAckTime st) (m_iReXmitCount st) (m_iSRTT st) (m_iRTTVar st)
    (m_bIsFirstRTTReceived st) bandwidth pktps bytesps (m_bBroken st) (ackacks st) (cc_acks st).
Definition break_connection (st : t) : t :=
  mk (snd st) (m_iSndLastFullAck st) (m_iSndLastAck2 st) (m_SndLastAck2Time st) (m_tsLastRspAckTime st) (m_iReXmitCount st) (m_iSRTT st) (m_iRTTVar st)
    (m_bIsFirstRTTReceived st) (m_iBandwidth st) (m_iDeliveryRate st) (m_iByteDeliveryRate st) true (ackacks st) (cc_acks st).
Definition cc_ack (ack : Z) (st : t) : t :=
  mk (snd st) (m_iSndLastFullAck st) (m_iSndLastAck2 st) (m_SndLastAck2Time st) (m_tsLastRspAckTime st) (m_iReXmitCount st) (m_iSRTT st) (m_iRTTVar st)
    (m_bIsFirstRTTReceived st) (m_iBandwidth st) (m_iDeliveryRate st) (m_iByteDeliveryRate st) (m_bBroken st) (ackacks st) (cc_acks st ++ [ack]).

(** The round-trip time that the peer reports; [bPktsReceived]: this side has
    received data.  The values come from the peer unchecked; an overflow of int
    is taken to wrap around. *)
Definition update_rtt (bPktsReceived : bool) (rtt rttvar : Z) (st : t) : t :=
  if m_bIsFirstRTTReceived st then
    if bPktsReceived then
      if negb (rtt =? CUDTAck.INITIAL_RTT) || negb (rttvar =? CUDTAck.INITIAL_RTTVAR) then
        set_rtt (avg_iir 8 (m_iSRTT st) rtt) (avg_iir 4 (m_iRTTVar st) (i32 (Z.abs (i32 (rtt - m_iSRTT st))))) true st
      else st
    else set_rtt rtt rttvar true st
  else if negb (rtt =? CUDTAck.INITIAL_RTT) && negb (rttvar =? CUDTAck.INITIAL_RTTVAR) then set_rtt rtt rttvar true st
  else st.

(** The fields of a full ACK behind the acknowledged number, for [acksize]
    whole fields. *)
Definition read_fields (m_iMaxSRTPayloadSize : Z) (bPktsReceived : bool) (acksize : Z) (d : Z -> Z) (ackdata_seqno : Z) (st : t) : t :=
  if acksize <? CUDTAck.ACKD_TOTAL_SIZE_SMALL then st else
  let st := update_rtt bPktsReceived (d ACKD_RTT) (d ACKD_RTTVAR) st in
  let st := if acksize >? CUDTAck.ACKD_TOTAL_SIZE_SMALL then
              let pktps := d ACKD_RCVSPEED in
              let bytesps := if acksize >? CUDTAck.ACKD_TOTAL_SIZE_UDTBASE then d ACKD_RCVRATE else i32 (pktps * m_iMaxSRTPayloadSize) in
              set_rates (avg_iir 8 (m_iBandwidth st) (d ACKD_BANDWIDTH)) (avg_iir 8 (m_iDeliveryRate st) pktps)
                (avg_iir 8 (m_iByteDeliveryRate st) bytesps) st
            else st in
  cc_ack ackdata_seqno st.

Definition processCtrlAck (m_iMaxSRTPayloadSize : Z) (bPktsReceived : bool) (currtime : Z) (ctrlpkt : ack_packet) (st : t) : option t :=
  let d := ackdata ctrlpkt in
  let ackdata_seqno := d ACKD_RCVLASTACK in
  if ackdata_seqno <? 0 then Some st else
  let isLiteAck := getLength ctrlpkt =? SEND_LITE_ACK in
  s ← updateSndLossListOnACK ackdata_seqno (snd st);
  let st := set_snd s st in
  if isLiteAck then
    Some (if seqcmp ackdata_seqno (m_iSndLastAck s) >=? 0 then
            responded currtime (set_snd (set_acks (m_iSndLastDataAck s) ackdata_seqno
              (i32 (m_iFlowWindowSize s - seqoff (m_iSndLastAck s) ackdata_seqno)) s) st)
          else st)
  else
    let ack_seqno := getAckSeqNo ctrlpkt in
    let st := if (currtime - m_SndLastAck2Time st >? COMM_SYN_INTERVAL_US) || (ack_seqno =? m_iSndLastAck2 st)
              then sendAckAck ack_seqno currtime st else st in
    if seqcmp ackdata_seqno (incseq (m_iSndCurrSeqNo s)) >? 0 then Some (break_connection st)
    else
      let st := if seqcmp ackdata_seqno (m_iSndLastAck s) >=? 0
                then responded currtime (set_snd (set_acks (m_iSndLastDataAck s) ackdata_seqno (d ACKD_BUFFERLEFT) s) st) else st in
      if seqoff (m_iSndLastFullAck st) ackdata_seqno <=? 0 then Some st
      else Some (read_fields m_iMaxSRTPayloadSize bPktsReceived (getLength ctrlpkt / ACKD_FIELD_SIZE) d ackdata_seqno (set_full ackdata_seqno st)).
End CUDTAckSnd.
Import CUDTAckSnd.

(** ** What an ACK does to the sender *)

Lemma sender_acks s a q c S ack w : sender s a q c S -> sender (set_acks (m_iSndLastDataAck s) ack w s) a q c S.
Proof. by intros []. Qed.

(** The sender after the packets before [b] are acknowledged. *)
Definition acked_to (s : CUDTSnd.t) (a : Z) (q : list SndBuffer.pkt) (c : nat) (S : gset Z) (b : Z) : Prop :=
  sender s (Z.max a b) (drop (Z.to_nat (b - a)) q) (c - Z.to_nat (b - a)) (filter (fun x => Z.max a b <= x) S).

Lemma acked_ok s a q c S b : sender s a q c S -> a - m_iSeqNoTH < b <= a + zlen q ->
  exists s', updateSndLossListOnACK (seq_of b) s = Some s' /\ acked_to s' a q c S b /\ m_iSndLastAck s' = m_iSndLastAck s /\
    m_iSndCurrSeqNo s' = m_iSndCurrSeqNo s /\ m_iFlowWindowSize s' = m_iFlowWindowSize s.
Proof.
  intros Hs Hb. destruct (ack_list_ok s a q c S b Hs Hb) as (s' & E & H & H1 & H2 & H3 & _). exists s'. split; [done|]. split; [|done].
  unfold acked_to. destruct (Z.leb_spec b a).
  - rewrite Z.max_l by lia. subst s'. replace (Z.to_nat (b - a)) with O by lia. rewrite drop_0, Nat.sub_0_r.
    pose proof (sender_unmoved _ _ _ _ _ Hs) as Hu. by rewrite Z.add_0_r, drop_0, Nat.sub_0_r in Hu.
  - by rewrite Z.max_r by lia.
Qed.

(** The estimate of the round-trip time at the sender stays non-negative and
    below a bound that the peer's reports keep. *)
Lemma update_rtt_bounds recvd rtt rttvar st hi : in_i32 hi -> 0 <= rtt <= hi -> 0 <= rttvar <= hi -> 0 <= m_iSRTT st <= hi -> 0 <= m_iRTTVar st <= hi ->
  0 <= m_iSRTT (update_rtt recvd rtt rttvar st) <= hi /\ 0 <= m_iRTTVar (update_rtt recvd rtt rttvar st) <= hi.
Proof.
  intros Hhi H1 H2 H3 H4. unfold in_i32 in Hhi. unfold update_rtt.
  assert (Hd : i32 (Z.abs (i32 (rtt - m_iSRTT st))) = Z.abs (rtt - m_iSRTT st)) by (rewrite !i32_id; [done|unfold in_i32; lia|rewrite i32_id; unfold in_i32; lia]).
  assert (H8 : 0 <= avg_iir 8 (m_iSRTT st) rtt <= hi) by (apply avg_iir_between; unfold in_i32; lia || (by right)).
  assert (H9 : 0 <= avg_iir 4 (m_iRTTVar st) (Z.abs (rtt - m_iSRTT st)) <= hi) by (apply avg_iir_between; unfold in_i32; lia || (by left)).
  rewrite Hd. repeat case_match; cbn [m_iSRTT m_iRTTVar set_rtt]; done.
Qed.

Lemma read_fields_ok size recvd n d ack st : let st' := read_fields size recvd n d ack st in
  snd st' = snd st /\ m_bBroken st' = m_bBroken st /\ m_iSndLastFullAck st' = m_iSndLastFullAck st /\ ackacks st' = ackacks st /\
  m_tsLastRspAckTime st' = m_tsLastRspAckTime st /\ cc_acks st' = cc_acks st ++ (if n <? CUDTAck.ACKD_TOTAL_SIZE_SMALL then [] else [ack]) /\
  (forall hi, in_i32 hi -> 0 <= m_iSRTT st <= hi -> 0 <= m_iRTTVar st <= hi -> 0 <= d ACKD_RTT <= hi -> 0 <= d ACKD_RTTVAR <= hi ->
    0 <= m_iSRTT st' <= hi /\ 0 <= m_iRTTVar st' <= hi).
Proof.
  unfold read_fields. destruct (n <? _); [by rewrite app_nil_r|]. set (st1 := update_rtt _ _ _ st).
  assert (E : snd st1 = snd st /\ m_bBroken st1 = m_bBroken st /\ m_iSndLastFullAck st1 = m_iSndLastFullAck st /\ ackacks st1 = ackacks st /\
    m_tsLastRspAckTime st1 = m_tsLastRspAckTime st /\ cc_acks st1 = cc_acks st) by (unfold st1, update_rtt; by repeat case_match).
  destruct E as (E1 & E2 & E3 & E4 & E5 & E6). cbv zeta. rewrite <- E1, <- E2, <- E3, <- E4, <- E5, <- E6.
  destruct (n >? _); cbn [snd m_bBroken m_iSndLastFullAck ackacks m_tsLastRspAckTime cc_acks m_iSRTT m_iRTTVar cc_ack set_rates]; do 6 (split; [done|]);
    intros hi Hhi H1 H2 H3 H4; by apply update_rtt_bounds.
Qed.

Section FullAck.
Context (size : Z) (recvd : bool) (now : Z) (p : ack_packet) (st : t) (a la fa b : Z) (q : list SndBuffer.pkt) (c : nat) (S : gset Z).
Context (Hs : sender (snd st) a q c S) (Hcur : m_iSndCurrSeqNo (snd st) = seq_of (a + Z.of_nat c - 1)) (Hla : m_iSndLastAck (snd st) = seq_of la)
  (Hfa : m_iSndLastFullAck st = seq_of fa) (Hp : ackdata p ACKD_RCVLASTACK = seq_of b)
  (Hb : a + zlen q - m_iSeqNoTH < b <= a + zlen q) (Hbla : - m_iSeqNoTH < b - la < m_iSeqNoTH) (Hbfa : - m_iSeqNoTH < b - fa < m_iSeqNoTH).

Lemma ack_valid : (ackdata p ACKD_RCVLASTACK <? 0) = false.
Proof using Hp. clear -Hp. rewrite Hp. pose proof (seq_of_valid b) as Hv. unfold valid in Hv. apply Z.ltb_ge. lia. Qed.

(** A lite ACK for packets that were sent: they leave the buffer, their
    numbers the loss list, and the flow window shrinks by as many packets as
    are newly acknowledged; an older one changes at most the buffer. *)
Theorem snd_lite_ack (Hlite : getLength p = SEND_LITE_ACK) (Hsent : b <= a + Z.of_nat c) :
  exists st', processCtrlAck size recvd now p st = Some st' /\ acked_to (snd st') a q c S b /\
    m_iSndLastAck (snd st') = seq_of (Z.max la b) /\ m_iSndCurrSeqNo (snd st') = m_iSndCurrSeqNo (snd st) /\
    m_iFlowWindowSize (snd st') = (if b <? la then m_iFlowWindowSize (snd st) else i32 (m_iFlowWindowSize (snd st) - (b - la))) /\
    m_bBroken st' = m_bBroken st /\ ackacks st' = ackacks st /\ cc_acks st' = cc_acks st.
Proof using Hs Hla Hp Hb Hbla.
  clear Hsent Hcur Hfa Hbfa fa. unfold processCtrlAck. rewrite ack_valid, Hp, Hlite, Z.eqb_refl.
  destruct (acked_ok (snd st) a q c S b Hs ltac:(lia)) as (s & E & Ha & E1 & E2 & E3). rewrite E. cbn [mbind option_bind].
  rewrite E1, Hla, seqcmp_geb, Z.geb_leb by lia. eexists. split; [reflexivity|]. rewrite <- E2, <- E3.
  destruct (Z.leb_spec la b); cbn [snd set_snd responded m_bBroken ackacks cc_acks].
  - rewrite seqoff_seq_of, (proj2 (Z.ltb_ge _ _)), Z.max_r by lia. split; [by apply sender_acks|done].
  - rewrite (proj2 (Z.ltb_lt _ _)), Z.max_l by lia. rewrite <- Hla. done.
Qed.

(** C28. A full ACK for packets that were sent: they leave the buffer and
    their numbers the loss list; the newest acknowledged number and the window
    that the receiver has left are noted unless the ACK is older than that;
    ACKACK is answered at most every 10 ms, or again for a repeated ACK; and
    an ACK newer than every full one before reaches the congestion control,
    its round-trip time enters the estimate, which stays within the bounds of
    the reports. *)
Theorem snd_full_ack (Hfull : getLength p <> SEND_LITE_ACK) (Hsent : b <= a + Z.of_nat c) (hi : Z) (Hhi : in_i32 hi) (Hrtt : 0 <= m_iSRTT st <= hi)
  (Hvar : 0 <= m_iRTTVar st <= hi) (Hrep : 0 <= ackdata p ACKD_RTT <= hi /\ 0 <= ackdata p ACKD_RTTVAR <= hi) :
  exists st', processCtrlAck size recvd now p st = Some st' /\ acked_to (snd st') a q c S b /\
    m_iSndLastAck (snd st') = seq_of (Z.max la b) /\ m_iSndCurrSeqNo (snd st') = m_iSndCurrSeqNo (snd st) /\
    m_iFlowWindowSize (snd st') = (if b <? la then m_iFlowWindowSize (snd st) else ackdata p ACKD_BUFFERLEFT) /\
    m_iSndLastFullAck st' = seq_of (Z.max fa b) /\ m_bBroken st' = m_bBroken st /\
    ackacks st' = ackacks st ++ (if (now - m_SndLastAck2Time st >? COMM_SYN_INTERVAL_US) || (getAckSeqNo p =? m_iSndLastAck2 st) then [getAckSeqNo p] else []) /\
    cc_acks st' = cc_acks st ++ (if (fa <? b) && (16 <=? getLength p) then [seq_of b] else []) /\
    0 <= m_iSRTT st' <= hi /\ 0 <= m_iRTTVar st' <= hi.
Proof using Hs Hcur Hla Hfa Hp Hb Hbla Hbfa.
  unfold processCtrlAck. rewrite ack_valid, Hp, (proj2 (Z.eqb_neq _ _)) by done.
  destruct (acked_ok (snd st) a q c S b Hs ltac:(lia)) as (s & E & Ha & E1 & E2 & E3). rewrite E. cbn [mbind option_bind].
  set (st1 := if (_ >? COMM_SYN_INTERVAL_US) || _ then _ else set_snd s st).
  assert (F : snd st1 = s /\ m_bBroken st1 = m_bBroken st /\ cc_acks st1 = cc_acks st /\ m_iSRTT st1 = m_iSRTT st /\ m_iRTTVar st1 = m_iRTTVar st /\
    m_iSndLastFullAck st1 = m_iSndLastFullAck st /\
    ackacks st1 = ackacks st ++ (if (now - m_SndLastAck2Time st >? COMM_SYN_INTERVAL_US) || (getAckSeqNo p =? m_iSndLastAck2 st) then [getAckSeqNo p] else [])).
  { unfold st1. change (m_SndLastAck2Time (set_snd s st)) with (m_SndLastAck2Time st). change (m_iSndLastAck2 (set_snd s st)) with (m_iSndLastAck2 st).
    destruct (_ || _); [done|]. by rewrite app_nil_r. }
  clearbody st1. destruct F as (F1 & F2 & F3 & F4 & F5 & F6 & F7). pose proof (s_window _ _ _ _ _ Hs). pose proof (s_size _ _ _ _ _ Hs).
  destruct (SndBuffer.curr_at_end _ _ _ (s_buf _ _ _ _ _ Hs)) as [_ Hcq].
  rewrite E2, Hcur, incseq_seq_of. replace (a + Z.of_nat c - 1 + 1) with (a + Z.of_nat c) by lia. rewrite seqcmp_gtb, Z.gtb_ltb, (proj2 (Z.ltb_ge _ _)) by lia.
  rewrite E1, Hla, seqcmp_geb, Z.geb_leb by lia.
  set (st2 := if la <=? b then _ else st1).
  assert (G : acked_to (snd st2) a q c S b /\ m_iSndLastAck (snd st2) = seq_of (Z.max la b) /\ m_iSndCurrSeqNo (snd st2) = m_iSndCurrSeqNo (snd st) /\
    m_iFlowWindowSize (snd st2) = (if b <? la then m_iFlowWindowSize (snd st) else ackdata p ACKD_BUFFERLEFT) /\
    m_bBroken st2 = m_bBroken st1 /\ cc_acks st2 = cc_acks st1 /\ m_iSRTT st2 = m_iSRTT st1 /\ m_iRTTVar st2 = m_iRTTVar st1 /\
    m_iSndLastFullAck st2 = m_iSndLastFullAck st1 /\ ackacks st2 = ackacks st1).
  { unfold st2. destruct (Z.leb_spec la b).
    - rewrite (proj2 (Z.ltb_ge _ _)), Z.max_r by lia. cbn. rewrite E2. split; [by apply sender_acks|done].
    - rewrite (proj2 (Z.ltb_lt _ _)), Z.max_l, F1, E1, E2, E3 by lia. done. }
  clearbody st2. destruct G as (G1 & G2 & G3 & G4 & G5 & G6 & G7 & G8 & G9 & G10). rewrite G9, F6, Hfa, seqoff_seq_of by lia.
  assert (Hsz : (getLength p / ACKD_FIELD_SIZE <? CUDTAck.ACKD_TOTAL_SIZE_SMALL) = negb (16 <=? getLength p)).
  { change ACKD_FIELD_SIZE with 4. change CUDTAck.ACKD_TOTAL_SIZE_SMALL with 4. pose proof (Z.div_mod (getLength p) 4 ltac:(lia)).
    pose proof (Z.mod_pos_bound (getLength p) 4 ltac:(lia)). destruct (Z.leb_spec 16 (getLength p)); cbn [negb]; [apply Z.ltb_ge|apply Z.ltb_lt]; lia. }
  destruct (Z.leb_spec (b - fa) 0).
  - exists st2. rewrite (proj2 (Z.ltb_ge fa b)), (Z.max_l fa b) by lia. rewrite Hcur in G3. cbn [andb]. rewrite app_nil_r, G5, G6, G7, G8, G9, G10, F2, F3, F4, F5, F6, F7. done.
  - destruct (read_fields_ok size recvd (getLength p / ACKD_FIELD_SIZE) (ackdata p) (seq_of b) (set_full (seq_of b) st2)) as (R1 & R2 & R3 & R4 & R5 & R6 & R7).
    set (st3 := read_fields _ _ _ _ _ _) in *. exists st3. split; [done|]. rewrite R1, R2, R3, R4, R6, Hsz. cbn [snd set_full m_bBroken m_iSndLastFullAck ackacks cc_acks].
    rewrite G5, G6, G10, F2, F3, F7, (proj2 (Z.ltb_lt fa b)), (Z.max_r fa b) by lia. rewrite Hcur in G3. do 7 (split; [done|]). split; [by destruct (16 <=? _)|].
    apply R7; [done|cbn; by rewrite G7, F4|cbn; by rewrite G8, F5|apply Hrep|apply Hrep].
Qed.

(** C33. The check whether an acknowledged number was ever sent is made only
    for a full ACK, and there only after the buffer was cleaned.  An ACK for
    packets that are in the buffer but were never sent throws them away; a
    full one then closes the connection, a lite one does not: the sender goes
    on with a buffer whose first number is ahead of its last sent one. *)
Theorem snd_ack_unchecked (Hunsent : a + Z.of_nat c < b) :
  exists st', processCtrlAck size recvd now p st = Some st' /\
    sender (snd st') b (drop (Z.to_nat (b - a)) q) 0 (filter (fun x => b <= x) S) /\
    m_iSndCurrSeqNo (snd st') = seq_of (a + Z.of_nat c - 1) /\
    (if getLength p =? SEND_LITE_ACK then m_bBroken st' = m_bBroken st /\ m_iSndLastAck (snd st') = seq_of (Z.max la b) else m_bBroken st' = true).
Proof using Hs Hcur Hla Hp Hb Hbla.
  clear Hfa Hbfa fa. pose proof (s_window _ _ _ _ _ Hs). pose proof (s_size _ _ _ _ _ Hs). unfold processCtrlAck. rewrite ack_valid, Hp.
  destruct (acked_ok (snd st) a q c S b Hs ltac:(lia)) as (s & E & Ha & E1 & E2 & E3). rewrite E. cbn [mbind option_bind].
  unfold acked_to in Ha. rewrite Z.max_r in Ha by lia. replace (c - Z.to_nat (b - a))%nat with O in Ha by lia.
  destruct (getLength p =? SEND_LITE_ACK).
  - rewrite E1, Hla, seqcmp_geb, Z.geb_leb by lia. eexists. split; [reflexivity|].
    destruct (Z.leb_spec la b); cbn [snd set_snd responded m_bBroken].
    + rewrite Z.max_r by lia. split; [by apply sender_acks|]. split; [|done]. cbn. by rewrite E2.
    + rewrite Z.max_l, E1, E2 by lia. done.
  - rewrite E2, Hcur, incseq_seq_of. replace (a + Z.of_nat c - 1 + 1) with (a + Z.of_nat c) by lia. rewrite seqcmp_gtb, Z.gtb_ltb, (proj2 (Z.ltb_lt _ _)) by lia.
    eexists. split; [reflexivity|]. destruct (_ || _); cbn; rewrite E2; done.
Qed.
End FullAck.

(** A sender with no measurement yet. *)
Definition fresh_sender (s : CUDTSnd.t) : t := mk s 0x7FFFFFFF 0 0 0 1 100000 50000 false 1 16 0 false [] [].

Lemma snd_lite_ack_witness :
  let p := mkAck 0 4 (fun _ => 0) in
  exists st', processCtrlAck 1456 false 500 p (fresh_sender (example_state 3 example_losses)) = Some st' /\
    acked_to (snd st') 0x7FFFFFFF SndBuffer.example_queue 2 (∅ ∪ range 0x7FFFFFFF 0x80000000) 0x80000000 /\ m_iFlowWindowSize (snd st') = 99.
Proof.
  intros p. destruct (snd_lite_ack 1456 false 500 p (fresh_sender (example_state 3 example_losses)) 0x7FFFFFFF 0x7FFFFFFF 0x80000000
    SndBuffer.example_queue 2 _ example_sender eq_refl eq_refl) as (st' & E & Ha & _ & _ & Hw & _).
  - vm_compute. split; [reflexivity|discriminate].
  - vm_compute. split; reflexivity.
  - reflexivity.
  - lia.
  - exists st'. split; [exact E|]. split; [exact Ha|exact Hw].
Defined.

Lemma snd_full_ack_witness :
  let p := mkAck 3 16 (fun i => nth (Z.to_nat i) [0; 120; 60; 77] 0) in
  exists st', processCtrlAck 1456 false 20000 p (fresh_sender (example_state 3 example_losses)) = Some st' /\
    acked_to (snd st') 0x7FFFFFFF SndBuffer.example_queue 2 (∅ ∪ range 0x7FFFFFFF 0x80000000) 0x80000000 /\ m_iFlowWindowSize (snd st') = 77 /\
    ackacks st' = [3] /\ cc_acks st' = [0].
Proof.
  intros p. destruct (snd_full_ack 1456 false 20000 p (fresh_sender (example_state 3 example_losses)) 0x7FFFFFFF 0x7FFFFFFF 0x7FFFFFFF 0x80000000
    SndBuffer.example_queue 2 _ example_sender eq_refl eq_refl eq_refl eq_refl) with (hi := 100000) as (st' & E & Ha & _ & _ & Hw & _ & _ & Hk & Hc & _).
  - vm_compute. split; [reflexivity|discriminate].
  - vm_compute. split; reflexivity.
  - vm_compute. split; reflexivity.
  - discriminate.
  - lia.
  - unfold in_i32. lia.
  - cbn. lia.
  - cbn. lia.
  - vm_compute. split; split; discriminate.
  - exists st'. split; [exact E|]. split; [exact Ha|]. split; [exact Hw|]. split; [exact Hk|exact Hc].
Defined.

Lemma snd_ack_unchecked_witness :
  let p := mkAck 0 4 (fun _ => 1) in
  exists st', processCtrlAck 1456 false 500 p (fresh_sender SndPack.example_unsent) = Some st' /\
    sender (snd st') 0x80000001 [] 0 (filter (fun x => 0x80000001 <= x) ∅) /\ m_iSndCurrSeqNo (snd st') = 0x7FFFFFFE /\ m_bBroken st' = false.
Proof.
  intros p. destruct (snd_ack_unchecked 1456 false 500 p (fresh_sender SndPack.example_unsent) 0x7FFFFFFF 0x7FFFFFFF 0x80000001
    SndBuffer.example_queue 0 _ SndPack.example_unsent_sender eq_refl eq_refl eq_refl) as (st' & E & Ha & Hc & Hb & _).
  - vm_compute. split; [reflexivity|discriminate].
  - vm_compute. split; reflexivity.
  - lia.
  - exists st'. split; [exact E|]. split; [exact Ha|]. split; [exact Hc|exact Hb].
Defined.
