(* ===== verification/RcvQueue.v ===== *)
(** The receiver queue of queue.cpp: the list of connected sockets by their last
    activity ([CRcvUList]), the table of sockets by number ([CHash]), the
    sockets that are connecting ([CRendezvousQueue]), and what the worker of
    [CRcvQueue] does with them for a packet.  Sockets are named by numbers; the
    clock is an argument; locks and the connecting itself are left out. *)
From stdpp Require Import gmap.
From S2P Require Import Prelude Packet.

(** ** The list of sockets by activity *)

Module CRcvUList.
Record CRNode := mkNode { m_tsTimeStamp : Z; m_pPrev : option Z; m_pNext : option Z; m_bOnList : bool }.

(** [m_nodes] is the memory: the node of each socket. *)
Record t := mk { m_nodes : gmap Z CRNode; m_pUList : option Z; m_pLast : option Z }.

Definition init : t := mk ∅ None None.

Definition node (st : t) (u : Z) : CRNode := default (mkNode 0 None None false) (m_nodes st !! u).

Definition upd (u : Z) (f : CRNode -> CRNode) (st : t) : t := mk (<[u := f (node st u)]> (m_nodes st)) (m_pUList st) (m_pLast st).
Definition set_time (now : Z) (n : CRNode) : CRNode := mkNode now (m_pPrev n) (m_pNext n) (m_bOnList n).
Definition set_prev (p : option Z) (n : CRNode) : CRNode := mkNode (m_tsTimeStamp n) p (m_pNext n) (m_bOnList n).
Definition set_next (p : option Z) (n : CRNode) : CRNode := mkNode (m_tsTimeStamp n) (m_pPrev n) p (m_bOnList n).
Definition set_on_list (b : bool) (n : CRNode) : CRNode := mkNode (m_tsTimeStamp n) (m_pPrev n) (m_pNext n) b.
Definition set_m_pUList (p : option Z) (st : t) : t := mk (m_nodes st) p (m_pLast st).
Definition set_m_pLast (p : option Z) (st : t) : t := mk (m_nodes st) (m_pUList st) p.
(** A write through a pointer that may be null. *)
Definition upd_at (p : option Z) (f : CRNode -> CRNode) (st : t) : t := match p with Some u => upd u f st | None => st end.

(** The node goes to the end. *)
Definition append (u : Z) (st : t) : t :=
  let st := upd u (set_next None) (upd u (set_prev (m_pLast st)) st) in
  let st := upd_at (m_pLast st) (set_next (Some u)) st in
  set_m_pLast (Some u) st.

Definition insert (u now : Z) (st : t) : t :=
  let st := upd u (set_time now) st in
  match m_pUList st with
  | None => set_m_pUList (Some u) (set_m_pLast (Some u) (upd u (set_next None) (upd u (set_prev None) st)))
  | Some _ => append u st
  end.

Definition remove (u : Z) (st : t) : t :=
  let n := node st u in
  if negb (m_bOnList n) then st else
  let st :=
    match m_pPrev n with
    | None =>
        let st := set_m_pUList (m_pNext n) st in
        match m_pNext n with
        | None => set_m_pLast None st
        | Some v => upd v (set_prev None) st
        end
    | Some p =>
        let st := upd p (set_next (m_pNext n)) st in
        match m_pNext n with
        | None => set_m_pLast (Some p) st
        | Some v => upd v (set_prev (Some p)) st
        end
    end in
  upd u (set_next None) (upd u (set_prev None) st).

Definition update (u now : Z) (st : t) : t :=
  let n := node st u in
  if negb (m_bOnList n) then st else
  let st := upd u (set_time now) st in
  match m_pNext n with
  | None => st
  | Some v =>
      let st := match m_pPrev n with
                | None => upd v (set_prev None) (set_m_pUList (Some v) st)
                | Some p => upd v (set_prev (Some p)) (upd p (set_next (Some v)) st)
                end in
      append u st
  end.
End CRcvUList.

(** ** The table of sockets *)

Module CHash.
(** A bucket is the chain of its entries: socket number and socket. *)
Notation t := (list (list (Z * Z))).

Definition init (size : nat) : t := replicate size [].

Fixpoint chain_lookup (id : Z) (b : list (Z * Z)) : option Z :=
  match b with
  | [] => None
  | (k, u) :: b => if id =? k then Some u else chain_lookup id b
  end.

Fixpoint chain_remove (id : Z) (b : list (Z * Z)) : list (Z * Z) :=
  match b with
  | [] => []
  | (k, u) :: b => if id =? k then b else (k, u) :: chain_remove id b
  end.

(** The index of a bucket; the code has no answer for one outside the table. *)
Definition bucket (id : Z) (st : t) : option nat :=
  let i := Z.rem id (zlen st) in
  if (0 <=? i) && (i <? zlen st) then Some (Z.to_nat i) else None.

Definition lookup (id : Z) (st : t) : option (option Z) :=
  i ← bucket id st; b ← st !! i; Some (chain_lookup id b).
Definition insert (id u : Z) (st : t) : option t :=
  i ← bucket id st; b ← st !! i; Some (<[i := (id, u) :: b]> st).
Definition remove (id : Z) (st : t) : option t :=
  i ← bucket id st; b ← st !! i; Some (<[i := chain_remove id b]> st).
End CHash.

(** ** The sockets that are connecting *)

Module CRendezvousQueue.
Section Rendezvous.
(** Network addresses, with their comparison. *)
Context {A : Type} `{EqDecision A}.

Record CRL := mkCRL { m_iID : Z; m_pUDT : Z; m_PeerAddr : A; m_tsTTL : Z }.

Definition insert (id u : Z) (addr : A) (ttl : Z) (st : list CRL) : list CRL := st ++ [mkCRL id u addr ttl].

Fixpoint remove (id : Z) (st : list CRL) : list CRL :=
  match st with
  | [] => []
  | r :: st => if m_iID r =? id then st else r :: remove id st
  end.

(** [retrieve]: the socket and the number it found; [rendezvous u] is
    [m_config.bRendezvous] of the socket. *)
Fixpoint retrieve (rendezvous : Z -> bool) (addr : A) (id : Z) (st : list CRL) : option (Z * Z) :=
  match st with
  | [] => None
  | r :: st =>
      if bool_decide (m_PeerAddr r = addr) && ((id =? 0) || (id =? m_iID r)) then
        if (id =? 0) && negb (rendezvous (m_pUDT r)) then retrieve rendezvous addr id st
        else Some (m_pUDT r, m_iID r)
      else retrieve rendezvous addr id st
  end.

(** What [qualifyToHandle] reads of a socket. *)
Record sock := mkSock { rejected : bool; m_tsLastReqTime : Z; bSynRecving : bool }.
Inductive ccerror := SRT_ECONNREJ | SRT_ENOSERVER.

(** [qualifyToHandle]: the queue, what has expired with its error, and what is
    to be asked again; [again] is [rst == RST_AGAIN], [now k] the clock for
    entry [k]. *)
Fixpoint qualify (info : Z -> sock) (now : nat -> Z) (again : bool) (dst : Z) (st : list CRL) (k : nat) : list CRL * list (CRL * ccerror) * list CRL :=
  match st with
  | [] => ([], [], [])
  | r :: st =>
      let '(kept, expired, process) := qualify info now again dst st (S k) in
      if now k >=? m_tsTTL r then
        (kept, (r, if negb (rejected (info (m_pUDT r))) && negb (m_tsTTL r =? 0) then SRT_ENOSERVER else SRT_ECONNREJ) :: expired, process)
      else if (again || negb (m_iID r =? dst)) && (now k <=? m_tsLastReqTime (info (m_pUDT r)) + 250000) then (r :: kept, expired, process)
      else if negb (bSynRecving (info (m_pUDT r))) then (r :: kept, expired, r :: process)
      else (r :: kept, expired, process)
  end.

Definition qualifyToHandle (info : Z -> sock) (now : nat -> Z) (again : bool) (dst : Z) (st : list CRL) : list CRL * list (CRL * ccerror) * list CRL * bool :=
  let '(kept, expired, process) := qualify info now again dst st 0 in
  (kept, expired, process, match expired, process with [], [] => false | _, _ => true end).
End Rendezvous.
End CRendezvousQueue.

(** ** The queue *)

Module CRcvQueue.
Section Queue.
Context {A : Type} `{EqDecision A}.

Record t := mk {
  m_pRcvUList : CRcvUList.t;
  m_pHash : CHash.t;
  m_pListener : option Z;
  m_pRendezvousQueue : list (CRendezvousQueue.CRL (A := A));
  m_vNewEntry : list Z;
  m_mBuffer : gmap Z (list CPacket.t);
}.

Definition init (hsize : nat) : t := mk CRcvUList.init (CHash.init hsize) None [] [] ∅.

Definition set_lists (l : CRcvUList.t) (h : CHash.t) (st : t) : t := mk l h (m_pListener st) (m_pRendezvousQueue st) (m_vNewEntry st) (m_mBuffer st).
Definition set_m_pListener (l : option Z) (st : t) : t := mk (m_pRcvUList st) (m_pHash st) l (m_pRendezvousQueue st) (m_vNewEntry st) (m_mBuffer st).
Definition set_new (n : list Z) (st : t) : t := mk (m_pRcvUList st) (m_pHash st) (m_pListener st) (m_pRendezvousQueue st) n (m_mBuffer st).
Definition set_buffer (b : gmap Z (list CPacket.t)) (st : t) : t := mk (m_pRcvUList st) (m_pHash st) (m_pListener st) (m_pRendezvousQueue st) (m_vNewEntry st) b.
Definition set_rendezvous (r : list (CRendezvousQueue.CRL (A := A))) (st : t) : t := mk (m_pRcvUList st) (m_pHash st) (m_pListener st) r (m_vNewEntry st) (m_mBuffer st).

(** What the worker reads of a socket: what does not change while it is in the
    queue, its number and the address of its peer, its mode; and its status. *)
Record conf := mkConf { m_SocketID : Z; m_PeerAddr : A; bRendezvous : bool; bSynRecving : bool }.
Record status := mkStatus { m_bConnected : bool; m_bBroken : bool; m_bClosing : bool }.
Definition running (s : status) : bool := m_bConnected s && negb (m_bBroken s) && negb (m_bClosing s).

Section Worker.
Context (cf : Z -> conf).

Definition setListener (u : Z) (st : t) : t * bool :=
  match m_pListener st with None => (set_m_pListener (Some u) st, true) | Some _ => (st, false) end.
Definition removeListener (u : Z) (st : t) : t * bool :=
  if bool_decide (m_pListener st = Some u) then (set_m_pListener None st, true) else (st, false).

(** A socket that has connected: its node is marked and it waits for the
    worker. *)
Definition setNewEntry (u : Z) (st : t) : t := set_new (m_vNewEntry st ++ [u]) st.
Definition enter (u : Z) (st : t) : t :=
  setNewEntry u (set_lists (CRcvUList.upd u (CRcvUList.set_on_list true) (m_pRcvUList st)) (m_pHash st) st).

Definition getNewEntry (st : t) : t * option Z :=
  match m_vNewEntry st with
  | [] => (st, None)
  | u :: n => (set_new n st, Some u)
  end.

Definition storePktClone (id : Z) (pkt : CPacket.t) (st : t) : t :=
  match m_mBuffer st !! id with
  | None => set_buffer (<[id := [pkt]]> (m_mBuffer st)) st
  | Some q => if zlen q >? 16 then st else set_buffer (<[id := q ++ [pkt]]> (m_mBuffer st)) st
  end.

(** [recvfrom] into a packet with room for [len] bytes, after the wait; [None]
    is the result -1. *)
Definition recvfrom (id len : Z) (st : t) : t * option CPacket.t :=
  match m_mBuffer st !! id with
  | None => (st, None)
  | Some [] => (st, None)
  | Some (pkt :: q) =>
      if len <? CPacket.getLength pkt then (st, None)
      else (set_buffer (match q with [] => delete id (m_mBuffer st) | _ => <[id := q]> (m_mBuffer st) end) st, Some pkt)
  end.

Definition registerConnector (id u : Z) (addr : A) (ttl : Z) (st : t) : t :=
  set_rendezvous (CRendezvousQueue.insert id u addr ttl (m_pRendezvousQueue st)) st.

Definition removeConnector (id : Z) (st : t) : t :=
  set_buffer (delete id (m_mBuffer st)) (set_rendezvous (CRendezvousQueue.remove id (m_pRendezvousQueue st)) st).

Definition removeFromLists (u : Z) (st : t) : option t :=
  h ← CHash.remove (m_SocketID (cf u)) (m_pHash st);
  Some (set_lists (CRcvUList.upd u (CRcvUList.set_on_list false) (CRcvUList.remove u (m_pRcvUList st))) h st).

(** The clock: [clk k] is its [k]-th reading; the operations that read it hand
    on the number of readings so far. *)
Context (clk : nat -> Z).

(** The sockets that wait for their place are taken in. *)
Definition take_new_step (s : t * nat) : (t * nat) + option (t * nat) :=
  let '(st, k) := s in
  match getNewEntry st with
  | (st, None) => inr (Some (st, k))
  | (st, Some u) =>
      match CHash.insert (m_SocketID (cf u)) u (m_pHash st) with
      | None => inr None
      | Some h => inl (set_lists (CRcvUList.insert u (clk k) (m_pRcvUList st)) h st, S k)
      end
  end.

Definition take_new (st : t) (k : nat) : option (t * nat) :=
  r ← loop (S (length (m_vNewEntry st))) take_new_step (st, k); r.

(** What happens to a packet: it goes to the listener, to a connected socket
    (or one that is going), to a connecting one that works in the background,
    it is kept for one that waits for it, or nothing. *)
Inductive dispatch := Listener (u : Z) | Deliver (u : Z) | Closing (u : Z) | Foreign (u : Z) | AsyncConnect (u id : Z) | StoreFor (id : Z) | Unknown | Negative.

Definition worker_TryAsyncRend_OrStore (id : Z) (addr : A) (st : t) : dispatch :=
  match CRendezvousQueue.retrieve (fun u => bRendezvous (cf u)) addr id (m_pRendezvousQueue st) with
  | None => Unknown
  | Some (u, id) => if negb (bSynRecving (cf u)) then AsyncConnect u id else StoreFor id
  end.

Definition worker_ProcessConnectionRequest (addr : A) (st : t) : dispatch :=
  match m_pListener st with
  | Some u => Listener u
  | None => worker_TryAsyncRend_OrStore 0 addr st
  end.

Definition worker_ProcessAddressedPacket (info : Z -> status) (id : Z) (addr : A) (st : t) : option dispatch :=
  found ← CHash.lookup id (m_pHash st);
  Some match found with
  | None => worker_TryAsyncRend_OrStore id addr st
  | Some u =>
      if negb (bool_decide (addr = m_PeerAddr (cf u))) then Foreign u
      else if negb (m_bConnected (info u)) || m_bBroken (info u) || m_bClosing (info u) then Closing u
      else Deliver u
  end.

Definition worker_dispatch (info : Z -> status) (id : Z) (addr : A) (st : t) : option dispatch :=
  if id <? 0 then Some Negative
  else if id =? 0 then Some (worker_ProcessConnectionRequest addr st)
  else worker_ProcessAddressedPacket info id addr st.

(** The queue's part of the handling: the socket moves to the end of the list,
    or the packet is kept. *)
Definition worker_handle (pkt : CPacket.t) (d : dispatch) (st : t) (k : nat) : t * nat :=
  match d with
  | Deliver u => (set_lists (CRcvUList.update u (clk k) (m_pRcvUList st)) (m_pHash st) st, S k)
  | StoreFor id => (storePktClone id pkt st, k)
  | _ => (st, k)
  end.

(** The timers: the sockets that were not active since [limit] have their
    turn; one that is not connected any more goes.  The sockets served are
    collected. *)
Definition sweep_step (info : Z -> status) (limit : Z) (s : t * list Z * nat) : (t * list Z * nat) + option (t * list Z * nat) :=
  let '(st, served, k) := s in
  match CRcvUList.m_pUList (m_pRcvUList st) with
  | None => inr (Some (st, served, k))
  | Some u =>
      if CRcvUList.m_tsTimeStamp (CRcvUList.node (m_pRcvUList st) u) <? limit then
        if running (info u)
        then inl (set_lists (CRcvUList.update u (clk k) (m_pRcvUList st)) (m_pHash st) st, served ++ [u], S k)
        else match removeFromLists u st with
             | None => inr None
             | Some st => inl (st, served, k)
             end
      else inr (Some (st, served, k))
  end.

Definition COMM_SYN_INTERVAL_US : Z := 10000.

Definition sweep (fuel : nat) (info : Z -> status) (st : t) (k : nat) : option (t * list Z * nat) :=
  r ← loop fuel (sweep_step info (clk k - COMM_SYN_INTERVAL_US)) (st, [], S k); r.

(** What [CChannel::recvfrom] gave. *)
Inductive reading := RST_OK (id : Z) (addr : A) (pkt : CPacket.t) | RST_AGAIN | RST_ERROR.

(** The packet was not dispatched and the worker reads on at once; [again] is
    the answer of a socket that is connecting. *)
Definition reads_on (again : bool) (d : dispatch) : bool :=
  match d with Foreign _ | Unknown | Negative => true | AsyncConnect _ _ => again | _ => false end.

(** One turn of the worker: what became of the packet, and the sockets whose
    timers were checked, unless the turn ended before. *)
Definition worker (fuel : nat) (info : Z -> status) (r : reading) (again : bool) (st : t) (k : nat) : option (t * nat * option dispatch * option (list Z)) :=
  '(st, k) ← take_new st k;
  match r with
  | RST_ERROR => Some (st, k, None, None)
  | RST_AGAIN => '(st, served, k) ← sweep fuel info st k; Some (st, k, None, Some served)
  | RST_OK id addr pkt =>
      d ← worker_dispatch info id addr st;
      let '(st, k) := worker_handle pkt d st k in
      if reads_on again d then Some (st, k, Some d, None)
      else '(st, served, k) ← sweep fuel info st k; Some (st, k, Some d, Some served)
  end.
End Worker.
End Queue.
End CRcvQueue.
