(* ===== verification/RcvQueueInv.v ===== *)
(** The list of sockets of the receiver queue holds what it should: inserting,
    removing and touching a socket are the list operations. *)
From stdpp Require Import gmap.
From S2P Require Import Prelude Packet RcvQueue.

(** ** The list holds what it should *)

Module RcvUList.
Import CRcvUList.

Lemma snoc_case {X} (l : list X) : l = [] \/ exists l' x, l = l' ++ [x].
Proof. induction l using rev_ind; [by left|right; eauto]. Qed.

(** The nodes of [l] are linked in order, from [p] to [n]. *)
Fixpoint linked (st : t) (p : option Z) (l : list Z) (n : option Z) : Prop :=
  match l with
  | [] => True
  | u :: l => m_pPrev (node st u) = p /\ m_pNext (node st u) = from_option Some n (head l) /\ linked st (Some u) l n
  end.

Record holds (st : t) (l : list Z) : Prop := {
  h_linked : linked st None l None;
  h_first : m_pUList st = head l;
  h_last : m_pLast st = list.last l;
  h_nodup : NoDup l
}.

Lemma unode_upd u f st v : node (upd u f st) v = if decide (v = u) then f (node st u) else node st v.
Proof. unfold node at 1, upd. cbn [m_nodes]. case_decide as E; [subst; by rewrite lookup_insert_eq|by rewrite lookup_insert_ne by done]. Qed.

Lemma linked_ext st st' p l n : (forall u, u ∈ l -> m_pPrev (node st' u) = m_pPrev (node st u) /\ m_pNext (node st' u) = m_pNext (node st u)) ->
  linked st p l n -> linked st' p l n.
Proof.
  revert p. induction l as [|u l IH]; intros p H; [done|]. cbn [linked]. destruct (H u) as [-> ->]; [by left|].
  intros (H1 & H2 & H3). split; [done|]. split; [done|]. apply IH; [|done]. intros v Hv. apply H. by right.
Qed.

Lemma linked_app st p l l' n : linked st p (l ++ l') n <->
  linked st p l (from_option Some n (head l')) /\ linked st (from_option Some p (list.last l)) l' n.
Proof.
  revert p. induction l as [|u l IH]; intros p; cbn [app linked]; [tauto|]. rewrite IH.
  assert (E1 : from_option Some n (head (l ++ l')) = from_option Some (from_option Some n (head l')) (head l)) by (by destruct l). rewrite E1.
  assert (E2 : from_option Some (Some u) (list.last l) = from_option Some p (list.last (u :: l))) by (rewrite last_cons; by destruct (list.last l)). rewrite E2. tauto.
Qed.

(** Only the pointers at the ends of a segment change with its neighbours. *)
Lemma linked_prev st p q u l n : linked st p (u :: l) n -> u ∉ l -> linked (upd u (set_prev q) st) q (u :: l) n.
Proof.
  intros (H1 & H2 & H3) Hu. cbn [linked]. rewrite unode_upd, decide_True by done. cbn. split; [done|]. split; [done|].
  eapply linked_ext; [|exact H3]. intros v Hv. rewrite unode_upd, decide_False; [done|]. by intros ->.
Qed.

Lemma linked_next st p l u n m : linked st p (l ++ [u]) n -> u ∉ l -> linked (upd u (set_next m) st) p (l ++ [u]) m.
Proof.
  rewrite !linked_app. cbn [linked head from_option]. intros (H1 & H2 & _ & _) Hu. rewrite unode_upd, decide_True by done. cbn. split_and!; try done.
  eapply linked_ext; [|exact H1]. intros v Hv. rewrite unode_upd, decide_False; [done|]. by intros ->.
Qed.

Lemma linked_upd_out st p l n u f : u ∉ l -> linked st p l n -> linked (upd u f st) p l n.
Proof. intros Hu. apply linked_ext. intros v Hv. rewrite unode_upd, decide_False; [done|]. by intros ->. Qed.

Lemma linked_upd_same st p l n u f : (forall x, m_pPrev (f x) = m_pPrev x /\ m_pNext (f x) = m_pNext x) -> linked st p l n -> linked (upd u f st) p l n.
Proof. intros Hf. apply linked_ext. intros v _. rewrite unode_upd. case_decide; [subst; apply Hf|done]. Qed.

Lemma upd_first u f st : m_pUList (upd u f st) = m_pUList st. Proof. done. Qed.
Lemma upd_last u f st : m_pLast (upd u f st) = m_pLast st. Proof. done. Qed.

Lemma linked_m_pUList st p l n q : linked st p l n -> linked (set_m_pUList q st) p l n.
Proof. by apply linked_ext. Qed.
Lemma linked_m_pLast st p l n q : linked st p l n -> linked (set_m_pLast q st) p l n.
Proof. by apply linked_ext. Qed.

(** The time and the mark of a node. *)
Definition stamp (st : t) (u : Z) : Z * bool := (m_tsTimeStamp (node st u), m_bOnList (node st u)).

Lemma stamp_upd u f st v : (forall x, m_tsTimeStamp (f x) = m_tsTimeStamp x /\ m_bOnList (f x) = m_bOnList x) -> stamp (upd u f st) v = stamp st v.
Proof. intros Hf. unfold stamp. rewrite unode_upd. case_decide; [subst; by destruct (Hf (node st u)) as [-> ->]|done]. Qed.

Lemma append_holds st l u : holds st l -> u ∉ l -> l <> [] -> holds (append u st) (l ++ [u]) /\ forall v, stamp (append u st) v = stamp st v.
Proof.
  intros [Hl Hf Ha Hn] Hu Hne. destruct (snoc_case l) as [->|(l' & w & ->)]; [done|]. unfold append. rewrite upd_last, upd_last, Ha, last_snoc. cbn [upd_at].
  apply list.NoDup_app in Hn as Hn'. destruct Hn' as (Hn1 & Hn2 & _). assert (Hw : w ∉ l') by (intros Hw; by destruct (Hn2 w Hw); left).
  assert (Huw : w <> u) by (intros ->; apply Hu, elem_of_app; right; by left). split.
  - split.
    + apply linked_m_pLast. apply linked_app. cbn [head from_option]. rewrite last_snoc. split.
      * apply (linked_next _ None l' w None); [|done]. do 2 (apply linked_upd_out; [done|]). done.
      * cbn [linked]. rewrite unode_upd, decide_False by done. rewrite unode_upd, decide_True by done. rewrite unode_upd, decide_True by done. done.
    + change (m_pUList (set_m_pLast _ _)) with (m_pUList st). rewrite Hf. by destruct l'.
    + cbn [m_pLast set_m_pLast]. by rewrite last_snoc.
    + apply list.NoDup_app. split; [done|]. split; [|by apply NoDup_singleton]. intros x Hx ->%list_elem_of_singleton. done.
  - intros v. change (stamp (set_m_pLast _ ?s) v) with (stamp s v). rewrite !stamp_upd; done.
Qed.

Lemma insert_holds st l u now : holds st l -> u ∉ l ->
  holds (insert u now st) (l ++ [u]) /\ stamp (insert u now st) u = (now, m_bOnList (node st u)) /\ forall v, v <> u -> stamp (insert u now st) v = stamp st v.
Proof.
  intros Hh Hu. unfold insert. rewrite upd_first, (h_first _ _ Hh).
  assert (Hs : forall v, stamp (upd u (set_time now) st) v = if decide (v = u) then (now, m_bOnList (node st u)) else stamp st v).
  { intros v. unfold stamp. rewrite unode_upd. by case_decide. }
  destruct l as [|w l].
  - cbn [head]. split.
    + split; cbn [app head list.last]; try done; [|by apply NoDup_singleton]. cbn [linked]. change (node (set_m_pUList _ (set_m_pLast _ ?s)) u) with (node s u).
      rewrite unode_upd, decide_True by done. rewrite unode_upd, decide_True by done. done.
    + assert (E : forall v, stamp (set_m_pUList (Some u) (set_m_pLast (Some u) (upd u (set_next None) (upd u (set_prev None) (upd u (set_time now) st))))) v =
        stamp (upd u (set_time now) st) v) by (intros v; change (stamp (set_m_pUList _ (set_m_pLast _ ?s)) v) with (stamp s v); rewrite stamp_upd by done; by rewrite stamp_upd).
      split; [by rewrite E, Hs, decide_True|]. intros v Hv. by rewrite E, Hs, decide_False.
  - cbn [head]. assert (Hh' : holds (upd u (set_time now) st) (w :: l)) by (destruct Hh; split; try done; by apply linked_upd_same).
    destruct (append_holds _ (w :: l) u Hh' Hu ltac:(done)) as [Ha Ht]. split; [done|]. split; [by rewrite Ht, Hs, decide_True|].
    intros v Hv. by rewrite Ht, Hs, decide_False.
Qed.

(** A socket [u] in the middle of the list is taken out. *)
Definition unlink (u : Z) (st : t) : t :=
  let n := node st u in
  match m_pPrev n with
  | None =>
      let st := set_m_pUList (m_pNext n) st in
      match m_pNext n with None => set_m_pLast None st | Some v => upd v (set_prev None) st end
  | Some p =>
      let st := upd p (set_next (m_pNext n)) st in
      match m_pNext n with None => set_m_pLast (Some p) st | Some v => upd v (set_prev (Some p)) st end
  end.

Lemma unlink_holds st l1 u l2 : holds st (l1 ++ u :: l2) ->
  holds (unlink u st) (l1 ++ l2) /\ (forall v, stamp (unlink u st) v = stamp st v) /\
  m_pPrev (node st u) = list.last l1 /\ m_pNext (node st u) = head l2.
Proof.
  intros [Hl Hf Ha Hn]. apply linked_app in Hl as [H1 (Hp & Hnx & H2)]. cbn [head from_option] in H1.
  assert (Hp' : m_pPrev (node st u) = list.last l1) by (rewrite Hp; by destruct (list.last l1)). assert (Hnx' : m_pNext (node st u) = head l2) by (rewrite Hnx; by destruct (head l2)).
  apply list.NoDup_app in Hn as (N1 & N12 & [Nu N2]%list.NoDup_cons). unfold unlink. rewrite Hp', Hnx'. split; [|split; [|done]].
  - destruct (snoc_case l1) as [->|(l1' & p & ->)]; [|rewrite last_snoc].
    + cbn [list.last]. destruct l2 as [|v l2]; cbn [head].
      * by split.
      * split; cbn [app]; try done. apply linked_m_pUList with (q := Some v) in H2. apply (linked_prev _ (Some u)); [done|]. by apply list.NoDup_cons in N2 as [? _].
    + assert (Hpl1 : p ∉ l1') by (apply list.NoDup_app in N1 as (_ & N & _); intros Hin; by destruct (N p Hin); left).
      assert (Hpl2 : p ∉ l2) by (intros Hin; apply (N12 p); [apply elem_of_app; right; by left|by right]).
      destruct l2 as [|v l2]; cbn [head].
      * rewrite app_nil_r. split; try done.
        -- apply linked_m_pLast. by apply (linked_next _ None l1' p (Some u)).
        -- change (m_pUList st = list.head (l1' ++ [p])). rewrite Hf. by destruct l1'.
        -- cbn. by rewrite last_snoc.
      * assert (Hv : v ∉ l1' ++ [p]) by (intros Hin; apply (N12 v Hin); right; by left). apply list.NoDup_cons in N2 as [Nv N2].
        split.
        -- apply linked_app. cbn [head from_option]. rewrite last_snoc. split.
           ++ apply linked_upd_out; [done|]. by apply (linked_next _ None l1' p (Some u)).
           ++ apply (linked_prev _ (Some u)); [|done]. apply linked_upd_out; [done|]. done.
        -- rewrite upd_first, upd_first, Hf. by destruct l1'.
        -- rewrite upd_last, upd_last, Ha. rewrite !last_app. by destruct l2.
        -- apply list.NoDup_app. split; [done|]. split; [|by apply list.NoDup_cons]. intros x Hx Hx'. apply (N12 x Hx). by right.
  - intros v. destruct (list.last l1), (head l2); rewrite ?stamp_upd; try done; unfold stamp; cbn; try done.
    + change (node (set_m_pLast ?q ?s) v) with (node s v). rewrite unode_upd. case_decide; [by subst|done].
Qed.

Lemma ulist_remove_holds st l1 u l2 : holds st (l1 ++ u :: l2) -> m_bOnList (node st u) = true ->
  holds (remove u st) (l1 ++ l2) /\ forall v, stamp (remove u st) v = stamp st v.
Proof.
  intros Hh Hon. destruct (unlink_holds _ _ _ _ Hh) as (H & Hs & _). unfold remove. rewrite Hon. cbn [negb]. fold (unlink u st). split.
  - pose proof (h_nodup _ _ Hh) as Hn. apply list.NoDup_app in Hn as (_ & N12 & [Nu _]%list.NoDup_cons).
    assert (Hu : u ∉ l1 ++ l2) by (rewrite elem_of_app; intros [Hu|Hu]; [by destruct (N12 u Hu); left|done]).
    destruct H. split; try done. by do 2 (apply linked_upd_out; [done|]).
  - intros v. by rewrite !stamp_upd.
Qed.

Lemma update_holds st l1 u l2 now : holds st (l1 ++ u :: l2) -> m_bOnList (node st u) = true ->
  holds (update u now st) (l1 ++ l2 ++ [u]) /\ stamp (update u now st) u = (now, true) /\ forall v, v <> u -> stamp (update u now st) v = stamp st v.
Proof.
  intros Hh Hon. unfold update. rewrite Hon. cbn [negb]. set (st1 := upd u (set_time now) st).
  assert (Hh1 : holds st1 (l1 ++ u :: l2)) by (destruct Hh; split; try done; by apply linked_upd_same).
  assert (Hs1 : forall v, stamp st1 v = if decide (v = u) then (now, true) else stamp st v).
  { intros v. unfold stamp, st1. rewrite unode_upd. case_decide; [cbn; by rewrite Hon|done]. }
  destruct (unlink_holds _ _ _ _ Hh1) as (H & Hs & Hp & Hnx).
  assert (En : m_pNext (node st u) = m_pNext (node st1 u) /\ m_pPrev (node st u) = m_pPrev (node st1 u)) by (unfold st1; rewrite unode_upd, decide_True by done; done).
  destruct En as [-> ->]. rewrite Hnx, Hp. destruct l2 as [|v l2]; cbn [head].
  - cbn [app]. split; [done|]. split; [by rewrite Hs1, decide_True|]. intros v Hv. by rewrite Hs1, decide_False.
  - assert (E : match list.last l1 with None => upd v (set_prev None) (set_m_pUList (Some v) st1)
                | Some p => upd v (set_prev (Some p)) (upd p (set_next (Some v)) st1) end = unlink u st1).
    { unfold unlink. rewrite Hp, Hnx. cbn [head]. by destruct (list.last l1). }
    rewrite E. pose proof (h_nodup _ _ Hh) as Hn. apply list.NoDup_app in Hn as (_ & N12 & [Nu _]%list.NoDup_cons).
    destruct (append_holds (unlink u st1) (l1 ++ v :: l2) u H) as [Hap Hst].
    { rewrite elem_of_app. intros [Hu|Hu]; [by destruct (N12 u Hu); left|done]. }
    { by destruct l1. }
    rewrite <- app_assoc in Hap. split; [done|]. split; [by rewrite Hst, Hs, Hs1, decide_True|]. intros w Hw. by rewrite Hst, Hs, Hs1, decide_False.
Qed.
End RcvUList.

(** ** The table is an association list *)

Module RcvHash.
Import CHash.

Definition slot (n : nat) (id : Z) : nat := Z.to_nat (Z.rem id (Z.of_nat n)).

(** Bucket [i] is the part of the entries, newest first, that belongs there. *)
Record hash_ok (st : t) (entries : list (Z * Z)) : Prop := {
  c_size : (0 < length st)%nat;
  c_bucket : forall i, (i < length st)%nat -> st !! i = Some (filter (fun e => slot (length st) e.1 = i) entries)
}.

Lemma init_ok size : (0 < size)%nat -> hash_ok (init size) [].
Proof. intros H. unfold init. split; rewrite length_replicate; [done|]. intros i Hi. rewrite filter_nil. by apply lookup_replicate_2. Qed.

Lemma bucket_ok id st : 0 <= id -> (0 < length st)%nat -> bucket id st = Some (slot (length st) id) /\ (slot (length st) id < length st)%nat.
Proof.
  intros Hid Hn. unfold bucket, slot. change (zlen st) with (Z.of_nat (length st)). cbv zeta. pose proof (Z.rem_bound_pos id (Z.of_nat (length st)) Hid ltac:(lia)) as [H1 H2].
  set (r := Z.rem _ _) in *. destruct (Z.leb_spec 0 r), (Z.ltb_spec r (Z.of_nat (length st))); cbn; try lia. split; [done|lia].
Qed.

Fixpoint assoc (id : Z) (entries : list (Z * Z)) : option Z :=
  match entries with [] => None | (k, u) :: l => if id =? k then Some u else assoc id l end.

Fixpoint unassoc (id : Z) (entries : list (Z * Z)) : list (Z * Z) :=
  match entries with [] => [] | (k, u) :: l => if id =? k then l else (k, u) :: unassoc id l end.

Lemma chain_lookup_filter n id entries : chain_lookup id (filter (fun e => slot n e.1 = slot n id) entries) = assoc id entries.
Proof.
  induction entries as [|[k u] l IH]; [done|]. rewrite filter_cons. cbn [assoc fst]. destruct (id =? k) eqn:E.
  - apply Z.eqb_eq in E as ->. rewrite decide_True by done. cbn. by rewrite Z.eqb_refl.
  - case_decide; [cbn; by rewrite E, IH|done].
Qed.

Lemma chain_remove_filter n id entries : chain_remove id (filter (fun e => slot n e.1 = slot n id) entries) = filter (fun e => slot n e.1 = slot n id) (unassoc id entries).
Proof.
  induction entries as [|[k u] l IH]; [done|]. rewrite filter_cons. cbn [unassoc fst]. destruct (id =? k) eqn:E.
  - apply Z.eqb_eq in E as ->. rewrite decide_True by done. cbn. by rewrite Z.eqb_refl.
  - rewrite filter_cons. cbn [fst]. case_decide; [cbn; by rewrite E, IH|done].
Qed.

Lemma unassoc_other n id i entries : i <> slot n id -> filter (fun e => slot n e.1 = i) (unassoc id entries) = filter (fun e => slot n e.1 = i) entries.
Proof.
  intros Hi. induction entries as [|[k u] l IH]; [done|]. rewrite filter_cons. cbn [unassoc fst]. destruct (id =? k) eqn:E.
  - apply Z.eqb_eq in E as ->. by rewrite decide_False.
  - rewrite filter_cons. cbn [fst]. by rewrite IH.
Qed.

Lemma lookup_ok st entries id : hash_ok st entries -> 0 <= id -> CHash.lookup id st = Some (assoc id entries).
Proof.
  intros [Hn Hb] Hid. unfold CHash.lookup. destruct (bucket_ok id st Hid Hn) as [-> Hs]. cbn. rewrite (Hb _ Hs). cbn. by rewrite chain_lookup_filter.
Qed.

Lemma insert_ok st entries id u : hash_ok st entries -> 0 <= id -> exists st', CHash.insert id u st = Some st' /\ hash_ok st' ((id, u) :: entries).
Proof.
  intros [Hn Hb] Hid. unfold CHash.insert. destruct (bucket_ok id st Hid Hn) as [-> Hs]. cbn. rewrite (Hb _ Hs). cbn. eexists. split; [reflexivity|].
  split; rewrite length_insert; [done|]. intros i Hi. rewrite filter_cons. cbn [fst]. case_decide as E.
  - subst i. rewrite list_lookup_insert_eq by done. done.
  - rewrite list_lookup_insert_ne by done. by apply Hb.
Qed.

Lemma hash_remove_ok st entries id : hash_ok st entries -> 0 <= id -> exists st', CHash.remove id st = Some st' /\ hash_ok st' (unassoc id entries).
Proof.
  intros [Hn Hb] Hid. unfold CHash.remove. destruct (bucket_ok id st Hid Hn) as [-> Hs]. cbn. rewrite (Hb _ Hs). cbn. eexists. split; [reflexivity|].
  split; rewrite length_insert; [done|]. intros i Hi. destruct (decide (i = slot (length st) id)) as [->|E].
  - rewrite list_lookup_insert_eq by done. by rewrite chain_remove_filter.
  - rewrite list_lookup_insert_ne by done. rewrite (Hb i Hi). by rewrite unassoc_other.
Qed.

Lemma assoc_iff id u entries : NoDup entries.*1 -> assoc id entries = Some u <-> (id, u) ∈ entries.
Proof.
  induction entries as [|[k v] l IH]; cbn [assoc fmap list_fmap fst]; [intros; split; [done|by intros ?%not_elem_of_nil]|]. intros [Hk Hn]%list.NoDup_cons.
  rewrite elem_of_cons. destruct (id =? k) eqn:E.
  - apply Z.eqb_eq in E as ->. split; [intros [= ->]; by left|]. intros [[= ->]|Hin]; [done|]. exfalso. apply Hk. apply list_elem_of_fmap. by exists (k, u).
  - rewrite (IH Hn). split; [by right|]. intros [[= -> ->]|H]; [by rewrite Z.eqb_refl in E|done].
Qed.

Lemma assoc_none id entries : assoc id entries = None <-> id ∉ entries.*1.
Proof.
  induction entries as [|[k v] l IH]; cbn [assoc fmap list_fmap fst]; [split; [intros _; apply not_elem_of_nil|done]|].
  rewrite not_elem_of_cons, <- IH. destruct (Z.eqb_spec id k); [split; [done|intros [? _]; done]|tauto].
Qed.

Lemma unassoc_in id k u entries : NoDup entries.*1 -> (k, u) ∈ unassoc id entries <-> (k, u) ∈ entries /\ k <> id.
Proof.
  induction entries as [|[j v] l IH]; cbn [unassoc fmap list_fmap fst]; [intros _; split; [intros ?%not_elem_of_nil|intros [?%not_elem_of_nil _]]; done|].
  intros [Hj Hn]%list.NoDup_cons. assert (Hjl : forall w, (j, w) ∉ l) by (intros w Hw; apply Hj; apply list_elem_of_fmap; by exists (j, w)).
  rewrite elem_of_cons. destruct (Z.eqb_spec id j) as [->|Hne].
  - split; [|intros [[[= -> ->]|H] ?]; done]. intros Hin. split; [by right|]. intros ->. by apply (Hjl u).
  - rewrite elem_of_cons, (IH Hn). split; [intros [[= -> ->]|[? ?]]; auto|]. intros [[[= -> ->]|H] ?]; auto.
Qed.

Lemma unassoc_nodup id entries : NoDup entries.*1 -> NoDup (unassoc id entries).*1.
Proof.
  induction entries as [|[j v] l IH]; cbn [unassoc fmap list_fmap fst]; [done|]. intros [Hj Hn]%list.NoDup_cons. destruct (id =? j); [done|].
  cbn [fmap list_fmap fst]. apply list.NoDup_cons. split; [|by apply IH]. intros ([k w] & E & Hin)%list_elem_of_fmap. cbn in E. subst k. apply unassoc_in in Hin as [Hin _]; [|done].
  apply Hj. apply list_elem_of_fmap. by exists (j, w).
Qed.
End RcvHash.
