(* ===== verification/RcvQueueRun.v ===== *)
(** What the worker of the receiver queue does, packet after packet, against a
    plain specification: a list of the connected sockets in the order of their
    last activity, the sockets that wait, the connecting ones and the packets
    kept for them. *)
From stdpp Require Import gmap sorting functions.
From S2P Require Import Prelude Packet RcvQueue RcvQueueInv.
Import CRcvQueue.

Module RcvQueueSpec.
Section Spec.
Context {A : Type} `{EqDecision A}.
Context (cf : Z -> conf (A := A)) (clk : nat -> Z).
Local Notation CRL := (CRendezvousQueue.CRL (A := A)).

(** [active] pairs a socket with the time of its last activity, oldest first;
    [stored id] are the packets kept for the socket number [id]. *)
Record spec := mkSpec { active : list (Z * Z); waiting : list Z; listener : option Z; connectors : list CRL; stored : Z -> list CPacket.t }.

Definition empty : spec := mkSpec [] [] None [] (fun _ => []).

(** The sockets [us] with the readings of the clock from number [k] on. *)
Fixpoint stamped (k : nat) (us : list Z) : list (Z * Z) :=
  match us with [] => [] | u :: us => (u, clk k) :: stamped (S k) us end.

Definition take (s : spec) (k : nat) : spec * nat :=
  (mkSpec (active s ++ stamped k (waiting s)) [] (listener s) (connectors s) (stored s), (k + length (waiting s))%nat).

(** The connecting socket a packet from [addr] is for. *)
Definition is_for (addr : A) (id : Z) (r : CRL) : bool :=
  bool_decide (CRendezvousQueue.m_PeerAddr r = addr) &&
  (if id =? 0 then bRendezvous (cf (CRendezvousQueue.m_pUDT r)) else CRendezvousQueue.m_iID r =? id).

Definition connecting (addr : A) (id : Z) (s : spec) : dispatch :=
  match list_find (fun r => is_for addr id r = true) (connectors s) with
  | None => Unknown
  | Some (_, r) => if bSynRecving (cf (CRendezvousQueue.m_pUDT r)) then StoreFor (CRendezvousQueue.m_iID r)
                   else AsyncConnect (CRendezvousQueue.m_pUDT r) (CRendezvousQueue.m_iID r)
  end.

Definition find_active (id : Z) (s : spec) : option Z :=
  snd <$> list_find (fun u => m_SocketID (cf u) = id) (active s).*1.

Definition route (info : Z -> status) (id : Z) (addr : A) (s : spec) : dispatch :=
  if id <? 0 then Negative
  else if id =? 0 then match listener s with Some u => Listener u | None => connecting addr 0 s end
  else match find_active id s with
       | None => connecting addr id s
       | Some u => if bool_decide (addr = m_PeerAddr (cf u)) then if running (info u) then Deliver u else Closing u else Foreign u
       end.

Definition store (id : Z) (pkt : CPacket.t) (s : spec) : spec :=
  mkSpec (active s) (waiting s) (listener s) (connectors s)
    (if Nat.ltb (length (stored s id)) 17 then <[id := stored s id ++ [pkt]]> (stored s) else stored s).

Definition touch (u : Z) (k : nat) (s : spec) : spec :=
  mkSpec (filter (fun e => e.1 <> u) (active s) ++ [(u, clk k)]) (waiting s) (listener s) (connectors s) (stored s).

Definition handle (pkt : CPacket.t) (d : dispatch) (s : spec) (k : nat) : spec * nat :=
  match d with Deliver u => (touch u k s, S k) | StoreFor id => (store id pkt s, k) | _ => (s, k) end.

(** Every socket that was not active for the interval has its turn: it moves
    to the end, or goes when it is not connected any more. *)
Definition timers (info : Z -> status) (s : spec) (k : nat) : spec * list Z * nat :=
  let late e := e.2 < clk k - COMM_SYN_INTERVAL_US in
  let served := filter (fun u => running (info u) = true) (filter late (active s)).*1 in
  (mkSpec (filter (fun e => ~ late e) (active s) ++ stamped (S k) served) (waiting s) (listener s) (connectors s) (stored s), served, (S k + length served)%nat).

Definition turn (info : Z -> status) (r : reading) (again : bool) (s : spec) (k : nat) : spec * nat * option dispatch * option (list Z) :=
  let '(s, k) := take s k in
  match r with
  | RST_ERROR => (s, k, None, None)
  | RST_AGAIN => let '(s, served, k) := timers info s k in (s, k, None, Some served)
  | RST_OK id addr pkt =>
      let d := route info id addr s in
      let '(s, k) := handle pkt d s k in
      if reads_on again d then (s, k, Some d, None)
      else let '(s, served, k) := timers info s k in (s, k, Some d, Some served)
  end.

(** What other threads do with the queue, and the turns of its worker. *)
Inductive event :=
  | Enter (u : Z)
  | Listen (u : Z) | NoListen (u : Z)
  | Connector (id u : Z) (addr : A) (ttl : Z) | NoConnector (id : Z)
  | Fetch (id len : Z)
  | Turn (info : Z -> status) (r : reading (A := A)) (again : bool).

Inductive output := Nothing | Done (b : bool) | Fetched (p : option CPacket.t) | Turned (d : option dispatch) (served : option (list Z)).

Definition exec1 (fuel : nat) (e : event) (s : CRcvQueue.t * nat) : option (CRcvQueue.t * nat * output) :=
  let '(st, k) := s in
  match e with
  | Enter u => Some (enter u st, k, Nothing)
  | Listen u => let '(st, b) := setListener u st in Some (st, k, Done b)
  | NoListen u => let '(st, b) := removeListener u st in Some (st, k, Done b)
  | Connector id u addr ttl => Some (registerConnector id u addr ttl st, k, Nothing)
  | NoConnector id => Some (removeConnector id st, k, Nothing)
  | Fetch id len => let '(st, p) := recvfrom id len st in Some (st, k, Fetched p)
  | Turn info r again => ('(st, k, d, served) ← worker cf clk fuel info r again st k; Some (st, k, Turned d served))
  end.

Definition spec1 (e : event) (s : spec * nat) : spec * nat * output :=
  let '(s, k) := s in
  match e with
  | Enter u => (mkSpec (active s) (waiting s ++ [u]) (listener s) (connectors s) (stored s), k, Nothing)
  | Listen u => (mkSpec (active s) (waiting s) (match listener s with None => Some u | l => l end) (connectors s) (stored s), k,
                 Done (match listener s with None => true | _ => false end))
  | NoListen u => let b := bool_decide (listener s = Some u) in
                  (mkSpec (active s) (waiting s) (if b then None else listener s) (connectors s) (stored s), k, Done b)
  | Connector id u addr ttl =>
      (mkSpec (active s) (waiting s) (listener s) (connectors s ++ [CRendezvousQueue.mkCRL id u addr ttl]) (stored s), k, Nothing)
  | NoConnector id =>
      (mkSpec (active s) (waiting s) (listener s) (CRendezvousQueue.remove id (connectors s)) (<[id := []]> (stored s)), k, Nothing)
  | Fetch id len =>
      match stored s id with
      | pkt :: q => if CPacket.getLength pkt <=? len
                    then (mkSpec (active s) (waiting s) (listener s) (connectors s) (<[id := q]> (stored s)), k, Fetched (Some pkt))
                    else (s, k, Fetched None)
      | [] => (s, k, Fetched None)
      end
  | Turn info r again => let '(s, k, d, served) := turn info r again s k in (s, k, Turned d served)
  end.

Fixpoint exec (fuel : nat) (es : list event) (s : CRcvQueue.t * nat) : option (CRcvQueue.t * nat * list output) :=
  match es with
  | [] => Some (s.1, s.2, [])
  | e :: es => '(st, k, o) ← exec1 fuel e s; '(st, k, os) ← exec fuel es (st, k); Some (st, k, o :: os)
  end.

Fixpoint run (es : list event) (s : spec * nat) : spec * nat * list output :=
  match es with
  | [] => (s.1, s.2, [])
  | e :: es => let '(s, k, o) := spec1 e s in let '(s, k, os) := run es (s, k) in (s, k, o :: os)
  end.

(** A socket enters that is not in the queue; its number is its own. *)
Fixpoint allowed (es : list event) (s : spec * nat) : Prop :=
  match es with
  | [] => True
  | e :: es =>
      match e with Enter u => (m_SocketID (cf u) ∉ ((fun v => m_SocketID (cf v)) <$> ((active s.1).*1 ++ waiting s.1))) /\ 0 <= m_SocketID (cf u) | _ => True end /\
      allowed es (spec1 e s).1
  end.

#[export] Instance allowed_dec es s : Decision (allowed es s).
Proof. revert s. induction es as [|e es IH]; intros s; cbn [allowed]; [apply _|]. apply and_dec; [destruct e; apply _|apply IH]. Defined.
End Spec.
End RcvQueueSpec.

(** ** The list and the table together *)

Module RcvQueueInv.
Import RcvQueueSpec RcvUList RcvHash.
Section Inv.
Context {A : Type} `{EqDecision A}.
Context (cf : Z -> conf (A := A)) (clk : nat -> Z).
Local Notation sid u := (m_SocketID (cf u)).

(** The list [l] and the table [h] hold the sockets [act]. *)
Record listed (l : CRcvUList.t) (h : CHash.t) (act : list (Z * Z)) : Prop := {
  l_list : holds l act.*1;
  l_stamp : forall u x, (u, x) ∈ act -> stamp l u = (x, true);
  l_ids : NoDup ((fun u => sid u) <$> act.*1);
  l_pos : forall u, u ∈ act.*1 -> 0 <= sid u;
  l_table : exists entries, hash_ok h entries /\ NoDup entries.*1 /\ forall id u, (id, u) ∈ entries <-> u ∈ act.*1 /\ id = sid u
}.

Lemma fst_in (act : list (Z * Z)) u x : (u, x) ∈ act -> u ∈ act.*1.
Proof. intros H. apply list_elem_of_fmap. by exists (u, x). Qed.

Lemma listed_insert l h act u x : listed l h act -> sid u ∉ (fun v => sid v) <$> act.*1 -> 0 <= sid u -> (stamp l u).2 = true ->
  exists h', CHash.insert (sid u) u h = Some h' /\ listed (CRcvUList.insert u x l) h' (act ++ [(u, x)]) /\
    forall v, v <> u -> stamp (CRcvUList.insert u x l) v = stamp l v.
Proof.
  intros [Hl Hs Hi Hp (es & He & Hn & Hes)] Hid Hpos Hon.
  assert (Hu : u ∉ act.*1) by (intros Hu; apply Hid, list_elem_of_fmap; eauto).
  destruct (insert_ok h es (sid u) u He Hpos) as (h' & Eh & Hh'). exists h'. split; [done|].
  destruct (insert_holds l act.*1 u x Hl Hu) as (H1 & H2 & H3). split; [|done]. split.
  - by rewrite fmap_app.
  - intros v y [Hv|[= -> ->]%list_elem_of_singleton]%elem_of_app; [|by rewrite H2; cbn in Hon; rewrite Hon].
    rewrite H3; [by apply Hs|]. intros ->. by apply Hu, (fst_in _ _ y).
  - rewrite !fmap_app. apply list.NoDup_app. split; [done|]. split; [|by apply NoDup_singleton]. intros z Hz ->%list_elem_of_singleton. done.
  - rewrite fmap_app. intros v [Hv| ->%list_elem_of_singleton]%elem_of_app; [by apply Hp|done].
  - exists ((sid u, u) :: es). split; [done|]. split.
    + cbn. apply list.NoDup_cons. split; [|done]. intros ([i v] & E & Hin)%list_elem_of_fmap. cbn in E. subst i. apply Hes in Hin as [Hv Ev].
      apply Hid, list_elem_of_fmap. eauto.
    + intros i v. rewrite elem_of_cons, Hes, fmap_app, elem_of_app. change ([(u, x)].*1) with [u]. rewrite list_elem_of_singleton. split; [intros [[= -> ->]|[? ?]]; auto|].
      intros [[?| ->] ->]; auto.
Qed.

Lemma listed_middle l h a1 u x a2 : listed l h (a1 ++ (u, x) :: a2) ->
  holds l (a1.*1 ++ u :: a2.*1) /\ CRcvUList.m_bOnList (CRcvUList.node l u) = true /\ (u ∉ (a1.*1 ++ a2.*1)) /\ 0 <= sid u.
Proof.
  intros [Hl Hs Hi Hp _]. rewrite fmap_app in Hl, Hp. cbn in Hl, Hp. split; [done|]. split; [|split].
  - pose proof (Hs u x ltac:(apply elem_of_app; right; by left)) as E. by inversion E.
  - pose proof (h_nodup _ _ Hl) as Hn. apply list.NoDup_app in Hn as (_ & N12 & [Nu _]%list.NoDup_cons). rewrite elem_of_app.
    intros [Hu|Hu]; [by destruct (N12 u Hu); left|done].
  - apply Hp, elem_of_app. right. by left.
Qed.

Lemma in_middle {X} (y : X) l1 x l2 : y ∈ l1 ++ x :: l2 <-> y = x \/ y ∈ l1 ++ l2.
Proof. rewrite !elem_of_app, elem_of_cons. tauto. Qed.

Lemma listed_update l h a1 u x a2 y : listed l h (a1 ++ (u, x) :: a2) ->
  listed (CRcvUList.update u y l) h (a1 ++ a2 ++ [(u, y)]) /\ forall v, v <> u -> stamp (CRcvUList.update u y l) v = stamp l v.
Proof.
  intros H. destruct (listed_middle _ _ _ _ _ _ H) as (Hl & Hon & Hu & Hpos). destruct H as [_ Hs Hi Hp (es & He & Hn & Hes)].
  destruct (update_holds l a1.*1 u a2.*1 y Hl Hon) as (H1 & H2 & H3). split; [|done].
  assert (Hperm : (a1 ++ a2 ++ [(u, y)]).*1 ≡ₚ (a1 ++ (u, x) :: a2).*1).
  { rewrite !fmap_app. cbn. f_equiv. by rewrite Permutation_app_comm. }
  split.
  - by rewrite !fmap_app.
  - intros v z Hv. rewrite app_assoc, elem_of_app in Hv. destruct Hv as [Hv|[= -> ->]%list_elem_of_singleton]; [|done].
    rewrite H3; [|intros ->; apply Hu; rewrite <- fmap_app; by apply fst_in in Hv]. apply Hs, in_middle. by right.
  - by rewrite Hperm.
  - intros v. rewrite Hperm. apply Hp.
  - exists es. split; [done|]. split; [done|]. intros i v. rewrite Hperm. apply Hes.
Qed.

Lemma listed_remove l h a1 u x a2 : listed l h (a1 ++ (u, x) :: a2) ->
  exists h', CHash.remove (sid u) h = Some h' /\
    listed (CRcvUList.upd u (CRcvUList.set_on_list false) (CRcvUList.remove u l)) h' (a1 ++ a2) /\
    forall v, v <> u -> stamp (CRcvUList.upd u (CRcvUList.set_on_list false) (CRcvUList.remove u l)) v = stamp l v.
Proof.
  intros H. destruct (listed_middle _ _ _ _ _ _ H) as (Hl & Hon & Hu & Hpos). destruct H as [_ Hs Hi Hp (es & He & Hn & Hes)].
  destruct (hash_remove_ok h es (sid u) He Hpos) as (h' & Eh & Hh'). exists h'. split; [done|].
  destruct (ulist_remove_holds l a1.*1 u a2.*1 Hl Hon) as (H1 & H2).
  assert (Hst : forall v, v <> u -> stamp (CRcvUList.upd u (CRcvUList.set_on_list false) (CRcvUList.remove u l)) v = stamp l v).
  { intros v Hv. rewrite <- H2. unfold stamp. by rewrite unode_upd, decide_False. }
  split; [|done]. rewrite <- fmap_app in Hu, H1.
  assert (Hperm : (a1 ++ (u, x) :: a2).*1 ≡ₚ u :: (a1 ++ a2).*1) by (rewrite !fmap_app; cbn; by rewrite Permutation_middle).
  rewrite Hperm in Hi. cbn in Hi. apply list.NoDup_cons in Hi as [Hi1 Hi2]. split.
  - destruct H1. split; try done. by apply linked_upd_out.
  - intros v z Hv. rewrite Hst by (intros ->; by apply Hu, (fst_in _ _ z)). apply Hs, in_middle. by right.
  - done.
  - intros v Hv. apply Hp. rewrite Hperm. by right.
  - exists (unassoc (sid u) es). split; [done|]. split; [by apply unassoc_nodup|]. intros i v. rewrite unassoc_in, Hes, Hperm, elem_of_cons by done. split.
    + intros [[[->|Hv] ->] Hne]; [done|auto].
    + intros [Hv ->]. split; [auto|]. intros E. apply Hi1. rewrite <- E. apply list_elem_of_fmap. eauto.
Qed.

(** The table finds the socket with the number. *)
Lemma listed_lookup l h act s id : listed l h act -> active s = act -> 0 <= id -> CHash.lookup id h = Some (find_active cf id s).
Proof.
  intros [_ _ Hi _ (es & He & Hn & Hes)] <- Hid. rewrite (lookup_ok _ _ _ He Hid). f_equal. unfold find_active.
  destruct (list_find _ _) as [[i u]|] eqn:E; cbn.
  - apply list_find_Some in E as (Hiu & Eu & _). apply assoc_iff; [done|]. apply Hes. split; [|done]. by eapply list_elem_of_lookup_2.
  - apply assoc_none. intros ([j u] & -> & Hin)%list_elem_of_fmap. apply Hes in Hin as [Hu Ej].
    apply list_find_None in E. rewrite List.Forall_forall in E. apply (E u); [by apply list_elem_of_In|done].
Qed.

Lemma retrieve_ok addr i conns : CRendezvousQueue.retrieve (fun u => bRendezvous (cf u)) addr i conns =
  (fun p => (CRendezvousQueue.m_pUDT p.2, CRendezvousQueue.m_iID p.2)) <$> list_find (fun r => is_for cf addr i r = true) conns.
Proof.
  induction conns as [|r l IH]; [done|]. cbn [CRendezvousQueue.retrieve list_find].
  assert (E : is_for cf addr i r = bool_decide (CRendezvousQueue.m_PeerAddr r = addr) && ((i =? 0) || (i =? CRendezvousQueue.m_iID r)) &&
    negb ((i =? 0) && negb (bRendezvous (cf (CRendezvousQueue.m_pUDT r))))).
  { unfold is_for. destruct (bool_decide _); [|done]. cbn [andb]. destruct (Z.eqb_spec i 0) as [->|Hi]; cbn [orb andb negb]; [by rewrite negb_involutive|].
    by rewrite andb_true_r, Z.eqb_sym. }
  destruct (bool_decide _ && _) eqn:Ea; [destruct ((i =? 0) && _) eqn:Eb|]; cbn [andb negb] in E.
  2: by rewrite decide_True.
  all: rewrite decide_False by (by rewrite E); rewrite IH; by destruct (list_find _ l) as [[? ?]|].
Qed.

(** *** The waiting sockets are taken in *)

Lemma stamped_fst k us : (stamped clk k us).*1 = us.
Proof. revert k. induction us as [|u us IH]; intros k; [done|]. cbn. by rewrite IH. Qed.

Lemma take_loop st us k act : m_vNewEntry st = us -> listed (m_pRcvUList st) (m_pHash st) act ->
  NoDup ((fun u => sid u) <$> (act.*1 ++ us)) -> (forall u, u ∈ us -> 0 <= sid u /\ (stamp (m_pRcvUList st) u).2 = true) ->
  exists l h, loop (S (length us)) (take_new_step cf clk) (st, k) = Some (Some (set_new [] (set_lists l h st), (k + length us)%nat)) /\
    listed l h (act ++ stamped clk k us).
Proof.
  revert st k act. induction us as [|u us IH]; intros st k act Hn Hl Hd Hu.
  - exists (m_pRcvUList st), (m_pHash st). cbn [loop take_new_step]. unfold getNewEntry. rewrite Hn. split; [|by rewrite app_nil_r].
    cbn. repeat f_equal; [|lia]. destruct st. cbn in *. by subst.
  - destruct (Hu u) as [Hpos Hon]; [by left|]. rewrite !fmap_app in Hd. pose proof Hd as (Hd1 & Hd2 & Hd3)%list.NoDup_app.
    cbn in Hd3. apply list.NoDup_cons in Hd3 as [Hd3 Hd4].
    destruct (listed_insert _ _ _ u (clk k) Hl) as (h & Eh & Hl' & Hst); [intros Hin; apply (Hd2 _ Hin); by left|done|done|].
    destruct (IH (set_new us (set_lists (CRcvUList.insert u (clk k) (m_pRcvUList st)) h st)) (S k) (act ++ [(u, clk k)])) as (l' & h' & E & Hl'').
    + done.
    + exact Hl'.
    + rewrite !fmap_app. cbn [fmap list_fmap fst]. rewrite <- (app_assoc _ [_]). exact Hd.
    + intros v Hv. cbn [set_new set_lists m_pRcvUList]. rewrite Hst; [apply Hu; by right|]. intros ->. apply Hd3, list_elem_of_fmap. eauto.
    + exists l', h'. split.
      * cbn [length]. remember (S (length us)) as f. cbn [loop take_new_step]. unfold getNewEntry. rewrite Hn.
        change (m_pHash (set_new us st)) with (m_pHash st). rewrite Eh.
        change (set_lists _ h (set_new us st)) with (set_new us (set_lists (CRcvUList.insert u (clk k) (m_pRcvUList st)) h st)).
        rewrite E. do 3 f_equal. lia.
      * cbn [stamped]. by rewrite <- app_assoc in Hl''.
Qed.

(** *** The timers *)

Lemma sweep_loop info limit st due : forall rest k served fuel, listed (m_pRcvUList st) (m_pHash st) (due ++ rest) ->
  Forall (fun e => e.2 < limit) due -> Forall (fun e => limit <= e.2) rest -> (forall j, (k <= j)%nat -> limit <= clk j) -> (length due < fuel)%nat ->
  let now := filter (fun u => running (info u) = true) due.*1 in
  exists l h, loop fuel (sweep_step cf clk info limit) (st, served, k) = Some (Some (set_lists l h st, served ++ now, (k + length now)%nat)) /\
    listed l h (rest ++ stamped clk k now) /\ forall v, v ∉ due.*1 -> stamp l v = stamp (m_pRcvUList st) v.
Proof.
  revert st. induction due as [|[u x] due IH]; intros st rest k served fuel Hl Hd Hr Hc Hf; (destruct fuel as [|fuel]; [cbn in Hf; lia|]); cbn zeta.
  - exists (m_pRcvUList st), (m_pHash st). split; [|split; [by rewrite app_nil_r|done]]. cbn [loop sweep_step]. rewrite (h_first _ _ (l_list _ _ _ Hl)).
    assert (E : set_lists (m_pRcvUList st) (m_pHash st) st = st) by (by destruct st). rewrite E. cbn [app fmap list_fmap filter list_filter length]. rewrite app_nil_r, Nat.add_0_r.
    destruct rest as [|[u x] rest]; [done|]. cbn [app fmap list_fmap head fst]. pose proof (f_equal fst (l_stamp _ _ _ Hl u x ltac:(by left))) as Et. unfold stamp in Et. cbn [fst] in Et.
    rewrite Et. apply Forall_inv in Hr. cbn in Hr. by rewrite (proj2 (Z.ltb_ge _ _) Hr).
  - apply list.Forall_cons in Hd as [Hx Hd]. cbn in Hx. cbn [loop sweep_step]. rewrite (h_first _ _ (l_list _ _ _ Hl)). cbn [app fmap list_fmap head fst].
    pose proof (f_equal fst (l_stamp _ _ _ Hl u x ltac:(by left))) as Et. unfold stamp in Et. cbn [fst] in Et. rewrite Et, (proj2 (Z.ltb_lt _ _) Hx). cbn in Hf.
    rewrite filter_cons. case_decide as Er.
    + rewrite Er. destruct (listed_update _ _ [] u x (due ++ rest) (clk k) Hl) as [Hl' Hst]. cbn [app] in Hl'. rewrite <- app_assoc in Hl'.
      destruct (IH (set_lists (CRcvUList.update u (clk k) (m_pRcvUList st)) (m_pHash st) st) (rest ++ [(u, clk k)]) (S k) (served ++ [u]) fuel) as (l & h & E & Hl'' & Hst').
      * done.
      * done.
      * apply Forall_app_2; [done|]. apply Forall_singleton. by apply Hc.
      * intros j Hj. apply Hc. lia.
      * lia.
      * exists l, h. split; [rewrite E; cbn; rewrite <- app_assoc; do 3 f_equal; lia|]. split; [cbn [stamped]; by rewrite <- app_assoc in Hl''|].
        intros v [Hv1 Hv2]%not_elem_of_cons. rewrite Hst' by done. by apply Hst.
    + apply not_true_is_false in Er. rewrite Er. destruct (listed_remove _ _ [] u x (due ++ rest) Hl) as (h & Eh & Hl' & Hst). unfold removeFromLists. rewrite Eh. cbn.
      destruct (IH (set_lists (CRcvUList.upd u (CRcvUList.set_on_list false) (CRcvUList.remove u (m_pRcvUList st))) h st) rest k served fuel) as (l' & h' & E & Hl'' & Hst'); try done; [lia|].
      exists l', h'. split; [exact E|]. split; [done|]. intros v [Hv1 Hv2]%not_elem_of_cons. rewrite Hst' by done. by apply Hst.
Qed.

(** *** The list is in the order of time *)

Definition earlier (e e' : Z * Z) : Prop := e.2 <= e'.2.

Record timely (k : nat) (act : list (Z * Z)) : Prop := {
  ti_sorted : StronglySorted earlier act;
  ti_past : Forall (fun e => e.2 <= clk k) act
}.

Lemma forall_filter {X} (Q P : X -> Prop) `{!forall x, Decision (P x)} l : Forall Q l -> Forall Q (filter P l).
Proof. rewrite !list.Forall_forall. intros Hq x [_ Hx]%list_elem_of_filter. by apply Hq. Qed.

Lemma sublist_map {X Y} (f : X -> Y) l l' : l `sublist_of` l' -> (f <$> l) `sublist_of` (f <$> l').
Proof. induction 1; cbn; by constructor. Qed.

Lemma sorted_filter {X} (R : relation X) (P : X -> Prop) `{!forall x, Decision (P x)} l : StronglySorted R l -> StronglySorted R (filter P l).
Proof.
  induction l as [|x l IH]; [done|]. intros [Hx Hl]%StronglySorted_cons. rewrite filter_cons. case_decide; [|by apply IH].
  apply StronglySorted_cons. split; [|by apply IH]. by apply forall_filter.
Qed.

Lemma timely_filter k (P : Z * Z -> Prop) `{!forall x, Decision (P x)} act : timely k act -> timely k (filter P act).
Proof. intros [Hs Hp]. split; [by apply sorted_filter|by apply forall_filter]. Qed.

(** The late ones are a first part of it. *)
Lemma sorted_late act limit : StronglySorted earlier act ->
  let late e := e.2 < limit in act = filter late act ++ filter (fun e => ~ late e) act.
Proof.
  cbn zeta. induction act as [|e act IH]; [done|]. intros [He Hl]%StronglySorted_cons. rewrite !filter_cons. destruct (decide (e.2 < limit)) as [D|D].
  - rewrite decide_False by tauto. cbn. f_equal. by apply IH.
  - rewrite decide_True by done. assert (E : filter (fun e => e.2 < limit) act = []).
    { clear -He D. induction act as [|e' act IH]; [done|]. apply list.Forall_cons in He as [He' He]. unfold earlier in He'. rewrite filter_cons, decide_False by lia. by apply IH. }
    rewrite E. cbn. f_equal. rewrite (IH Hl) at 1. by rewrite E.
Qed.

Context (Hclk : forall i j, (i <= j)%nat -> clk i <= clk j).

Lemma timely_later k k' act : (k <= k')%nat -> timely k act -> timely k' act.
Proof. intros Hk [H1 H2]. split; [done|]. rewrite list.Forall_forall in H2 |- *. intros e He%H2. specialize (Hclk k k' Hk). lia. Qed.

Lemma timely_app k us act : timely k act -> timely (k + length us) (act ++ stamped clk k us).
Proof using Hclk.
  revert k act. induction us as [|u us IH]; intros k act H; cbn [stamped length]; [by rewrite Nat.add_0_r, app_nil_r|].
  specialize (IH (S k) (act ++ [(u, clk k)])). rewrite <- app_assoc in IH. replace (k + S (length us))%nat with (S k + length us)%nat by lia. apply IH.
  assert (H' := timely_later k (S k) act ltac:(lia) H). pose proof (Hclk k (S k) ltac:(lia)). destruct H as [H1 H2], H' as [_ H3]. split.
  - apply StronglySorted_app. split; [|split; [done|by repeat constructor]]. intros e e' He ->%list_elem_of_singleton. unfold earlier. cbn.
    rewrite List.Forall_forall in H2. apply H2. by apply list_elem_of_In.
  - apply Forall_app_2; [done|]. by apply Forall_singleton.
Qed.

(** *** The queue and the specification *)

Record refines (st : CRcvQueue.t) (s : spec (A := A)) (k : nat) : Prop := {
  r_listed : listed (m_pRcvUList st) (m_pHash st) (active s);
  r_waiting : m_vNewEntry st = waiting s;
  r_marks : forall u, u ∈ waiting s -> 0 <= sid u /\ (stamp (m_pRcvUList st) u).2 = true;
  r_ids : NoDup ((fun u => sid u) <$> ((active s).*1 ++ waiting s));
  r_timely : timely k (active s);
  r_listener : m_pListener st = listener s;
  r_connectors : m_pRendezvousQueue st = connectors s;
  r_stored : forall id, stored s id = default [] (m_mBuffer st !! id);
  r_nonempty : forall id, m_mBuffer st !! id <> Some [];
  r_bound : forall id, (length (stored s id) <= 17)%nat
}.

Lemma route_ok info id addr st s k : refines st s k -> worker_dispatch cf info id addr st = Some (route cf info id addr s).
Proof.
  intros [Hl _ _ _ _ Hli Hco _ _ _].
  assert (Hc : forall i, worker_TryAsyncRend_OrStore cf i addr st = connecting cf addr i s).
  { intros i. unfold worker_TryAsyncRend_OrStore, connecting. rewrite retrieve_ok, Hco. destruct (list_find _ _) as [[n r]|]; cbn; [|done]. by destruct (bSynRecving _). }
  unfold worker_dispatch, route. destruct (Z.ltb_spec id 0); [done|]. destruct (id =? 0).
  - unfold worker_ProcessConnectionRequest. by rewrite Hli, Hc.
  - unfold worker_ProcessAddressedPacket. rewrite (listed_lookup _ _ _ s id Hl eq_refl) by lia. cbn. f_equal. destruct (find_active cf id s) as [u|]; [|by apply Hc].
    unfold running. destruct (bool_decide _); cbn [negb]; [|done]. by destruct (m_bConnected (info u)), (m_bBroken (info u)), (m_bClosing (info u)).
Qed.

Lemma take_refines st s k : refines st s k ->
  exists st', take_new cf clk st k = Some (st', (take clk s k).2) /\ refines st' (take clk s k).1 (take clk s k).2.
Proof using Hclk.
  intros H. pose proof H as [Hl Hw Hm Hi Ht Hli Hco Hs Hn Hb]. destruct (take_loop st (waiting s) k (active s) Hw Hl Hi Hm) as (l & h & E & Hl').
  exists (set_new [] (set_lists l h st)). unfold take_new. rewrite Hw, E. cbn. split; [done|]. split; cbn; try done.
  - intros u ?%not_elem_of_nil. done.
  - by rewrite app_nil_r, fmap_app, stamped_fst.
  - by apply timely_app.
Qed.

Lemma timers_refines info fuel st s k : refines st s k -> (length (active s) < fuel)%nat ->
  let '(s', served, k') := timers clk info s k in
  exists st', sweep cf clk fuel info st k = Some (st', served, k') /\ refines st' s' k'.
Proof using Hclk.
  intros H Hf. pose proof H as [Hl Hw Hm Hi Ht Hli Hco Hs Hn Hb]. unfold timers. cbn zeta. set (limit := clk k - COMM_SYN_INTERVAL_US).
  pose proof (sorted_late (active s) limit (ti_sorted _ _ Ht)) as Hsp. cbn zeta beta in Hsp.
  set (due := filter (fun e => e.2 < limit) (active s)) in *. set (rest := filter (fun e => ~ e.2 < limit) (active s)) in *.
  assert (Hsub : forall u, u ∈ due.*1 -> u ∈ (active s).*1) by (intros u Hu; rewrite Hsp, fmap_app; apply elem_of_app; by left).
  destruct (sweep_loop info limit st due rest (S k) [] fuel) as (l & h & E & Hl' & Hst).
  - by rewrite <- Hsp.
  - subst due. apply list.Forall_forall. intros e He. by apply list_elem_of_filter in He as [? _].
  - subst rest. apply list.Forall_forall. intros e He. apply list_elem_of_filter in He as [He _]. lia.
  - intros j Hj. specialize (Hclk k j ltac:(lia)). unfold limit, COMM_SYN_INTERVAL_US. lia.
  - rewrite Hsp, length_app in Hf. lia.
  - exists (set_lists l h st). unfold sweep. fold limit. rewrite E. cbn [mbind option_bind]. split; [done|]. split; cbn -[stamp]; try done.
    + intros u Hu. destruct (Hm u Hu) as [Hp Hu2]. split; [done|]. rewrite Hst; [done|]. intros Hd. rewrite fmap_app in Hi. apply list.NoDup_app in Hi as (_ & Hi & _).
      apply (Hi (sid u)); [|apply list_elem_of_fmap; eauto]. apply list_elem_of_fmap. exists u. split; [done|]. by apply Hsub.
    + rewrite !fmap_app, stamped_fst. revert Hi. rewrite Hsp at 1. rewrite !fmap_app, (Permutation_app_comm (_ <$> due.*1)). intros Hi.
      eapply sublist_NoDup; [exact Hi|]. apply sublist_app; [|done]. apply sublist_app; [done|]. apply sublist_map, sublist_filter.
    + change (S (k + length ?x))%nat with (S k + length x)%nat. apply timely_app. apply (timely_later k); [lia|]. by apply timely_filter.
Qed.

Lemma enter_refines st s k u : refines st s k -> sid u ∉ ((fun v => sid v) <$> ((active s).*1 ++ waiting s)) -> 0 <= sid u ->
  refines (enter u st) (mkSpec (active s) (waiting s ++ [u]) (listener s) (connectors s) (stored s)) k.
Proof.
  intros [Hl Hw Hm Hi Ht Hli Hco Hs Hn Hb] Hu Hp.
  assert (Hne : forall v, v ∈ (active s).*1 ++ waiting s -> v <> u) by (intros v Hv ->; apply Hu, list_elem_of_fmap; eauto).
  assert (Hst : forall v, v <> u -> stamp (CRcvUList.upd u (CRcvUList.set_on_list true) (m_pRcvUList st)) v = stamp (m_pRcvUList st) v).
  { intros v Hv. unfold stamp. by rewrite unode_upd, decide_False. }
  split; cbn -[stamp]; try done.
  - destruct Hl as [[L1 L2 L3 L4] Hs' ? ? ?]. split; try done.
    + split; try done. by apply linked_upd_same.
    + intros v x Hv. rewrite Hst; [by apply Hs'|]. apply Hne, elem_of_app. left. by eapply fst_in.
  - by rewrite Hw.
  - intros v [Hv| ->%list_elem_of_singleton]%elem_of_app; [|split; [done|]; unfold stamp; by rewrite unode_upd, decide_True].
    rewrite Hst; [by apply Hm|]. apply Hne, elem_of_app. by right.
  - rewrite app_assoc, fmap_app. apply list.NoDup_app. split; [done|]. split; [|by apply NoDup_singleton]. by intros z Hz ->%list_elem_of_singleton.
Qed.

Lemma find_active_in id s u : find_active cf id s = Some u -> u ∈ (active s).*1 /\ sid u = id.
Proof.
  unfold find_active. destruct (list_find _ _) as [[i v]|] eqn:E; [|done]. intros [= ->]. apply list_find_Some in E as (H1 & H2 & _). split; [by eapply list_elem_of_lookup_2|done].
Qed.

(** The packet handled is one for a socket of the list. *)
Lemma route_deliver info id addr s u : route cf info id addr s = Deliver u ->
  u ∈ (active s).*1 /\ sid u = id /\ addr = m_PeerAddr (cf u) /\ running (info u) = true.
Proof.
  assert (Hc : forall i, connecting cf addr i s <> Deliver u) by (intros i; unfold connecting; destruct (list_find _ _) as [[? ?]|]; [by destruct (bSynRecving _)|done]).
  unfold route. destruct (id <? 0); [done|]. destruct (id =? 0).
  - destruct (listener s); [done|]. intros E. by destruct (Hc 0).
  - destruct (find_active cf id s) as [v|] eqn:E; [|intros E'; by destruct (Hc id)]. apply find_active_in in E as [Hv Ev]. case_bool_decide as Ea; [|done].
    destruct (running _) eqn:Er; [|done]. by intros [= ->].
Qed.

Lemma touch_refines st s k u : refines st s k -> u ∈ (active s).*1 ->
  refines (set_lists (CRcvUList.update u (clk k) (m_pRcvUList st)) (m_pHash st) st) (touch clk u k s) (S k).
Proof using Hclk.
  intros [Hl Hw Hm Hi Ht Hli Hco Hs Hn Hb] Hu. apply list_elem_of_fmap in Hu as ([v x] & -> & Hin). cbn [fst].
  apply list_elem_of_split in Hin as (a1 & a2 & Ea). pose proof Hl as Hl0. rewrite Ea in Hl0. destruct (listed_update _ _ _ _ _ _ (clk k) Hl0) as [Hl' Hst].
  destruct (listed_middle _ _ _ _ _ _ Hl0) as (_ & _ & Hv & _).
  assert (Ef : filter (fun e : Z * Z => e.1 <> v) (active s) = a1 ++ a2).
  { rewrite Ea, list.filter_app, filter_cons, decide_False by (cbn; tauto). rewrite <- fmap_app in Hv. rewrite <- list.filter_app. clear -Hv. induction (a1 ++ a2) as [|[w y] l IH]; [done|].
    cbn in Hv. apply not_elem_of_cons in Hv as [Hv1 Hv2]. rewrite filter_cons, decide_True by (cbn; congruence). f_equal. by apply IH. }
  assert (Hperm : (a1 ++ a2 ++ [(v, clk k)]).*1 ≡ₚ (active s).*1) by (rewrite Ea, !fmap_app; cbn; f_equiv; by rewrite Permutation_app_comm).
  split; cbn -[stamp]; rewrite ?Ef; try done.
  - by rewrite <- app_assoc.
  - intros w Hw'. destruct (Hm w Hw') as [? Hm']. split; [done|]. rewrite Hst; [done|]. intros ->. rewrite fmap_app in Hi. apply list.NoDup_app in Hi as (_ & Hi & _).
    apply (Hi (sid v)); apply list_elem_of_fmap; exists v; (split; [done|]); [|done]. rewrite Ea, fmap_app. apply elem_of_app. right. by left.
  - by rewrite <- app_assoc, Hperm.
  - rewrite <- Ef. replace (S k) with (k + length [v])%nat by (cbn; lia). change ([(v, clk k)]) with (stamped clk k [v]). apply timely_app. by apply timely_filter.
Qed.

(** The packets kept for [id] change. *)
Lemma buffer_refines st s k b id q : refines st s k -> (length q <= 17)%nat -> (forall i, i <> id -> b !! i = m_mBuffer st !! i) ->
  b !! id = match q with [] => None | _ => Some q end ->
  refines (set_buffer b st) (mkSpec (active s) (waiting s) (listener s) (connectors s) (<[id := q]> (stored s))) k.
Proof.
  intros [Hl Hw Hm Hi Ht Hli Hco Hs Hn Hb] Hq Ho Hid. split; try done; cbn [stored m_mBuffer set_buffer]; intros i; (destruct (decide (i = id)) as [->|Hne]).
  - rewrite fn_lookup_insert, Hid. by destruct q.
  - by rewrite fn_lookup_insert_ne, Ho.
  - rewrite Hid. by destruct q.
  - by rewrite Ho.
  - by rewrite fn_lookup_insert.
  - by rewrite fn_lookup_insert_ne.
Qed.

Lemma store_refines st s k id pkt : refines st s k -> refines (storePktClone id pkt st) (store id pkt s) k.
Proof.
  intros H. pose proof (r_stored _ _ _ H id) as Eb. pose proof (r_bound _ _ _ H id) as Hb. unfold storePktClone, store.
  destruct (m_mBuffer st !! id) as [q|] eqn:E; cbn in Eb; rewrite Eb in *.
  - destruct (Nat.ltb_spec (length q) 17); destruct (zlen q >? 16) eqn:Ez; change (zlen q) with (Z.of_nat (length q)) in Ez; try lia; [|by destruct H; split].
    apply buffer_refines; [done|rewrite length_app; cbn; lia| |by rewrite lookup_insert_eq; destruct q]. intros i Hne. by rewrite lookup_insert_ne.
  - apply (buffer_refines st s k _ id [pkt]); [done|cbn; lia| |by rewrite lookup_insert_eq]. intros i Hne. by rewrite lookup_insert_ne.
Qed.

Lemma handle_refines info id addr pkt st s k : refines st s k -> let d := route cf info id addr s in
  exists st', worker_handle clk pkt d st k = (st', (handle clk pkt d s k).2) /\ refines st' (handle clk pkt d s k).1 (handle clk pkt d s k).2.
Proof using Hclk.
  intros H d. destruct d as [u'|u'|u'|u'|u' i|i| |] eqn:E; cbn [worker_handle handle fst snd]; eexists; (split; [reflexivity|]); try done.
  - apply touch_refines; [done|]. by apply route_deliver in E as (? & _).
  - by apply store_refines.
Qed.

Lemma others_length act u : NoDup ((fun v => sid v) <$> act.*1) -> u ∈ act.*1 -> S (length (filter (fun e : Z * Z => e.1 <> u) act)) = length act.
Proof.
  induction act as [|[w y] l IH]; cbn [fmap list_fmap fst]; intros Hn Hu; [by apply not_elem_of_nil in Hu|]. apply list.NoDup_cons in Hn as [Hn1 Hn2].
  rewrite filter_cons. cbn [fst]. destruct (decide (w = u)) as [->|Hne].
  - rewrite decide_False by tauto. cbn. f_equal. assert (Hu' : u ∉ l.*1) by (intros Hin; apply Hn1, list_elem_of_fmap; eauto). clear -Hu'.
    induction l as [|[w y] l IH]; [done|]. cbn in Hu'. apply not_elem_of_cons in Hu' as [? ?]. rewrite filter_cons. cbn [fst]. rewrite decide_True by congruence. cbn. f_equal. by apply IH.
  - rewrite decide_True by done. cbn. f_equal. apply IH; [done|]. by apply elem_of_cons in Hu as [->|].
Qed.

Lemma handle_length info id addr pkt st s k : refines st s k ->
  length (active (handle clk pkt (route cf info id addr s) s k).1) = length (active s).
Proof.
  intros H. destruct (route cf info id addr s) as [|u| | | | | |] eqn:Er; try done. apply route_deliver in Er as (Hu & _).
  rewrite <- (others_length (active s) u (l_ids _ _ _ (r_listed _ _ _ H)) Hu). cbn. rewrite length_app. cbn. lia.
Qed.

Lemma take_length (s : spec (A := A)) k : length (active (take clk s k).1) = (length (active s) + length (waiting s))%nat.
Proof. cbn. rewrite length_app. f_equal. by rewrite <- (stamped_fst k (waiting s)) at 2; rewrite length_fmap. Qed.

Lemma worker_refines fuel info r again st s k : refines st s k -> (length (active s) + length (waiting s) < fuel)%nat ->
  let '(s', k', d, served) := turn cf clk info r again s k in
  exists st', worker cf clk fuel info r again st k = Some (st', k', d, served) /\ refines st' s' k'.
Proof using Hclk.
  intros H Hf. destruct (take_refines _ _ _ H) as (st1 & E1 & H1). unfold turn, worker. rewrite E1. cbn [mbind option_bind].
  pose proof (take_length s k) as Hlen.
  destruct (take clk s k) as [s1 k1]. cbn [fst snd] in *. destruct r as [id addr pkt| |].
  - rewrite (route_ok info id addr _ _ _ H1). cbn [mbind option_bind]. destruct (handle_refines info id addr pkt _ _ _ H1) as (st2 & E2 & H2). rewrite E2.
    pose proof (handle_length info id addr pkt _ s1 k1 H1) as Hlen2.
    destruct (handle clk pkt _ s1 k1) as [s2 k2]. cbn [fst snd] in *. destruct (reads_on again _); [by exists st2|].
    pose proof (timers_refines info fuel _ _ _ H2 ltac:(lia)) as Ht. destruct (timers clk info s2 k2) as [[s3 served] k3]. destruct Ht as (st3 & E3 & H3).
    rewrite E3. by exists st3.
  - pose proof (timers_refines info fuel _ _ _ H1 ltac:(lia)) as Ht. destruct (timers clk info s1 k1) as [[s3 served] k3]. destruct Ht as (st3 & E3 & H3).
    rewrite E3. by exists st3.
  - by exists st1.
Qed.

Lemma exec1_refines fuel e es st s k : refines st s k -> allowed cf clk (e :: es) (s, k) -> (length (active s) + length (waiting s) < fuel)%nat ->
  let '(s', k', o) := spec1 cf clk e (s, k) in
  exists st', exec1 cf clk fuel e (st, k) = Some (st', k', o) /\ refines st' s' k'.
Proof using Hclk.
  intros H Hal Hf. cbn [allowed] in Hal. destruct Hal as [Hal _]. destruct e as [u|u|u|id u addr ttl|id|id len|info r again]; cbn [spec1 exec1 fst] in *.
  - destruct Hal as [Hu Hp]. eexists. split; [reflexivity|]. by apply enter_refines.
  - unfold setListener. rewrite (r_listener _ _ _ H). destruct (listener s) eqn:El; eexists; (split; [reflexivity|]); destruct H; split; cbn; (done || congruence).
  - unfold removeListener. rewrite (r_listener _ _ _ H). destruct (bool_decide _); eexists; (split; [reflexivity|]); destruct H; split; cbn; (done || congruence).
  - eexists. split; [reflexivity|]. destruct H as [? ? ? ? ? ? Hco ? ? ?]. split; try done. unfold registerConnector, CRendezvousQueue.insert. cbn. by rewrite Hco.
  - eexists. split; [reflexivity|]. unfold removeConnector.
    assert (H' : refines (set_rendezvous (CRendezvousQueue.remove id (m_pRendezvousQueue st)) st)
      (mkSpec (active s) (waiting s) (listener s) (CRendezvousQueue.remove id (connectors s)) (stored s)) k).
    { destruct H as [? ? ? ? ? ? Hco ? ? ?]. split; try done. cbn. by rewrite Hco. }
    apply (buffer_refines _ _ _ (delete id (m_mBuffer st)) id []) in H'; [exact H'|cbn; lia| |by rewrite lookup_delete_eq]. intros i Hne. by rewrite lookup_delete_ne.
  - unfold recvfrom. pose proof (r_stored _ _ _ H id) as Es. destruct (m_mBuffer st !! id) as [[|pkt q]|] eqn:E; cbn in Es; rewrite Es.
    + by destruct (r_nonempty _ _ _ H id).
    + rewrite Z.leb_antisym. destruct (len <? _); cbn [negb]; eexists; (split; [reflexivity|]); [done|].
      pose proof (r_bound _ _ _ H id) as Hb. rewrite Es in Hb. cbn in Hb. apply buffer_refines; [done|lia| |].
      * intros i Hne. by destruct q; rewrite ?lookup_delete_ne, ?lookup_insert_ne.
      * by destruct q; rewrite ?lookup_delete_eq, ?lookup_insert_eq.
    + eexists. split; [reflexivity|done].
  - pose proof (worker_refines fuel info r again _ _ _ H Hf) as Hw. destruct (turn cf clk info r again s k) as [[[s' k'] d] served]. destruct Hw as (st' & E & H').
    rewrite E. by exists st'.
Qed.

(** The number of sockets in the queue. *)
Definition population (s : spec (A := A)) : nat := length (active s) + length (waiting s).

Lemma timers_population info s k : (population (timers clk info s k).1.1 <= population s)%nat.
Proof.
  unfold timers, population. cbn zeta. cbn [fst active waiting]. set (P := fun e : Z * Z => e.2 < clk k - COMM_SYN_INTERVAL_US). set (served := filter _ (filter P _).*1).
  rewrite length_app. assert (E : length (stamped clk (S k) served) = length served) by (by rewrite <- (stamped_fst (S k) served) at 2; rewrite length_fmap).
  assert (Hs : (length served <= length (filter P (active s)))%nat) by (unfold served; etrans; [apply length_filter|by rewrite length_fmap]).
  pose proof (Permutation_length (list.filter_app_complement P (active s))) as Hp. rewrite length_app in Hp. cbn beta in Hp. unfold P in Hp, Hs. lia.
Qed.

Lemma turn_population info r again st s k : refines st s k -> (population (turn cf clk info r again s k).1.1.1 <= population s)%nat.
Proof using Hclk.
  intros H. destruct (take_refines _ _ _ H) as (st1 & _ & H1). pose proof (take_length s k) as Hl. unfold turn.
  assert (Hw : waiting (take clk s k).1 = []) by done. destruct (take clk s k) as [s1 k1]. cbn [fst snd] in *.
  assert (Ht : forall s2 k2, (population s2 <= population s)%nat -> (population (timers clk info s2 k2).1.1 <= population s)%nat).
  { intros s2 k2 Hp. etrans; [apply timers_population|done]. }
  assert (Hp1 : population s1 = population s) by (unfold population; rewrite Hl, Hw; cbn; lia).
  destruct r as [id addr pkt| |].
  - pose proof (handle_length info id addr pkt _ s1 k1 H1) as H2. assert (Hw2 : waiting (handle clk pkt (route cf info id addr s1) s1 k1).1 = waiting s1) by (by destruct (route _ _ _ _ _)).
    destruct (handle clk pkt _ s1 k1) as [s2 k2]. cbn [fst snd] in *. assert (Hp2 : population s2 = population s1) by (unfold population; by rewrite H2, Hw2).
    destruct (reads_on again _); [cbn; lia|]. specialize (Ht s2 k2 ltac:(lia)). by destruct (timers clk info s2 k2) as [[? ?] ?].
  - specialize (Ht s1 k1 ltac:(lia)). by destruct (timers clk info s1 k1) as [[? ?] ?].
  - cbn. lia.
Qed.

Lemma spec1_population e st s k : refines st s k -> (population (spec1 cf clk e (s, k)).1.1 <= S (population s))%nat.
Proof using Hclk.
  intros H. destruct e as [u|u|u|id u addr ttl|id|id len|info r again]; cbn [spec1 fst]; try (unfold population; cbn; lia).
  - unfold population. cbn. rewrite length_app. cbn. lia.
  - destruct (stored s id) as [|pkt q]; [cbn; lia|]. destruct (_ <=? _); unfold population; cbn; lia.
  - pose proof (turn_population info r again _ _ _ H) as Hp. destruct (turn cf clk info r again s k) as [[[s' k'] d] served]. cbn in *. lia.
Qed.

Lemma exec_refines fuel es st s k : refines st s k -> allowed cf clk es (s, k) -> (length es + population s < fuel)%nat ->
  let '(s', k', os) := run cf clk es (s, k) in
  exists st', exec cf clk fuel es (st, k) = Some (st', k', os) /\ refines st' s' k'.
Proof using Hclk.
  revert st s k. induction es as [|e es IH]; intros st s k H Hal Hf; [by exists st|]. cbn [run exec]. cbn [length] in Hf.
  pose proof (exec1_refines fuel e es _ _ _ H Hal) as H1. pose proof (spec1_population e _ _ _ H) as Hp. cbn [allowed] in Hal. destruct Hal as [_ Hal].
  destruct (spec1 cf clk e (s, k)) as [[s1 k1] o]. cbn [fst] in *. destruct H1 as (st1 & E1 & H1); [unfold population in *; lia|]. rewrite E1. cbn [mbind option_bind].
  specialize (IH _ _ _ H1 Hal ltac:(lia)). destruct (run cf clk es (s1, k1)) as [[s2 k2] os]. destruct IH as (st2 & E2 & H2). rewrite E2. by exists st2.
Qed.

Lemma init_refines hsize : (0 < hsize)%nat -> refines (init hsize) empty 0.
Proof.
  intros Hh. assert (Hno : forall (X : Type) (x : X), ~ x ∈ []) by (intros; apply not_elem_of_nil).
  split; try done.
  - split; [by split; [| | |constructor]|intros u x Hu|by constructor|intros u Hu|].
    + by apply Hno in Hu.
    + by apply Hno in Hu.
    + exists []. split; [by apply init_ok|]. split; [by constructor|]. intros i u. split; [intros H|intros [H _]]; by apply Hno in H.
  - intros u Hu. by apply Hno in Hu.
  - by constructor.
  - split; constructor.
  - cbn. lia.
Qed.

Lemma run_population es st s k : refines st s k -> allowed cf clk es (s, k) -> (population (run cf clk es (s, k)).1.1 <= length es + population s)%nat.
Proof using Hclk.
  revert st s k. induction es as [|e es IH]; intros st s k H Hal; [cbn; lia|]. cbn [run length].
  pose proof (exec1_refines (S (population s)) e es _ _ _ H Hal ltac:(unfold population; lia)) as H1. pose proof (spec1_population e _ _ _ H) as Hp. cbn [allowed] in Hal. destruct Hal as [_ Hal].
  destruct (spec1 cf clk e (s, k)) as [[s1 k1] o]. cbn [fst] in *. destruct H1 as (st1 & _ & H1). specialize (IH _ _ _ H1 Hal).
  destruct (run cf clk es (s1, k1)) as [[s2 k2] os]. cbn [fst] in *. lia.
Qed.

Lemma turn_route info id addr pkt again s k : exists s' k' served,
  turn cf clk info (RST_OK id addr pkt) again s k = (s', k', Some (route cf info id addr (take clk s k).1), served).
Proof.
  unfold turn. destruct (take clk s k) as [s1 k1]. cbn [fst]. destruct (handle clk pkt _ s1 k1) as [s2 k2]. destruct (reads_on _ _); [by eauto|].
  destruct (timers clk info s2 k2) as [[s3 served] k3]. by eauto.
Qed.

Lemma route_pos info id addr s u : route cf info id addr s = Deliver u -> 0 < id.
Proof.
  unfold route, connecting. destruct (Z.ltb_spec id 0); [done|]. destruct (Z.eqb_spec id 0); [|lia]. destruct (listener s); [done|].
  destruct (list_find _ _) as [[? ?]|]; [by destruct (bSynRecving _)|done].
Qed.
End Inv.
End RcvQueueInv.

(** ** Properties *)

Import RcvQueueSpec RcvUList RcvQueueInv.

Lemma find_active_unique {A : Type} (cf : Z -> conf (A := A)) s u : NoDup ((fun v => m_SocketID (cf v)) <$> (active s).*1) -> u ∈ (active s).*1 ->
  find_active cf (m_SocketID (cf u)) s = Some u.
Proof.
  intros Hn Hu. unfold find_active. destruct (list_find _ _) as [[i v]|] eqn:E; cbn.
  - apply list_find_Some in E as (Hi & Ev & _). f_equal. apply list_elem_of_lookup in Hu as [j Hj].
    assert (i = j) as ->; [|congruence]. eapply NoDup_lookup; [exact Hn| |]; rewrite list_lookup_fmap; [rewrite Hi; cbn; by rewrite Ev|by rewrite Hj].
  - apply list_find_None in E. rewrite list.Forall_forall in E. by destruct (E u Hu).
Qed.

(** C21. The worker of the receiver queue against a plain specification.  For
    any sequence of what other threads do (sockets that have connected, a
    listener set and removed, connectors registered and removed, packets
    fetched) and of turns of the worker, with or without a packet, the code
    with its linked nodes and its table of chains returns and answers as a list
    of the sockets in the order of their last activity does: it gives each
    packet to the same receiver and checks the timers of the same sockets, each
    that was not active for the interval, once.  The nodes hold that list, with
    its times, the table finds exactly its sockets by their numbers, and no
    more than 17 packets are kept for a socket that waits. *)
Theorem rcvq_refines {A : Type} `{EqDecision A} (cf : Z -> conf (A := A)) (clk : nat -> Z) (hsize fuel : nat) (es : list event) :
  (forall i j, (i <= j)%nat -> clk i <= clk j) -> (0 < hsize)%nat -> (length es < fuel)%nat -> allowed cf clk es (empty, 0%nat) ->
  let '(s, k, os) := run cf clk es (empty, 0%nat) in
  exists st, exec cf clk fuel es (init hsize, 0%nat) = Some (st, k, os) /\
    holds (m_pRcvUList st) (active s).*1 /\ (forall u x, (u, x) ∈ active s -> stamp (m_pRcvUList st) u = (x, true)) /\
    StronglySorted earlier (active s) /\ NoDup ((fun u => m_SocketID (cf u)) <$> ((active s).*1 ++ waiting s)) /\
    (forall id, 0 <= id -> CHash.lookup id (m_pHash st) = Some (find_active cf id s)) /\
    (forall id, (length (default [] (m_mBuffer st !! id)) <= 17)%nat).
Proof.
  intros Hclk Hh Hf Hal. pose proof (exec_refines cf clk Hclk fuel es _ _ _ (init_refines cf clk hsize Hh) Hal ltac:(cbn; lia)) as H.
  destruct (run cf clk es (empty, 0%nat)) as [[s k] os]. destruct H as (st & E & [Hl Hw Hm Hi Ht Hli Hco Hs Hn Hb]). exists st. split; [done|].
  split; [apply Hl|]. split; [apply Hl|]. split; [apply Ht|]. split; [done|]. split; [intros id Hid; by eapply listed_lookup|].
  intros id. by rewrite <- Hs.
Qed.

(** C22. After any such sequence, the worker hands a packet to a socket exactly
    when that socket is in the queue, or waits to be, under the number the
    packet is for, the packet comes from the address of its peer, and the
    socket is connected and neither broken nor closing. *)
Theorem rcvq_delivers {A : Type} `{EqDecision A} (cf : Z -> conf (A := A)) (clk : nat -> Z) (hsize fuel : nat) (es : list event)
    (info : Z -> status) (id : Z) (addr : A) (pkt : CPacket.t) (again : bool) (u : Z) :
  (forall i j, (i <= j)%nat -> clk i <= clk j) -> (0 < hsize)%nat -> (length es < fuel)%nat -> allowed cf clk es (empty, 0%nat) ->
  let s := (run cf clk es (empty, 0%nat)).1.1 in
  exists st k os st' k' d served,
    exec cf clk fuel es (init hsize, 0%nat) = Some (st, k, os) /\
    worker cf clk fuel info (RST_OK id addr pkt) again st k = Some (st', k', Some d, served) /\
    (d = Deliver u <->
      u ∈ (active s).*1 ++ waiting s /\ 0 < id /\ m_SocketID (cf u) = id /\ m_PeerAddr (cf u) = addr /\
      m_bConnected (info u) = true /\ m_bBroken (info u) = false /\ m_bClosing (info u) = false).
Proof.
  intros Hclk Hh Hf Hal s. subst s. pose proof (exec_refines cf clk Hclk fuel es _ _ _ (init_refines cf clk hsize Hh) Hal ltac:(cbn; lia)) as H.
  pose proof (run_population cf clk Hclk es _ _ _ (init_refines cf clk hsize Hh) Hal) as Hp.
  destruct (run cf clk es (empty, 0%nat)) as [[s k] os]. destruct H as (st & E & H). cbn [fst] in *.
  pose proof (worker_refines cf clk Hclk fuel info (RST_OK id addr pkt) again _ _ _ H ltac:(unfold population in Hp; cbn in Hp; lia)) as Hw.
  destruct (turn_route cf clk info id addr pkt again s k) as (s' & k' & served & Et). rewrite Et in Hw. destruct Hw as (st' & Ew & _).
  exists st, k, os, st', k', (route cf info id addr (take clk s k).1), served. split; [done|]. split; [done|].
  assert (Hin : (active (take clk s k).1).*1 = (active s).*1 ++ waiting s) by (cbn; by rewrite fmap_app, stamped_fst).
  rewrite <- Hin. split.
  - intros Hd. pose proof (route_pos _ _ _ _ _ _ Hd) as Hpos. apply route_deliver in Hd as (Hu & Hid & Ha & Hr). unfold running in Hr.
    destruct (m_bConnected (info u)), (m_bBroken (info u)), (m_bClosing (info u)); by split_and!.
  - intros (Hu & Hpos & <- & <- & H1 & H2 & H3). unfold route. destruct (Z.ltb_spec (m_SocketID (cf u)) 0); [lia|]. destruct (Z.eqb_spec (m_SocketID (cf u)) 0); [lia|].
    rewrite find_active_unique; [|rewrite Hin; apply (r_ids _ _ _ _ _ H)|done]. rewrite bool_decide_true by done. unfold running. by rewrite H1, H2, H3.
Qed.

(** Two sockets in one chain of a table of four; a third has gone; packets for
    them, for a wrong address, and for one that connects in rendezvous. *)
Module RcvQueueExample.
Definition cf (u : Z) : conf (A := Z) := mkConf (4 * u + 1) (100 + u) (u =? 9) (u =? 9).
Definition clk (k : nat) : Z := 8000 * Z.of_nat k.
Definition pkt : CPacket.t := CPacket.mk 0 0 0 0 [].
Definition ok (_ : Z) : status := mkStatus true false false.
Definition one_broken (u : Z) : status := mkStatus true (u =? 1) false.
Definition events : list (event (A := Z)) :=
  [Enter 1; Enter 2; Turn ok (RST_OK 9 102 pkt) false; Turn ok (RST_OK 5 100 pkt) false; Connector 37 9 109 1000000;
   Turn one_broken RST_AGAIN false; Turn one_broken RST_AGAIN false; Turn ok (RST_OK 0 109 pkt) false; Turn ok (RST_OK 5 101 pkt) false; Fetch 37 100].

Example rcvq_outputs : (run cf clk events (empty, 0%nat)).2 =
  [Nothing; Nothing; Turned (Some (Deliver 2)) (Some [1]); Turned (Some (Foreign 1)) None; Nothing;
   Turned None (Some [2]); Turned None (Some []); Turned (Some (StoreFor 37)) (Some [2]); Turned (Some Unknown) None; Fetched (Some pkt)].
Proof. vm_compute. reflexivity. Qed.

Lemma clk_mono i j : (i <= j)%nat -> clk i <= clk j.
Proof. unfold clk. lia. Qed.

Lemma events_allowed : allowed cf clk events (empty, 0%nat).
Proof. apply (bool_decide_unpack _). vm_compute. done. Qed.
End RcvQueueExample.

Import RcvQueueExample.

Lemma rcvq_refines_witness : exists st k, exec cf clk 30 events (init 4, 0%nat) = Some (st, k, (run cf clk events (empty, 0%nat)).2).
Proof.
  pose proof (rcvq_refines cf clk 4 30 events clk_mono ltac:(lia) ltac:(cbn; lia) events_allowed) as H.
  destruct (run cf clk events (empty, 0%nat)) as [[s k] os]. destruct H as (st & E & _). exists st, k. exact E.
Defined.

Lemma rcvq_delivers_witness : exists st k os st' k' d served,
  exec cf clk 30 events (init 4, 0%nat) = Some (st, k, os) /\ worker cf clk 30 ok (RST_OK 9 102 pkt) false st k = Some (st', k', Some d, served) /\ d = Deliver 2.
Proof.
  pose proof (rcvq_delivers cf clk 4 30 events ok 9 102 pkt false 2 clk_mono ltac:(lia) ltac:(cbn; lia) events_allowed) as H. cbv zeta in H.
  assert (Hin : 2 ∈ (active (run cf clk events (empty, 0%nat)).1.1).*1 ++ waiting (run cf clk events (empty, 0%nat)).1.1)
    by (apply (bool_decide_unpack _); vm_compute; exact I).
  destruct H as (st & k & os & st' & k' & d & served & E & Ew & Hd). exists st, k, os, st', k', d, served.
  split; [exact E|]. split; [exact Ew|]. apply Hd. split; [exact Hin|]. repeat split.
Defined.
