(* ===== verification/Epoll.v ===== *)
(** Event polling of epoll.h and epoll.cpp: [CEPollDesc], the subscriptions of
    one poll and the notices of what is ready, and [CEPoll], the table of
    polls.  The waiting functions are one check of the poll under its lock;
    whether the time is over is an argument.  The system's polls for its own
    sockets are arguments too. *)
From stdpp Require Import gmap.
From S2P Require Import Prelude.

Definition SRT_EPOLL_IN : Z := 0x1.
Definition SRT_EPOLL_OUT : Z := 0x4.
Definition SRT_EPOLL_ERR : Z := 0x8.
Definition SRT_EPOLL_UPDATE : Z := 0x10.
Definition SRT_EPOLL_ET : Z := 0x80000000.
Definition SRT_EPOLL_EVENTTYPES : Z := Z.lor (Z.lor SRT_EPOLL_IN SRT_EPOLL_OUT) (Z.lor SRT_EPOLL_UPDATE SRT_EPOLL_ERR).
Definition SRT_EPOLL_ETONLY : Z := SRT_EPOLL_UPDATE.
Definition SRT_EPOLL_ENABLE_EMPTY : Z := 1.
Definition SRT_EPOLL_ENABLE_OUTPUTCHECK : Z := 2.

(** [a & ~b] and the test of flags. *)
Notation clr a b := (Z.land a (Z.lnot b)) (only parsing).
Notation has a b := (negb (Z.land a b =? 0)) (only parsing).

Module CEPollDesc.

(** A node of the list of notices has a number, which an iterator holds;
    [parent], the pointer to the subscription, is the socket it is stored
    under. *)
Record Notice := mkNotice { node : nat; parent : Z; fd : Z; events : Z }.
Record Wait := mkWait { watch : Z; edge : Z; state : Z; notit : option nat }.

Record t := mk {
  m_USockWatchState : gmap Z Wait;
  m_USockEventNotice : list Notice;
  m_Flags : Z;
  m_sLocals : gset Z;
  next_node : nat;
}.

Definition init : t := mk ∅ [] 0 ∅ 0.

Definition set_watches (m : gmap Z Wait) (st : t) : t := mk m (m_USockEventNotice st) (m_Flags st) (m_sLocals st) (next_node st).
Definition set_notices (l : list Notice) (st : t) : t := mk (m_USockWatchState st) l (m_Flags st) (m_sLocals st) (next_node st).
Definition set_m_Flags (f : Z) (st : t) : t := mk (m_USockWatchState st) (m_USockEventNotice st) f (m_sLocals st) (next_node st).
Definition set_m_sLocals (s : gset Z) (st : t) : t := mk (m_USockWatchState st) (m_USockEventNotice st) (m_Flags st) s (next_node st).
Definition set_notit (i : option nat) (w : Wait) : Wait := mkWait (watch w) (edge w) (state w) i.
Definition set_state (s : Z) (w : Wait) : Wait := mkWait (watch w) (edge w) s (notit w).
Definition set_events (e : Z) (n : Notice) : Notice := mkNotice (node n) (parent n) (fd n) e.

Definition edgeOnly (w : Wait) : Z := Z.land (edge w) (watch w).

(** [Wait::clear]: the subscription, and whether it is empty now. *)
Definition clear (direction : Z) (w : Wait) : Wait * bool :=
  if has (watch w) direction
  then (mkWait (clr (watch w) direction) (clr (edge w) direction) (clr (state w) direction) (notit w), clr (watch w) direction =? 0)
  else (w, false).

Definition flags (f : Z) (st : t) : bool := has (m_Flags st) f.
Definition set_flags (f : Z) (st : t) : t := set_m_Flags (Z.lor (m_Flags st) f) st.
Definition clr_flags (f : Z) (st : t) : t := set_m_Flags (clr (m_Flags st) f) st.
Definition watch_empty (st : t) : bool := bool_decide (m_USockWatchState st = ∅).
Definition watch_find (sock : Z) (st : t) : option Wait := m_USockWatchState st !! sock.
Definition put_wait (sock : Z) (w : Wait) (st : t) : t := set_watches (<[sock := w]> (m_USockWatchState st)) st.

(** What an iterator points to. *)
Definition notice_at (i : nat) (st : t) : option Notice := snd <$> list_find (fun n => node n = i) (m_USockEventNotice st).
Definition upd_notice (i : nat) (f : Notice -> Notice) (st : t) : t :=
  set_notices ((fun n => if decide (node n = i) then f n else n) <$> m_USockEventNotice st) st.
Definition erase (i : nat) (st : t) : t := set_notices (filter (fun n => node n <> i) (m_USockEventNotice st)) st.

(** [addWatch], with whether it is new. *)
Definition addWatch (sock ev et : Z) (st : t) : t * Wait * bool :=
  match watch_find sock st with
  | Some w => (st, w, false)
  | None => let w := mkWait ev et 0 None in (put_wait sock w st, w, true)
  end.

Definition addEventNotice (sock : Z) (w : Wait) (ev : Z) (st : t) : t :=
  match notit w with
  | None =>
      let i := next_node st in
      let st := mk (m_USockWatchState st) (m_USockEventNotice st ++ [mkNotice i sock sock ev]) (m_Flags st) (m_sLocals st) (S i) in
      put_wait sock (set_notit (Some i) w) st
  | Some i => upd_notice i (fun n => set_events (Z.lor (events n) ev) n) st
  end.

(** [removeExistingNotices] of the subscription stored under [sock], which has
    a notice where it is called. *)
Definition removeExistingNotices (sock : Z) (st : t) : t :=
  match watch_find sock st with
  | Some w =>
      match notit w with
      | Some i => put_wait sock (set_notit None w) (erase i st)
      | None => st
      end
  | None => st
  end.

Definition removeExcessEvents (sock : Z) (w : Wait) (nevts : Z) (st : t) : t :=
  match notit w with
  | None => st
  | Some i =>
      match notice_at i st with
      | None => st
      | Some n =>
          let newstate := Z.land (events n) nevts in
          if negb (newstate =? 0) then upd_notice i (set_events newstate) st else removeExistingNotices sock st
      end
  end.

Definition updateEventNotice (sock : Z) (w : Wait) (ev : Z) (enable : bool) (st : t) : t :=
  if enable then addEventNotice sock w ev st else removeExcessEvents sock w (Z.lnot ev) st.

Definition removeSubscription (u : Z) (st : t) : t :=
  match watch_find u st with
  | None => st
  | Some w =>
      let st := match notit w with Some i => erase i st | None => st end in
      set_watches (delete u (m_USockWatchState st)) st
  end.

Definition clearAll (st : t) : t := set_watches ∅ (set_notices [] st).

(** [checkEdge] of the notice at [i]. *)
Definition checkEdge (i : nat) (st : t) : t * bool :=
  match notice_at i st with
  | None => (st, false)
  | Some n =>
      match watch_find (parent n) st with
      | None => (st, false)
      | Some w =>
          let ev := clr (events n) (edgeOnly w) in
          let st := upd_notice i (set_events ev) st in
          if ev =? 0 then (removeExistingNotices (parent n) st, true) else (st, false)
      end
  end.

(** [clearEventSub]: the socket whose last subscription this was. *)
Definition clearEventSub (i : nat) (event : Z) (st : t) : t * option Z :=
  match notice_at i st with
  | None => (st, None)
  | Some n =>
      if has (events n) event then
        match watch_find (parent n) st with
        | None => (st, None)
        | Some w => let '(w, last) := clear event w in (put_wait (parent n) w st, if last then Some (fd n) else None)
        end
      else (st, None)
  end.

(** The loops over the notices: each reports what the notice says and checks
    its edges. *)
Definition report (st : t) (i : nat) : t * list (Z * Z) :=
  match notice_at i st with
  | None => (st, [])
  | Some n => ((checkEdge i st).1, [(fd n, events n)])
  end.

Fixpoint scan (ids : list nat) (st : t) : t * list (Z * Z) :=
  match ids with
  | [] => (st, [])
  | i :: ids => let '(st, r) := report st i in let '(st, rs) := scan ids st in (st, r ++ rs)
  end.
End CEPollDesc.

Module CEPoll.
Record t := mk { m_iIDSeed : Z; m_mPolls : gmap Z CEPollDesc.t }.

Definition init : t := mk 0 ∅.

(** [CUDTException]: major and minor code. *)
Inductive error := MJ_SETUP | NOTSUP_EIDINVAL | NOTSUP_INVAL | NOTSUP_EEMPTY | AGAIN_XMTIMEOUT | SYSTEM.

Definition put (eid : Z) (d : CEPollDesc.t) (st : t) : t := mk (m_iIDSeed st) (<[eid := d]> (m_mPolls st)).

(** An operation on the poll [eid]. *)
Definition with_poll {R} (eid : Z) (st : t) (f : CEPollDesc.t -> CEPollDesc.t * (error + R)) : t * (error + R) :=
  match m_mPolls st !! eid with
  | None => (st, inl NOTSUP_EIDINVAL)
  | Some d => let '(d, r) := f d in (put eid d st, r)
  end.

(** [localid] is the poll the system has made, negative for a failure. *)
Definition create (localid : Z) (st : t) : t * (error + Z) :=
  let seed := if m_iIDSeed st + 1 >=? 0x7FFFFFFF then 0 else m_iIDSeed st + 1 in
  let st := mk seed (m_mPolls st) in
  match m_mPolls st !! seed with
  | Some _ => (st, inl MJ_SETUP)
  | None => if localid <? 0 then (st, inl MJ_SETUP) else (put seed CEPollDesc.init st, inr seed)
  end.

Definition clear_usocks (eid : Z) (st : t) : t * (error + Z) := with_poll eid st (fun d => (CEPollDesc.clearAll d, inr 0)).

Fixpoint clear_events (ids : list nat) (direction : Z) (d : CEPollDesc.t) : CEPollDesc.t * list Z :=
  match ids with
  | [] => (d, [])
  | i :: ids =>
      let '(d, rs) := CEPollDesc.clearEventSub i direction d in
      let '(d, cleared) := clear_events ids direction d in
      (d, match rs with Some s => s :: cleared | None => cleared end)
  end.

(** [clear_ready_usocks] is given the poll itself. *)
Definition clear_ready_usocks (direction : Z) (d : CEPollDesc.t) : CEPollDesc.t :=
  if has direction (Z.lnot SRT_EPOLL_EVENTTYPES) then d
  else
    let '(d, cleared) := clear_events (CEPollDesc.node <$> CEPollDesc.m_USockEventNotice d) direction d in
    fold_left (fun d s => CEPollDesc.removeSubscription s d) cleared d.

(** [ok] is the success of the call of the system. *)
Definition add_ssock (eid s : Z) (ok : bool) (st : t) : t * (error + Z) :=
  with_poll eid st (fun d => if ok then (CEPollDesc.set_m_sLocals ({[s]} ∪ CEPollDesc.m_sLocals d) d, inr 0) else (d, inl SYSTEM)).
Definition remove_ssock (eid s : Z) (ok : bool) (st : t) : t * (error + Z) :=
  with_poll eid st (fun d => if ok then (CEPollDesc.set_m_sLocals (CEPollDesc.m_sLocals d ∖ {[s]}) d, inr 0) else (d, inl SYSTEM)).
Definition update_ssock (eid s : Z) (ok : bool) (st : t) : t * (error + Z) :=
  with_poll eid st (fun d => (d, if ok then inr 0 else inl SYSTEM)).

Definition update_sub (u : Z) (ev : option Z) (d : CEPollDesc.t) : CEPollDesc.t * (error + Z) :=
  let evts := default (Z.lor (Z.lor SRT_EPOLL_IN SRT_EPOLL_OUT) SRT_EPOLL_ERR) ev in
  let edgeTriggered := has evts SRT_EPOLL_ET in
  let evts := Z.land evts 0x7FFFFFFF in
  let et_evts := if edgeTriggered then evts else Z.land evts SRT_EPOLL_ETONLY in
  if negb (evts =? 0) then
    let '(d, wait, fresh) := CEPollDesc.addWatch u evts et_evts d in
    let d :=
      if fresh then d
      else
        let removable := clr (CEPollDesc.watch wait) evts in
        let d := if negb (removable =? 0) then CEPollDesc.removeExcessEvents u wait evts d else d in
        match CEPollDesc.watch_find u d with
        | Some w => CEPollDesc.put_wait u (CEPollDesc.mkWait evts et_evts (CEPollDesc.state w) (CEPollDesc.notit w)) d
        | None => d
        end in
    match CEPollDesc.watch_find u d with
    | Some wait =>
        let newstate := Z.land (CEPollDesc.watch wait) (CEPollDesc.state wait) in
        (if negb (newstate =? 0) then CEPollDesc.addEventNotice u wait newstate d else d, inr 0)
    | None => (d, inr 0)
    end
  else if edgeTriggered then (d, inl NOTSUP_INVAL)
  else (CEPollDesc.removeSubscription u d, inr 0).

Definition update_usock (eid u : Z) (ev : option Z) (st : t) : t * (error + Z) := with_poll eid st (update_sub u ev).

Definition setflags (eid fl : Z) (st : t) : t * (error + Z) :=
  with_poll eid st (fun d =>
    let oflags := CEPollDesc.m_Flags d in
    if fl =? -1 then (d, inr oflags)
    else (if fl =? 0 then CEPollDesc.clr_flags (Z.lnot 0) d else CEPollDesc.set_flags fl d, inr oflags)).

(** What a check of the poll under its lock ends with: [None] means wait and
    check again. *)
Definition uwait_check (null : bool) (fdsSize : Z) (d : CEPollDesc.t) : CEPollDesc.t * (error + option (list (Z * Z))) :=
  if negb (CEPollDesc.flags SRT_EPOLL_ENABLE_EMPTY d) && CEPollDesc.watch_empty d then (d, inl NOTSUP_EEMPTY)
  else if CEPollDesc.flags SRT_EPOLL_ENABLE_OUTPUTCHECK d && (null || (fdsSize =? 0)) then (d, inl NOTSUP_INVAL)
  else if negb (bool_decide (CEPollDesc.m_sLocals d = ∅)) then (d, inl NOTSUP_INVAL)
  else
    let '(d, rs) := CEPollDesc.scan (take (Z.to_nat fdsSize) (CEPollDesc.node <$> CEPollDesc.m_USockEventNotice d)) d in
    (d, inr (match rs with [] => None | _ => Some rs end)).

Definition uwait (eid : Z) (null : bool) (fdsSize : Z) (timed_out : bool) (st : t) : t * (error + option (list (Z * Z))) :=
  if (fdsSize <? 0) || ((fdsSize >? 0) && null) then (st, inl NOTSUP_INVAL)
  else
    let '(st, r) := with_poll eid st (uwait_check null fdsSize) in
    (st, match r with inr None => if timed_out then inr (Some []) else inr None | r => r end).

(** [swait], given the poll: the result, and the readiness by socket when it
    writes it. *)
Definition swait (endless : bool) (nowait : bool) (timed_out : bool) (by_exception : bool) (d : CEPollDesc.t) : CEPollDesc.t * (error + option (Z * option (gmap Z Z))) :=
  if negb (CEPollDesc.flags SRT_EPOLL_ENABLE_EMPTY d) && CEPollDesc.watch_empty d then
    (d, if endless && negb by_exception then inr (Some (-1, None)) else inl NOTSUP_EEMPTY)
  else if negb (bool_decide (CEPollDesc.m_sLocals d = ∅)) then (d, inl NOTSUP_INVAL)
  else if negb (bool_decide (CEPollDesc.m_USockEventNotice d = [])) || nowait then
    let '(d, rs) := CEPollDesc.scan (CEPollDesc.node <$> CEPollDesc.m_USockEventNotice d) d in
    (d, inr (Some (zlen rs, Some (fold_left (fun m e => <[e.1 := e.2]> m) rs ∅))))
  else if timed_out then (d, if by_exception then inl AGAIN_XMTIMEOUT else inr (Some (0, Some ∅)))
  else (d, inr None).

(** [wait]: sets for reading and writing, where given; [locals] is what the
    system's poll found, its flags and its socket. *)
Record ready := mkReady { readfds : option (gset Z); writefds : option (gset Z); lrfds : option (gset Z); lwfds : option (gset Z); total : Z }.

Definition note (on : bool) (s : Z) (o : option (gset Z)) : option (gset Z) * Z :=
  match o with
  | None => (None, 0)
  | Some fs => if on then (Some ({[s]} ∪ fs), if bool_decide (s ∈ fs) then 0 else 1) else (Some fs, 0)
  end.

Definition wait_notice (r : ready) (e : Z * Z) : ready :=
  let '(rd, n1) := note (has e.2 SRT_EPOLL_IN || has e.2 SRT_EPOLL_ERR) e.1 (readfds r) in
  let '(wr, n2) := note (has e.2 SRT_EPOLL_OUT || has e.2 SRT_EPOLL_ERR) e.1 (writefds r) in
  mkReady rd wr (lrfds r) (lwfds r) (total r + n1 + n2).

(** The system's sockets are counted without a test for being there. *)
Definition wait_local (r : ready) (e : bool * bool * Z) : ready :=
  let '(rd, wr, s) := e in
  let lr := match lrfds r with Some fs => Some (if rd : bool then {[s]} ∪ fs else fs) | None => None end in
  let lw := match lwfds r with Some fs => Some (if wr : bool then {[s]} ∪ fs else fs) | None => None end in
  mkReady (readfds r) (writefds r) lr lw
    (total r + (if (rd : bool) && bool_decide (is_Some (lrfds r)) then 1 else 0) + (if (wr : bool) && bool_decide (is_Some (lwfds r)) then 1 else 0)).

Definition wait_check (r : ready) (locals : list (bool * bool * Z)) (d : CEPollDesc.t) : CEPollDesc.t * (error + ready) :=
  if negb (CEPollDesc.flags SRT_EPOLL_ENABLE_EMPTY d) && CEPollDesc.watch_empty d && bool_decide (CEPollDesc.m_sLocals d = ∅) then (d, inl NOTSUP_EEMPTY)
  else if CEPollDesc.flags SRT_EPOLL_ENABLE_OUTPUTCHECK d &&
    ((negb (bool_decide (CEPollDesc.m_sLocals d = ∅)) && negb (bool_decide (is_Some (lrfds r)) && bool_decide (is_Some (lwfds r)))) ||
     (negb (CEPollDesc.watch_empty d) && negb (bool_decide (is_Some (readfds r)) && bool_decide (is_Some (writefds r))))) then (d, inl NOTSUP_INVAL)
  else
    let '(d, rs) := CEPollDesc.scan (CEPollDesc.node <$> CEPollDesc.m_USockEventNotice d) d in
    let r := fold_left wait_notice rs r in
    (d, inr (if (bool_decide (is_Some (lrfds r)) || bool_decide (is_Some (lwfds r))) && negb (bool_decide (CEPollDesc.m_sLocals d = ∅))
             then fold_left wait_local locals r else r)).

Definition wait (eid : Z) (r : ready) (locals : list (bool * bool * Z)) (endless timed_out : bool) (st : t) : t * (error + option ready) :=
  let given o := match o with Some _ => Some (∅ : gset Z) | None => None end in
  if negb (bool_decide (is_Some (readfds r)) || bool_decide (is_Some (writefds r)) || bool_decide (is_Some (lrfds r)) || bool_decide (is_Some (lwfds r))) && endless
  then (st, inl NOTSUP_INVAL)
  else
    let '(st, res) := with_poll eid st (wait_check (mkReady (given (readfds r)) (given (writefds r)) (given (lrfds r)) (given (lwfds r)) 0) locals) in
    (st, match res with
         | inl e => inl e
         | inr r => if total r >? 0 then inr (Some r) else if timed_out then inl AGAIN_XMTIMEOUT else inr None
         end).

Definition release (eid : Z) (st : t) : t * (error + Z) :=
  match m_mPolls st !! eid with
  | None => (st, inl NOTSUP_EIDINVAL)
  | Some _ => (mk (m_iIDSeed st) (delete eid (m_mPolls st)), inr 0)
  end.

(** The part of [update_events] for one poll: it, and whether it was updated. *)
Definition update_poll (uid ev : Z) (enable : bool) (d : CEPollDesc.t) : CEPollDesc.t * bool :=
  match CEPollDesc.watch_find uid d with
  | None => (d, false)
  | Some w =>
      let newstate := if enable then Z.lor (CEPollDesc.state w) ev else clr (CEPollDesc.state w) ev in
      let changes := Z.lxor (CEPollDesc.state w) newstate in
      if changes =? 0 then (d, false)
      else
        let w := CEPollDesc.set_state newstate w in
        let d := CEPollDesc.put_wait uid w d in
        if Z.land changes (CEPollDesc.watch w) =? 0 then (d, false)
        else (CEPollDesc.updateEventNotice uid w ev enable d, true)
  end.

Fixpoint update_polls (uid : Z) (eids : list Z) (ev : Z) (enable : bool) (st : t) : t * list Z * Z :=
  match eids with
  | [] => (st, [], 0)
  | eid :: eids =>
      match m_mPolls st !! eid with
      | None => update_polls uid eids ev enable st
      | Some d =>
          let '(d, b) := update_poll uid ev enable d in
          let '(st, kept, n) := update_polls uid eids ev enable (put eid d st) in
          (st, eid :: kept, (if b : bool then 1 else 0) + n)
      end
  end.

(** [update_events]: the state, the polls left in [eids] (ascending), and the
    result. *)
Definition update_events (uid : Z) (eids : list Z) (ev : Z) (enable : bool) (st : t) : t * list Z * Z :=
  if has ev (Z.lnot SRT_EPOLL_EVENTTYPES) then (st, eids, -1) else update_polls uid eids ev enable st.
End CEPoll.
