(* ===== verification/EpollInv.v ===== *)
(** A poll of epoll.cpp, its subscriptions and notices that point to each
    other, against two plain tables; and that no level-triggered readiness is
    lost. *)
From stdpp Require Import gmap.
From S2P Require Import Prelude Epoll.
Import CEPollDesc.

(** ** The specification: subscriptions, and what is ready in its order *)

Module EpollSpec.
Record sub := mkSub { s_watch : Z; s_edge : Z; s_state : Z }.
Record spec := mkSpec { subs : gmap Z sub; ready : list (Z * Z) }.

Fixpoint raise (u ev : Z) (l : list (Z * Z)) : list (Z * Z) :=
  match l with
  | [] => [(u, ev)]
  | (k, e) :: l => if k =? u then (k, Z.lor e ev) :: l else (k, e) :: raise u ev l
  end.

Fixpoint lower (u m : Z) (l : list (Z * Z)) : list (Z * Z) :=
  match l with
  | [] => []
  | (k, e) :: l => if k =? u then if Z.land e m =? 0 then l else (k, Z.land e m) :: l else (k, e) :: lower u m l
  end.

Definition subscribe (u evts et : Z) (s : spec) : spec :=
  match subs s !! u with
  | None => mkSpec (<[u := mkSub evts et 0]> (subs s)) (ready s)
  | Some w =>
      let l := if clr (s_watch w) evts =? 0 then ready s else lower u evts (ready s) in
      mkSpec (<[u := mkSub evts et (s_state w)]> (subs s)) (if Z.land evts (s_state w) =? 0 then l else raise u (Z.land evts (s_state w)) l)
  end.

Definition unsubscribe (u : Z) (s : spec) : spec := mkSpec (delete u (subs s)) (filter (fun e => e.1 <> u) (ready s)).

Definition update_sub (u : Z) (ev : option Z) (s : spec) : spec * bool :=
  let evts := default 13 ev in
  let et := has evts 0x80000000 in
  let evts := Z.land evts 0x7FFFFFFF in
  if evts =? 0 then if et then (s, false) else (unsubscribe u s, true)
  else (subscribe u evts (if et then evts else Z.land evts 0x10) s, true).

Definition update (u ev : Z) (enable : bool) (s : spec) : spec * bool :=
  match subs s !! u with
  | None => (s, false)
  | Some w =>
      let st := if enable then Z.lor (s_state w) ev else clr (s_state w) ev in
      let changes := Z.lxor (s_state w) st in
      let subs' := <[u := mkSub (s_watch w) (s_edge w) st]> (subs s) in
      if changes =? 0 then (s, false)
      else if Z.land changes (s_watch w) =? 0 then (mkSpec subs' (ready s), false)
      else (mkSpec subs' (if enable then raise u ev (ready s) else lower u (Z.lnot ev) (ready s)), true)
  end.

(** The edge-triggered events of a subscription. *)
Definition once (s : spec) (u : Z) : Z := match subs s !! u with Some w => Z.land (s_edge w) (s_watch w) | None => 0 end.

(** A check reports the first [k] entries and takes their edge-triggered
    events out. *)
Definition check (k : nat) (s : spec) : spec * list (Z * Z) :=
  (mkSpec (subs s) (omap (fun e => let ev := clr e.2 (once s e.1) in if ev =? 0 then None else Some (e.1, ev)) (take k (ready s)) ++ drop k (ready s)), take k (ready s)).

(** [clear_ready_usocks]: the subscriptions of what is ready for [dir] lose it,
    those that have nothing left go. *)
Fixpoint clear_subs (l : list (Z * Z)) (dir : Z) (m : gmap Z sub) : gmap Z sub * list Z :=
  match l with
  | [] => (m, [])
  | (u, e) :: l =>
      match m !! u with
      | Some w =>
          if has e dir && has (s_watch w) dir then
            let '(m', gone) := clear_subs l dir (<[u := mkSub (clr (s_watch w) dir) (clr (s_edge w) dir) (clr (s_state w) dir)]> m) in
            (m', if clr (s_watch w) dir =? 0 then u :: gone else gone)
          else clear_subs l dir m
      | None => clear_subs l dir m
      end
  end.

Definition clear_ready (dir : Z) (s : spec) : spec :=
  if has dir (Z.lnot 0x1d) then s
  else
    let '(m, gone) := clear_subs (ready s) dir (subs s) in
    fold_left (fun s u => unsubscribe u s) gone (mkSpec m (ready s)).
End EpollSpec.
Import EpollSpec.

(** ** A poll is such a pair of tables *)

Record wf (d : t) : Prop := {
  wf_nodup : NoDup (node <$> m_USockEventNotice d);
  wf_bound : forall n, n ∈ m_USockEventNotice d -> (node n < next_node d)%nat;
  wf_parent : forall n, n ∈ m_USockEventNotice d -> fd n = parent n /\ exists w, m_USockWatchState d !! parent n = Some w /\ notit w = Some (node n);
  wf_notit : forall u w i, m_USockWatchState d !! u = Some w -> notit w = Some i -> exists n, n ∈ m_USockEventNotice d /\ node n = i /\ parent n = u
}.

Definition view_sub (w : Wait) : sub := mkSub (watch w) (edge w) (state w).
Definition view_notice (n : Notice) : Z * Z := (parent n, events n).
Definition view (d : t) : spec := mkSpec (view_sub <$> m_USockWatchState d) (view_notice <$> m_USockEventNotice d).

Lemma node_inj d n n' : wf d -> n ∈ m_USockEventNotice d -> n' ∈ m_USockEventNotice d -> node n = node n' -> n = n'.
Proof.
  intros H Hn Hn' E. apply list_elem_of_lookup in Hn as [i Hi]. apply list_elem_of_lookup in Hn' as [j Hj].
  assert (i = j) as ->; [|congruence]. eapply NoDup_lookup; [apply (wf_nodup d H)| |]; rewrite list_lookup_fmap; [by rewrite Hi|rewrite Hj; cbn; by rewrite E].
Qed.

(** The node of a subscription is its only notice. *)
Lemma node_parent d u w i n : wf d -> m_USockWatchState d !! u = Some w -> notit w = Some i -> n ∈ m_USockEventNotice d -> node n = i <-> parent n = u.
Proof.
  intros H Hw Hi Hn. split.
  - intros E. destruct (wf_notit d H u w i Hw Hi) as (n' & Hn' & E' & <-). f_equal. eapply node_inj; [done..|congruence].
  - intros <-. destruct (wf_parent d H n Hn) as [_ (w' & Hw' & Hi')]. rewrite Hw in Hw'. injection Hw' as ->. congruence.
Qed.

Lemma no_notice d u w n : wf d -> m_USockWatchState d !! u = Some w -> notit w = None -> n ∈ m_USockEventNotice d -> parent n <> u.
Proof. intros H Hw Hi Hn <-. destruct (wf_parent d H n Hn) as [_ (w' & Hw' & Hi')]. rewrite Hw in Hw'. injection Hw' as ->. congruence. Qed.

Lemma parents_nodup d : wf d -> NoDup (parent <$> m_USockEventNotice d).
Proof.
  intros H. apply NoDup_alt. intros i j u Hi Hj. rewrite list_lookup_fmap in Hi, Hj. apply fmap_Some in Hi as (n & Hi & ->). apply fmap_Some in Hj as (n' & Hj & E).
  eapply NoDup_lookup; [apply (wf_nodup d H)| |]; rewrite list_lookup_fmap; [by rewrite Hi|rewrite Hj; cbn; f_equal].
  destruct (wf_parent d H n) as [_ (w & Hw & Ew)]; [by eapply list_elem_of_lookup_2|]. destruct (wf_parent d H n') as [_ (w' & Hw' & Ew')]; [by eapply list_elem_of_lookup_2|].
  rewrite <- E, Hw in Hw'. injection Hw' as <-. congruence.
Qed.

Lemma raise_view u ev i (l : list Notice) : NoDup (parent <$> l) -> (forall n, n ∈ l -> node n = i <-> parent n = u) -> u ∈ parent <$> l ->
  view_notice <$> ((fun n => if decide (node n = i) then set_events (Z.lor (events n) ev) n else n) <$> l) = raise u ev (view_notice <$> l).
Proof.
  induction l as [|n l IH]; cbn; [intros _ _ []%not_elem_of_nil|]. intros [Hn Hd]%list.NoDup_cons Hi Hu.
  destruct (Z.eqb_spec (parent n) u) as [E|E].
  - rewrite decide_True by (apply Hi; [by left|done]). cbn. f_equal. rewrite <- list_fmap_compose. apply list_fmap_ext. intros j n' Hn'%list_elem_of_lookup_2. cbn.
    rewrite decide_False; [done|]. intros E'. apply Hn. rewrite E. apply list_elem_of_fmap. exists n'. split; [|done]. symmetry. apply Hi; [by right|done].
  - rewrite decide_False by (intros E'; apply E, Hi; [by left|done]). f_equal. apply IH; [done| |by apply elem_of_cons in Hu as [->|]].
    intros n' Hn'. apply Hi. by right.
Qed.

Lemma raise_fresh u ev (l : list (Z * Z)) : u ∉ l.*1 -> raise u ev l = l ++ [(u, ev)].
Proof. induction l as [|[k e] l IH]; cbn; [done|]. intros [Hk Hl]%not_elem_of_cons. rewrite (proj2 (Z.eqb_neq _ _)) by congruence. by rewrite IH. Qed.

Lemma lower_fresh u m (l : list (Z * Z)) : u ∉ l.*1 -> lower u m l = l.
Proof. induction l as [|[k e] l IH]; cbn; [done|]. intros [Hk Hl]%not_elem_of_cons. rewrite (proj2 (Z.eqb_neq _ _)) by congruence. by rewrite IH. Qed.

Lemma view_keys (l : list Notice) : (view_notice <$> l).*1 = parent <$> l.
Proof. induction l; cbn; congruence. Qed.

(** Another node, or another subscription, does not matter. *)
Lemma wf_put d u w w' : wf d -> m_USockWatchState d !! u = Some w -> notit w' = notit w -> wf (put_wait u w' d).
Proof.
  intros [H1 H2 H3 H4] Hw E. split; try done; cbn.
  - intros n Hn. destruct (H3 n Hn) as [? (w0 & Hw0 & E0)]. split; [done|]. destruct (decide (parent n = u)) as [Eu|Hne].
    + exists w'. rewrite Eu in *. rewrite lookup_insert_eq. split; [done|]. rewrite Hw in Hw0. injection Hw0 as <-. congruence.
    + exists w0. by rewrite lookup_insert_ne.
  - intros v w0 i. destruct (decide (v = u)) as [->|Hne].
    + rewrite lookup_insert_eq. intros [= <-] Ei. eapply H4; [done|congruence].
    + rewrite lookup_insert_ne by done. by apply H4.
Qed.

Lemma wf_upd d i f : wf d -> (forall n, node (f n) = node n /\ parent (f n) = parent n /\ fd (f n) = fd n) -> wf (upd_notice i f d).
Proof.
  intros [H1 H2 H3 H4] Hf. set (g := fun n => if decide (node n = i) then f n else n).
  assert (Hg : forall n, node (g n) = node n /\ parent (g n) = parent n /\ fd (g n) = fd n) by (intros n; unfold g; case_decide; [apply Hf|done]).
  split; cbn; fold g.
  - rewrite <- list_fmap_compose. replace (node <$> m_USockEventNotice d) with (node ∘ g <$> m_USockEventNotice d) in H1; [done|].
    apply list_fmap_ext. intros ? n _. apply Hg.
  - intros n (n0 & -> & Hn)%list_elem_of_fmap. destruct (Hg n0) as (-> & _). by apply H2.
  - intros n (n0 & -> & Hn)%list_elem_of_fmap. destruct (Hg n0) as (-> & -> & ->). by apply H3.
  - intros u w j Hw Hj. destruct (H4 u w j Hw Hj) as (n & Hn & E1 & E2). exists (g n). destruct (Hg n) as (-> & -> & _). split; [|done]. apply list_elem_of_fmap. eauto.
Qed.

Lemma view_put d u w : view (put_wait u w d) = mkSpec (<[u := view_sub w]> (subs (view d))) (ready (view d)).
Proof. unfold view. cbn. by rewrite fmap_insert. Qed.

Lemma addEventNotice_ok d u w ev : wf d -> m_USockWatchState d !! u = Some w ->
  wf (addEventNotice u w ev d) /\ view (addEventNotice u w ev d) = mkSpec (subs (view d)) (raise u ev (ready (view d))).
Proof.
  intros H Hw. unfold addEventNotice. destruct (notit w) as [i|] eqn:Ei.
  - split; [by apply wf_upd|]. unfold view. cbn [subs ready m_USockWatchState upd_notice set_notices m_USockEventNotice]. f_equal. apply raise_view.
    + by apply parents_nodup.
    + intros n Hn. by eapply node_parent.
    + destruct (wf_notit d H u w i Hw Ei) as (n & Hn & _ & <-). apply list_elem_of_fmap. eauto.
  - assert (Hno : forall n, n ∈ m_USockEventNotice d -> parent n <> u) by (intros n Hn; by eapply no_notice). split.
    + destruct H as [H1 H2 H3 H4]. split; cbn.
      * rewrite fmap_app. apply list.NoDup_app. split; [done|]. split; [|by apply NoDup_singleton]. intros j (n & -> & Hn)%list_elem_of_fmap E%list_elem_of_singleton.
        cbn in E. specialize (H2 n Hn). lia.
      * intros n [Hn| ->%list_elem_of_singleton]%elem_of_app; [specialize (H2 n Hn); lia|cbn; lia].
      * intros n [Hn| ->%list_elem_of_singleton]%elem_of_app.
        -- destruct (H3 n Hn) as [? (w0 & Hw0 & E0)]. split; [done|]. exists w0. split; [|done]. rewrite lookup_insert_ne; [done|]. intros E. by apply (Hno n).
        -- split; [done|]. eexists. cbn. rewrite lookup_insert_eq. done.
      * intros v w0 j. destruct (decide (v = u)) as [->|Hne].
        -- rewrite lookup_insert_eq. intros [= <-] [= <-]. eexists. split; [apply elem_of_app; right; by left|done].
        -- rewrite lookup_insert_ne by done. intros Hv Hj. destruct (H4 v w0 j Hv Hj) as (n & Hn & ?). exists n. split; [apply elem_of_app; by left|done].
    + rewrite view_put. unfold view. cbn. f_equal.
      * apply insert_id. rewrite lookup_fmap, Hw. done.
      * rewrite fmap_app, raise_fresh; [done|]. rewrite view_keys. intros (n & E & Hn)%list_elem_of_fmap. by apply (Hno n).
Qed.

Lemma notice_at_ok d n : wf d -> n ∈ m_USockEventNotice d -> notice_at (node n) d = Some n.
Proof.
  intros H Hn. unfold notice_at. destruct (list_find _ _) as [[j n']|] eqn:E; cbn.
  - apply list_find_Some in E as (Hj & E & _). f_equal. eapply node_inj; [done|by eapply list_elem_of_lookup_2|done|done].
  - apply list_find_None in E. rewrite list.Forall_forall in E. by destruct (E n Hn).
Qed.

Lemma erase_view u i (l : list Notice) : (forall n, n ∈ l -> node n = i <-> parent n = u) ->
  view_notice <$> filter (fun n => node n <> i) l = filter (fun e => e.1 <> u) (view_notice <$> l).
Proof.
  induction l as [|n l IH]; intros Hi; [done|]. rewrite filter_cons. cbn [fmap list_fmap]. rewrite filter_cons. cbn [view_notice fst].
  specialize (IH (fun n' Hn' => Hi n' ltac:(by right))). specialize (Hi n ltac:(by left)).
  destruct (decide (node n <> i)), (decide (parent n <> u)); cbn [fmap list_fmap]; first [tauto | by rewrite IH | done].
Qed.

Lemma filter_fresh u (l : list (Z * Z)) : u ∉ l.*1 -> filter (fun e => e.1 <> u) l = l.
Proof.
  induction l as [|[k e] l IH]; [done|]. intros Hkl. cbn in Hkl. apply not_elem_of_cons in Hkl as [Hk Hl].
  rewrite filter_cons, decide_True by (cbn; congruence). by rewrite IH.
Qed.

(** A subscription loses its notice. *)
Lemma unbind_ok d u w i w' : wf d -> m_USockWatchState d !! u = Some w -> notit w = Some i -> notit w' = None ->
  wf (put_wait u w' (erase i d)).
Proof.
  intros H Hw Hi Hw'. pose proof (fun n => node_parent d u w i n H Hw Hi) as Hk. destruct H as [H1 H2 H3 H4]. split; cbn.
  - eapply sublist_NoDup; [exact H1|]. clear. induction (m_USockEventNotice d) as [|n l IH]; [constructor|]. rewrite filter_cons. case_decide; cbn; by constructor.
  - intros n [_ Hn]%list_elem_of_filter. by apply H2.
  - intros n [Hne Hn]%list_elem_of_filter. destruct (H3 n Hn) as [? (w0 & Hw0 & E0)]. split; [done|]. exists w0. rewrite lookup_insert_ne; [done|]. intros E. by apply Hne, Hk.
  - intros v w0 j. destruct (decide (v = u)) as [->|Hne]; [rewrite lookup_insert_eq; intros [= <-]; congruence|]. rewrite lookup_insert_ne by done. intros Hv Hj.
    destruct (H4 v w0 j Hv Hj) as (n & Hn & E1 & E2). exists n. split; [|done]. apply list_elem_of_filter. split; [|done]. intros E. apply Hk in E; [congruence|done].
Qed.

Lemma removeExisting_ok d u w i : wf d -> m_USockWatchState d !! u = Some w -> notit w = Some i ->
  wf (removeExistingNotices u d) /\ view (removeExistingNotices u d) = mkSpec (subs (view d)) (filter (fun e => e.1 <> u) (ready (view d))).
Proof.
  intros H Hw Hi. unfold removeExistingNotices, watch_find. rewrite Hw, Hi. split; [by eapply unbind_ok|]. rewrite view_put. unfold view. cbn. f_equal.
  - apply insert_id. rewrite lookup_fmap, Hw. done.
  - apply erase_view. intros n Hn. by eapply node_parent.
Qed.

Lemma lower_view u m i (l : list Notice) n : NoDup (parent <$> l) -> (forall n, n ∈ l -> node n = i <-> parent n = u) -> n ∈ l -> parent n = u ->
  lower u m (view_notice <$> l) =
    (if Z.land (events n) m =? 0 then filter (fun e => e.1 <> u) (view_notice <$> l)
     else view_notice <$> ((fun n' => if decide (node n' = i) then set_events (Z.land (events n) m) n' else n') <$> l)).
Proof.
  induction l as [|n0 l IH]; [intros _ _ []%not_elem_of_nil|]. cbn [fmap list_fmap lower view_notice]. intros [Hn0 Hd]%list.NoDup_cons Hi Hn Hp.
  rewrite filter_cons. cbn [view_notice fst]. destruct (Z.eqb_spec (parent n0) u) as [E|E].
  - assert (n0 = n) as ->. { apply elem_of_cons in Hn as [->|Hn]; [done|]. exfalso. apply Hn0, list_elem_of_fmap. exists n. split; [congruence|done]. }
    assert (Hl : forall n', n' ∈ l -> parent n' <> u) by (intros n' Hn' E'; apply Hn0, list_elem_of_fmap; exists n'; split; [congruence|done]).
    rewrite decide_False by tauto. destruct (_ =? 0).
    + symmetry. apply filter_fresh. rewrite view_keys. intros (n' & E' & Hn')%list_elem_of_fmap. by apply (Hl n').
    + rewrite decide_True by (apply Hi; [by left|done]). cbn. f_equal. rewrite <- list_fmap_compose. apply list_fmap_ext. intros j n' Hn'%list_elem_of_lookup_2. cbn.
      rewrite decide_False; [done|]. intros E'. apply (Hl n' Hn'). apply Hi; [by right|done].
  - rewrite decide_True by done. rewrite decide_False by (intros E'; apply E, Hi; [by left|done]).
    rewrite IH; [|done|intros n' Hn'; apply Hi; by right|by apply elem_of_cons in Hn as [->|]|done]. by destruct (_ =? 0).
Qed.

Lemma removeExcess_ok d u w m : wf d -> m_USockWatchState d !! u = Some w ->
  wf (removeExcessEvents u w m d) /\ view (removeExcessEvents u w m d) = mkSpec (subs (view d)) (lower u m (ready (view d))).
Proof.
  intros H Hw. unfold removeExcessEvents. destruct (notit w) as [i|] eqn:Ei.
  - destruct (wf_notit d H u w i Hw Ei) as (n & Hn & <- & Hp). rewrite (notice_at_ok d n H Hn).
    pose proof (lower_view u m (node n) _ n (parents_nodup d H) (fun n' => node_parent d u w (node n) n' H Hw Ei) Hn Hp) as E.
    change (view_notice <$> _) with (ready (view d)) in E at 1. rewrite E. destruct (Z.land (events n) m =? 0) eqn:Em; cbn [negb].
    + by eapply removeExisting_ok.
    + split; [by apply wf_upd|done].
  - split; [done|]. destruct (view d) as [s l] eqn:Ev. cbn. f_equal. symmetry. apply lower_fresh. change l with (ready (mkSpec s l)). rewrite <- Ev. cbn. rewrite view_keys.
    intros (n & E & Hn)%list_elem_of_fmap. by apply (no_notice d u w n H Hw Ei Hn).
Qed.

Lemma removeSubscription_ok d u : wf d -> wf (removeSubscription u d) /\ view (removeSubscription u d) = unsubscribe u (view d).
Proof.
  intros H. unfold removeSubscription, watch_find, unsubscribe. destruct (m_USockWatchState d !! u) as [w|] eqn:Hw.
  - assert (Hgone : forall d', wf d' -> m_USockWatchState d' = <[u := set_notit None w]> (m_USockWatchState d) -> (forall n, n ∈ m_USockEventNotice d' -> parent n <> u) ->
      wf (set_watches (delete u (m_USockWatchState d)) d')).
    { intros d' [G1 G2 G3 G4] Ed Hno. split; try done; cbn.
      - intros n Hn. destruct (G3 n Hn) as [? (w0 & Hw0 & E0)]. split; [done|]. exists w0. rewrite lookup_delete_ne by (intros E; by apply (Hno n)).
        rewrite Ed, lookup_insert_ne in Hw0 by (intros E; by apply (Hno n)). done.
      - intros v w0 j Hv Hj. apply lookup_delete_Some in Hv as [Hne Hv]. apply (G4 v w0 j); [by rewrite Ed, lookup_insert_ne|done]. }
    destruct (notit w) as [i|] eqn:Ei.
    + split.
      * apply (Hgone (put_wait u (set_notit None w) (erase i d))); [by eapply unbind_ok|done|]. intros n [Hne Hn]%list_elem_of_filter E. apply Hne. by eapply node_parent.
      * unfold view. cbn. rewrite fmap_delete. f_equal. apply erase_view. intros n Hn. by eapply node_parent.
    + split.
      * apply (Hgone (put_wait u (set_notit None w) d)); [by eapply wf_put|done|]. intros n Hn. by eapply no_notice.
      * unfold view. cbn. rewrite fmap_delete. f_equal. symmetry. apply filter_fresh. rewrite view_keys. intros (n & E & Hn)%list_elem_of_fmap. by apply (no_notice d u w n H Hw Ei Hn).
  - split; [done|]. unfold view. cbn. f_equal; [symmetry; apply delete_id; by rewrite lookup_fmap, Hw|]. symmetry. apply filter_fresh. rewrite view_keys.
    intros (n & E & Hn)%list_elem_of_fmap. destruct (wf_parent d H n Hn) as [_ (w0 & Hw0 & _)]. congruence.
Qed.

Lemma checkEdge_ok d n : wf d -> n ∈ m_USockEventNotice d ->
  wf (checkEdge (node n) d).1 /\ view (checkEdge (node n) d).1 = mkSpec (subs (view d)) (lower (parent n) (Z.lnot (once (view d) (parent n))) (ready (view d))).
Proof.
  intros H Hn. unfold checkEdge, watch_find. rewrite (notice_at_ok d n H Hn). destruct (wf_parent d H n Hn) as [_ (w & Hw & Ew)]. rewrite Hw.
  assert (Eo : once (view d) (parent n) = edgeOnly w) by (unfold once; cbn; rewrite lookup_fmap, Hw; done). rewrite Eo.
  pose proof (lower_view (parent n) (Z.lnot (edgeOnly w)) (node n) _ n (parents_nodup d H) (fun n' => node_parent d _ w (node n) n' H Hw Ew) Hn eq_refl) as E.
  change (view_notice <$> _) with (ready (view d)) in E at 1. rewrite E. assert (H' : wf (upd_notice (node n) (set_events (clr (events n) (edgeOnly w))) d)) by (by apply wf_upd).
  destruct (_ =? 0) eqn:Ez; cbn [fst]; [|done].
  destruct (removeExisting_ok _ (parent n) w (node n) H' Hw Ew) as [G1 G2]. split; [done|]. rewrite G2. f_equal. cbn.
  rewrite <- !(erase_view (parent n) (node n)).
  - f_equal. clear. induction (m_USockEventNotice d) as [|n0 l IH]; [done|]. cbn [fmap list_fmap]. rewrite !filter_cons. destruct (decide (node n0 = node n)) as [E|E].
    + rewrite !decide_False by (cbn; tauto). done.
    + rewrite !decide_True by done. cbn [fmap list_fmap]. by f_equal.
  - intros n' Hn'. by apply (node_parent d (parent n) w (node n) n' H Hw Ew).
  - intros n' (n0 & -> & Hn0)%list_elem_of_fmap. case_decide; cbn; by apply (node_parent d (parent n) w (node n) n0 H Hw Ew).
Qed.

(** ** The loops over the notices *)

Lemma checkEdge_others d n n' : wf d -> n ∈ m_USockEventNotice d -> n' ∈ m_USockEventNotice d -> node n' <> node n -> n' ∈ m_USockEventNotice (checkEdge (node n) d).1.
Proof.
  intros H Hn Hn' Hne. unfold checkEdge, watch_find. rewrite (notice_at_ok d n H Hn). destruct (wf_parent d H n Hn) as [_ (w & Hw & Ew)]. rewrite Hw.
  assert (Hin : forall f, n' ∈ m_USockEventNotice (upd_notice (node n) f d)) by (intros f; apply list_elem_of_fmap; exists n'; by rewrite decide_False).
  destruct (_ =? 0); cbn [fst]; [|done]. unfold removeExistingNotices, watch_find. cbn [upd_notice set_notices m_USockWatchState]. rewrite Hw, Ew.
  cbn [put_wait set_watches m_USockEventNotice erase set_notices]. apply list_elem_of_filter. split; [done|]. apply Hin.
Qed.

Lemma scan_ok ns : forall d, wf d -> (forall n, n ∈ ns -> n ∈ m_USockEventNotice d) -> NoDup (node <$> ns) ->
  wf (scan (node <$> ns) d).1 /\ (scan (node <$> ns) d).2 = view_notice <$> ns /\
  view (scan (node <$> ns) d).1 = mkSpec (subs (view d)) (fold_left (fun l n => lower (parent n) (Z.lnot (once (view d) (parent n))) l) ns (ready (view d))).
Proof.
  induction ns as [|n ns IH]; intros d H Hin Hd; [done|]. cbn [fmap list_fmap] in *. apply list.NoDup_cons in Hd as [Hn Hd].
  assert (Hnd : n ∈ m_USockEventNotice d) by (apply Hin; by left). destruct (checkEdge_ok d n H Hnd) as [H1 H2].
  cbn [scan]. unfold report. rewrite (notice_at_ok d n H Hnd). destruct (IH (checkEdge (node n) d).1 H1) as (G1 & G2 & G3); [|done|].
  { intros n' Hn'. apply checkEdge_others; try done; [apply Hin; by right|]. intros E. apply Hn. rewrite <- E. apply list_elem_of_fmap. eauto. }
  destruct (scan (node <$> ns) (checkEdge (node n) d).1) as [d2 rs]. cbn [fst snd] in *. split; [done|]. split.
  - rewrite G2. destruct (wf_parent d H n Hnd) as [E _]. unfold view_notice at 2. by rewrite E.
  - rewrite G3, H2. cbn [subs ready fold_left]. reflexivity.
Qed.

Lemma lower_middle u e m (pre l : list (Z * Z)) : u ∉ pre.*1 -> lower u m (pre ++ (u, e) :: l) = pre ++ (if Z.land e m =? 0 then l else (u, Z.land e m) :: l).
Proof.
  induction pre as [|[k x] pre IH]; [cbn; by rewrite Z.eqb_refl|]. intros Hu. cbn in Hu. apply not_elem_of_cons in Hu as [Hu1 Hu2]. cbn.
  rewrite (proj2 (Z.eqb_neq _ _)) by congruence. by rewrite IH.
Qed.

Lemma fold_lower f (ns : list Notice) (pre rest : list (Z * Z)) : NoDup (pre.*1 ++ (parent <$> ns)) ->
  fold_left (fun l n => lower (parent n) (Z.lnot (f (parent n))) l) ns (pre ++ (view_notice <$> ns) ++ rest) =
    pre ++ omap (fun e => let ev := clr e.2 (f e.1) in if ev =? 0 then None else Some (e.1, ev)) (view_notice <$> ns) ++ rest.
Proof.
  revert pre. induction ns as [|n ns IH]; intros pre Hd; [done|]. cbn [fold_left fmap list_fmap view_notice app omap list_omap fst snd]. cbn [fmap list_fmap] in Hd.
  apply list.NoDup_app in Hd as (D1 & D2 & [D3 D4]%list.NoDup_cons). change (view_notice n) with (parent n, events n). rewrite lower_middle by (intros Hp; apply (D2 _ Hp); by left).
  destruct (_ =? 0).
  - apply IH. apply list.NoDup_app. split; [done|]. split; [|done]. intros u Hu Hn. apply (D2 u Hu). by right.
  - change ((parent n, clr (events n) (f (parent n))) :: (view_notice <$> ns) ++ rest) with ([(parent n, clr (events n) (f (parent n)))] ++ (view_notice <$> ns) ++ rest).
    rewrite app_assoc, IH.
    + by rewrite <- app_assoc.
    + rewrite fmap_app. apply list.NoDup_app. split; [|split; [|done]].
      * apply list.NoDup_app. split; [done|]. split; [|by apply NoDup_singleton]. intros u Hu E%list_elem_of_singleton. cbn in E. subst u. apply (D2 _ Hu). by left.
      * intros u [Hu|E%list_elem_of_singleton]%elem_of_app Hn; [apply (D2 u Hu); by right|]. cbn in E. by subst u.
Qed.

Lemma check_ok d k : wf d -> let r := scan (take k (node <$> m_USockEventNotice d)) d in wf r.1 /\ view r.1 = (check k (view d)).1 /\ r.2 = (check k (view d)).2.
Proof.
  intros H. cbn zeta. rewrite <- fmap_take. destruct (scan_ok (take k (m_USockEventNotice d)) d H) as (G1 & G2 & G3).
  - intros n Hn. by eapply elem_of_take_1 in Hn || (apply list_elem_of_lookup in Hn as [i Hi]; apply lookup_take_Some in Hi as [Hi _]; by eapply list_elem_of_lookup_2).
  - rewrite fmap_take. eapply sublist_NoDup; [apply (wf_nodup d H)|apply sublist_take].
  - split; [done|]. split; [|by rewrite G2; unfold check; cbn; rewrite fmap_take]. rewrite G3. unfold check. cbn [fst]. f_equal.
    assert (E : ready (view d) = [] ++ (view_notice <$> take k (m_USockEventNotice d)) ++ drop k (ready (view d))).
    { cbn [app view ready]. by rewrite fmap_take, take_drop. }
    rewrite E at 1. rewrite fold_lower; [cbn [app]; cbn [ready view]; by rewrite fmap_take|].
    cbn [app fmap list_fmap]. rewrite fmap_take. eapply sublist_NoDup; [apply (parents_nodup d H)|apply sublist_take].
Qed.

(** ** The operations *)

Lemma watch_view d u : subs (view d) !! u = view_sub <$> m_USockWatchState d !! u.
Proof. cbn. apply lookup_fmap. Qed.

Lemma spec_eta s : mkSpec (subs s) (ready s) = s.
Proof. by destruct s. Qed.

Lemma update_poll_ok d u ev en : wf d ->
  wf (CEPoll.update_poll u ev en d).1 /\ view (CEPoll.update_poll u ev en d).1 = (update u ev en (view d)).1 /\ (CEPoll.update_poll u ev en d).2 = (update u ev en (view d)).2.
Proof.
  intros H. unfold CEPoll.update_poll, update, watch_find. rewrite watch_view. destruct (m_USockWatchState d !! u) as [w|] eqn:Hw; [|done]. cbn [fmap option_fmap option_map view_sub s_state s_watch s_edge].
  set (newstate := if en then Z.lor (state w) ev else clr (state w) ev). destruct (Z.lxor (state w) newstate =? 0); [done|].
  assert (H' : wf (put_wait u (set_state newstate w) d)) by (by eapply wf_put). cbn [set_state watch].
  assert (Hw' : m_USockWatchState (put_wait u (set_state newstate w) d) !! u = Some (set_state newstate w)) by (cbn; apply lookup_insert_eq).
  destruct (Z.land _ (watch w) =? 0); cbn [fst snd].
  - split; [done|]. by rewrite view_put.
  - unfold updateEventNotice. destruct en.
    + destruct (addEventNotice_ok _ u _ ev H' Hw') as [G1 G2]. split; [done|]. by rewrite G2, view_put.
    + destruct (removeExcess_ok _ u _ (Z.lnot ev) H' Hw') as [G1 G2]. split; [done|]. by rewrite G2, view_put.
Qed.

Lemma wf_fresh d u w : wf d -> m_USockWatchState d !! u = None -> notit w = None -> wf (put_wait u w d).
Proof.
  intros [H1 H2 H3 H4] Hu Hw. split; try done; cbn.
  - intros n Hn. destruct (H3 n Hn) as [? (w0 & Hw0 & E0)]. split; [done|]. exists w0. rewrite lookup_insert_ne; [done|]. intros ->. congruence.
  - intros v w0 i. destruct (decide (v = u)) as [->|Hne]; [rewrite lookup_insert_eq; intros [= <-]; congruence|]. rewrite lookup_insert_ne by done. by apply H4.
Qed.

(** The end of [update_sub]: what is on already is noted. *)
Lemma raise_state d u w : wf d -> m_USockWatchState d !! u = Some w ->
  let d' := (let newstate := Z.land (watch w) (state w) in if negb (newstate =? 0) then addEventNotice u w newstate d else d) in
  wf d' /\ view d' = mkSpec (subs (view d)) (if Z.land (watch w) (state w) =? 0 then ready (view d) else raise u (Z.land (watch w) (state w)) (ready (view d))).
Proof. intros H Hw. cbn zeta. destruct (_ =? 0) eqn:E; cbn [negb]; [split; [done|by rewrite spec_eta]|by apply addEventNotice_ok]. Qed.

Lemma removeExcess_watch d u w m v : m_USockWatchState d !! u = Some w ->
  m_USockWatchState (removeExcessEvents u w m d) !! v = m_USockWatchState d !! v \/ v = u /\ m_USockWatchState (removeExcessEvents u w m d) !! v = Some (set_notit None w).
Proof.
  intros Hw. unfold removeExcessEvents. destruct (notit w) as [i|] eqn:Ei; [|by left]. destruct (notice_at i d) as [n|]; [|by left]. destruct (negb _); [by left|].
  unfold removeExistingNotices, watch_find. rewrite Hw, Ei. cbn. destruct (decide (v = u)) as [->|Hne]; [right; by rewrite lookup_insert_eq|left; by rewrite lookup_insert_ne].
Qed.

Lemma update_sub_ok d u ev : wf d ->
  wf (CEPoll.update_sub u ev d).1 /\ view (CEPoll.update_sub u ev d).1 = (update_sub u ev (view d)).1 /\
  (CEPoll.update_sub u ev d).2 = (if (update_sub u ev (view d)).2 then inr 0 else inl CEPoll.NOTSUP_INVAL).
Proof.
  intros H. unfold CEPoll.update_sub, update_sub. change (Z.lor (Z.lor SRT_EPOLL_IN SRT_EPOLL_OUT) SRT_EPOLL_ERR) with 13. change SRT_EPOLL_ET with 0x80000000. change SRT_EPOLL_ETONLY with 0x10.
  cbn zeta. set (evts := Z.land (default 13 ev) 0x7FFFFFFF). set (edge := has (default 13 ev) 0x80000000). set (et := if edge then evts else Z.land evts 16).
  destruct (evts =? 0) eqn:Ez; cbn [negb].
  - destruct edge; [done|]. cbn [fst snd]. destruct (removeSubscription_ok d u H) as [G1 G2]. done.
  - unfold addWatch, watch_find, subscribe. rewrite watch_view. destruct (m_USockWatchState d !! u) as [w|] eqn:Hw; cbn [fmap option_fmap option_map view_sub s_watch s_state].
    + set (d1 := if negb (clr (watch w) evts =? 0) then removeExcessEvents u w evts d else d).
      assert (H1 : wf d1 /\ view d1 = mkSpec (subs (view d)) (if clr (watch w) evts =? 0 then ready (view d) else lower u evts (ready (view d))) /\
        exists w1, m_USockWatchState d1 !! u = Some w1 /\ state w1 = state w).
      { unfold d1. destruct (Z.land (watch w) (Z.lnot evts) =? 0); cbn [negb]; [split; [done|]; split; [by rewrite spec_eta|by exists w]|]. destruct (removeExcess_ok d u w evts H Hw) as [G1 G2]. split; [done|].
        split; [done|]. destruct (removeExcess_watch d u w evts u Hw) as [->|[_ ->]]; [by exists w|by eexists]. }
      destruct H1 as (H1 & E1 & w1 & Hw1 & Es). rewrite Hw1. set (w2 := mkWait evts et (state w1) (notit w1)).
      assert (Hw2 : m_USockWatchState (put_wait u w2 d1) !! u = Some w2) by (cbn; apply lookup_insert_eq). rewrite Hw2.
      destruct (raise_state (put_wait u w2 d1) u w2) as [G1 G2]; [by eapply wf_put|done|]. cbn zeta in G1, G2. split; [exact G1|]. split; [|done]. cbn [fst]. rewrite G2, view_put, E1.
      change (view_sub w2) with (mkSub evts et (state w1)). cbn [subs ready]. change (watch w2) with evts. change (state w2) with (state w1). by rewrite Es.
    + cbn [fst snd]. assert (Hw2 : m_USockWatchState (put_wait u (mkWait evts et 0 None) d) !! u = Some (mkWait evts et 0 None)) by (cbn; apply lookup_insert_eq). rewrite Hw2.
      cbn [watch state]. rewrite Z.land_0_r. change (0 =? 0) with true. cbn [negb fst]. split; [by apply wf_fresh|]. split; [|done]. by rewrite view_put.
Qed.

Lemma clear_events_ok dir ns : forall d, wf d -> (forall n, n ∈ ns -> n ∈ m_USockEventNotice d) ->
  let r := CEPoll.clear_events (node <$> ns) dir d in let r' := clear_subs (view_notice <$> ns) dir (subs (view d)) in
  wf r.1 /\ view r.1 = mkSpec r'.1 (ready (view d)) /\ r.2 = r'.2.
Proof.
  induction ns as [|n ns IH]; intros d H Hin; cbn zeta; [done|]. cbn [fmap list_fmap CEPoll.clear_events].
  change (view_notice n) with (parent n, events n). cbn [clear_subs].
  assert (Hn : n ∈ m_USockEventNotice d) by (apply Hin; by left). unfold clearEventSub, watch_find. rewrite (notice_at_ok d n H Hn).
  destruct (wf_parent d H n Hn) as [Efd (w & Hw & Ew)]. rewrite Hw, watch_view, Hw. cbn [fmap option_fmap option_map]. cbn [view_sub s_watch s_edge s_state].
  destruct (has (events n) dir); cbn [andb].
  2: { specialize (IH d H (fun n' Hn' => Hin n' ltac:(by right))). cbn zeta in IH. destruct (CEPoll.clear_events (node <$> ns) dir d) as [d2 c]. done. }
  unfold clear. destruct (has (watch w) dir).
  - set (w' := mkWait _ _ _ _). assert (H' : wf (put_wait (parent n) w' d)) by (by eapply wf_put).
    specialize (IH (put_wait (parent n) w' d) H' (fun n' Hn' => Hin n' ltac:(by right))). cbn zeta in IH. rewrite view_put in IH. cbn [subs ready] in IH.
    change (view_sub w') with (mkSub (clr (watch w) dir) (clr (edge w) dir) (clr (state w) dir)) in IH.
    destruct (CEPoll.clear_events (node <$> ns) dir (put_wait (parent n) w' d)) as [d2 c]. destruct (clear_subs (view_notice <$> ns) dir _) as [m c']. cbn [fst snd] in *.
    destruct IH as (G1 & G2 & ->). split; [done|]. split; [done|]. rewrite Efd. by destruct (_ =? 0).
  - assert (E : put_wait (parent n) w d = d) by (destruct d; unfold put_wait, set_watches; cbn; f_equal; by apply insert_id). rewrite E.
    specialize (IH d H (fun n' Hn' => Hin n' ltac:(by right))). cbn zeta in IH.
    destruct (CEPoll.clear_events (node <$> ns) dir d) as [d2 c]. done.
Qed.

Lemma clear_ready_ok d dir : wf d -> wf (CEPoll.clear_ready_usocks dir d) /\ view (CEPoll.clear_ready_usocks dir d) = clear_ready dir (view d).
Proof.
  intros H. unfold CEPoll.clear_ready_usocks, clear_ready. change (Z.lnot SRT_EPOLL_EVENTTYPES) with (Z.lnot 0x1d). destruct (has dir _); [done|].
  destruct (clear_events_ok dir (m_USockEventNotice d) d H (fun n Hn => Hn)) as (G1 & G2 & G3). change (ready (view d)) with (view_notice <$> m_USockEventNotice d) in *.
  destruct (CEPoll.clear_events (node <$> m_USockEventNotice d) dir d) as [d' gone]. destruct (clear_subs _ _ _) as [m gone']. cbn [fst snd] in *. subst gone'. rewrite <- G2. clear -G1.
  revert d' G1. induction gone as [|u gone IH]; intros d' G1; [done|]. cbn [fold_left]. destruct (removeSubscription_ok d' u G1) as [G2 G3]. rewrite <- G3. by apply IH.
Qed.

Lemma clearAll_ok d : wf d -> wf (clearAll d) /\ view (clearAll d) = mkSpec ∅ [].
Proof.
  intros H. split; [|unfold view; cbn; by rewrite fmap_empty]. split; cbn; try done; try (by constructor).
  - intros n []%not_elem_of_nil.
  - intros n []%not_elem_of_nil.
Qed.
