(* ===== verification/EpollRun.v ===== *)
(** Runs of operations on one poll: against the specification of EpollInv.v,
    what a check reports, and what it should not. *)
From stdpp Require Import gmap.
From S2P Require Import Prelude Epoll EpollInv.
Import CEPollDesc EpollSpec.

Module EpollRun.
Inductive op :=
  | OSub (u : Z) (ev : option Z)
  | OUpdate (u ev : Z) (enable : bool)
  | OClearReady (direction : Z)
  | OClearAll
  | OUwait (fdsSize : Z)
  | OSwait
  | OWait.

Inductive output :=
  | Answer (r : CEPoll.error + Z)
  | Updated (b : bool)
  | Reported (r : CEPoll.error + option (list (Z * Z)))
  | Swaited (r : CEPoll.error + option (Z * option (gmap Z Z)))
  | Waited (r : CEPoll.error + CEPoll.ready).

Definition no_sets : CEPoll.ready := CEPoll.mkReady (Some ∅) (Some ∅) None None 0.

Definition exec1 (o : op) (d : t) : t * output :=
  match o with
  | OSub u ev => let '(d, r) := CEPoll.update_sub u ev d in (d, Answer r)
  | OUpdate u ev en => let '(d, b) := CEPoll.update_poll u ev en d in (d, Updated b)
  | OClearReady dir => (CEPoll.clear_ready_usocks dir d, Answer (inr 0))
  | OClearAll => (clearAll d, Answer (inr 0))
  | OUwait size => let '(d, r) := CEPoll.uwait_check false size d in (d, Reported r)
  | OSwait => let '(d, r) := CEPoll.swait false true false true d in (d, Swaited r)
  | OWait => let '(d, r) := CEPoll.wait_check no_sets [] d in (d, Waited r)
  end.

Definition everything (s : spec) : nat := length (ready s).

Definition spec1 (o : op) (s : spec) : spec * output :=
  let nothing := bool_decide (subs s = ∅) in
  match o with
  | OSub u ev => let '(s, b) := update_sub u ev s in (s, Answer (if b then inr 0 else inl CEPoll.NOTSUP_INVAL))
  | OUpdate u ev en => let '(s, b) := update u ev en s in (s, Updated b)
  | OClearReady dir => (clear_ready dir s, Answer (inr 0))
  | OClearAll => (mkSpec ∅ [], Answer (inr 0))
  | OUwait size =>
      if nothing then (s, Reported (inl CEPoll.NOTSUP_EEMPTY))
      else let '(s, rs) := check (Z.to_nat size) s in (s, Reported (inr (match rs with [] => None | _ => Some rs end)))
  | OSwait =>
      if nothing then (s, Swaited (inl CEPoll.NOTSUP_EEMPTY))
      else let '(s, rs) := check (everything s) s in (s, Swaited (inr (Some (zlen rs, Some (fold_left (fun m e => <[e.1 := e.2]> m) rs ∅)))))
  | OWait =>
      if nothing then (s, Waited (inl CEPoll.NOTSUP_EEMPTY))
      else let '(s, rs) := check (everything s) s in (s, Waited (inr (fold_left CEPoll.wait_notice rs no_sets)))
  end.

Fixpoint run {S} (step : op -> S -> S * output) (os : list op) (s : S) : S * list output :=
  match os with
  | [] => (s, [])
  | o :: os => let '(s, r) := step o s in let '(s, rs) := run step os s in (s, r :: rs)
  end.

Lemma run_app {S} (step : op -> S -> S * output) os os' s :
  run step (os ++ os') s = ((run step os' (run step os s).1).1, (run step os s).2 ++ (run step os' (run step os s).1).2).
Proof.
  revert s. induction os as [|o os IH]; intros s; cbn [app run fst snd]; [by destruct (run step os' s)|].
  destruct (step o s) as [s1 r]. rewrite IH. destruct (run step os s1) as [s2 rs]. done.
Qed.
End EpollRun.
Import EpollRun.

(** ** Flags and system sockets stay as they are *)

Definition plain (d : t) : Prop := m_Flags d = 0 /\ m_sLocals d = ∅.

Ltac plain_cases := intros [? ?]; repeat case_match; try (split; assumption).

Lemma plain_removeExisting u d : plain d -> plain (removeExistingNotices u d).
Proof. unfold removeExistingNotices. plain_cases. Qed.
Lemma plain_addEventNotice u w ev d : plain d -> plain (addEventNotice u w ev d).
Proof. unfold addEventNotice. plain_cases. Qed.
Lemma plain_removeExcess u w m d : plain d -> plain (removeExcessEvents u w m d).
Proof. unfold removeExcessEvents. plain_cases. by apply plain_removeExisting. Qed.
Lemma plain_removeSubscription u d : plain d -> plain (removeSubscription u d).
Proof. unfold removeSubscription. plain_cases. Qed.
Lemma plain_checkEdge i d : plain d -> plain (checkEdge i d).1.
Proof. unfold checkEdge. plain_cases. by apply plain_removeExisting. Qed.

Create HintDb plain.
#[export] Hint Resolve plain_removeExisting plain_addEventNotice plain_removeExcess plain_removeSubscription plain_checkEdge : plain.

Lemma plain_scan ids : forall d, plain d -> plain (scan ids d).1.
Proof.
  induction ids as [|i ids IH]; intros d H; [done|]. cbn [scan]. unfold report. destruct (notice_at i d).
  - specialize (IH (checkEdge i d).1 (plain_checkEdge i d H)). by destruct (scan ids _).
  - specialize (IH d H). by destruct (scan ids d).
Qed.

Lemma plain_clear_events ids dir : forall d, plain d -> plain (CEPoll.clear_events ids dir d).1.
Proof.
  induction ids as [|i ids IH]; intros d H; [done|]. cbn [CEPoll.clear_events]. assert (H' : plain (clearEventSub i dir d).1) by (revert H; unfold clearEventSub; plain_cases).
  destruct (clearEventSub i dir d) as [d1 r]. specialize (IH d1 H'). by destruct (CEPoll.clear_events ids dir d1).
Qed.

Lemma plain_clear_ready dir d : plain d -> plain (CEPoll.clear_ready_usocks dir d).
Proof.
  intros H. unfold CEPoll.clear_ready_usocks. destruct (negb _); [done|]. pose proof (plain_clear_events (node <$> m_USockEventNotice d) dir d H) as H1.
  destruct (CEPoll.clear_events _ dir d) as [d1 gone]. cbn [fst] in H1. clear H. revert d1 H1. induction gone as [|u gone IH]; intros d1 H1; [done|]. apply IH. by apply plain_removeSubscription.
Qed.

Lemma plain_update_poll u ev en d : plain d -> plain (CEPoll.update_poll u ev en d).1.
Proof. intros H. unfold CEPoll.update_poll, updateEventNotice. repeat case_match; cbn [fst]; first [exact H | by apply plain_addEventNotice | by apply plain_removeExcess]. Qed.

Lemma plain_addWatch u ev et d : plain d -> plain (addWatch u ev et d).1.1.
Proof. unfold addWatch. plain_cases. Qed.

Lemma plain_update_sub u ev d : plain d -> plain (CEPoll.update_sub u ev d).1.
Proof.
  intros H. unfold CEPoll.update_sub. cbn zeta. destruct (negb _).
  - set (evts := Z.land _ 0x7FFFFFFF). set (et := if negb _ then _ else _). pose proof (plain_addWatch u evts et d H) as Ha.
    destruct (addWatch u evts et d) as [[d1 w] fresh]. cbn [fst] in Ha. set (d2 := if fresh then d1 else _). assert (H2 : plain d2).
    { unfold d2. destruct fresh; [done|]. set (d3 := if negb _ then _ else d1). assert (H3 : plain d3) by (unfold d3; destruct (Z.land (watch w) (Z.lnot evts) =? 0); cbn [negb]; [done|by apply plain_removeExcess]).
      by destruct (watch_find u d3). }
    clearbody d2. destruct (watch_find u d2) as [w2|]; [|done]. cbn [fst]. destruct (Z.land (watch w2) (state w2) =? 0); cbn [negb]; [done|by apply plain_addEventNotice].
  - destruct (negb _); [done|]. by apply plain_removeSubscription.
Qed.

(** ** One operation, and a run *)

Lemma nothing_view d : watch_empty d = bool_decide (subs (view d) = ∅).
Proof.
  unfold watch_empty. apply bool_decide_ext. cbn. split; [intros ->; by rewrite fmap_empty|]. by apply fmap_empty_inv.
Qed.

Lemma plain_flags f d : plain d -> flags f d = false.
Proof. intros [H _]. unfold flags. rewrite H, Z.land_0_l. done. Qed.

Lemma everything_view d : take (everything (view d)) (node <$> m_USockEventNotice d) = node <$> m_USockEventNotice d.
Proof. apply take_ge. unfold everything. cbn. by rewrite !length_fmap. Qed.

Lemma swait_nowait d : plain d -> subs (view d) <> ∅ -> CEPoll.swait false true false true d =
  (let '(d, rs) := scan (node <$> m_USockEventNotice d) d in (d, inr (Some (zlen rs, Some (fold_left (fun m e => <[e.1 := e.2]> m) rs ∅))))).
Proof.
  intros Hp Hs. unfold CEPoll.swait. rewrite !plain_flags, nothing_view by done. rewrite bool_decide_false by done. destruct Hp as [_ ->]. rewrite (bool_decide_true (∅ = ∅)) by done.
  cbn [negb andb orb]. by rewrite orb_true_r.
Qed.

Lemma exec1_ok o d : wf d -> plain d ->
  wf (exec1 o d).1 /\ plain (exec1 o d).1 /\ view (exec1 o d).1 = (spec1 o (view d)).1 /\ (exec1 o d).2 = (spec1 o (view d)).2.
Proof.
  intros H Hp. pose proof (check_ok d) as Hc. destruct o as [u ev|u ev en|dir| |size| |]; cbn [exec1 spec1].
  - destruct (update_sub_ok d u ev H) as (G1 & G2 & G3). pose proof (plain_update_sub u ev d Hp) as G4. destruct (CEPoll.update_sub u ev d) as [d' r].
    destruct (update_sub u ev (view d)) as [s b]. cbn [fst snd] in *. by subst.
  - destruct (update_poll_ok d u ev en H) as (G1 & G2 & G3). pose proof (plain_update_poll u ev en d Hp) as G4. destruct (CEPoll.update_poll u ev en d) as [d' r].
    destruct (update u ev en (view d)) as [s b]. cbn [fst snd] in *. by subst.
  - destruct (clear_ready_ok d dir H) as [G1 G2]. split; [done|]. split; [by apply plain_clear_ready|done].
  - destruct (clearAll_ok d H) as [G1 G2]. done.
  - unfold CEPoll.uwait_check. rewrite !plain_flags, nothing_view by done. cbn [negb andb]. destruct (bool_decide _); [done|]. rewrite (proj2 Hp). rewrite (bool_decide_true (∅ = ∅)) by done. cbn [negb].
    destruct (Hc (Z.to_nat size) H) as (G1 & G2 & G3). pose proof (plain_scan (take (Z.to_nat size) (node <$> m_USockEventNotice d)) d Hp) as G4.
    destruct (scan _ d) as [d' rs]. destruct (check _ (view d)) as [s rs']. cbn [fst snd] in *. by subst.
  - case_bool_decide as Hs.
    + unfold CEPoll.swait. rewrite !plain_flags, nothing_view by done. rewrite bool_decide_true by done. done.
    + rewrite swait_nowait by done. destruct (Hc (everything (view d)) H) as (G1 & G2 & G3). rewrite everything_view in *.
      pose proof (plain_scan (node <$> m_USockEventNotice d) d Hp) as G4. destruct (scan _ d) as [d' rs]. destruct (check _ (view d)) as [s rs']. cbn [fst snd] in *. by subst.
  - unfold CEPoll.wait_check. rewrite !plain_flags, nothing_view by done. cbn [negb andb]. rewrite (proj2 Hp), (bool_decide_true (∅ = ∅)), andb_true_r by done. destruct (bool_decide _); [done|].
    destruct (Hc (everything (view d)) H) as (G1 & G2 & G3). rewrite everything_view in *. pose proof (plain_scan (node <$> m_USockEventNotice d) d Hp) as G4.
    destruct (scan _ d) as [d' rs]. destruct (check _ (view d)) as [s rs']. cbn [fst snd negb] in *. subst. rewrite (proj2 G4), (bool_decide_true (∅ = ∅)) by done. cbn [negb]. by rewrite andb_false_r.
Qed.

Lemma run_ok os : forall d, wf d -> plain d ->
  wf (run exec1 os d).1 /\ plain (run exec1 os d).1 /\ view (run exec1 os d).1 = (run spec1 os (view d)).1 /\ (run exec1 os d).2 = (run spec1 os (view d)).2.
Proof.
  induction os as [|o os IH]; intros d H Hp; [done|]. cbn [run]. destruct (exec1_ok o d H Hp) as (G1 & G2 & G3 & G4). specialize (IH (exec1 o d).1 G1 G2).
  destruct (exec1 o d) as [d1 r]. destruct (spec1 o (view d)) as [s1 r']. cbn [fst snd] in *. subst s1 r'. destruct (run exec1 os d1) as [d2 rs]. destruct (run spec1 os (view d1)) as [s2 rs'].
  cbn [fst snd] in *. destruct IH as (I1 & I2 & I3 & ->). done.
Qed.

Lemma epoll_init_wf : wf init.
Proof. split; cbn; try done; try (by constructor); intros n []%not_elem_of_nil. Qed.

Lemma init_view : view init = mkSpec ∅ [].
Proof. unfold view. cbn. by rewrite fmap_empty. Qed.

(** ** Level-triggered readiness is never lost *)

(** Bit [b] of the events is subscribed without the edge flag, and on. *)
Definition level_on (w : sub) (b : Z) : Prop := Z.testbit (s_watch w) b = true /\ Z.testbit (s_state w) b = true /\ Z.testbit (s_edge w) b = false.

Definition noted (l : list (Z * Z)) (u b : Z) : Prop := exists e, (u, e) ∈ l /\ Z.testbit e b = true.

Definition level (s : spec) : Prop := forall u w b, 0 <= b -> subs s !! u = Some w -> level_on w b -> noted (ready s) u b.

Lemma noted_raise_other u ev l v b : v <> u -> noted l v b -> noted (raise u ev l) v b.
Proof.
  intros Hne (e & Hin & Hb). exists e. split; [|done]. induction l as [|[k x] l IH]; [by apply not_elem_of_nil in Hin|]. cbn.
  apply elem_of_cons in Hin as [[= <- <-]|Hin]; [rewrite (proj2 (Z.eqb_neq v u)) by done; by left|]. destruct (k =? u); right; auto.
Qed.

Lemma noted_raise u ev l b : Z.testbit ev b = true \/ noted l u b -> NoDup l.*1 -> noted (raise u ev l) u b.
Proof.
  induction l as [|[k x] l IH]; cbn; intros H Hd.
  - exists ev. split; [by left|]. destruct H as [H|(e & []%not_elem_of_nil & _)]. done.
  - apply list.NoDup_cons in Hd as [Hk Hd]. destruct (Z.eqb_spec k u) as [->|Hne].
    + exists (Z.lor x ev). split; [by left|]. rewrite Z.lor_spec. destruct H as [->|(e & Hin & Hb)]; [by rewrite orb_true_r|].
      apply elem_of_cons in Hin as [[= <-]|Hin]; [by rewrite Hb|]. exfalso. apply Hk, list_elem_of_fmap. by exists (u, e).
    + destruct IH as (e & Hin & Hb); [|done|].
      * destruct H as [H|(e & Hin & Hb)]; [by left|right]. exists e. split; [|done]. apply elem_of_cons in Hin as [[= <- <-]|]; done.
      * exists e. split; [by right|done].
Qed.

Lemma noted_lower_other u m l v b : v <> u -> noted l v b -> noted (lower u m l) v b.
Proof.
  intros Hne (e & Hin & Hb). exists e. split; [|done]. induction l as [|[k x] l IH]; [done|]. cbn.
  apply elem_of_cons in Hin as [[= <- <-]|Hin]; [rewrite (proj2 (Z.eqb_neq v u)) by done; by left|].
  destruct (k =? u); [destruct (Z.land x m =? 0); [done|by right]|right; auto].
Qed.

Lemma nonzero_bit x b : Z.testbit x b = true -> x <> 0.
Proof. intros H ->. by rewrite Z.testbit_0_l in H. Qed.

Lemma noted_lower u m l b : Z.testbit m b = true -> noted l u b -> NoDup l.*1 -> noted (lower u m l) u b.
Proof.
  intros Hm (e & Hin & Hb) Hd. exists (Z.land e m). assert (Hbit : Z.testbit (Z.land e m) b = true) by (by rewrite Z.land_spec, Hb, Hm). split; [|done].
  induction l as [|[k x] l IH]; [by apply not_elem_of_nil in Hin|]. cbn in *. apply list.NoDup_cons in Hd as [Hk Hd].
  apply elem_of_cons in Hin as [[= <- <-]|Hin].
  - rewrite Z.eqb_refl. apply nonzero_bit, Z.eqb_neq in Hbit. rewrite Hbit. by left.
  - destruct (Z.eqb_spec k u) as [->|]; [exfalso; apply Hk, list_elem_of_fmap; by exists (u, e)|]. right. by apply IH.
Qed.

Definition keys_ok (s : spec) : Prop := NoDup (ready s).*1.

Lemma wf_keys d : wf d -> keys_ok (view d).
Proof. intros H. unfold keys_ok. cbn. rewrite view_keys. by apply parents_nodup. Qed.

Lemma raise_keys u ev l : (raise u ev l).*1 = l.*1 \/ (raise u ev l).*1 = l.*1 ++ [u].
Proof. induction l as [|[k x] l IH]; cbn; [by right|]. destruct (k =? u); [by left|]. cbn. destruct IH as [->| ->]; auto. Qed.

Lemma lower_keys u m l : sublist (lower u m l).*1 l.*1.
Proof. induction l as [|[k x] l IH]; cbn; [constructor|]. destruct (k =? u); [destruct (_ =? 0); cbn; by constructor|]. cbn. by constructor. Qed.

Lemma level_lower u m s : level s -> keys_ok s ->
  (forall w b, subs s !! u = Some w -> level_on w b -> Z.testbit m b = true) -> level (mkSpec (subs s) (lower u m (ready s))).
Proof.
  intros Hl Hk Hm v w b Hb Hv Hon. cbn in *. specialize (Hl v w b Hb Hv Hon). destruct (decide (v = u)) as [->|Hne]; [|by apply noted_lower_other].
  apply noted_lower; [by eapply Hm|done|done].
Qed.

(** [1] is on in [m] where a level-triggered event of [w] is on. *)
Lemma update_level u ev en s : level s -> keys_ok s -> level (update u ev en s).1.
Proof.
  intros Hl Hk. unfold update. destruct (subs s !! u) as [w|] eqn:Hw; [|done]. set (st := if en then Z.lor (s_state w) ev else clr (s_state w) ev).
  destruct (Z.lxor (s_state w) st =? 0) eqn:E1; [done|].
  assert (Hother : forall v w' b, v <> u -> 0 <= b -> <[u:=mkSub (s_watch w) (s_edge w) st]> (subs s) !! v = Some w' -> level_on w' b -> noted (ready s) v b).
  { intros v w' b Hne Hb Hv Hon. rewrite lookup_insert_ne in Hv by done. by eapply Hl. }
  destruct (Z.land _ _ =? 0) eqn:E2; cbn [fst].
  - intros v w' b Hb Hv Hon. cbn in *. destruct (decide (v = u)) as [->|Hne]; [|by eapply Hother]. rewrite lookup_insert_eq in Hv. injection Hv as <-. destruct Hon as (H1 & H2 & H3). cbn in *.
    apply (Hl u w b Hb Hw). split; [done|]. split; [|done]. apply Z.eqb_eq in E2. assert (Hx : Z.testbit (Z.land (Z.lxor (s_state w) st) (s_watch w)) b = false) by (rewrite E2; apply Z.testbit_0_l).
    rewrite Z.land_spec, Z.lxor_spec, H1, H2, andb_true_r in Hx. by destruct (Z.testbit (s_state w) b).
  - intros v w' b Hb Hv Hon. cbn [subs ready] in *. destruct (decide (v = u)) as [->|Hne].
    + rewrite lookup_insert_eq in Hv. injection Hv as <-. destruct Hon as (H1 & H2 & H3). cbn in *. unfold st in H2. destruct en.
      * rewrite Z.lor_spec in H2. apply noted_raise; [|done]. destruct (Z.testbit ev b) eqn:Eb; [by left|right]. rewrite orb_false_r in H2. by apply (Hl u w b Hb Hw).
      * rewrite Z.land_spec in H2. apply andb_true_iff in H2 as [H2 H4]. apply noted_lower; [done| |done]. by apply (Hl u w b Hb Hw).
    + destruct en; [apply noted_raise_other|apply noted_lower_other]; try done; by eapply Hother.
Qed.

Lemma subscribe_level u evts et s : level s -> keys_ok s -> level (subscribe u evts et s).
Proof.
  intros Hl Hk. unfold subscribe. destruct (subs s !! u) as [w|] eqn:Hw.
  - set (l := if clr (s_watch w) evts =? 0 then ready s else lower u evts (ready s)).
    assert (Hd : NoDup l.*1) by (unfold l; destruct (clr (s_watch w) evts =? 0); [done|]; eapply sublist_NoDup; [exact Hk|apply lower_keys]).
    intros v w' b Hb Hv Hon. cbn [subs ready] in *. destruct (decide (v = u)) as [->|Hne].
    + rewrite lookup_insert_eq in Hv. injection Hv as <-. destruct Hon as (H1 & H2 & H3). cbn in *.
      assert (Hbit : Z.testbit (Z.land evts (s_state w)) b = true) by (by rewrite Z.land_spec, H1, H2). apply nonzero_bit in Hbit as Hnz. apply Z.eqb_neq in Hnz. rewrite Hnz.
      apply noted_raise; [by left|done].
    + rewrite lookup_insert_ne in Hv by done. assert (Hn : noted l v b) by (unfold l; destruct (clr (s_watch w) evts =? 0); [by eapply Hl|]; apply noted_lower_other; [done|by eapply Hl]).
      destruct (Z.land evts (s_state w) =? 0); [done|]. by apply noted_raise_other.
  - intros v w' b Hb Hv Hon. cbn in *. destruct (decide (v = u)) as [->|Hne].
    + rewrite lookup_insert_eq in Hv. injection Hv as <-. destruct Hon as (H1 & H2 & H3). cbn in *. by rewrite Z.testbit_0_l in H2.
    + rewrite lookup_insert_ne in Hv by done. by eapply Hl.
Qed.

Lemma unsubscribe_level u s : level s -> level (unsubscribe u s).
Proof.
  intros Hl v w b Hb Hv Hon. cbn in *. apply lookup_delete_Some in Hv as [Hne Hv]. destruct (Hl v w b Hb Hv Hon) as (e & Hin & He). exists e. split; [|done].
  apply list_elem_of_filter. split; [cbn; congruence|done].
Qed.

Lemma update_sub_level u ev s : level s -> keys_ok s -> level (update_sub u ev s).1.
Proof.
  intros Hl Hk. unfold update_sub. cbn zeta. destruct (_ =? 0); [destruct (has _ 0x80000000); [done|by apply unsubscribe_level]|by apply subscribe_level].
Qed.

Lemma clear_subs_level l dir r : forall m, level (mkSpec m r) -> level (mkSpec (clear_subs l dir m).1 r).
Proof.
  induction l as [|[u e] l IH]; intros m Hl; [done|]. cbn [clear_subs]. destruct (m !! u) as [w|] eqn:Hw; [|by apply IH]. destruct (_ && _); [|by apply IH].
  set (w' := mkSub _ _ _). specialize (IH (<[u := w']> m)). destruct (clear_subs l dir (<[u := w']> m)) as [m' gone]. cbn [fst] in *. apply IH.
  intros v w0 b Hb Hv Hon. cbn in *. destruct (decide (v = u)) as [->|Hne]; [|rewrite lookup_insert_ne in Hv by done; by eapply Hl].
  rewrite lookup_insert_eq in Hv. injection Hv as <-. destruct Hon as (H1 & H2 & H3). cbn in *. rewrite Z.land_spec in H1, H2, H3. apply andb_true_iff in H1 as [H1 H4], H2 as [H2 _].
  rewrite H4, andb_true_r in H3. by apply (Hl u w b Hb Hw).
Qed.

Lemma clear_ready_level dir s : level s -> level (clear_ready dir s).
Proof.
  intros Hl. unfold clear_ready. destruct (negb _); [done|]. pose proof (clear_subs_level (ready s) dir (ready s) (subs s)) as H. rewrite spec_eta in H. specialize (H Hl).
  destruct (clear_subs _ _ _) as [m gone]. cbn [fst] in H. revert H. generalize (mkSpec m (ready s)). induction gone as [|u gone IH]; intros s' H; [done|]. apply IH. by apply unsubscribe_level.
Qed.

Lemma check_level k s : level s -> level (check k s).1.
Proof.
  intros Hl v w b Hb Hv Hon. cbn [check fst subs ready] in *. destruct (Hl v w b Hb Hv Hon) as (e & Hin & He). unfold noted. rewrite <- (take_drop k (ready s)) in Hin.
  apply elem_of_app in Hin as [Hin|Hin]; [|exists e; split; [apply elem_of_app; by right|done]].
  assert (Hbit : Z.testbit (clr e (once s v)) b = true).
  { destruct Hon as (H1 & H2 & H3). unfold once. rewrite Hv, Z.land_spec, Z.lnot_spec, Z.land_spec, H3, He by done. done. }
  exists (clr e (once s v)). split; [|done]. apply elem_of_app. left. apply list_elem_of_omap. exists (v, e). split; [done|]. cbn.
  apply nonzero_bit, Z.eqb_neq in Hbit. by rewrite Hbit.
Qed.

Lemma spec1_level o s : level s -> keys_ok s -> level (spec1 o s).1.
Proof.
  intros Hl Hk. destruct o as [u ev|u ev en|dir| |size| |]; cbn [spec1].
  - pose proof (update_sub_level u ev s Hl Hk) as H. by destruct (update_sub u ev s).
  - pose proof (update_level u ev en s Hl Hk) as H. by destruct (update u ev en s).
  - by apply clear_ready_level.
  - by intros v w b _ Hv.
  - destruct (bool_decide _); [done|]. by apply check_level.
  - destruct (bool_decide _); [done|]. by apply check_level.
  - destruct (bool_decide _); [done|]. by apply check_level.
Qed.

Lemma run_level os : forall d, wf d -> plain d -> level (view d) -> level (view (run exec1 os d).1).
Proof.
  induction os as [|o os IH]; intros d H Hp Hl; [done|]. cbn [run]. destruct (exec1_ok o d H Hp) as (G1 & G2 & G3 & G4).
  pose proof (spec1_level o (view d) Hl (wf_keys d H)) as G5. rewrite <- G3 in G5. specialize (IH (exec1 o d).1 G1 G2 G5). destruct (exec1 o d) as [d1 r]. cbn [fst] in *.
  by destruct (run exec1 os d1).
Qed.

(** ** What a check reports *)

Lemma fold_insert_other (l : list (Z * Z)) u : forall m : gmap Z Z, u ∉ l.*1 -> fold_left (fun m e => <[e.1 := e.2]> m) l m !! u = m !! u.
Proof.
  induction l as [|[k x] l IH]; intros m Hu; [done|]. cbn in Hu. apply not_elem_of_cons in Hu as [Hk Hu]. cbn [fold_left fst snd]. rewrite IH by done. by rewrite lookup_insert_ne.
Qed.

Lemma fold_insert (l : list (Z * Z)) u e : forall m : gmap Z Z, NoDup l.*1 -> (u, e) ∈ l -> fold_left (fun m e => <[e.1 := e.2]> m) l m !! u = Some e.
Proof.
  induction l as [|[k x] l IH]; intros m Hd Hin; [by apply not_elem_of_nil in Hin|]. cbn in Hd. apply list.NoDup_cons in Hd as [Hk Hd]. cbn [fold_left fst snd].
  apply elem_of_cons in Hin as [[= -> ->]|Hin]; [|by apply IH]. rewrite fold_insert_other by done. by rewrite lookup_insert_eq.
Qed.

(** [swait] says for [u], among others, the event [b]. *)
Definition reports (d : t) (u b : Z) : Prop := exists n m e,
  (CEPoll.swait false true false true d).2 = inr (Some (n, Some m)) /\ m !! u = Some e /\ Z.testbit e b = true.

Lemma noted_subs d u b : wf d -> noted (ready (view d)) u b -> subs (view d) <> ∅.
Proof.
  intros H (e & Hin & _) E. apply list_elem_of_fmap in Hin as (n & _ & Hn). destruct (wf_parent d H n Hn) as [_ (w & Hw & _)].
  assert (Hs : subs (view d) !! parent n = Some (view_sub w)) by (by rewrite watch_view, Hw). rewrite E in Hs. by rewrite lookup_empty in Hs.
Qed.

Lemma noted_reports d u b : wf d -> plain d -> noted (ready (view d)) u b -> reports d u b.
Proof.
  intros H Hp Hn. unfold reports. rewrite swait_nowait by (try done; by eapply noted_subs). destruct Hn as (e & Hin & He).
  destruct (check_ok d (everything (view d)) H) as (_ & _ & G). rewrite everything_view in G. cbn [check snd] in G. unfold everything in G. rewrite take_ge in G by done.
  destruct (scan _ d) as [d' rs]. cbn [snd] in *. subst rs. do 2 eexists. exists e. split; [reflexivity|]. split; [|done]. apply fold_insert; [by apply (wf_keys d H)|done].
Qed.

(** The poll that a run from the beginning leaves. *)
Definition after (os : list op) : t := (run exec1 os init).1.

Lemma after_ok os : wf (after os) /\ plain (after os) /\ level (view (after os)).
Proof.
  assert (Hp : plain init) by done. destruct (run_ok os init epoll_init_wf Hp) as (G1 & G2 & _). split; [done|]. split; [done|]. apply (run_level os init epoll_init_wf Hp). rewrite init_view. by intros ? ? ? _ ?.
Qed.

(** ** Properties *)

(** C23. Any sequence of operations on a poll (subscribing, the sockets' own
    updates, clearing, the checks of uwait, swait and wait) leaves its
    subscriptions and notices pointing to each other one to one, never uses an
    iterator that is not valid, and gives the answers of two plain tables: the
    subscriptions, and the ready sockets in the order in which they became
    ready.  The tables say what the code does, which is not all that the API
    documentation says: see [epoll_last_subscription]. *)
Theorem epoll_refines (os : list op) :
  wf (after os) /\ view (after os) = (run spec1 os (mkSpec ∅ [])).1 /\ (run exec1 os init).2 = (run spec1 os (mkSpec ∅ [])).2.
Proof.
  assert (Hp : plain init) by done. rewrite <- init_view. destruct (run_ok os init epoll_init_wf Hp) as (G1 & _ & G3 & G4). done.
Qed.

(** C24. After any sequence of operations, every event that a socket is
    subscribed for without the edge flag, and that is on, is reported by a
    check. *)
Theorem epoll_level_ready (os : list op) (u : Z) (w : Wait) (b : Z) :
  m_USockWatchState (after os) !! u = Some w -> 0 <= b ->
  Z.testbit (watch w) b = true -> Z.testbit (edge w) b = false -> Z.testbit (state w) b = true -> reports (after os) u b.
Proof.
  intros Hw Hb H1 H2 H3. destruct (after_ok os) as (G1 & G2 & G3). apply noted_reports; [done..|].
  apply (G3 u (view_sub w) b Hb); [by rewrite watch_view, Hw|done].
Qed.

(** C40. When a socket reports several events at once, and one of them is
    subscribed and new, a check reports all of them, those that are not
    subscribed too; and these are reported again by the next check, although
    the subscription may be for edges only. *)
Theorem epoll_unsubscribed_events (os : list op) (u : Z) (w : Wait) (ev b : Z) :
  m_USockWatchState (after os) !! u = Some w -> Z.land (Z.land ev (watch w)) (Z.lnot (state w)) <> 0 ->
  0 <= b -> Z.testbit ev b = true -> Z.testbit (watch w) b = false ->
  reports (after (os ++ [OUpdate u ev true])) u b /\ reports (after (os ++ [OUpdate u ev true; OSwait])) u b.
Proof.
  intros Hw Hnew Hb Hev Hwb. destruct (after_ok os) as (G1 & G2 & _).
  assert (E1 : ready (view (after (os ++ [OUpdate u ev true]))) = raise u ev (ready (view (after os))) /\ subs (view (after (os ++ [OUpdate u ev true]))) !! u = Some (mkSub (watch w) (edge w) (Z.lor (state w) ev))).
  { unfold after at 1 3. rewrite run_app. destruct (exec1_ok (OUpdate u ev true) (after os) G1 G2) as (_ & _ & E & _). cbn [run fst] in *. fold (after os).
    assert (Hsub : subs (view (after os)) !! u = Some (view_sub w)) by (by rewrite watch_view, Hw).
    destruct (exec1 (OUpdate u ev true) (after os)) as [d' r]. cbn [fst] in *. rewrite E. cbn [spec1]. unfold update. rewrite Hsub. cbn [view_sub s_state s_watch s_edge].
    assert (Hx : Z.land (Z.lxor (state w) (Z.lor (state w) ev)) (watch w) = Z.land (Z.land ev (watch w)) (Z.lnot (state w))).
    { apply Z.bits_inj'. intros i Hi. rewrite !Z.land_spec, Z.lxor_spec, Z.lor_spec, Z.lnot_spec by done. by destruct (Z.testbit (state w) i), (Z.testbit ev i), (Z.testbit (watch w) i). }
    rewrite Hx. apply Z.eqb_neq in Hnew as Hn2. rewrite Hn2. destruct (Z.lxor (state w) (Z.lor (state w) ev) =? 0) eqn:Ez.
    - apply Z.eqb_eq in Ez. rewrite Ez, Z.land_0_l in Hx. congruence.
    - cbn. split; [done|apply lookup_insert_eq]. }
  destruct E1 as [E1 E2]. destruct (after_ok (os ++ [OUpdate u ev true])) as (K1 & K2 & _). set (d1 := after (os ++ [OUpdate u ev true])) in *.
  assert (Hn : noted (ready (view d1)) u b) by (rewrite E1; apply noted_raise; [by left|by apply (wf_keys _ G1)]). split; [by apply noted_reports|].
  change [OUpdate u ev true; OSwait] with ([OUpdate u ev true] ++ [OSwait]). rewrite app_assoc. unfold after. rewrite run_app. cbn [run fst].
  change (run exec1 (os ++ [OUpdate u ev true]) init).1 with d1.
  destruct (exec1_ok OSwait d1 K1 K2) as (L1 & L2 & E & _). destruct (exec1 OSwait d1) as [d2 r]. cbn [fst] in *. apply noted_reports; [done..|]. rewrite E. cbn [spec1].
  rewrite bool_decide_false by (by eapply noted_subs). cbn [check fst ready]. destruct Hn as (e & Hin & He). unfold everything. rewrite take_ge, drop_ge, app_nil_r by done.
  assert (Hbit : Z.testbit (clr e (once (view d1) u)) b = true) by (unfold once; rewrite E2; cbn [s_edge s_watch]; rewrite Z.land_spec, Z.lnot_spec, Z.land_spec, Hwb, He, andb_false_r by done; done).
  exists (clr e (once (view d1) u)). split; [|done]. apply list_elem_of_omap. exists (u, e). split; [done|]. cbn. apply nonzero_bit, Z.eqb_neq in Hbit. by rewrite Hbit.
Qed.

(** What a subscription settles, and what comes of updates for other events. *)
Lemma after_snoc os o : wf (after (os ++ [o])) /\ view (after (os ++ [o])) = (spec1 o (view (after os))).1.
Proof.
  split; [apply after_ok|]. unfold after at 1. rewrite run_app. cbn [run fst]. fold (after os). destruct (after_ok os) as (G1 & G2 & _).
  destruct (exec1_ok o (after os) G1 G2) as (_ & _ & E & _). by destruct (exec1 o (after os)).
Qed.

(** The last subscription of a socket is the one that counts: it replaces
    the events and the edge flags of those before it, so that two subscriptions
    never add up.  And what happens on a socket apart from the events that
    it is subscribed for leaves the ready sockets as they are, an error too. *)
Theorem epoll_last_subscription (os : list op) (u e : Z) (He : Z.land e 0x7FFFFFFF <> 0) :
  (exists w, m_USockWatchState (after (os ++ [OSub u (Some e)])) !! u = Some w /\ watch w = Z.land e 0x7FFFFFFF /\
    edge w = (if has e SRT_EPOLL_ET then watch w else Z.land (watch w) SRT_EPOLL_ETONLY)) /\
  forall ev enable, Z.land ev (Z.land e 0x7FFFFFFF) = 0 ->
    ready (view (after (os ++ [OSub u (Some e); OUpdate u ev enable]))) = ready (view (after (os ++ [OSub u (Some e)]))).
Proof.
  destruct (after_snoc os (OSub u (Some e))) as [Hwf Hv]. cbn [spec1] in Hv. unfold update_sub in Hv. cbn [default from_option] in Hv. apply Z.eqb_neq in He as Hb. unfold from_option, id in Hv. rewrite Hb in Hv. cbn [fst] in Hv.
  set (d := after (os ++ [OSub u (Some e)])) in *. set (et := if has e 0x80000000 then _ else _) in *.
  assert (Hs : exists st, subs (view d) !! u = Some (mkSub (Z.land e 0x7FFFFFFF) et st)).
  { rewrite Hv. unfold subscribe. destruct (subs (view (after os)) !! u); cbn [subs]; rewrite lookup_insert_eq; by eexists. }
  destruct Hs as [st Hs]. split.
  - rewrite watch_view in Hs. destruct (m_USockWatchState d !! u) as [w|] eqn:Ew; [|done]. cbn in Hs. injection Hs as H1 H2 _. exists w. split; [done|]. split; [done|]. rewrite H2, H1. done.
  - intros ev enable Hd. change [OSub u (Some e); OUpdate u ev enable] with ([OSub u (Some e)] ++ [OUpdate u ev enable]). rewrite app_assoc.
    destruct (after_snoc (os ++ [OSub u (Some e)]) (OUpdate u ev enable)) as [_ ->]. fold d. cbn [spec1]. unfold update. rewrite Hs. cbn [s_state s_watch s_edge].
    assert (Hx : Z.land (Z.lxor st (if enable then Z.lor st ev else clr st ev)) (Z.land e 0x7FFFFFFF) = 0).
    { apply Z.bits_inj'. intros i Hi. apply (f_equal (fun z => Z.testbit z i)) in Hd. rewrite Z.land_spec, Z.bits_0 in Hd. rewrite Z.land_spec, Z.lxor_spec, Z.bits_0.
      destruct enable; [rewrite Z.lor_spec|rewrite (Z.land_spec st), Z.lnot_spec by done]; destruct (Z.testbit st i), (Z.testbit ev i), (Z.testbit (Z.land e 0x7FFFFFFF) i); done. }
    rewrite Hx. cbn [Z.eqb]. by destruct (Z.lxor _ _ =? 0).
Qed.

(** A socket subscribed for IN only, level-triggered, another for edges of IN;
    both break. *)
Module EpollExample.
Definition ops : list op := [OSub 5 (Some 1); OSub 6 (Some 0x80000001); OUpdate 5 1 true].

Example epoll_outputs : (run exec1 (ops ++ [OUpdate 6 13 true; OUwait 4; OUwait 4]) init).2 =
  [Answer (inr 0); Answer (inr 0); Updated true; Updated true; Reported (inr (Some [(5, 1); (6, 13)])); Reported (inr (Some [(5, 1); (6, 12)]))].
Proof. vm_compute. reflexivity. Qed.
End EpollExample.
Import EpollExample.

Lemma epoll_level_ready_witness : reports (after ops) 5 0.
Proof. apply (epoll_level_ready ops 5 (mkWait 1 0 1 (Some 0%nat)) 0); [vm_compute; reflexivity|lia|reflexivity..]. Defined.

Lemma epoll_unsubscribed_events_witness :
  reports (after (ops ++ [OUpdate 6 13 true])) 6 3 /\ reports (after (ops ++ [OUpdate 6 13 true; OSwait])) 6 3.
Proof. apply (epoll_unsubscribed_events ops 6 (mkWait 1 1 0 None) 13 3); [vm_compute; reflexivity|vm_compute; congruence|lia|reflexivity..]. Defined.

(** IN for edges, then OUT: IN is no longer watched, and nothing is told of
    what arrives nor of an error. *)
Lemma epoll_last_subscription_witness :
  (exists w, m_USockWatchState (after [OSub 6 (Some 0x80000001); OSub 6 (Some 4)]) !! 6 = Some w /\ watch w = 4 /\ edge w = 0) /\
  ready (view (after [OSub 6 (Some 0x80000001); OSub 6 (Some 4); OUpdate 6 9 true])) = ready (view (after [OSub 6 (Some 0x80000001); OSub 6 (Some 4)])).
Proof.
  destruct (epoll_last_subscription [OSub 6 (Some 0x80000001)] 6 4) as [(w & Hw & E1 & E2) H2]; [done|]. split.
  - exists w. split; [exact Hw|]. split; [exact E1|]. rewrite E2, E1. reflexivity.
  - apply (H2 9 true). reflexivity.
Defined.
