(* ===== verification/Handshake.v ===== *)
(** The handshake structure: [CHandShake] and [SrtHSRequest] of handshake.h
    and handshake.cpp, the rejection codes, and the cookie contest that gives
    the two sides of a rendezvous their roles (core.cpp).  A packet's payload
    is a list of 32-bit words, as the machine reads them. *)
From S2P Require Import Prelude Packet.

(** [HandshakeSide] of common.h and [CHandShake::RendezvousState]. *)
Inductive HandshakeSide := HSD_DRAW | HSD_INITIATOR | HSD_RESPONDER.
Inductive RendezvousState := RDV_INVALID | RDV_WAVING | RDV_ATTENTION | RDV_FINE | RDV_INITIATED | RDV_CONNECTED.

#[export] Instance HandshakeSide_eq_dec : EqDecision HandshakeSide.
Proof. solve_decision. Defined.
#[export] Instance RendezvousState_eq_dec : EqDecision RendezvousState.
Proof. solve_decision. Defined.

(** [SRT_REJECT_REASON]; the enumerators that the code below uses. *)
Definition SRT_REJ_UNKNOWN : Z := 0.
Definition SRT_REJ_PEER : Z := 2.
Definition SRT_REJ_RESOURCE : Z := 3.
Definition SRT_REJ_ROGUE : Z := 4.
Definition SRT_REJ_IPE : Z := 6.
Definition SRT_REJ_CLOSE : Z := 7.
Definition SRT_REJ_VERSION : Z := 8.
Definition SRT_REJ_RDVCOOKIE : Z := 9.
Definition SRT_REJ_BADSECRET : Z := 10.
Definition SRT_REJ_UNSECURE : Z := 11.
Definition SRT_REJ_MESSAGEAPI : Z := 12.
Definition SRT_REJ_CONGESTION : Z := 13.
Definition SRT_REJ_FILTER : Z := 14.
Definition SRT_REJ_TIMEOUT : Z := 16.
Definition SRT_REJ_E_SIZE : Z := 17.
Definition SRT_REJC_PREDEFINED : Z := 1000.
Definition SRT_REJC_USERDEFINED : Z := 2000.

(** [UDTRequestType] is an enumeration into which any [int] of a packet is
    cast. *)
Definition URQ_INDUCTION_TYPES : Z := 0.
Definition URQ_INDUCTION : Z := 1.
Definition URQ_WAVEAHAND : Z := 0.
Definition URQ_CONCLUSION : Z := -1.
Definition URQ_AGREEMENT : Z := -2.
Definition URQ_DONE : Z := -3.
Definition URQ_FAILURE_TYPES : Z := 1000.

Definition URQFailure (reason : Z) : Z := URQ_FAILURE_TYPES + reason.

Definition RejectReasonForURQ (req : Z) : Z :=
  if req <? URQ_FAILURE_TYPES then SRT_REJ_UNKNOWN
  else
    let reason := req - URQ_FAILURE_TYPES in
    if (reason <? SRT_REJC_PREDEFINED) && (SRT_REJ_E_SIZE <=? reason) then SRT_REJ_UNKNOWN else reason.

Module CHandShake.
(** In bytes, and in words. *)
Definition m_iContentSize : Z := 48.
Definition content_words : nat := 12.

Definition HS_VERSION_UDT4 : Z := 4.
Definition HS_VERSION_SRT1 : Z := 5.

Definition HS_EXT_HSREQ : Z := 1.
Definition HS_EXT_KMREQ : Z := 2.
Definition HS_EXT_CONFIG : Z := 4.

Record t := mk {
  m_iVersion : Z;
  m_iType : Z;
  m_iISN : Z;
  m_iMSS : Z;
  m_iFlightFlagSize : Z;
  m_iReqType : Z;
  m_iID : Z;
  m_iCookie : Z;
  m_piPeerIP : list Z;   (** four words *)
  m_extension : bool;
}.

Definition set_m_iVersion (v : Z) (h : t) : t := mk v (m_iType h) (m_iISN h) (m_iMSS h) (m_iFlightFlagSize h) (m_iReqType h) (m_iID h) (m_iCookie h) (m_piPeerIP h) (m_extension h).
Definition set_m_iType (v : Z) (h : t) : t := mk (m_iVersion h) v (m_iISN h) (m_iMSS h) (m_iFlightFlagSize h) (m_iReqType h) (m_iID h) (m_iCookie h) (m_piPeerIP h) (m_extension h).
Definition set_m_iReqType (v : Z) (h : t) : t := mk (m_iVersion h) (m_iType h) (m_iISN h) (m_iMSS h) (m_iFlightFlagSize h) v (m_iID h) (m_iCookie h) (m_piPeerIP h) (m_extension h).
Definition set_m_extension (v : bool) (h : t) : t := mk (m_iVersion h) (m_iType h) (m_iISN h) (m_iMSS h) (m_iFlightFlagSize h) (m_iReqType h) (m_iID h) (m_iCookie h) (m_piPeerIP h) v.

Definition set_m_iISN (v : Z) (h : t) : t := mk (m_iVersion h) (m_iType h) v (m_iMSS h) (m_iFlightFlagSize h) (m_iReqType h) (m_iID h) (m_iCookie h) (m_piPeerIP h) (m_extension h).
Definition set_m_iMSS (v : Z) (h : t) : t := mk (m_iVersion h) (m_iType h) (m_iISN h) v (m_iFlightFlagSize h) (m_iReqType h) (m_iID h) (m_iCookie h) (m_piPeerIP h) (m_extension h).
Definition set_m_iFlightFlagSize (v : Z) (h : t) : t := mk (m_iVersion h) (m_iType h) (m_iISN h) (m_iMSS h) v (m_iReqType h) (m_iID h) (m_iCookie h) (m_piPeerIP h) (m_extension h).
Definition set_m_iID (v : Z) (h : t) : t := mk (m_iVersion h) (m_iType h) (m_iISN h) (m_iMSS h) (m_iFlightFlagSize h) (m_iReqType h) v (m_iCookie h) (m_piPeerIP h) (m_extension h).
Definition set_m_iCookie (v : Z) (h : t) : t := mk (m_iVersion h) (m_iType h) (m_iISN h) (m_iMSS h) (m_iFlightFlagSize h) (m_iReqType h) (m_iID h) v (m_piPeerIP h) (m_extension h).
Definition set_m_piPeerIP (v : list Z) (h : t) : t := mk (m_iVersion h) (m_iType h) (m_iISN h) (m_iMSS h) (m_iFlightFlagSize h) (m_iReqType h) (m_iID h) (m_iCookie h) v (m_extension h).

(** The constructor. *)
Definition init : t := mk 0 0 0 0 0 URQ_WAVEAHAND 0 0 [0; 0; 0; 0] false.

(** The words that [store_to] writes. *)
Definition words (h : t) : list Z :=
  [u32 (m_iVersion h); u32 (m_iType h); u32 (m_iISN h); u32 (m_iMSS h); u32 (m_iFlightFlagSize h);
   u32 (m_iReqType h); u32 (m_iID h); u32 (m_iCookie h)] ++ take 4 (m_piPeerIP h).

(** [store_to]: the buffer, the size that is written back, the result. *)
Definition store_to (h : t) (buf : list Z) (w_size : Z) : list Z * Z * Z :=
  if w_size <? m_iContentSize then (buf, w_size, -1)
  else (words h ++ drop content_words buf, m_iContentSize, 0).

(** [load_from]: the structure, which keeps [m_extension], and the result. *)
Definition load_from (buf : list Z) (size : Z) (h : t) : t * Z :=
  if size <? m_iContentSize then (h, -1)
  else
    (mk (i32 buf.[0]) (i32 buf.[1]) (i32 buf.[2]) (i32 buf.[3]) (i32 buf.[4]) (i32 buf.[5]) (i32 buf.[6]) (i32 buf.[7])
        [buf.[8]; buf.[9]; buf.[10]; buf.[11]] (m_extension h), 0).

Definition valid (h : t) : bool :=
  negb ((m_iVersion h <? HS_VERSION_UDT4) || (m_iISN h <? 0) || (0x7FFFFFFF <=? m_iISN h) || (m_iMSS h <? 32) ||
        (m_iFlightFlagSize h <? 2)).

Definition v5orHigher (h : t) : bool := 4 <? m_iVersion h.
End CHandShake.

Module SrtHSRequest.
Definition SRT_MAGIC_CODE : Z := 0x4A17.
Definition SRT_HS_SIZE : Z := 16.

Definition HSFLAGS (typefield : Z) : Z := Bits.unwrap 15 0 (u32 typefield).
Definition ENCFLAGS (typefield : Z) : Z := Bits.unwrap 31 16 (u32 typefield).
Definition PBKEYLEN_wrap (v : Z) : Z := Bits.wrap 5 3 (u32 v).
Definition PBKEYLEN_unwrap (v : Z) : Z := Bits.unwrap 5 3 (u32 v).

Definition wrapFlags (withmagic : bool) (crypto_keylen : Z) : Z :=
  let base := if withmagic then SRT_MAGIC_CODE else 0 in
  i32 (Z.lor base (Bits.wrap 31 16 (PBKEYLEN_unwrap crypto_keylen))).

Record t := mk { m_iSrtVersion : Z; m_iSrtFlags : Z; m_iSrtTsbpd : Z; m_iSrtReserved : Z }.
Definition init : t := mk 0 0 0 0.

Definition setVersion (v : Z) (r : t) : t := mk (u32 v) (m_iSrtFlags r) (m_iSrtTsbpd r) (m_iSrtReserved r).
Definition setFlag (opt : Z) (r : t) : t := mk (m_iSrtVersion r) (Z.lor (m_iSrtFlags r) opt) (m_iSrtTsbpd r) (m_iSrtReserved r).
Definition clearFlag (opt : Z) (r : t) : t := mk (m_iSrtVersion r) (Z.ldiff (m_iSrtFlags r) opt) (m_iSrtTsbpd r) (m_iSrtReserved r).
Definition setTsbPdDelay (delay : Z) (r : t) : t :=
  mk (m_iSrtVersion r) (m_iSrtFlags r) (Z.lor (m_iSrtTsbpd r) (Bits.wrap 15 0 delay)) (m_iSrtReserved r).
Definition tsbPdDelay (r : t) : Z := Bits.unwrap 15 0 (m_iSrtTsbpd r).

Definition serialize (r : t) (buf : list Z) (size : Z) : list Z * bool :=
  if size <? SRT_HS_SIZE then (buf, false)
  else ([m_iSrtVersion r; m_iSrtFlags r; m_iSrtTsbpd r; 0] ++ drop 4 buf, true).

Definition deserialize (buf : list Z) (size : Z) (r : t) : t * bool :=
  if size <? SRT_HS_SIZE then (mk 0 (m_iSrtFlags r) (m_iSrtTsbpd r) (m_iSrtReserved r), false)
  else (mk buf.[0] buf.[1] buf.[2] buf.[3], true).
End SrtHSRequest.

(** ** The cookie contest *)

Definition compareCookies (req res : Z) : HandshakeSide :=
  if req <? res then HSD_RESPONDER else if res <? req then HSD_INITIATOR else HSD_DRAW.

(** On [int64_t], where nothing overflows. *)
Definition backwardCompatibleCookieContest (req res : Z) : HandshakeSide :=
  let contest := req - res in
  if Z.land contest 0xFFFFFFFF =? 0 then HSD_DRAW
  else if negb (Z.land contest 0x80000000 =? 0) then
    let revert := res - req in
    if negb (Z.land revert 0x80000000 =? 0) && (res <? req) then HSD_INITIATOR else HSD_RESPONDER
  else HSD_INITIATOR.

(** The values that [generateISN] can return: those of the closed interval
    between its two arguments. *)
Definition generateISN (isn : Z) : Prop := 0 <= isn <= 0x7FFFFFFF.

Definition opposite (s : HandshakeSide) : HandshakeSide :=
  match s with HSD_DRAW => HSD_DRAW | HSD_INITIATOR => HSD_RESPONDER | HSD_RESPONDER => HSD_INITIATOR end.

Import CHandShake.

(** ** Lemmas *)

Record hs_ok (h : t) : Prop := {
  ok_version : in_i32 (m_iVersion h);
  ok_type : in_i32 (m_iType h);
  ok_isn : in_i32 (m_iISN h);
  ok_mss : in_i32 (m_iMSS h);
  ok_flight : in_i32 (m_iFlightFlagSize h);
  ok_reqtype : in_i32 (m_iReqType h);
  ok_id : in_i32 (m_iID h);
  ok_cookie : in_i32 (m_iCookie h);
  ok_ip : length (m_piPeerIP h) = 4%nat;
  ok_ip_words : Forall in_u32 (m_piPeerIP h);
}.

Lemma i32_u32 z : in_i32 z -> i32 (u32 z) = z.
Proof.
  unfold in_i32, i32, u32. intros Hz. rewrite Zplus_mod_idemp_l, Z.mod_small; lia.
Qed.

Lemma u32_i32_id z : in_u32 z -> u32 (i32 z) = z.
Proof.
  unfold in_u32, i32, u32. intros Hz. rewrite Zminus_mod_idemp_l. replace (z + 2 ^ 31 - 2 ^ 31) with z by lia. apply Z.mod_small. lia.
Qed.

Lemma length_words h : length (m_piPeerIP h) = 4%nat -> length (words h) = content_words.
Proof. intros Hl. unfold words. rewrite length_app, length_take, Hl. done. Qed.

(** Reading known words of a buffer. *)
Ltac read_words :=
  unfold aget; change (Z.to_nat 0) with 0%nat;
  repeat match goal with |- context [Z.to_nat (Zpos ?p)] =>
    let n := eval vm_compute in (Z.to_nat (Zpos p)) in change (Z.to_nat (Zpos p)) with n end;
  cbn -[i32 u32].

Lemma load_words h rest h0 size : hs_ok h -> m_iContentSize <= size ->
  load_from (words h ++ rest) size h0 = (mk (m_iVersion h) (m_iType h) (m_iISN h) (m_iMSS h) (m_iFlightFlagSize h) (m_iReqType h) (m_iID h) (m_iCookie h) (m_piPeerIP h) (m_extension h0), 0).
Proof.
  intros [] Hs. unfold load_from, words. rewrite (proj2 (Z.ltb_ge _ _)) by done.
  destruct h as [v ty isn mss fl rq id ck ip e]. cbn -[i32 u32 in_i32 in_u32] in *. destruct ip as [|a [|b [|c [|d [|]]]]]; try done.
  read_words. by rewrite !i32_u32.
Qed.

Lemma load_ok buf size h0 : (content_words <= length buf)%nat -> Forall in_u32 buf -> m_iContentSize <= size -> hs_ok (load_from buf size h0).1.
Proof.
  intros Hl Hw Hs. unfold load_from. rewrite (proj2 (Z.ltb_ge _ _)) by done. cbn [fst].
  assert (Hg : forall i, 0 <= i < 12 -> in_u32 buf.[i]).
  { intros i Hi. unfold aget. rewrite (proj2 (Z.ltb_ge i 0)) by lia. eapply Forall_lookup_total_1; [done|]. unfold content_words in Hl. lia. }
  split; cbn -[i32]; try apply i32_range; [done|]. repeat constructor; apply Hg; lia.
Qed.

Lemma words_load buf size h0 : (content_words <= length buf)%nat -> Forall in_u32 buf -> m_iContentSize <= size ->
  words (load_from buf size h0).1 = take content_words buf.
Proof.
  intros Hl Hw Hs. unfold load_from. rewrite (proj2 (Z.ltb_ge _ _)) by done. unfold content_words in *.
  do 12 (destruct buf as [|? buf]; [cbn in Hl; lia|]). do 12 (apply list.Forall_cons in Hw as [? Hw]).
  unfold words. cbn -[i32 u32 aget]. read_words.
  by rewrite !u32_i32_id by done.
Qed.

(** The bit 31 of a difference says which half of the circle it falls into. *)
Lemma bit31 x : negb (Z.land x 0x80000000 =? 0) = (2 ^ 31 <=? x mod 2 ^ 32).
Proof.
  assert (Hb : Z.testbit x 31 = (2 ^ 31 <=? x mod 2 ^ 32)).
  { pose proof (Z.testbit_spec' x 31 ltac:(lia)) as Ht.
    assert (E : (x / 2 ^ 31) mod 2 = Z.b2z (2 ^ 31 <=? x mod 2 ^ 32)).
    { destruct (Z.leb_spec (2 ^ 31) (x mod 2 ^ 32)); cbn [Z.b2z]; Z.to_euclidean_division_equations; lia. }
    rewrite E in Ht. by destruct (Z.testbit x 31), (2 ^ 31 <=? x mod 2 ^ 32). }
  rewrite <- Hb. change 0x80000000 with (2 ^ 31). destruct (Z.testbit x 31) eqn:Et.
  - destruct (Z.eqb_spec (Z.land x (2 ^ 31)) 0) as [E|]; [|done].
    apply (f_equal (fun z => Z.testbit z 31)) in E. rewrite Z.land_spec, Z.pow2_bits_true, Et, Z.bits_0 in E by lia. done.
  - rewrite (proj2 (Z.eqb_eq _ _)); [done|]. apply Z.bits_inj'. intros i Hi. rewrite Z.land_spec, Z.pow2_bits_eqb, Z.bits_0 by lia.
    destruct (Z.eqb_spec 31 i) as [<-|]; [by rewrite Et|by rewrite andb_false_r].
Qed.

Lemma contest_cases req res : in_i32 req -> in_i32 res ->
  backwardCompatibleCookieContest req res =
    if decide (req = res) then HSD_DRAW
    else if decide ((req - res) mod 2 ^ 32 < 2 ^ 31 \/ (req - res) mod 2 ^ 32 = 2 ^ 31 /\ res < req) then HSD_INITIATOR else HSD_RESPONDER.
Proof.
  unfold in_i32. intros H1 H2. unfold backwardCompatibleCookieContest. rewrite !bit31. change 0xFFFFFFFF with (Z.ones 32). rewrite Z.land_ones by lia.
  pose proof (Z.mod_pos_bound (req - res) (2 ^ 32) ltac:(lia)) as Hp. pose proof (Z.div_mod (req - res) (2 ^ 32) ltac:(lia)) as Hd.
  pose proof (Z.mod_pos_bound (res - req) (2 ^ 32) ltac:(lia)) as Hp'. pose proof (Z.div_mod (res - req) (2 ^ 32) ltac:(lia)) as Hd'.
  set (q := (req - res) / 2 ^ 32) in *. set (q' := (res - req) / 2 ^ 32) in *. set (m := (req - res) mod 2 ^ 32) in *. set (m' := (res - req) mod 2 ^ 32) in *.
  destruct (Z.eqb_spec m 0), (decide (req = res)); try done; try (exfalso; lia).
  destruct (Z.leb_spec (2 ^ 31) m); [|rewrite decide_True by lia; done].
  destruct (decide (m < 2 ^ 31 \/ m = 2 ^ 31 /\ res < req)) as [Hc|Hc].
  - rewrite (proj2 (Z.leb_le _ _)), (proj2 (Z.ltb_lt _ _)) by lia. done.
  - destruct (Z.leb_spec (2 ^ 31) m'), (Z.ltb_spec res req); try done. exfalso. lia.
Qed.

(** The two sides of a contest come to opposite results. *)
Lemma contest_opposite req res : in_i32 req -> in_i32 res ->
  backwardCompatibleCookieContest res req = opposite (backwardCompatibleCookieContest req res).
Proof.
  intros Hreq Hres. rewrite !contest_cases by done. unfold in_i32 in *.
  pose proof (Z.mod_pos_bound (req - res) (2 ^ 32) ltac:(lia)) as Hp. pose proof (Z.div_mod (req - res) (2 ^ 32) ltac:(lia)) as Hd.
  pose proof (Z.mod_pos_bound (res - req) (2 ^ 32) ltac:(lia)) as Hp'. pose proof (Z.div_mod (res - req) (2 ^ 32) ltac:(lia)) as Hd'.
  set (q := (req - res) / 2 ^ 32) in *. set (q' := (res - req) / 2 ^ 32) in *. set (m := (req - res) mod 2 ^ 32) in *. set (m' := (res - req) mod 2 ^ 32) in *.
  repeat case_decide; try done; exfalso; lia.
Qed.

(** ** Properties *)

(** What [store_to] writes is what [load_from] reads, for every field but the
    one that is not transmitted; a structure read from any 48 bytes has fields
    of 32 bits and writes the same bytes again; a buffer of less than 48 bytes
    is refused on both sides and nothing is changed. *)
Theorem hs_roundtrip (h h0 : t) (buf : list Z) (size : Z) :
  (hs_ok h -> m_iContentSize <= size ->
     let r := store_to h buf size in
     r.2 = 0 /\ r.1.2 = m_iContentSize /\ take content_words r.1.1 = words h /\ drop content_words r.1.1 = drop content_words buf /\
     load_from r.1.1 m_iContentSize h0 = (mk (m_iVersion h) (m_iType h) (m_iISN h) (m_iMSS h) (m_iFlightFlagSize h) (m_iReqType h) (m_iID h) (m_iCookie h) (m_piPeerIP h) (m_extension h0), 0)) /\
  ((content_words <= length buf)%nat -> Forall in_u32 buf -> m_iContentSize <= size ->
     hs_ok (load_from buf size h0).1 /\ words (load_from buf size h0).1 = take content_words buf) /\
  (size < m_iContentSize -> store_to h buf size = (buf, size, -1) /\ load_from buf size h0 = (h0, -1)).
Proof.
  split; [|split].
  - intros Hh Hs. unfold store_to. rewrite (proj2 (Z.ltb_ge _ _)) by done. cbn zeta. cbn [fst snd].
    pose proof (length_words h (ok_ip h Hh)) as Hl. rewrite <- Hl, take_app_length, drop_app_length, Hl.
    by rewrite load_words by done.
  - intros. split; [by apply load_ok|by apply words_load].
  - intros Hs. unfold store_to, load_from. by rewrite (proj2 (Z.ltb_lt _ _)) by done.
Qed.

Definition sample : t := mk 5 0 12345 1500 8192 URQ_CONCLUSION 77 (-3) [0x0100007F; 0; 0; 0] true.

Lemma sample_ok : hs_ok sample.
Proof. split; [cbn; unfold in_i32, URQ_CONCLUSION; lia..|done|]. repeat constructor; unfold in_u32; lia. Defined.

Lemma hs_roundtrip_witness :
  (load_from (store_to sample (replicate 14 9) 56).1.1 48 init).1 = mk 5 0 12345 1500 8192 URQ_CONCLUSION 77 (-3) [0x0100007F; 0; 0; 0] false /\
  words (load_from (replicate 12 0xFFFFFFFF) 48 init).1 = replicate 12 0xFFFFFFFF /\ store_to sample [] 47 = ([], 47, -1).
Proof.
  destruct (hs_roundtrip sample init (replicate 14 9) 56) as (H1 & _ & _). destruct (H1 sample_ok ltac:(done)) as (_ & _ & _ & _ & E).
  destruct (hs_roundtrip sample init (replicate 12 0xFFFFFFFF) 48) as (_ & H2 & _).
  destruct (H2 ltac:(cbn; unfold content_words; lia)) as (_ & E2); [by apply Forall_replicate|done|].
  destruct (hs_roundtrip sample init [] 47) as (_ & _ & H3). destruct (H3 ltac:(done)) as (E3 & _).
  change m_iContentSize with 48 in E. rewrite E. split_and!; [done|exact E2|exact E3].
Defined.

(** The contest gives the two sides of a rendezvous opposite roles, whatever
    the two cookies are, and no roles exactly when the cookies are equal. *)
Theorem cookie_contest_roles (req res : Z) (Hreq : in_i32 req) (Hres : in_i32 res) :
  backwardCompatibleCookieContest res req = opposite (backwardCompatibleCookieContest req res) /\
  (backwardCompatibleCookieContest req res = HSD_DRAW <-> req = res) /\
  compareCookies res req = opposite (compareCookies req res).
Proof.
  split; [by apply contest_opposite|]. rewrite contest_cases by done. split.
  - repeat case_decide; split; done.
  - unfold compareCookies. destruct (Z.ltb_spec req res), (Z.ltb_spec res req); try done; lia.
Qed.

Lemma cookie_contest_roles_witness :
  backwardCompatibleCookieContest 5 (5 - 2 ^ 31) = opposite (backwardCompatibleCookieContest (5 - 2 ^ 31) 5) /\
  backwardCompatibleCookieContest (5 - 2 ^ 31) 5 = HSD_RESPONDER.
Proof. split; [|done]. apply (cookie_contest_roles (5 - 2 ^ 31) 5); unfold in_i32; lia. Defined.

(** Of the initial sequence numbers that [generateISN] can produce exactly the
    largest one is refused by the peer's [valid]. *)
Theorem isn_refused (h : t) (Hisn : generateISN (m_iISN h)) (Hv : HS_VERSION_UDT4 <= m_iVersion h) (Hm : 32 <= m_iMSS h)
  (Hf : 2 <= m_iFlightFlagSize h) :
  valid h = negb (m_iISN h =? 0x7FFFFFFF).
Proof.
  unfold generateISN in Hisn. unfold valid.
  rewrite !(proj2 (Z.ltb_ge _ _)) by lia. cbn [orb]. rewrite !orb_false_r.
  destruct (Z.leb_spec 0x7FFFFFFF (m_iISN h)), (Z.eqb_spec (m_iISN h) 0x7FFFFFFF); done || lia.
Qed.

Lemma isn_refused_witness : valid (mk 5 0 0x7FFFFFFF 1500 8192 0 1 2 [0; 0; 0; 0] false) = false.
Proof. apply (isn_refused (mk 5 0 0x7FFFFFFF 1500 8192 0 1 2 [0; 0; 0; 0] false)); unfold generateISN, HS_VERSION_UDT4; cbn; lia. Defined.
