(* ===== verification/FilterConfig.v ===== *)
(** The negotiation of the packet filter's configuration: the strings
    "type,key:value,..." of [SrtParseConfig] (common.cpp), the comparison of two
    configurations by [CheckFilterCompat] (packetfilter.cpp) and the decision
    of [checkApplyFilterConfig] (core.cpp).  A string is a list of character
    codes, a [std::map] from strings to strings the list of its pairs in the
    order of iteration. *)
From Stdlib Require Import Sorted.
From S2P Require Import Prelude Handshake.

Definition str := list Z.

(** [operator<] of [std::string]. *)
Fixpoint str_lt (a b : str) : bool :=
  match a, b with
  | _, [] => false
  | [], _ => true
  | x :: a, y :: b => (x <? y) || ((x =? y) && str_lt a b)
  end.

Module StrMap.
Definition t := list (str * str).

Fixpoint find (k : str) (m : t) : option str :=
  match m with [] => None | (k', v) :: m => if decide (k = k') then Some v else find k m end.

(** [m[k] = v]. *)
Fixpoint set (k v : str) (m : t) : t :=
  match m with
  | [] => [(k, v)]
  | (k', v') :: m' =>
      if decide (k = k') then (k, v) :: m' else if str_lt k k' then (k, v) :: (k', v') :: m' else (k', v') :: set k v m'
  end.

(** The value of [m[k]], which inserts an empty string at a missing key. *)
Definition index (k : str) (m : t) : str * t :=
  match find k m with Some v => (v, m) | None => ([], set k [] m) end.

(** [for (x : src) if (dst.count(x.first) == 0) dst[x.first] = x.second]. *)
Definition complete (src dst : t) : t :=
  foldl (fun d '(k, v) => match find k d with Some _ => d | None => set k v d end) dst src.

(** [for (x : src) dst[x.first] = x.second]. *)
Definition override (src dst : t) : t := foldl (fun d '(k, v) => set k v d) dst src.
End StrMap.

Record SrtFilterConfig := mkcfg { type : str; parameters : StrMap.t; extra_size : Z }.

(** [Split], of utilities.h. *)
Fixpoint Split_from (delimiter : Z) (s : str) : list str :=
  match s with
  | [] => [[]]
  | c :: s =>
      if c =? delimiter then [] :: Split_from delimiter s
      else match Split_from delimiter s with h :: t => (c :: h) :: t | [] => [[c]] end
  end.
Definition Split (s : str) (delimiter : Z) : list str := match s with [] => [] | _ => Split_from delimiter s end.

Definition COMMA : Z := 44.
Definition COLON : Z := 58.

(** [SrtParseConfig] into a fresh configuration. *)
Definition SrtParseConfig (s : str) : option SrtFilterConfig :=
  match Split s COMMA with
  | [] => None
  | ty :: parts =>
      ps ← foldl (fun acc part =>
             m ← acc;
             match Split part COLON with
             | [k; v] => Some (if decide (v = []) then m else StrMap.set k v m)
             | _ => None
             end) (Some []) parts;
      Some (mkcfg ty ps 0)
  end.

(** A registered filter, what [PacketFilter::Factory] says of it. *)
Record Factory := { defaultConfig : str; ExtraSize : Z }.

Section Filters.
(** [internal().m_filters]: the builtin filter and those of the application. *)
Variable find_filter : str -> option Factory.

Definition ParseFilterConfig (s : str) : option SrtFilterConfig :=
  c ← SrtParseConfig s; fac ← find_filter (type c); Some (mkcfg (type c) (parameters c) (ExtraSize fac)).

(** [correctConfig]: "type", "adaptive". *)
Definition correctConfig (conf : SrtFilterConfig) : bool :=
  match StrMap.find [116; 121; 112; 101] (parameters conf) with
  | None => true
  | Some pname => if decide (pname = [97; 100; 97; 112; 116; 105; 118; 101]) then true else bool_decide (is_Some (find_filter pname))
  end.

(** One comparison: the two maps and whether they agree so far. *)
Definition compat_step (acc : StrMap.t * StrMap.t * bool) (x : str) : StrMap.t * StrMap.t * bool :=
  let '(agent, peer, ok) := acc in
  if ok then let '(va, agent) := StrMap.index x agent in let '(vp, peer) := StrMap.index x peer in (agent, peer, bool_decide (va = vp))
  else (agent, peer, ok).

(** The agent's configuration with what the peer and the defaults add to it,
    and the verdict. *)
Definition CheckFilterCompat (w_agent peer_in : SrtFilterConfig) : StrMap.t * bool :=
  match fac ← find_filter (type w_agent); ParseFilterConfig (defaultConfig fac) with
  | None => (parameters w_agent, false)
  | Some defaults =>
      let agent := parameters w_agent in
      let peer := StrMap.complete agent (parameters peer_in) in
      let keys := list_union agent.*1 peer.*1 in
      let agent := StrMap.complete peer agent in
      let agent' := StrMap.complete (parameters defaults) agent in
      let peer := StrMap.complete (parameters defaults) peer in
      let r := foldl compat_step (agent', peer, true) keys in
      (r.1.1, r.2)
  end.

(** The string that [checkApplyFilterConfig] writes. *)
Definition print (ty : str) (ps : StrMap.t) : str := ty ++ concat (map (fun '(k, v) => [COMMA] ++ k ++ [COLON] ++ v) ps).

Definition MAX_PFILTER_LENGTH : Z := 64.
Definition SRT_LIVE_MAX_PLSIZE : Z := 1456.

(** [StringStorage::set]. *)
Definition storage_set (SIZE : Z) (s old : str) : str := if SIZE <? zlen s then old else s.

(** The configuration that both sides are to use; [None]: rejected. *)
Definition effective_config (bRendezvous : bool) (m_SrtHsSide : HandshakeSide) (thisconf confstr : str) (cfg : SrtFilterConfig) : option str :=
  if decide (thisconf = []) then Some confstr
  else if bRendezvous && negb (bool_decide (thisconf = confstr)) then None
  else
    mycfg ← ParseFilterConfig thisconf;
    if negb (bool_decide (type mycfg = type cfg)) then None
    else
      ps ← (match m_SrtHsSide with
            | HSD_INITIATOR => Some (StrMap.override (parameters cfg) (parameters mycfg))
            | _ => let '(ps, ok) := CheckFilterCompat mycfg cfg in if ok then Some ps else None
            end);
      Some (print (type mycfg) ps).

(** The new [m_config.sPacketFilterConfig] and [m_config.zExpPayloadSize],
    [None] when the peer's configuration is rejected. *)
Definition checkApplyFilterConfig (bRendezvous : bool) (m_SrtHsSide : HandshakeSide) (sPacketFilterConfig : str) (zExpPayloadSize : Z)
    (confstr : str) : option (str * Z) :=
  cfg ← ParseFilterConfig confstr;
  if negb (correctConfig cfg) then None
  else
    conf ← effective_config bRendezvous m_SrtHsSide sPacketFilterConfig confstr cfg;
    let efc_max_payload_size := SRT_LIVE_MAX_PLSIZE - extra_size cfg in
    Some (storage_set MAX_PFILTER_LENGTH conf sPacketFilterConfig,
          if efc_max_payload_size <? zExpPayloadSize then efc_max_payload_size else zExpPayloadSize).
End Filters.

(** The filter that the library registers itself: "fec" with
    [FECFilterBuiltin::defaultConfig] = "fec,rows:1,layout:staircase,arq:onreq". *)
Definition fec_name : str := [102; 101; 99].
Definition fec_default : str :=
  [102; 101; 99; 44; 114; 111; 119; 115; 58; 49; 44; 108; 97; 121; 111; 117; 116; 58; 115; 116; 97; 105; 114; 99; 97; 115; 101;
   44; 97; 114; 113; 58; 111; 110; 114; 101; 113].
Definition builtin_filter (name : str) : option Factory :=
  if decide (name = fec_name) then Some {| defaultConfig := fec_default; ExtraSize := 4 |} else None.

(** ** Maps *)

Lemma str_lt_irrefl a : str_lt a a = false.
Proof. induction a as [|x a IH]; [done|]. cbn. by rewrite Z.ltb_irrefl, Z.eqb_refl, IH. Qed.

Lemma str_lt_trans a b c : str_lt a b = true -> str_lt b c = true -> str_lt a c = true.
Proof.
  revert b c. induction a as [|x a IH]; intros [|y b] [|z c]; cbn; try done.
  rewrite !orb_true_iff, !andb_true_iff, !Z.ltb_lt, !Z.eqb_eq. intros [?|[-> ?]] [?|[-> ?]]; try (left; lia). right. eauto.
Qed.

Lemma str_lt_total a b : a = b \/ str_lt a b = true \/ str_lt b a = true.
Proof.
  revert b. induction a as [|x a IH]; intros [|y b]; cbn; auto.
  rewrite !orb_true_iff, !andb_true_iff, !Z.ltb_lt, !Z.eqb_eq. destruct (Z.lt_trichotomy x y) as [?|[->|?]]; auto.
  destruct (IH b) as [->|[?|?]]; auto.
Qed.

Notation sorted := (StronglySorted (fun p q : str * str => str_lt p.1 q.1 = true)).

Module StrMapFacts.
Import StrMap.

Lemma find_below k m : Forall (fun q => str_lt k q.1 = true) m -> find k m = None.
Proof.
  induction 1 as [|[k' v'] m Hlt Hm IH]; [done|]. cbn in *. rewrite decide_False; [done|]. intros ->. by rewrite str_lt_irrefl in Hlt.
Qed.

Lemma set_above (P : str * str -> Prop) k v m : P (k, v) -> Forall P m -> Forall P (set k v m).
Proof.
  intros HP. induction 1 as [|[k' v'] m Hp Hm IH]; cbn; [by constructor|].
  case_decide; [by constructor|]. destruct (str_lt k k'); by repeat constructor.
Qed.

Lemma set_sorted k v m : sorted m -> sorted (set k v m).
Proof.
  induction 1 as [|[k' v'] m Hm IH Hlt]; cbn; [by repeat constructor|].
  case_decide as E; [subst; by constructor|]. destruct (str_lt k k') eqn:Ek.
  - constructor; [by constructor|]. constructor; [done|]. eapply list.Forall_impl; [exact Hlt|]. intros [k2 v2]. cbn. by apply str_lt_trans.
  - constructor; [done|]. apply set_above; [|done]. cbn. destruct (str_lt_total k k') as [->|[?|?]]; congruence.
Qed.

Lemma find_set k v m j : sorted m -> find j (set k v m) = if decide (j = k) then Some v else find j m.
Proof.
  induction 1 as [|[k' v'] m Hm IH Hlt]; cbn; [done|].
  destruct (decide (k = k')) as [<-|E]; cbn; [by repeat case_decide|]. destruct (str_lt k k') eqn:Ek; cbn.
  - by repeat case_decide.
  - rewrite IH. repeat case_decide; congruence.
Qed.

Lemma sorted_ext m1 m2 : sorted m1 -> sorted m2 -> (forall k, find k m1 = find k m2) -> m1 = m2.
Proof.
  intros H1. revert m2. induction H1 as [|[k v] m1 H1 IH L1]; intros m2 H2 Hf.
  - destruct m2 as [|[k v] m2]; [done|]. specialize (Hf k). cbn in Hf. by rewrite decide_True in Hf.
  - destruct H2 as [|[k2 v2] m2 H2 L2]; [specialize (Hf k); cbn in Hf; by rewrite decide_True in Hf|].
    destruct (decide (k = k2)) as [<-|Hne].
    + assert (v = v2) as <- by (specialize (Hf k); cbn in Hf; rewrite !decide_True in Hf by done; congruence).
      f_equal. apply IH; [done|]. intros j. specialize (Hf j). cbn in Hf. case_decide; [|done]. subst j.
      by rewrite !find_below.
    + exfalso. pose proof (Hf k) as E1. pose proof (Hf k2) as E2. cbn in E1, E2.
      rewrite decide_True, decide_False in E1 by done. rewrite (decide_True (P := k2 = k2)), decide_False in E2 by congruence.
      destruct (str_lt_total k k2) as [|[Hlt|Hlt]]; [done| |].
      * rewrite find_below in E1; [done|]. eapply list.Forall_impl; [exact L2|]. intros [? ?]. by apply str_lt_trans.
      * rewrite find_below in E2; [done|]. eapply list.Forall_impl; [exact L1|]. intros [? ?]. by apply str_lt_trans.
Qed.

Lemma find_cons k k' v m : find k ((k', v) :: m) = if decide (k = k') then Some v else find k m.
Proof. done. Qed.

Lemma override_spec src dst : sorted src -> sorted dst ->
  sorted (override src dst) /\ forall k, find k (override src dst) = match find k src with Some v => Some v | None => find k dst end.
Proof.
  intros Hs. revert dst. induction Hs as [|[k v] src Hs IH Hlt]; intros dst Hd; [done|].
  destruct (IH (set k v dst)) as [H1 H2]; [by apply set_sorted|]. split; [exact H1|]. intros j. cbn [override foldl].
  unfold override in H2. rewrite H2, find_set, find_cons by done. case_decide; [|done]. subst j. by rewrite find_below.
Qed.

Lemma complete_spec src dst : sorted src -> sorted dst ->
  sorted (complete src dst) /\ forall k, find k (complete src dst) = match find k dst with Some v => Some v | None => find k src end.
Proof.
  intros Hs. revert dst. induction Hs as [|[k v] src Hs IH Hlt]; intros dst Hd; [split; [done|]; intros j; cbn; by destruct (find j dst)|].
  unfold complete in *. cbn [foldl]. destruct (find k dst) eqn:Ek.
  - destruct (IH dst Hd) as [H1 H2]. split; [done|]. intros j. rewrite H2, find_cons. case_decide; [subst; by rewrite Ek|done].
  - destruct (IH (set k v dst)) as [H1 H2]; [by apply set_sorted|]. split; [done|]. intros j. rewrite H2, find_set, find_cons by done.
    case_decide; [subst; by rewrite Ek|done].
Qed.

Lemma override_all (P : str * str -> Prop) src dst : Forall P src -> Forall P dst -> Forall P (override src dst).
Proof.
  intros Hs. revert dst. induction Hs as [|[k v] src Hp Hs IH]; intros dst Hd; [done|]. apply IH. by apply set_above.
Qed.

Lemma complete_all (P : str * str -> Prop) src dst : Forall P src -> Forall P dst -> Forall P (complete src dst).
Proof.
  intros Hs. revert dst. induction Hs as [|[k v] src Hp Hs IH]; intros dst Hd; [done|]. unfold complete in *. cbn [foldl].
  destruct (find k dst); [by apply IH|]. apply IH. by apply set_above.
Qed.

(** Inserting a sorted list behind smaller keys appends it. *)
Lemma set_last k v m : Forall (fun q => str_lt q.1 k = true) m -> set k v m = m ++ [(k, v)].
Proof.
  induction 1 as [|[k' v'] m Hlt Hm IH]; [done|]. cbn in *. rewrite decide_False; [|intros ->; by rewrite str_lt_irrefl in Hlt].
  destruct (str_lt k k') eqn:E; [|by rewrite IH]. exfalso. pose proof (str_lt_trans _ _ _ Hlt E) as H. by rewrite str_lt_irrefl in H.
Qed.
End StrMapFacts.
Import StrMap StrMapFacts.

(** ** Parsing *)

(** No separator in a name or a value; empty values are never kept. *)
Definition plain (s : str) : Prop := (COMMA ∉ s) /\ (COLON ∉ s).
Definition entry (p : str * str) : Prop := plain p.1 /\ plain p.2 /\ p.2 <> [].
Record config_ok (c : SrtFilterConfig) : Prop := {
  ok_name : COMMA ∉ type c;
  ok_sorted : sorted (parameters c);
  ok_entries : Forall entry (parameters c);
}.

Lemma Split_from_none d s : d ∉ s -> Split_from d s = [s].
Proof.
  induction s as [|c s IH]; [done|]. intros Hd%not_elem_of_cons. destruct Hd as [Hc Hd]. cbn.
  destruct (Z.eqb_spec c d); [done|]. by rewrite IH.
Qed.

Lemma Split_from_app d a b : d ∉ a -> Split_from d (a ++ d :: b) = a :: Split_from d b.
Proof.
  induction a as [|c a IH]; [intros _; cbn; by rewrite Z.eqb_refl|]. intros Hd%not_elem_of_cons. destruct Hd as [Hc Hd]. cbn.
  destruct (Z.eqb_spec c d); [done|]. by rewrite IH.
Qed.

Lemma Split_from_pieces d s : Forall (fun p => (d ∉ p) /\ (forall c, c ∈ p -> c ∈ s)) (Split_from d s).
Proof.
  induction s as [|c s IH]; cbn; [apply list.Forall_singleton; split; [apply not_elem_of_nil|done]|].
  destruct (Z.eqb_spec c d) as [->|Hc].
  - constructor; [split; [apply not_elem_of_nil|]; by intros ? ?%elem_of_nil|].
    eapply list.Forall_impl; [exact IH|]. intros p [H1 H2]. split; [done|]. intros x Hx. right. auto.
  - destruct (Split_from d s) as [|h t].
    { apply list.Forall_singleton. split; [by intros ?%list_elem_of_singleton|]. intros ? ->%list_elem_of_singleton. left. }
    apply list.Forall_cons in IH as [[H1 H2] IH]. constructor.
    + split; [apply not_elem_of_cons; auto|]. intros x [->|Hx]%elem_of_cons; [left|right; auto].
    + eapply list.Forall_impl; [exact IH|]. intros p [H3 H4]. split; [done|]. intros x Hx. right. auto.
Qed.

Definition part (p : str * str) : str := p.1 ++ [COLON] ++ p.2.

Lemma Split_part p : entry p -> Split (part p) COLON = [p.1; p.2].
Proof.
  destruct p as [k v]. intros ([_ Hk] & [_ Hv] & _). cbn in *. unfold part, Split. cbn.
  destruct (k ++ COLON :: v) eqn:E; [by destruct k|]. rewrite <- E, Split_from_app, Split_from_none by done. done.
Qed.

Lemma part_no_comma p : entry p -> COMMA ∉ part p.
Proof. intros ([Hk _] & [Hv _] & _). unfold part. rewrite !elem_of_app, list_elem_of_singleton. intros [?|[?|?]]; done. Qed.

Lemma Split_print ty ps : COMMA ∉ ty -> Forall entry ps -> Split_from COMMA (print ty ps) = ty :: map part ps.
Proof.
  intros Hty Hps. revert ty Hty. induction Hps as [|p ps Hp Hps IH]; intros ty Hty.
  - unfold print. cbn. rewrite app_nil_r. by apply Split_from_none.
  - change (print ty (p :: ps)) with (ty ++ concat (map (fun '(k, v) => [COMMA] ++ k ++ [COLON] ++ v) (p :: ps))).
    destruct p as [k v]. cbn [map concat]. rewrite <- !app_assoc. cbn [app]. rewrite Split_from_app by done. f_equal.
    replace (k ++ COLON :: v ++ concat (map (fun '(k, v) => COMMA :: k ++ COLON :: v) ps)) with (print (part (k, v)) ps); [by apply IH, part_no_comma|].
    unfold print, part. cbn. by rewrite <- app_assoc.
Qed.

(** What the loop over the parts does to the parameters. *)
Definition add_part (acc : option StrMap.t) (part : str) : option StrMap.t :=
  m ← acc;
  match Split part COLON with
  | [k; v] => Some (if decide (v = []) then m else StrMap.set k v m)
  | _ => None
  end.

Lemma parse_unfold s : SrtParseConfig s =
  match Split s COMMA with [] => None | ty :: parts => ps ← foldl add_part (Some []) parts; Some (mkcfg ty ps 0) end.
Proof. done. Qed.

Lemma add_parts ps acc : Forall entry ps -> foldl add_part (Some acc) (map part ps) = Some (override ps acc).
Proof.
  intros Hps. revert acc. induction Hps as [|p ps Hp Hps IH]; intros acc; [done|]. cbn [map foldl]. unfold add_part at 2. cbn [mbind option_bind].
  rewrite Split_part, decide_False by (done || apply Hp). rewrite IH. by destruct p.
Qed.

Lemma override_nil ps : sorted ps -> override ps [] = ps.
Proof.
  intros Hps. destruct (override_spec ps []) as [H1 H2]; [done|constructor|]. apply sorted_ext; [done..|]. intros k. rewrite H2. cbn.
  by destruct (find k ps).
Qed.

Lemma parse_print ty ps : ty <> [] -> COMMA ∉ ty -> sorted ps -> Forall entry ps -> SrtParseConfig (print ty ps) = Some (mkcfg ty ps 0).
Proof.
  intros Hne Hty Hs Hps. rewrite parse_unfold. unfold Split. destruct (print ty ps) eqn:E; [by destruct ty|]. rewrite <- E, Split_print by done.
  rewrite add_parts by done. cbn. by rewrite override_nil.
Qed.

Lemma add_parts_ok parts acc m : foldl add_part acc parts = Some m -> Forall (fun p => COMMA ∉ p) parts ->
  exists m0, acc = Some m0 /\ (sorted m0 -> Forall entry m0 -> sorted m /\ Forall entry m).
Proof.
  revert acc. induction parts as [|p parts IH]; intros acc E Hp; cbn in E; [eauto|]. apply list.Forall_cons in Hp as [Hp Hps].
  destruct (IH _ E Hps) as (m1 & E1 & H1). unfold add_part in E1. destruct acc as [m0|]; [|done]. cbn in E1. exists m0. split; [done|]. intros Hs He.
  destruct p as [|c0 p0]; [done|]. unfold Split in E1. set (p := c0 :: p0) in *. pose proof (Split_from_pieces COLON p) as Hf.
  destruct (Split_from COLON p) as [|k [|v [|]]]; try done. injection E1 as <-.
  apply list.Forall_cons in Hf as [[K1 K2] Hf]. apply list.Forall_cons in Hf as [[V1 V2] _].
  case_decide; [by apply H1|]. apply H1; [by apply set_sorted|]. apply set_above; [|done]. split_and!; cbn; [split; auto..|done].
Qed.

Lemma parse_ok s c : SrtParseConfig s = Some c -> config_ok c.
Proof.
  rewrite parse_unfold. destruct s as [|c0 s0]; [done|]. unfold Split. set (s := c0 :: s0). pose proof (Split_from_pieces COMMA s) as Hf.
  destruct (Split_from COMMA s) as [|ty parts] eqn:Es; [done|]. destruct (foldl add_part (Some []) parts) as [ps|] eqn:E; [|done]. cbn. injection 1 as <-.
  apply list.Forall_cons in Hf as [[T1 T2] Hf].
  destruct (add_parts_ok _ _ _ E) as (m0 & E0 & H0); [eapply list.Forall_impl; [exact Hf|]; by intros ? []|]. injection E0 as <-.
  destruct H0 as [H1 H2]; [constructor|constructor|]. by split.
Qed.

(** ** Agreement *)

Lemma compat_loop keys agent peer : (forall k, k ∈ keys -> is_Some (find k agent) /\ is_Some (find k peer)) ->
  let r := foldl compat_step (agent, peer, true) keys in
  r.1.1 = agent /\ (r.2 = true -> forall k, k ∈ keys -> find k agent = find k peer).
Proof.
  induction keys as [|k keys IH]; intros Hk; [split; [done|]; intros _ ? ?%elem_of_nil; done|].
  destruct (Hk k) as [[va Ha] [vp Hp]]; [left|]. cbn [foldl]. unfold compat_step at 2 4. unfold index. rewrite Ha, Hp.
  case_bool_decide as Hv; [|split].
  - destruct IH as [H1 H2]; [intros; apply Hk; by right|]. split; [done|]. intros Hr j [->|Hj]%elem_of_cons; [congruence|auto].
  - clear. induction keys as [|? keys IH]; [done|]. exact IH.
  - intros Hr. exfalso. revert Hr. clear. induction keys as [|? keys IH]; [done|]. exact IH.
Qed.

Lemma find_keys k m : k ∈ m.*1 <-> is_Some (find k m).
Proof.
  induction m as [|[k' v'] m IH]; cbn; [rewrite elem_of_nil, is_Some_alt; done|]. rewrite elem_of_cons. case_decide; [subst; split; eauto|].
  rewrite <- IH. intuition congruence.
Qed.

Lemma find_entry k v m : find k m = Some v -> (k, v) ∈ m.
Proof.
  induction m as [|[k' v'] m IH]; [done|]. cbn. case_decide; [intros [= ->]; subst; left|]. intros E. right. auto.
Qed.

Lemma compat_ok find_filter my cfg ps : config_ok my -> config_ok cfg -> CheckFilterCompat find_filter my cfg = (ps, true) ->
  sorted ps /\ Forall entry ps /\ (forall k v, find k (parameters cfg) = Some v -> find k ps = Some v) /\
  (forall k v, find k (parameters my) = Some v -> find k ps = Some v).
Proof.
  intros [_ Hs1 He1] [_ Hs2 He2]. unfold CheckFilterCompat.
  destruct (fac ← find_filter (type my); ParseFilterConfig find_filter (defaultConfig fac)) as [df|] eqn:Ed; [|done].
  assert (Hd : config_ok df).
  { destruct (find_filter (type my)) as [fac|]; [|done]. cbn in Ed. unfold ParseFilterConfig in Ed. destruct (SrtParseConfig (defaultConfig fac)) as [c|] eqn:Ec; [|done].
    cbn in Ed. apply parse_ok in Ec as [Q1 Q2 Q3]. destruct (find_filter (type c)); [|done]. injection Ed as <-. by split. }
  destruct Hd as [_ Hs3 He3].
  destruct (complete_spec (parameters my) (parameters cfg)) as [P1 P2]; [done..|].
  set (peer := complete (parameters my) (parameters cfg)) in *.
  destruct (complete_spec peer (parameters my)) as [A1 A2]; [done..|]. set (agent := complete peer (parameters my)) in *.
  destruct (complete_spec (parameters df) peer) as [B1 B2]; [done..|]. destruct (complete_spec (parameters df) agent) as [C1 C2]; [done..|].
  set (agent' := complete (parameters df) agent) in *. set (peer' := complete (parameters df) peer) in *.
  match goal with |- context [foldl _ _ ?ks] => set (keys := ks) end.
  destruct (compat_loop keys agent' peer') as [L1 L2].
  { intros k. unfold keys. rewrite list_elem_of_union, !find_keys, C2, B2, A2, P2. 
    destruct (find k (parameters my)), (find k (parameters cfg)), (find k (parameters df)); cbn; intros [[? ?]|[? ?]]; by eauto. }
  intros [= <- Hok]. rewrite L1. split; [done|]. split; [|split].
  - apply complete_all; [done|]. apply complete_all; [by apply complete_all|done].
  - intros k v Hk. rewrite L2; [by rewrite B2, P2, Hk|done|]. unfold keys. rewrite list_elem_of_union, !find_keys, P2, Hk. eauto.
  - intros k v Hk. by rewrite C2, A2, Hk.
Qed.

Lemma parse_filter_ok find_filter s c : ParseFilterConfig find_filter s = Some c ->
  config_ok c /\ exists fac, find_filter (type c) = Some fac /\ extra_size c = ExtraSize fac /\ SrtParseConfig s = Some (mkcfg (type c) (parameters c) 0).
Proof.
  unfold ParseFilterConfig. destruct (SrtParseConfig s) as [[ty ps e]|] eqn:E; [|done]. cbn. destruct (find_filter ty) as [fac|] eqn:Ef; [|done]. cbn.
  intros [= <-]. pose proof (parse_ok _ _ E) as []. split; [by split|]. exists fac. split_and!; [done|done|]. cbn.
  assert (e = 0) as -> by (revert E; rewrite parse_unfold; destruct (Split s COMMA); [done|]; destruct (foldl _ _ _); [|done]; by intros [= _ _ <-]). done.
Qed.

Lemma parse_filter_print find_filter ty ps fac : find_filter [] = None -> find_filter ty = Some fac -> COMMA ∉ ty -> sorted ps -> Forall entry ps ->
  ParseFilterConfig find_filter (print ty ps) = Some (mkcfg ty ps (ExtraSize fac)).
Proof.
  intros H0 Hf Hty Hs He. unfold ParseFilterConfig. rewrite parse_print; [|by intros ->; congruence|done..]. cbn. by rewrite Hf.
Qed.

(** The responder's answer holds everything that the initiator asked for. *)
Lemma effective_holds find_filter side confR confI eff cfg : find_filter [] = None -> side <> HSD_INITIATOR ->
  ParseFilterConfig find_filter confI = Some cfg -> effective_config find_filter false side confR confI cfg = Some eff ->
  exists c, ParseFilterConfig find_filter eff = Some c /\ type c = type cfg /\ extra_size c = extra_size cfg /\ (eff = confI \/ eff = print (type c) (parameters c)) /\
    (forall k v, find k (parameters cfg) = Some v -> find k (parameters c) = Some v).
Proof.
  intros H0 Hside Hp. destruct (parse_filter_ok _ _ _ Hp) as (Hc & fac & Hf & Hx & _). unfold effective_config.
  case_decide; [intros [= <-]; exists cfg; split_and!; auto|]. cbn [andb].
  destruct (ParseFilterConfig find_filter confR) as [my|] eqn:Em; [|done]. cbn. case_bool_decide as Ht; [|done]. cbn.
  destruct (parse_filter_ok _ _ _ Em) as (Hmy & _).
  destruct (CheckFilterCompat find_filter my cfg) as [ps ok] eqn:Ek.
  assert (Hps : (match side with HSD_INITIATOR => Some (override (parameters cfg) (parameters my)) | _ => if ok then Some ps else None end) = if ok then Some ps else None)
    by by destruct side.
  rewrite Hps. destruct ok; [|done]. cbn. intros [= <-]. destruct (compat_ok _ _ _ _ Hmy Hc Ek) as (P1 & P2 & P3 & _).
  exists (mkcfg (type my) ps (ExtraSize fac)). rewrite (parse_filter_print _ _ _ fac); [|done|congruence|apply Hmy|done..]. cbn. split_and!; auto.
Qed.

(** ** Properties *)

(** A configuration written as [checkApplyFilterConfig] writes it is read back
    as it was. *)
Theorem filter_config_roundtrip (ty : str) (ps : StrMap.t) (Hne : ty <> []) (Hty : COMMA ∉ ty) (Hs : sorted ps) (He : Forall entry ps) :
  SrtParseConfig (print ty ps) = Some (mkcfg ty ps 0) /\
  forall s c, SrtParseConfig s = Some c -> type c <> [] -> SrtParseConfig (print (type c) (parameters c)) = Some (mkcfg (type c) (parameters c) 0).
Proof.
  split; [by apply parse_print|]. intros s c Hc Hn. destruct (parse_ok _ _ Hc). by apply parse_print.
Qed.

(** When the responder of a caller-listener connection accepts the initiator's
    filter configuration, and the result fits into the option, the initiator
    accepts the response, and both are left with the same configuration, in
    which every parameter of the initiator has the value it had; both cut
    their payload size to the same bound. *)
Theorem filter_agreed (find_filter : str -> option Factory) (side : HandshakeSide) (confR confI : str) (zR zI : Z) (cfg : SrtFilterConfig) (eff : str)
  (H0 : find_filter [] = None) (Hside : side <> HSD_INITIATOR) (HI : confI <> [])
  (Hp : ParseFilterConfig find_filter confI = Some cfg) (Hcorr : correctConfig find_filter cfg = true)
  (He : effective_config find_filter false side confR confI cfg = Some eff) (Hlen : zlen eff <= MAX_PFILTER_LENGTH)
  (Htype : forall c, ParseFilterConfig find_filter eff = Some c -> correctConfig find_filter c = true) :
  let bound := SRT_LIVE_MAX_PLSIZE - extra_size cfg in
  checkApplyFilterConfig find_filter false side confR zR confI = Some (eff, if bound <? zR then bound else zR) /\
  exists cI c, checkApplyFilterConfig find_filter false HSD_INITIATOR confI zI eff = Some (cI, if bound <? zI then bound else zI) /\
    ParseFilterConfig find_filter eff = Some c /\ ParseFilterConfig find_filter cI = Some c /\
    forall k v, StrMap.find k (parameters cfg) = Some v -> StrMap.find k (parameters c) = Some v.
Proof.
  intros bound. destruct (effective_holds _ _ _ _ _ _ H0 Hside Hp He) as (c & Ec & Ht & Hx & Heff & Hall).
  destruct (parse_filter_ok _ _ _ Hp) as (Hcfg & _). destruct (parse_filter_ok _ _ _ Ec) as (Hc & fac & Hf & Hxc & _).
  assert (Hset : storage_set MAX_PFILTER_LENGTH eff confR = eff) by (unfold storage_set; by rewrite (proj2 (Z.ltb_ge _ _))).
  split; [unfold checkApplyFilterConfig; rewrite Hp; cbn -[effective_config]; rewrite Hcorr; cbn -[effective_config]; by rewrite He; cbn; rewrite Hset|].
  exists (storage_set MAX_PFILTER_LENGTH (print (type cfg) (parameters c)) confI), c.
  assert (Hov : override (parameters c) (parameters cfg) = parameters c).
  { destruct (override_spec (parameters c) (parameters cfg)) as [O1 O2]; [apply Hc|apply Hcfg|]. apply sorted_ext; [done|apply Hc|]. intros k. rewrite O2.
    destruct (find k (parameters c)) eqn:E; [done|]. destruct (find k (parameters cfg)) eqn:E2; [|done]. apply Hall in E2. congruence. }
  assert (Hpr : ParseFilterConfig find_filter (print (type cfg) (parameters c)) = Some c).
  { rewrite <- Ht, (parse_filter_print _ _ _ fac); [|done|done|apply Hc..]. rewrite <- Hxc. by destruct c. }
  split_and!; [|done| |done].
  - unfold checkApplyFilterConfig. rewrite Ec. cbn -[effective_config]. rewrite (Htype _ Ec). cbn -[effective_config]. unfold effective_config.
    rewrite decide_False by done. cbn [andb]. rewrite Hp. cbn. rewrite bool_decide_true by done. cbn. by rewrite Hov, Hx.
  - unfold storage_set. destruct (Z.ltb_spec MAX_PFILTER_LENGTH (zlen (print (type cfg) (parameters c)))) as [El|]; [|done].
    destruct Heff as [->| ->]; [done|]. rewrite Ht in Hlen. lia.
Qed.

(** "fec,cols:10" at the responder, "fec,rows:5,cols:10" at the initiator. *)
Definition confR1 : str := fec_name ++ [44; 99; 111; 108; 115; 58; 49; 48].
Definition confI1 : str := fec_name ++ [44; 114; 111; 119; 115; 58; 53] ++ [44; 99; 111; 108; 115; 58; 49; 48].

Lemma filter_agreed_witness :
  option_map fst (checkApplyFilterConfig builtin_filter false HSD_RESPONDER confR1 1456 confI1) =
    Some (fec_name ++ [44; 97; 114; 113; 58; 111; 110; 114; 101; 113] ++ [44; 99; 111; 108; 115; 58; 49; 48] ++
          [44; 108; 97; 121; 111; 117; 116; 58; 115; 116; 97; 105; 114; 99; 97; 115; 101] ++ [44; 114; 111; 119; 115; 58; 53]) /\
  exists eff cI z, checkApplyFilterConfig builtin_filter false HSD_INITIATOR confI1 1456 eff = Some (cI, z) /\
    ParseFilterConfig builtin_filter cI = ParseFilterConfig builtin_filter eff.
Proof.
  set (eff := fec_name ++ [44; 97; 114; 113; 58; 111; 110; 114; 101; 113] ++ [44; 99; 111; 108; 115; 58; 49; 48] ++
          [44; 108; 97; 121; 111; 117; 116; 58; 115; 116; 97; 105; 114; 99; 97; 115; 101] ++ [44; 114; 111; 119; 115; 58; 53]).
  destruct (filter_agreed builtin_filter HSD_RESPONDER confR1 confI1 1456 1456
    (mkcfg fec_name [([99; 111; 108; 115], [49; 48]); ([114; 111; 119; 115], [53])] 4) eff) as (H1 & cI & c & H2 & H3 & H4 & _); try done.
  { intros c. vm_compute. by intros [= <-]. }
  split; [by rewrite H1|]. exists eff, cI, (1456 - 4). split; [exact H2|]. congruence.
Defined.

Lemma filter_config_roundtrip_witness :
  SrtParseConfig (print fec_name [([99], [49; 48])]) = Some (mkcfg fec_name [([99], [49; 48])] 0).
Proof.
  apply (filter_config_roundtrip fec_name [([99], [49; 48])]); [done| |by repeat constructor|].
  - by apply (bool_decide_unpack _).
  - repeat constructor; try done; by apply (bool_decide_unpack _).
Defined.
