(* ===== verification/HsExt.v ===== *)
(** The SRT extensions of the handshake (core.cpp): the extension blocks of a
    packet, the HSREQ and HSRSP blocks that negotiate version, flags and
    latencies, [createSrtHandshake] that writes a handshake packet and
    [interpretSrtHandshake] that reads one.  A packet's payload is a list of
    32-bit words of a little-endian host, followed by at most three bytes that
    nothing reads. *)
From S2P Require Import Prelude Packet Handshake FilterConfig.
Import CHandShake.

(** Handshake commands, and the flags of [SrtOptions]. *)
Definition SRT_CMD_REJECT : Z := 0.
Definition SRT_CMD_HSREQ : Z := 1.
Definition SRT_CMD_HSRSP : Z := 2.
Definition SRT_CMD_KMREQ : Z := 3.
Definition SRT_CMD_KMRSP : Z := 4.
Definition SRT_CMD_SID : Z := 5.
Definition SRT_CMD_CONGESTION : Z := 6.
Definition SRT_CMD_FILTER : Z := 7.
Definition SRT_CMD_NONE : Z := -1.

Definition SRT_OPT_TSBPDSND : Z := 1.
Definition SRT_OPT_TSBPDRCV : Z := 2.
Definition SRT_OPT_HAICRYPT : Z := 4.
Definition SRT_OPT_TLPKTDROP : Z := 8.
Definition SRT_OPT_NAKREPORT : Z := 16.
Definition SRT_OPT_REXMITFLG : Z := 32.
Definition SRT_OPT_STREAM : Z := 64.
Definition SRT_OPT_FILTERCAP : Z := 128.
Definition SrtVersionCapabilities : Z := Z.lor SRT_OPT_HAICRYPT SRT_OPT_FILTERCAP.

Definition IsSet (bitset flagset : Z) : bool := Z.land bitset flagset =? flagset.
Definition SrtVersion (major minor patch : Z) : Z := patch + minor * 0x100 + major * 0x10000.
Definition SRT_VERSION_FEAT_HSv5 : Z := 0x010300.
Definition UDT_DGRAM : Z := 2.

Definition MAX_SID_LENGTH : Z := 512.
Definition MAX_CONG_LENGTH : Z := 16.
(** "live". *)
Definition live : list Z := [108; 105; 118; 101].

Definition SRT_KM_S_UNSECURED : Z := 0.
Definition SRT_KM_S_NOSECRET : Z := 3.
Definition SRT_KM_S_BADSECRET : Z := 4.

(** The options of [CSrtConfig] that the handshake uses. *)
Record CSrtConfig := mkconfig {
  iRcvLatency : Z;
  iPeerLatency : Z;
  uSrtVersion : Z;
  uMinimumPeerSrtVersion : Z;
  CryptoSecret_len : Z;
  iSndCryptoKeyLen : Z;
  iMSS : Z;
  iFlightFlagSize : Z;
  zExpPayloadSize : Z;
  bTSBPD : bool;
  bRcvNakReport : bool;
  bMessageAPI : bool;
  bRendezvous : bool;
  bEnforcedEnc : bool;
  bDataSender : bool;
  sCongestion : list Z;
  sPacketFilterConfig : list Z;
  sStreamName : list Z;
}.

Definition set_iSndCryptoKeyLen (v : Z) (s : CSrtConfig) : CSrtConfig := mkconfig (iRcvLatency s) (iPeerLatency s) (uSrtVersion s) (uMinimumPeerSrtVersion s) (CryptoSecret_len s) v (iMSS s) (iFlightFlagSize s) (zExpPayloadSize s) (bTSBPD s) (bRcvNakReport s) (bMessageAPI s) (bRendezvous s) (bEnforcedEnc s) (bDataSender s) (sCongestion s) (sPacketFilterConfig s) (sStreamName s).
Definition set_iMSS (v : Z) (s : CSrtConfig) : CSrtConfig := mkconfig (iRcvLatency s) (iPeerLatency s) (uSrtVersion s) (uMinimumPeerSrtVersion s) (CryptoSecret_len s) (iSndCryptoKeyLen s) v (iFlightFlagSize s) (zExpPayloadSize s) (bTSBPD s) (bRcvNakReport s) (bMessageAPI s) (bRendezvous s) (bEnforcedEnc s) (bDataSender s) (sCongestion s) (sPacketFilterConfig s) (sStreamName s).
Definition set_zExpPayloadSize (v : Z) (s : CSrtConfig) : CSrtConfig := mkconfig (iRcvLatency s) (iPeerLatency s) (uSrtVersion s) (uMinimumPeerSrtVersion s) (CryptoSecret_len s) (iSndCryptoKeyLen s) (iMSS s) (iFlightFlagSize s) v (bTSBPD s) (bRcvNakReport s) (bMessageAPI s) (bRendezvous s) (bEnforcedEnc s) (bDataSender s) (sCongestion s) (sPacketFilterConfig s) (sStreamName s).
Definition set_sCongestion (v : list Z) (s : CSrtConfig) : CSrtConfig := mkconfig (iRcvLatency s) (iPeerLatency s) (uSrtVersion s) (uMinimumPeerSrtVersion s) (CryptoSecret_len s) (iSndCryptoKeyLen s) (iMSS s) (iFlightFlagSize s) (zExpPayloadSize s) (bTSBPD s) (bRcvNakReport s) (bMessageAPI s) (bRendezvous s) (bEnforcedEnc s) (bDataSender s) v (sPacketFilterConfig s) (sStreamName s).
Definition set_sPacketFilterConfig (v : list Z) (s : CSrtConfig) : CSrtConfig := mkconfig (iRcvLatency s) (iPeerLatency s) (uSrtVersion s) (uMinimumPeerSrtVersion s) (CryptoSecret_len s) (iSndCryptoKeyLen s) (iMSS s) (iFlightFlagSize s) (zExpPayloadSize s) (bTSBPD s) (bRcvNakReport s) (bMessageAPI s) (bRendezvous s) (bEnforcedEnc s) (bDataSender s) (sCongestion s) v (sStreamName s).
Definition set_sStreamName (v : list Z) (s : CSrtConfig) : CSrtConfig := mkconfig (iRcvLatency s) (iPeerLatency s) (uSrtVersion s) (uMinimumPeerSrtVersion s) (CryptoSecret_len s) (iSndCryptoKeyLen s) (iMSS s) (iFlightFlagSize s) (zExpPayloadSize s) (bTSBPD s) (bRcvNakReport s) (bMessageAPI s) (bRendezvous s) (bEnforcedEnc s) (bDataSender s) (sCongestion s) (sPacketFilterConfig s) v.

(** A received packet: its payload and its timestamp. *)
Record HsPacket := mkpkt { pkt_words : list Z; pkt_tail : Z; pkt_timestamp : Z }.
Definition getLength (p : HsPacket) : Z := 4 * zlen (pkt_words p) + pkt_tail p.

(** What the handshake does to the rest of the program. *)
Inductive effect :=
  | E_send (words : list Z) (id : Z)              (** a handshake packet to the peer *)
  | E_sendExt (cmd : Z) (words : list Z)          (** a [UMSG_EXT] packet to the peer *)
  | E_shutdown                                    (** [sendCtrl(UMSG_SHUTDOWN)] *)
  | E_setInitialRcvSeq (isn : Z)
  | E_setInitialSndSeq (isn : Z)
  | E_rcvSettings (rexmit : bool) (tsbpd : option (Z * Z))   (** [m_pRcvBuffer]: [setPeerRexmitFlag], [setTsbPdMode] *)
  | E_registerConnector
  | E_removeConnector
  | E_setNewEntry                                 (** [m_pRcvQueue->setNewEntry] *)
  | E_connected                                   (** [update_events(SRT_EPOLL_CONNECT)], [triggerEvent] *).

(** What the handshake uses of [CCryptoControl]. *)
Class CryptoControl (K : Type) := {
  create_crypter : HandshakeSide -> CSrtConfig -> bool -> Z -> K * bool;     (** its construction, the result of [init] *)
  getKmMsg_needSend : nat -> bool -> K -> bool;
  getKmMsg_markSent : nat -> bool -> K -> K;
  getKmMsg_size : nat -> K -> Z;
  getKmMsg_data : nat -> K -> list Z;                                        (** in words *)
  hasPassphrase : K -> bool;
  processSrtMsg_KMREQ : list Z -> Z -> Z -> Z -> K -> K * Z * list Z;
  processSrtMsg_KMRSP : list Z -> Z -> Z -> K -> K * Z;
  createFakeSndContext : K -> K;
  m_SndKmState : K -> Z;
  m_RcvKmState : K -> Z;
  set_KmState : Z -> Z -> K -> K;
}.

Module CUDT.
Section State.
Context {K : Type}.

(** The members of [CUDT] that take part; [has_buffers] says whether
    [m_pSndBuffer] and the other buffers exist. *)
Record t := mk {
  m_config : CSrtConfig;
  m_SrtHsSide : HandshakeSide;
  m_RejectReason : Z;
  m_RdvState : RendezvousState;
  m_ConnReq : CHandShake.t;
  m_ConnRes : CHandShake.t;
  m_tsRcvPeerStartTime : Z;
  m_iTsbPdDelay_ms : Z;
  m_iPeerTsbPdDelay_ms : Z;
  m_uPeerSrtVersion : Z;
  m_uPeerSrtFlags : Z;
  m_bTsbPd : bool;
  m_bPeerTsbPd : bool;
  m_bTLPktDrop : bool;
  m_bPeerTLPktDrop : bool;
  m_bPeerNakReport : bool;
  m_bPeerRexmitFlag : bool;
  m_iSndHsRetryCnt : Z;
  m_sPeerPktFilterConfigString : list Z;
  m_pCryptoControl : option K;
  has_buffers : bool;
  m_bConnecting : bool;
  m_bConnected : bool;
  m_iMaxSRTPayloadSize : Z;
  m_iFlowWindowSize : Z;
  m_iISN : Z;
  m_iPeerISN : Z;
  m_iRcvCurrPhySeqNo : Z;
  m_PeerID : Z;
  m_SocketID : Z;
  m_piSelfIP : list Z;
  m_tsLastReqTime : Z;
  effects : list effect;
}.

Definition set_m_config (v : CSrtConfig) (s : t) : t := mk v (m_SrtHsSide s) (m_RejectReason s) (m_RdvState s) (m_ConnReq s) (m_ConnRes s) (m_tsRcvPeerStartTime s) (m_iTsbPdDelay_ms s) (m_iPeerTsbPdDelay_ms s) (m_uPeerSrtVersion s) (m_uPeerSrtFlags s) (m_bTsbPd s) (m_bPeerTsbPd s) (m_bTLPktDrop s) (m_bPeerTLPktDrop s) (m_bPeerNakReport s) (m_bPeerRexmitFlag s) (m_iSndHsRetryCnt s) (m_sPeerPktFilterConfigString s) (m_pCryptoControl s) (has_buffers s) (m_bConnecting s) (m_bConnected s) (m_iMaxSRTPayloadSize s) (m_iFlowWindowSize s) (m_iISN s) (m_iPeerISN s) (m_iRcvCurrPhySeqNo s) (m_PeerID s) (m_SocketID s) (m_piSelfIP s) (m_tsLastReqTime s) (effects s).
Definition set_m_SrtHsSide (v : HandshakeSide) (s : t) : t := mk (m_config s) v (m_RejectReason s) (m_RdvState s) (m_ConnReq s) (m_ConnRes s) (m_tsRcvPeerStartTime s) (m_iTsbPdDelay_ms s) (m_iPeerTsbPdDelay_ms s) (m_uPeerSrtVersion s) (m_uPeerSrtFlags s) (m_bTsbPd s) (m_bPeerTsbPd s) (m_bTLPktDrop s) (m_bPeerTLPktDrop s) (m_bPeerNakReport s) (m_bPeerRexmitFlag s) (m_iSndHsRetryCnt s) (m_sPeerPktFilterConfigString s) (m_pCryptoControl s) (has_buffers s) (m_bConnecting s) (m_bConnected s) (m_iMaxSRTPayloadSize s) (m_iFlowWindowSize s) (m_iISN s) (m_iPeerISN s) (m_iRcvCurrPhySeqNo s) (m_PeerID s) (m_SocketID s) (m_piSelfIP s) (m_tsLastReqTime s) (effects s).
Definition set_m_RejectReason (v : Z) (s : t) : t := mk (m_config s) (m_SrtHsSide s) v (m_RdvState s) (m_ConnReq s) (m_ConnRes s) (m_tsRcvPeerStartTime s) (m_iTsbPdDelay_ms s) (m_iPeerTsbPdDelay_ms s) (m_uPeerSrtVersion s) (m_uPeerSrtFlags s) (m_bTsbPd s) (m_bPeerTsbPd s) (m_bTLPktDrop s) (m_bPeerTLPktDrop s) (m_bPeerNakReport s) (m_bPeerRexmitFlag s) (m_iSndHsRetryCnt s) (m_sPeerPktFilterConfigString s) (m_pCryptoControl s) (has_buffers s) (m_bConnecting s) (m_bConnected s) (m_iMaxSRTPayloadSize s) (m_iFlowWindowSize s) (m_iISN s) (m_iPeerISN s) (m_iRcvCurrPhySeqNo s) (m_PeerID s) (m_SocketID s) (m_piSelfIP s) (m_tsLastReqTime s) (effects s).
Definition set_m_RdvState (v : RendezvousState) (s : t) : t := mk (m_config s) (m_SrtHsSide s) (m_RejectReason s) v (m_ConnReq s) (m_ConnRes s) (m_tsRcvPeerStartTime s) (m_iTsbPdDelay_ms s) (m_iPeerTsbPdDelay_ms s) (m_uPeerSrtVersion s) (m_uPeerSrtFlags s) (m_bTsbPd s) (m_bPeerTsbPd s) (m_bTLPktDrop s) (m_bPeerTLPktDrop s) (m_bPeerNakReport s) (m_bPeerRexmitFlag s) (m_iSndHsRetryCnt s) (m_sPeerPktFilterConfigString s) (m_pCryptoControl s) (has_buffers s) (m_bConnecting s) (m_bConnected s) (m_iMaxSRTPayloadSize s) (m_iFlowWindowSize s) (m_iISN s) (m_iPeerISN s) (m_iRcvCurrPhySeqNo s) (m_PeerID s) (m_SocketID s) (m_piSelfIP s) (m_tsLastReqTime s) (effects s).
Definition set_m_ConnReq (v : CHandShake.t) (s : t) : t := mk (m_config s) (m_SrtHsSide s) (m_RejectReason s) (m_RdvState s) v (m_ConnRes s) (m_tsRcvPeerStartTime s) (m_iTsbPdDelay_ms s) (m_iPeerTsbPdDelay_ms s) (m_uPeerSrtVersion s) (m_uPeerSrtFlags s) (m_bTsbPd s) (m_bPeerTsbPd s) (m_bTLPktDrop s) (m_bPeerTLPktDrop s) (m_bPeerNakReport s) (m_bPeerRexmitFlag s) (m_iSndHsRetryCnt s) (m_sPeerPktFilterConfigString s) (m_pCryptoControl s) (has_buffers s) (m_bConnecting s) (m_bConnected s) (m_iMaxSRTPayloadSize s) (m_iFlowWindowSize s) (m_iISN s) (m_iPeerISN s) (m_iRcvCurrPhySeqNo s) (m_PeerID s) (m_SocketID s) (m_piSelfIP s) (m_tsLastReqTime s) (effects s).
Definition set_m_ConnRes (v : CHandShake.t) (s : t) : t := mk (m_config s) (m_SrtHsSide s) (m_RejectReason s) (m_RdvState s) (m_ConnReq s) v (m_tsRcvPeerStartTime s) (m_iTsbPdDelay_ms s) (m_iPeerTsbPdDelay_ms s) (m_uPeerSrtVersion s) (m_uPeerSrtFlags s) (m_bTsbPd s) (m_bPeerTsbPd s) (m_bTLPktDrop s) (m_bPeerTLPktDrop s) (m_bPeerNakReport s) (m_bPeerRexmitFlag s) (m_iSndHsRetryCnt s) (m_sPeerPktFilterConfigString s) (m_pCryptoControl s) (has_buffers s) (m_bConnecting s) (m_bConnected s) (m_iMaxSRTPayloadSize s) (m_iFlowWindowSize s) (m_iISN s) (m_iPeerISN s) (m_iRcvCurrPhySeqNo s) (m_PeerID s) (m_SocketID s) (m_piSelfIP s) (m_tsLastReqTime s) (effects s).
Definition set_m_tsRcvPeerStartTime (v : Z) (s : t) : t := mk (m_config s) (m_SrtHsSide s) (m_RejectReason s) (m_RdvState s) (m_ConnReq s) (m_ConnRes s) v (m_iTsbPdDelay_ms s) (m_iPeerTsbPdDelay_ms s) (m_uPeerSrtVersion s) (m_uPeerSrtFlags s) (m_bTsbPd s) (m_bPeerTsbPd s) (m_bTLPktDrop s) (m_bPeerTLPktDrop s) (m_bPeerNakReport s) (m_bPeerRexmitFlag s) (m_iSndHsRetryCnt s) (m_sPeerPktFilterConfigString s) (m_pCryptoControl s) (has_buffers s) (m_bConnecting s) (m_bConnected s) (m_iMaxSRTPayloadSize s) (m_iFlowWindowSize s) (m_iISN s) (m_iPeerISN s) (m_iRcvCurrPhySeqNo s) (m_PeerID s) (m_SocketID s) (m_piSelfIP s) (m_tsLastReqTime s) (effects s).
Definition set_m_iTsbPdDelay_ms (v : Z) (s : t) : t := mk (m_config s) (m_SrtHsSide s) (m_RejectReason s) (m_RdvState s) (m_ConnReq s) (m_ConnRes s) (m_tsRcvPeerStartTime s) v (m_iPeerTsbPdDelay_ms s) (m_uPeerSrtVersion s) (m_uPeerSrtFlags s) (m_bTsbPd s) (m_bPeerTsbPd s) (m_bTLPktDrop s) (m_bPeerTLPktDrop s) (m_bPeerNakReport s) (m_bPeerRexmitFlag s) (m_iSndHsRetryCnt s) (m_sPeerPktFilterConfigString s) (m_pCryptoControl s) (has_buffers s) (m_bConnecting s) (m_bConnected s) (m_iMaxSRTPayloadSize s) (m_iFlowWindowSize s) (m_iISN s) (m_iPeerISN s) (m_iRcvCurrPhySeqNo s) (m_PeerID s) (m_SocketID s) (m_piSelfIP s) (m_tsLastReqTime s) (effects s).
Definition set_m_iPeerTsbPdDelay_ms (v : Z) (s : t) : t := mk (m_config s) (m_SrtHsSide s) (m_RejectReason s) (m_RdvState s) (m_ConnReq s) (m_ConnRes s) (m_tsRcvPeerStartTime s) (m_iTsbPdDelay_ms s) v (m_uPeerSrtVersion s) (m_uPeerSrtFlags s) (m_bTsbPd s) (m_bPeerTsbPd s) (m_bTLPktDrop s) (m_bPeerTLPktDrop s) (m_bPeerNakReport s) (m_bPeerRexmitFlag s) (m_iSndHsRetryCnt s) (m_sPeerPktFilterConfigString s) (m_pCryptoControl s) (has_buffers s) (m_bConnecting s) (m_bConnected s) (m_iMaxSRTPayloadSize s) (m_iFlowWindowSize s) (m_iISN s) (m_iPeerISN s) (m_iRcvCurrPhySeqNo s) (m_PeerID s) (m_SocketID s) (m_piSelfIP s) (m_tsLastReqTime s) (effects s).
Definition set_m_uPeerSrtVersion (v : Z) (s : t) : t := mk (m_config s) (m_SrtHsSide s) (m_RejectReason s) (m_RdvState s) (m_ConnReq s) (m_ConnRes s) (m_tsRcvPeerStartTime s) (m_iTsbPdDelay_ms s) (m_iPeerTsbPdDelay_ms s) v (m_uPeerSrtFlags s) (m_bTsbPd s) (m_bPeerTsbPd s) (m_bTLPktDrop s) (m_bPeerTLPktDrop s) (m_bPeerNakReport s) (m_bPeerRexmitFlag s) (m_iSndHsRetryCnt s) (m_sPeerPktFilterConfigString s) (m_pCryptoControl s) (has_buffers s) (m_bConnecting s) (m_bConnected s) (m_iMaxSRTPayloadSize s) (m_iFlowWindowSize s) (m_iISN s) (m_iPeerISN s) (m_iRcvCurrPhySeqNo s) (m_PeerID s) (m_SocketID s) (m_piSelfIP s) (m_tsLastReqTime s) (effects s).
Definition set_m_uPeerSrtFlags (v : Z) (s : t) : t := mk (m_config s) (m_SrtHsSide s) (m_RejectReason s) (m_RdvState s) (m_ConnReq s) (m_ConnRes s) (m_tsRcvPeerStartTime s) (m_iTsbPdDelay_ms s) (m_iPeerTsbPdDelay_ms s) (m_uPeerSrtVersion s) v (m_bTsbPd s) (m_bPeerTsbPd s) (m_bTLPktDrop s) (m_bPeerTLPktDrop s) (m_bPeerNakReport s) (m_bPeerRexmitFlag s) (m_iSndHsRetryCnt s) (m_sPeerPktFilterConfigString s) (m_pCryptoControl s) (has_buffers s) (m_bConnecting s) (m_bConnected s) (m_iMaxSRTPayloadSize s) (m_iFlowWindowSize s) (m_iISN s) (m_iPeerISN s) (m_iRcvCurrPhySeqNo s) (m_PeerID s) (m_SocketID s) (m_piSelfIP s) (m_tsLastReqTime s) (effects s).
Definition set_m_bTsbPd (v : bool) (s : t) : t := mk (m_config s) (m_SrtHsSide s) (m_RejectReason s) (m_RdvState s) (m_ConnReq s) (m_ConnRes s) (m_tsRcvPeerStartTime s) (m_iTsbPdDelay_ms s) (m_iPeerTsbPdDelay_ms s) (m_uPeerSrtVersion s) (m_uPeerSrtFlags s) v (m_bPeerTsbPd s) (m_bTLPktDrop s) (m_bPeerTLPktDrop s) (m_bPeerNakReport s) (m_bPeerRexmitFlag s) (m_iSndHsRetryCnt s) (m_sPeerPktFilterConfigString s) (m_pCryptoControl s) (has_buffers s) (m_bConnecting s) (m_bConnected s) (m_iMaxSRTPayloadSize s) (m_iFlowWindowSize s) (m_iISN s) (m_iPeerISN s) (m_iRcvCurrPhySeqNo s) (m_PeerID s) (m_SocketID s) (m_piSelfIP s) (m_tsLastReqTime s) (effects s).
Definition set_m_bPeerTsbPd (v : bool) (s : t) : t := mk (m_config s) (m_SrtHsSide s) (m_RejectReason s) (m_RdvState s) (m_ConnReq s) (m_ConnRes s) (m_tsRcvPeerStartTime s) (m_iTsbPdDelay_ms s) (m_iPeerTsbPdDelay_ms s) (m_uPeerSrtVersion s) (m_uPeerSrtFlags s) (m_bTsbPd s) v (m_bTLPktDrop s) (m_bPeerTLPktDrop s) (m_bPeerNakReport s) (m_bPeerRexmitFlag s) (m_iSndHsRetryCnt s) (m_sPeerPktFilterConfigString s) (m_pCryptoControl s) (has_buffers s) (m_bConnecting s) (m_bConnected s) (m_iMaxSRTPayloadSize s) (m_iFlowWindowSize s) (m_iISN s) (m_iPeerISN s) (m_iRcvCurrPhySeqNo s) (m_PeerID s) (m_SocketID s) (m_piSelfIP s) (m_tsLastReqTime s) (effects s).
Definition set_m_bPeerTLPktDrop (v : bool) (s : t) : t := mk (m_config s) (m_SrtHsSide s) (m_RejectReason s) (m_RdvState s) (m_ConnReq s) (m_ConnRes s) (m_tsRcvPeerStartTime s) (m_iTsbPdDelay_ms s) (m_iPeerTsbPdDelay_ms s) (m_uPeerSrtVersion s) (m_uPeerSrtFlags s) (m_bTsbPd s) (m_bPeerTsbPd s) (m_bTLPktDrop s) v (m_bPeerNakReport s) (m_bPeerRexmitFlag s) (m_iSndHsRetryCnt s) (m_sPeerPktFilterConfigString s) (m_pCryptoControl s) (has_buffers s) (m_bConnecting s) (m_bConnected s) (m_iMaxSRTPayloadSize s) (m_iFlowWindowSize s) (m_iISN s) (m_iPeerISN s) (m_iRcvCurrPhySeqNo s) (m_PeerID s) (m_SocketID s) (m_piSelfIP s) (m_tsLastReqTime s) (effects s).
Definition set_m_bPeerNakReport (v : bool) (s : t) : t := mk (m_config s) (m_SrtHsSide s) (m_RejectReason s) (m_RdvState s) (m_ConnReq s) (m_ConnRes s) (m_tsRcvPeerStartTime s) (m_iTsbPdDelay_ms s) (m_iPeerTsbPdDelay_ms s) (m_uPeerSrtVersion s) (m_uPeerSrtFlags s) (m_bTsbPd s) (m_bPeerTsbPd s) (m_bTLPktDrop s) (m_bPeerTLPktDrop s) v (m_bPeerRexmitFlag s) (m_iSndHsRetryCnt s) (m_sPeerPktFilterConfigString s) (m_pCryptoControl s) (has_buffers s) (m_bConnecting s) (m_bConnected s) (m_iMaxSRTPayloadSize s) (m_iFlowWindowSize s) (m_iISN s) (m_iPeerISN s) (m_iRcvCurrPhySeqNo s) (m_PeerID s) (m_SocketID s) (m_piSelfIP s) (m_tsLastReqTime s) (effects s).
Definition set_m_bPeerRexmitFlag (v : bool) (s : t) : t := mk (m_config s) (m_SrtHsSide s) (m_RejectReason s) (m_RdvState s) (m_ConnReq s) (m_ConnRes s) (m_tsRcvPeerStartTime s) (m_iTsbPdDelay_ms s) (m_iPeerTsbPdDelay_ms s) (m_uPeerSrtVersion s) (m_uPeerSrtFlags s) (m_bTsbPd s) (m_bPeerTsbPd s) (m_bTLPktDrop s) (m_bPeerTLPktDrop s) (m_bPeerNakReport s) v (m_iSndHsRetryCnt s) (m_sPeerPktFilterConfigString s) (m_pCryptoControl s) (has_buffers s) (m_bConnecting s) (m_bConnected s) (m_iMaxSRTPayloadSize s) (m_iFlowWindowSize s) (m_iISN s) (m_iPeerISN s) (m_iRcvCurrPhySeqNo s) (m_PeerID s) (m_SocketID s) (m_piSelfIP s) (m_tsLastReqTime s) (effects s).
Definition set_m_iSndHsRetryCnt (v : Z) (s : t) : t := mk (m_config s) (m_SrtHsSide s) (m_RejectReason s) (m_RdvState s) (m_ConnReq s) (m_ConnRes s) (m_tsRcvPeerStartTime s) (m_iTsbPdDelay_ms s) (m_iPeerTsbPdDelay_ms s) (m_uPeerSrtVersion s) (m_uPeerSrtFlags s) (m_bTsbPd s) (m_bPeerTsbPd s) (m_bTLPktDrop s) (m_bPeerTLPktDrop s) (m_bPeerNakReport s) (m_bPeerRexmitFlag s) v (m_sPeerPktFilterConfigString s) (m_pCryptoControl s) (has_buffers s) (m_bConnecting s) (m_bConnected s) (m_iMaxSRTPayloadSize s) (m_iFlowWindowSize s) (m_iISN s) (m_iPeerISN s) (m_iRcvCurrPhySeqNo s) (m_PeerID s) (m_SocketID s) (m_piSelfIP s) (m_tsLastReqTime s) (effects s).
Definition set_m_pCryptoControl (v : option K) (s : t) : t := mk (m_config s) (m_SrtHsSide s) (m_RejectReason s) (m_RdvState s) (m_ConnReq s) (m_ConnRes s) (m_tsRcvPeerStartTime s) (m_iTsbPdDelay_ms s) (m_iPeerTsbPdDelay_ms s) (m_uPeerSrtVersion s) (m_uPeerSrtFlags s) (m_bTsbPd s) (m_bPeerTsbPd s) (m_bTLPktDrop s) (m_bPeerTLPktDrop s) (m_bPeerNakReport s) (m_bPeerRexmitFlag s) (m_iSndHsRetryCnt s) (m_sPeerPktFilterConfigString s) v (has_buffers s) (m_bConnecting s) (m_bConnected s) (m_iMaxSRTPayloadSize s) (m_iFlowWindowSize s) (m_iISN s) (m_iPeerISN s) (m_iRcvCurrPhySeqNo s) (m_PeerID s) (m_SocketID s) (m_piSelfIP s) (m_tsLastReqTime s) (effects s).
Definition set_has_buffers (v : bool) (s : t) : t := mk (m_config s) (m_SrtHsSide s) (m_RejectReason s) (m_RdvState s) (m_ConnReq s) (m_ConnRes s) (m_tsRcvPeerStartTime s) (m_iTsbPdDelay_ms s) (m_iPeerTsbPdDelay_ms s) (m_uPeerSrtVersion s) (m_uPeerSrtFlags s) (m_bTsbPd s) (m_bPeerTsbPd s) (m_bTLPktDrop s) (m_bPeerTLPktDrop s) (m_bPeerNakReport s) (m_bPeerRexmitFlag s) (m_iSndHsRetryCnt s) (m_sPeerPktFilterConfigString s) (m_pCryptoControl s) v (m_bConnecting s) (m_bConnected s) (m_iMaxSRTPayloadSize s) (m_iFlowWindowSize s) (m_iISN s) (m_iPeerISN s) (m_iRcvCurrPhySeqNo s) (m_PeerID s) (m_SocketID s) (m_piSelfIP s) (m_tsLastReqTime s) (effects s).
Definition set_m_bConnecting (v : bool) (s : t) : t := mk (m_config s) (m_SrtHsSide s) (m_RejectReason s) (m_RdvState s) (m_ConnReq s) (m_ConnRes s) (m_tsRcvPeerStartTime s) (m_iTsbPdDelay_ms s) (m_iPeerTsbPdDelay_ms s) (m_uPeerSrtVersion s) (m_uPeerSrtFlags s) (m_bTsbPd s) (m_bPeerTsbPd s) (m_bTLPktDrop s) (m_bPeerTLPktDrop s) (m_bPeerNakReport s) (m_bPeerRexmitFlag s) (m_iSndHsRetryCnt s) (m_sPeerPktFilterConfigString s) (m_pCryptoControl s) (has_buffers s) v (m_bConnected s) (m_iMaxSRTPayloadSize s) (m_iFlowWindowSize s) (m_iISN s) (m_iPeerISN s) (m_iRcvCurrPhySeqNo s) (m_PeerID s) (m_SocketID s) (m_piSelfIP s) (m_tsLastReqTime s) (effects s).
Definition set_m_bConnected (v : bool) (s : t) : t := mk (m_config s) (m_SrtHsSide s) (m_RejectReason s) (m_RdvState s) (m_ConnReq s) (m_ConnRes s) (m_tsRcvPeerStartTime s) (m_iTsbPdDelay_ms s) (m_iPeerTsbPdDelay_ms s) (m_uPeerSrtVersion s) (m_uPeerSrtFlags s) (m_bTsbPd s) (m_bPeerTsbPd s) (m_bTLPktDrop s) (m_bPeerTLPktDrop s) (m_bPeerNakReport s) (m_bPeerRexmitFlag s) (m_iSndHsRetryCnt s) (m_sPeerPktFilterConfigString s) (m_pCryptoControl s) (has_buffers s) (m_bConnecting s) v (m_iMaxSRTPayloadSize s) (m_iFlowWindowSize s) (m_iISN s) (m_iPeerISN s) (m_iRcvCurrPhySeqNo s) (m_PeerID s) (m_SocketID s) (m_piSelfIP s) (m_tsLastReqTime s) (effects s).
Definition set_m_iMaxSRTPayloadSize (v : Z) (s : t) : t := mk (m_config s) (m_SrtHsSide s) (m_RejectReason s) (m_RdvState s) (m_ConnReq s) (m_ConnRes s) (m_tsRcvPeerStartTime s) (m_iTsbPdDelay_ms s) (m_iPeerTsbPdDelay_ms s) (m_uPeerSrtVersion s) (m_uPeerSrtFlags s) (m_bTsbPd s) (m_bPeerTsbPd s) (m_bTLPktDrop s) (m_bPeerTLPktDrop s) (m_bPeerNakReport s) (m_bPeerRexmitFlag s) (m_iSndHsRetryCnt s) (m_sPeerPktFilterConfigString s) (m_pCryptoControl s) (has_buffers s) (m_bConnecting s) (m_bConnected s) v (m_iFlowWindowSize s) (m_iISN s) (m_iPeerISN s) (m_iRcvCurrPhySeqNo s) (m_PeerID s) (m_SocketID s) (m_piSelfIP s) (m_tsLastReqTime s) (effects s).
Definition set_m_iFlowWindowSize (v : Z) (s : t) : t := mk (m_config s) (m_SrtHsSide s) (m_RejectReason s) (m_RdvState s) (m_ConnReq s) (m_ConnRes s) (m_tsRcvPeerStartTime s) (m_iTsbPdDelay_ms s) (m_iPeerTsbPdDelay_ms s) (m_uPeerSrtVersion s) (m_uPeerSrtFlags s) (m_bTsbPd s) (m_bPeerTsbPd s) (m_bTLPktDrop s) (m_bPeerTLPktDrop s) (m_bPeerNakReport s) (m_bPeerRexmitFlag s) (m_iSndHsRetryCnt s) (m_sPeerPktFilterConfigString s) (m_pCryptoControl s) (has_buffers s) (m_bConnecting s) (m_bConnected s) (m_iMaxSRTPayloadSize s) v (m_iISN s) (m_iPeerISN s) (m_iRcvCurrPhySeqNo s) (m_PeerID s) (m_SocketID s) (m_piSelfIP s) (m_tsLastReqTime s) (effects s).
Definition set_m_iISN (v : Z) (s : t) : t := mk (m_config s) (m_SrtHsSide s) (m_RejectReason s) (m_RdvState s) (m_ConnReq s) (m_ConnRes s) (m_tsRcvPeerStartTime s) (m_iTsbPdDelay_ms s) (m_iPeerTsbPdDelay_ms s) (m_uPeerSrtVersion s) (m_uPeerSrtFlags s) (m_bTsbPd s) (m_bPeerTsbPd s) (m_bTLPktDrop s) (m_bPeerTLPktDrop s) (m_bPeerNakReport s) (m_bPeerRexmitFlag s) (m_iSndHsRetryCnt s) (m_sPeerPktFilterConfigString s) (m_pCryptoControl s) (has_buffers s) (m_bConnecting s) (m_bConnected s) (m_iMaxSRTPayloadSize s) (m_iFlowWindowSize s) v (m_iPeerISN s) (m_iRcvCurrPhySeqNo s) (m_PeerID s) (m_SocketID s) (m_piSelfIP s) (m_tsLastReqTime s) (effects s).
Definition set_m_iPeerISN (v : Z) (s : t) : t := mk (m_config s) (m_SrtHsSide s) (m_RejectReason s) (m_RdvState s) (m_ConnReq s) (m_ConnRes s) (m_tsRcvPeerStartTime s) (m_iTsbPdDelay_ms s) (m_iPeerTsbPdDelay_ms s) (m_uPeerSrtVersion s) (m_uPeerSrtFlags s) (m_bTsbPd s) (m_bPeerTsbPd s) (m_bTLPktDrop s) (m_bPeerTLPktDrop s) (m_bPeerNakReport s) (m_bPeerRexmitFlag s) (m_iSndHsRetryCnt s) (m_sPeerPktFilterConfigString s) (m_pCryptoControl s) (has_buffers s) (m_bConnecting s) (m_bConnected s) (m_iMaxSRTPayloadSize s) (m_iFlowWindowSize s) (m_iISN s) v (m_iRcvCurrPhySeqNo s) (m_PeerID s) (m_SocketID s) (m_piSelfIP s) (m_tsLastReqTime s) (effects s).
Definition set_m_iRcvCurrPhySeqNo (v : Z) (s : t) : t := mk (m_config s) (m_SrtHsSide s) (m_RejectReason s) (m_RdvState s) (m_ConnReq s) (m_ConnRes s) (m_tsRcvPeerStartTime s) (m_iTsbPdDelay_ms s) (m_iPeerTsbPdDelay_ms s) (m_uPeerSrtVersion s) (m_uPeerSrtFlags s) (m_bTsbPd s) (m_bPeerTsbPd s) (m_bTLPktDrop s) (m_bPeerTLPktDrop s) (m_bPeerNakReport s) (m_bPeerRexmitFlag s) (m_iSndHsRetryCnt s) (m_sPeerPktFilterConfigString s) (m_pCryptoControl s) (has_buffers s) (m_bConnecting s) (m_bConnected s) (m_iMaxSRTPayloadSize s) (m_iFlowWindowSize s) (m_iISN s) (m_iPeerISN s) v (m_PeerID s) (m_SocketID s) (m_piSelfIP s) (m_tsLastReqTime s) (effects s).
Definition set_m_PeerID (v : Z) (s : t) : t := mk (m_config s) (m_SrtHsSide s) (m_RejectReason s) (m_RdvState s) (m_ConnReq s) (m_ConnRes s) (m_tsRcvPeerStartTime s) (m_iTsbPdDelay_ms s) (m_iPeerTsbPdDelay_ms s) (m_uPeerSrtVersion s) (m_uPeerSrtFlags s) (m_bTsbPd s) (m_bPeerTsbPd s) (m_bTLPktDrop s) (m_bPeerTLPktDrop s) (m_bPeerNakReport s) (m_bPeerRexmitFlag s) (m_iSndHsRetryCnt s) (m_sPeerPktFilterConfigString s) (m_pCryptoControl s) (has_buffers s) (m_bConnecting s) (m_bConnected s) (m_iMaxSRTPayloadSize s) (m_iFlowWindowSize s) (m_iISN s) (m_iPeerISN s) (m_iRcvCurrPhySeqNo s) v (m_SocketID s) (m_piSelfIP s) (m_tsLastReqTime s) (effects s).
Definition set_m_piSelfIP (v : list Z) (s : t) : t := mk (m_config s) (m_SrtHsSide s) (m_RejectReason s) (m_RdvState s) (m_ConnReq s) (m_ConnRes s) (m_tsRcvPeerStartTime s) (m_iTsbPdDelay_ms s) (m_iPeerTsbPdDelay_ms s) (m_uPeerSrtVersion s) (m_uPeerSrtFlags s) (m_bTsbPd s) (m_bPeerTsbPd s) (m_bTLPktDrop s) (m_bPeerTLPktDrop s) (m_bPeerNakReport s) (m_bPeerRexmitFlag s) (m_iSndHsRetryCnt s) (m_sPeerPktFilterConfigString s) (m_pCryptoControl s) (has_buffers s) (m_bConnecting s) (m_bConnected s) (m_iMaxSRTPayloadSize s) (m_iFlowWindowSize s) (m_iISN s) (m_iPeerISN s) (m_iRcvCurrPhySeqNo s) (m_PeerID s) (m_SocketID s) v (m_tsLastReqTime s) (effects s).
Definition set_m_tsLastReqTime (v : Z) (s : t) : t := mk (m_config s) (m_SrtHsSide s) (m_RejectReason s) (m_RdvState s) (m_ConnReq s) (m_ConnRes s) (m_tsRcvPeerStartTime s) (m_iTsbPdDelay_ms s) (m_iPeerTsbPdDelay_ms s) (m_uPeerSrtVersion s) (m_uPeerSrtFlags s) (m_bTsbPd s) (m_bPeerTsbPd s) (m_bTLPktDrop s) (m_bPeerTLPktDrop s) (m_bPeerNakReport s) (m_bPeerRexmitFlag s) (m_iSndHsRetryCnt s) (m_sPeerPktFilterConfigString s) (m_pCryptoControl s) (has_buffers s) (m_bConnecting s) (m_bConnected s) (m_iMaxSRTPayloadSize s) (m_iFlowWindowSize s) (m_iISN s) (m_iPeerISN s) (m_iRcvCurrPhySeqNo s) (m_PeerID s) (m_SocketID s) (m_piSelfIP s) v (effects s).
Definition set_effects (v : list effect) (s : t) : t := mk (m_config s) (m_SrtHsSide s) (m_RejectReason s) (m_RdvState s) (m_ConnReq s) (m_ConnRes s) (m_tsRcvPeerStartTime s) (m_iTsbPdDelay_ms s) (m_iPeerTsbPdDelay_ms s) (m_uPeerSrtVersion s) (m_uPeerSrtFlags s) (m_bTsbPd s) (m_bPeerTsbPd s) (m_bTLPktDrop s) (m_bPeerTLPktDrop s) (m_bPeerNakReport s) (m_bPeerRexmitFlag s) (m_iSndHsRetryCnt s) (m_sPeerPktFilterConfigString s) (m_pCryptoControl s) (has_buffers s) (m_bConnecting s) (m_bConnected s) (m_iMaxSRTPayloadSize s) (m_iFlowWindowSize s) (m_iISN s) (m_iPeerISN s) (m_iRcvCurrPhySeqNo s) (m_PeerID s) (m_SocketID s) (m_piSelfIP s) (m_tsLastReqTime s) v.

Definition reject (reason : Z) (s : t) : t := set_m_RejectReason reason s.
Definition emit (e : effect) (s : t) : t := set_effects (effects s ++ [e]) s.
Definition on_config (f : CSrtConfig -> CSrtConfig) (s : t) : t := set_m_config (f (m_config s)) s.
End State.
Arguments t : clear implicits.
End CUDT.
Import CUDT.

(** ** Extension blocks *)

(** [HS_CMDSPEC_CMD], [HS_CMDSPEC_SIZE]. *)
Definition cmdspec (cmd size : Z) : Z := Z.lor (Bits.wrap 31 16 (u32 cmd)) (Bits.wrap 15 0 (u32 size)).
Definition block (cmd : Z) (contents : list Z) : list Z := cmdspec cmd (zlen contents) :: contents.

(** The first block of the words that are left: its command and its contents,
    and the words of the next block where there is one.  [None] is the result
    [SRT_CMD_NONE]. *)
Definition FindExtensionBlock (l : list Z) : option (Z * list Z * option (list Z)) :=
  match l with
  | [] => None
  | spec :: rest =>
      let cmd := Bits.unwrap 31 16 spec in
      let size := Bits.unwrap 15 0 spec in
      if zlen l <? size + 1 then None
      else Some (cmd, take (Z.to_nat size) rest, if zlen l =? size + 1 then None else Some (drop (Z.to_nat size) rest))
  end.

(** [SrtExtractHandshakeExtensions]. *)
Definition extract_step (x : list (Z * list Z) * list Z) : list (Z * list Z) * list Z + list (Z * list Z) :=
  let '(out, l) := x in
  match FindExtensionBlock l with
  | None => inr out
  | Some (cmd, contents, next) =>
      let out := out ++ [(cmd, contents)] in
      match next with Some l' => inl (out, l') | None => inr out end
  end.
Definition SrtExtractHandshakeExtensions (payload : list Z) : option (list (Z * list Z)) :=
  let l := drop content_words payload in loop (S (length l)) extract_step ([], l).

(** Bytes of a string in the words of a little-endian host, padded with zeros. *)
Fixpoint words_of_bytes (s : list Z) : list Z :=
  match s with
  | [] => []
  | [a] => [a]
  | [a; b] => [a + 2 ^ 8 * b]
  | [a; b; c] => [a + 2 ^ 8 * b + 2 ^ 16 * c]
  | a :: b :: c :: d :: s => (a + 2 ^ 8 * b + 2 ^ 16 * c + 2 ^ 24 * d) :: words_of_bytes s
  end.
Definition bytes_of_word (w : Z) : list Z := [w mod 256; w / 2 ^ 8 mod 256; w / 2 ^ 16 mod 256; w / 2 ^ 24 mod 256].
Definition bytes_of_words (l : list Z) : list Z := concat (map bytes_of_word l).
(** A C string: up to the first zero. *)
Fixpoint c_str (s : list Z) : list Z := match s with [] => [] | c :: s => if c =? 0 then [] else c :: c_str s end.

Definition fillHsExtConfigString (cmd : Z) (s : list Z) : list Z := block cmd (words_of_bytes s).

(** [targetlen]: the position of the last character that is not NUL; the loop
    does not look at the position 0. *)
Fixpoint sid_length (target : list Z) (pos : nat) (bytelen : Z) : Z :=
  match pos with
  | O => bytelen
  | S pos' => if negb (target.[Z.of_nat pos] =? 0) then Z.of_nat pos + 1 else sid_length target pos' bytelen
  end.

(** The stream ID that the contents of a block stand for. *)
Definition sid_of_words (contents : list Z) : list Z :=
  let bytelen := 4 * zlen contents in
  let target := bytes_of_words contents in
  let targetlen := sid_length target (Z.to_nat (bytelen - 1)) bytelen in
  take (Z.to_nat targetlen) target.

Section Ops.
Context {K : Type} `{CryptoControl K}.
Implicit Types s : CUDT.t K.

(** ** HSREQ and HSRSP *)

(** The three words [SRT_HS_VERSION], [SRT_HS_FLAGS], [SRT_HS_LATENCY]. *)
Definition fillSrtHandshake_HSREQ (version flags latency : Z) (hs_version : Z) s : CUDT.t K * list Z :=
  let c := m_config s in
  let '(s, flags, latency) :=
    if bTSBPD c then
      let s := set_m_iPeerTsbPdDelay_ms (iPeerLatency c) (set_m_iTsbPdDelay_ms (iRcvLatency c) s) in
      let flags := Z.lor flags SRT_OPT_TSBPDSND in
      if hs_version <? HS_VERSION_SRT1 then (s, flags, Bits.wrap 15 0 (u32 (m_iPeerTsbPdDelay_ms s)))
      else
        let latency := Bits.wrap 15 0 (u32 (m_iPeerTsbPdDelay_ms s)) in
        let flags := Z.lor flags SRT_OPT_TSBPDRCV in
        let latency := Z.lor latency (Bits.wrap 31 16 (u32 (m_iTsbPdDelay_ms s))) in
        (s, if m_bTLPktDrop s then Z.lor flags SRT_OPT_TLPKTDROP else flags, latency)
    else (s, flags, latency) in
  let flags := if bRcvNakReport c then Z.lor flags SRT_OPT_NAKREPORT else flags in
  let flags := Z.lor flags SRT_OPT_REXMITFLG in
  let flags := if bMessageAPI c then flags else Z.lor flags SRT_OPT_STREAM in
  (s, [version; flags; latency]).

(** No words where the function returns 0. *)
Definition fillSrtHandshake_HSRSP (version flags latency : Z) (hs_version : Z) s : CUDT.t K * list Z :=
  if m_tsRcvPeerStartTime s =? 0 then (s, [])
  else
    let c := m_config s in
    let '(flags, latency) :=
      if bTSBPD c then
        (Z.lor flags SRT_OPT_TSBPDRCV,
         if hs_version <? HS_VERSION_SRT1 then Bits.wrap 15 0 (u32 (m_iTsbPdDelay_ms s)) else Bits.wrap 31 16 (u32 (m_iTsbPdDelay_ms s)))
      else (flags, latency) in
    let '(flags, latency) :=
      if m_bPeerTsbPd s && (HS_VERSION_SRT1 <=? hs_version) then
        (Z.lor flags SRT_OPT_TSBPDSND, Z.lor latency (Bits.wrap 15 0 (u32 (m_iPeerTsbPdDelay_ms s))))
      else (flags, latency) in
    let flags := if m_bTLPktDrop s then Z.lor flags SRT_OPT_TLPKTDROP else flags in
    let flags :=
      if bRcvNakReport c then
        let flags := Z.lor flags SRT_OPT_NAKREPORT in
        if m_uPeerSrtVersion s <=? SrtVersion 1 0 7 then Z.ldiff flags SRT_OPT_TLPKTDROP else flags
      else flags in
    let flags := if (SrtVersion 1 2 0 <=? uSrtVersion c) && m_bPeerRexmitFlag s then Z.lor flags SRT_OPT_REXMITFLG else flags in
    (s, [version; flags; latency]).

Definition fillSrtHandshake (srtlen msgtype hs_version : Z) s : CUDT.t K * list Z :=
  if srtlen <? 3 then (s, [])
  else
    let version := uSrtVersion (m_config s) in
    let flags := Z.lor 0 SrtVersionCapabilities in
    if msgtype =? SRT_CMD_HSREQ then fillSrtHandshake_HSREQ version flags 0 hs_version s
    else if msgtype =? SRT_CMD_HSRSP then fillSrtHandshake_HSRSP version flags 0 hs_version s
    else (s, []).

(** The commands that carry the handshake's own words; key material goes
    through [CCryptoControl]. *)
Definition sendSrtMsg (cmd : Z) s : CUDT.t K :=
  let cmd := if cmd =? SRT_CMD_REJECT then SRT_CMD_HSRSP else cmd in
  if (cmd =? SRT_CMD_HSREQ) || (cmd =? SRT_CMD_HSRSP) then
    let '(s, srtdata) := fillSrtHandshake 3 cmd (m_iVersion (m_ConnRes s)) s in
    if 0 <? zlen srtdata then emit (E_sendExt cmd srtdata) s else s
  else s.

(** The state and the command to answer with. *)
Definition processSrtMsg_HSREQ (srtdata : list Z) (bytelen ts hsv now : Z) s : CUDT.t K * Z :=
  let s := set_m_tsRcvPeerStartTime (now - ts) s in
  let s := set_m_iPeerTsbPdDelay_ms (iPeerLatency (m_config s)) (set_m_iTsbPdDelay_ms (iRcvLatency (m_config s)) s) in
  if bytelen <? 8 then (reject SRT_REJ_ROGUE s, SRT_CMD_NONE)
  else
    let s := set_m_uPeerSrtFlags srtdata.[1] (set_m_uPeerSrtVersion srtdata.[0] s) in
    let v := m_uPeerSrtVersion s in
    let fl := m_uPeerSrtFlags s in
    if (if hsv =? HS_VERSION_UDT4 then SRT_VERSION_FEAT_HSv5 <=? v else v <? SRT_VERSION_FEAT_HSv5) then (reject SRT_REJ_ROGUE s, SRT_CMD_REJECT)
    else if v <? uMinimumPeerSrtVersion (m_config s) then (reject SRT_REJ_VERSION s, SRT_CMD_REJECT)
    else
      let s := set_m_bPeerRexmitFlag (IsSet fl SRT_OPT_REXMITFLG) s in
      let peer_message_api := negb (IsSet fl SRT_OPT_STREAM) in
      if negb (eqb peer_message_api (bMessageAPI (m_config s))) then (reject SRT_REJ_MESSAGEAPI s, SRT_CMD_REJECT)
      else if bytelen <? 12 then
        if IsSet fl SRT_OPT_TSBPDSND || IsSet fl SRT_OPT_TSBPDRCV then (reject SRT_REJ_ROGUE s, SRT_CMD_REJECT)
        else (set_m_bPeerTsbPd false (set_m_bTsbPd false s), SRT_CMD_HSRSP)
      else
        let latencystr := srtdata.[2] in
        let s :=
          if IsSet fl SRT_OPT_TSBPDSND && bTSBPD (m_config s) then
            let peer_decl_latency := Bits.unwrap 15 0 latencystr in
            set_m_bTsbPd true (set_m_iTsbPdDelay_ms (Z.max (m_iTsbPdDelay_ms s) peer_decl_latency) s)
          else s in
        let s :=
          if (HS_VERSION_UDT4 <? hsv) && IsSet fl SRT_OPT_TSBPDRCV then
            let s := set_m_bPeerTsbPd true s in
            let peer_decl_latency := Bits.unwrap 31 16 latencystr in
            set_m_iPeerTsbPdDelay_ms (Z.max (m_iPeerTsbPdDelay_ms s) peer_decl_latency) s
          else s in
        let s :=
          if HS_VERSION_UDT4 <? hsv then
            let s := if IsSet fl SRT_OPT_TLPKTDROP then set_m_bPeerTLPktDrop true s else s in
            if IsSet fl SRT_OPT_NAKREPORT then set_m_bPeerNakReport true s else s
          else s in
        (s, SRT_CMD_HSRSP).

Definition handshakeDone s : CUDT.t K := set_m_iSndHsRetryCnt 0 s.

Definition processSrtMsg_HSRSP (srtdata : list Z) (bytelen ts hsv now : Z) s : CUDT.t K * Z :=
  if (hsv =? HS_VERSION_UDT4) && (SRT_VERSION_FEAT_HSv5 <=? srtdata.[0]) then (s, SRT_CMD_NONE)
  else if bytelen <? 8 then (s, SRT_CMD_NONE)
  else
    let s := if m_tsRcvPeerStartTime s =? 0 then set_m_tsRcvPeerStartTime (now - ts) s else s in
    let s := set_m_uPeerSrtFlags srtdata.[1] (set_m_uPeerSrtVersion srtdata.[0] s) in
    let fl := m_uPeerSrtFlags s in
    let c := m_config s in
    if m_uPeerSrtVersion s <? uMinimumPeerSrtVersion c then (reject SRT_REJ_VERSION s, SRT_CMD_REJECT)
    else
      let s :=
        if hsv =? HS_VERSION_UDT4 then
          if IsSet fl SRT_OPT_TSBPDRCV then set_m_iPeerTsbPdDelay_ms (Bits.unwrap 15 0 srtdata.[2]) (set_m_bPeerTsbPd true s) else s
        else
          let s := if IsSet fl SRT_OPT_TSBPDRCV then set_m_iPeerTsbPdDelay_ms (Bits.unwrap 31 16 srtdata.[2]) (set_m_bPeerTsbPd true s) else s in
          if IsSet fl SRT_OPT_TSBPDSND && bTSBPD c then set_m_iTsbPdDelay_ms (Bits.unwrap 15 0 srtdata.[2]) (set_m_bTsbPd true s) else s in
      let s := if (SrtVersion 1 0 5 <=? uSrtVersion c) && IsSet fl SRT_OPT_TLPKTDROP then set_m_bPeerTLPktDrop true s else s in
      let s := if (SrtVersion 1 1 0 <=? uSrtVersion c) && IsSet fl SRT_OPT_NAKREPORT then set_m_bPeerNakReport true s else s in
      let s := if (SrtVersion 1 2 0 <=? uSrtVersion c) && IsSet fl SRT_OPT_REXMITFLG then set_m_bPeerRexmitFlag true s else s in
      (handshakeDone s, SRT_CMD_NONE).

(** ** Writing a handshake packet *)

(** The blocks of a packet so far, and the size of the last one's contents. *)
Definition put (cmd : Z) (contents : list Z) (x : list Z * Z) : list Z * Z := (x.1 ++ block cmd contents, zlen contents).

Definition fillHsExtKMREQ (ki : nat) (k : K) (x : list Z * Z) : list Z * Z := put SRT_CMD_KMREQ (map CPacket.bswap32 (getKmMsg_data ki k)) x.

(** The two keys that are to be sent; [false] when there is none. *)
Definition put_keys (k : K) (x : list Z * Z) : K * (list Z * Z) * bool :=
  foldl (fun '(k, x, any) ki =>
           if getKmMsg_needSend ki false k then
             let k := getKmMsg_markSent ki false k in (k, fillHsExtKMREQ ki k x, true)
           else (k, x, any)) (k, x, false) [0%nat; 1%nat].

(** [kmdata] is the key material of the response, in words. *)
Definition fillHsExtKMRSP (kmdata : list Z) (k : K) (x : list Z * Z) : K * (list Z * Z) :=
  match kmdata with
  | [] => (set_KmState SRT_KM_S_NOSECRET SRT_KM_S_UNSECURED k, put SRT_CMD_KMRSP [CPacket.bswap32 SRT_KM_S_UNSECURED] x)
  | _ => (k, put SRT_CMD_KMRSP (map CPacket.bswap32 kmdata) x)
  end.

(** The state, the handshake structure and the payload of the packet, no
    payload where the function returns [false].  [w_len] is the size in bytes
    of the packet's buffer, [None] the result where it is too small, or
    negative, which is a huge [size_t], and the function writes or sends what
    lies beyond it. *)
Definition createSrtHandshake (srths_cmd srtkm_cmd : Z) (kmdata : list Z) (w_len : Z) (w_hs : CHandShake.t) s :
    option (CUDT.t K * CHandShake.t * option (list Z)) :=
  let c := m_config s in
  let w_hs :=
    if m_iVersion (m_ConnRes s) =? HS_VERSION_UDT4 then set_m_extension false (set_m_iType UDT_DGRAM (set_m_iVersion HS_VERSION_UDT4 w_hs))
    else set_m_iType 0 w_hs in
  let w_hs :=
    if HS_VERSION_UDT4 <? m_iVersion w_hs then
      let w_hs :=
        if (m_iReqType w_hs =? URQ_CONCLUSION) && (srths_cmd =? SRT_CMD_HSRSP) && (m_tsRcvPeerStartTime s =? 0) then set_m_extension false w_hs
        else w_hs in
      set_m_iType (SrtHSRequest.wrapFlags false (iSndCryptoKeyLen c)) w_hs
    else set_m_iType UDT_DGRAM w_hs in
  if w_len <? m_iContentSize then None
  else if negb (m_extension w_hs) then Some (s, w_hs, Some (words w_hs))
  else if (srths_cmd =? SRT_CMD_HSREQ) && bool_decide (m_SrtHsSide s = HSD_RESPONDER) then Some (reject SRT_REJ_IPE s, w_hs, None)
  else
    let add flag w_hs := set_m_iType (Z.lor (m_iType w_hs) flag) w_hs in
    let w_hs := add HS_EXT_HSREQ w_hs in
    let have_sid := (srths_cmd =? SRT_CMD_HSREQ) && bool_decide (sStreamName c <> []) in
    let w_hs := if have_sid then add HS_EXT_CONFIG w_hs else w_hs in
    let peer_filter_capable :=
      if srths_cmd =? SRT_CMD_HSRSP then bool_decide (m_sPeerPktFilterConfigString s <> []) || IsSet (m_uPeerSrtFlags s) SRT_OPT_FILTERCAP else true in
    let have_filter := peer_filter_capable && bool_decide (sPacketFilterConfig c <> []) in
    let w_hs := if have_filter then add HS_EXT_CONFIG w_hs else w_hs in
    let sm := sCongestion c in
    let have_congctl := negb (bool_decide (sm = [])) && negb (bool_decide (sm = live)) in
    let w_hs := if have_congctl then add HS_EXT_CONFIG w_hs else w_hs in
    let have_kmreq := (0 <? CryptoSecret_len c) || (0 <? zlen kmdata) in
    let w_hs := if have_kmreq then add HS_EXT_KMREQ w_hs else w_hs in
    let total_ra_size := w_len / 4 in
    let '(s, srtdata) := fillSrtHandshake (total_ra_size - 13) srths_cmd HS_VERSION_SRT1 s in
    let x := put srths_cmd srtdata (words w_hs, 0) in
    if have_sid && (m_iMaxSRTPayloadSize s / 2 <=? zlen (sStreamName c)) then Some (reject SRT_REJ_ROGUE s, w_hs, None)
    else
      let put_string cmd str (x : list Z * Z) := put cmd (words_of_bytes str) x in
      let x := if have_sid then put_string SRT_CMD_SID (sStreamName c) x else x in
      let x := if have_congctl then put_string SRT_CMD_CONGESTION sm x else x in
      let x := if have_filter then put_string SRT_CMD_FILTER (sPacketFilterConfig c) x else x in
      let finish s (x : list Z * Z) :=
        if 4 * zlen x.1 <=? w_len then Some (s, w_hs, if x.2 =? 0 then None else Some x.1) else None in
      if have_kmreq then
        match m_pCryptoControl s with
        | None => if (srtkm_cmd =? SRT_CMD_KMREQ) || (srtkm_cmd =? SRT_CMD_KMRSP) then Some (reject SRT_REJ_IPE s, w_hs, None)
                  else Some (reject SRT_REJ_IPE s, w_hs, None)
        | Some k =>
            if srtkm_cmd =? SRT_CMD_KMREQ then
              let '(k, x, have_any_keys) := put_keys k x in
              let s := set_m_pCryptoControl (Some k) s in
              if have_any_keys then finish s x else Some (reject SRT_REJ_IPE s, w_hs, None)
            else if srtkm_cmd =? SRT_CMD_KMRSP then
              let '(k, x) := fillHsExtKMRSP kmdata k x in finish (set_m_pCryptoControl (Some k) s) x
            else Some (reject SRT_REJ_IPE s, w_hs, None)
        end
      else finish s x.

(** ** Reading a handshake packet *)

(** Each search of [interpretSrtHandshake] walks over the blocks from the
    first one. *)
Definition hsreq_step (ts now : Z) (x : CUDT.t K * list Z) : CUDT.t K * list Z + CUDT.t K * bool :=
  let '(s, l) := x in
  match FindExtensionBlock l with
  | None => inr (reject SRT_REJ_ROGUE s, false)
  | Some (cmd, contents, next) =>
      let bytelen := 4 * zlen contents in
      if cmd =? SRT_CMD_HSREQ then
        if zlen contents <? 3 then inr (reject SRT_REJ_ROGUE s, false)
        else
          let '(s, rescmd) := processSrtMsg_HSREQ contents bytelen ts HS_VERSION_SRT1 now s in
          if negb (rescmd =? SRT_CMD_HSRSP) then inr (s, false) else inr (handshakeDone s, true)
      else if cmd =? SRT_CMD_HSRSP then
        if zlen contents <? 3 then inr (reject SRT_REJ_ROGUE s, false)
        else
          let '(s, rescmd) := processSrtMsg_HSRSP contents bytelen ts HS_VERSION_SRT1 now s in
          if negb (rescmd =? SRT_CMD_NONE) then inr (if m_RejectReason s =? SRT_REJ_UNKNOWN then reject SRT_REJ_ROGUE s else s, false)
          else inr (handshakeDone s, true)
      else match next with Some l' => inl (s, l') | None => inr (s, true) end
  end.

(** The state with the key material to answer with, and whether encryption was
    declared; [inr] of [None] is a null pointer. *)
Definition kmreq_step (have_out : bool) (x : CUDT.t K * list Z) : CUDT.t K * list Z + option (CUDT.t K * bool * bool * list Z) :=
  let '(s, l) := x in
  let enforced := bEnforcedEnc (m_config s) in
  match FindExtensionBlock l with
  | None => inr (Some (reject SRT_REJ_ROGUE s, false, false, []))
  | Some (cmd, contents, next) =>
      let bytelen := 4 * zlen contents in
      if cmd =? SRT_CMD_KMREQ then
        if negb have_out then inr (Some (reject SRT_REJ_IPE s, false, false, []))
        else
          match m_pCryptoControl s with
          | None => inr None
          | Some k =>
              let '(k, res, out) := processSrtMsg_KMREQ contents bytelen HS_VERSION_SRT1 (m_uPeerSrtVersion s) k in
              let s := set_m_pCryptoControl (Some k) s in
              if negb (res =? SRT_CMD_KMRSP) then inr (Some (reject SRT_REJ_IPE s, false, false, out))
              else if (zlen out =? 1) && enforced then
                inr (Some (reject (if m_RcvKmState k =? SRT_KM_S_BADSECRET then SRT_REJ_BADSECRET else SRT_REJ_UNSECURE) s, false, false, out))
              else inr (Some (s, true, true, out))
          end
      else if cmd =? SRT_CMD_KMRSP then
        match m_pCryptoControl s with
        | None => inr None
        | Some k =>
            let '(k, res) := processSrtMsg_KMRSP contents bytelen (m_uPeerSrtVersion s) k in
            let s := set_m_pCryptoControl (Some k) s in
            if enforced && (res =? -1) then
              inr (Some (reject (if m_SndKmState k =? SRT_KM_S_BADSECRET then SRT_REJ_BADSECRET else SRT_REJ_UNSECURE) s, false, false, []))
            else inr (Some (s, true, true, []))
        end
      else match next with Some l' => inl (s, l') | None => inr (Some (s, true, false, [])) end
  end.

Definition set_sStreamName_bytes (target : list Z) s : CUDT.t K :=
  on_config (fun c => set_sStreamName (storage_set MAX_SID_LENGTH target (sStreamName c)) c) s.

Section Config.
Variable find_filter : list Z -> option Factory.

(** The loop over the configuration blocks: the state, the flags
    [have_congctl] and [have_filter], the words that are left. *)
Definition config_step (agsm : list Z) (x : CUDT.t K * bool * bool * list Z) :
    CUDT.t K * bool * bool * list Z + CUDT.t K * bool * bool * bool :=
  let '(s, have_congctl, have_filter, l) := x in
  match FindExtensionBlock l with
  | None => inr (s, true, have_congctl, have_filter)
  | Some (cmd, contents, next) =>
      let bytelen := 4 * zlen contents in
      let continue s have_congctl have_filter :=
        match next with Some l' => inl (s, have_congctl, have_filter, l') | None => inr (s, true, have_congctl, have_filter) end in
      let fail s := inr (s, false, have_congctl, have_filter) in
      if cmd =? SRT_CMD_SID then
        if (bytelen =? 0) || (MAX_SID_LENGTH <? bytelen) then fail s
        else continue (set_sStreamName_bytes (sid_of_words contents) s) have_congctl have_filter
      else if cmd =? SRT_CMD_CONGESTION then
        if have_congctl then fail (reject SRT_REJ_ROGUE s)
        else if (bytelen =? 0) || (MAX_CONG_LENGTH <? bytelen) then fail s
        else
          let sm := c_str (bytes_of_words contents) in
          if negb (bool_decide (sm = agsm)) then inr (reject SRT_REJ_CONGESTION s, false, true, have_filter)
          else continue s true have_filter
      else if cmd =? SRT_CMD_FILTER then
        if have_filter then fail (reject SRT_REJ_FILTER s)
        else if (bytelen =? 0) || (MAX_PFILTER_LENGTH <? bytelen) then fail s
        else
          let fltcfg := c_str (bytes_of_words contents) in
          let c := m_config s in
          match checkApplyFilterConfig find_filter (bRendezvous c) (m_SrtHsSide s) (sPacketFilterConfig c) (zExpPayloadSize c) fltcfg with
          | None => inr (reject SRT_REJ_FILTER s, false, have_congctl, true)
          | Some (conf, z) => continue (on_config (fun c => set_zExpPayloadSize z (set_sPacketFilterConfig conf c)) s) have_congctl true
          end
      else continue s have_congctl have_filter
  end.

(** The checks that come after the blocks. *)
Definition post_checks (agsm : list Z) (encrypted have_congctl have_filter : bool) (out : list Z) s : option (CUDT.t K * bool * list Z) :=
  let c := m_config s in
  if negb encrypted && (0 <? CryptoSecret_len c) then
    if bEnforcedEnc c then Some (reject SRT_REJ_UNSECURE s, false, out)
    else
      k ← m_pCryptoControl s;
      Some (set_m_pCryptoControl (Some (set_KmState SRT_KM_S_NOSECRET SRT_KM_S_UNSECURED (createFakeSndContext k))) s, true, out)
  else if negb (bool_decide (agsm = live)) && negb have_congctl then Some (reject SRT_REJ_CONGESTION s, false, out)
  else if bool_decide (sPacketFilterConfig c <> []) && negb have_filter then
    if bool_decide (m_SrtHsSide s = HSD_INITIATOR) then Some (reject SRT_REJ_FILTER s, false, out)
    else Some (on_config (set_sPacketFilterConfig []) s, true, out)
  else Some (s, true, out).

(** The state, the result and the key material for the response; [have_out]
    says whether the caller passed a buffer for it. *)
Definition interpretSrtHandshake (hs : CHandShake.t) (hspkt : HsPacket) (have_out : bool) (now : Z) s : option (CUDT.t K * bool * list Z) :=
  if (HS_VERSION_UDT4 <? m_iVersion (m_ConnRes s)) && (m_iVersion hs =? 0) then Some (reject SRT_REJ_PEER s, false, [])
  else if m_iVersion hs <? HS_VERSION_SRT1 then
    let minv := uMinimumPeerSrtVersion (m_config s) in
    if negb (minv =? 0) && (SRT_VERSION_FEAT_HSv5 <=? minv) then Some (reject SRT_REJ_VERSION s, false, []) else Some (s, true, [])
  else if getLength hspkt <=? m_iContentSize then Some (reject SRT_REJ_ROGUE s, false, [])
  else
    let ext_flags := SrtHSRequest.HSFLAGS (m_iType hs) in
    if ext_flags =? 0 then Some (reject SRT_REJ_ROGUE s, false, [])
    else
      let p := drop content_words (pkt_words hspkt) in
      let fuel := S (length p) in
      '(s, ok) ← (if IsSet ext_flags HS_EXT_HSREQ then loop fuel (hsreq_step (pkt_timestamp hspkt) now) (s, p) else Some (s, true));
      if negb ok then Some (s, false, [])
      else
        '(s, ok, encrypted, out) ←
          (if IsSet ext_flags HS_EXT_KMREQ then
             k ← m_pCryptoControl s;
             if negb (hasPassphrase k) && bEnforcedEnc (m_config s) then Some (reject SRT_REJ_UNSECURE s, false, false, [])
             else mjoin (loop fuel (kmreq_step have_out) (s, p))
           else Some (s, true, false, []));
        if negb ok then Some (s, false, out)
        else
          let agsm := if decide (sCongestion (m_config s) = []) then live else sCongestion (m_config s) in
          let s := if decide (sCongestion (m_config s) = []) then on_config (set_sCongestion live) s else s in
          '(s, ok, have_congctl, have_filter) ←
            (if IsSet ext_flags HS_EXT_CONFIG then loop fuel (config_step agsm) (s, false, false, p) else Some (s, true, false, false));
          if negb ok then Some (s, false, out) else post_checks agsm encrypted have_congctl have_filter out s.
End Config.
End Ops.
