(* ===== verification/HsExtInv.v ===== *)
(** The handshake extensions: what is written is what is read.  Blocks are
    found again, a plain request and its response are accepted, and the two
    sides come to agree on the latencies. *)
From S2P Require Import Prelude Packet Handshake FilterConfig HsExt.
Import CHandShake CUDT.

(** ** Bit ranges of a word *)

Lemma halves hi lo :
  Bits.unwrap 31 16 (Z.lor (Bits.wrap 31 16 hi) (Bits.wrap 15 0 lo)) = hi mod 2 ^ 16 /\
  Bits.unwrap 15 0 (Z.lor (Bits.wrap 31 16 hi) (Bits.wrap 15 0 lo)) = lo mod 2 ^ 16.
Proof.
  split; apply Z.bits_inj'; intros i Hi; rewrite unwrap_testbit, Z.lor_spec, !wrap_testbit by lia.
  - destruct (Z.lt_ge_cases i 16); [rewrite Z.mod_pow2_bits_low by lia|rewrite Z.mod_pow2_bits_high by lia].
    + replace (i + Z.of_nat 16 - Z.of_nat 16) with i by lia.
      assert (((Z.of_nat 16 <=? i + Z.of_nat 16) && (i + Z.of_nat 16 <=? Z.of_nat 31)) = true) as -> by bdestr.
      assert (((Z.of_nat 0 <=? i + Z.of_nat 16) && (i + Z.of_nat 16 <=? Z.of_nat 15)) = false) as -> by bdestr.
      assert ((i <=? Z.of_nat 31 - Z.of_nat 16) = true) as -> by bdestr. by rewrite andb_false_r, orb_false_r, !andb_true_r.
    + assert ((i <=? Z.of_nat 31 - Z.of_nat 16) = false) as -> by bdestr. apply andb_false_r.
  - destruct (Z.lt_ge_cases i 16); [rewrite Z.mod_pow2_bits_low by lia|rewrite Z.mod_pow2_bits_high by lia].
    + replace (i + Z.of_nat 0 - Z.of_nat 0) with i by lia.
      assert (((Z.of_nat 16 <=? i + Z.of_nat 0) && (i + Z.of_nat 0 <=? Z.of_nat 31)) = false) as -> by bdestr.
      assert (((Z.of_nat 0 <=? i + Z.of_nat 0) && (i + Z.of_nat 0 <=? Z.of_nat 15)) = true) as -> by bdestr.
      assert ((i <=? Z.of_nat 15 - Z.of_nat 0) = true) as -> by bdestr. by rewrite andb_false_r, !andb_true_r.
    + assert ((i <=? Z.of_nat 15 - Z.of_nat 0) = false) as -> by bdestr. apply andb_false_r.
Qed.

Lemma half_only hi : Bits.unwrap 31 16 (Bits.wrap 31 16 hi) = hi mod 2 ^ 16 /\ Bits.unwrap 15 0 (Bits.wrap 31 16 hi) = 0.
Proof. pose proof (halves hi 0) as E. by rewrite (eq_refl : Bits.wrap 15 0 0 = 0), Z.lor_0_r in E. Qed.

Lemma u32_mod16 x : u32 x mod 2 ^ 16 = x mod 2 ^ 16.
Proof. unfold u32. apply Z.mod_mod_divide. exists (2 ^ 16). lia. Qed.

(** ** Blocks *)

Definition block_ok (b : Z * list Z) : Prop := 0 <= b.1 < 2 ^ 16 /\ zlen b.2 < 2 ^ 16.
Definition blocks (l : list (Z * list Z)) : list Z := concat (map (fun b => block b.1 b.2) l).

Lemma find_block cmd c rest : block_ok (cmd, c) ->
  FindExtensionBlock (block cmd c ++ rest) = Some (cmd, c, match rest with [] => None | _ => Some rest end).
Proof.
  intros [Hc Hl]. cbn in Hc, Hl. unfold FindExtensionBlock, block. cbn [app].
  destruct (halves (u32 cmd) (u32 (zlen c))) as [E1 E2]. unfold cmdspec. rewrite E1, E2, !u32_mod16, !(Z.mod_small _ (2 ^ 16)) by lia.
  cbn [length]. rewrite length_app, Nat2Z.id.
  destruct (Z.ltb_spec (Z.of_nat (S (length c + length rest))) (zlen c + 1)); [lia|].
  rewrite take_app_length, drop_app_length. do 2 f_equal. destruct rest as [|w rest].
  - rewrite (proj2 (Z.eqb_eq _ _)); [done|cbn; lia].
  - rewrite (proj2 (Z.eqb_neq _ _)); [done|cbn; lia].
Qed.

(** What is found is shorter than what was searched. *)
Lemma find_shorter l cmd c l' : FindExtensionBlock l = Some (cmd, c, Some l') -> (length l' < length l)%nat /\ l' <> [].
Proof.
  destruct l as [|w rest]; [done|]. unfold FindExtensionBlock.
  assert (Hb : 0 <= Bits.unwrap 15 0 w) by (unfold Bits.unwrap; apply Z.shiftr_nonneg, Z.land_nonneg; right; vm_compute; done).
  destruct (Z.ltb_spec (zlen (w :: rest)) (Bits.unwrap 15 0 w + 1)); [done|]. destruct (Z.eqb_spec (zlen (w :: rest)) (Bits.unwrap 15 0 w + 1)); [done|].
  intros [= _ _ <-]. cbn [length] in *. rewrite length_drop. split; [lia|]. intros E. apply (f_equal length) in E. rewrite length_drop in E. cbn in E. lia.
Qed.

(** Every search over the blocks ends: a step that goes on leaves fewer words. *)
Lemma search_ends {S R} (step : S -> S + R) (left_of : S -> list Z) s fuel :
  (forall s s', step s = inl s' -> (length (left_of s') < length (left_of s))%nat) -> (length (left_of s) < fuel)%nat -> is_Some (loop fuel step s).
Proof.
  intros Hstep Hf. destruct (loop_total step (fun _ => True) (fun _ => True) (fun s => length (left_of s))) with (fuel := fuel) (s := s) as (res & -> & _); [|done..|eauto].
  intros s1 _. destruct (step s1) eqn:E; [split; [done|by apply Hstep]|done].
Qed.

Lemma extract_blocks bs out fuel : Forall block_ok bs -> (length (blocks bs) < fuel)%nat -> loop fuel extract_step (out, blocks bs) = Some (out ++ bs).
Proof.
  intros Hbs. revert out fuel. induction Hbs as [|[cmd c] bs Hb Hbs IH]; intros out [|fuel] Hf; try lia.
  - cbn. by rewrite app_nil_r.
  - cbn [loop]. unfold extract_step at 1. change (blocks ((cmd, c) :: bs)) with (block cmd c ++ blocks bs) in *. rewrite find_block by done.
    destruct bs as [|[cmd2 c2] bs]; [done|]. assert (E : exists w bl, blocks ((cmd2, c2) :: bs) = w :: bl) by (eexists _, _; done).
    destruct E as (w & bl & E). rewrite E, <- E, IH; [by rewrite <- app_assoc|]. unfold block in Hf. cbn [app length] in Hf. rewrite length_app in Hf. lia.
Qed.

(** ** Strings *)

Definition byte_ok (b : Z) : Prop := 0 <= b < 256.

Lemma bytes_word a b c d : byte_ok a -> byte_ok b -> byte_ok c -> byte_ok d -> bytes_of_word (a + 2 ^ 8 * b + 2 ^ 16 * c + 2 ^ 24 * d) = [a; b; c; d].
Proof.
  unfold byte_ok. intros. unfold bytes_of_word. assert (E : forall x q r, 0 <= r < 256 -> x = 256 * q + r -> x mod 256 = r).
  { intros x q r Hr ->. symmetry. by apply (Z.mod_unique _ _ q); [left|]. }
  assert (D : forall x n q r, 0 < n -> 0 <= r < n -> x = n * q + r -> x / n = q) by (intros x n q r Hn Hr ->; symmetry; by apply (Z.div_unique _ _ _ r); [left|]).
  rewrite (D _ (2 ^ 8) (b + 2 ^ 8 * c + 2 ^ 16 * d) a), (D _ (2 ^ 16) (c + 2 ^ 8 * d) (a + 2 ^ 8 * b)), (D _ (2 ^ 24) d (a + 2 ^ 8 * b + 2 ^ 16 * c)) by lia.
  rewrite (E _ (b + 2 ^ 8 * c + 2 ^ 16 * d) a), (E _ (c + 2 ^ 8 * d) b), (E _ d c), (Z.mod_small d) by lia. done.
Qed.

Definition padding (s : list Z) : nat := (3 - (length s + 3) mod 4)%nat.

Lemma bytes_words s : Forall byte_ok s -> bytes_of_words (words_of_bytes s) = s ++ replicate (padding s) 0.
Proof.
  assert (H0 : byte_ok 0) by (unfold byte_ok; lia).
  assert (Hind : forall n s, (length s <= n)%nat -> Forall byte_ok s -> bytes_of_words (words_of_bytes s) = s ++ replicate (padding s) 0); [|by apply (Hind (length s))].
  clear s. induction n as [|n IH]; intros s Hl Hs; [by destruct s; [|cbn in Hl; lia]|].
  destruct s as [|a [|b [|c [|d s]]]].
  - done.
  - apply list.Forall_cons in Hs as [Ha _]. cbn -[bytes_of_word Z.add Z.mul Z.pow]. replace a with (a + 2 ^ 8 * 0 + 2 ^ 16 * 0 + 2 ^ 24 * 0) at 1 by lia. by rewrite bytes_word.
  - apply list.Forall_cons in Hs as [Ha Hs]. apply list.Forall_cons in Hs as [Hb _]. cbn -[bytes_of_word Z.add Z.mul Z.pow].
    replace (a + 2 ^ 8 * b) with (a + 2 ^ 8 * b + 2 ^ 16 * 0 + 2 ^ 24 * 0) by lia. by rewrite bytes_word.
  - apply list.Forall_cons in Hs as [Ha Hs]. apply list.Forall_cons in Hs as [Hb Hs]. apply list.Forall_cons in Hs as [Hc _]. cbn -[bytes_of_word Z.add Z.mul Z.pow].
    replace (a + 2 ^ 8 * b + 2 ^ 16 * c) with (a + 2 ^ 8 * b + 2 ^ 16 * c + 2 ^ 24 * 0) by lia. by rewrite bytes_word.
  - apply list.Forall_cons in Hs as [Ha Hs]. apply list.Forall_cons in Hs as [Hb Hs]. apply list.Forall_cons in Hs as [Hc Hs]. apply list.Forall_cons in Hs as [Hd Hs].
    change (words_of_bytes (a :: b :: c :: d :: s)) with ((a + 2 ^ 8 * b + 2 ^ 16 * c + 2 ^ 24 * d) :: words_of_bytes s).
    unfold bytes_of_words in *. cbn [map concat]. rewrite bytes_word, IH by (done || (cbn in Hl; lia)). cbn [app]. do 5 f_equal. f_equal.
    unfold padding. cbn [length]. replace (S (S (S (S (length s)))) + 3)%nat with (length s + 3 + 1 * 4)%nat by lia. by rewrite Nat.Div0.mod_add.
Qed.

(** The length that the receiver gives to a string without NUL characters. *)
Lemma sid_length_pad s n k : (0 < n)%nat -> (n < length s)%nat -> Forall (fun b => b <> 0) s -> sid_length (s ++ replicate k 0) (n + k) (zlen (s ++ replicate k 0)) = Z.of_nat n + 1 \/ (S n < length s)%nat.
Proof.
  intros Hn Hl Hs. destruct (decide (S n < length s)%nat); [by right|left]. assert (length s = S n) as El by lia.
  assert (Hgen : forall j total, (j <= k)%nat -> sid_length (s ++ replicate k 0) (n + j) total = Z.of_nat n + 1); [|by apply Hgen].
  assert (Hg : forall i, (i < S n + k)%nat -> (s ++ replicate k 0).[Z.of_nat i] = if decide (i < S n)%nat then s !!! i else 0).
  { intros i Hi. unfold aget. rewrite (proj2 (Z.ltb_ge _ _)), Nat2Z.id by lia. case_decide; [apply lookup_total_app_l; lia|].
    rewrite lookup_total_app_r by lia. apply lookup_total_replicate_2. lia. }
  induction j as [|j IH]; intros total Hj.
  - rewrite Nat.add_0_r. destruct n as [|n']; [lia|]. cbn [sid_length]. rewrite Hg by lia. rewrite decide_True by lia.
    destruct (Z.eqb_spec (s !!! S n') 0) as [E|]; [|cbn; lia]. exfalso. eapply (Forall_lookup_total_1 _ _ (S n') Hs); [lia|done].
  - replace (n + S j)%nat with (S (n + j)) by lia. cbn [sid_length]. rewrite Hg by lia. rewrite decide_False by lia. cbn [Z.eqb negb]. apply IH. lia.
Qed.

Lemma length_words_of_bytes s : (4 * length (words_of_bytes s) = length s + padding s)%nat.
Proof.
  assert (Hind : forall n s, (length s <= n)%nat -> (4 * length (words_of_bytes s) = length s + padding s)%nat); [|by apply (Hind (length s))].
  clear s. induction n as [|n IH]; intros s Hl; [by destruct s; [|cbn in Hl; lia]|]. destruct s as [|a [|b [|c [|d s]]]]; [done..|].
  cbn [words_of_bytes length] in *. specialize (IH s ltac:(lia)). unfold padding in *. cbn [length].
  replace (S (S (S (S (length s)))) + 3)%nat with (length s + 3 + 1 * 4)%nat by lia. rewrite Nat.Div0.mod_add. lia.
Qed.

(** What becomes of a stream ID on its way: one of a single character arrives
    with three NUL characters behind it. *)
Lemma sid_arrives s : Forall byte_ok s -> Forall (fun b => b <> 0) s -> s <> [] ->
  sid_of_words (words_of_bytes s) = if decide (length s = 1%nat) then s ++ [0; 0; 0] else s.
Proof.
  intros Hb Hz Hne. unfold sid_of_words. rewrite bytes_words by done. pose proof (length_words_of_bytes s) as Hl.
  set (k := padding s) in *. replace (4 * zlen (words_of_bytes s)) with (Z.of_nat (length s + k)) by lia.
  destruct s as [|a [|b s]]; [done| |].
  - change k with 3%nat. done.
  - rewrite decide_False by done. set (str := a :: b :: s) in *. assert (Hn : (1 < length str)%nat) by (cbn; lia).
    replace (Z.to_nat (Z.of_nat (length str + k) - 1)) with (length str - 1 + k)%nat by lia.
    replace (Z.of_nat (length str + k)) with (zlen (str ++ replicate k 0)) by (rewrite length_app, length_replicate; lia).
    destruct (sid_length_pad str (length str - 1) k) as [->|]; [lia..|done| |lia].
    replace (Z.to_nat (Z.of_nat (length str - 1) + 1)) with (length str) by lia. apply take_app_length.
Qed.

(** ** A plain request and its response *)

(** No encryption, no packet filter, the default congestion control. *)
Record plain_config (c : CSrtConfig) : Prop := {
  pc_secret : CryptoSecret_len c = 0;
  pc_keylen : iSndCryptoKeyLen c = 0;
  pc_filter : sPacketFilterConfig c = [];
  pc_congestion : sCongestion c = [] \/ sCongestion c = live;
  pc_version : SRT_VERSION_FEAT_HSv5 <= uSrtVersion c;
  pc_rcv : 0 <= iRcvLatency c;
  pc_peer : 0 <= iPeerLatency c;
  pc_sid : zlen (sStreamName c) <= MAX_SID_LENGTH;
}.

(** What the two sides must have in common. *)
Record compatible (a b : CSrtConfig) : Prop := {
  co_api : bMessageAPI a = bMessageAPI b;
  co_min : uMinimumPeerSrtVersion b <= uSrtVersion a;
  co_min' : uMinimumPeerSrtVersion a <= uSrtVersion b;
}.

Definition sid_block (sid : list Z) : list (Z * list Z) := if decide (sid = []) then [] else [(SRT_CMD_SID, words_of_bytes sid)].
Definition ext_type (sid : list Z) : Z := if decide (sid = []) then HS_EXT_HSREQ else Z.lor HS_EXT_HSREQ HS_EXT_CONFIG.

Lemma live_not_default c : sCongestion c = [] \/ sCongestion c = live -> negb (bool_decide (sCongestion c = [])) && negb (bool_decide (sCongestion c = live)) = false.
Proof. by intros [->| ->]. Qed.

Section Exchange.
Context {K : Type} `{CryptoControl K}.
Implicit Types s : CUDT.t K.

Definition req_fill s : CUDT.t K * list Z := fillSrtHandshake_HSREQ (uSrtVersion (m_config s)) SrtVersionCapabilities 0 HS_VERSION_SRT1 s.
Definition rsp_fill s : CUDT.t K * list Z := fillSrtHandshake_HSRSP (uSrtVersion (m_config s)) SrtVersionCapabilities 0 HS_VERSION_SRT1 s.

Lemma req_fill_length s : length (req_fill s).2 = 3%nat.
Proof. unfold req_fill, fillSrtHandshake_HSREQ. by destruct (bTSBPD (m_config s)). Qed.

Lemma rsp_fill_length s : m_tsRcvPeerStartTime s <> 0 -> length (rsp_fill s).2 = 3%nat.
Proof.
  intros Hne. unfold rsp_fill, fillSrtHandshake_HSRSP. rewrite (proj2 (Z.eqb_neq _ _)) by done. by destruct (bTSBPD (m_config s)), (m_bPeerTsbPd s && _).
Qed.

Lemma req_fill_state s : (req_fill s).1 =
  if bTSBPD (m_config s) then set_m_iPeerTsbPdDelay_ms (iPeerLatency (m_config s)) (set_m_iTsbPdDelay_ms (iRcvLatency (m_config s)) s) else s.
Proof. unfold req_fill, fillSrtHandshake_HSREQ. by destruct (bTSBPD (m_config s)). Qed.

Lemma rsp_fill_state s : (rsp_fill s).1 = s.
Proof. unfold rsp_fill, fillSrtHandshake_HSRSP. destruct (m_tsRcvPeerStartTime s =? 0); [done|]. by destruct (bTSBPD (m_config s)), (m_bPeerTsbPd s). Qed.

Lemma req_fill_eq len s : 3 <= len -> fillSrtHandshake len SRT_CMD_HSREQ HS_VERSION_SRT1 s = req_fill s.
Proof. intros Hl. unfold fillSrtHandshake. by rewrite (proj2 (Z.ltb_ge _ _)). Qed.

Lemma rsp_fill_eq len s : 3 <= len -> fillSrtHandshake len SRT_CMD_HSRSP HS_VERSION_SRT1 s = rsp_fill s.
Proof. intros Hl. unfold fillSrtHandshake. by rewrite (proj2 (Z.ltb_ge _ _)). Qed.

(** The request that the initiator writes. *)
Lemma create_req s hs w_len : plain_config (m_config s) -> m_SrtHsSide s <> HSD_RESPONDER -> m_iVersion (m_ConnRes s) <> HS_VERSION_UDT4 ->
  m_iVersion hs = HS_VERSION_SRT1 -> m_extension hs = true -> length (m_piPeerIP hs) = 4%nat ->
  zlen (sStreamName (m_config s)) < m_iMaxSRTPayloadSize s / 2 -> 600 <= w_len ->
  let hs' := set_m_iType (ext_type (sStreamName (m_config s))) hs in
  createSrtHandshake SRT_CMD_HSREQ SRT_CMD_KMREQ [] w_len hs s =
    Some ((req_fill s).1, hs', Some (words hs' ++ blocks ((SRT_CMD_HSREQ, (req_fill s).2) :: sid_block (sStreamName (m_config s))))).
Proof.
  intros [Hsec Hkl Hf Hcc _ _ _ Hsid] Hside Hv4 Hv5 Hext Hip Hfits Hlen hs'. unfold createSrtHandshake.
  rewrite (proj2 (Z.eqb_neq _ _)) by done. destruct hs as [v ty isn mss fl rq id ck ip e]. cbn in Hv5, Hext, Hip. subst v e.
  cbn -[fillSrtHandshake words Z.div Z.mul]. rewrite Hkl, Hsec, Hf, live_not_default by done.
  rewrite (bool_decide_false (m_SrtHsSide s = HSD_RESPONDER)) by done. rewrite (proj2 (Z.ltb_ge _ _)) by (unfold m_iContentSize; lia).
  cbn -[fillSrtHandshake words Z.div Z.mul]. rewrite andb_false_r. change (SrtHSRequest.wrapFlags false 0) with 0. change (0 <? Z.of_nat 0) with false.
  cbn -[fillSrtHandshake words Z.div Z.mul]. rewrite req_fill_eq by (Z.to_euclidean_division_equations; lia).
  pose proof (req_fill_length s) as Hl3. pose proof (req_fill_state s) as Hst. destruct (req_fill s) as [s1 ws]. cbn [fst snd] in *. subst s1.
  set (s1 := if bTSBPD _ then _ else _). assert (Hpay : m_iMaxSRTPayloadSize s1 = m_iMaxSRTPayloadSize s) by (unfold s1; by destruct (bTSBPD _)).
  rewrite Hpay, (proj2 (Z.leb_gt _ _)) by done. rewrite andb_false_r.
  unfold hs', ext_type, sid_block. pose proof (length_words_of_bytes (sStreamName (m_config s))) as Hlw.
  assert (Hpad : (padding (sStreamName (m_config s)) <= 3)%nat) by (unfold padding; lia).
  unfold MAX_SID_LENGTH in Hsid.
  destruct (decide (sStreamName (m_config s) = [])) as [Es|Es].
  - rewrite (bool_decide_false (_ <> [])) by (intros Hn; done). cbn -[words Z.mul]. rewrite (proj2 (Z.leb_le _ _)).
    + rewrite (proj2 (Z.eqb_neq (zlen ws) 0)) by lia. unfold blocks. cbn [map concat fst snd app]. rewrite app_nil_r. reflexivity.
    + rewrite !length_app, length_words by done. unfold block. cbn [length]. rewrite Hl3. unfold content_words. lia.
  - rewrite (bool_decide_true (_ <> [])) by done. cbn -[words Z.mul]. rewrite (proj2 (Z.leb_le _ _)).
    + rewrite (proj2 (Z.eqb_neq _ _)); [|destruct (sStreamName (m_config s)) as [|? [|? [|? [|? ?]]]]; done || (cbn; lia)]. rewrite <- app_assoc. cbn -[words]. rewrite app_nil_r. done.
    + rewrite !length_app, length_words by done. unfold block. cbn [length]. rewrite Hl3. unfold content_words. lia.
Qed.

(** The responder's answer. *)
Lemma create_rsp s hs w_len : plain_config (m_config s) -> m_iVersion (m_ConnRes s) <> HS_VERSION_UDT4 -> m_tsRcvPeerStartTime s <> 0 ->
  m_iVersion hs = HS_VERSION_SRT1 -> m_extension hs = true -> length (m_piPeerIP hs) = 4%nat -> 600 <= w_len ->
  let hs' := set_m_iType HS_EXT_HSREQ hs in
  createSrtHandshake SRT_CMD_HSRSP SRT_CMD_KMRSP [] w_len hs s = Some (s, hs', Some (words hs' ++ blocks [(SRT_CMD_HSRSP, (rsp_fill s).2)])).
Proof.
  intros [Hsec Hkl Hf Hcc _ _ _ Hsid] Hv4 Hts Hv5 Hext Hip Hlen hs'. unfold createSrtHandshake.
  rewrite (proj2 (Z.eqb_neq (m_iVersion (m_ConnRes s)) _)), (proj2 (Z.eqb_neq (m_tsRcvPeerStartTime s) _)) by done.
  destruct hs as [v ty isn mss fl rq id ck ip e]. cbn in Hv5, Hext, Hip. subst v e.
  cbn -[fillSrtHandshake words Z.div Z.mul]. rewrite Hkl, Hsec, Hf, live_not_default by done. rewrite (proj2 (Z.ltb_ge _ _)) by (unfold m_iContentSize; lia).
  cbn -[fillSrtHandshake words Z.div Z.mul]. rewrite ?andb_false_r. change (SrtHSRequest.wrapFlags false 0) with 0. change (0 <? Z.of_nat 0) with false.
  cbn -[fillSrtHandshake words Z.div Z.mul]. rewrite ?andb_false_r, rsp_fill_eq by (Z.to_euclidean_division_equations; lia).
  pose proof (rsp_fill_length s Hts) as Hl3. pose proof (rsp_fill_state s) as Hst. destruct (rsp_fill s) as [s1 ws]. cbn [fst snd] in *. subst s1.
  cbn -[words Z.mul]. rewrite (proj2 (Z.leb_le _ _)).
  - rewrite (proj2 (Z.eqb_neq (zlen ws) 0)) by lia. unfold blocks. cbn [map concat fst snd app]. rewrite app_nil_r. reflexivity.
  - rewrite !length_app, length_words by done. unfold block. cbn [length]. rewrite Hl3. unfold content_words. lia.
Qed.

(** A packet without extensions. *)
Lemma create_bare cmd kcmd s hs w_len : iSndCryptoKeyLen (m_config s) = 0 -> m_iVersion (m_ConnRes s) <> HS_VERSION_UDT4 ->
  m_iVersion hs = HS_VERSION_SRT1 -> m_extension hs = false -> 600 <= w_len ->
  createSrtHandshake cmd kcmd [] w_len hs s = Some (s, set_m_iType 0 hs, Some (words (set_m_iType 0 hs))).
Proof.
  intros Hkl Hv4 Hv5 Hext Hlen. unfold createSrtHandshake. rewrite (proj2 (Z.eqb_neq (m_iVersion (m_ConnRes s)) _)) by done.
  destruct hs as [v ty isn mss fl rq id ck ip e]. cbn in Hv5, Hext. subst v e. cbn -[fillSrtHandshake words Z.div Z.mul].
  rewrite Hkl, (proj2 (Z.ltb_ge _ _)) by (unfold m_iContentSize; lia). change (SrtHSRequest.wrapFlags false 0) with 0.
  destruct ((rq =? URQ_CONCLUSION) && (cmd =? SRT_CMD_HSRSP) && (m_tsRcvPeerStartTime s =? 0)); done.
Qed.

(** What the configuration is after a packet with the given stream ID block. *)
Definition config_after (sid : list Z) (c : CSrtConfig) : CSrtConfig :=
  let c := if decide (sCongestion c = []) then set_sCongestion live c else c in
  if decide (sid = []) then c else set_sStreamName (storage_set MAX_SID_LENGTH (sid_of_words (words_of_bytes sid)) (sStreamName c)) c.

Lemma words_of_bytes_ok (l : list Z) : l <> [] -> zlen l <= MAX_SID_LENGTH -> words_of_bytes l <> [] /\ 0 < 4 * zlen (words_of_bytes l) <= MAX_SID_LENGTH.
Proof.
  intros Hne Hl. pose proof (length_words_of_bytes l) as El. unfold padding in El. pose proof (Nat.mod_upper_bound (length l + 3) 4 ltac:(lia)) as Hm.
  assert (words_of_bytes l <> []) by (by destruct l as [|? [|? [|? [|? ?]]]]). split; [done|]. unfold MAX_SID_LENGTH in *.
  destruct (words_of_bytes l) eqn:E; [done|]. rewrite <- E in *. pose proof (Nat.div_mod (length l + 3) 4 ltac:(lia)). split; [rewrite E; cbn; lia|].
  assert (4 * length (words_of_bytes l) = 4 * ((length l + 3) / 4))%nat by lia.
  assert ((length l + 3) / 4 <= 128)%nat by (apply Nat.lt_succ_r, Nat.Div0.div_lt_upper_bound; lia). lia.
Qed.

(** A packet with a request or a response and, it may be, a stream ID, is
    accepted when the block is: [s1] is the state after it. *)
Lemma interpret_plain (find_filter : list Z -> option Factory) cmd ws sid s s1 hs pkt have_out now :
  (cmd = SRT_CMD_HSREQ /\ processSrtMsg_HSREQ ws 12 (pkt_timestamp pkt) HS_VERSION_SRT1 now s = (s1, SRT_CMD_HSRSP) \/
   cmd = SRT_CMD_HSRSP /\ processSrtMsg_HSRSP ws 12 (pkt_timestamp pkt) HS_VERSION_SRT1 now s = (s1, SRT_CMD_NONE)) ->
  plain_config (m_config s1) -> m_iVersion hs = HS_VERSION_SRT1 -> m_iType hs = ext_type sid -> length ws = 3%nat ->
  zlen sid <= MAX_SID_LENGTH -> (exists hw, length hw = content_words /\ pkt_words pkt = hw ++ blocks ((cmd, ws) :: sid_block sid)) -> 0 <= pkt_tail pkt ->
  interpretSrtHandshake find_filter hs pkt have_out now s = Some (on_config (config_after sid) (handshakeDone s1), true, []).
Proof.
  intros Hproc [Hsec Hkl Hf Hcc _ _ _ _] Hv Hty Hws Hsid (hw & Hhw & Hpkt) Htl. unfold interpretSrtHandshake. rewrite Hv, Hty.
  change (HS_VERSION_SRT1 =? 0) with false. change (HS_VERSION_SRT1 <? HS_VERSION_SRT1) with false. rewrite andb_false_r.
  unfold getLength. rewrite Hpkt, <- Hhw, drop_app_length. rewrite (proj2 (Z.leb_gt _ _)).
  2:{ rewrite length_app, Hhw. unfold blocks, content_words, m_iContentSize. cbn [map concat]. rewrite length_app. cbn [length block fst snd]. lia. }
  set (p := blocks _). assert (Hp : p = block cmd ws ++ blocks (sid_block sid)) by done.
  assert (Hfind : FindExtensionBlock p = Some (cmd, ws, match blocks (sid_block sid) with [] => None | _ => Some (blocks (sid_block sid)) end)).
  { rewrite Hp. rewrite find_block; [by destruct (blocks (sid_block sid))|]. split; [destruct Hproc as [[-> _]|[-> _]]; done|cbn; lia]. }
  assert (Hhs : loop (S (length p)) (hsreq_step (pkt_timestamp pkt) now) (s, p) = Some (handshakeDone s1, true)).
  { cbn [loop]. unfold hsreq_step. rewrite Hfind, Hws. destruct Hproc as [[-> E]|[-> E]].
    - cbn -[processSrtMsg_HSREQ]. change (4 * Z.of_nat 3) with 12. by rewrite E.
    - cbn -[processSrtMsg_HSRSP]. change (4 * Z.of_nat 3) with 12. by rewrite E. }
  set (agsm := if decide (sCongestion (m_config s1) = []) then live else sCongestion (m_config s1)).
  set (s2 := if decide (sCongestion (m_config s1) = []) then on_config (set_sCongestion live) (handshakeDone s1) else handshakeDone s1).
  assert (Hag : agsm = live) by (unfold agsm; destruct Hcc as [-> | ->]; done).
  assert (Hc2 : m_config s2 = if decide (sCongestion (m_config s1) = []) then set_sCongestion live (m_config s1) else m_config s1) by (unfold s2; by case_decide).
  assert (Hpost : forall s3 c f, CryptoSecret_len (m_config s3) = 0 -> sPacketFilterConfig (m_config s3) = [] -> post_checks live false c f [] s3 = Some (s3, true, [])).
  { intros s3 cc f E1 E2. unfold post_checks. rewrite E1, E2. cbn. done. }
  unfold config_after, ext_type. destruct (decide (sid = [])) as [->|Hne].
  - change (SrtHSRequest.HSFLAGS HS_EXT_HSREQ) with 1. change (1 =? 0) with false. change (IsSet 1 HS_EXT_HSREQ) with true.
    change (IsSet 1 HS_EXT_KMREQ) with false. change (IsSet 1 HS_EXT_CONFIG) with false. rewrite Hhs. cbn [mbind option_bind negb].
    change (m_config (handshakeDone s1)) with (m_config s1). fold agsm s2. rewrite Hag, Hpost by (rewrite Hc2; by case_decide).
    do 3 f_equal. unfold s2, on_config. change (m_config (handshakeDone s1)) with (m_config s1). by case_decide; destruct s1.
  - change (SrtHSRequest.HSFLAGS (Z.lor HS_EXT_HSREQ HS_EXT_CONFIG)) with 5. change (5 =? 0) with false. change (IsSet 5 HS_EXT_HSREQ) with true.
    change (IsSet 5 HS_EXT_KMREQ) with false. change (IsSet 5 HS_EXT_CONFIG) with true. rewrite Hhs. cbn [mbind option_bind negb].
    change (m_config (handshakeDone s1)) with (m_config s1). fold agsm s2. rewrite Hag.
    assert (Hloop : loop (S (length p)) (config_step find_filter live) (s2, false, false, p) =
      Some (set_sStreamName_bytes (sid_of_words (words_of_bytes sid)) s2, true, false, false)).
    { destruct (words_of_bytes_ok sid Hne Hsid) as (Hwne & Hw1 & Hw2). cbn [loop]. unfold config_step at 1. rewrite Hfind.
      rewrite (proj2 (Z.eqb_neq cmd SRT_CMD_SID)), (proj2 (Z.eqb_neq cmd SRT_CMD_CONGESTION)), (proj2 (Z.eqb_neq cmd SRT_CMD_FILTER)) by (destruct Hproc as [[-> _]|[-> _]]; done).
      assert (Hsb : blocks (sid_block sid) = block SRT_CMD_SID (words_of_bytes sid)).
      { unfold sid_block. rewrite decide_False by done. unfold blocks. cbn [map concat fst snd]. apply app_nil_r. }
      rewrite Hsb. change (match block SRT_CMD_SID _ with [] => None | _ => _ end) with (Some (block SRT_CMD_SID (words_of_bytes sid))).
      assert (Hlp : exists n, length p = S n) by (rewrite Hp; cbn; eauto). destruct Hlp as [n ->]. cbn [loop]. unfold config_step at 1.
      rewrite <- (app_nil_r (block SRT_CMD_SID (words_of_bytes sid))). rewrite find_block; [|split; [done|unfold MAX_SID_LENGTH in *; cbn; lia]].
      change (SRT_CMD_SID =? SRT_CMD_SID) with true. cbn [orb]. cbn -[Z.mul sid_of_words]. rewrite (proj2 (Z.eqb_neq (4 * _) 0)), (proj2 (Z.ltb_ge MAX_SID_LENGTH _)) by lia. done. }
    rewrite Hloop. cbn [mbind option_bind negb]. rewrite Hpost; [|unfold set_sStreamName_bytes, on_config; cbn; rewrite Hc2; by case_decide..].
    do 3 f_equal. unfold s2, set_sStreamName_bytes, on_config. change (m_config (handshakeDone s1)) with (m_config s1). by case_decide.
Qed.

(** ** What the two blocks say *)

Definition req_flags (tsbpd tlpktdrop nak message : bool) : Z :=
  let flags := if tsbpd then let flags := Z.lor (Z.lor SrtVersionCapabilities SRT_OPT_TSBPDSND) SRT_OPT_TSBPDRCV in
                             if tlpktdrop then Z.lor flags SRT_OPT_TLPKTDROP else flags else SrtVersionCapabilities in
  let flags := if nak then Z.lor flags SRT_OPT_NAKREPORT else flags in
  let flags := Z.lor flags SRT_OPT_REXMITFLG in
  if message then flags else Z.lor flags SRT_OPT_STREAM.

Lemma req_flags_set t d n m : let f := req_flags t d n m in
  IsSet f SRT_OPT_TSBPDSND = t /\ IsSet f SRT_OPT_TSBPDRCV = t /\ IsSet f SRT_OPT_TLPKTDROP = t && d /\ IsSet f SRT_OPT_NAKREPORT = n /\
  IsSet f SRT_OPT_REXMITFLG = true /\ IsSet f SRT_OPT_STREAM = negb m.
Proof. destruct t, d, n, m; vm_compute; auto 10. Qed.

Lemma req_words s : let c := m_config s in
  (req_fill s).2 = [uSrtVersion c; req_flags (bTSBPD c) (m_bTLPktDrop s) (bRcvNakReport c) (bMessageAPI c);
                    if bTSBPD c then Z.lor (Bits.wrap 31 16 (u32 (iRcvLatency c))) (Bits.wrap 15 0 (u32 (iPeerLatency c))) else 0].
Proof. unfold req_fill, fillSrtHandshake_HSREQ, req_flags. destruct (bTSBPD (m_config s)); [|done]. cbn -[Bits.wrap u32 Z.lor]. by rewrite (Z.lor_comm (Bits.wrap 31 16 _)). Qed.

Definition rsp_flags (tsbpd peer_tsbpd tlpktdrop nak rexmit : bool) : Z :=
  let flags := if tsbpd then Z.lor SrtVersionCapabilities SRT_OPT_TSBPDRCV else SrtVersionCapabilities in
  let flags := if peer_tsbpd then Z.lor flags SRT_OPT_TSBPDSND else flags in
  let flags := if tlpktdrop then Z.lor flags SRT_OPT_TLPKTDROP else flags in
  let flags := if nak then Z.lor flags SRT_OPT_NAKREPORT else flags in
  if rexmit then Z.lor flags SRT_OPT_REXMITFLG else flags.

Lemma rsp_flags_set t p d n r : let f := rsp_flags t p d n r in
  IsSet f SRT_OPT_TSBPDSND = p /\ IsSet f SRT_OPT_TSBPDRCV = t /\ IsSet f SRT_OPT_TLPKTDROP = d /\ IsSet f SRT_OPT_NAKREPORT = n /\
  IsSet f SRT_OPT_REXMITFLG = r.
Proof. destruct t, p, d, n, r; vm_compute; auto 10. Qed.

Lemma rsp_words s : m_tsRcvPeerStartTime s <> 0 -> SrtVersion 1 0 7 < m_uPeerSrtVersion s -> let c := m_config s in
  SrtVersion 1 2 0 <= uSrtVersion c ->
  (rsp_fill s).2 = [uSrtVersion c; rsp_flags (bTSBPD c) (m_bPeerTsbPd s) (m_bTLPktDrop s) (bRcvNakReport c) (m_bPeerRexmitFlag s);
                    Z.lor (if bTSBPD c then Bits.wrap 31 16 (u32 (m_iTsbPdDelay_ms s)) else 0)
                          (if m_bPeerTsbPd s then Bits.wrap 15 0 (u32 (m_iPeerTsbPdDelay_ms s)) else 0)].
Proof.
  intros Hts Hpv c Hv. unfold rsp_fill, fillSrtHandshake_HSRSP, rsp_flags. fold c. rewrite (proj2 (Z.eqb_neq _ _)) by done.
  rewrite (proj2 (Z.leb_gt (m_uPeerSrtVersion s) _)), (proj2 (Z.leb_le (SrtVersion 1 2 0) _)) by lia.
  destruct (bTSBPD c), (m_bPeerTsbPd s), (m_bTLPktDrop s), (bRcvNakReport c), (m_bPeerRexmitFlag s); cbn; by rewrite ?Z.lor_0_r.
Qed.

Lemma get3 (a b c : Z) : [a; b; c].[0] = a /\ [a; b; c].[1] = b /\ [a; b; c].[2] = c.
Proof. done. Qed.

(** The state but for what the negotiation settles. *)
Definition core s : CUDT.t K :=
  set_m_tsRcvPeerStartTime 0 (set_m_iTsbPdDelay_ms 0 (set_m_iPeerTsbPdDelay_ms 0 (set_m_uPeerSrtVersion 0 (set_m_uPeerSrtFlags 0
    (set_m_bTsbPd false (set_m_bPeerTsbPd false (set_m_bPeerTLPktDrop false (set_m_bPeerNakReport false (set_m_bPeerRexmitFlag false
      (set_m_iSndHsRetryCnt 0 s)))))))))).

(** The effect of a request from a side with the configuration [c] and the
    drop flag [d]. *)
Record after_req (c : CSrtConfig) (start : Z) s s' : Prop := {
  ar_core : core s' = core s;
  ar_start : m_tsRcvPeerStartTime s' = start;
  ar_delay : m_iTsbPdDelay_ms s' = if bTSBPD c && bTSBPD (m_config s) then Z.max (iRcvLatency (m_config s)) (iPeerLatency c mod 2 ^ 16) else iRcvLatency (m_config s);
  ar_peer : m_iPeerTsbPdDelay_ms s' = if bTSBPD c then Z.max (iPeerLatency (m_config s)) (iRcvLatency c mod 2 ^ 16) else iPeerLatency (m_config s);
  ar_version : m_uPeerSrtVersion s' = uSrtVersion c;
  ar_rexmit : m_bPeerRexmitFlag s' = true;
  ar_tsbpd : m_bTsbPd s' = m_bTsbPd s || bTSBPD c && bTSBPD (m_config s);
  ar_peer_tsbpd : m_bPeerTsbPd s' = m_bPeerTsbPd s || bTSBPD c;
  ar_nak : m_bPeerNakReport s' = m_bPeerNakReport s || bRcvNakReport c;
}.

Lemma process_req (sI s : CUDT.t K) ts now : plain_config (m_config sI) -> compatible (m_config sI) (m_config s) ->
  exists s', processSrtMsg_HSREQ (req_fill sI).2 12 ts HS_VERSION_SRT1 now s = (s', SRT_CMD_HSRSP) /\ after_req (m_config sI) (now - ts) s s'.
Proof.
  intros Hp [Hapi Hmin _]. rewrite req_words. pose proof (pc_version _ Hp) as Hv. set (c := m_config sI) in *. unfold processSrtMsg_HSREQ.
  destruct (req_flags_set (bTSBPD c) (m_bTLPktDrop sI) (bRcvNakReport c) (bMessageAPI c)) as (F1 & F2 & F3 & F4 & F5 & F6).
  set (fl := req_flags _ _ _ _) in *. set (la := if bTSBPD c then _ else _). destruct (get3 (uSrtVersion c) fl la) as (-> & -> & ->).
  clearbody fl. cbn -[IsSet Z.max Bits.unwrap Z.lor Bits.wrap u32]. rewrite F1, F2, F3, F4, F5, F6, negb_involutive.
  rewrite (proj2 (Z.ltb_ge (uSrtVersion c) SRT_VERSION_FEAT_HSv5)), (proj2 (Z.ltb_ge (uSrtVersion c) _)) by (exact Hmin || lia).
  rewrite Hapi, eqb_reflx. cbn -[IsSet Z.max Bits.unwrap Z.lor Bits.wrap u32].
  eexists. split; [reflexivity|]. destruct (halves (u32 (iRcvLatency c)) (u32 (iPeerLatency c))) as [E1 E2]. rewrite !u32_mod16 in E1, E2.
  unfold la. clear la. destruct (bTSBPD c) eqn:Et; cbn -[Z.max Bits.unwrap Z.lor Bits.wrap u32 core]; [rewrite E1, E2|];
    destruct (bTSBPD (m_config s)) eqn:Es, (m_bTLPktDrop sI), (bRcvNakReport c) eqn:En; split; rewrite ?Es, ?Et, ?En; cbn -[Z.max Z.modulo Z.pow]; rewrite ?orb_true_r, ?orb_false_r; reflexivity.
Qed.

(** The effect of a response from a responder in the state [sR]. *)
Record after_rsp (sR : CUDT.t K) (start : Z) s s' : Prop := {
  as_core : core s' = core s;
  as_start : m_tsRcvPeerStartTime s' = if m_tsRcvPeerStartTime s =? 0 then start else m_tsRcvPeerStartTime s;
  as_delay : m_iTsbPdDelay_ms s' = if m_bPeerTsbPd sR && bTSBPD (m_config s) then m_iPeerTsbPdDelay_ms sR mod 2 ^ 16 else m_iTsbPdDelay_ms s;
  as_peer : m_iPeerTsbPdDelay_ms s' = if bTSBPD (m_config sR) then m_iTsbPdDelay_ms sR mod 2 ^ 16 else m_iPeerTsbPdDelay_ms s;
  as_version : m_uPeerSrtVersion s' = uSrtVersion (m_config sR);
  as_tsbpd : m_bTsbPd s' = m_bTsbPd s || m_bPeerTsbPd sR && bTSBPD (m_config s);
  as_peer_tsbpd : m_bPeerTsbPd s' = m_bPeerTsbPd s || bTSBPD (m_config sR);
}.

Lemma process_rsp (sR s : CUDT.t K) ts now : plain_config (m_config sR) -> compatible (m_config s) (m_config sR) -> m_tsRcvPeerStartTime sR <> 0 ->
  SrtVersion 1 0 7 < m_uPeerSrtVersion sR ->
  exists s', processSrtMsg_HSRSP (rsp_fill sR).2 12 ts HS_VERSION_SRT1 now s = (s', SRT_CMD_NONE) /\ after_rsp sR (now - ts) s s'.
Proof.
  intros Hp [_ _ Hmin] Hts Hpv. pose proof (pc_version _ Hp) as Hv. rewrite rsp_words by (done || (unfold SRT_VERSION_FEAT_HSv5, SrtVersion in *; lia)).
  set (c := m_config sR) in *. unfold processSrtMsg_HSRSP.
  destruct (rsp_flags_set (bTSBPD c) (m_bPeerTsbPd sR) (m_bTLPktDrop sR) (bRcvNakReport c) (m_bPeerRexmitFlag sR)) as (F1 & F2 & F3 & F4 & F5).
  set (fl := rsp_flags _ _ _ _ _) in *. set (la := Z.lor (if bTSBPD c then _ else _) _). destruct (get3 (uSrtVersion c) fl la) as (-> & -> & ->). clearbody fl.
  change (HS_VERSION_SRT1 =? HS_VERSION_UDT4) with false. cbn [andb]. change (12 <? 8) with false.
  assert (Hstart : exists s0, s0 = (if m_tsRcvPeerStartTime s =? 0 then set_m_tsRcvPeerStartTime (now - ts) s else s)) by eauto.
  destruct Hstart as [s0 E0]. rewrite <- E0. assert (Hc0 : m_config s0 = m_config s) by (rewrite E0; by destruct (_ =? 0)).
  cbn -[IsSet Z.max Bits.unwrap Z.lor Bits.wrap u32 SrtVersion]. rewrite Hc0, F1, F2, F3, F4, F5.
  rewrite (proj2 (Z.ltb_ge (uSrtVersion c) _)) by exact Hmin.
  eexists. split; [reflexivity|].
  assert (E1 : bTSBPD c = true -> Bits.unwrap 31 16 la = m_iTsbPdDelay_ms sR mod 2 ^ 16).
  { unfold la. intros ->. destruct (m_bPeerTsbPd sR); [rewrite (proj1 (halves _ _))|rewrite Z.lor_0_r, (proj1 (half_only _))]; apply u32_mod16. }
  assert (E2 : m_bPeerTsbPd sR = true -> Bits.unwrap 15 0 la = m_iPeerTsbPdDelay_ms sR mod 2 ^ 16).
  { unfold la. intros ->. destruct (bTSBPD c).
    - rewrite (proj2 (halves _ _)). apply u32_mod16.
    - rewrite <- (eq_refl : Bits.wrap 31 16 0 = 0), (proj2 (halves 0 _)). apply u32_mod16. }
  assert (Hcore : core s0 = core s) by (rewrite E0; by destruct (_ =? 0)).
  assert (Hs0 : m_tsRcvPeerStartTime s0 = (if m_tsRcvPeerStartTime s =? 0 then now - ts else m_tsRcvPeerStartTime s) /\ m_iTsbPdDelay_ms s0 = m_iTsbPdDelay_ms s /\
    m_iPeerTsbPdDelay_ms s0 = m_iPeerTsbPdDelay_ms s /\ m_bTsbPd s0 = m_bTsbPd s /\ m_bPeerTsbPd s0 = m_bPeerTsbPd s) by (rewrite E0; by destruct (_ =? 0)).
  destruct Hs0 as (S1 & S2 & S3 & S4 & S5). clearbody la. clear E0.
  set (b1 := (_ <=? _) && m_bTLPktDrop sR). set (b2 := (_ <=? _) && bRcvNakReport c). set (b3 := (_ <=? _) && m_bPeerRexmitFlag sR). clearbody b1 b2 b3.
  destruct (bTSBPD c) eqn:Et; [rewrite (E1 eq_refl)|clear E1]; (destruct (m_bPeerTsbPd sR) eqn:Ep; [rewrite (E2 eq_refl)|clear E2]);
    destruct (bTSBPD (m_config s)) eqn:Es, b1, b2, b3; (split; fold c; rewrite ?Es, ?Et, ?Ep, <- ?Hcore, <- ?S1, <- ?S2, <- ?S3, <- ?S4, <- ?S5; cbn -[Z.modulo Z.pow];
      rewrite ?orb_true_r, ?orb_false_r; reflexivity).
Qed.
End Exchange.
