(* ===== verification/HsExtRun.v ===== *)
(** The exchange of a request and a response between two sides, and the
    properties of the handshake extensions. *)
From S2P Require Import Prelude Packet Handshake FilterConfig HsExt HsExtInv.
Import CHandShake CUDT.

(** ** The exchange *)

Lemma plain_after sid c : plain_config c -> plain_config (config_after sid c).
Proof.
  intros [H1 H2 H3 H4 H5 H6 H7 H8]. unfold config_after. destruct (decide (sCongestion c = [])) as [Ec|Ec], (decide (sid = [])) as [Es|Es]; split; cbn; auto;
    unfold storage_set; destruct (Z.ltb_spec MAX_SID_LENGTH (zlen (sid_of_words (words_of_bytes sid)))); done.
Qed.

Lemma config_after_options sid c : let c' := config_after sid c in
  iRcvLatency c' = iRcvLatency c /\ iPeerLatency c' = iPeerLatency c /\ bTSBPD c' = bTSBPD c /\ uSrtVersion c' = uSrtVersion c /\
  bMessageAPI c' = bMessageAPI c /\ uMinimumPeerSrtVersion c' = uMinimumPeerSrtVersion c.
Proof. unfold config_after. by destruct (decide (sCongestion c = [])), (decide (sid = [])). Qed.

Lemma core_config {K} (s s' : CUDT.t K) : core s' = core s -> m_config s' = m_config s.
Proof. intros E. exact (f_equal m_config E). Qed.

(** ** Properties *)

(** The blocks that follow a handshake are found again, in order and with
    their contents, and for every payload at all the search comes to an
    end. *)
Theorem hs_blocks_roundtrip (hs : CHandShake.t) (bs : list (Z * list Z)) (payload : list Z) (Hip : length (m_piPeerIP hs) = 4%nat) (Hbs : Forall block_ok bs) :
  SrtExtractHandshakeExtensions (words hs ++ blocks bs) = Some bs /\ is_Some (SrtExtractHandshakeExtensions payload).
Proof.
  unfold SrtExtractHandshakeExtensions. rewrite <- (length_words hs Hip), drop_app_length. split.
  - rewrite extract_blocks; [done|done|lia].
  - apply search_ends with (left_of := snd); [|cbn; lia]. intros [out l] [out' l']. unfold extract_step.
    destruct (FindExtensionBlock l) as [[[cmd c] [l2|]]|] eqn:E; [|done..]. intros [= <- <-]. by apply find_shorter in E as [? _].
Qed.

Lemma hs_blocks_roundtrip_witness :
  SrtExtractHandshakeExtensions (words sample ++ blocks [(SRT_CMD_HSREQ, [0x010506; 0xBF; 0x780078]); (SRT_CMD_SID, [0x64636261; 0x65])]) =
    Some [(SRT_CMD_HSREQ, [0x010506; 0xBF; 0x780078]); (SRT_CMD_SID, [0x64636261; 0x65])].
Proof. apply (hs_blocks_roundtrip sample _ []); [done|]. repeat constructor; cbn; unfold SRT_CMD_HSREQ, SRT_CMD_SID; lia. Defined.

(** A stream ID arrives as it was set when it has at least two characters; of
    an ID of one character the padding of the block becomes a part. *)
Theorem sid_roundtrip (s : list Z) (Hb : Forall byte_ok s) (Hz : Forall (fun b => b <> 0) s) (Hne : s <> []) :
  sid_of_words (words_of_bytes s) = if decide (length s = 1%nat) then s ++ [0; 0; 0] else s.
Proof. by apply sid_arrives. Qed.

Lemma sid_roundtrip_witness : sid_of_words (words_of_bytes [97]) = [97; 0; 0; 0] /\ sid_of_words (words_of_bytes [97; 98; 99; 100; 101]) = [97; 98; 99; 100; 101].
Proof.
  assert (Hb : forall l, Forall byte_ok l -> l = [97] \/ l = [97; 98; 99; 100; 101] -> Forall (fun b => b <> 0) l) by (intros ? _ [->| ->]; repeat constructor; lia).
  assert (H1 : Forall byte_ok [97]) by (repeat constructor; unfold byte_ok; lia).
  assert (H2 : Forall byte_ok [97; 98; 99; 100; 101]) by (repeat constructor; unfold byte_ok; lia).
  split; [apply (sid_roundtrip [97])|apply (sid_roundtrip [97; 98; 99; 100; 101])]; auto.
Defined.

Section Negotiation.
Context {K : Type} `{CryptoControl K} (find_filter : list Z -> option Factory).

(** C29. A request and its response between two sides that use timestamps: every
    packet is written and accepted, and afterwards each side's latency is the
    one that the other side believes it to have, the larger of what the two
    sides asked for - as long as no latency needs more than 16 bits; in general
    what arrives is cut to 16 bits. *)
Theorem hs_latency_negotiated (sI sR : CUDT.t K) (hsI hsR : CHandShake.t) (lenI lenR tsI tsR nowI nowR : Z)
  (HpI : plain_config (m_config sI)) (HpR : plain_config (m_config sR)) (Hco : compatible (m_config sI) (m_config sR))
  (HtI : bTSBPD (m_config sI) = true) (HtR : bTSBPD (m_config sR) = true)
  (HsI : m_SrtHsSide sI <> HSD_RESPONDER) (HvI : m_iVersion (m_ConnRes sI) <> HS_VERSION_UDT4) (HvR : m_iVersion (m_ConnRes sR) <> HS_VERSION_UDT4)
  (HhI : m_iVersion hsI = HS_VERSION_SRT1 /\ m_extension hsI = true /\ length (m_piPeerIP hsI) = 4%nat)
  (HhR : m_iVersion hsR = HS_VERSION_SRT1 /\ m_extension hsR = true /\ length (m_piPeerIP hsR) = 4%nat)
  (Hfits : zlen (sStreamName (m_config sI)) < m_iMaxSRTPayloadSize sI / 2) (HlI : 600 <= lenI) (HlR : 600 <= lenR) (Hclock : tsI < nowR) :
  let cI := m_config sI in let cR := m_config sR in
  exists sI1 hI pI sR1 hR pR sI2,
    createSrtHandshake SRT_CMD_HSREQ SRT_CMD_KMREQ [] lenI hsI sI = Some (sI1, hI, Some pI) /\
    interpretSrtHandshake find_filter hI (mkpkt pI 0 tsI) true nowR sR = Some (sR1, true, []) /\
    createSrtHandshake SRT_CMD_HSRSP SRT_CMD_KMRSP [] lenR hsR sR1 = Some (sR1, hR, Some pR) /\
    interpretSrtHandshake find_filter hR (mkpkt pR 0 tsR) false nowI sI1 = Some (sI2, true, []) /\
    m_bTsbPd sI2 = true /\ m_bPeerTsbPd sI2 = true /\ m_bTsbPd sR1 = true /\ m_bPeerTsbPd sR1 = true /\
    m_iTsbPdDelay_ms sR1 = Z.max (iRcvLatency cR) (iPeerLatency cI mod 2 ^ 16) /\
    m_iPeerTsbPdDelay_ms sR1 = Z.max (iPeerLatency cR) (iRcvLatency cI mod 2 ^ 16) /\
    m_iTsbPdDelay_ms sI2 = m_iPeerTsbPdDelay_ms sR1 mod 2 ^ 16 /\ m_iPeerTsbPdDelay_ms sI2 = m_iTsbPdDelay_ms sR1 mod 2 ^ 16 /\
    (Forall (fun l => l < 2 ^ 16) [iRcvLatency cI; iPeerLatency cI; iRcvLatency cR; iPeerLatency cR] ->
       m_iTsbPdDelay_ms sI2 = m_iPeerTsbPdDelay_ms sR1 /\ m_iPeerTsbPdDelay_ms sI2 = m_iTsbPdDelay_ms sR1 /\
       m_iTsbPdDelay_ms sI2 = Z.max (iRcvLatency cI) (iPeerLatency cR) /\ m_iTsbPdDelay_ms sR1 = Z.max (iRcvLatency cR) (iPeerLatency cI)).
Proof.
  intros cI cR. destruct HhI as (H1 & H2 & H3). destruct HhR as (G1 & G2 & G3).
  pose proof (create_req sI hsI lenI HpI HsI HvI H1 H2 H3 Hfits HlI) as Ecreate. set (sid := sStreamName (m_config sI)) in *.
  destruct (process_req sI sR tsI nowR HpI Hco) as (sR0 & Eproc & Har). pose proof (core_config _ _ (ar_core _ _ _ _ Har)) as EcR.
  assert (HpR0 : plain_config (m_config sR0)) by (by rewrite EcR).
  set (sR1 := on_config (config_after sid) (handshakeDone sR0)).
  assert (HpR1 : plain_config (m_config sR1)) by (by apply plain_after).
  destruct (config_after_options sid (m_config sR0)) as (_ & _ & C3 & C4 & C5 & C6). change (config_after sid (m_config sR0)) with (m_config sR1) in *.
  rewrite EcR in C3, C4, C5, C6.
  pose proof (create_rsp sR1 hsR lenR HpR1) as Ersp.
  set (sI1 := (req_fill sI).1) in *. assert (EcI : m_config sI1 = cI) by (unfold sI1; rewrite req_fill_state; by destruct (bTSBPD (m_config sI))).
  assert (Hco1 : compatible (m_config sI1) (m_config sR1)).
  { rewrite EcI. destruct Hco as [Q1 Q2 Q3]. by split; rewrite ?C4, ?C5, ?C6. }
  assert (Hcore1 : m_iVersion (m_ConnRes sR1) = m_iVersion (m_ConnRes sR)) by exact (f_equal (fun s => m_iVersion (m_ConnRes s)) (ar_core _ _ _ _ Har)).
  pose proof (pc_version _ HpI) as HvI5. unfold SRT_VERSION_FEAT_HSv5 in HvI5.
  assert (Hst : m_tsRcvPeerStartTime sR1 = nowR - tsI) by exact (ar_start _ _ _ _ Har).
  assert (Hpv : m_uPeerSrtVersion sR1 = uSrtVersion cI) by exact (ar_version _ _ _ _ Har).
  destruct (process_rsp sR1 sI1 tsR nowI HpR1 Hco1) as (sI2 & Eproc2 & Has); [lia|rewrite Hpv; unfold SrtVersion, cI; lia|].
  pose proof (core_config _ _ (as_core _ _ _ _ Has)) as EcI2.
  eexists sI1, _, _, sR1, _, _, (on_config (config_after []) (handshakeDone sI2)). split; [exact Ecreate|]. split; [|split; [apply Ersp; [by rewrite Hcore1|lia|done..]|split]].
  - apply interpret_plain with (cmd := SRT_CMD_HSREQ) (ws := (req_fill sI).2); [by left|done|done|done|apply req_fill_length|by apply (pc_sid _ HpI)| |done].
    eexists. split; [|reflexivity]. by apply length_words.
  - apply interpret_plain with (cmd := SRT_CMD_HSRSP) (ws := (rsp_fill sR1).2); [by right|by rewrite EcI2, EcI|done|done|apply rsp_fill_length; lia|done| |done].
    eexists. split; [|reflexivity]. by apply length_words.
  - destruct Har as [_ _ R3 R4 _ _ R7 R8 _], Has as [_ _ S3 S4 _ S6 S7].
    assert (Hb : m_bTsbPd sI1 = m_bTsbPd sI /\ m_iTsbPdDelay_ms sI1 = iRcvLatency cI /\ m_iPeerTsbPdDelay_ms sI1 = iPeerLatency cI).
    { unfold sI1. rewrite req_fill_state, HtI. done. }
    fold cI in R3, R4, R7, R8. fold cR in R3, R4. unfold cI in R3, R4, R7, R8. unfold cR in R3. rewrite HtI, HtR in *. cbn [andb] in *.
    rewrite orb_true_r in R7, R8. rewrite C3, EcI in *. unfold cI in S3, S6.
    assert (E8 : m_bPeerTsbPd sR1 = true) by exact R8. rewrite E8, HtI in S3, S6. cbn [andb] in S3, S6. rewrite orb_true_r in S6, S7.
    assert (D1 : m_iTsbPdDelay_ms sR1 = Z.max (iRcvLatency cR) (iPeerLatency cI mod 2 ^ 16)) by exact R3.
    assert (D2 : m_iPeerTsbPdDelay_ms sR1 = Z.max (iPeerLatency cR) (iRcvLatency cI mod 2 ^ 16)) by exact R4.
    split; [exact S6|]. split; [exact S7|]. split; [exact R7|]. split; [exact R8|]. split; [exact D1|]. split; [exact D2|]. split; [exact S3|]. split; [exact S4|].
    intros Hsmall. do 4 (apply list.Forall_cons in Hsmall as [? Hsmall]).
    assert (0 <= iRcvLatency cI) by exact (pc_rcv _ HpI). assert (0 <= iPeerLatency cI) by exact (pc_peer _ HpI).
    assert (0 <= iRcvLatency cR) by exact (pc_rcv _ HpR). assert (0 <= iPeerLatency cR) by exact (pc_peer _ HpR).
    assert (D1' : m_iTsbPdDelay_ms sR1 = Z.max (iRcvLatency cR) (iPeerLatency cI)) by (rewrite <- (Z.mod_small (iPeerLatency cI) (2 ^ 16)) by lia; exact D1).
    assert (D2' : m_iPeerTsbPdDelay_ms sR1 = Z.max (iPeerLatency cR) (iRcvLatency cI)) by (rewrite <- (Z.mod_small (iRcvLatency cI) (2 ^ 16)) by lia; exact D2).
    assert (T3 : m_iTsbPdDelay_ms sI2 = m_iPeerTsbPdDelay_ms sR1) by (rewrite S3; apply Z.mod_small; lia).
    assert (T4 : m_iPeerTsbPdDelay_ms sI2 = m_iTsbPdDelay_ms sR1) by (rewrite S4; apply Z.mod_small; lia).
    split; [exact T3|]. split; [exact T4|]. split; [etrans; [exact T3|]; lia|exact D1'].
Qed.
End Negotiation.

(** A build without encryption: no operation of the interface is called. *)
#[export] Instance no_crypto : CryptoControl unit := {
  create_crypter _ _ _ _ := ((), true);
  getKmMsg_needSend _ _ _ := false;
  getKmMsg_markSent _ _ k := k;
  getKmMsg_size _ _ := 0;
  getKmMsg_data _ _ := [];
  hasPassphrase _ := false;
  processSrtMsg_KMREQ _ _ _ _ k := (k, SRT_CMD_NONE, []);
  processSrtMsg_KMRSP _ _ _ k := (k, -1);
  createFakeSndContext k := k;
  m_SndKmState _ := SRT_KM_S_UNSECURED;
  m_RcvKmState _ := SRT_KM_S_UNSECURED;
  set_KmState _ _ k := k;
}.

(** A live configuration with the given latencies; the state of a socket that
    has not heard of its peer. *)
Definition live_config (rcv peer : Z) (rendezvous : bool) (sid : list Z) : CSrtConfig :=
  mkconfig rcv peer (SrtVersion 1 5 6) (SrtVersion 1 0 0) 0 0 1500 8192 1316 true true true rendezvous true false live [] sid.
Definition fresh (c : CSrtConfig) (side : HandshakeSide) (req : CHandShake.t) (isn id : Z) : CUDT.t unit :=
  CUDT.mk c side SRT_REJ_UNKNOWN RDV_WAVING req CHandShake.init 0 0 0 0 0 false false true false false false 0 [] None false true false
    1456 0 isn 0 0 0 id [0; 0; 0; 0] 0 [].

Lemma live_plain rcv peer r sid : 0 <= rcv -> 0 <= peer -> zlen sid <= MAX_SID_LENGTH -> plain_config (live_config rcv peer r sid).
Proof. intros. split; cbn; auto. vm_compute. done. Qed.

Lemma live_compatible rcv peer r sid rcv' peer' r' sid' : compatible (live_config rcv peer r sid) (live_config rcv' peer' r' sid').
Proof. split; [done|vm_compute; done..]. Qed.

(** The initiator asks for 70 seconds; what arrives is 4464 milliseconds. *)
Lemma hs_latency_negotiated_witness : exists sI1 hI pI sR1 hR pR sI2,
  let sI := fresh (live_config 70000 0 false [97; 98]) HSD_INITIATOR sample 1 7 in
  let sR := fresh (live_config 120 300 false []) HSD_RESPONDER sample 2 8 in
  createSrtHandshake SRT_CMD_HSREQ SRT_CMD_KMREQ [] 1456 sample sI = Some (sI1, hI, Some pI) /\
  interpretSrtHandshake builtin_filter hI (mkpkt pI 0 1000) true 5000 sR = Some (sR1, true, []) /\
  createSrtHandshake SRT_CMD_HSRSP SRT_CMD_KMRSP [] 1456 sample sR1 = Some (sR1, hR, Some pR) /\
  interpretSrtHandshake builtin_filter hR (mkpkt pR 0 2000) false 6000 sI1 = Some (sI2, true, []) /\ m_iTsbPdDelay_ms sI2 = 4464.
Proof.
  destruct (hs_latency_negotiated builtin_filter (fresh (live_config 70000 0 false [97; 98]) HSD_INITIATOR sample 1 7)
    (fresh (live_config 120 300 false []) HSD_RESPONDER sample 2 8) sample sample 1456 1456 1000 2000 6000 5000)
    as (sI1 & hI & pI & sR1 & hR & pR & sI2 & E1 & E2 & E3 & E4 & _ & _ & _ & _ & _ & D2 & D3 & _ & _);
    try (apply live_plain; cbn; unfold MAX_SID_LENGTH; lia); try apply live_compatible; try done.
  exists sI1, hI, pI, sR1, hR, pR, sI2. split_and!; [exact E1|exact E2|exact E3|exact E4|]. rewrite D3, D2. done.
Defined.
