(* ===== verification/HsExtTyped.v ===== *)
(** Whatever a handshake packet holds, [interpretSrtHandshake] comes to an end
    and leaves the state well typed: numbers of the machine's width, strings
    that fit into their storage. *)
From S2P Require Import Prelude Packet Handshake FilterConfig HsExt HsExtInv HsExtRun.
Import CHandShake CUDT.

Lemma unwrap_range l r w : (r <= l)%nat -> 0 <= Bits.unwrap l r w < 2 ^ (Z.of_nat l - Z.of_nat r + 1).
Proof.
  intros Hlr. assert (E : Bits.unwrap l r w = Bits.unwrap l r w mod 2 ^ (Z.of_nat l - Z.of_nat r + 1)).
  { apply Z.bits_inj'. intros i Hi. destruct (Z.lt_ge_cases i (Z.of_nat l - Z.of_nat r + 1)); [by rewrite Z.mod_pow2_bits_low by lia|].
    rewrite Z.mod_pow2_bits_high, unwrap_testbit by lia. assert ((i <=? Z.of_nat l - Z.of_nat r) = false) as -> by bdestr. apply andb_false_r. }
  rewrite E. apply Z.mod_pos_bound. lia.
Qed.

Lemma half_range w : 0 <= Bits.unwrap 31 16 w < 2 ^ 16 /\ 0 <= Bits.unwrap 15 0 w < 2 ^ 16.
Proof. split; [apply (unwrap_range 31 16)|apply (unwrap_range 15 0)]; lia. Qed.

Lemma aget_word l i : Forall in_u32 l -> in_u32 l.[i].
Proof.
  intros Hl. unfold aget. destruct (i <? 0); [unfold in_u32; cbn; lia|]. destruct (decide (Z.to_nat i < length l)%nat); [by eapply Forall_lookup_total_1|].
  rewrite list_lookup_total_alt, lookup_ge_None_2 by lia. unfold in_u32. cbn. lia.
Qed.

Section Typed.
Context {K : Type} `{CryptoControl K} (find_filter : list Z -> option Factory).
Implicit Types s : CUDT.t K.

Definition in_latency (z : Z) : Prop := 0 <= z < 2 ^ 31.

Record config_typed (c : CSrtConfig) : Prop := {
  ct_rcv : in_latency (iRcvLatency c);
  ct_peer : in_latency (iPeerLatency c);
  ct_sid : zlen (sStreamName c) <= MAX_SID_LENGTH;
  ct_congestion : zlen (sCongestion c) <= MAX_CONG_LENGTH;
  ct_filter : zlen (sPacketFilterConfig c) <= MAX_PFILTER_LENGTH;
}.

Record typed s : Prop := {
  ty_config : config_typed (m_config s);
  ty_delay : in_latency (m_iTsbPdDelay_ms s);
  ty_peer_delay : in_latency (m_iPeerTsbPdDelay_ms s);
  ty_version : in_u32 (m_uPeerSrtVersion s);
  ty_flags : in_u32 (m_uPeerSrtFlags s);
  ty_crypto : is_Some (m_pCryptoControl s);
}.

(** The next assignment of a function that threads the state: the new state is
    shown to be typed, then only that is known of it. *)
Ltac next_state :=
  lazymatch goal with
  | |- typed (fst (let s := ?x in @?f s)) =>
      let Hx := fresh "Hty" in
      lazymatch type of x with
      | CUDT.t _ => assert (Hx : typed x); [|change (typed (fst (f x))); revert Hx; generalize x; intros]
      | _ => change (typed (fst (f x))); cbv beta
      end
  end.
(** A typed state with some fields replaced. *)
Ltac typed_set :=
  repeat match goal with |- context [if ?c then _ else _] => destruct c end;
  repeat match goal with H : typed _ |- _ => destruct H end; split; cbn; assumption || (split; assumption) || (eexists; reflexivity) || idtac.

Lemma typed_reject r s : typed s -> typed (reject r s).
Proof. intros []. by split. Qed.
Lemma typed_done s : typed s -> typed (handshakeDone s).
Proof. intros []. by split. Qed.
Lemma typed_crypto k s : typed s -> typed (set_m_pCryptoControl (Some k) s).
Proof. intros []. split; cbn; eauto. Qed.
Lemma typed_config f s : typed s -> (config_typed (m_config s) -> config_typed (f (m_config s))) -> typed (on_config f s).
Proof. intros [] Hf. split; cbn; auto. Qed.

Lemma max_latency a b : in_latency a -> 0 <= b < 2 ^ 16 -> in_latency (Z.max a b).
Proof. unfold in_latency. lia. Qed.
Lemma half_latency w : in_latency (Bits.unwrap 31 16 w) /\ in_latency (Bits.unwrap 15 0 w).
Proof. destruct (half_range w). unfold in_latency. lia. Qed.

Lemma typed_HSREQ srtdata bytelen ts hsv now s : typed s -> Forall in_u32 srtdata -> typed (processSrtMsg_HSREQ srtdata bytelen ts hsv now s).1.
Proof.
  intros Hs Hw. cbv beta delta [processSrtMsg_HSREQ].
  next_state; [typed_set|]. next_state.
  { typed_set; apply ty_config0. }
  destruct (bytelen <? 8); [by apply typed_reject|]. next_state; [typed_set; by apply aget_word|]. do 2 next_state.
  destruct (if hsv =? HS_VERSION_UDT4 then _ else _); [by apply typed_reject|]. destruct (_ <? _); [by apply typed_reject|].
  next_state; [typed_set|]. next_state. destruct (negb _); [by apply typed_reject|]. destruct (bytelen <? 12).
  { destruct (_ || _); [by apply typed_reject|]. cbn [fst]. typed_set. }
  next_state. next_state. { typed_set. apply max_latency; [done|apply half_range]. }
  next_state. { typed_set. apply max_latency; [done|apply half_range]. }
  next_state. { typed_set. }
  done.
Qed.

Lemma typed_HSRSP srtdata bytelen ts hsv now s : typed s -> Forall in_u32 srtdata -> typed (processSrtMsg_HSRSP srtdata bytelen ts hsv now s).1.
Proof.
  intros Hs Hw. cbv beta delta [processSrtMsg_HSRSP]. destruct (_ && _); [done|]. destruct (bytelen <? 8); [done|]. next_state; [typed_set|]. next_state; [typed_set; by apply aget_word|].
  do 2 next_state. destruct (_ <? _); [by apply typed_reject|]. next_state. { typed_set; apply half_latency. }
  do 3 (next_state; [typed_set|]). by apply typed_done.
Qed.

(** ** The searches *)

Lemma find_words l cmd c next : Forall in_u32 l -> FindExtensionBlock l = Some (cmd, c, next) -> Forall in_u32 c /\ (forall l', next = Some l' -> Forall in_u32 l' /\ (length l' < length l)%nat).
Proof.
  intros Hl Hf. split; [|intros l' ->; split; [|by apply find_shorter in Hf as [? _]]].
  all: destruct l as [|w rest]; [done|]; apply list.Forall_cons in Hl as [_ Hr]; unfold FindExtensionBlock in Hf; destruct (_ <? _); [done|].
  - injection Hf as _ <- _. by apply Forall_take.
  - destruct (_ =? _); [done|]. injection Hf as _ _ <-. by apply Forall_drop.
Qed.

Definition word_state (x : CUDT.t K * list Z) : Prop := typed x.1 /\ Forall in_u32 x.2.

Lemma hsreq_typed ts now s l : typed s -> Forall in_u32 l -> exists s' ok, loop (S (length l)) (hsreq_step ts now) (s, l) = Some (s', ok) /\ typed s'.
Proof.
  intros Hs Hl. destruct (loop_total (hsreq_step ts now) word_state (fun r => typed r.1) (fun x => length x.2)) with (fuel := S (length l)) (s := (s, l)) as ([s' ok] & E & Hs'); [|done|cbn; lia|by exists s', ok].
  clear. intros [s l] [Hs Hl]. cbn [fst snd] in *. unfold hsreq_step. destruct (FindExtensionBlock l) as [[[cmd c] next]|] eqn:Ef; [|by apply typed_reject].
  destruct (find_words _ _ _ _ Hl Ef) as [Hc Hnext]. destruct (cmd =? SRT_CMD_HSREQ).
  { destruct (_ <? 3); [by apply typed_reject|]. pose proof (typed_HSREQ c (4 * zlen c) ts HS_VERSION_SRT1 now s Hs Hc) as Hp. destruct (processSrtMsg_HSREQ _ _ _ _ _ s) as [s1 res].
    by destruct (negb _); [|apply typed_done]. }
  destruct (cmd =? SRT_CMD_HSRSP).
  { destruct (_ <? 3); [by apply typed_reject|]. pose proof (typed_HSRSP c (4 * zlen c) ts HS_VERSION_SRT1 now s Hs Hc) as Hp. destruct (processSrtMsg_HSRSP _ _ _ _ _ s) as [s1 res].
    destruct (negb _); [destruct (_ =? _); [by apply typed_reject|done]|by apply typed_done]. }
  destruct next as [l'|]; [|done]. by destruct (Hnext l' eq_refl).
Qed.

Lemma kmreq_typed have_out s l : typed s -> Forall in_u32 l ->
  exists s' ok enc out, loop (S (length l)) (kmreq_step have_out) (s, l) = Some (Some (s', ok, enc, out)) /\ typed s'.
Proof.
  intros Hs Hl. destruct (loop_total (kmreq_step have_out) word_state (fun r => exists s' ok enc out, r = Some (s', ok, enc, out) /\ typed s') (fun x => length x.2))
    with (fuel := S (length l)) (s := (s, l)) as (r & E & s' & ok & enc & out & -> & Hs'); [|done|cbn; lia|by exists s', ok, enc, out].
  clear. intros [s l] [Hs Hl]. cbn [fst snd] in *. unfold kmreq_step. destruct (FindExtensionBlock l) as [[[cmd c] next]|] eqn:Ef; [|eexists _, _, _, _; split; [done|by apply typed_reject]].
  destruct (find_words _ _ _ _ Hl Ef) as [Hc Hnext]. destruct (ty_crypto _ Hs) as [k Ek]. rewrite Ek. destruct (cmd =? SRT_CMD_KMREQ).
  { destruct (negb have_out); [eexists _, _, _, _; split; [done|by apply typed_reject]|]. destruct (processSrtMsg_KMREQ _ _ _ _ k) as [[k' res] out].
    destruct (negb _); [eexists _, _, _, _; split; [done|by apply typed_reject, typed_crypto]|].
    destruct (_ && _); eexists _, _, _, _; (split; [done|]); auto using typed_reject, typed_crypto. }
  destruct (cmd =? SRT_CMD_KMRSP).
  { destruct (processSrtMsg_KMRSP _ _ _ k) as [k1 res]. destruct (_ && _); eexists _, _, _, _; (split; [done|]); auto using typed_reject, typed_crypto. }
  destruct next as [l'|]; [by destruct (Hnext l' eq_refl)|]. by eexists _, _, _, _.
Qed.

Lemma storage_fits SIZE str old : zlen old <= SIZE -> zlen (storage_set SIZE str old) <= SIZE.
Proof. intros Ho. unfold storage_set. destruct (Z.ltb_spec SIZE (zlen str)); lia. Qed.

Lemma config_loop_typed agsm s l : typed s -> Forall in_u32 l ->
  exists s' ok cc ff, loop (S (length l)) (config_step find_filter agsm) (s, false, false, l) = Some (s', ok, cc, ff) /\ typed s'.
Proof.
  intros Hs Hl. destruct (loop_total (config_step find_filter agsm) (fun x => typed x.1.1.1 /\ Forall in_u32 x.2) (fun r => typed r.1.1.1) (fun x => length x.2))
    with (fuel := S (length l)) (s := (s, false, false, l)) as ([[[s' ok] cc] ff] & E & Hs'); [|done|cbn; lia|by exists s', ok, cc, ff].
  clear. intros [[[s cc] ff] l] [Hs Hl]. cbn [fst snd] in *. unfold config_step. destruct (FindExtensionBlock l) as [[[cmd c] next]|] eqn:Ef; [|done].
  destruct (find_words _ _ _ _ Hl Ef) as [Hc Hnext].
  assert (Hgo : forall s1 cc1 ff1, typed s1 -> match (match next with Some l' => inl (s1, cc1, ff1, l') | None => inr (s1, true, cc1, ff1) end :
      CUDT.t K * bool * bool * list Z + CUDT.t K * bool * bool * bool) with
    | inl x => (typed x.1.1.1 /\ Forall in_u32 x.2) /\ (length x.2 < length l)%nat | inr r => typed r.1.1.1 end).
  { intros s1 cc1 ff1 H1. destruct next as [l'|]; [|done]. by destruct (Hnext l' eq_refl). }
  destruct (cmd =? SRT_CMD_SID).
  { destruct (_ || _); [done|]. apply Hgo. apply typed_config; [done|]. intros []. split; try done. by apply storage_fits. }
  destruct (cmd =? SRT_CMD_CONGESTION).
  { destruct cc; [by apply typed_reject|]. destruct (_ || _); [done|]. destruct (negb _); [by apply typed_reject|by apply Hgo]. }
  destruct (cmd =? SRT_CMD_FILTER); [|by apply Hgo].
  destruct ff; [by apply typed_reject|]. destruct (_ || _); [done|].
  destruct (checkApplyFilterConfig _ _ _ _ _ _) as [[conf z]|] eqn:Ec; [|by apply typed_reject]. apply Hgo. apply typed_config; [done|]. intros []. split; try done.
  cbn. unfold checkApplyFilterConfig in Ec. destruct (ParseFilterConfig _ _); [|done]. cbn -[effective_config] in Ec. destruct (negb _); [done|].
  destruct (effective_config _ _ _ _ _ _); [|done]. cbn in Ec. injection Ec as <- _. by apply storage_fits.
Qed.

Lemma post_typed agsm enc cc ff out s : typed s -> exists s' ok, post_checks agsm enc cc ff out s = Some (s', ok, out) /\ typed s'.
Proof.
  intros Hs. unfold post_checks. destruct (_ && _).
  { destruct (bEnforcedEnc _); [eexists _, _; split; [done|by apply typed_reject]|]. destruct (ty_crypto _ Hs) as [k ->]. eexists _, _. split; [done|by apply typed_crypto]. }
  destruct (_ && _); [eexists _, _; split; [done|by apply typed_reject]|]. destruct (_ && _); [|by eexists _, _].
  destruct (bool_decide _); eexists _, _; (split; [done|]); [by apply typed_reject|apply typed_config]; [done|]. intros []. by split.
Qed.

(** C30. [interpretSrtHandshake] returns for every packet that can arrive, with
    whatever contents and in whatever state the encryption is, and what it
    leaves behind is well typed: latencies in the range of [int], version and
    flags of 32 bits, stream ID, congestion control and filter configuration
    within their storage. *)
Theorem interpret_typed (s : CUDT.t K) (hs : CHandShake.t) (pkt : HsPacket) (have_out : bool) (now : Z) (Hs : typed s) (Hw : Forall in_u32 (pkt_words pkt)) :
  exists s' ok out, interpretSrtHandshake find_filter hs pkt have_out now s = Some (s', ok, out) /\ typed s'.
Proof.
  unfold interpretSrtHandshake. destruct (_ && _); [eexists _, _, _; split; [done|by apply typed_reject]|]. destruct (_ <? _).
  { destruct (_ && _); eexists _, _, _; (split; [done|]); auto using typed_reject. }
  destruct (_ <=? _); [eexists _, _, _; split; [done|by apply typed_reject]|]. destruct (_ =? 0); [eexists _, _, _; split; [done|by apply typed_reject]|].
  set (p := drop content_words (pkt_words pkt)). assert (Hp : Forall in_u32 p) by by apply Forall_drop.
  assert (H1 : exists s1 ok, (if IsSet (SrtHSRequest.HSFLAGS (m_iType hs)) HS_EXT_HSREQ then loop (S (length p)) (hsreq_step (pkt_timestamp pkt) now) (s, p) else Some (s, true)) = Some (s1, ok) /\ typed s1).
  { destruct (IsSet _ _); [by apply hsreq_typed|by exists s, true]. }
  destruct H1 as (s1 & ok1 & -> & Hs1). cbn [mbind option_bind]. destruct (negb ok1); [by eexists _, _, _|].
  destruct (ty_crypto _ Hs1) as [k Ek]. rewrite Ek. cbn [mbind option_bind].
  assert (H2 : exists s2 ok enc out, (if IsSet (SrtHSRequest.HSFLAGS (m_iType hs)) HS_EXT_KMREQ then
      (if negb (hasPassphrase k) && bEnforcedEnc (m_config s1) then Some (reject SRT_REJ_UNSECURE s1, false, false, []) else mjoin (loop (S (length p)) (kmreq_step have_out) (s1, p)))
      else Some (s1, true, false, [])) = Some (s2, ok, enc, out) /\ typed s2).
  { destruct (IsSet _ _); [|by eexists _, _, _, _]. destruct (_ && _); [eexists _, _, _, _; split; [done|by apply typed_reject]|].
    destruct (kmreq_typed have_out s1 p Hs1 Hp) as (s2 & ok & enc & out & -> & Hs2). by exists s2, ok, enc, out. }
  destruct H2 as (s2 & ok2 & enc & out & -> & Hs2). cbn [mbind option_bind]. destruct (negb ok2); [by eexists _, _, _|].
  set (agsm := if decide (sCongestion (m_config s2) = []) then live else _). set (s3 := if decide (sCongestion (m_config s2) = []) then on_config _ s2 else s2).
  assert (Hs3 : typed s3). { unfold s3. case_decide; [|done]. apply typed_config; [done|]. intros []. by split. }
  clearbody s3 agsm. assert (H3 : exists s4 ok cc ff, (if IsSet (SrtHSRequest.HSFLAGS (m_iType hs)) HS_EXT_CONFIG then loop (S (length p)) (config_step find_filter agsm) (s3, false, false, p)
      else Some (s3, true, false, false)) = Some (s4, ok, cc, ff) /\ typed s4).
  { destruct (IsSet _ _); [by apply config_loop_typed|by eexists _, _, _, _]. }
  destruct H3 as (s4 & ok4 & cc & ff & -> & Hs4). cbn [mbind option_bind]. destruct (negb ok4); [by eexists _, _, _|].
  destruct (post_typed agsm enc cc ff out s4 Hs4) as (s5 & ok5 & -> & Hs5). by eexists _, _, _.
Qed.
End Typed.

(** A block with a stream ID that is longer than the storage, in a packet that
    declares configuration blocks. *)
Lemma interpret_typed_witness : exists s' ok out,
  interpretSrtHandshake builtin_filter (set_m_iType HS_EXT_CONFIG sample) (mkpkt (words sample ++ block SRT_CMD_SID (replicate 200 0x41414141)) 3 7) true 9
    (set_m_pCryptoControl (Some ()) (fresh (live_config 120 0 false []) HSD_RESPONDER sample 1 7)) = Some (s', ok, out) /\ ok = false /\ typed s'.
Proof.
  set (s := set_m_pCryptoControl (Some ()) (fresh (live_config 120 0 false []) HSD_RESPONDER sample 1 7)).
  destruct (interpret_typed builtin_filter s (set_m_iType HS_EXT_CONFIG sample) (mkpkt (words sample ++ block SRT_CMD_SID (replicate 200 0x41414141)) 3 7) true 9) as (s' & ok & out & E & Ht).
  - split; cbn; try (unfold in_latency, in_u32; lia); [|by exists ()]. split; cbn; unfold in_latency, MAX_SID_LENGTH, MAX_CONG_LENGTH, MAX_PFILTER_LENGTH; lia.
  - apply Forall_app. split; [|apply list.Forall_cons; split; [|by apply Forall_replicate]].
    + repeat constructor; vm_compute; done.
    + vm_compute. done.
  - exists s', ok, out. split; [exact E|]. split; [|exact Ht]. vm_compute in E. by injection E.
Defined.
