(* ===== verification/Rendezvous.v ===== *)
(** The connection process on the side that calls [connect] (core.cpp): the
    response of the peer ([processConnectResponse], [postConnect]), the
    rendezvous state machine ([rendezvousSwitchState], [processRendezvous]),
    the blocking and the asynchronous loops around it ([startConnect],
    [processAsyncConnectRequest]) and the handshakes that a connected socket
    still receives ([processCtrlHS]). *)
From S2P Require Import Prelude Packet SeqNo Handshake FilterConfig HsExt.
Import CHandShake CUDT.

Inductive EConnectStatus := CONN_ACCEPT | CONN_REJECT | CONN_CONTINUE | CONN_RENDEZVOUS | CONN_CONFUSED | CONN_RUNNING | CONN_AGAIN.
Inductive EReadStatus := RST_OK | RST_AGAIN | RST_ERROR.

#[export] Instance EConnectStatus_eq_dec : EqDecision EConnectStatus.
Proof. solve_decision. Defined.
#[export] Instance EReadStatus_eq_dec : EqDecision EReadStatus.
Proof. solve_decision. Defined.

(** A packet that arrives: its type where it is a control packet. *)
Record Incoming := mkin { in_type : option CPacket.UDTMessageType; in_pkt : HsPacket }.
Definition is_type (ty : CPacket.UDTMessageType) (p : Incoming) : bool :=
  match in_type p with Some t => CPacket.type_value t =? CPacket.type_value ty | None => false end.
Definition is_control (p : Incoming) : bool := match in_type p with Some _ => true | None => false end.

(** What the rest of the program answers: whether the buffers could be
    allocated, the result of [setupCC], whether the socket still exists. *)
Record Env := mkenv { alloc_ok : bool; setupCC : Z; socket_exists : bool }.

(** The result of [rendezvousSwitchState]: state, response, the two flags. *)
Definition switch_result := (RendezvousState * Z * bool * bool)%type.

(** The state machine: [state] is [m_RdvState], [hsd] the role, [req] and
    [hs_flags] are what the peer's handshake says; the response that was in
    [w_rsptype] stays there in the state [RDV_INVALID]. *)
Definition switch_state (state : RendezvousState) (hsd : HandshakeSide) (req hs_flags rsptype0 : Z) : switch_result :=
  let has_extension := negb (hs_flags =? 0) in
  let invalid : switch_result := (RDV_WAVING, URQFailure SRT_REJ_ROGUE, false, false) in
  let initiator := bool_decide (hsd = HSD_INITIATOR) in
  let responder := bool_decide (hsd = HSD_RESPONDER) in
  match state with
  | RDV_INVALID => (RDV_INVALID, rsptype0, false, false)
  | RDV_WAVING =>
      if req =? URQ_WAVEAHAND then (RDV_ATTENTION, URQ_CONCLUSION, initiator, false)
      else if req =? URQ_CONCLUSION then (RDV_FINE, URQ_CONCLUSION, true, responder)
      else invalid
  | RDV_ATTENTION =>
      if req =? URQ_WAVEAHAND then (RDV_ATTENTION, URQ_CONCLUSION, initiator, false)
      else if req =? URQ_CONCLUSION then
        if initiator then
          if hs_flags =? 0 then (RDV_ATTENTION, URQ_CONCLUSION, true, false) else (RDV_CONNECTED, URQ_AGREEMENT, false, false)
        else if responder then
          if hs_flags =? 0 then (RDV_ATTENTION, URQ_CONCLUSION, false, false) else (RDV_INITIATED, URQ_CONCLUSION, true, true)
        else (RDV_INVALID, URQFailure SRT_REJ_RDVCOOKIE, false, false)
      else if req =? URQ_AGREEMENT then
        if initiator then (RDV_CONNECTED, URQ_DONE, false, false)
        else if responder then (RDV_ATTENTION, URQ_CONCLUSION, true, true)
        else invalid
      else invalid
  | RDV_FINE =>
      if req =? URQ_CONCLUSION then
        let correct_switch := if initiator && negb has_extension then false else if responder then false else true in
        if negb correct_switch then (RDV_FINE, URQ_CONCLUSION, true, responder) else (RDV_CONNECTED, URQ_AGREEMENT, false, false)
      else if req =? URQ_AGREEMENT then (RDV_CONNECTED, URQ_DONE, false, false)
      else invalid
  | RDV_INITIATED =>
      if req =? URQ_AGREEMENT then (RDV_CONNECTED, URQ_DONE, false, false)
      else if req =? URQ_CONCLUSION then (RDV_INITIATED, URQ_CONCLUSION, true, true)
      else invalid
  | RDV_CONNECTED => (RDV_CONNECTED, URQ_DONE, false, false)
  end.

Section Ops.
Context {K : Type} `{CryptoControl K} (find_filter : list Z -> option Factory).
Implicit Types s : CUDT.t K.

Definition on_ConnReq (f : CHandShake.t -> CHandShake.t) s : CUDT.t K := set_m_ConnReq (f (m_ConnReq s)) s.
(** [m_tsLastReqTime = time_point()]. *)
Definition request_now s : CUDT.t K := set_m_tsLastReqTime 0 s.

Definition rendezvousSwitchState (rsptype0 : Z) s : CUDT.t K * Z * bool * bool :=
  let '(rdv, rsp, ext, hsrsp) :=
    switch_state (m_RdvState s) (m_SrtHsSide s) (m_iReqType (m_ConnRes s)) (SrtHSRequest.HSFLAGS (m_iType (m_ConnRes s))) rsptype0 in
  (set_m_RdvState rdv s, rsp, ext, hsrsp).

Definition cookieContest s : CUDT.t K :=
  if negb (bool_decide (m_SrtHsSide s = HSD_DRAW)) then s
  else if (m_iCookie (m_ConnReq s) =? 0) || (m_iCookie (m_ConnRes s) =? 0) then s
  else set_m_SrtHsSide (backwardCompatibleCookieContest (m_iCookie (m_ConnReq s)) (m_iCookie (m_ConnRes s))) s.

(** The status, the state and the key material of the response. *)
Definition craftKmResponse s : EConnectStatus * CUDT.t K * list Z :=
  let hs_flags := SrtHSRequest.HSFLAGS (m_iType (m_ConnRes s)) in
  if IsSet hs_flags HS_EXT_KMREQ then
    match m_pCryptoControl s with
    | None => (CONN_REJECT, reject SRT_REJ_IPE s, [])
    | Some k =>
        if getKmMsg_size 0 k =? 0 then
          if (m_RcvKmState k =? SRT_KM_S_NOSECRET) || (m_RcvKmState k =? SRT_KM_S_BADSECRET) then (CONN_ACCEPT, s, [m_RcvKmState k])
          else (CONN_REJECT, reject SRT_REJ_IPE s, [])
        else (CONN_ACCEPT, s, getKmMsg_data 0 k)
    end
  else (CONN_ACCEPT, s, []).

Definition checkUpdateCryptoKeyLen (typefield : Z) s : CUDT.t K :=
  let enc_flags := SrtHSRequest.ENCFLAGS typefield in
  if (2 <=? enc_flags) && (enc_flags <=? 4) then
    let rcv_pbkeylen := SrtHSRequest.PBKEYLEN_wrap enc_flags in
    let c := m_config s in
    if iSndCryptoKeyLen c =? 0 then on_config (set_iSndCryptoKeyLen rcv_pbkeylen) s
    else if negb (iSndCryptoKeyLen c =? rcv_pbkeylen) && negb (bDataSender c) then on_config (set_iSndCryptoKeyLen rcv_pbkeylen) s
    else s
  else s.

Definition full_hdr_size : Z := 44.   (** [UDP_HDR_SIZE + HDR_SIZE] *)

Definition applyResponseSettings s : CUDT.t K * bool :=
  let res := m_ConnRes s in
  if negb (valid res) then (reject SRT_REJ_ROGUE s, false)
  else
    let s := on_config (set_iMSS (CHandShake.m_iMSS res)) s in
    let s := set_m_iMaxSRTPayloadSize (CHandShake.m_iMSS res - full_hdr_size) s in
    let s := set_m_iFlowWindowSize (CHandShake.m_iFlightFlagSize res) s in
    let s := set_m_iPeerISN (CHandShake.m_iISN res) s in
    let s := emit (E_setInitialRcvSeq (CHandShake.m_iISN res)) s in
    let s := set_m_iRcvCurrPhySeqNo (CSeqNo.decseq (CHandShake.m_iISN res)) s in
    let s := set_m_PeerID (m_iID res) s in
    (set_m_piSelfIP (m_piPeerIP res) s, true).

Definition createCrypter (side : HandshakeSide) (bidirectional : bool) s : CUDT.t K * bool :=
  match m_pCryptoControl s with
  | Some _ => (s, true)
  | None =>
      let s := set_m_SrtHsSide side s in
      let '(k, ok) := create_crypter side (m_config s) bidirectional (m_uPeerSrtVersion s) in
      (set_m_pCryptoControl (Some k) s, ok)
  end.

Definition prepareConnectionObjects (hs : CHandShake.t) (hsd : HandshakeSide) s : CUDT.t K * bool :=
  match m_pCryptoControl s with
  | Some _ => (s, true)
  | None =>
      let bidirectional := HS_VERSION_UDT4 <? m_iVersion hs in
      let hsd := if decide (hsd = HSD_DRAW) then
                   if bidirectional then HSD_RESPONDER else if bDataSender (m_config s) then HSD_INITIATOR else HSD_RESPONDER
                 else hsd in
      let '(s, ok) := createCrypter hsd bidirectional s in
      if ok then (s, true) else (reject SRT_REJ_RESOURCE s, false)
  end.

Definition prepareBuffers (env : Env) s : CUDT.t K * bool :=
  if has_buffers s then (s, true) else if alloc_ok env then (set_has_buffers true s, true) else (reject SRT_REJ_RESOURCE s, false).

Definition updateSrtRcvSettings s : CUDT.t K :=
  emit (E_rcvSettings (m_bPeerRexmitFlag s) (if m_bTsbPd s then Some (m_tsRcvPeerStartTime s, m_iTsbPdDelay_ms s) else None)) s.
Definition updateSrtSndSettings s : CUDT.t K := s.   (** only log messages *)
Definition updateAfterSrtHandshake (hsv : Z) s : CUDT.t K :=
  if HS_VERSION_UDT4 <? hsv then updateSrtSndSettings (updateSrtRcvSettings s)
  else if decide (m_SrtHsSide s = HSD_INITIATOR) then updateSrtSndSettings s
  else updateSrtRcvSettings s.

(** ** [postConnect] *)

(** The part that a rendezvous has done before: the state and the verdict. *)
Definition settle (pResponse : option Incoming) (env : Env) (now : Z) s : option (CUDT.t K * bool) :=
  match pResponse with
  | None => Some (reject SRT_REJ_IPE s, false)
  | Some p =>
      let '(s, ok) := applyResponseSettings s in
      if negb ok then Some (s, false)
      else
        let '(s, ok) := prepareConnectionObjects (m_ConnRes s) (m_SrtHsSide s) s in
        if negb ok || negb (is_control p) then Some (s, false)
        else
          '(s, ok, _) ← interpretSrtHandshake find_filter (m_ConnRes s) (in_pkt p) false now s;
          if negb ok then Some (s, false) else Some (prepareBuffers env s)
  end.

Definition postConnect (pResponse : option Incoming) (rendezvous : bool) (env : Env) (now : Z) s : option (EConnectStatus * CUDT.t K) :=
  let s := if m_iVersion (m_ConnRes s) <? HS_VERSION_SRT1 then set_m_tsRcvPeerStartTime 0 s else s in
  '(s, ok) ← (if rendezvous then Some (s, true) else settle pResponse env now s);
  if negb ok then Some (CONN_REJECT, s)
  else
    let s := updateAfterSrtHandshake (m_iVersion (m_ConnRes s)) s in
    if negb (setupCC env =? SRT_REJ_UNKNOWN) then Some (CONN_REJECT, reject (setupCC env) s)
    else
      let s := set_m_bConnecting false s in
      let s := if socket_exists env then emit E_setNewEntry (set_m_bConnected true s) else s in
      let s := emit E_removeConnector s in
      if negb (socket_exists env) then Some (CONN_REJECT, reject SRT_REJ_CLOSE s)
      else Some (CONN_ACCEPT, emit E_connected s).

(** ** [processRendezvous] *)

(** Up to the three possibilities: the roles, the state machine, the peer's
    settings, the objects of the connection.  [None] where the function
    rejects. *)
Definition rendezvous_begin (env : Env) s : CUDT.t K * option (Z * bool * bool) :=
  let s := cookieContest s in
  if decide (m_SrtHsSide s = HSD_DRAW) then (reject SRT_REJ_RDVCOOKIE s, None)
  else
    let '(s, rsp_type, needs_extension, needs_hsrsp) := rendezvousSwitchState URQ_FAILURE_TYPES s in
    if URQ_FAILURE_TYPES <? rsp_type then (reject (RejectReasonForURQ rsp_type) s, None)
    else
      let s := checkUpdateCryptoKeyLen (m_iType (m_ConnRes s)) s in
      let s := on_ConnReq (fun h => set_m_extension needs_extension (set_m_iReqType rsp_type h)) s in
      let '(s, ok) := applyResponseSettings s in
      if negb ok then (s, None)
      else
        let '(s, ok) := prepareConnectionObjects (m_ConnRes s) (m_SrtHsSide s) s in
        let '(s, ok) := if ok then prepareBuffers env s else (s, false) in
        (s, if ok then Some (rsp_type, needs_extension, needs_hsrsp) else None).

(** The status, the state and the request packet - its payload and the socket
    it is addressed to -, which is [reqpkt] where the function did not write
    it. *)
Definition rendezvous_result := option (EConnectStatus * CUDT.t K * (list Z * Z)).

(** Case 2: the request of the peer is to be answered. *)
Definition rendezvous_answer (pResponse : option HsPacket) (rst : EReadStatus) (now : Z) (reqpkt : list Z * Z) s : rendezvous_result :=
  '(cst, s, kmdata) ←
    (if decide (rst = RST_OK) then
       let s := request_now s in
       match pResponse with
       | None => Some (CONN_REJECT, reject SRT_REJ_IPE s, [] : list Z)
       | Some p =>
           '(s, ok, kmdata) ← interpretSrtHandshake find_filter (m_ConnRes s) p true now s;
           Some (if negb ok then (CONN_REJECT, s, kmdata) else (CONN_ACCEPT, updateAfterSrtHandshake HS_VERSION_SRT1 s, kmdata))
       end
     else Some (craftKmResponse s));
  if negb (bool_decide (cst = CONN_ACCEPT)) then Some (cst, s, reqpkt)
  else
    let s := on_ConnReq (set_m_extension true) s in
    '(s, req, pkt) ← createSrtHandshake SRT_CMD_HSRSP SRT_CMD_KMRSP kmdata (m_iMaxSRTPayloadSize s) (m_ConnReq s) s;
    let s := set_m_ConnReq req s in
    match pkt with
    | None => Some (CONN_REJECT, request_now s, reqpkt)
    | Some pkt => Some (CONN_CONTINUE, s, (pkt, reqpkt.2))
    end.

(** The initiator that is about to send URQ_AGREEMENT reads the response. *)
Definition rendezvous_interpret (pResponse : option HsPacket) (rst : EReadStatus) (now : Z) (needs_extension : bool) s : option (CUDT.t K * bool) :=
  if bool_decide (m_SrtHsSide s = HSD_INITIATOR) && (m_iReqType (m_ConnReq s) =? URQ_AGREEMENT) then
    '(s, ok) ←
      (match rst, pResponse with
       | RST_OK, Some p =>
           '(s, ok, _) ← interpretSrtHandshake find_filter (m_ConnRes s) p false now s;
           Some (if ok : bool then s else on_ConnReq (set_m_iReqType (URQFailure (m_RejectReason s))) s, ok)
       | _, _ => Some (s, true)
       end : option (CUDT.t K * bool));
    if negb ok then Some (s, false)
    else
      let s := if needs_extension then on_ConnReq (set_m_extension false) s else s in
      Some (updateAfterSrtHandshake HS_VERSION_SRT1 s, true)
  else Some (s, true).

(** The packet that is to be sent. *)
Definition rendezvous_request (rst : EReadStatus) (now rsp_type : Z) (reqpkt : list Z * Z) s : rendezvous_result :=
  '(s, req, pkt) ← createSrtHandshake SRT_CMD_HSREQ SRT_CMD_KMREQ [] (m_iMaxSRTPayloadSize s) (m_ConnReq s) s;
  let s := set_m_ConnReq req s in
  match pkt with
  | None => Some (CONN_REJECT, request_now s, reqpkt)
  | Some pkt =>
      if (rsp_type =? URQ_AGREEMENT) && bool_decide (m_RdvState s = RDV_CONNECTED) then
        Some (CONN_ACCEPT, emit (E_send pkt reqpkt.2) (set_m_tsLastReqTime now s), (pkt, reqpkt.2))
      else Some (CONN_CONTINUE, if decide (rst = RST_OK) then request_now s else s, (pkt, reqpkt.2))
  end.

Definition processRendezvous (pResponse : option HsPacket) (rst : EReadStatus) (env : Env) (now : Z) (reqpkt : list Z * Z) s : rendezvous_result :=
  if decide (m_RdvState s = RDV_CONNECTED) then Some (CONN_ACCEPT, s, reqpkt)
  else
    match rendezvous_begin env s with
    | (s, None) => Some (CONN_REJECT, s, reqpkt)
    | (s, Some (rsp_type, needs_extension, needs_hsrsp)) =>
        if needs_hsrsp : bool then rendezvous_answer pResponse rst now reqpkt s
        else
          '(s, ok) ← rendezvous_interpret pResponse rst now needs_extension s;
          if negb ok then Some (CONN_REJECT, s, reqpkt)
          else
            let s := on_ConnReq (set_m_extension needs_extension) s in
            '(cst, s) ← (if decide (m_RdvState s = RDV_CONNECTED) then
                           postConnect (option_map (mkin (Some CPacket.UMSG_HANDSHAKE)) pResponse) true env now s
                         else Some (CONN_ACCEPT, s));
            if decide (cst = CONN_REJECT) then Some (CONN_REJECT, s, reqpkt)
            else if rsp_type =? URQ_DONE then Some (CONN_ACCEPT, s, reqpkt)
            else rendezvous_request rst now rsp_type reqpkt s
    end.

(** ** [processConnectResponse] *)

(** What [load_from] of the packet's payload gives. *)
Definition load_packet (p : HsPacket) (h : CHandShake.t) : CHandShake.t * Z := load_from (pkt_words p) (getLength p) h.

Definition processConnectResponse (response : Incoming) (env : Env) (now : Z) s : option (EConnectStatus * CUDT.t K) :=
  if negb (m_bConnecting s) then Some (CONN_REJECT, s)
  else
    let c := m_config s in
    let hsd := if bDataSender c then HSD_INITIATOR else HSD_RESPONDER in
    let hsv5 := HS_VERSION_SRT1 <=? m_iVersion (m_ConnRes s) in
    if bRendezvous c &&
       (bool_decide (m_RdvState s = RDV_CONNECTED) || negb (is_control response) || is_type CPacket.UMSG_KEEPALIVE response ||
        is_type CPacket.UMSG_EXT response) &&
       (hsv5 || negb (m_iType (m_ConnRes s) =? 0)) then
      let s := if hsv5 then set_m_RdvState RDV_CONNECTED s else s in
      postConnect (Some response) hsv5 env now s
    else if negb (is_type CPacket.UMSG_HANDSHAKE response) then
      let s := reject SRT_REJ_ROGUE s in
      if is_control response && is_type CPacket.UMSG_SHUTDOWN response then Some (CONN_REJECT, s)
      else if bRendezvous c then Some (CONN_REJECT, s)
      else Some (CONN_CONFUSED, s)
    else
      let '(res, r) := load_packet (in_pkt response) (m_ConnRes s) in
      let s := set_m_ConnRes res s in
      if r =? -1 then Some (CONN_REJECT, reject SRT_REJ_ROGUE s)
      else if URQ_FAILURE_TYPES <=? m_iReqType res then Some (CONN_REJECT, reject (RejectReasonForURQ (m_iReqType res)) s)
      else if (CHandShake.m_iMSS res <? 0) || (1500 <? CHandShake.m_iMSS res) then Some (CONN_REJECT, reject SRT_REJ_ROGUE s)
      else if bRendezvous c then
        if m_iReqType res =? URQ_INDUCTION then Some (CONN_REJECT, reject SRT_REJ_ROGUE s)
        else if HS_VERSION_UDT4 <? m_iVersion res then Some (CONN_RENDEZVOUS, s)
        else if (m_iReqType (m_ConnReq s) =? URQ_WAVEAHAND) || (m_iReqType res =? URQ_WAVEAHAND) then
          let '(s, ok) := createCrypter hsd false s in
          if negb ok then
            Some (CONN_REJECT, request_now (on_ConnReq (set_m_iReqType (URQFailure SRT_REJ_RESOURCE)) (reject SRT_REJ_RESOURCE s)))
          else Some (CONN_CONTINUE, request_now (on_ConnReq (set_m_iReqType URQ_CONCLUSION) s))
        else postConnect (Some response) false env now s
      else if m_iReqType res =? URQ_INDUCTION then
        let s := on_ConnReq (fun h => set_m_iReqType URQ_CONCLUSION (set_m_iCookie (m_iCookie res) h)) s in
        let v5 := HS_VERSION_UDT4 <? m_iVersion res in
        if v5 && negb (SrtHSRequest.HSFLAGS (m_iType res) =? SrtHSRequest.SRT_MAGIC_CODE) then Some (CONN_REJECT, reject SRT_REJ_ROGUE s)
        else
          let s :=
            if v5 then
              let s := checkUpdateCryptoKeyLen (m_iType res) s in
              let s := on_ConnReq (fun h => set_m_extension true (set_m_iType 0 (set_m_iVersion HS_VERSION_SRT1 h))) s in
              set_m_SrtHsSide HSD_INITIATOR s
            else s in
          let s := request_now s in
          let '(s, ok) := createCrypter (if v5 then HSD_INITIATOR else hsd) v5 s in
          if negb ok then Some (CONN_REJECT, reject SRT_REJ_RESOURCE s) else Some (CONN_CONTINUE, s)
      else postConnect (Some response) false env now s.

(** ** The asynchronous mode *)

Definition processAsyncConnectResponse (pkt : Incoming) (env : Env) (now : Z) s : option (EConnectStatus * CUDT.t K) :=
  '(cst, s) ← processConnectResponse pkt env now s; Some (cst, request_now s).

Definition sendRendezvousRejection (reqpkt : list Z * Z) s : CUDT.t K :=
  let s := on_ConnReq (set_m_iReqType (URQFailure (m_RejectReason s))) s in emit (E_send (words (m_ConnReq s)) reqpkt.2) s.

(** [m_bOpened] is an argument; the result is [false] where the connection is
    to be given up. *)
Definition processAsyncConnectRequest (rst : EReadStatus) (cst : EConnectStatus) (pResponse : option HsPacket) (m_bOpened : bool) (env : Env) (now : Z) s :
    option (CUDT.t K * bool) :=
  let s := set_m_tsLastReqTime now s in
  let reqpkt : list Z * Z := ([], if bRendezvous (m_config s) then m_iID (m_ConnRes s) else 0) in
  if negb m_bOpened then Some (s, false)
  else
    match cst with
    | CONN_RENDEZVOUS =>
        '(cst, s, reqpkt) ← processRendezvous pResponse rst env now reqpkt s;
        if decide (cst = CONN_ACCEPT) then Some (s, true)
        else if negb (bool_decide (cst = CONN_CONTINUE)) then
          let s := if m_RejectReason s =? SRT_REJ_UNKNOWN then reject SRT_REJ_ROGUE s else s in
          Some (sendRendezvousRejection reqpkt s, false)
        else Some (emit (E_send reqpkt.1 reqpkt.2) (set_m_tsLastReqTime now s), true)
    | CONN_REJECT => Some (s, false)
    | _ =>
        '(s, req, pkt) ← createSrtHandshake SRT_CMD_HSREQ SRT_CMD_KMREQ [] (m_iMaxSRTPayloadSize s) (m_ConnReq s) s;
        let s := set_m_ConnReq req s in
        match pkt with
        | None => Some (s, false)
        | Some pkt => Some (emit (E_send pkt reqpkt.2) (set_m_tsLastReqTime now s), true)
        end
    end.

(** ** The blocking mode *)

(** The beginning of [startConnect]: [cookie] is the result of [bake], [isn]
    the initial sequence number, [flight] that of [flightCapacity], [ip] the
    peer's address.  The result is the request packet. *)
Definition startConnect (cookie isn flight : Z) (ip : list Z) (now : Z) s : CUDT.t K * (list Z * Z) :=
  let c := m_config s in
  let s := emit E_registerConnector s in
  let s :=
    if bRendezvous c then
      let s := on_ConnReq (fun h => set_m_iType (SrtHSRequest.wrapFlags false (iSndCryptoKeyLen c))
                 (set_m_iCookie cookie (set_m_iReqType URQ_WAVEAHAND (set_m_iVersion HS_VERSION_SRT1 (set_m_iType UDT_DGRAM h))))) s in
      set_m_SrtHsSide HSD_DRAW (set_m_RdvState RDV_WAVING s)
    else
      let s := on_ConnReq (fun h => set_m_iCookie 0 (set_m_iReqType URQ_INDUCTION (set_m_iVersion HS_VERSION_UDT4 (set_m_iType UDT_DGRAM h)))) s in
      set_m_RdvState RDV_INVALID s in
  let s := on_ConnReq (fun h => set_m_piPeerIP ip (set_m_iID (m_SocketID s) (set_m_iFlightFlagSize flight (CHandShake.set_m_iMSS (HsExt.iMSS c) h)))) s in
  let s := set_m_iISN isn (on_ConnReq (CHandShake.set_m_iISN isn) s) in
  let s := emit (E_setInitialSndSeq isn) s in
  let pkt := words (m_ConnReq s) in
  let s := set_m_bConnecting true (set_m_tsLastReqTime now s) in
  (emit (E_send pkt 0) s, (pkt, 0)).

(** How [startConnect] ends: connected, or with an exception. *)
Inductive outcome := connected | error_rejected | error_timeout | error_closed | error_security.

(** The code behind the loop. *)
Definition finish_connect (cst : EConnectStatus) (timed_out closing : bool) s : CUDT.t K * outcome :=
  let error e s := (emit E_removeConnector (set_m_bConnecting false s), e) in
  if timed_out then error error_timeout s
  else if decide (cst = CONN_REJECT) then error error_rejected s
  else if closing then error error_closed s
  else if URQ_FAILURE_TYPES <? m_iReqType (m_ConnRes s) then error error_rejected (reject (RejectReasonForURQ (m_iReqType (m_ConnRes s))) s)
  else if negb (bRendezvous (m_config s)) && negb (CHandShake.m_iISN (m_ConnRes s) =? m_iISN s) then error error_security s
  else (s, connected).

(** The request packet is sent again when the last one is 250 ms old. *)
Definition resend (now : Z) s (reqpkt : list Z * Z) : CUDT.t K * (list Z * Z) :=
  if 250 <? (now - m_tsLastReqTime s) / 1000 then
    let id := if bRendezvous (m_config s) then m_iID (m_ConnRes s) else reqpkt.2 in
    (emit (E_send reqpkt.1 id) (set_m_tsLastReqTime now s), (reqpkt.1, id))
  else (s, reqpkt).

(** One iteration of the loop at the time [now], in which [recvfrom] gives
    [input]; [late] says that the time is out at its end, [closing] is
    [m_bClosing || m_bBreaking] at its beginning.  The loop continues with
    [inl] of the state and of the request packet. *)
Definition connect_iteration (now : Z) (input : option Incoming) (late closing : bool) (env : Env) (x : CUDT.t K * (list Z * Z)) :
    option (CUDT.t K * (list Z * Z) + CUDT.t K * outcome) :=
  let '(s, reqpkt) := x in
  if closing then Some (inr (finish_connect CONN_CONTINUE false true s))
  else
    let '(s, reqpkt) := resend now s reqpkt in
    let next s reqpkt := if late then inr (finish_connect CONN_CONTINUE true false (reject SRT_REJ_TIMEOUT s)) else inl (s, reqpkt) in
    match input with
    | None => Some (next s reqpkt)
    | Some response =>
        '(cst, s) ← processConnectResponse response env now s;
        '(cst, s, reqpkt, again) ←
          (if decide (cst = CONN_RENDEZVOUS) then
             '(cst, s, reqpkt) ← processRendezvous (Some (in_pkt response)) RST_OK env now reqpkt s;
             if decide (cst = CONN_CONTINUE) then Some (cst, s, reqpkt, true)
             else if decide (cst = CONN_REJECT) then
               let s := if m_RejectReason s =? SRT_REJ_UNKNOWN then reject SRT_REJ_ROGUE s else s in
               Some (cst, sendRendezvousRejection reqpkt s, reqpkt, false)
             else Some (cst, s, reqpkt, false)
           else Some (cst, s, reqpkt, false));
        if again : bool then Some (inl (s, reqpkt))   (* [continue]: before the test of the time *)
        else
          let s := if decide (cst = CONN_REJECT) then emit E_shutdown s else s in
          if negb (bool_decide (cst = CONN_CONTINUE)) && negb (bool_decide (cst = CONN_CONFUSED)) then Some (inr (finish_connect cst false false s))
          else
            let s := request_now s in
            '(s, req, pkt) ← createSrtHandshake SRT_CMD_HSREQ SRT_CMD_KMREQ [] (m_iMaxSRTPayloadSize s) (m_ConnReq s) s;
            let s := set_m_ConnReq req s in
            match pkt with
            | None => Some (inr (finish_connect CONN_REJECT false false s))
            | Some pkt => Some (next s (pkt, reqpkt.2))
            end
    end.

(** ** A handshake for a connected socket *)

Definition processCtrlHS (ctrlpkt : HsPacket) (now : Z) s : option (CUDT.t K) :=
  let req := (load_packet ctrlpkt CHandShake.init).1 in
  let c := m_config s in
  if (URQ_INDUCTION_TYPES <? m_iReqType req) || (bRendezvous c && negb (m_iReqType req =? URQ_AGREEMENT)) then
    let reqtype := if bRendezvous c then URQ_AGREEMENT else URQ_CONCLUSION in
    let initdata version reqtype extension := CHandShake.mk version 0 (m_iISN s) (HsExt.iMSS c) (HsExt.iFlightFlagSize c) reqtype (m_SocketID s) 0 [0; 0; 0; 0] extension in
    '(s, init, kmdata) ←
      (if HS_VERSION_UDT4 <? m_iVersion req then
         let hs_flags := SrtHSRequest.HSFLAGS (m_iType (m_ConnRes s)) in
         if negb (hs_flags =? 0) then
           '(s, have_hsreq, kmdata) ← interpretSrtHandshake find_filter req ctrlpkt true now s;
           if negb have_hsreq then
             let s := reject SRT_REJ_ROGUE s in Some (s, initdata 0 (URQFailure (m_RejectReason s)) false, kmdata)
           else Some (s, initdata HS_VERSION_SRT1 reqtype (reqtype =? URQ_CONCLUSION), kmdata)
         else Some (s, initdata HS_VERSION_SRT1 reqtype false, [])
       else Some (s, initdata HS_VERSION_UDT4 reqtype false, []));
    '(s, _, pkt) ← createSrtHandshake SRT_CMD_HSRSP SRT_CMD_KMRSP kmdata (m_iMaxSRTPayloadSize s) init s;
    Some (match pkt with None => s | Some pkt => emit (E_send pkt (m_PeerID s)) s end)
  else Some s.
End Ops.
