(* ===== verification/RdvNet.v ===== *)
(** Two parties in a rendezvous: each runs the blocking loop of
    [startConnect], then serves the handshakes that still arrive; the network
    keeps the order of the packets of each direction but may lose and repeat
    them, and every packet may arrive at any time.  No party is closed or runs
    out of time, and the buffers can be allocated. *)
From S2P Require Import Prelude Packet SeqNo Handshake FilterConfig HsExt HsExtInv HsExtRun Rendezvous.
Import CHandShake CUDT.

Notation state := (CUDT.t unit).

(** What travels: handshakes, keep-alives of a side that is connected, the
    shutdown of a side that gives up. *)
Inductive msg := M_hs (payload : list Z) | M_keepalive | M_shutdown.

Definition messages (l : list effect) : list msg :=
  omap (fun e => match e with E_send w _ => Some (M_hs w) | E_shutdown => Some M_shutdown | _ => None end) l.

#[global] Arguments messages : simpl never.

Definition incoming (m : msg) (ts : Z) : Incoming :=
  match m with
  | M_hs w => mkin (Some CPacket.UMSG_HANDSHAKE) (mkpkt w 0 ts)
  | M_keepalive => mkin (Some CPacket.UMSG_KEEPALIVE) (mkpkt [] 0 ts)
  | M_shutdown => mkin (Some CPacket.UMSG_SHUTDOWN) (mkpkt [] 0 ts)
  end.

(** A party: in the loop, with its request packet; connected; given up. *)
Inductive party := Looping (s : state) (reqpkt : list Z * Z) | Joined (s : state) | Failed (s : state).

(** What a party does at the time [now]: an iteration in which nothing
    arrives, one with the first packet of its channel, which bears the
    timestamp [ts] and stays in the channel when it is repeated, a keep-alive;
    the network loses the first packet. *)
Inductive event := Tick (now : Z) | Recv (now ts : Z) (repeated : bool) | Lose | Keepalive.

Definition env_ok : Env := mkenv true SRT_REJ_UNKNOWN true.
Definition clear (s : state) : state := set_effects [] s.

Section Run.
Variable find_filter : list Z -> option Factory.

Definition after_iteration (r : state * (list Z * Z) + state * outcome) : party * list msg :=
  match r with
  | inl (s, reqpkt) => (Looping s reqpkt, messages (effects s))
  | inr (s, connected) => (Joined s, messages (effects s))
  | inr (s, _) => (Failed s, messages (effects s))
  end.

(** The party, what is left in its channel, what it sends; [None] where the
    program has no defined behaviour. *)
Definition act (p : party) (inbox : list msg) (e : event) : option (party * list msg * list msg) :=
  match e, inbox with
  | Tick now, _ =>
      match p with
      | Looping s reqpkt => r ← connect_iteration find_filter now None false false env_ok (clear s, reqpkt);
          let '(p, out) := after_iteration r in Some (p, inbox, out)
      | _ => Some (p, inbox, [])
      end
  | Recv now ts repeated, m :: rest =>
      let left_over := if repeated then inbox else rest in
      match p with
      | Looping s reqpkt => r ← connect_iteration find_filter now (Some (incoming m ts)) false false env_ok (clear s, reqpkt);
          let '(p, out) := after_iteration r in Some (p, left_over, out)
      | Joined s =>
          match m with
          | M_hs w => s ← processCtrlHS find_filter (mkpkt w 0 ts) now (clear s); Some (Joined s, left_over, messages (effects s))
          | _ => Some (p, left_over, [])
          end
      | Failed _ => Some (p, left_over, [])
      end
  | Recv _ _ _, [] => Some (p, inbox, [])
  | Lose, _ => Some (p, tail inbox, [])
  | Keepalive, _ => Some (p, inbox, match p with Joined _ => [M_keepalive] | _ => [] end)
  end.

(** The two parties and the two channels. *)
Record net := mknet { ini : party; rsp : party; to_rsp : list msg; to_ini : list msg }.

(** [inl]: an event of the first party, [inr]: one of the second. *)
Definition net_step (n : net) (e : event + event) : option net :=
  match e with
  | inl e => '(p, inbox, out) ← act (ini n) (to_ini n) e; Some (mknet p (rsp n) (to_rsp n ++ out) inbox)
  | inr e => '(p, inbox, out) ← act (rsp n) (to_rsp n) e; Some (mknet (ini n) p inbox (to_ini n ++ out))
  end.

Fixpoint net_run (n : net) (es : list (event + event)) : option net :=
  match es with [] => Some n | e :: es => n ← net_step n e; net_run n es end.
End Run.

(** ** The two parties *)

(** A party's options and what its socket and [bake] give it. *)
Record setup := mksetup { su_config : CSrtConfig; su_drop : bool; su_cookie : Z; su_isn : Z; su_id : Z; su_flight : Z; su_ip : list Z }.

(** The socket before [connect], and what [startConnect] makes of it. *)
Definition opened (a : setup) : state :=
  CUDT.mk (su_config a) HSD_DRAW SRT_REJ_UNKNOWN RDV_INVALID CHandShake.init CHandShake.init 0 0 0 0 0 false false (su_drop a) false false false 0 [] None
    false false false (HsExt.iMSS (su_config a) - full_hdr_size) 0 0 0 0 0 (su_id a) [0; 0; 0; 0] 0 [].
Definition started (a : setup) (now : Z) : state * (list Z * Z) := startConnect (su_cookie a) (su_isn a) (su_flight a) (su_ip a) now (opened a).

Definition net_start (a b : setup) (nowa nowb : Z) : net :=
  let '(sa, ra) := started a nowa in
  let '(sb, rb) := started b nowb in
  mknet (Looping sa ra) (Looping sb rb) (messages (effects sa)) (messages (effects sb)).

Record setup_ok (a : setup) : Prop := {
  su_plain : plain_config (su_config a);
  su_rdv : bRendezvous (su_config a) = true;
  su_tsbpd : bTSBPD (su_config a) = true;
  su_latency : iRcvLatency (su_config a) < 2 ^ 16 /\ iPeerLatency (su_config a) < 2 ^ 16;
  su_mss : 644 <= HsExt.iMSS (su_config a) <= 1500;
  su_sid : zlen (sStreamName (su_config a)) < 300;
  su_cookie_ok : in_i32 (su_cookie a) /\ su_cookie a <> 0;
  su_isn_ok : 0 <= su_isn a < 0x7FFFFFFF;
  su_id_ok : in_i32 (su_id a);
  su_flight_ok : 2 <= su_flight a < 2 ^ 31;
  su_cfg_flight_ok : 2 <= HsExt.iFlightFlagSize (su_config a) < 2 ^ 31;
  su_ip_ok : length (su_ip a) = 4%nat /\ Forall in_u32 (su_ip a);
}.
