(* ===== verification/RdvParty.v ===== *)
(** One party of a rendezvous: what [processRendezvous] does with each of the
    messages that can come from a peer that runs the same program. *)
From S2P Require Import Prelude Packet SeqNo Handshake FilterConfig HsExt HsExtInv HsExtRun Rendezvous RdvNet.
Import CHandShake CUDT.

(** ** Handshakes of a peer *)

Record peer_hs (h : CHandShake.t) : Prop := {
  ph_ok : hs_ok h;
  ph_version : m_iVersion h = HS_VERSION_SRT1;
  ph_valid : valid h = true;
  ph_mss : 644 <= CHandShake.m_iMSS h <= 1500;
}.

Lemma valid_iff h : valid h = true <-> HS_VERSION_UDT4 <= m_iVersion h /\ 0 <= CHandShake.m_iISN h < 0x7FFFFFFF /\ 32 <= CHandShake.m_iMSS h /\ 2 <= m_iFlightFlagSize h.
Proof.
  unfold valid. destruct (Z.ltb_spec (m_iVersion h) HS_VERSION_UDT4), (Z.ltb_spec (CHandShake.m_iISN h) 0), (Z.leb_spec 0x7FFFFFFF (CHandShake.m_iISN h)),
    (Z.ltb_spec (CHandShake.m_iMSS h) 32), (Z.ltb_spec (m_iFlightFlagSize h) 2); cbn; split; intros; (done || lia).
Qed.

(** What a handshake packet of the peer makes of the party, whatever follows
    the handshake in it. *)
Lemma response_taken h rest ts env now (s : state) : peer_hs h -> m_iReqType h <= 0 -> m_bConnecting s = true -> m_RdvState s <> RDV_CONNECTED ->
  bRendezvous (m_config s) = true -> forall ff,
  processConnectResponse ff (incoming (M_hs (words h ++ rest)) ts) env now s = Some (CONN_RENDEZVOUS, set_m_ConnRes (set_m_extension (m_extension (m_ConnRes s)) h) s).
Proof.
  intros [Hok Hv Hval Hmss] Hrq Hc Hr Hrdv ff. unfold processConnectResponse. rewrite Hc, Hrdv, (bool_decide_false _ Hr). cbn [negb incoming in_pkt].
  assert (is_control (mkin (Some CPacket.UMSG_HANDSHAKE) (mkpkt (words h ++ rest) 0 ts)) = true) as -> by done.
  assert (is_type CPacket.UMSG_KEEPALIVE (mkin (Some CPacket.UMSG_HANDSHAKE) (mkpkt (words h ++ rest) 0 ts)) = false) as -> by done.
  assert (is_type CPacket.UMSG_EXT (mkin (Some CPacket.UMSG_HANDSHAKE) (mkpkt (words h ++ rest) 0 ts)) = false) as -> by done.
  assert (is_type CPacket.UMSG_HANDSHAKE (mkin (Some CPacket.UMSG_HANDSHAKE) (mkpkt (words h ++ rest) 0 ts)) = true) as -> by done.
  cbn [negb orb andb]. unfold load_packet, getLength. cbn [pkt_words pkt_tail].
  rewrite load_words; [|done|rewrite length_app, length_words by exact (ok_ip h Hok); unfold m_iContentSize, content_words; lia].
  cbn -[words]. rewrite Hv. unfold URQ_INDUCTION, URQ_FAILURE_TYPES.
  rewrite (proj2 (Z.leb_gt 1000 _)), (proj2 (Z.ltb_ge _ 0)), (proj2 (Z.ltb_ge 1500 _)), (proj2 (Z.eqb_neq _ 1)) by lia.
  cbn -[words]. do 3 f_equal. destruct h. cbn in Hv |- *. by subst.
Qed.

(** ** Up to the decision *)

Definition begin_state (side : HandshakeSide) (rdv : RendezvousState) (rsp_type : Z) (ext : bool) (s : state) : state :=
  let h := m_ConnRes s in
  let s := set_m_RdvState rdv (set_m_SrtHsSide side s) in
  let s := on_ConnReq (fun h => set_m_extension ext (set_m_iReqType rsp_type h)) s in
  let s := set_m_iMaxSRTPayloadSize (CHandShake.m_iMSS h - full_hdr_size) (on_config (set_iMSS (CHandShake.m_iMSS h)) s) in
  let s := set_m_iPeerISN (CHandShake.m_iISN h) (set_m_iFlowWindowSize (m_iFlightFlagSize h) s) in
  let s := set_m_iRcvCurrPhySeqNo (CSeqNo.decseq (CHandShake.m_iISN h)) (emit (E_setInitialRcvSeq (CHandShake.m_iISN h)) s) in
  set_has_buffers true (set_m_pCryptoControl (Some ()) (set_m_piSelfIP (m_piPeerIP h) (set_m_PeerID (m_iID h) s))).

Lemma apply_eq (s : state) : valid (m_ConnRes s) = true -> let h := m_ConnRes s in
  applyResponseSettings s =
    (let s := set_m_iMaxSRTPayloadSize (CHandShake.m_iMSS h - full_hdr_size) (on_config (set_iMSS (CHandShake.m_iMSS h)) s) in
     let s := set_m_iPeerISN (CHandShake.m_iISN h) (set_m_iFlowWindowSize (m_iFlightFlagSize h) s) in
     let s := set_m_iRcvCurrPhySeqNo (CSeqNo.decseq (CHandShake.m_iISN h)) (emit (E_setInitialRcvSeq (CHandShake.m_iISN h)) s) in
     set_m_piSelfIP (m_piPeerIP h) (set_m_PeerID (m_iID h) s), true).
Proof. intros Hv. unfold applyResponseSettings. by rewrite Hv. Qed.

Lemma keylen_eq typefield (s : state) : SrtHSRequest.ENCFLAGS typefield = 0 -> checkUpdateCryptoKeyLen typefield s = s.
Proof. intros E. unfold checkUpdateCryptoKeyLen. by rewrite E. Qed.

Lemma prepare_eq (hs : CHandShake.t) (s : state) : m_iVersion hs = HS_VERSION_SRT1 -> m_SrtHsSide s <> HSD_DRAW ->
  prepareConnectionObjects hs (m_SrtHsSide s) s = (set_m_pCryptoControl (Some ()) s, true).
Proof.
  intros Hv Hne. unfold prepareConnectionObjects, createCrypter. destruct s; cbn in Hne |- *. destruct m_pCryptoControl0 as [[]|]; [done|]. rewrite Hv.
  by rewrite decide_False.
Qed.

Lemma buffers_eq (s : state) : prepareBuffers env_ok s = (set_has_buffers true s, true).
Proof. unfold prepareBuffers. destruct s; cbn. by destruct has_buffers0. Qed.

Lemma begin_eq s side rdv rsp_type ext hsrsp : let h := m_ConnRes s in
  peer_hs h -> SrtHSRequest.ENCFLAGS (m_iType h) = 0 ->
  m_SrtHsSide (cookieContest s) = side -> side <> HSD_DRAW ->
  switch_state (m_RdvState s) side (m_iReqType h) (SrtHSRequest.HSFLAGS (m_iType h)) URQ_FAILURE_TYPES = (rdv, rsp_type, ext, hsrsp) -> rsp_type <= 0 ->
  rendezvous_begin env_ok s = (begin_state side rdv rsp_type ext s, Some (rsp_type, ext, hsrsp)).
Proof.
  intros h [Hok Hv Hval _] Henc Hside Hne Hsw Hrsp. unfold rendezvous_begin.
  assert (Ec : cookieContest s = set_m_SrtHsSide side s).
  { revert Hside. unfold cookieContest. repeat case_match; intros <-; done || (by destruct s). }
  rewrite Ec. cbn [m_SrtHsSide set_m_SrtHsSide]. rewrite decide_False by done.
  unfold rendezvousSwitchState. cbn -[switch_state SrtHSRequest.HSFLAGS URQ_FAILURE_TYPES]. fold h. rewrite Hsw. rewrite (proj2 (Z.ltb_ge _ _)) by (unfold URQ_FAILURE_TYPES; lia).
  rewrite keylen_eq by exact Henc. rewrite apply_eq by exact Hval. cbn zeta. match goal with |- context [prepareConnectionObjects _ (m_SrtHsSide ?x) _] => set (s1 := x) end.
  rewrite (prepare_eq _ s1) by done. cbn [negb]. by rewrite buffers_eq.
Qed.

(** ** The parties and their messages *)

(** The options after any of the changes that the handshake makes. *)
Record same_options (c0 c : CSrtConfig) : Prop := {
  so_plain : plain_config c;
  so_rdv : bRendezvous c = true;
  so_tsbpd : bTSBPD c = true;
  so_rcv : iRcvLatency c = iRcvLatency c0;
  so_peer : iPeerLatency c = iPeerLatency c0;
  so_version : uSrtVersion c = uSrtVersion c0;
  so_min : uMinimumPeerSrtVersion c = uMinimumPeerSrtVersion c0;
  so_api : bMessageAPI c = bMessageAPI c0;
  so_flight : HsExt.iFlightFlagSize c = HsExt.iFlightFlagSize c0;
  so_mss : 644 <= HsExt.iMSS c <= 1500;
}.

Lemma options_mss c0 c m : same_options c0 c -> 644 <= m <= 1500 -> same_options c0 (set_iMSS m c).
Proof. intros [[] ? ? ? ? ? ? ? ? ?] Hm. by split. Qed.

Lemma options_after c0 c sid : same_options c0 c -> same_options c0 (config_after sid c).
Proof.
  intros [Hp ? ? ? ? ? ? ? ? ?]. pose proof (plain_after sid c Hp) as Hp'. destruct (config_after_options sid c) as (E1 & E2 & E3 & E4 & E5 & E6).
  assert (E7 : bRendezvous (config_after sid c) = bRendezvous c /\ HsExt.iFlightFlagSize (config_after sid c) = HsExt.iFlightFlagSize c /\
    HsExt.iMSS (config_after sid c) = HsExt.iMSS c) by (unfold config_after; by destruct (decide (sCongestion c = [])), (decide (sid = []))).
  destruct E7 as (E7 & E8 & E9). split; congruence.
Qed.

Lemma options_compatible a b ca cb : compatible (su_config a) (su_config b) -> same_options (su_config a) ca -> same_options (su_config b) cb -> compatible ca cb.
Proof. intros [] [] []. split; congruence. Qed.

(** The handshake that a party sends. *)
Definition request (a : setup) (ty rq : Z) (ext : bool) : CHandShake.t :=
  CHandShake.mk HS_VERSION_SRT1 ty (su_isn a) (HsExt.iMSS (su_config a)) (su_flight a) rq (su_id a) (su_cookie a) (su_ip a) ext.

Definition from (a : setup) (h : CHandShake.t) : Prop := peer_hs h /\ m_iCookie h = su_cookie a.

Lemma request_from a ty rq ext : setup_ok a -> in_i32 ty -> in_i32 rq -> from a (request a ty rq ext).
Proof.
  intros [? ? ? ? ? ? [? ?] ? ? ? ? [? ?]] ? ?. unfold in_i32 in *. assert (peer_hs (request a ty rq ext)); [|done].
  split; [split; cbn; unfold in_i32, HS_VERSION_SRT1; done || lia|done| |done]. apply valid_iff. cbn. unfold HS_VERSION_UDT4, HS_VERSION_SRT1. lia.
Qed.

Record party_ok (a : setup) (s : state) : Prop := {
  po_options : same_options (su_config a) (m_config s);
  po_req : exists ty rq ext, m_ConnReq s = request a ty rq ext;
  po_payload : 600 <= m_iMaxSRTPayloadSize s;
  po_isn : m_iISN s = su_isn a;
  po_id : m_SocketID s = su_id a;
  po_connecting : m_bConnecting s = true;
}.

(** The latencies of a party with the options of [a] whose peer is [b]. *)
Record latencies (a b : setup) (s : state) : Prop := {
  la_tsbpd : m_bTsbPd s = true;
  la_peer_tsbpd : m_bPeerTsbPd s = true;
  la_delay : m_iTsbPdDelay_ms s = Z.max (iRcvLatency (su_config a)) (iPeerLatency (su_config b));
  la_peer : m_iPeerTsbPdDelay_ms s = Z.max (iPeerLatency (su_config a)) (iRcvLatency (su_config b));
}.

(** The responder after the request of the initiator [a]. *)
Record negotiated (a b : setup) (s : state) : Prop := {
  ne_options : same_options (su_config b) (m_config s);
  ne_start : m_tsRcvPeerStartTime s <> 0;
  ne_version : m_uPeerSrtVersion s = uSrtVersion (su_config a);
  ne_latencies : latencies b a s;
}.

Notation sid_of a := (sStreamName (su_config a)).

(** The messages of the initiator [a], by their place in the exchange. *)
Inductive ini_msg (a : setup) : nat -> msg -> Prop :=
  | im_wave h : from a h -> m_iType h = 0 -> m_iReqType h = URQ_WAVEAHAND -> ini_msg a 0 (M_hs (words h))
  | im_request h (sI : state) : from a h -> m_iType h = ext_type (sid_of a) -> m_iReqType h = URQ_CONCLUSION -> same_options (su_config a) (m_config sI) ->
      ini_msg a 1 (M_hs (words h ++ blocks ((SRT_CMD_HSREQ, (req_fill sI).2) :: sid_block (sid_of a))))
  | im_agreement h : peer_hs h -> m_iType h = 0 -> m_iReqType h = URQ_AGREEMENT -> ini_msg a 2 (M_hs (words h))
  | im_keepalive : ini_msg a 2 M_keepalive.

(** Those of the responder [b]. *)
Inductive rsp_msg (a b : setup) : nat -> msg -> Prop :=
  | rm_wave h : from b h -> m_iType h = 0 -> m_iReqType h = URQ_WAVEAHAND -> rsp_msg a b 0 (M_hs (words h))
  | rm_bare h : from b h -> m_iType h = 0 -> m_iReqType h = URQ_CONCLUSION -> rsp_msg a b 1 (M_hs (words h))
  | rm_response h (sR : state) : from b h -> m_iType h = HS_EXT_HSREQ -> m_iReqType h = URQ_CONCLUSION -> negotiated a b sR ->
      rsp_msg a b 2 (M_hs (words h ++ blocks [(SRT_CMD_HSRSP, (rsp_fill sR).2)]))
  | rm_keepalive : rsp_msg a b 3 M_keepalive.

(** ** The cases of [processRendezvous] *)

Section Cases.
Variable find_filter : list Z -> option Factory.
Implicit Types s sI sR : state.
Notation processRendezvous := (processRendezvous find_filter).

(** What every case starts from: the party, the handshake it has received, the
    role that the contest gives it, and what the state machine says. *)
Record taken (a : setup) s (side : HandshakeSide) (rdv : RendezvousState) (rsp_type : Z) (ext hsrsp : bool) : Prop := {
  tk_setup : setup_ok a;
  tk_party : party_ok a s;
  tk_peer : peer_hs (m_ConnRes s);
  tk_enc : SrtHSRequest.ENCFLAGS (m_iType (m_ConnRes s)) = 0;
  tk_side : m_SrtHsSide (cookieContest s) = side;
  tk_role : side <> HSD_DRAW;
  tk_state : m_RdvState s <> RDV_CONNECTED;
  tk_switch : switch_state (m_RdvState s) side (m_iReqType (m_ConnRes s)) (SrtHSRequest.HSFLAGS (m_iType (m_ConnRes s))) URQ_FAILURE_TYPES = (rdv, rsp_type, ext, hsrsp);
  tk_rsp : rsp_type <= 0;
}.

Lemma taken_begin a s side rdv rsp_type ext hsrsp p now reqpkt : taken a s side rdv rsp_type ext hsrsp ->
  processRendezvous p RST_OK env_ok now reqpkt s =
    ((let s := begin_state side rdv rsp_type ext s in
     if hsrsp then rendezvous_answer find_filter p RST_OK now reqpkt s
     else (
       '(s, ok) ← rendezvous_interpret find_filter p RST_OK now ext s;
       if negb ok then Some (CONN_REJECT, s, reqpkt)
       else
         let s := on_ConnReq (set_m_extension ext) s in
         '(cst, s) ← ((if decide (m_RdvState s = RDV_CONNECTED) then
                         postConnect find_filter (option_map (mkin (Some CPacket.UMSG_HANDSHAKE)) p) true env_ok now s
                       else Some (CONN_ACCEPT, s)) : option (EConnectStatus * state));
         if decide (cst = CONN_REJECT) then Some (CONN_REJECT, s, reqpkt)
         else if rsp_type =? URQ_DONE then Some (CONN_ACCEPT, s, reqpkt)
         else rendezvous_request RST_OK now rsp_type reqpkt s : option (EConnectStatus * state * (list Z * Z))))).
Proof.
  intros [Ha Hp Hh He Hs Hr Hc Hsw Hrsp]. unfold Rendezvous.processRendezvous. rewrite decide_False by done. by rewrite (begin_eq s side rdv rsp_type ext hsrsp).
Qed.

Lemma begin_party a s side rdv rsp_type ext : party_ok a s -> peer_hs (m_ConnRes s) -> party_ok a (begin_state side rdv rsp_type ext s).
Proof.
  intros [Ho (ty & rq & e & Hr) Hp Hi Hid Hc] [_ _ _ Hm]. split; cbn -[request]; try done.
  - by apply options_mss.
  - rewrite Hr. by eexists _, _, _.
  - unfold full_hdr_size. lia.
Qed.

Lemma begin_req a s side rdv rsp_type ext : party_ok a s -> exists ty, m_ConnReq (begin_state side rdv rsp_type ext s) = request a ty rsp_type ext.
Proof. intros [_ (ty & rq & e & Hr) _ _ _ _]. exists ty. cbn. by rewrite Hr. Qed.

Lemma party_req a s ty rq ext : party_ok a s -> party_ok a (set_m_ConnReq (request a ty rq ext) s).
Proof. intros [? _ ? ? ? ?]. split; try done. by eexists _, _, _. Qed.

Lemma begin_facts s side rdv rsp_type ext : let s' := begin_state side rdv rsp_type ext s in
  m_RdvState s' = rdv /\ m_SrtHsSide s' = side /\ m_ConnRes s' = m_ConnRes s /\ m_config s' = set_iMSS (CHandShake.m_iMSS (m_ConnRes s)) (m_config s) /\
  messages (effects s') = messages (effects s).
Proof. do 4 (split; [reflexivity|]). cbn. unfold messages. rewrite omap_app. apply app_nil_r. Qed.

Lemma set_req_twice r r' s : set_m_ConnReq r (set_m_ConnReq r' s) = set_m_ConnReq r s.
Proof. reflexivity. Qed.

Lemma req_proj r s : m_ConnReq (set_m_ConnReq r s) = r /\ m_RdvState (set_m_ConnReq r s) = m_RdvState s /\ m_ConnRes (set_m_ConnReq r s) = m_ConnRes s /\
  m_config (set_m_ConnReq r s) = m_config s /\ m_iMaxSRTPayloadSize (set_m_ConnReq r s) = m_iMaxSRTPayloadSize s /\ m_SrtHsSide (set_m_ConnReq r s) = m_SrtHsSide s.
Proof. done. Qed.

(** What a case leaves behind when the party goes on in its loop. *)
Record goes_on (a : setup) (side : HandshakeSide) (rdv : RendezvousState) s s' : Prop := {
  go_party : party_ok a s';
  go_state : m_RdvState s' = rdv;
  go_side : m_SrtHsSide s' = side;
  go_res : m_ConnRes s' = m_ConnRes s;
  go_messages : messages (effects s') = messages (effects s);
}.

Lemma goes_on_req a side rdv s s' ty rq ext : goes_on a side rdv s s' -> goes_on a side rdv s (request_now (set_m_ConnReq (request a ty rq ext) s')).
Proof. intros [[? _ ? ? ? ?] ? ? ? ?]. split; [|done..]. split; try done. by eexists _, _, _. Qed.

Lemma goes_on_begin a s side rdv rsp_type ext : party_ok a s -> peer_hs (m_ConnRes s) -> goes_on a side rdv s (begin_state side rdv rsp_type ext s).
Proof. intros Hp Hh. destruct (begin_facts s side rdv rsp_type ext) as (? & ? & ? & ? & ?). by split; [apply begin_party|..]. Qed.

(** The responder has heard of the initiator, without a request. *)
Lemma rdv_bare b s rdv p now reqpkt : taken b s HSD_RESPONDER rdv URQ_CONCLUSION false false -> rdv <> RDV_CONNECTED ->
  exists s', processRendezvous (Some p) RST_OK env_ok now reqpkt s = Some (CONN_CONTINUE, s', (words (request b 0 URQ_CONCLUSION false), reqpkt.2)) /\
    goes_on b HSD_RESPONDER rdv s s'.
Proof.
  intros Ht Hrdv. rewrite (taken_begin _ _ _ _ _ _ _ _ _ _ Ht). destruct Ht as [Ha Hp Hh _ _ _ _ _ _].
  destruct (begin_req b s HSD_RESPONDER rdv URQ_CONCLUSION false Hp) as [ty Hreq]. pose proof (goes_on_begin b s HSD_RESPONDER rdv URQ_CONCLUSION false Hp Hh) as Hgo.
  generalize dependent (begin_state HSD_RESPONDER rdv URQ_CONCLUSION false s). intros s1 Hreq Hgo. exists (request_now (set_m_ConnReq (request b 0 URQ_CONCLUSION false) s1)).
  split; [|by apply goes_on_req]. destruct Hgo as [Hp1 Hrd Hsd Hres _]. unfold rendezvous_interpret. rewrite Hsd, bool_decide_false by done. cbn [andb mbind option_bind negb].
  unfold on_ConnReq. rewrite Hreq. destruct (req_proj (set_m_extension false (request b ty URQ_CONCLUSION false)) s1) as (P1 & P2 & P3 & P4 & P5 & P6).
  rewrite P2, Hrd, decide_False by done. cbn [mbind option_bind]. rewrite decide_False by done.
  change (URQ_CONCLUSION =? URQ_DONE) with false. unfold rendezvous_request. rewrite P1, P5.
  rewrite create_bare; [|rewrite P4; exact (pc_keylen _ (so_plain _ _ (po_options _ _ Hp1)))|by rewrite P3, Hres, (ph_version _ Hh)|done|done|exact (po_payload _ _ Hp1)].
  cbn [mbind option_bind]. change (URQ_CONCLUSION =? URQ_AGREEMENT) with false. cbn [andb]. rewrite decide_True, set_req_twice by done. reflexivity.
Qed.

Lemma req_fill_keeps s : let s' := (req_fill s).1 in
  m_config s' = m_config s /\ m_ConnReq s' = m_ConnReq s /\ m_RdvState s' = m_RdvState s /\ m_SrtHsSide s' = m_SrtHsSide s /\ m_ConnRes s' = m_ConnRes s /\
  m_iMaxSRTPayloadSize s' = m_iMaxSRTPayloadSize s /\ m_iISN s' = m_iISN s /\ m_SocketID s' = m_SocketID s /\ m_bConnecting s' = m_bConnecting s /\ effects s' = effects s.
Proof. cbn zeta. rewrite req_fill_state. by destruct (bTSBPD (m_config s)). Qed.

(** The initiator sends its request. *)
Lemma rdv_ask a s rdv p now reqpkt : taken a s HSD_INITIATOR rdv URQ_CONCLUSION true false -> rdv <> RDV_CONNECTED -> sStreamName (m_config s) = sid_of a ->
  exists s' sI, processRendezvous (Some p) RST_OK env_ok now reqpkt s =
      Some (CONN_CONTINUE, s', (words (request a (ext_type (sid_of a)) URQ_CONCLUSION true) ++ blocks ((SRT_CMD_HSREQ, (req_fill sI).2) :: sid_block (sid_of a)), reqpkt.2)) /\
    same_options (su_config a) (m_config sI) /\ goes_on a HSD_INITIATOR rdv s s' /\ sStreamName (m_config s') = sid_of a.
Proof.
  intros Ht Hrdv Hsid. rewrite (taken_begin _ _ _ _ _ _ _ _ _ _ Ht). destruct Ht as [Ha Hp Hh _ _ _ _ _ _].
  destruct (begin_req a s HSD_INITIATOR rdv URQ_CONCLUSION true Hp) as [ty Hreq]. pose proof (goes_on_begin a s HSD_INITIATOR rdv URQ_CONCLUSION true Hp Hh) as Hgo.
  destruct (begin_facts s HSD_INITIATOR rdv URQ_CONCLUSION true) as (_ & _ & _ & Hcf & _).
  generalize dependent (begin_state HSD_INITIATOR rdv URQ_CONCLUSION true s). intros s1 Hreq Hgo Hcf.
  destruct (req_proj (request a ty URQ_CONCLUSION true) s1) as (P1 & P2 & P3 & P4 & P5 & P6).
  set (s2 := set_m_ConnReq (request a ty URQ_CONCLUSION true) s1) in *. destruct (req_fill_keeps s2) as (F1 & F2 & F3 & F4 & F5 & F6 & F7 & F8 & F9 & F10).
  assert (Hsid1 : sStreamName (m_config s1) = sid_of a) by by rewrite Hcf. destruct Hgo as [Hp1 Hrd Hsd Hres Hmsg].
  exists (request_now (set_m_ConnReq (request a (ext_type (sid_of a)) URQ_CONCLUSION true) (req_fill s2).1)), s2.
  split; [|split; [by rewrite P4; apply po_options|split; [|cbn; by rewrite F1]]].
  - unfold rendezvous_interpret. rewrite Hreq. cbn [m_iReqType request]. change (URQ_CONCLUSION =? URQ_AGREEMENT) with false. rewrite andb_false_r. cbn [mbind option_bind negb].
    unfold on_ConnReq. rewrite Hreq. change (set_m_extension true (request a ty URQ_CONCLUSION true)) with (request a ty URQ_CONCLUSION true). fold s2.
    rewrite P2, Hrd, decide_False by done. cbn [mbind option_bind]. rewrite decide_False by done.
    change (URQ_CONCLUSION =? URQ_DONE) with false. unfold rendezvous_request. rewrite P1, P5.
    destruct Ha as [_ _ _ _ _ Hlen _ _ _ _ _ [Hip _]]. pose proof (po_payload _ _ Hp1) as Hpay.
    rewrite create_req; [|rewrite P4; exact (so_plain _ _ (po_options _ _ Hp1))|by rewrite P6, Hsd|by rewrite P3, Hres, (ph_version _ Hh)|done..| |done].
    2:{ rewrite P4, P5, Hsid1. Z.to_euclidean_division_equations. lia. }
    cbn [mbind option_bind]. change (URQ_CONCLUSION =? URQ_AGREEMENT) with false. cbn [andb]. rewrite decide_True, P4, Hsid1 by done. reflexivity.
  - apply goes_on_req. split; rewrite ?F3, ?F4, ?F5, ?F10, ?P2, ?P3, ?P6; try done. destruct Hp1 as [? _ ? ? ? ?].
    split; rewrite ?F1, ?F6, ?F7, ?F8, ?F9; try done. rewrite F2. by eexists _, _, _.
Qed.

(** The fields that the negotiation leaves alone. *)
Lemma core_keeps s s' : core s' = core s ->
  m_config s' = m_config s /\ m_ConnReq s' = m_ConnReq s /\ m_RdvState s' = m_RdvState s /\ m_SrtHsSide s' = m_SrtHsSide s /\ m_ConnRes s' = m_ConnRes s /\
  m_iMaxSRTPayloadSize s' = m_iMaxSRTPayloadSize s /\ m_iISN s' = m_iISN s /\ m_SocketID s' = m_SocketID s /\ m_bConnecting s' = m_bConnecting s /\ effects s' = effects s.
Proof.
  intros E. split_and!; [exact (f_equal m_config E)|exact (f_equal m_ConnReq E)|exact (f_equal m_RdvState E)|exact (f_equal m_SrtHsSide E)|exact (f_equal m_ConnRes E)|
    exact (f_equal m_iMaxSRTPayloadSize E)|exact (f_equal m_iISN E)|exact (f_equal m_SocketID E)|exact (f_equal m_bConnecting E)|exact (f_equal effects E)].
Qed.

(** What follows the interpretation of a packet: its configuration blocks and
    the settings. *)
Definition settled (sid : list Z) s : state := updateAfterSrtHandshake HS_VERSION_SRT1 (on_config (config_after sid) (handshakeDone s)).

Lemma settled_keeps sid s : let s' := settled sid s in
  m_config s' = config_after sid (m_config s) /\ m_ConnReq s' = m_ConnReq s /\ m_RdvState s' = m_RdvState s /\ m_SrtHsSide s' = m_SrtHsSide s /\ m_ConnRes s' = m_ConnRes s /\
  m_iMaxSRTPayloadSize s' = m_iMaxSRTPayloadSize s /\ m_iISN s' = m_iISN s /\ m_SocketID s' = m_SocketID s /\ m_bConnecting s' = m_bConnecting s /\
  messages (effects s') = messages (effects s).
Proof. split_and!; try done. cbn. unfold messages. rewrite omap_app. apply app_nil_r. Qed.

Lemma settled_latencies sid s : let s' := settled sid s in
  m_tsRcvPeerStartTime s' = m_tsRcvPeerStartTime s /\ m_uPeerSrtVersion s' = m_uPeerSrtVersion s /\ m_bTsbPd s' = m_bTsbPd s /\ m_bPeerTsbPd s' = m_bPeerTsbPd s /\
  m_iTsbPdDelay_ms s' = m_iTsbPdDelay_ms s /\ m_iPeerTsbPdDelay_ms s' = m_iPeerTsbPdDelay_ms s.
Proof. done. Qed.

Lemma small_latency a s : setup_ok a -> same_options (su_config a) (m_config s) ->
  iRcvLatency (m_config s) mod 2 ^ 16 = iRcvLatency (su_config a) /\ iPeerLatency (m_config s) mod 2 ^ 16 = iPeerLatency (su_config a).
Proof.
  intros Ha Hs. destruct (su_latency _ Ha) as [Hr Hp]. pose proof (pc_rcv _ (su_plain _ Ha)). pose proof (pc_peer _ (su_plain _ Ha)).
  rewrite (so_rcv _ _ Hs), (so_peer _ _ Hs). by rewrite !Z.mod_small by lia.
Qed.

(** A request that arrives at a state with the options of the responder. *)
Lemma request_arrives a b sI s ts now : setup_ok a -> compatible (su_config a) (su_config b) -> same_options (su_config a) (m_config sI) ->
  same_options (su_config b) (m_config s) -> ts < now ->
  exists s', processSrtMsg_HSREQ (req_fill sI).2 12 ts HS_VERSION_SRT1 now s = (s', SRT_CMD_HSRSP) /\ core s' = core s /\ m_tsRcvPeerStartTime s' <> 0 /\
    m_uPeerSrtVersion s' = uSrtVersion (su_config a) /\ latencies b a s'.
Proof.
  intros Ha Hco HI Hs Hts. destruct (small_latency a sI Ha HI) as [E1 E2].
  destruct (process_req sI s ts now (so_plain _ _ HI) (options_compatible _ _ _ _ Hco HI Hs)) as (s' & Hproc & [R1 R2 R3 R4 R5 _ R7 R8 _]).
  exists s'. split; [done|]. split; [done|]. rewrite R2, R5. split; [lia|]. split; [exact (so_version _ _ HI)|].
  rewrite (so_tsbpd _ _ HI), (so_tsbpd _ _ Hs) in *. rewrite orb_true_r in R7, R8. split; [done..|exact R7|exact R8| |]; cbn [andb] in *.
  - by rewrite R3, E2, (so_rcv _ _ Hs).
  - by rewrite R4, E1, (so_peer _ _ Hs).
Qed.

Lemma rsp_fill_req r s : (rsp_fill (set_m_ConnReq r s)).2 = (rsp_fill s).2.
Proof. unfold rsp_fill, fillSrtHandshake_HSRSP. cbn. destruct (m_tsRcvPeerStartTime s =? 0), (bTSBPD (m_config s)), (m_bPeerTsbPd s); reflexivity. Qed.

(** The responder answers the initiator's request. *)
Lemma rdv_answer a b s sI h e rdv ts now reqpkt : taken b s HSD_RESPONDER rdv URQ_CONCLUSION true true -> setup_ok a -> compatible (su_config a) (su_config b) ->
  m_ConnRes s = set_m_extension e h -> from a h -> m_iType h = ext_type (sid_of a) -> same_options (su_config a) (m_config sI) -> ts < now ->
  exists s', processRendezvous (Some (mkpkt (words h ++ blocks ((SRT_CMD_HSREQ, (req_fill sI).2) :: sid_block (sid_of a))) 0 ts)) RST_OK env_ok now reqpkt s =
      Some (CONN_CONTINUE, s', (words (request b HS_EXT_HSREQ URQ_CONCLUSION true) ++ blocks [(SRT_CMD_HSRSP, (rsp_fill s').2)], reqpkt.2)) /\
    goes_on b HSD_RESPONDER rdv s s' /\ negotiated a b s' /\ m_ConnReq s' = request b HS_EXT_HSREQ URQ_CONCLUSION true.
Proof.
  intros Ht Hsa Hco Eres [Hfrom _] Hty HI Hts. rewrite (taken_begin _ _ _ _ _ _ _ _ _ _ Ht). destruct Ht as [Ha Hp Hh _ _ _ _ _ _]. cbn zeta.
  destruct (begin_req b s HSD_RESPONDER rdv URQ_CONCLUSION true Hp) as [ty Hreq]. pose proof (goes_on_begin b s HSD_RESPONDER rdv URQ_CONCLUSION true Hp Hh) as Hgo.
  generalize dependent (begin_state HSD_RESPONDER rdv URQ_CONCLUSION true s). intros s1 Hreq [Hp1 Hrd Hsd Hres Hmsg].
  pose proof (po_options _ _ Hp1) as Ho1.
  destruct (request_arrives a b sI (request_now s1) ts now Hsa Hco HI Ho1 Hts) as (s2 & Hproc & Hcore & Hstart & Hver & Hlat).
  destruct (core_keeps _ _ Hcore) as (K1 & K2 & K3 & K4 & K5 & K6 & K7 & K8 & K9 & K10).
  pose proof (settled_keeps (sid_of a) s2) as (S1 & S2 & S3 & S4 & S5 & S6 & S7 & S8 & S9 & S10).
  pose proof (settled_latencies (sid_of a) s2) as (L1 & L2 & L3 & L4 & L5 & L6).
  assert (Ho3 : same_options (su_config b) (m_config (settled (sid_of a) s2))) by (rewrite S1, K1; by apply options_after).
  unfold rendezvous_answer. rewrite decide_True by done. rewrite (interpret_plain find_filter SRT_CMD_HSREQ (req_fill sI).2 (sid_of a) (request_now s1) s2).
  2:{ by left. } 2:{ rewrite K1. exact (so_plain _ _ Ho1). }
  2:{ cbn. rewrite Hres. exact (ph_version _ Hh). } 2:{ cbn. by rewrite Hres, Eres. } 2:{ apply req_fill_length. }
  2:{ exact (pc_sid _ (su_plain _ Hsa)). }
  2:{ eexists. split; [|reflexivity]. apply length_words, (ok_ip h), ph_ok, Hfrom. } 2:{ done. }
  cbn [mbind option_bind negb]. fold (settled (sid_of a) s2). generalize dependent (settled (sid_of a) s2). intros s3 S1 S2 S3 S4 S5 S6 S7 S8 S9 S10 L1 L2 L3 L4 L5 L6 Ho3.
  rewrite bool_decide_true by done. cbn [negb]. unfold on_ConnReq. rewrite S2, K2. change (m_ConnReq (request_now s1)) with (m_ConnReq s1). rewrite Hreq.
  change (set_m_extension true (request b ty URQ_CONCLUSION true)) with (request b ty URQ_CONCLUSION true).
  destruct (req_proj (request b ty URQ_CONCLUSION true) s3) as (P1 & P2 & P3 & P4 & P5 & P6). rewrite P1, P5.
  destruct Ha as [_ _ _ _ _ _ _ _ _ _ _ [Hip _]]. pose proof (po_payload _ _ Hp1) as Hpay.
  rewrite create_rsp; [|rewrite P4; exact (so_plain _ _ Ho3)|rewrite P3, S5, K5; cbn; by rewrite Hres, (ph_version _ Hh)|by rewrite (eq_refl : m_tsRcvPeerStartTime (set_m_ConnReq _ s3) = m_tsRcvPeerStartTime s3), L1|done..|by rewrite S6, K6].
  cbn [mbind option_bind]. rewrite set_req_twice, rsp_fill_req. exists (set_m_ConnReq (request b HS_EXT_HSREQ URQ_CONCLUSION true) s3).
  rewrite rsp_fill_req. split; [reflexivity|]. split; [|split; [|done]].
  - split; [split|..]; try done; cbn; rewrite ?S3, ?S4, ?S5, ?S6, ?S7, ?S8, ?S9, ?S10, ?K3, ?K4, ?K5, ?K6, ?K7, ?K8, ?K9, ?K10; try done; try apply Hp1. by eexists _, _, _.
  - destruct Hlat as [Q1 Q2 Q3 Q4]. split; [done|cbn; by rewrite L1|cbn; by rewrite L2|]. split; cbn; congruence.
Qed.

(** ** Joining *)

Record joined (a b : setup) s : Prop := {
  jo_options : same_options (su_config a) (m_config s);
  jo_latencies : latencies a b s;
  jo_version : m_iVersion (m_ConnRes s) = HS_VERSION_SRT1;
  jo_payload : 600 <= m_iMaxSRTPayloadSize s;
  jo_isn : m_iISN s = su_isn a;
  jo_id : m_SocketID s = su_id a;
}.

(** What [postConnect] does at the end of a rendezvous. *)
Definition join_state s : state :=
  emit E_connected (emit E_removeConnector (emit E_setNewEntry (set_m_bConnected true (set_m_bConnecting false (updateAfterSrtHandshake HS_VERSION_SRT1 s))))).

Lemma join_eq p now s : m_iVersion (m_ConnRes s) = HS_VERSION_SRT1 -> postConnect find_filter p true env_ok now s = Some (CONN_ACCEPT, join_state s).
Proof. intros Hv. unfold postConnect. rewrite Hv. change (HS_VERSION_SRT1 <? HS_VERSION_SRT1) with false. cbn [mbind option_bind]. by rewrite Hv. Qed.

Lemma join_keeps s : let s' := join_state s in
  m_config s' = m_config s /\ m_ConnReq s' = m_ConnReq s /\ m_RdvState s' = m_RdvState s /\ m_SrtHsSide s' = m_SrtHsSide s /\ m_ConnRes s' = m_ConnRes s /\
  m_iMaxSRTPayloadSize s' = m_iMaxSRTPayloadSize s /\ m_iISN s' = m_iISN s /\ m_SocketID s' = m_SocketID s /\ messages (effects s') = messages (effects s).
Proof. split_and!; try done. cbn. unfold messages. by rewrite !omap_app, !app_nil_r. Qed.

Lemma join_latencies s : let s' := join_state s in
  m_bTsbPd s' = m_bTsbPd s /\ m_bPeerTsbPd s' = m_bPeerTsbPd s /\ m_iTsbPdDelay_ms s' = m_iTsbPdDelay_ms s /\ m_iPeerTsbPdDelay_ms s' = m_iPeerTsbPdDelay_ms s.
Proof. done. Qed.

Lemma join_joined a b s : party_ok a s -> latencies a b s -> m_iVersion (m_ConnRes s) = HS_VERSION_SRT1 -> joined a b (join_state s).
Proof. intros [] [] Hv. by split; [|split|..]. Qed.

(** A response that arrives at a state with the options of the initiator. *)
Lemma response_arrives a b sR s ts now : setup_ok a -> setup_ok b -> compatible (su_config a) (su_config b) -> negotiated a b sR ->
  same_options (su_config a) (m_config s) ->
  exists s', processSrtMsg_HSRSP (rsp_fill sR).2 12 ts HS_VERSION_SRT1 now s = (s', SRT_CMD_NONE) /\ core s' = core s /\ latencies a b s'.
Proof.
  intros Ha Hb Hco [HR Hst Hv [Q1 Q2 Q3 Q4]] Hs. pose proof (pc_version _ (su_plain _ Ha)) as Hva.
  destruct (process_rsp sR s ts now (so_plain _ _ HR) (options_compatible _ _ _ _ Hco Hs HR) Hst) as (s' & Hproc & [R1 R2 R3 R4 R5 R6 R7]);
    [rewrite Hv; unfold SRT_VERSION_FEAT_HSv5, SrtVersion in *; lia|].
  exists s'. split; [done|]. split; [done|]. rewrite (so_tsbpd _ _ HR), (so_tsbpd _ _ Hs), Q2, Q3, Q4 in *. rewrite orb_true_r in R6, R7. cbn [andb] in *.
  destruct (su_latency _ Ha), (su_latency _ Hb).
  pose proof (pc_rcv _ (su_plain _ Ha)). pose proof (pc_peer _ (su_plain _ Ha)). pose proof (pc_rcv _ (su_plain _ Hb)). pose proof (pc_peer _ (su_plain _ Hb)).
  split; [exact R6|exact R7|rewrite R3|rewrite R4]; rewrite Z.mod_small by lia; apply Z.max_comm.
Qed.

(** The agreement: the responder, which has answered, is connected. *)
Lemma rdv_agreed a b s p now reqpkt : taken b s HSD_RESPONDER RDV_CONNECTED URQ_DONE false false -> latencies b a s ->
  exists s', processRendezvous (Some p) RST_OK env_ok now reqpkt s = Some (CONN_ACCEPT, s', reqpkt) /\ joined b a s' /\ messages (effects s') = messages (effects s) /\
    m_ConnRes s' = m_ConnRes s.
Proof.
  intros Ht Hlat. rewrite (taken_begin _ _ _ _ _ _ _ _ _ _ Ht). destruct Ht as [Ha Hp Hh _ _ _ _ _ _]. cbn zeta.
  destruct (begin_req b s HSD_RESPONDER RDV_CONNECTED URQ_DONE false Hp) as [ty Hreq]. pose proof (goes_on_begin b s HSD_RESPONDER RDV_CONNECTED URQ_DONE false Hp Hh) as Hgo.
  assert (Hlat1 : latencies b a (begin_state HSD_RESPONDER RDV_CONNECTED URQ_DONE false s)) by (destruct Hlat; by split).
  generalize dependent (begin_state HSD_RESPONDER RDV_CONNECTED URQ_DONE false s). intros s1 Hreq [Hp1 Hrd Hsd Hres Hmsg] Hlat1.
  unfold rendezvous_interpret. rewrite Hsd, bool_decide_false by done. cbn [andb mbind option_bind negb].
  unfold on_ConnReq. rewrite Hreq. destruct (req_proj (set_m_extension false (request b ty URQ_DONE false)) s1) as (P1 & P2 & P3 & P4 & P5 & P6).
  rewrite P2, Hrd, decide_True by done. rewrite join_eq by (rewrite P3, Hres; exact (ph_version _ Hh)). cbn [mbind option_bind]. rewrite decide_False by done.
  change (URQ_DONE =? URQ_DONE) with true. eexists. split; [reflexivity|].
  change (set_m_extension false (request b ty URQ_DONE false)) with (request b ty URQ_DONE false) in *.
  destruct (join_keeps (set_m_ConnReq (request b ty URQ_DONE false) s1)) as (_ & _ & _ & _ & K5 & _ & _ & _ & K9). split; [|split].
  - apply join_joined; [by apply party_req|destruct Hlat1; by split|rewrite P3, Hres; exact (ph_version _ Hh)].
  - rewrite K9. exact Hmsg.
  - by rewrite K5, P3.
Qed.

(** The response: the initiator is connected and says so. *)
Lemma rdv_response a b s sR h e ts now reqpkt : taken a s HSD_INITIATOR RDV_CONNECTED URQ_AGREEMENT false false -> setup_ok b ->
  compatible (su_config a) (su_config b) -> m_ConnRes s = set_m_extension e h -> from b h -> m_iType h = HS_EXT_HSREQ -> negotiated a b sR ->
  exists s', processRendezvous (Some (mkpkt (words h ++ blocks [(SRT_CMD_HSRSP, (rsp_fill sR).2)]) 0 ts)) RST_OK env_ok now reqpkt s =
      Some (CONN_ACCEPT, s', (words (request a 0 URQ_AGREEMENT false), reqpkt.2)) /\
    joined a b s' /\ messages (effects s') = messages (effects s) ++ [M_hs (words (request a 0 URQ_AGREEMENT false))] /\ m_ConnRes s' = m_ConnRes s.
Proof.
  intros Ht Hsb Hco Eres [Hfrom _] Hty HR. rewrite (taken_begin _ _ _ _ _ _ _ _ _ _ Ht). destruct Ht as [Ha Hp Hh _ _ _ _ _ _]. cbn zeta.
  destruct (begin_req a s HSD_INITIATOR RDV_CONNECTED URQ_AGREEMENT false Hp) as [ty Hreq].
  pose proof (goes_on_begin a s HSD_INITIATOR RDV_CONNECTED URQ_AGREEMENT false Hp Hh) as Hgo.
  generalize dependent (begin_state HSD_INITIATOR RDV_CONNECTED URQ_AGREEMENT false s). intros s1 Hreq [Hp1 Hrd Hsd Hres Hmsg].
  pose proof (po_options _ _ Hp1) as Ho1.
  destruct (response_arrives a b sR s1 ts now Ha Hsb Hco HR Ho1) as (s2 & Hproc & Hcore & Hlat).
  destruct (core_keeps _ _ Hcore) as (K1 & K2 & K3 & K4 & K5 & K6 & K7 & K8 & K9 & K10).
  pose proof (settled_keeps [] s2) as (S1 & S2 & S3 & S4 & S5 & S6 & S7 & S8 & S9 & S10).
  assert (Hlat3 : latencies a b (settled [] s2)) by (destruct Hlat; by split).
  assert (Ho3 : same_options (su_config a) (m_config (settled [] s2))) by (rewrite S1, K1; by apply options_after).
  unfold rendezvous_interpret. rewrite Hsd, Hreq. change (m_iReqType (request a ty URQ_AGREEMENT false) =? URQ_AGREEMENT) with true. rewrite bool_decide_true by done. cbn [andb].
  rewrite (interpret_plain find_filter SRT_CMD_HSRSP (rsp_fill sR).2 [] s1 s2).
  2:{ by right. } 2:{ rewrite K1. exact (so_plain _ _ Ho1). }
  2:{ rewrite Hres. exact (ph_version _ Hh). } 2:{ by rewrite Hres, Eres. } 2:{ apply rsp_fill_length. exact (ne_start _ _ _ HR). }
  2:{ done. }
  2:{ eexists. split; [|reflexivity]. apply length_words, (ok_ip h), ph_ok, Hfrom. } 2:{ done. }
  cbn [mbind option_bind negb]. fold (settled [] s2). generalize dependent (settled [] s2). intros s3 S1 S2 S3 S4 S5 S6 S7 S8 S9 S10 Hlat3 Ho3.
  unfold on_ConnReq. rewrite S2, K2, Hreq. change (set_m_extension false (request a ty URQ_AGREEMENT false)) with (request a ty URQ_AGREEMENT false).
  destruct (req_proj (request a ty URQ_AGREEMENT false) s3) as (P1 & P2 & P3 & P4 & P5 & P6).
  set (s4 := set_m_ConnReq (request a ty URQ_AGREEMENT false) s3) in *. assert (Hres4 : m_ConnRes s4 = m_ConnRes s) by by rewrite P3, S5, K5.
  assert (Hp4 : party_ok a s4).
  { split; rewrite ?P1, ?P4, ?P5; try done; [by eexists _, _, _|rewrite S6, K6; by apply Hp1|..]; cbn; rewrite ?S7, ?S8, ?S9, ?K7, ?K8, ?K9; by apply Hp1. }
  assert (Hlat4 : latencies a b s4) by (destruct Hlat3; by split).
  assert (Hm4 : messages (effects s4) = messages (effects s)) by (change (effects s4) with (effects s3); by rewrite S10, K10). 
  rewrite P2, S3, K3, Hrd, decide_True by done. rewrite join_eq by (rewrite Hres4; exact (ph_version _ Hh)). cbn [mbind option_bind]. rewrite decide_False by done.
  change (URQ_AGREEMENT =? URQ_DONE) with false. destruct (join_keeps s4) as (J1 & J2 & J3 & J4 & J5 & J6 & J7 & J8 & J9).
  assert (Hj : joined a b (join_state s4)) by (apply join_joined; [done..|rewrite Hres4; exact (ph_version _ Hh)]).
  assert (Hrd4 : m_RdvState s4 = RDV_CONNECTED) by congruence. clearbody s4. generalize dependent (join_state s4). intros s5 J1 J2 J3 J4 J5 J6 J7 J8 J9 Hj.
  unfold rendezvous_request. rewrite J2, J6, P1.
  rewrite create_bare; [|exact (pc_keylen _ (so_plain _ _ (jo_options _ _ _ Hj)))|rewrite J5, Hres4, (ph_version _ Hh); done|done|done|rewrite <- J6; exact (jo_payload _ _ _ Hj)].
  cbn [mbind option_bind]. change (URQ_AGREEMENT =? URQ_AGREEMENT) with true. rewrite bool_decide_true by (change (m_RdvState s5 = RDV_CONNECTED); congruence).
  cbn [andb]. eexists. split; [reflexivity|]. split; [|split].
  - destruct Hj as [? [] ? ? ? ?]. by split; [|split|..].
  - cbn. unfold messages. rewrite omap_app. fold (messages (effects s5)). by rewrite J9, Hm4.
  - cbn. by rewrite J5, Hres4.
Qed.
End Cases.
