(* ===== verification/RdvStep.v ===== *)
(** The steps of one party of a rendezvous: the invariants of the initiator and
    of the responder, by how far the party has come, and that every event
    keeps them. *)
From S2P Require Import Prelude Packet SeqNo Handshake FilterConfig HsExt HsExtInv HsExtRun Rendezvous RdvNet RdvParty.
Import CHandShake CUDT.

(** ** Channels *)

(** A channel holds messages in the order of their places in the exchange. *)
Inductive chan (P : nat -> msg -> Prop) : nat -> nat -> list msg -> Prop :=
  | chan_nil lo hi : chan P lo hi []
  | chan_cons lo hi r m l : P r m -> (lo <= r)%nat -> (r <= hi)%nat -> chan P r hi l -> chan P lo hi (m :: l).

Lemma chan_weaken P lo hi lo' hi' l : chan P lo hi l -> (lo' <= lo)%nat -> (hi <= hi')%nat -> chan P lo' hi' l.
Proof.
  intros Hc. revert lo'. induction Hc as [|lo hi r m l Hm H1 H2 Hc IH]; intros lo' Hlo Hhi; [constructor|].
  apply (chan_cons P lo' hi' r); [done|lia..|]. apply IH; lia.
Qed.

Lemma chan_app P lo mid hi l l' : chan P lo mid l -> chan P mid hi l' -> (lo <= mid)%nat -> (mid <= hi)%nat -> chan P lo hi (l ++ l').
Proof.
  intros Hc Hc' Hlo Hhi. induction Hc as [lo mid|lo mid r m l Hm H1 H2 Hc IH]; [by apply (chan_weaken P mid hi)|].
  cbn. apply (chan_cons P lo hi r); [done|lia..|]. apply IH; done || lia.
Qed.

Lemma chan_one P r m : P r m -> chan P r r [m].
Proof. intros. apply (chan_cons P r r r); [done|lia..|constructor]. Qed.

(** ** An iteration of the loop *)

Section Iteration.
Variable find_filter : list Z -> option Factory.
Implicit Types s : state.

(** States that differ in what was sent and when. *)
Definition as_before s s' : Prop := exists l ts, s' = set_effects l (set_m_tsLastReqTime ts s).

Lemma resend_spec now s reqpkt : exists s' id, resend now (clear s) reqpkt = (s', (reqpkt.1, id)) /\ as_before s s' /\
  (messages (effects s') = [] \/ messages (effects s') = [M_hs reqpkt.1]) /\
  (250 < (now - m_tsLastReqTime s) / 1000 -> messages (effects s') = [M_hs reqpkt.1]).
Proof.
  unfold resend. change (m_tsLastReqTime (clear s)) with (m_tsLastReqTime s). destruct (Z.ltb_spec 250 ((now - m_tsLastReqTime s) / 1000)).
  - eexists _, _. split; [reflexivity|]. split; [by eexists _, _|]. split; [by right|done].
  - exists (clear s), reqpkt.2. split; [by destruct reqpkt|]. split; [|split; [by left|lia]]. exists [], (m_tsLastReqTime s). by destruct s.
Qed.

Lemma party_before a s s' : as_before s s' -> party_ok a s -> party_ok a s'.
Proof. intros (l & ts & ->) []. by split. Qed.
Lemma negotiated_before a b s s' : as_before s s' -> negotiated a b s -> negotiated a b s'.
Proof. intros (l & ts & ->) [? ? ? []]. by split; [..|split]. Qed.
Lemma fields_before s s' : as_before s s' -> m_RdvState s' = m_RdvState s /\ m_SrtHsSide s' = m_SrtHsSide s /\ m_config s' = m_config s /\
  m_ConnRes s' = m_ConnRes s /\ m_ConnReq s' = m_ConnReq s.
Proof. by intros (l & ts & ->). Qed.

Lemma tick_eq now s reqpkt : connect_iteration find_filter now None false false env_ok (clear s, reqpkt) = Some (inl (resend now (clear s) reqpkt)).
Proof. unfold connect_iteration. by destruct (resend now (clear s) reqpkt). Qed.

(** A party in the loop sends its packet again when it has waited long enough. *)
Lemma looping_says s reqpkt inbox : exists now s' reqpkt', act find_filter (Looping s reqpkt) inbox (Tick now) = Some (Looping s' reqpkt', inbox, [M_hs reqpkt.1]).
Proof.
  exists (m_tsLastReqTime s + 1000000). cbn [act]. rewrite tick_eq. destruct (resend_spec (m_tsLastReqTime s + 1000000) s reqpkt) as (s' & id & -> & _ & _ & Hdue).
  cbn [mbind option_bind after_iteration]. eexists _, _. rewrite Hdue; [done|]. replace (m_tsLastReqTime s + 1000000 - m_tsLastReqTime s) with 1000000 by lia. done.
Qed.

(** A handshake arrives, and the loop goes on or ends. *)
Lemma recv_continues now h rest ts s s1 s2 reqpkt reqpkt1 reqpkt2 : peer_hs h -> m_iReqType h <= 0 ->
  resend now (clear s) reqpkt = (s1, reqpkt1) -> m_bConnecting s1 = true -> m_RdvState s1 <> RDV_CONNECTED -> bRendezvous (m_config s1) = true ->
  processRendezvous find_filter (Some (mkpkt (words h ++ rest) 0 ts)) RST_OK env_ok now reqpkt1 (set_m_ConnRes (set_m_extension (m_extension (m_ConnRes s1)) h) s1) =
    Some (CONN_CONTINUE, s2, reqpkt2) ->
  connect_iteration find_filter now (Some (incoming (M_hs (words h ++ rest)) ts)) false false env_ok (clear s, reqpkt) = Some (inl (s2, reqpkt2)).
Proof.
  intros Hh Hrq Hre Hc Hr Hrdv Hproc. unfold connect_iteration. rewrite Hre, response_taken by done. cbn [mbind option_bind]. rewrite decide_True by done.
  change (in_pkt (incoming (M_hs (words h ++ rest)) ts)) with (mkpkt (words h ++ rest) 0 ts). rewrite Hproc. cbn [mbind option_bind]. by rewrite decide_True.
Qed.

Lemma recv_joins now h rest ts s s1 s2 reqpkt reqpkt1 reqpkt2 : peer_hs h -> m_iReqType h <= 0 ->
  resend now (clear s) reqpkt = (s1, reqpkt1) -> m_bConnecting s1 = true -> m_RdvState s1 <> RDV_CONNECTED -> bRendezvous (m_config s1) = true ->
  processRendezvous find_filter (Some (mkpkt (words h ++ rest) 0 ts)) RST_OK env_ok now reqpkt1 (set_m_ConnRes (set_m_extension (m_extension (m_ConnRes s1)) h) s1) =
    Some (CONN_ACCEPT, s2, reqpkt2) ->
  m_iReqType (m_ConnRes s2) <= 0 -> bRendezvous (m_config s2) = true ->
  connect_iteration find_filter now (Some (incoming (M_hs (words h ++ rest)) ts)) false false env_ok (clear s, reqpkt) = Some (inr (s2, connected)).
Proof.
  intros Hh Hrq Hre Hc Hr Hrdv Hproc Hrq2 Hrdv2. unfold connect_iteration. rewrite Hre, response_taken by done. cbn [mbind option_bind]. rewrite decide_True by done.
  change (in_pkt (incoming (M_hs (words h ++ rest)) ts)) with (mkpkt (words h ++ rest) 0 ts). rewrite Hproc. cbn [mbind option_bind].
  rewrite !decide_False by done. cbn [mbind option_bind]. rewrite !bool_decide_false, !decide_False by done. cbn [negb andb]. unfold finish_connect. rewrite decide_False by done.
  rewrite (proj2 (Z.ltb_ge URQ_FAILURE_TYPES _)) by (unfold URQ_FAILURE_TYPES; lia). by rewrite Hrdv2.
Qed.

(** A keep-alive arrives at a party that has heard of its peer: it is
    connected. *)
Lemma keepalive_joins now ts s s1 reqpkt reqpkt1 : resend now (clear s) reqpkt = (s1, reqpkt1) -> m_bConnecting s1 = true -> bRendezvous (m_config s1) = true ->
  m_iVersion (m_ConnRes s1) = HS_VERSION_SRT1 -> m_iReqType (m_ConnRes s1) <= 0 ->
  connect_iteration find_filter now (Some (incoming M_keepalive ts)) false false env_ok (clear s, reqpkt) = Some (inr (join_state (set_m_RdvState RDV_CONNECTED s1), connected)).
Proof.
  intros Hre Hc Hrdv Hv Hrq. unfold connect_iteration. rewrite Hre. unfold processConnectResponse. rewrite Hc, Hrdv, Hv.
  change (is_type CPacket.UMSG_KEEPALIVE (incoming M_keepalive ts)) with true. change (HS_VERSION_SRT1 <=? HS_VERSION_SRT1) with true. rewrite orb_true_r. cbn [orb andb negb].
  rewrite join_eq by exact Hv. cbn [mbind option_bind]. rewrite !decide_False by done. cbn [mbind option_bind]. rewrite !bool_decide_false, !decide_False by done. cbn [negb andb]. unfold finish_connect. rewrite decide_False by done.
  change (m_ConnRes (join_state (set_m_RdvState RDV_CONNECTED s1))) with (m_ConnRes s1). change (m_config (join_state (set_m_RdvState RDV_CONNECTED s1))) with (m_config s1).
  rewrite (proj2 (Z.ltb_ge URQ_FAILURE_TYPES _)) by (unfold URQ_FAILURE_TYPES; lia). by rewrite Hrdv.
Qed.
End Iteration.

(** ** What a party takes from a handshake *)

Lemma type_flags sid : SrtHSRequest.ENCFLAGS (ext_type sid) = 0 /\ (SrtHSRequest.HSFLAGS (ext_type sid) =? 0) = false.
Proof. unfold ext_type. by destruct (decide (sid = [])). Qed.

Lemma party_res a (s : state) h : party_ok a s -> party_ok a (set_m_ConnRes h s).
Proof. intros []. by split. Qed.

Lemma taken_from a b (s : state) h e side rdv rsp_type ext hsrsp : setup_ok a -> setup_ok b -> party_ok a s -> peer_hs h -> side <> HSD_DRAW ->
  (m_SrtHsSide s = side \/ m_SrtHsSide s = HSD_DRAW /\ m_iCookie h = su_cookie b /\ backwardCompatibleCookieContest (su_cookie a) (su_cookie b) = side) ->
  m_RdvState s <> RDV_CONNECTED -> SrtHSRequest.ENCFLAGS (m_iType h) = 0 -> rsp_type <= 0 ->
  switch_state (m_RdvState s) side (m_iReqType h) (SrtHSRequest.HSFLAGS (m_iType h)) URQ_FAILURE_TYPES = (rdv, rsp_type, ext, hsrsp) ->
  taken a (set_m_ConnRes (set_m_extension e h) s) side rdv rsp_type ext hsrsp.
Proof.
  intros Ha Hb Hp Hh Hne Hside Hrd Henc Hrsp Hsw. split; try done.
  - by apply party_res.
  - destruct Hh as [[] ? ? ?]. by split; [split|..].
  - unfold cookieContest. destruct (po_req _ _ Hp) as (ty & rq & ex & Hreq). change (m_ConnReq (set_m_ConnRes (set_m_extension e h) s)) with (m_ConnReq s). rewrite Hreq.
    change (m_SrtHsSide (set_m_ConnRes (set_m_extension e h) s)) with (m_SrtHsSide s).
    change (m_iCookie (m_ConnRes (set_m_ConnRes (set_m_extension e h) s))) with (m_iCookie h). change (m_iCookie (request a ty rq ex)) with (su_cookie a).
    destruct Hside as [Hs|(Hs & Hck & Hct)]; rewrite Hs.
    + rewrite bool_decide_false by done. exact Hs.
    + cbn [bool_decide negb decide]. rewrite bool_decide_true by done. cbn [negb]. destruct (su_cookie_ok _ Ha), (su_cookie_ok _ Hb).
      rewrite Hck, !(proj2 (Z.eqb_neq _ _)) by done. cbn [orb]. by rewrite <- Hct.
Qed.

(** ** The initiator *)

Definition lI (g : nat) : nat := match g with 0 => 0 | 1 | 2 => 1 | _ => 2 end%nat.

Section Initiator.
Variable find_filter : list Z -> option Factory.
Variables a b : setup.
Hypothesis Ha : setup_ok a.
Hypothesis Hb : setup_ok b.
Hypothesis Hco : compatible (su_config a) (su_config b).
Hypothesis Hwin : backwardCompatibleCookieContest (su_cookie a) (su_cookie b) = HSD_INITIATOR.
Notation act := (act find_filter).

(** [g] is how far it has read in what the responder sends. *)
Definition ini_inv (g : nat) (p : party) : Prop :=
  match p with
  | Looping s reqpkt =>
      (g < 3)%nat /\ party_ok a s /\ sStreamName (m_config s) = sid_of a /\ ini_msg a (lI g) (M_hs reqpkt.1) /\
      (g = 0%nat /\ m_RdvState s = RDV_WAVING /\ m_SrtHsSide s = HSD_DRAW \/
       (0 < g)%nat /\ (m_RdvState s = RDV_ATTENTION \/ g = 2%nat /\ m_RdvState s = RDV_FINE) /\ m_SrtHsSide s = HSD_INITIATOR)
  | Joined s => (3 <= g)%nat /\ joined a b s
  | Failed _ => False
  end.

Lemma ini_tick g p inbox now : ini_inv g p -> exists p' out, act p inbox (Tick now) = Some (p', inbox, out) /\ ini_inv g p' /\ chan (ini_msg a) (lI g) (lI g) out.
Proof.
  destruct p as [s reqpkt|s|s]; cbn [ini_inv act RdvNet.act].
  - intros (Hg & Hp & Hsid & Hm & Hst). rewrite tick_eq. destruct (resend_spec now s reqpkt) as (s' & id & -> & Hbf & Hmsg & _).
    destruct (fields_before _ _ Hbf) as (F1 & F2 & F3 & _). cbn [mbind option_bind after_iteration]. eexists _, _. split; [reflexivity|]. split.
    + cbn. rewrite F1, F2, F3. by split_and!; [|apply (party_before a s)|..].
    + destruct Hmsg as [-> | ->]; [constructor|by apply chan_one].
  - intros Hj. exists (Joined s), []. by split_and!; [..|constructor].
  - done.
Qed.

(** What the iteration in which a handshake arrives does before it. *)
Lemma before_out (P : nat -> msg -> Prop) l reqpkt (s : state) : messages (effects s) = [] \/ messages (effects s) = [M_hs reqpkt] -> P l (M_hs reqpkt) -> chan P l l (messages (effects s)).
Proof. intros [-> | ->] Hm; [constructor|by apply chan_one]. Qed.

Lemma ini_asks g r s reqpkt h rest now ts (rep : bool) inbox : ini_inv g (Looping s reqpkt) -> from b h -> m_iType h = 0 ->
  (m_iReqType h = URQ_WAVEAHAND /\ r = 0%nat /\ (g <= 1)%nat \/ m_iReqType h = URQ_CONCLUSION /\ r = 1%nat /\ (g <= 2)%nat) ->
  exists p' out, act (Looping s reqpkt) (M_hs (words h ++ rest) :: inbox) (Recv now ts rep) = Some (p', if rep then M_hs (words h ++ rest) :: inbox else inbox, out) /\
    ini_inv (S r) p' /\ chan (ini_msg a) (lI g) (lI (S r)) out.
Proof.
  intros (Hg & Hp & Hsid & Hm & Hst) [Hh Hck] Hty Hcase. cbn [RdvNet.act]. destruct (resend_spec now s reqpkt) as (s1 & id & Hre & Hbf & Hmsg & _).
  destruct (fields_before _ _ Hbf) as (F1 & F2 & F3 & _). pose proof (party_before _ _ _ Hbf Hp) as Hp1. rewrite <- F1, <- F2 in Hst. rewrite <- F3 in Hsid.
  assert (Hne : m_RdvState s1 <> RDV_CONNECTED) by (destruct Hst as [(_ & -> & _)|(_ & [->|[_ ->]] & _)]; done).
  assert (Htk : exists rdv, taken a (set_m_ConnRes (set_m_extension (m_extension (m_ConnRes s1)) h) s1) HSD_INITIATOR rdv URQ_CONCLUSION true false /\
    (rdv = RDV_ATTENTION \/ r = 1%nat /\ rdv = RDV_FINE)).
  { assert (Hsw : exists rdv, switch_state (m_RdvState s1) HSD_INITIATOR (m_iReqType h) (SrtHSRequest.HSFLAGS (m_iType h)) URQ_FAILURE_TYPES = (rdv, URQ_CONCLUSION, true, false) /\
      (rdv = RDV_ATTENTION \/ r = 1%nat /\ rdv = RDV_FINE)).
    { rewrite Hty. destruct Hst as [(-> & -> & _)|(Hg0 & [->|[-> ->]] & _)], Hcase as [(-> & -> & Hg2)|(-> & -> & Hg2)]; try lia; eexists; split; try reflexivity; tauto. }
    destruct Hsw as (rdv & Hsw & Hrdv). exists rdv. split; [|done]. apply (taken_from a b); try done; [|by rewrite Hty].
    destruct Hst as [(_ & _ & ->)|(_ & _ & ->)]; [by right|by left]. }
  destruct Htk as (rdv & Htk & Hrdv).
  destruct (rdv_ask find_filter a _ rdv (mkpkt (words h ++ rest) 0 ts) now (reqpkt.1, id) Htk) as (s2 & sI & Hproc & HI & [G1 G2 G3 G4 G5] & Hsid2);
    [destruct Hrdv as [->|[_ ->]]; done|exact Hsid|].
  erewrite (recv_continues find_filter now h rest ts s s1 s2 reqpkt (reqpkt.1, id) _ Hh);
    [|destruct Hcase as [(-> & _)|(-> & _)]; done|done|exact (po_connecting _ _ Hp1)|done|exact (so_rdv _ _ (po_options _ _ Hp1))|exact Hproc].
  cbn [mbind option_bind after_iteration]. eexists _, _. split; [by destruct rep|]. split.
  - cbn [ini_inv]. split; [destruct Hcase; lia|]. split; [done|]. split; [done|]. split.
    + destruct Hcase as [(_ & -> & _)|(_ & -> & _)]; apply im_request; try done; by apply request_from; [|unfold ext_type; destruct (decide (sid_of a = []))|].
    + right. split; [lia|]. rewrite G2, G3. split; [|done]. destruct Hrdv as [->|[-> ->]]; [by left|by right].
  - rewrite G5. apply (chan_weaken _ (lI g) (lI g)); [|done|destruct g as [|[|[|]]], Hcase as [(_ & -> & _)|(_ & -> & _)]; cbn; lia]. by apply (before_out _ _ reqpkt.1).
Qed.

Lemma ini_response g s reqpkt h sR now ts (rep : bool) inbox : ini_inv g (Looping s reqpkt) -> (0 < g)%nat -> from b h -> m_iType h = HS_EXT_HSREQ ->
  m_iReqType h = URQ_CONCLUSION -> negotiated a b sR -> let m := M_hs (words h ++ blocks [(SRT_CMD_HSRSP, (rsp_fill sR).2)]) in
  exists p' out, act (Looping s reqpkt) (m :: inbox) (Recv now ts rep) = Some (p', if rep then m :: inbox else inbox, out) /\
    ini_inv 3 p' /\ chan (ini_msg a) (lI g) 2 out.
Proof.
  intros (Hg & Hp & Hsid & Hm & Hst) Hg0 Hfrom Hty Hrq HR m. cbn [RdvNet.act]. destruct (resend_spec now s reqpkt) as (s1 & id & Hre & Hbf & Hmsg & _).
  destruct (fields_before _ _ Hbf) as (F1 & F2 & F3 & _). pose proof (party_before _ _ _ Hbf Hp) as Hp1. rewrite <- F1, <- F2 in Hst.
  destruct Hst as [[-> _]|(_ & Hrd & Hsd)]; [lia|]. assert (Hh : peer_hs h) by apply Hfrom.
  assert (Hne : m_RdvState s1 <> RDV_CONNECTED) by (destruct Hrd as [->|[_ ->]]; done).
  assert (Htk : taken a (set_m_ConnRes (set_m_extension (m_extension (m_ConnRes s1)) h) s1) HSD_INITIATOR RDV_CONNECTED URQ_AGREEMENT false false).
  { apply (taken_from a b); try done; [by left|by rewrite Hty|]. rewrite Hrq, Hty. by destruct Hrd as [->|[_ ->]]. }
  destruct (rdv_response find_filter a b _ sR h (m_extension (m_ConnRes s1)) ts now (reqpkt.1, id) Htk) as (s2 & Hproc & Hj & Hm2 & Hres2); try done.
  unfold m. erewrite (recv_joins find_filter now h _ ts s s1 s2 reqpkt (reqpkt.1, id) _ Hh);
    [|by rewrite Hrq|done|exact (po_connecting _ _ Hp1)|done|exact (so_rdv _ _ (po_options _ _ Hp1))|exact Hproc|rewrite Hres2; cbn; by rewrite Hrq|exact (so_rdv _ _ (jo_options _ _ _ Hj))].
  cbn [mbind option_bind after_iteration]. eexists _, _. split; [by destruct rep|]. split; [by split|].
  rewrite Hm2. apply (chan_app _ _ (lI g)); [by apply (before_out _ _ reqpkt.1)| |done|destruct g as [|[|[|]]]; cbn; lia].
  apply (chan_cons _ _ _ 2%nat); [|destruct g as [|[|[|]]]; cbn; lia|lia|constructor].
  apply im_agreement; [|done..]. by apply request_from.
Qed.

(** A response that comes again to the initiator when it is connected. *)
Lemma ini_served g s h sR now ts (rep : bool) inbox : joined a b s -> from b h -> m_iType h = HS_EXT_HSREQ -> m_iReqType h = URQ_CONCLUSION -> negotiated a b sR ->
  let m := M_hs (words h ++ blocks [(SRT_CMD_HSRSP, (rsp_fill sR).2)]) in (3 <= g)%nat ->
  exists p' out, act (Joined s) (m :: inbox) (Recv now ts rep) = Some (p', if rep then m :: inbox else inbox, out) /\ ini_inv g p' /\ chan (ini_msg a) 2 2 out.
Proof.
  intros [Jo Jl Jv Jp Ji Jd] [Hh _] Hty Hrq HR m Hg. cbn [RdvNet.act]. unfold m. unfold processCtrlHS, load_packet, getLength. cbn [pkt_words pkt_tail].
  rewrite load_words; [|exact (ph_ok _ Hh)|rewrite length_app, length_words by exact (ok_ip h (ph_ok _ Hh)); unfold m_iContentSize, content_words; lia].
  cbn [fst m_iReqType m_iVersion]. rewrite Hrq, (ph_version _ Hh). change (m_config (clear s)) with (m_config s). rewrite (so_rdv _ _ Jo).
  change ((URQ_INDUCTION_TYPES <? URQ_CONCLUSION) || true && negb (URQ_CONCLUSION =? URQ_AGREEMENT)) with true. change (HS_VERSION_UDT4 <? HS_VERSION_SRT1) with true. cbn match.
  change (m_ConnRes (clear s)) with (m_ConnRes s). change (m_iISN (clear s)) with (m_iISN s). change (m_SocketID (clear s)) with (m_SocketID s). rewrite Ji, Jd.
  change (URQ_AGREEMENT =? URQ_CONCLUSION) with false. set (hs := CHandShake.mk HS_VERSION_SRT1 0 _ _ _ URQ_AGREEMENT _ _ _ false).
  assert (Hhs : ini_msg a 2 (M_hs (words (set_m_iType 0 hs)))).
  { apply im_agreement; [|done..]. pose proof (so_mss _ _ Jo) as Hmss. pose proof (so_flight _ _ Jo) as Hfl. destruct Ha. unfold in_i32 in *.
    split; [split; cbn; unfold in_i32, HS_VERSION_SRT1, URQ_AGREEMENT; try done; try lia; repeat constructor; unfold in_u32; lia|done| |exact Hmss].
    apply valid_iff. cbn. unfold HS_VERSION_UDT4, HS_VERSION_SRT1. lia. }
  destruct (response_arrives a b sR (clear s) ts now Ha Hb Hco HR Jo) as (s2 & Hproc & Hcore & Hlat).
  destruct (core_keeps _ _ Hcore) as (K1 & K2 & K3 & K4 & K5 & K6 & K7 & K8 & K9 & K10).
  destruct (settled_keeps [] s2) as (S1 & S2 & S3 & S4 & S5 & S6 & S7 & S8 & S9 & S10).
  assert (Hserve : forall s3 : state, same_options (su_config a) (m_config s3) -> latencies a b s3 -> m_ConnRes s3 = m_ConnRes s -> m_iMaxSRTPayloadSize s3 = m_iMaxSRTPayloadSize s ->
    m_iISN s3 = m_iISN s -> m_SocketID s3 = m_SocketID s -> effects s3 = [] ->
    exists p' out, ('(s, _, pkt) ← createSrtHandshake SRT_CMD_HSRSP SRT_CMD_KMRSP [] (m_iMaxSRTPayloadSize s3) hs s3;
      Some (match pkt with None => s | Some pkt => emit (E_send pkt (m_PeerID s)) s end)) = Some p' /\ messages (effects p') = out /\ ini_inv g (Joined p') /\ chan (ini_msg a) 2 2 out).
  { intros s3 T1 T2 T3 T4 T5 T6 T7. rewrite create_bare; [|exact (pc_keylen _ (so_plain _ _ T1))|by rewrite T3, Jv|done|done|by rewrite T4].
    eexists _, _. split; [reflexivity|]. split; [reflexivity|]. split.
    - split; [done|]. destruct T2. split; try done; [by cbn; rewrite T3|by cbn; rewrite T4|by cbn; rewrite T5|by cbn; rewrite T6].
    - cbn. rewrite T7. by apply chan_one. }
  destruct (SrtHSRequest.HSFLAGS (m_iType (m_ConnRes s)) =? 0); cbn [negb].
  - destruct (Hserve (clear s)) as (p' & out & E & <- & Hi & Hout); try done; [by destruct Jl|]. cbn [mbind option_bind]. cbn [mbind option_bind] in E. rewrite E.
    cbn [mbind option_bind]. eexists _, _. split; [by destruct rep|done].
  - rewrite (interpret_plain find_filter SRT_CMD_HSRSP (rsp_fill sR).2 [] (clear s) s2).
    2:{ by right. } 2:{ rewrite K1. exact (so_plain _ _ Jo). } 2:{ done. } 2:{ done. } 2:{ apply rsp_fill_length. exact (ne_start _ _ _ HR). } 2:{ done. }
    2:{ eexists. split; [|reflexivity]. apply length_words, (ok_ip h), ph_ok, Hh. } 2:{ done. }
    destruct (Hserve (on_config (config_after []) (handshakeDone s2))) as (p' & out & E & <- & Hi & Hout); try done.
    + cbn. rewrite K1. by apply options_after.
    + by destruct Hlat.
    + cbn [mbind option_bind negb]. cbn [mbind option_bind] in E. rewrite E. cbn [mbind option_bind]. eexists _, _. split; [by destruct rep|done].
Qed.

Lemma ini_recv g r p m now ts (rep : bool) inbox : ini_inv g p -> rsp_msg a b r m -> (g <= S r)%nat -> (r <= S (lI g))%nat -> ts < now ->
  exists p' out, act p (m :: inbox) (Recv now ts rep) = Some (p', if rep then m :: inbox else inbox, out) /\ ini_inv (S r) p' /\ chan (ini_msg a) (lI g) (lI (S r)) out.
Proof.
  intros Hi Hm Hgr Hrl Hts. destruct p as [s reqpkt|s|s]; [|destruct Hi as [Hg Hj]|done].
  - assert (Hg : (g < 3)%nat) by apply Hi. destruct Hm as [h Hf Ht Hq|h Hf Ht Hq|h sR Hf Ht Hq HR|].
    + rewrite <- (app_nil_r (words h)). apply ini_asks; try done. left. split_and!; [done..|lia].
    + rewrite <- (app_nil_r (words h)). apply ini_asks; try done. right. split_and!; [done..|lia].
    + apply ini_response; try done. destruct g; cbn in Hrl; lia.
    + destruct g as [|[|[|]]]; cbn in Hrl; lia.
  - assert (lI g = 2%nat) as -> by (destruct g as [|[|[|]]]; done || lia). destruct Hm as [h Hf Ht Hq|h Hf Ht Hq|h sR Hf Ht Hq HR|]; [lia..| |].
    + apply ini_served; done || lia.
    + exists (Joined s), []. cbn. split; [by destruct rep|]. split; [split; [lia|done]|constructor].
Qed.
End Initiator.

(** ** The responder *)

Section Responder.
Variable find_filter : list Z -> option Factory.
Variables a b : setup.
Hypothesis Ha : setup_ok a.
Hypothesis Hb : setup_ok b.
Hypothesis Hco : compatible (su_config a) (su_config b).
Hypothesis Hwin : backwardCompatibleCookieContest (su_cookie b) (su_cookie a) = HSD_RESPONDER.
Notation act := (act find_filter).

Definition rsp_inv (g : nat) (p : party) : Prop :=
  match p with
  | Looping s reqpkt =>
      (g < 3)%nat /\ party_ok b s /\ rsp_msg a b g (M_hs reqpkt.1) /\
      (g = 0%nat /\ m_RdvState s = RDV_WAVING /\ m_SrtHsSide s = HSD_DRAW \/
       m_SrtHsSide s = HSD_RESPONDER /\ m_iVersion (m_ConnRes s) = HS_VERSION_SRT1 /\ m_iReqType (m_ConnRes s) <= 0 /\
         (g = 1%nat /\ m_RdvState s = RDV_ATTENTION \/
          g = 2%nat /\ (m_RdvState s = RDV_FINE \/ m_RdvState s = RDV_INITIATED) /\ negotiated a b s))
  | Joined s => g = 3%nat /\ joined b a s
  | Failed _ => False
  end.

Lemma rsp_tick g p inbox now : rsp_inv g p -> exists p' out, act p inbox (Tick now) = Some (p', inbox, out) /\ rsp_inv g p' /\ chan (rsp_msg a b) g g out.
Proof.
  destruct p as [s reqpkt|s|s]; cbn [rsp_inv RdvNet.act].
  - intros (Hg & Hp & Hm & Hst). rewrite tick_eq. destruct (resend_spec now s reqpkt) as (s' & id & -> & Hbf & Hmsg & _).
    destruct (fields_before _ _ Hbf) as (F1 & F2 & F3 & F4 & _). cbn [mbind option_bind after_iteration]. eexists _, _. split; [reflexivity|]. split.
    + cbn. rewrite F1, F2, F4. split; [done|]. split; [by apply (party_before b s)|]. split; [done|].
      destruct Hst as [?|(? & ? & ? & [?|(? & ? & Hn)])]; [by left|right; split_and!; auto..]. right. split_and!; [done..|]. by apply (negotiated_before a b s).
    + destruct Hmsg as [-> | ->]; [constructor|by apply chan_one].
  - intros Hj. exists (Joined s), []. by split_and!; [..|constructor].
  - done.
Qed.

Lemma rsp_bare g s reqpkt h now ts (rep : bool) inbox : rsp_inv g (Looping s reqpkt) -> from a h -> m_iType h = 0 -> m_iReqType h = URQ_WAVEAHAND -> (g <= 1)%nat ->
  let m := M_hs (words h) in
  exists p' out, act (Looping s reqpkt) (m :: inbox) (Recv now ts rep) = Some (p', if rep then m :: inbox else inbox, out) /\ rsp_inv 1 p' /\ chan (rsp_msg a b) g 1 out.
Proof.
  intros (Hg & Hp & Hm & Hst) [Hh Hck] Hty Hrq Hg1 m. cbn [RdvNet.act]. destruct (resend_spec now s reqpkt) as (s1 & id & Hre & Hbf & Hmsg & _).
  destruct (fields_before _ _ Hbf) as (F1 & F2 & F3 & F4 & _). pose proof (party_before _ _ _ Hbf Hp) as Hp1. rewrite <- F1, <- F2 in Hst.
  assert (Hne : m_RdvState s1 = RDV_WAVING /\ m_SrtHsSide s1 = HSD_DRAW \/ m_RdvState s1 = RDV_ATTENTION /\ m_SrtHsSide s1 = HSD_RESPONDER).
  { destruct Hst as [(_ & ? & ?)|(? & _ & _ & [(_ & ?)|(-> & _)])]; [by left|by right|lia]. }
  assert (Htk : taken b (set_m_ConnRes (set_m_extension (m_extension (m_ConnRes s1)) h) s1) HSD_RESPONDER RDV_ATTENTION URQ_CONCLUSION false false).
  { apply (taken_from b a); try done; [|by destruct Hne as [[-> _]|[-> _]]|by rewrite Hty|by rewrite Hty, Hrq; destruct Hne as [[-> _]|[-> _]]].
    destruct Hne as [[_ ->]|[_ ->]]; [by right|by left]. }
  destruct (rdv_bare find_filter b _ RDV_ATTENTION (mkpkt (words h ++ []) 0 ts) now (reqpkt.1, id) Htk) as (s2 & Hproc & [G1 G2 G3 G4 G5]); [done|].
  unfold m. rewrite <- (app_nil_r (words h)).
  erewrite (recv_continues find_filter now h [] ts s s1 s2 reqpkt (reqpkt.1, id) _ Hh);
    [|by rewrite Hrq|done|exact (po_connecting _ _ Hp1)|by destruct Hne as [[-> _]|[-> _]]|exact (so_rdv _ _ (po_options _ _ Hp1))|exact Hproc].
  cbn [mbind option_bind after_iteration]. eexists _, _. split; [by destruct rep|]. split.
  - cbn [rsp_inv]. split; [lia|]. split; [done|]. split; [apply rm_bare; try done; by apply request_from|]. right. rewrite G2, G3, G4. cbn.
    split; [done|]. split; [exact (ph_version _ Hh)|]. split; [by rewrite Hrq|by left].
  - rewrite G5. apply (chan_weaken _ g g); [|done|done]. by apply (before_out _ _ reqpkt.1).
Qed.

Lemma rsp_answers g s reqpkt h (sI : state) now ts (rep : bool) inbox : rsp_inv g (Looping s reqpkt) -> from a h -> m_iType h = ext_type (sid_of a) -> m_iReqType h = URQ_CONCLUSION ->
  same_options (su_config a) (m_config sI) -> ts < now -> let m := M_hs (words h ++ blocks ((SRT_CMD_HSREQ, (req_fill sI).2) :: sid_block (sid_of a))) in
  exists p' out, act (Looping s reqpkt) (m :: inbox) (Recv now ts rep) = Some (p', if rep then m :: inbox else inbox, out) /\ rsp_inv 2 p' /\ chan (rsp_msg a b) g 2 out.
Proof.
  intros (Hg & Hp & Hm & Hst) Hfrom Hty Hrq HI Hts m. cbn [RdvNet.act]. destruct (resend_spec now s reqpkt) as (s1 & id & Hre & Hbf & Hmsg & _).
  destruct (fields_before _ _ Hbf) as (F1 & F2 & F3 & F4 & _). pose proof (party_before _ _ _ Hbf Hp) as Hp1. rewrite <- F1, <- F2 in Hst. assert (Hh : peer_hs h) by apply Hfrom.
  destruct (type_flags (sid_of a)) as [Tenc Tfl].
  assert (Hne : m_RdvState s1 <> RDV_CONNECTED) by (destruct Hst as [(_ & -> & _)|(_ & _ & _ & [(_ & ->)|(_ & [->| ->] & _)])]; done).
  assert (Htk : exists rdv, taken b (set_m_ConnRes (set_m_extension (m_extension (m_ConnRes s1)) h) s1) HSD_RESPONDER rdv URQ_CONCLUSION true true /\ (rdv = RDV_FINE \/ rdv = RDV_INITIATED)).
  { assert (Hsw : exists rdv, switch_state (m_RdvState s1) HSD_RESPONDER (m_iReqType h) (SrtHSRequest.HSFLAGS (m_iType h)) URQ_FAILURE_TYPES = (rdv, URQ_CONCLUSION, true, true) /\
      (rdv = RDV_FINE \/ rdv = RDV_INITIATED)).
    { rewrite Hrq, Hty. unfold switch_state. rewrite Tfl. destruct Hst as [(_ & -> & _)|(_ & _ & _ & [(_ & ->)|(_ & [->| ->] & _)])]; cbn; eexists; split; try reflexivity; tauto. }
    destruct Hsw as (rdv & Hsw & Hrdv). exists rdv. split; [|done]. apply (taken_from b a); try done; [|by rewrite Hty].
    destruct Hst as [(_ & _ & ->)|(-> & _)]; [right; split_and!; [done|apply Hfrom|done]|by left]. }
  destruct Htk as (rdv & Htk & Hrdv).
  destruct (rdv_answer find_filter a b _ sI h (m_extension (m_ConnRes s1)) rdv ts now (reqpkt.1, id) Htk) as (s2 & Hproc & [G1 G2 G3 G4 G5] & Hn & _); try done.
  unfold m. erewrite (recv_continues find_filter now h _ ts s s1 s2 reqpkt (reqpkt.1, id) _ Hh);
    [|by rewrite Hrq|done|exact (po_connecting _ _ Hp1)|done|exact (so_rdv _ _ (po_options _ _ Hp1))|exact Hproc].
  cbn [mbind option_bind after_iteration]. eexists _, _. split; [by destruct rep|]. split.
  - cbn [rsp_inv]. split; [lia|]. split; [done|]. split; [apply rm_response; try done; by apply request_from|]. right. rewrite G2, G3, G4. cbn.
    split; [done|]. split; [exact (ph_version _ Hh)|]. split; [by rewrite Hrq|]. right. by split_and!.
  - rewrite G5. apply (chan_weaken _ g g); [|done|lia]. by apply (before_out _ _ reqpkt.1).
Qed.

Lemma rsp_agrees s reqpkt m now ts (rep : bool) inbox : rsp_inv 2 (Looping s reqpkt) -> ini_msg a 2 m ->
  exists p' out, act (Looping s reqpkt) (m :: inbox) (Recv now ts rep) = Some (p', if rep then m :: inbox else inbox, out) /\ rsp_inv 3 p' /\ chan (rsp_msg a b) 2 3 out.
Proof.
  intros (_ & Hp & Hm & Hst) Him. cbn [RdvNet.act]. destruct (resend_spec now s reqpkt) as (s1 & id & Hre & Hbf & Hmsg & _).
  destruct (fields_before _ _ Hbf) as (F1 & F2 & F3 & F4 & _). pose proof (party_before _ _ _ Hbf Hp) as Hp1. rewrite <- F1, <- F2, <- F4 in Hst.
  destruct Hst as [(? & _)|(Hsd & Hv & Hrq1 & [(? & _)|(_ & Hrd & Hn)])]; [lia..|]. apply (negotiated_before _ _ _ _ Hbf) in Hn. pose proof (ne_latencies _ _ _ Hn) as Hlat.
  assert (Hout : chan (rsp_msg a b) 2 3 (messages (effects s1))) by (apply (chan_weaken _ 2 2); [by apply (before_out _ _ reqpkt.1)|lia..]).
  inversion Him as [| |h Hh Hty Hrq|]; subst.
  - assert (Htk : taken b (set_m_ConnRes (set_m_extension (m_extension (m_ConnRes s1)) h) s1) HSD_RESPONDER RDV_CONNECTED URQ_DONE false false).
    { apply (taken_from b a); try done; [by left|by destruct Hrd as [-> | ->]|by rewrite Hty|by rewrite Hty, Hrq; destruct Hrd as [-> | ->]]. }
    destruct (rdv_agreed find_filter a b _ (mkpkt (words h ++ []) 0 ts) now (reqpkt.1, id) Htk) as (s2 & Hproc & Hj & Hm2 & Hres2); [by destruct Hlat|].
    rewrite <- (app_nil_r (words h)). erewrite (recv_joins find_filter now h [] ts s s1 s2 reqpkt (reqpkt.1, id) _ Hh);
      [|by rewrite Hrq|done|exact (po_connecting _ _ Hp1)|by destruct Hrd as [-> | ->]|exact (so_rdv _ _ (po_options _ _ Hp1))|exact Hproc|rewrite Hres2; cbn; by rewrite Hrq|exact (so_rdv _ _ (jo_options _ _ _ Hj))].
    cbn [mbind option_bind after_iteration]. eexists _, _. split; [by destruct rep|]. split; [done|]. rewrite Hm2. exact Hout.
  - rewrite (keepalive_joins find_filter now ts s s1 reqpkt (reqpkt.1, id)); [|done|exact (po_connecting _ _ Hp1)|exact (so_rdv _ _ (po_options _ _ Hp1))|done|done].
    cbn [mbind option_bind after_iteration]. eexists _, _. split; [by destruct rep|].
    destruct (join_keeps (set_m_RdvState RDV_CONNECTED s1)) as (_ & _ & _ & _ & _ & _ & _ & _ & K). split; [|rewrite K; exact Hout].
    split; [done|]. apply join_joined; [by destruct Hp1|by destruct Hlat|done].
Qed.

Lemma rsp_recv g r p m now ts (rep : bool) inbox : rsp_inv g p -> ini_msg a r m -> (g <= S r)%nat -> (r <= lI (S g))%nat -> ts < now ->
  exists p' out, act p (m :: inbox) (Recv now ts rep) = Some (p', if rep then m :: inbox else inbox, out) /\ rsp_inv (S r) p' /\ chan (rsp_msg a b) g (S r) out.
Proof.
  intros Hi Hm Hgr Hrl Hts. destruct p as [s reqpkt|s|s]; [|destruct Hi as [-> Hj]|done].
  - assert (Hg : (g < 3)%nat) by apply Hi. destruct (decide (r = 2%nat)) as [->|Hr2].
    + assert (g = 2%nat) as -> by (destruct g as [|[|[|]]]; cbn in Hrl; lia). by apply rsp_agrees.
    + destruct Hm as [h Hf Ht Hq|h sI Hf Ht Hq HI|h Hf Ht Hq|]; [by apply rsp_bare|by apply rsp_answers|done..].
  - assert (r = 2%nat) as -> by (inversion Hm; subst; lia). inversion Hm as [| |h Hh Hty Hrq|]; subst.
    + cbn [RdvNet.act]. unfold processCtrlHS, load_packet, getLength. cbn [pkt_words pkt_tail]. rewrite <- (app_nil_r (words h)).
      rewrite load_words; [|exact (ph_ok _ Hh)|rewrite length_app, length_words by exact (ok_ip h (ph_ok _ Hh)); unfold m_iContentSize, content_words; cbn; lia].
      cbn [fst m_iReqType m_iVersion]. rewrite Hrq. change (m_config (clear s)) with (m_config s). rewrite (so_rdv _ _ (jo_options _ _ _ Hj)).
      change ((URQ_INDUCTION_TYPES <? URQ_AGREEMENT) || true && negb (URQ_AGREEMENT =? URQ_AGREEMENT)) with false. cbn [mbind option_bind].
      exists (Joined (clear s)), []. split; [by destruct rep|]. split; [|constructor].
      split; [done|]. destruct Hj as [? [] ? ? ? ?]. by split; [|split|..].
    + exists (Joined s), []. split; [by destruct rep|]. split; [done|constructor].
Qed.
End Responder.
