(* ===== verification/RdvRun.v ===== *)
(** Runs of the rendezvous between two parties that are neither closed nor out
    of time: no run fails, who is connected has negotiated, and every run can be
    completed. *)
From S2P Require Import Prelude Packet SeqNo Handshake FilterConfig HsExt HsExtInv HsExtRun Rendezvous RdvNet RdvParty RdvStep.
Import CHandShake CUDT.

(** A packet arrives after the time that its timestamp stands for. *)
Definition timely (e : event + event) : Prop :=
  match e with inl (Recv now ts _) | inr (Recv now ts _) => ts < now | _ => True end.

Definition both_joined (n : net) : Prop := exists sI sR, ini n = Joined sI /\ rsp n = Joined sR.

Section Run.
Variable find_filter : list Z -> option Factory.
Variables a b : setup.
Hypothesis Ha : setup_ok a.
Hypothesis Hb : setup_ok b.
Hypothesis Hco : compatible (su_config a) (su_config b).
Hypothesis Hwin : backwardCompatibleCookieContest (su_cookie a) (su_cookie b) = HSD_INITIATOR.
Implicit Types n : net.

Lemma contest_loses : backwardCompatibleCookieContest (su_cookie b) (su_cookie a) = HSD_RESPONDER.
Proof. rewrite (contest_opposite (su_cookie a) (su_cookie b)), Hwin; [done|apply Ha|apply Hb]. Qed.

(** [gI] and [gR] are how far the two parties have read. *)
Record net_inv (gI gR : nat) n : Prop := {
  ni_ini : ini_inv a b gI (ini n);
  ni_rsp : rsp_inv a b gR (rsp n);
  ni_to_rsp : chan (ini_msg a) (pred gR) (lI gI) (to_rsp n);
  ni_to_ini : chan (rsp_msg a b) (pred gI) gR (to_ini n);
  ni_gR : (gR <= S (lI gI))%nat;
  ni_gI : (gI <= S gR)%nat;
}.

Lemma lI_mono g g' : (g <= g')%nat -> (lI g <= lI g')%nat.
Proof. destruct g as [|[|[|]]], g' as [|[|[|]]]; cbn; lia. Qed.

Lemma lI_bound g : (lI g <= 2)%nat /\ (pred g <= S (lI g) \/ 3 <= g)%nat.
Proof. destruct g as [|[|[|]]]; cbn; lia. Qed.

Lemma chan_tail P lo hi l : chan P lo hi l -> chan P lo hi (tail l).
Proof. destruct 1 as [|lo hi r m l]; [constructor|]. by apply (chan_weaken P r hi). Qed.

(** ** The steps *)

Lemma step_ini gI gR n e : net_inv gI gR n -> timely (inl e) -> exists n' gI', net_step find_filter n (inl e) = Some n' /\ net_inv gI' gR n' /\ (gI <= gI')%nat.
Proof.
  intros [HI HR Hc1 Hc2 H1 H2] Ht. assert (Hlow : (pred gR <= lI gI)%nat) by lia. destruct e as [now|now ts rep| |]; cbn [net_step].
  - destruct (ini_tick find_filter a b gI (ini n) (to_ini n) now HI) as (p' & out & -> & HI' & Hout). cbn [mbind option_bind]. eexists _, gI. split; [reflexivity|]. split; [|done].
    split; cbn; try done. by apply (chan_app _ _ (lI gI)).
  - destruct (to_ini n) as [|m rest] eqn:Em.
    { exists (mknet (ini n) (rsp n) (to_rsp n ++ []) []), gI. split; [by cbn; destruct (ini n)|]. split; [|done]. split; cbn; rewrite ?app_nil_r; done || constructor. }
    inversion Hc2 as [|lo hi r m' l Hm Hlo Hhi Hc]; subst.
    destruct (ini_recv find_filter a b Ha Hb Hco Hwin gI r (ini n) m now ts rep rest HI Hm ltac:(lia) ltac:(lia) Ht) as (p' & out & -> & HI' & Hout).
    cbn [mbind option_bind]. eexists _, (S r). split; [reflexivity|]. split; [|lia]. pose proof (lI_mono gI (S r) ltac:(lia)). split; cbn [ini rsp to_rsp to_ini]; try done.
    + by apply (chan_app _ _ (lI gI)).
    + cbn [pred]. destruct rep; [by apply (chan_cons _ _ _ r)|done].
    + lia.
    + lia.
  - exists (mknet (ini n) (rsp n) (to_rsp n ++ []) (tail (to_ini n))), gI. split; [by cbn; destruct (to_ini n)|]. split; [|done].
    split; cbn; rewrite ?app_nil_r; try done. by apply chan_tail.
  - exists (mknet (ini n) (rsp n) (to_rsp n ++ match ini n with Joined _ => [M_keepalive] | _ => [] end) (to_ini n)), gI. split; [by cbn; destruct (to_ini n)|]. split; [|done]. split; cbn [ini rsp to_rsp to_ini]; try done.
    destruct (ini n) as [|s|]; rewrite ?app_nil_r; try done. destruct HI as [Hg _]. assert (lI gI = 2%nat) as E by (destruct gI as [|[|[|]]]; done || lia).
    rewrite E in *. apply (chan_app _ _ 2); [done|apply chan_one, im_keepalive|lia..].
Qed.

Lemma step_rsp gI gR n e : net_inv gI gR n -> timely (inr e) -> exists n' gR', net_step find_filter n (inr e) = Some n' /\ net_inv gI gR' n' /\ (gR <= gR')%nat.
Proof.
  intros [HI HR Hc1 Hc2 H1 H2] Ht. assert (Hlow : (pred gI <= gR)%nat) by lia. destruct e as [now|now ts rep| |]; cbn [net_step].
  - destruct (rsp_tick find_filter a b gR (rsp n) (to_rsp n) now HR) as (p' & out & -> & HR' & Hout). cbn [mbind option_bind]. eexists _, gR. split; [reflexivity|]. split; [|done].
    split; cbn; try done. by apply (chan_app _ _ gR).
  - destruct (to_rsp n) as [|m rest] eqn:Em.
    { exists (mknet (ini n) (rsp n) [] (to_ini n ++ [])), gR. split; [by cbn; destruct (rsp n)|]. split; [|done]. split; cbn; rewrite ?app_nil_r; done || constructor. }
    inversion Hc1 as [|lo hi r m' l Hm Hlo Hhi Hc]; subst. pose proof (lI_mono gI (S gR) ltac:(lia)).
    destruct (rsp_recv find_filter a b Ha Hb Hco contest_loses gR r (rsp n) m now ts rep rest HR Hm ltac:(lia) ltac:(lia) Ht) as (p' & out & -> & HR' & Hout).
    cbn [mbind option_bind]. eexists _, (S r). split; [reflexivity|]. split; [|lia]. split; cbn [ini rsp to_rsp to_ini]; try done.
    + cbn [pred]. destruct rep; [by apply (chan_cons _ _ _ r)|done].
    + by apply (chan_app _ _ gR); [..|lia].
    + lia.
    + lia.
  - exists (mknet (ini n) (rsp n) (tail (to_rsp n)) (to_ini n ++ [])), gR. split; [by cbn; destruct (to_rsp n)|]. split; [|done].
    split; cbn; rewrite ?app_nil_r; try done. by apply chan_tail.
  - exists (mknet (ini n) (rsp n) (to_rsp n) (to_ini n ++ match rsp n with Joined _ => [M_keepalive] | _ => [] end)), gR. split; [by cbn; destruct (to_rsp n)|]. split; [|done]. split; cbn [ini rsp to_rsp to_ini]; try done.
    destruct (rsp n) as [|s|]; rewrite ?app_nil_r; try done. destruct HR as [-> _].
    apply (chan_app _ _ 3); [done|apply chan_one, rm_keepalive|lia..].
Qed.

Lemma run_inv gI gR n es : net_inv gI gR n -> Forall timely es ->
  exists n' gI' gR', net_run find_filter n es = Some n' /\ net_inv gI' gR' n' /\ (gI <= gI')%nat /\ (gR <= gR')%nat.
Proof.
  intros Hn Hes. revert gI gR n Hn. induction Hes as [|e es He Hes IH]; intros gI gR n Hn; [by exists n, gI, gR|]. cbn [net_run]. destruct e as [e|e].
  - destruct (step_ini gI gR n e Hn He) as (n1 & gI1 & -> & Hn1 & Hle). destruct (IH _ _ _ Hn1) as (n' & gI' & gR' & E & Hn' & ? & ?).
    exists n', gI', gR'. split; [exact E|]. split; [done|lia].
  - destruct (step_rsp gI gR n e Hn He) as (n1 & gR1 & -> & Hn1 & Hle). destruct (IH _ _ _ Hn1) as (n' & gI' & gR' & E & Hn' & ? & ?).
    exists n', gI', gR'. split; [exact E|]. split; [done|lia].
Qed.

(** ** The beginning *)

Lemma started_eq c now : setup_ok c -> exists s, started c now = (s, (words (request c 0 URQ_WAVEAHAND false), 0)) /\ party_ok c s /\ m_config s = su_config c /\
  m_RdvState s = RDV_WAVING /\ m_SrtHsSide s = HSD_DRAW /\ messages (effects s) = [M_hs (words (request c 0 URQ_WAVEAHAND false))].
Proof.
  intros [Hp Hr Ht _ Hm _ _ _ _ _ _ _]. unfold started, startConnect. cbn -[words messages]. rewrite Hr. cbn -[words messages]. rewrite (pc_keylen _ Hp).
  eexists. split; [reflexivity|]. split; [|done]. split; cbn; try done; [by eexists _, _, _|unfold full_hdr_size; lia].
Qed.

Lemma start_inv nowa nowb : net_inv 0 0 (net_start a b nowa nowb).
Proof.
  unfold net_start. destruct (started_eq a nowa Ha) as (sa & -> & Hpa & Hca & Hra & Hsa & Hma). destruct (started_eq b nowb Hb) as (sb & -> & Hpb & Hcb & Hrb & Hsb & Hmb).
  assert (Ma : ini_msg a 0 (M_hs (words (request a 0 URQ_WAVEAHAND false)))) by (apply im_wave; [by apply request_from|done..]).
  assert (Mb : rsp_msg a b 0 (M_hs (words (request b 0 URQ_WAVEAHAND false)))) by (apply rm_wave; [by apply request_from|done..]).
  split; cbn [ini rsp to_rsp to_ini pred lI]; [..|lia|lia].
  - cbn. split; [lia|]. split; [done|]. split; [by rewrite Hca|]. split; [done|by left].
  - cbn. split; [lia|]. split; [done|]. split; [done|by left].
  - rewrite Hma. by apply chan_one.
  - rewrite Hmb. by apply chan_one.
Qed.

(** ** Completing a run *)

Definition reach n (gI gR : nat) : Prop :=
  exists es n', Forall timely es /\ net_run find_filter n es = Some n' /\ net_inv gI gR n'.

Lemma net_run_app n es es' : net_run find_filter n (es ++ es') = (n' ← net_run find_filter n es; net_run find_filter n' es').
Proof.
  revert n. induction es as [|e es IH]; intros n; [done|]. cbn [app net_run]. destruct (net_step find_filter n e) as [n1|]; [|done]. cbn [mbind option_bind]. apply IH.
Qed.

Lemma reach_then n gI gR (P : net -> Prop) : reach n gI gR ->
  (forall n1, net_inv gI gR n1 -> exists es n2, Forall timely es /\ net_run find_filter n1 es = Some n2 /\ P n2) ->
  exists es n2, Forall timely es /\ net_run find_filter n es = Some n2 /\ P n2.
Proof.
  intros (es & n1 & Hes & E & Hn1) Hnext. destruct (Hnext n1 Hn1) as (es' & n2 & Hes' & E' & Hn2). exists (es ++ es'), n2. split; [by apply Forall_app|].
  split; [|done]. rewrite net_run_app, E. exact E'.
Qed.

(** The network loses what is on its way. *)
Lemma run_flush n : exists es, Forall timely es /\ net_run find_filter n es = Some (mknet (ini n) (rsp n) [] []).
Proof.
  destruct n as [p q l l']. cbn [ini rsp]. revert l. induction l' as [|m l' IH]; intros l.
  - induction l as [|m l IHl]; [by exists []|]. destruct IHl as (es & Hes & E). exists (inr Lose :: es). split; [by constructor|].
    cbn [net_run net_step act mbind option_bind]. destruct q; exact E.
  - destruct (IH l) as (es & Hes & E). exists (inl Lose :: es). split; [by constructor|]. cbn [net_run net_step RdvNet.act to_ini mbind option_bind tail to_rsp].
    rewrite app_nil_r. destruct p; exact E.
Qed.

Lemma from_empty gI gR n gI' gR' : net_inv gI gR n -> (forall p q, net_inv gI gR (mknet p q [] []) -> reach (mknet p q [] []) gI' gR') -> reach n gI' gR'.
Proof.
  intros [HI HR _ _ H1 H2] Hnext. destruct (run_flush n) as (es & Hes & E). destruct (Hnext (ini n) (rsp n)) as (es' & n' & Hes' & E' & Hn'); [split; cbn; try done; apply chan_nil|].
  exists (es ++ es'), n'. split; [by apply Forall_app|]. split; [|done]. rewrite net_run_app, E. exact E'.
Qed.

(** The responder sends its packet and the initiator reads it. *)
Lemma rsp_tells gI gR n : net_inv gI gR n -> (gR < 3)%nat -> reach n (S gR) gR.
Proof.
  intros Hn Hg. apply (from_empty gI gR n); [done|]. intros p q [HI HR _ _ H1 H2]. cbn [ini rsp] in *. destruct q as [s reqpkt|s|s]; [|destruct HR; lia|done].
  destruct (looping_says find_filter s reqpkt []) as (now & s' & reqpkt' & E). destruct (rsp_tick find_filter a b gR _ [] now HR) as (q' & out & E2 & HR' & _).
  rewrite E in E2. injection E2 as <- <-. assert (Hm : rsp_msg a b gR (M_hs reqpkt.1)) by apply HR.
  destruct (ini_recv find_filter a b Ha Hb Hco Hwin gI gR p _ 1 0 false [] HI Hm H2 ltac:(lia) ltac:(lia)) as (p' & out & E3 & HI' & Hout).
  exists [inr (Tick now); inl (Recv 1 0 false)], (mknet p' (Looping s' reqpkt') out []). split; [by repeat constructor|].
  split; [cbn [net_run net_step to_rsp to_ini ini rsp]; rewrite E; cbn [mbind option_bind app to_ini ini rsp to_rsp]; by rewrite E3|].
  pose proof (lI_mono gI (S gR) H2). split; cbn [ini rsp to_rsp to_ini]; try done; [|constructor|lia]. apply (chan_weaken _ (lI gI) (lI (S gR))); [done|lia..].
Qed.

(** The initiator sends its packet, a keep-alive when it is connected, and the
    responder reads it. *)
Lemma ini_tells gI gR n : net_inv gI gR n -> reach n gI (S (lI gI)).
Proof.
  intros Hn. apply (from_empty gI gR n); [done|]. intros p q [HI HR _ _ H1 H2]. cbn [ini rsp] in *.
  assert (Hsay : exists e p' m, timely (inl e) /\ act find_filter p [] e = Some (p', [], [m]) /\ ini_inv a b gI p' /\ ini_msg a (lI gI) m).
  { destruct p as [s reqpkt|s|s]; [| |done].
    - destruct (looping_says find_filter s reqpkt []) as (now & s' & reqpkt' & E). destruct (ini_tick find_filter a b gI _ [] now HI) as (p' & out & E2 & HI' & _).
      rewrite E in E2. injection E2 as <- <-. exists (Tick now), (Looping s' reqpkt'), (M_hs reqpkt.1). split; [done|]. split; [done|]. split; [done|apply HI].
    - exists Keepalive, (Joined s), M_keepalive. split; [done|]. split; [done|]. split; [done|]. destruct HI as [Hg _].
      assert (lI gI = 2%nat) as -> by (destruct gI as [|[|[|]]]; done || lia). apply im_keepalive. }
  destruct Hsay as (e & p' & m & He & E & HI' & Hm). pose proof (lI_mono gI (S gR) H2).
  destruct (rsp_recv find_filter a b Ha Hb Hco contest_loses gR (lI gI) q m 1 0 false [] HR Hm H1 ltac:(lia) ltac:(lia)) as (q' & out & E3 & HR' & Hout).
  exists [inl e; inr (Recv 1 0 false)], (mknet p' q' [] out). split; [by repeat constructor|].
  split; [cbn [net_run net_step to_rsp to_ini ini rsp]; rewrite E; cbn [mbind option_bind app to_ini ini rsp to_rsp]; by rewrite E3|].
  split; cbn [ini rsp to_rsp to_ini]; try done; [constructor| |lia]. apply (chan_weaken _ gR (S (lI gI))); [done|lia..].
Qed.

Lemma inv_joined gI n : net_inv gI 3 n -> both_joined n.
Proof.
  intros [HI HR _ _ H1 _]. destruct (rsp n) as [s q|sR|s] eqn:ER; [destruct HR; lia| |done]. destruct (ini n) as [s q|sI|s] eqn:EI; [|by exists sI, sR|done].
  destruct HI as [Hg _]. destruct gI as [|[|[|]]]; cbn in H1; lia.
Qed.

Definition completes n : Prop := exists es n', Forall timely es /\ net_run find_filter n es = Some n' /\ both_joined n'.

Lemma completes_joined gI gR n : net_inv gI gR n -> (3 <= gI)%nat -> completes n.
Proof.
  intros Hn Hg. assert (lI gI = 2%nat) as E by (destruct gI as [|[|[|]]]; done || lia). pose proof (ini_tells gI gR n Hn) as Hr. rewrite E in Hr.
  apply (reach_then n _ _ _ Hr). intros n1 Hn1. exists [], n1. split; [constructor|]. split; [done|]. by apply (inv_joined gI).
Qed.

(** A round: the initiator tells, then the responder. *)
Lemma round gI gR n : net_inv gI gR n -> (gI < 3)%nat -> reach n (S (S (lI gI))) (S (lI gI)).
Proof.
  intros Hn Hg. apply (reach_then n gI (S (lI gI))); [by apply (ini_tells gI gR)|]. intros n1 Hn1. apply (rsp_tells gI); [done|]. destruct gI as [|[|[|]]]; cbn; lia.
Qed.

Lemma inv_completes gI gR n : net_inv gI gR n -> completes n.
Proof.
  intros Hn. destruct (decide (3 <= gI)%nat); [by apply (completes_joined gI gR)|]. apply (reach_then n _ _ _ (round gI gR n Hn ltac:(lia))). intros n1 Hn1.
  set (g1 := S (S (lI gI))) in *. destruct (decide (3 <= g1)%nat); [by apply (completes_joined g1 _ n1 Hn1)|].
  apply (reach_then n1 _ _ _ (round g1 _ n1 Hn1 ltac:(lia))). intros m2 Hm2. apply (completes_joined _ _ m2 Hm2).
  assert (g1 = 2%nat) as -> by lia. cbn. lia.
Qed.
End Run.

(** ** Properties *)

Section Properties.
Variable find_filter : list Z -> option Factory.


End Properties.

(** Two parties: one wants 200 ms and a stream ID, the other 500 ms. *)
Definition alice : setup := mksetup (live_config 200 0 true [97; 98; 99]) true 1000 5 11 8192 [0x0100007F; 0; 0; 0].
Definition bob : setup := mksetup (live_config 120 500 true []) true 999 0x7FFFFFFE 12 8192 [0x0200007F; 0; 0; 0].

Lemma alice_ok : setup_ok alice.
Proof.
  split; [apply live_plain; cbn; unfold MAX_SID_LENGTH; lia|done|done|cbn; lia|cbn; lia|cbn; lia|cbn; unfold in_i32; lia|cbn; lia|cbn; unfold in_i32; lia|cbn; lia|cbn; lia|].
  split; [done|]. repeat constructor; unfold in_u32; lia.
Defined.
Lemma bob_ok : setup_ok bob.
Proof.
  split; [apply live_plain; cbn; unfold MAX_SID_LENGTH; lia|done|done|cbn; lia|cbn; lia|cbn; lia|cbn; unfold in_i32; lia|cbn; lia|cbn; unfold in_i32; lia|cbn; lia|cbn; lia|].
  split; [done|]. repeat constructor; unfold in_u32; lia.
Defined.

(** A run in which packets are lost and repeated and arrive in parallel. *)
Definition a_run : list (event + event) :=
  [inr (Recv 10 0 true); inl Lose; inr (Tick 400000); inl (Recv 500000 3 false); inl (Tick 800000); inr Lose; inr (Recv 900000 4 true); inr (Recv 900001 4 false); inl (Tick 1300000)].

Definition the_rest : list (event + event) :=
  [inr (Tick 10000000); inl (Recv 10000001 5 true); inl (Recv 10000002 5 false); inl (Recv 10000003 5 false); inr (Recv 10000004 5 false); inr (Recv 10000005 5 false);
   inr (Recv 10000006 5 true); inr (Tick 11000000); inl (Recv 11000001 6 true); inl (Recv 11000002 6 false); inl (Recv 11000003 6 true); inl (Recv 11000004 6 false);
   inl (Recv 11000005 6 false); inl Keepalive; inr (Recv 11000006 7 false); inr (Recv 11000007 8 false); inr Lose; inr Lose; inr Lose; inr Lose; inr (Recv 11000008 8 true); inr (Recv 11000009 8 false)].


