(* ===== verification/RdvFault.v ===== *)
(** Where the rendezvous breaks: handshakes that arrive out of order, and the
    repetition of the asynchronous mode. *)
From S2P Require Import Prelude Packet SeqNo Handshake FilterConfig HsExt HsExtInv HsExtRun Rendezvous RdvNet RdvParty RdvStep RdvRun.
Import CHandShake CUDT.

Section Faults.
Variable find_filter : list Z -> option Factory.
Implicit Types s : state.

(** A party in the loop that receives a rejection gives up. *)
Lemma rejection_taken w ts now s reqpkt : (content_words <= length w)%nat -> URQ_FAILURE_TYPES <= i32 w.[5] -> m_bConnecting s = true -> m_RdvState s <> RDV_CONNECTED ->
  exists s', connect_iteration find_filter now (Some (incoming (M_hs w) ts)) false false env_ok (clear s, reqpkt) = Some (inr (s', error_rejected)) /\
    m_RejectReason s' = RejectReasonForURQ (i32 w.[5]).
Proof.
  intros Hl Hrq Hc Hr. unfold connect_iteration. destruct (resend_spec now s reqpkt) as (s1 & id & -> & Hbf & _). destruct (fields_before _ _ Hbf) as (F1 & _ & F3 & _).
  assert (Hc1 : m_bConnecting s1 = true) by (destruct Hbf as (l & t & ->); exact Hc). rewrite <- F1 in Hr.
  unfold processConnectResponse. rewrite Hc1, (bool_decide_false _ Hr).
  change (is_control (incoming (M_hs w) ts)) with true. change (is_type CPacket.UMSG_KEEPALIVE (incoming (M_hs w) ts)) with false.
  change (is_type CPacket.UMSG_EXT (incoming (M_hs w) ts)) with false. change (is_type CPacket.UMSG_HANDSHAKE (incoming (M_hs w) ts)) with true.
  cbn [negb orb andb]. rewrite andb_false_r. cbn [andb]. unfold load_packet, load_from, getLength. change (in_pkt (incoming (M_hs w) ts)) with (mkpkt w 0 ts). cbn [pkt_words pkt_tail].
  rewrite (proj2 (Z.ltb_ge _ _)) by (unfold m_iContentSize, content_words in *; lia).
  change (0 =? -1) with false. cbn [m_iReqType]. rewrite (proj2 (Z.leb_le _ _)) by exact Hrq. cbn [mbind option_bind]. rewrite decide_False by done. cbn [mbind option_bind].
  rewrite !bool_decide_false by done. cbn [negb andb]. eexists. split; [reflexivity|]. unfold finish_connect. rewrite !decide_True by done. done.
Qed.

(** What a party does that rejects the handshake it has taken. *)
Lemma rejects now h rest ts s s1 s2 reqpkt reqpkt1 reqpkt2 : peer_hs h -> m_iReqType h <= 0 ->
  resend now (clear s) reqpkt = (s1, reqpkt1) -> m_bConnecting s1 = true -> m_RdvState s1 <> RDV_CONNECTED -> bRendezvous (m_config s1) = true ->
  processRendezvous find_filter (Some (mkpkt (words h ++ rest) 0 ts)) RST_OK env_ok now reqpkt1 (set_m_ConnRes (set_m_extension (m_extension (m_ConnRes s1)) h) s1) =
    Some (CONN_REJECT, s2, reqpkt2) -> m_RejectReason s2 = SRT_REJ_ROGUE ->
  exists s', connect_iteration find_filter now (Some (incoming (M_hs (words h ++ rest)) ts)) false false env_ok (clear s, reqpkt) = Some (inr (s', error_rejected)) /\
    m_RejectReason s' = SRT_REJ_ROGUE /\
    messages (effects s') = messages (effects s2) ++ [M_hs (words (set_m_iReqType (URQFailure SRT_REJ_ROGUE) (m_ConnReq s2))); M_shutdown].
Proof.
  intros Hh Hrq Hre Hc Hr Hrdv Hproc Hrej. unfold connect_iteration. rewrite Hre, response_taken by done. cbn [mbind option_bind]. rewrite decide_True by done.
  change (in_pkt (incoming (M_hs (words h ++ rest)) ts)) with (mkpkt (words h ++ rest) 0 ts). rewrite Hproc. cbn [mbind option_bind].
  rewrite decide_False, decide_True by done. rewrite Hrej. change (SRT_REJ_ROGUE =? SRT_REJ_UNKNOWN) with false. cbn [mbind option_bind].
  rewrite !bool_decide_false by done. cbn [negb andb]. eexists. split; [reflexivity|]. unfold finish_connect. rewrite !decide_True by done. split; [exact Hrej|].
  cbn -[words messages]. unfold messages. rewrite !omap_app, <- !app_assoc. cbn -[words]. by rewrite Hrej.
Qed.

(** The state machine has no transition for the handshake. *)
Lemma no_transition p now s reqpkt : m_RdvState s = RDV_FINE \/ m_RdvState s = RDV_INITIATED -> m_SrtHsSide s <> HSD_DRAW -> m_iReqType (m_ConnRes s) = URQ_WAVEAHAND ->
  processRendezvous find_filter p RST_OK env_ok now reqpkt s = Some (CONN_REJECT, reject SRT_REJ_ROGUE (set_m_RdvState RDV_WAVING s), reqpkt).
Proof.
  intros Hst Hne Hrq. unfold processRendezvous. rewrite decide_False by (destruct Hst as [-> | ->]; done). unfold rendezvous_begin.
  assert (cookieContest s = s) as -> by (unfold cookieContest; by rewrite bool_decide_false). rewrite decide_False by done. unfold rendezvousSwitchState.
  assert (switch_state (m_RdvState s) (m_SrtHsSide s) (m_iReqType (m_ConnRes s)) (SrtHSRequest.HSFLAGS (m_iType (m_ConnRes s))) URQ_FAILURE_TYPES =
    (RDV_WAVING, URQFailure SRT_REJ_ROGUE, false, false)) as -> by (rewrite Hrq; destruct Hst as [-> | ->]; done).
  change (URQ_FAILURE_TYPES <? URQFailure SRT_REJ_ROGUE) with true. done.
Qed.

(** The responder without a request gets an agreement. *)
Lemma agreement_alone h e ts now s reqpkt : m_RdvState s = RDV_ATTENTION -> m_SrtHsSide s = HSD_RESPONDER -> m_ConnRes s = set_m_extension e h -> peer_hs h -> m_iType h = 0 ->
  m_iReqType h = URQ_AGREEMENT -> exists s', processRendezvous find_filter (Some (mkpkt (words h) 0 ts)) RST_OK env_ok now reqpkt s = Some (CONN_REJECT, s', reqpkt) /\
    m_RejectReason s' = SRT_REJ_ROGUE /\ m_piPeerIP (m_ConnReq s') = m_piPeerIP (m_ConnReq s).
Proof.
  intros Hst Hsd Hres Hh Hty Hrq. unfold processRendezvous. rewrite decide_False by (rewrite Hst; done).
  assert (Hp : peer_hs (m_ConnRes s)) by (rewrite Hres; destruct Hh as [[] ? ? ?]; by split; [split|..]).
  rewrite (begin_eq s HSD_RESPONDER RDV_ATTENTION URQ_CONCLUSION true true); [|done|rewrite Hres; cbn; by rewrite Hty|unfold cookieContest; by rewrite bool_decide_false by (rewrite Hsd; done)|done
    |rewrite Hst, Hres; cbn; by rewrite Hrq, Hty|done].
  destruct (begin_facts s HSD_RESPONDER RDV_ATTENTION URQ_CONCLUSION true) as (_ & _ & B3 & _ & _).
  assert (B6 : m_piPeerIP (m_ConnReq (begin_state HSD_RESPONDER RDV_ATTENTION URQ_CONCLUSION true s)) = m_piPeerIP (m_ConnReq s)) by done.
  generalize dependent (begin_state HSD_RESPONDER RDV_ATTENTION URQ_CONCLUSION true s). intros s1 B3 B6. unfold rendezvous_answer. rewrite decide_True by done.
  unfold interpretSrtHandshake. change (m_ConnRes (request_now s1)) with (m_ConnRes s1). rewrite B3, (ph_version _ Hp). change (HS_VERSION_SRT1 =? 0) with false. rewrite andb_false_r.
  change (HS_VERSION_SRT1 <? HS_VERSION_SRT1) with false. unfold getLength. cbn [pkt_words pkt_tail]. rewrite length_words by exact (ok_ip h (ph_ok _ Hh)).
  change (4 * Z.of_nat content_words + 0 <=? m_iContentSize) with true. cbn [mbind option_bind negb]. rewrite bool_decide_false by done. cbn [negb]. eexists. split; [reflexivity|]. by split.
Qed.

(** The rejection that a party sends makes a peer in its loop give up. *)
Lemma rejection_words h : length (m_piPeerIP h) = 4%nat -> m_iReqType h = URQFailure SRT_REJ_ROGUE -> forall s2 reqpkt2 ts2 now2, m_bConnecting s2 = true -> m_RdvState s2 <> RDV_CONNECTED ->
  exists s3, connect_iteration find_filter now2 (Some (incoming (M_hs (words h)) ts2)) false false env_ok (clear s2, reqpkt2) = Some (inr (s3, error_rejected)) /\ m_RejectReason s3 = SRT_REJ_ROGUE.
Proof.
  intros Hip Hrq s2 reqpkt2 ts2 now2 Hc2 Hr2. assert (E : i32 (words h).[5] = URQFailure SRT_REJ_ROGUE).
  { change ((words h).[5]) with (u32 (m_iReqType h)). by rewrite Hrq. }
  destruct (rejection_taken (words h) ts2 now2 s2 reqpkt2) as (s3 & E3 & Hr3); [by rewrite length_words|by rewrite E|done..|]. exists s3. split; [done|]. by rewrite Hr3, E.
Qed.

(** C31. Handshakes that the network has overtaken: one that begins the rendezvous
    at a party that has seen a later one, and an agreement at a responder that
    has not seen the request.  The party gives up, and so does the peer when it
    is still in its loop and receives what the party sends then. *)
Theorem rdv_out_of_order (s : state) (h : CHandShake.t) (reqpkt : list Z * Z) (ts now : Z) (Hc : m_bConnecting s = true) (Hrdv : bRendezvous (m_config s) = true)
  (Hip : length (m_piPeerIP (m_ConnReq s)) = 4%nat) (Hh : peer_hs h)
  (Hcase : (m_RdvState s = RDV_FINE \/ m_RdvState s = RDV_INITIATED) /\ m_SrtHsSide s <> HSD_DRAW /\ m_iReqType h = URQ_WAVEAHAND \/
           m_RdvState s = RDV_ATTENTION /\ m_SrtHsSide s = HSD_RESPONDER /\ m_iReqType h = URQ_AGREEMENT /\ m_iType h = 0) :
  exists s' w, connect_iteration find_filter now (Some (incoming (M_hs (words h)) ts)) false false env_ok (clear s, reqpkt) = Some (inr (s', error_rejected)) /\
    m_RejectReason s' = SRT_REJ_ROGUE /\ M_hs w ∈ messages (effects s') /\
    forall s2 reqpkt2 ts2 now2, m_bConnecting s2 = true -> m_RdvState s2 <> RDV_CONNECTED ->
      exists s3, connect_iteration find_filter now2 (Some (incoming (M_hs w) ts2)) false false env_ok (clear s2, reqpkt2) = Some (inr (s3, error_rejected)) /\ m_RejectReason s3 = SRT_REJ_ROGUE.
Proof.
  destruct (resend_spec now s reqpkt) as (s1 & id & Hre & Hbf & _). destruct (fields_before _ _ Hbf) as (F1 & F2 & F3 & F4 & F5).
  assert (Hc1 : m_bConnecting s1 = true) by (destruct Hbf as (l & t & ->); exact Hc). rewrite <- F1, <- F2 in Hcase. rewrite <- F3 in Hrdv. rewrite <- F5 in Hip.
  set (s4 := set_m_ConnRes (set_m_extension (m_extension (m_ConnRes s1)) h) s1).
  assert (Hrej : exists s5, processRendezvous find_filter (Some (mkpkt (words h ++ []) 0 ts)) RST_OK env_ok now (reqpkt.1, id) s4 = Some (CONN_REJECT, s5, (reqpkt.1, id)) /\
    m_RejectReason s5 = SRT_REJ_ROGUE /\ length (m_piPeerIP (m_ConnReq s5)) = 4%nat).
  { rewrite app_nil_r. destruct Hcase as [(Hst & Hsd & Hrq)|(Hst & Hsd & Hrq & Hty)].
    - eexists. split; [by apply no_transition|]. by split.
    - destruct (agreement_alone h (m_extension (m_ConnRes s1)) ts now s4 (reqpkt.1, id)) as (s5 & E & Hr & Hi); try done. exists s5. split; [done|]. split; [done|]. by rewrite Hi. }
  destruct Hrej as (s5 & Hproc & Hr5 & Hip5).
  destruct (rejects now h [] ts s s1 s5 reqpkt (reqpkt.1, id) (reqpkt.1, id) Hh) as (s' & E & Hr & Hm); try done.
  { destruct Hcase as [(_ & _ & ->)|(_ & _ & -> & _)]; done. }
  { destruct Hcase as [([-> | ->] & _)|(-> & _)]; done. }
  rewrite app_nil_r in E. exists s', (words (set_m_iReqType (URQFailure SRT_REJ_ROGUE) (m_ConnReq s5))). split; [exact E|]. split; [exact Hr|]. split.
  { rewrite Hm. apply elem_of_app. right. apply elem_of_cons. by left. }
  by apply rejection_words.
Qed.


(** A packet that holds no extension block is refused. *)
Lemma interpret_short hs w tl ts have_out now s : m_iVersion hs = HS_VERSION_SRT1 -> 4 * zlen w + tl <= m_iContentSize ->
  interpretSrtHandshake find_filter hs (mkpkt w tl ts) have_out now s = Some (reject SRT_REJ_ROGUE s, false, []).
Proof.
  intros Hv Hl. unfold interpretSrtHandshake. rewrite Hv. change (HS_VERSION_SRT1 =? 0) with false. rewrite andb_false_r. change (HS_VERSION_SRT1 <? HS_VERSION_SRT1) with false.
  unfold getLength. cbn [pkt_words pkt_tail]. by rewrite (proj2 (Z.leb_le _ _)).
Qed.

(** The packet of a rejection, which has the version 0. *)
Lemma create_rejection cmd kcmd s hs w_len : m_iVersion (m_ConnRes s) <> HS_VERSION_UDT4 -> m_iVersion hs = 0 -> m_extension hs = false -> 48 <= w_len ->
  createSrtHandshake cmd kcmd [] w_len hs s = Some (s, set_m_iType UDT_DGRAM hs, Some (words (set_m_iType UDT_DGRAM hs))).
Proof.
  intros Hv4 Hv Hext Hlen. unfold createSrtHandshake. rewrite (proj2 (Z.eqb_neq (m_iVersion (m_ConnRes s)) _)) by done.
  destruct hs as [v ty isn mss fl rq id ck ip e]. cbn in Hv, Hext. subst v e. cbn -[words]. by rewrite (proj2 (Z.ltb_ge _ _)).
Qed.

(** The answer of a connected initiator to a bare handshake. *)
Lemma ctrl_hs_rejects (a b : setup) s h ts now : joined a b s -> SrtHSRequest.HSFLAGS (m_iType (m_ConnRes s)) <> 0 -> peer_hs h ->
  m_iReqType h = URQ_WAVEAHAND \/ m_iReqType h = URQ_CONCLUSION ->
  exists hs, m_iReqType hs = URQFailure SRT_REJ_ROGUE /\ length (m_piPeerIP hs) = 4%nat /\
    processCtrlHS find_filter (mkpkt (words h) 0 ts) now s = Some (emit (E_send (words hs) (m_PeerID s)) (reject SRT_REJ_ROGUE (reject SRT_REJ_ROGUE s))).
Proof.
  intros [Jo Jl Jv Jp Ji Jd] Hfl Hh Hrq. pose proof (so_rdv _ _ Jo) as Hr. unfold processCtrlHS, load_packet, getLength. cbn [pkt_words pkt_tail].
  assert (El : load_from (words h) (4 * zlen (words h) + 0) CHandShake.init = (set_m_extension false h, 0)).
  { rewrite <- (app_nil_r (words h)) at 1. rewrite load_words; [done|exact (ph_ok _ Hh)|rewrite length_words by exact (ok_ip h (ph_ok _ Hh)); done]. }
  rewrite El. cbn [fst]. change (m_iReqType (set_m_extension false h)) with (m_iReqType h). change (m_iVersion (set_m_extension false h)) with (m_iVersion h).
  rewrite (ph_version _ Hh), Hr.
  assert ((URQ_INDUCTION_TYPES <? m_iReqType h) || true && negb (m_iReqType h =? URQ_AGREEMENT) = true) as -> by (destruct Hrq as [-> | ->]; done).
  assert ((HS_VERSION_UDT4 <? HS_VERSION_SRT1) = true) as -> by done. apply Z.eqb_neq in Hfl. rewrite Hfl. cbn [negb].
  rewrite interpret_short; [|exact (ph_version _ Hh)|rewrite length_words by exact (ok_ip h (ph_ok _ Hh)); done].
  cbn [mbind option_bind negb]. generalize (HsExt.iMSS (m_config s)), (HsExt.iFlightFlagSize (m_config s)), (m_iISN s), (m_SocketID s). intros mss fl isn id.
  set (s1 := reject SRT_REJ_ROGUE (reject SRT_REJ_ROGUE s)).
  assert (H1 : m_ConnRes s1 = m_ConnRes s /\ m_iMaxSRTPayloadSize s1 = m_iMaxSRTPayloadSize s /\ m_PeerID s1 = m_PeerID s /\ m_RejectReason s1 = SRT_REJ_ROGUE) by done.
  clearbody s1. destruct H1 as (E1 & E2 & E3 & E4). rewrite E4, E2. rewrite create_rejection; [|by rewrite E1, Jv|done|done|lia].
  cbn [mbind option_bind]. rewrite E3. eexists. split; [|split; [|reflexivity]]; reflexivity.
Qed.

(** An initiator that is connected looks at the flags of the handshake that
    connected it to decide what a later one holds: a bare one, which comes
    when the network has repeated or overtaken it, is taken for one with
    extensions and answered with a rejection; a responder that still waits
    for the agreement gives up. *)
Theorem ctrl_hs_late (a b : setup) (s : state) (h : CHandShake.t) (ts now : Z) (Hj : joined a b s) (Hfl : SrtHSRequest.HSFLAGS (m_iType (m_ConnRes s)) <> 0)
  (Hh : peer_hs h) (Hrq : m_iReqType h = URQ_WAVEAHAND \/ m_iReqType h = URQ_CONCLUSION) :
  exists s' w, processCtrlHS find_filter (mkpkt (words h) 0 ts) now (clear s) = Some s' /\ m_RejectReason s' = SRT_REJ_ROGUE /\ messages (effects s') = [M_hs w] /\
    forall s2 reqpkt2 ts2 now2, m_bConnecting s2 = true -> m_RdvState s2 <> RDV_CONNECTED ->
      exists s3, connect_iteration find_filter now2 (Some (incoming (M_hs w) ts2)) false false env_ok (clear s2, reqpkt2) = Some (inr (s3, error_rejected)) /\ m_RejectReason s3 = SRT_REJ_ROGUE.
Proof.
  destruct (ctrl_hs_rejects a b (clear s) h ts now) as (hs & H1 & H2 & E); [|done..|].
  { destruct Hj as [? [] ? ? ? ?]. by split; [|split|..]. }
  eexists _, _. split; [exact E|]. split; [done|]. split; [done|]. by apply rejection_words.
Qed.
End Faults.

(** ** Witnesses *)

(** The responder at the beginning, and after a bare handshake. *)
Definition bob_started : state := (started bob 0).1.
Definition bob_waiting : state := set_m_SrtHsSide HSD_RESPONDER (set_m_RdvState RDV_ATTENTION bob_started).
Definition alice_hs (rq : Z) : CHandShake.t := request alice 0 rq false.

Lemma alice_hs_ok rq : in_i32 rq -> from alice (alice_hs rq).
Proof. intros Hrq. apply request_from; [exact alice_ok|done|done]. Defined.

Lemma rdv_out_of_order_witness : exists s' w,
  connect_iteration builtin_filter 1000 (Some (incoming (M_hs (words (alice_hs URQ_AGREEMENT))) 7)) false false env_ok (clear bob_waiting, ([], 0)) = Some (inr (s', error_rejected)) /\
  m_RejectReason s' = SRT_REJ_ROGUE /\ M_hs w ∈ messages (effects s').
Proof.
  destruct (rdv_out_of_order builtin_filter bob_waiting (alice_hs URQ_AGREEMENT) ([], 0) 7 1000) as (s' & w & E & Hr & Hm & _); try reflexivity.
  - apply alice_hs_ok. done.
  - right. split; [reflexivity|]. split; [reflexivity|]. split; reflexivity.
  - exists s', w. split; [exact E|]. split; [exact Hr|exact Hm].
Defined.

(** An initiator that a response has connected. *)
Definition alice_joined : state :=
  set_m_iPeerTsbPdDelay_ms 120 (set_m_iTsbPdDelay_ms 500 (set_m_bPeerTsbPd true (set_m_bTsbPd true
    (set_m_ConnRes (request bob HS_EXT_HSREQ URQ_CONCLUSION false) (set_m_RdvState RDV_CONNECTED (started alice 0).1))))).

Lemma ctrl_hs_late_witness : exists s' w, processCtrlHS builtin_filter (mkpkt (words (request bob 0 URQ_CONCLUSION false)) 0 7) 1000 (clear alice_joined) = Some s' /\ messages (effects s') = [M_hs w].
Proof.
  destruct (ctrl_hs_late builtin_filter alice bob alice_joined (request bob 0 URQ_CONCLUSION false) 7 1000) as (s' & w & E & _ & Hm & _).
  - split; [|split; reflexivity|reflexivity|vm_compute; done|reflexivity|reflexivity].
    split; try reflexivity; [apply live_plain; cbn; unfold MAX_SID_LENGTH; lia|vm_compute; done].
  - vm_compute. done.
  - apply request_from; [exact bob_ok|done|done].
  - right. reflexivity.
  - exists s', w. split; [exact E|exact Hm].
Defined.

Lemma started_party c now : setup_ok c -> party_ok c (started c now).1 /\ m_RdvState (started c now).1 = RDV_WAVING /\ m_SrtHsSide (started c now).1 = HSD_DRAW.
Proof. intros Hc. by destruct (started_eq c now Hc) as (s & -> & H1 & _ & H2 & H3 & _). Qed.

(** The responder has missed the first handshake and gets the request. *)
Definition alice_request : CHandShake.t := request alice (ext_type [97; 98; 99]) URQ_CONCLUSION true.
Definition bob_asked : state := set_m_ConnRes (set_m_extension false alice_request) bob_started.

Lemma bob_taken : taken bob bob_asked HSD_RESPONDER RDV_FINE URQ_CONCLUSION true true.
Proof.
  destruct (started_party bob 0 bob_ok) as (Hp & Hr & Hs). apply (taken_from bob alice); [exact bob_ok|exact alice_ok|exact Hp| |done| | |done|done|].
  - apply request_from; [exact alice_ok|done|done].
  - right. split; [exact Hs|split; reflexivity].
  - fold bob_started in Hr. by rewrite Hr.
  - fold bob_started in Hr. by rewrite Hr.
Qed.

